(* ===== verification/_CoqProject ===== *)
-Q . S2P
Prelude.v
GoText.v
GoTextFacts.v
GoGlob.v
GoFloat.v
GoLib.v
Faults.v
Paths.v
GoDisk.v
DiskLaws.v
PathDescriptor.v
Value.v
Pointer.v
Descriptor.v
CodecKV.v
Codec.v
Cron.v
Overlay.v
DefaultsSpec.v
Metadata.v
MetaWire.v
TemplateSyntax.v
Externalize.v
IdentityTemplate.v
Identity.v
OperationSpec.v
TemplateScope.v
MetaValidate.v
OpenAPIMatch.v
OpenAPIInfer.v
FsStore.v
FsStoreFacts.v
FsMetadata.v
FsRender.v
RuntimeMetadata.v
Diff.v
SyncPlan.v
ConflictIndex.v
Dedupe.v
Secrets.v
SecretsPayload.v
Services.v
FsRepository.v
ActionFacts.v
Orchestrator.v
OrchestratorFacts.v
ApplyConvergence.v
FallbackTermination.v
LocalRoundTrip.v
AppDeps.v
SecretWorkflow.v
SaveResource.v
ReadResource.v
MutateResource.v
SavedSecrets.v
SaveRoundTrip.v
ReadMasks.v
Throttle.v
HttpSchema.v
HttpSchemaFacts.v
HttpPayload.v
HttpDescription.v
HttpRequest.v
HttpClient.v
HttpListFacts.v
HttpClientFacts.v
JqCache.v
ContextConfig.v
PromptAuth.v
PromptAuthFacts.v
ProxyConfig.v
ContextRules.v
ContextCatalog.v
ContextFacts.v
ContextCatalogFacts.v
FileStore.v
FileStoreFacts.v
