(* ===== verification/Prelude.v ===== *)
(** * DeclaREST: a verification library (root)

    DeclaREST keeps the resources of a REST service as files of a repository and brings the
    service to the state they describe. Logical paths name resources; metadata documents,
    merged along the path, say how a resource is identified, which requests reach it, which of
    its attributes are secret, kept in files of their own, or defaults; the orchestrator reads,
    compares, saves and applies resources; the operator runs it on a schedule and on webhooks.

    This library models the Go code under [src/] as executable functions and proves what makes
    it correct. A definition has the name of the Go function it translates; an auxiliary loop
    or branch of a function has a name of its own. The files, in the order they build on each
    other:

    - foundations: [Prelude] (results, notations, hints, lemmas on maps and lists), [GoText],
      [GoTextFacts], [GoGlob], [GoFloat], [GoLib] (instants, media types, base64): the parts of the Go
      language and standard library that the code uses. A Go string is a list of bytes, an
      [int] a [Z] with its range or its wrap-around written out, a panic an error apart
      ([Panic] of [Faults.outcome]);
    - the resource core, [src/resource], [src/faults]: [Faults], [Paths], [Value], [Pointer],
      [Descriptor], [CodecKV], [Codec], [Overlay], [Identity];
    - metadata, [src/metadata]: [DefaultsSpec], [Metadata], [MetaWire], [TemplateSyntax],
      [OperationSpec], [TemplateScope], [PathDescriptor], [IdentityTemplate],
      [RuntimeMetadata]; the inference of metadata from an OpenAPI description:
      [OpenAPIMatch], [OpenAPIInfer]; the service on files, [src/internal/providers/metadata/fs]:
      [MetaValidate], [FsMetadata], [FsRender];
    - files: [GoDisk] (the file system calls, as a class, and a file tree that implements it),
      [DiskLaws] (what a theorem needs of a disk, and files of the user alone); the repository in files,
      [src/internal/providers/repository/fsstore]: [FsStore], with [FsStoreFacts], its
      specification as a map from paths to payloads, and [FsRepository], the promise it
      keeps to the orchestrator;
    - secrets, [src/secrets]: [Secrets], [SecretsPayload]; the store in an encrypted file,
      [src/internal/providers/secrets/file]: [FileStore], with [FileStoreFacts], its
      specification as a map;
    - externalized attributes, [src/internal/resourceexternalization]: [Externalize];
    - the orchestrator, [src/internal/orchestrator]: [Diff], [Services] (the interfaces it is
      built on, as records of operations over a state of what is outside), [Orchestrator];
      reasoning about it: [ActionFacts], [OrchestratorFacts];
    - the commands, [src/internal/app]: [AppDeps] (the services a command may be given),
      [SecretWorkflow], [SaveResource], [ReadResource], [MutateResource]; what saving and
      reading do with secrets: [SavedSecrets], [SaveRoundTrip], [ReadMasks];
    - the client of the managed service, [src/internal/providers/managedservice/http]:
      [Throttle] (the gate of the requests), [JqCache] (the compiled jq expressions),
      [HttpSchema] (the validation of a payload against the OpenAPI description),
      [HttpDescription] (what the description says of a request), [HttpPayload] (bodies, their
      transforms, lists), [HttpRequest] (the request of an operation), [HttpClient]
      (credentials, addresses, sending, the operations); reasoning about them:
      [HttpSchemaFacts], [HttpListFacts], [HttpClientFacts];
    - contexts, the settings of a service and its repository, [src/config], [src/envref],
      [src/internal/proxy], [src/internal/promptauth], [src/internal/providers/config/file]:
      [ContextConfig] (their data), [ProxyConfig] (proxies), [PromptAuth] (credentials that
      are asked for, and their session),
      [ContextRules] (defaults, overrides, credentials, checks), [ContextCatalog] (the service
      of contexts); reasoning about them: [PromptAuthFacts], [ContextFacts],
      [ContextCatalogFacts];
    - the operator, [src/internal/operator], [src/cronexpr]: [Cron],
      [SyncPlan], [ConflictIndex], [Dedupe].

    Groups of theorems:

    - the orchestrator: one application of a payload leaves the service in the desired state
      and a second one changes nothing ([ApplyConvergence]); what is saved is what is applied
      ([LocalRoundTrip]); a read of a service whose identities are segments of a path ends
      ([FallbackTermination]);
    - the commands, where no attributes are named on the command line: the texts that saving
      a resource takes to the secret store come back when it is read with its secrets, what is
      saved is not taken for plain text any more ([SaveRoundTrip]), and reading without secrets
      shows no declared attribute ([ReadMasks]);
    - the secrets in a file: the store answers as a map for any history of operations and
      processes, refused ones included, until the disk or the random bytes fail, and what one
      masks into it another resolves ([FileStoreFacts]);
    - the repository in files: a saved payload is the one of its path and no other path
      changes, a listing is the children of the directory that have a payload, a deletion
      removes what it names and nothing else ([FsStoreFacts]);
    - the client of the managed service: a gate keeps its limits under every interleaving of
      requests and every request is answered ([Throttle]), the shared cache of expressions
      answers as the compiler does ([JqCache]); a schema accepts exactly the payloads that
      conform to it ([HttpSchemaFacts]); a list is decoded as its items say, a request belongs
      to the closest path of the description ([HttpListFacts]); a built request has
      the headers and the required attributes its metadata ask for, a sent one goes to the configured service with the configured credentials
      ([HttpClientFacts]);
    - contexts: an edit of the catalog is an edit of a map of contexts, and what is written of
      a saved catalog loads again ([ContextCatalogFacts]); a resolved context is the stored one
      with its overrides, and with credentials and proxies in their places, and stored again it
      is what it was ([ContextFacts]); credentials never
      share a value of the session ([PromptAuthFacts]);
    - round trips: secrets masked and resolved, texts taken out and put back, payloads
      compacted against their defaults and merged;
    - exactness: the resolution of metadata is the merge of exactly the documents that select
      a path, in order of precedence ([FsMetadata]); a difference is empty exactly for payloads
      that are equal up to the rounding of integers to floats ([Diff]); the plan of a sync accounts for every change of the repository to
      a file of a known extension ([SyncPlan]); the ownership index answers by its history ([ConflictIndex]);
    - safety and bounds: no secret is left in a masked payload, files stay below their
      directory, identities are children of their collection, schedules are reached.

    Code that is not in the repository is a parameter, a type class: the tables of Unicode,
    the JSON, YAML, XML and HCL libraries ([Codec.TextCodecs], [FsMetadata.WireCodec]),
    [text/template] ([TemplateSyntax.TemplateEngine]), jq ([Diff.JqEngine] and, with the
    function [resource], [HttpPayload.JqCompiler]), [net/url] ([HttpClient.UrlParser],
    [ProxyConfig.NetUrl]), the codec of catalogs and of sessions ([ContextCatalog.CatalogYAML],
    [PromptAuth.SessionJSON]), the modes of files ([DiskLaws.DiskModes]), AES-GCM, Argon2 and random bytes
    ([FileStore.Encryption], [FileStore.Randomness]), the transport and the clock of a client ([HttpClient.ClientHost]), the file system
    ([GoDisk.Disk]). What a theorem needs of one is a class or record of laws; the witness of
    the theorem gives an instance. The order in which Go walks a map is a parameter
    ([MetaWire.map_order]) wherever the answer could depend on it, and so is the order in which
    [sort.Slice] leaves resources of one path ([Services.ResourceSort]).

    Fuel and depths. The walkers of secrets bound their depth at 257 as the code does. The
    other loops recurse on the text, list, segments or payload they consume, or on a measure of
    it. Two loops of the orchestrator have no bound of their own: the rounds of the fallback
    over paths and the nesting of [resource()] calls take a fuel, an action without fuel left
    is [None], and [FallbackTermination.remote_read_ends] gives the fuel that is enough: one
    round for every path that can be written with the identities the service lists.

    Not modelled: the command line, the prompts on the terminal, completion and output; how
    the session of a terminal is told; the making of an HTTP client, and the completion of
    Swagger 2 descriptions (it writes into maps
    that places of the description share, and a value is a tree here); git around the repository in files; the store of secrets in Vault; the
    reconcilers of the operator beyond their pure parts; generated code; the debug log. Contexts of Go are modelled for the values they carry, not for cancellation. *)
From stdpp Require Export base tactics decidable option list gmap strings sorting.
From Stdlib Require Export ZArith Lia.

#[global] Set Warnings "-register-all".

#[global] Arguments reverse {_} _ : simpl never.

(** ** Fallible computations

    Go functions returning [(T, error)] are modelled by [result E T]: [Ok] is
    the value returned with a nil error, [Err] the non-nil error (the value
    returned with it is the zero value at every call of the modelled code). *)
Inductive result (E A : Type) : Type :=
| Ok (a : A)
| Err (e : E).
Arguments Ok {E A} _.
Arguments Err {E A} _.

#[export] Instance result_ret {E} : MRet (result E) := fun _ a => Ok a.
#[export] Instance result_bind {E} : MBind (result E) := fun _ _ f m =>
  match m with Ok a => f a | Err e => Err e end.
#[export] Instance result_fmap {E} : FMap (result E) := fun _ _ f m =>
  match m with Ok a => Ok (f a) | Err e => Err e end.
#[export] Instance result_eq_dec `{EqDecision E, EqDecision A} : EqDecision (result E A).
Proof. solve_decision. Defined.

(** The scope of the notations of this library. *)
Declare Scope declarest_scope.
Delimit Scope declarest_scope with declarest.
Notation "a == b" := (bool_decide (a = b)) (at level 70, no associativity) : declarest_scope.
#[global] Open Scope declarest_scope.

(** Decide the equality tests whose answer is in the context. *)
Ltac eqb_step :=
  match goal with
  | |- context [bool_decide (?a = ?b)] =>
      first [rewrite (bool_decide_true (a = b)) by done
            |rewrite (bool_decide_false (a = b)) by (done || congruence)]
  end.
Ltac eqb := repeat eqb_step; cbn [negb orb andb].
Ltac eqb_in H :=
  repeat match type of H with
  | context [bool_decide (?a = ?b)] =>
      first [rewrite (bool_decide_true (a = b)) in H by done
            |rewrite (bool_decide_false (a = b)) in H by (done || congruence)]
  end; cbn [negb orb andb] in H.
(** Split on an equality test and decide the others. *)
Ltac case_eqb a b := destruct (decide (a = b)) as [?|?]; [subst; eqb|eqb].

Definition is_ok {E A} (r : result E A) : bool := match r with Ok _ => true | Err _ => false end.
Definition ok_opt {E A} (r : result E A) : option A := match r with Ok a => Some a | Err _ => None end.
Definition map_err {E F A} (f : E -> F) (r : result E A) : result F A :=
  match r with Ok a => Ok a | Err e => Err (f e) end.
Definition guard_err {E} (b : bool) (e : E) : result E unit := if b then Err e else Ok tt.

Section result_lemmas.
Context {E A B : Type}.
Implicit Types (m : result E A) (f : A -> result E B).

Lemma bind_Ok m f b : mbind f m = Ok b <-> exists a, m = Ok a /\ f a = Ok b.
Proof. destruct m; cbn; naive_solver. Qed.
Lemma bind_Err m f e : mbind f m = Err e <-> m = Err e \/ exists a, m = Ok a /\ f a = Err e.
Proof. destruct m; cbn; naive_solver. Qed.
Lemma map_err_Ok {F} (g : E -> F) m a : map_err g m = Ok a <-> m = Ok a.
Proof. destruct m; cbn; naive_solver. Qed.
Lemma guard_Ok (b : bool) (e : E) u : guard_err b e = Ok u <-> b = false.
Proof. destruct b, u; cbn; naive_solver. Qed.
End result_lemmas.

(** Case analysis of a successful or failing monadic computation. *)
Ltac inv_result :=
  repeat match goal with
  | H : mbind _ _ = Ok _ |- _ => apply bind_Ok in H as (? & ? & H)
  | H : map_err _ _ = Ok _ |- _ => apply map_err_Ok in H
  | H : guard_err _ _ = Ok _ |- _ => apply guard_Ok in H
  | H : mret _ = Ok _ |- _ => injection H as H
  | H : Ok _ = Ok _ |- _ => injection H as H
  | H : Err _ = Ok _ |- _ => discriminate H
  | H : Ok _ = Err _ |- _ => discriminate H
  end; subst.

(** [for ... { if err != nil { return err } }] over a list of results. *)
Fixpoint sequence {E A} (l : list (result E A)) : result E (list A) :=
  match l with
  | [] => Ok []
  | r :: l => a ← r; k ← sequence l; Ok (a :: k)
  end.

Lemma sequence_Ok {E A} (l : list (result E A)) k :
  sequence l = Ok k <-> Forall2 (fun r a => r = Ok a) l k.
Proof.
  split.
  - revert k. induction l as [|r l IH]; intros k H; cbn in H; inv_result; [by constructor|].
    constructor; auto.
  - induction 1 as [|r a l k -> _ IH]; cbn; [done|]. by rewrite IH.
Qed.

Lemma sequence_Err {E A} (l : list (result E A)) e : sequence l = Err e -> Err e ∈ l.
Proof.
  induction l as [|r l IH]; cbn; [done|]. intros [->|(a & -> & H)]%bind_Err; [by left|].
  right. apply IH. apply bind_Err in H as [|(? & ? & ?)]; naive_solver.
Qed.
Lemma sequence_map_Ok {E A B} (f : A -> result E B) (l : list A) k :
  sequence (map f l) = Ok k <-> Forall2 (fun a b => f a = Ok b) l k.
Proof.
  rewrite sequence_Ok. split.
  - revert k. induction l as [|a l IH]; intros k H; inversion H; subst; constructor; auto.
  - induction 1; constructor; auto.
Qed.

Lemma filter_all {A} (P : A -> Prop) `{forall x, Decision (P x)} l : Forall P l -> filter P l = l.
Proof. induction 1 as [|x l Hx Hl IH]; [done|]. by rewrite filter_cons_True, IH. Qed.

(** ** Sorted traversal of Go maps

    Iterating a Go map has no order; every loop of the modelled code whose
    result depends on the order collects the keys and sorts them first, which
    is [sorted_keys] ([sort.Strings] is the byte-wise order [String.le]). *)
Definition sort_strings (l : list string) : list string := merge_sort String.le l.
Definition sorted_keys {A} (m : gmap string A) : list string := sort_strings (map_to_list m).*1.

Lemma elem_of_sort_strings l x : x ∈ sort_strings l <-> x ∈ l.
Proof. unfold sort_strings. by rewrite merge_sort_Permutation. Qed.
Lemma sort_strings_sorted l : StronglySorted String.le (sort_strings l).
Proof. apply StronglySorted_merge_sort; apply _. Qed.
Lemma sort_strings_NoDup l : NoDup l -> NoDup (sort_strings l).
Proof. unfold sort_strings. by rewrite merge_sort_Permutation. Qed.
Lemma sort_strings_length l : length (sort_strings l) = length l.
Proof. unfold sort_strings. by rewrite merge_sort_Permutation. Qed.
Lemma sort_strings_perm l k : l ≡ₚ k -> sort_strings l = sort_strings k.
Proof.
  intros Hp. apply (StronglySorted_unique String.le);
    [apply sort_strings_sorted..|]. unfold sort_strings. by rewrite !merge_sort_Permutation.
Qed.
Lemma sort_strings_idemp l : sort_strings (sort_strings l) = sort_strings l.
Proof. apply sort_strings_perm. unfold sort_strings. apply merge_sort_Permutation. Qed.

Section sorted_keys.
Context {A : Type}.
Implicit Types (m : gmap string A) (k : string).

Lemma elem_of_sorted_keys m k : k ∈ sorted_keys m <-> is_Some (m !! k).
Proof.
  unfold sorted_keys. rewrite elem_of_sort_strings, list_elem_of_fmap. split.
  - intros ([k' a] & -> & H). apply elem_of_map_to_list in H. by exists a.
  - intros [a H]. exists (k, a). split; [done|]. by apply elem_of_map_to_list.
Qed.
Lemma sorted_keys_NoDup m : NoDup (sorted_keys m).
Proof. apply sort_strings_NoDup, NoDup_fst_map_to_list. Qed.
Lemma sorted_keys_sorted m : StronglySorted String.le (sorted_keys m).
Proof. apply sort_strings_sorted. Qed.
Lemma sorted_keys_empty : sorted_keys (∅ : gmap string A) = [].
Proof. unfold sorted_keys. by rewrite map_to_list_empty. Qed.
Lemma sorted_keys_nil m : sorted_keys m = [] -> m = ∅.
Proof.
  intros H. apply map_eq. intros k. rewrite lookup_empty.
  destruct (m !! k) as [a|] eqn:E; [|done].
  assert (k ∈ sorted_keys m) as Hin by (apply elem_of_sorted_keys; eauto).
  rewrite H in Hin. by apply not_elem_of_nil in Hin.
Qed.
End sorted_keys.

(** A map of results, read in key order: the error of the least failing key,
    or the map of the values. *)
Fixpoint first_err {E A} (m : gmap string (result E A)) (ks : list string) : option E :=
  match ks with
  | [] => None
  | k :: ks => match m !! k with Some (Err e) => Some e | _ => first_err m ks end
  end.
Definition map_sequence {E A} (m : gmap string (result E A)) : result E (gmap string A) :=
  match first_err m (sorted_keys m) with
  | Some e => Err e
  | None => Ok (omap ok_opt m)
  end.

Lemma first_err_None {E A} (m : gmap string (result E A)) ks :
  first_err m ks = None <-> forall k e, k ∈ ks -> m !! k <> Some (Err e).
Proof.
  induction ks as [|k ks IH]; cbn.
  - split; [|done]. intros _ k e H. by apply not_elem_of_nil in H.
  - split.
    + intros H k' e Hin. apply elem_of_cons in Hin as [->|Hin].
      * by destruct (m !! k) as [[]|].
      * apply IH; [by destruct (m !! k) as [[]|]|done].
    + intros H. destruct (m !! k) as [[a|e]|] eqn:Hk.
      * apply IH. intros k' e ?. apply H. by right.
      * exfalso. eapply (H k e); [left|done].
      * apply IH. intros k' e ?. apply H. by right.
Qed.

Lemma map_sequence_Ok {E A} (m : gmap string (result E A)) r :
  map_sequence m = Ok r <-> forall k, m !! k = Ok <$> (r !! k).
Proof.
  unfold map_sequence. destruct (first_err _ _) as [e|] eqn:He.
  - split; [done|]. intros H. exfalso.
    enough (first_err m (sorted_keys m) = None) by congruence.
    apply first_err_None. intros k e' _. rewrite H. by destruct (r !! k).
  - rewrite first_err_None in He. split.
    + intros [= <-] k. rewrite lookup_omap. destruct (m !! k) as [[a|e]|] eqn:Hk; cbn; [done| |done].
      exfalso. eapply He; [|done]. by apply elem_of_sorted_keys.
    + intros H. f_equal. apply map_eq. intros k. rewrite lookup_omap, H. by destruct (r !! k).
Qed.

(** ** Loops with an early exit

    [iter_until f p s] runs [f] at most [p] times from [s], stopping at the
    first [inr]; the bound is binary, so large bounds cost nothing until they
    are reached. [nat_until] is its unary specification. *)
Fixpoint iter_until {S R : Type} (f : S -> S + R) (p : positive) (s : S) : S + R :=
  match p with
  | xH => f s
  | xO p => match iter_until f p s with inl s => iter_until f p s | inr r => inr r end
  | xI p =>
      match f s with
      | inl s => match iter_until f p s with inl s => iter_until f p s | inr r => inr r end
      | inr r => inr r
      end
  end.
Fixpoint nat_until {S R : Type} (f : S -> S + R) (n : nat) (s : S) : S + R :=
  match n with
  | O => inl s
  | S n => match f s with inl s => nat_until f n s | inr r => inr r end
  end.

Lemma nat_until_add {S R} (f : S -> S + R) n k s :
  nat_until f (n + k) s =
  match nat_until f n s with inl s => nat_until f k s | inr r => inr r end.
Proof. revert s. induction n as [|n IH]; intros s; cbn; [done|]. destruct (f s); auto. Qed.

Lemma iter_until_nat {S R} (f : S -> S + R) p s :
  iter_until f p s = nat_until f (Pos.to_nat p) s.
Proof.
  revert s. induction p as [p IH|p IH|]; intros s; cbn [iter_until].
  - rewrite Pos2Nat.inj_xI, <-(Nat.add_1_l (2 * _)), nat_until_add; cbn [nat_until].
    destruct (f s) as [s'|]; [|done].
    replace (2 * Pos.to_nat p) with (Pos.to_nat p + Pos.to_nat p) by lia.
    rewrite nat_until_add, IH. destruct (nat_until _ _ _); auto.
  - rewrite Pos2Nat.inj_xO. replace (2 * Pos.to_nat p) with (Pos.to_nat p + Pos.to_nat p) by lia.
    rewrite nat_until_add, IH. destruct (nat_until _ _ _); auto.
  - change (Pos.to_nat 1) with 1. cbn. by destruct (f s).
Qed.

(** ** Ordered collection without duplicates

    The [seen] set plus append loops of the code: [add_fresh] is one call of
    the collector closure, [collect_fresh] the whole loop. *)
Definition add_fresh {A} `{EqDecision A} (out : list A) (x : A) : list A :=
  if decide (x ∈ out) then out else out ++ [x].
Definition collect_fresh {A} `{EqDecision A} (out l : list A) : list A := foldl add_fresh out l.

Section collect_fresh.
Context {A : Type} `{EqDecision A}.
Implicit Types (out l : list A) (x : A).

Lemma elem_of_add_fresh out x y : y ∈ add_fresh out x <-> y ∈ out \/ y = x.
Proof. unfold add_fresh. case_decide; set_solver. Qed.
Lemma add_fresh_NoDup out x : NoDup out -> NoDup (add_fresh out x).
Proof.
  unfold add_fresh. case_decide as Hx; [done|]. intros Hd. apply NoDup_app. split; [done|].
  split; [|apply NoDup_singleton]. intros y Hy ->%list_elem_of_singleton. by apply Hx.
Qed.
Lemma elem_of_collect_fresh out l y : y ∈ collect_fresh out l <-> y ∈ out \/ y ∈ l.
Proof.
  unfold collect_fresh. revert out. induction l as [|x l IH]; intros out; cbn; [set_solver|].
  rewrite IH, elem_of_add_fresh. set_solver.
Qed.
Lemma collect_fresh_NoDup out l : NoDup out -> NoDup (collect_fresh out l).
Proof.
  unfold collect_fresh. revert out. induction l; intros out; cbn; auto using add_fresh_NoDup.
Qed.
Lemma collect_fresh_prefix out l : out `prefix_of` collect_fresh out l.
Proof.
  unfold collect_fresh. revert out. induction l as [|x l IH]; intros out; cbn; [done|].
  etrans; [|apply IH]. unfold add_fresh. case_decide; [done|]. by eexists.
Qed.
End collect_fresh.

(** ** Hints *)
Create HintDb declarest.
#[export] Hint Resolve sort_strings_sorted sorted_keys_sorted sorted_keys_NoDup
  collect_fresh_NoDup add_fresh_NoDup : declarest.
#[export] Hint Rewrite @elem_of_sorted_keys @elem_of_collect_fresh elem_of_sort_strings : declarest.
