(* ===== verification/GoText.v ===== *)
(** * Go text: bytes, UTF-8, [strings], [unicode], [strconv], [path]

    The part of the Go language and standard library that the modelled code
    uses on text. A Go string is a sequence of bytes, here [string] (a list of
    [ascii]); a rune is a [Z]. Everything computes. The Unicode property tables
    beyond ASCII are the fields of the class [UnicodeTables]; the ASCII part is
    concrete. *)
From S2P Require Import Prelude.
From Stdlib Require Export Ascii.
Local Open Scope Z_scope.

Definition byte_Z (c : ascii) : Z := Z.of_N (N_of_ascii c).
Definition Z_byte (z : Z) : ascii := ascii_of_N (Z.to_N z).

(** ** Substrings *)
Section substrings.
Local Open Scope nat_scope.

(** [s[n:]] and [s[:n]]. *)
Fixpoint str_drop (n : nat) (s : string) : string :=
  match n, s with
  | O, _ => s
  | S n, String _ s => str_drop n s
  | S _, EmptyString => EmptyString
  end.
Fixpoint str_take (n : nat) (s : string) : string :=
  match n, s with
  | S n, String c s => String c (str_take n s)
  | _, _ => EmptyString
  end.

Definition has_prefix (s p : string) : bool := String.prefix p s.
Definition has_suffix (s p : string) : bool :=
  (String.length p <=? String.length s)
  && (str_drop (String.length s - String.length p) s == p).
Definition trim_prefix (s p : string) : string :=
  if has_prefix s p then str_drop (String.length p) s else s.
Definition trim_suffix (s p : string) : string :=
  if has_suffix s p then str_take (String.length s - String.length p) s else s.

(** [strings.Index]: the first occurrence, [None] for -1. *)
Fixpoint index_of (s p : string) : option nat :=
  if has_prefix s p then Some 0
  else match s with
       | EmptyString => None
       | String _ s => S <$> index_of s p
       end.
Definition contains (s p : string) : bool :=
  match index_of s p with Some _ => true | None => false end.
Fixpoint contains_byte (f : ascii -> bool) (s : string) : bool :=
  match s with EmptyString => false | String c s => f c || contains_byte f s end.
Fixpoint last_byte (s : string) : option ascii :=
  match s with
  | EmptyString => None
  | String c EmptyString => Some c
  | String _ s => last_byte s
  end.
Definition byte_at (s : string) (n : nat) : option ascii := String.get n s.

(** [strings.Split] on a one-byte separator and [strings.Join]. *)
Fixpoint split_on (sep : ascii) (s : string) : list string :=
  match s with
  | EmptyString => [EmptyString]
  | String c s =>
      if decide (c = sep) then EmptyString :: split_on sep s
      else match split_on sep s with
           | [] => [String c EmptyString]
           | p :: ps => String c p :: ps
           end
  end.
Fixpoint str_join (sep : string) (l : list string) : string :=
  match l with
  | [] => EmptyString
  | [s] => s
  | s :: l => s +:+ sep +:+ str_join sep l
  end.

(** [strings.ReplaceAll] for a non-empty pattern. *)
Fixpoint replace_go (old new : string) (skip : nat) (s : string) : string :=
  match s with
  | EmptyString => EmptyString
  | String c s' =>
      match skip with
      | S skip => replace_go old new skip s'
      | O => if has_prefix s old
             then new +:+ replace_go old new (String.length old - 1) s'
             else String c (replace_go old new 0 s')
      end
  end.
Definition replace_all (s old new : string) : string := replace_go old new 0 s.

Fixpoint str_map (f : ascii -> string) (s : string) : string :=
  match s with EmptyString => EmptyString | String c s => f c +:+ str_map f s end.

(** [strings.TrimLeft], [TrimRight] and [Trim] with an ASCII cutset. *)
Fixpoint trim_left_bytes (f : ascii -> bool) (s : string) : string :=
  match s with
  | EmptyString => EmptyString
  | String c s' => if f c then trim_left_bytes f s' else s
  end.
Definition trim_right_bytes (f : ascii -> bool) (s : string) : string :=
  String.rev (trim_left_bytes f (String.rev s)).
Definition trim_bytes (f : ascii -> bool) (s : string) : string :=
  trim_right_bytes f (trim_left_bytes f s).
End substrings.

(** ** White space

    [unicode.IsSpace] on UTF-8 text: the ASCII spaces, U+0085, U+00A0, U+1680,
    U+2000 to U+200A, U+2028, U+2029, U+202F, U+205F and U+3000, recognised by
    their encodings of one, two or three bytes. *)
Definition is_ascii_space (c : ascii) : bool :=
  match c with
  | "009" | "010" | "011" | "012" | "013" | " " => true
  | _ => false
  end%char.
Definition is_space2 (c d : ascii) : bool :=
  (byte_Z c =? 194) && ((byte_Z d =? 133) || (byte_Z d =? 160)).
Definition is_space3 (c d e : ascii) : bool :=
  let x := byte_Z c in let y := byte_Z d in let z := byte_Z e in
  if (x =? 225) && (y =? 154) then z =? 128
  else if (x =? 226) && (y =? 128) then
    ((128 <=? z) && (z <=? 138)) || (z =? 168) || (z =? 169) || (z =? 175)
  else if (x =? 226) && (y =? 129) then z =? 159
  else if (x =? 227) && (y =? 128) then z =? 128
  else false.

(** Drop the longest prefix of spaces; the space test is given by the encodings
    of one, two and three bytes in the order of the scan. *)
Section scan.
Context (p1 : ascii -> bool) (p2 : ascii -> ascii -> bool) (p3 : ascii -> ascii -> ascii -> bool).
Fixpoint scan_spaces (s : string) : string :=
  match s with
  | EmptyString => EmptyString
  | String c s1 =>
      if p1 c then scan_spaces s1 else
      match s1 with
      | EmptyString => s
      | String d s2 =>
          if p2 c d then scan_spaces s2 else
          match s2 with
          | EmptyString => s
          | String e s3 => if p3 c d e then scan_spaces s3 else s
          end
      end
  end.
Definition starts_space (s : string) : bool :=
  match s with
  | EmptyString => false
  | String c s1 =>
      p1 c ||
      match s1 with
      | EmptyString => false
      | String d s2 => p2 c d || match s2 with EmptyString => false | String e _ => p3 c d e end
      end
  end.
End scan.
Definition trim_left_space : string -> string := scan_spaces is_ascii_space is_space2 is_space3.
(** The same scan on a reversed string: the bytes of a rune come last first. *)
Definition trim_left_space_rev : string -> string :=
  scan_spaces is_ascii_space (fun d c => is_space2 c d) (fun e d c => is_space3 c d e).
Definition trim_right_space (s : string) : string :=
  String.rev (trim_left_space_rev (String.rev s)).
(** [strings.TrimSpace]. *)
Definition trim_space (s : string) : string := trim_right_space (trim_left_space s).

(** [strings.Fields]. *)
Definition push_field (cur : string) (l : list string) : list string :=
  if decide (cur = "") then l else String.rev cur :: l.
Fixpoint fields_go (cur : string) (s : string) : list string :=
  match s with
  | EmptyString => push_field cur []
  | String c s1 =>
      if is_ascii_space c then push_field cur (fields_go "" s1) else
      match s1 with
      | EmptyString => push_field (String c cur) []
      | String d s2 =>
          if is_space2 c d then push_field cur (fields_go "" s2) else
          match s2 with
          | EmptyString => fields_go (String c cur) s1
          | String e s3 =>
              if is_space3 c d e then push_field cur (fields_go "" s3)
              else fields_go (String c cur) s1
          end
      end
  end.
Definition fields (s : string) : list string := fields_go "" s.

(** ** UTF-8

    [decode_rune] is [utf8.DecodeRuneInString] on a non-empty string: a rune
    and its width, (U+FFFD, 1) on any invalid encoding. *)
Definition rune_error : Z := 65533.
Definition is_cont (lo hi : Z) (c : ascii) : bool := (lo <=? byte_Z c) && (byte_Z c <=? hi).
Definition cont_bits (c : ascii) : Z := Z.land (byte_Z c) 63.

Definition decode_rune (s : string) : Z * nat :=
  match s with
  | EmptyString => (rune_error, 0%nat)
  | String c0 s1 =>
      let b := byte_Z c0 in
      if b <? 128 then (b, 1%nat)
      else if (b <? 194) || (244 <? b) then (rune_error, 1%nat)
      else if b <? 224 then
        match s1 with
        | String c1 _ =>
            if is_cont 128 191 c1
            then (Z.lor (Z.shiftl (Z.land b 31) 6) (cont_bits c1), 2%nat)
            else (rune_error, 1%nat)
        | _ => (rune_error, 1%nat)
        end
      else if b <? 240 then
        match s1 with
        | String c1 (String c2 _) =>
            let lo := if b =? 224 then 160 else 128 in
            let hi := if b =? 237 then 159 else 191 in
            if is_cont lo hi c1 && is_cont 128 191 c2
            then (Z.lor (Z.shiftl (Z.land b 15) 12)
                    (Z.lor (Z.shiftl (cont_bits c1) 6) (cont_bits c2)), 3%nat)
            else (rune_error, 1%nat)
        | _ => (rune_error, 1%nat)
        end
      else
        match s1 with
        | String c1 (String c2 (String c3 _)) =>
            let lo := if b =? 240 then 144 else 128 in
            let hi := if b =? 244 then 143 else 191 in
            if is_cont lo hi c1 && is_cont 128 191 c2 && is_cont 128 191 c3
            then (Z.lor (Z.shiftl (Z.land b 7) 18)
                    (Z.lor (Z.shiftl (cont_bits c1) 12)
                       (Z.lor (Z.shiftl (cont_bits c2) 6) (cont_bits c3))), 4%nat)
            else (rune_error, 1%nat)
        | _ => (rune_error, 1%nat)
        end
  end.

#[global] Arguments decode_rune : simpl never.

(** [for idx, r := range s]. *)
Fixpoint runes_go (skip idx : nat) (s : string) : list (nat * Z) :=
  match s with
  | EmptyString => []
  | String _ s' =>
      match skip with
      | S skip => runes_go skip (S idx) s'
      | O => let '(r, w) := decode_rune s in (idx, r) :: runes_go (w - 1) (S idx) s'
      end
  end.
Definition range_string (s : string) : list (nat * Z) := runes_go 0 0 s.
Definition runes (s : string) : list Z := (range_string s).*2.

(** [utf8.AppendRune]: surrogates and out-of-range runes become U+FFFD. *)
Definition encode_rune_raw (r : Z) : string :=
  let cont k := Z_byte (Z.lor 128 (Z.land (Z.shiftr r k) 63)) in
  if r <? 128 then String (Z_byte r) ""
  else if r <? 2048 then String (Z_byte (Z.lor 192 (Z.shiftr r 6))) (String (cont 0) "")
  else if r <? 65536 then
    String (Z_byte (Z.lor 224 (Z.shiftr r 12))) (String (cont 6) (String (cont 0) ""))
  else
    String (Z_byte (Z.lor 240 (Z.shiftr r 18)))
      (String (cont 12) (String (cont 6) (String (cont 0) ""))).
Definition valid_rune (r : Z) : bool :=
  ((0 <=? r) && (r <? 55296)) || ((57344 <=? r) && (r <=? 1114111)).
Definition encode_rune (r : Z) : string :=
  encode_rune_raw (if valid_rune r then r else rune_error).
Definition string_of_runes (l : list Z) : string := foldr (fun r s => encode_rune r +:+ s) "" l.

(** [utf8.ValidString]: no invalid byte, i.e. no rune of width one that is
    U+FFFD. *)
Fixpoint valid_utf8_go (skip : nat) (s : string) : bool :=
  match s with
  | EmptyString => true
  | String _ s' =>
      match skip with
      | S skip => valid_utf8_go skip s'
      | O => let '(r, w) := decode_rune s in
             negb ((r =? rune_error) && (w =? 1)%nat) && valid_utf8_go (w - 1) s'
      end
  end.
Definition valid_utf8 (s : string) : bool := valid_utf8_go 0 s.

(** ** [unicode]

    The tables for runes of at least 128 are a parameter of the library. *)
Class UnicodeTables := {
  tbl_letter : Z -> bool;
  tbl_digit : Z -> bool;
  tbl_upper : Z -> bool;
  tbl_lower : Z -> bool;
  tbl_to_lower : Z -> Z;
  tbl_to_upper : Z -> Z;
  tbl_print : Z -> bool;
  tbl_fold : Z -> Z; (* the least rune of the orbit of unicode.SimpleFold *)
}.

(** A concrete instance, used by the witnesses: the Latin-1 block. *)
Definition latin1_tables : UnicodeTables := {|
  tbl_letter r := (192 <=? r) && (r <? 256) && negb (r =? 215) && negb (r =? 247);
  tbl_digit _ := false;
  tbl_upper r := (192 <=? r) && (r <=? 222) && negb (r =? 215);
  tbl_lower r := (223 <=? r) && (r <? 256) && negb (r =? 247);
  tbl_to_lower r := if (192 <=? r) && (r <=? 222) && negb (r =? 215) then r + 32 else r;
  tbl_to_upper r := if (224 <=? r) && (r <=? 254) && negb (r =? 247) then r - 32 else r;
  tbl_print r := (161 <=? r) && (r <? 256) && negb (r =? 173);
  tbl_fold r := if (224 <=? r) && (r <=? 254) && negb (r =? 247) then r - 32
                else if r =? 383 then 83 else if r =? 8490 then 75 else r;
|}.

Definition in_range (lo hi r : Z) : bool := (lo <=? r) && (r <=? hi).
Section unicode.
Context `{UnicodeTables}.
Definition is_upper (r : Z) : bool := if r <? 128 then in_range 65 90 r else tbl_upper r.
Definition is_lower (r : Z) : bool := if r <? 128 then in_range 97 122 r else tbl_lower r.
Definition is_letter (r : Z) : bool :=
  if r <? 128 then in_range 65 90 r || in_range 97 122 r else tbl_letter r.
Definition is_digit (r : Z) : bool := if r <? 128 then in_range 48 57 r else tbl_digit r.
Definition is_print (r : Z) : bool := if r <? 128 then in_range 32 126 r else tbl_print r.
Definition rune_to_lower (r : Z) : Z :=
  if r <? 128 then (if in_range 65 90 r then r + 32 else r) else tbl_to_lower r.
Definition rune_to_upper (r : Z) : Z :=
  if r <? 128 then (if in_range 97 122 r then r - 32 else r) else tbl_to_upper r.
(** [strings.ToLower], [strings.ToUpper]. *)
(** [strings.EqualFold]: rune by rune, equal up to simple folding. *)
Definition rune_fold (r : Z) : Z := if r <? 128 then (if in_range 97 122 r then r - 32 else r) else tbl_fold r.
Definition equal_fold (s t : string) : bool := bool_decide (rune_fold <$> runes s = rune_fold <$> runes t).
Definition to_lower (s : string) : string := string_of_runes (rune_to_lower <$> runes s).
Definition to_upper (s : string) : string := string_of_runes (rune_to_upper <$> runes s).
End unicode.

Definition is_ascii_digit (c : ascii) : bool := in_range 48 57 (byte_Z c).
Definition is_ascii_alpha (c : ascii) : bool :=
  in_range 65 90 (byte_Z c) || in_range 97 122 (byte_Z c).
Definition is_ident_start (c : ascii) : bool := is_ascii_alpha c || (c == "_"%char).
Definition is_ident_byte (c : ascii) : bool := is_ident_start c || is_ascii_digit c.
Fixpoint all_bytes (f : ascii -> bool) (s : string) : bool :=
  match s with EmptyString => true | String c s => f c && all_bytes f s end.
(** The regular expression [^[a-zA-Z_][a-zA-Z0-9_]*$]. *)
Definition is_identifier (s : string) : bool :=
  match s with EmptyString => false | String c s => is_ident_start c && all_bytes is_ident_byte s end.

(** ** [strconv] *)
Definition min_int64 : Z := - 2 ^ 63.
Definition max_int64 : Z := 2 ^ 63 - 1.
(** Addition of [int]s wraps. *)
Definition wrap64 (z : Z) : Z := (z + 2 ^ 63) mod 2 ^ 64 - 2 ^ 63.
Definition is_int64 (z : Z) : bool := (min_int64 <=? z) && (z <=? max_int64).

Definition digit_byte (d : Z) : ascii := Z_byte (48 + d).
Fixpoint dec_digits (fuel : nat) (n : Z) (acc : string) : string :=
  match fuel with
  | O => acc
  | S fuel =>
      let acc := String (digit_byte (n mod 10)) acc in
      if n <? 10 then acc else dec_digits fuel (n / 10) acc
  end.
(** Enough fuel for the decimal digits of [n]: its binary length. *)
Definition dec_fuel (n : Z) : nat := S (Z.to_nat (Z.log2 n)).
(** [strconv.FormatInt(z, 10)], [strconv.Itoa]. *)
Definition itoa (z : Z) : string :=
  if z <? 0 then String "-"%char (dec_digits (dec_fuel (- z)) (- z) "")
  else dec_digits (dec_fuel z) z "".

Fixpoint parse_digits (acc : Z) (s : string) : option Z :=
  match s with
  | EmptyString => Some acc
  | String c s =>
      if is_ascii_digit c then parse_digits (10 * acc + (byte_Z c - 48)) s else None
  end.
Definition parse_nat_dec (s : string) : option Z :=
  match s with EmptyString => None | _ => parse_digits 0 s end.
(** An optionally signed decimal integer of any size ([big.Int.SetString]). *)
Definition parse_dec (s : string) : option Z :=
  match s with
  | String "+"%char s => parse_nat_dec s
  | String "-"%char s => Z.opp <$> parse_nat_dec s
  | _ => parse_nat_dec s
  end.
(** [strconv.ParseInt(s, 10, 64)] and, the int type having 64 bits,
    [strconv.Atoi]. *)
Definition parse_int64 (s : string) : option Z :=
  z ← parse_dec s; if is_int64 z then Some z else None.

Definition hex_digit (d : Z) : ascii := if d <? 10 then Z_byte (48 + d) else Z_byte (87 + d).
Fixpoint hex_digits (n : nat) (z : Z) (acc : string) : string :=
  match n with
  | O => acc
  | S n => hex_digits n (Z.shiftr z 4) (String (hex_digit (Z.land z 15)) acc)
  end.
Definition unhex (c : ascii) : option Z :=
  let z := byte_Z c in
  if in_range 48 57 z then Some (z - 48)
  else if in_range 97 102 z then Some (z - 87)
  else if in_range 65 70 z then Some (z - 55)
  else None.

Section quote.
Context `{UnicodeTables}.

(** [strconv.Quote]. *)
Definition escape_rune (r : Z) : string :=
  if (r =? 34) || (r =? 92) then String "\" (String (Z_byte r) "")
  else if is_print r then encode_rune r
  else match r with
       | 7 => "\a" | 8 => "\b" | 12 => "\f" | 10 => "\n" | 13 => "\r" | 9 => "\t" | 11 => "\v"
       | _ =>
           if (r <? 32) || (r =? 127) then "\x" +:+ hex_digits 2 r ""
           else let r := if valid_rune r then r else rune_error in
                if r <? 65536 then "\u" +:+ hex_digits 4 r "" else "\U" +:+ hex_digits 8 r ""
       end.
Fixpoint quote_go (skip : nat) (s : string) : string :=
  match s with
  | EmptyString => String "034" ""
  | String c s' =>
      match skip with
      | S skip => quote_go skip s'
      | O =>
          let '(r, w) := decode_rune s in
          (if (r =? rune_error) && (w =? 1)%nat then "\x" +:+ hex_digits 2 (byte_Z c) ""
           else escape_rune r) +:+ quote_go (w - 1) s'
      end
  end.
Definition quote (s : string) : string := String "034" (quote_go 0 s).
End quote.

Fixpoint parse_hex_n (n : nat) (acc : Z) (s : string) : option (Z * string) :=
  match n, s with
  | O, _ => Some (acc, s)
  | S n, String c s => d ← unhex c; parse_hex_n n (16 * acc + d) s
  | S _, EmptyString => None
  end.
Definition octal_digit (c : ascii) : option Z :=
  if in_range 48 55 (byte_Z c) then Some (byte_Z c - 48) else None.
(** One escape sequence of [strconv.UnquoteChar], after the backslash, with the
    double quote as the quote: the bytes it stands for and the rest. *)
Definition unquote_escape (s : string) : option (string * string) :=
  match s with
  | EmptyString => None
  | String c s =>
      let one z := Some (String (Z_byte z) "", s) in
      match c with
      | "a" => one 7 | "b" => one 8 | "f" => one 12 | "n" => one 10
      | "r" => one 13 | "t" => one 9 | "v" => one 11
      | "x" => '(v, s) ← parse_hex_n 2 0 s; Some (String (Z_byte v) "", s)
      | "u" => '(v, s) ← parse_hex_n 4 0 s; if valid_rune v then Some (encode_rune v, s) else None
      | "U" => '(v, s) ← parse_hex_n 8 0 s; if valid_rune v then Some (encode_rune v, s) else None
      | "0" | "1" | "2" | "3" | "4" | "5" | "6" | "7" =>
          match s with
          | String d (String e s) =>
              x ← octal_digit c; y ← octal_digit d; z ← octal_digit e;
              let v := 64 * x + 8 * y + z in
              if (v <=? 255)%Z then Some (String (Z_byte v) "", s) else None
          | _ => None
          end
      | "\" => one 92
      | "034" => one 34
      | _ => None
      end%char
  end.
(** [strconv.Unquote] of a string that starts with a double quote, after that
    quote. Each round consumes a byte, so the length of the string is enough
    fuel. *)
Fixpoint unquote_go (fuel : nat) (s : string) : option string :=
  match fuel with
  | O => None
  | S fuel =>
      match s with
      | EmptyString => None
      | String c s' =>
          if decide (c = "034"%char) then (if decide (s' = "") then Some "" else None)
          else if decide (c = "010"%char) then None
          else if decide (c = "\"%char) then
            '(t, s'') ← unquote_escape s';
            u ← unquote_go fuel s''; Some (t +:+ u)
          else if byte_Z c <? 128 then
            u ← unquote_go fuel s'; Some (String c u)
          else
            let '(r, w) := decode_rune s in
            u ← unquote_go fuel (str_drop w s); Some (encode_rune r +:+ u)
      end
  end.
Definition unquote (s : string) : option string :=
  match s with
  | String "034" s' => unquote_go (String.length s) s'
  | _ => None
  end.

(** ** [path] and, on Unix, [path/filepath] *)
Definition slash : ascii := "/"%char.
Definition is_slash (c : ascii) : bool := c == slash.

(** The segments [path.Clean] keeps, last first. *)
Fixpoint clean_segments (rooted : bool) (out : list string) (segs : list string) : list string :=
  match segs with
  | [] => out
  | s :: segs =>
      if (s == "") || (s == ".") then clean_segments rooted out segs
      else if s == ".." then
        match out with
        | t :: out' =>
            if t == ".." then clean_segments rooted (".." :: out) segs
            else clean_segments rooted out' segs
        | [] => clean_segments rooted (if rooted then [] else [".."]) segs
        end
      else clean_segments rooted (s :: out) segs
  end.
(** [path.Clean]. *)
Definition path_clean (s : string) : string :=
  let rooted := has_prefix s "/" in
  let body := str_join "/" (reverse (clean_segments rooted [] (split_on slash s))) in
  if rooted then "/" +:+ body else if decide (body = "") then "." else body.
(** [path.Join]. *)
Definition path_join (elems : list string) : string :=
  match filter (fun s => s <> "") elems with
  | [] => ""
  | l => path_clean (str_join "/" l)
  end.
Definition last_segment (s : string) : string := default "" (last (split_on slash s)).
(** [path.Base]. *)
Definition path_base (s : string) : string :=
  if decide (s = "") then "." else
  let b := last_segment (trim_right_bytes is_slash s) in
  if decide (b = "") then "/" else b.
(** [path.Dir]: everything up to the last slash, cleaned. *)
Definition path_dir (s : string) : string :=
  path_clean (str_take (String.length s - String.length (last_segment s)) s).
(** [filepath.Ext]: from the last dot of the last segment. *)
Fixpoint ext_go (s : string) : option string :=
  match s with
  | EmptyString => None
  | String c s' =>
      match ext_go s' with
      | Some e => Some e
      | None => if decide (c = "."%char) then Some s else None
      end
  end.
Definition path_ext (s : string) : string := default "" (ext_go (last_segment s)).
