(* ===== verification/GoTextFacts.v ===== *)
(** * Facts about Go text

    Lemmas on the functions of [GoText] that the components share: append and
    reversal, prefixes, splitting and joining, replacement, trimming. *)
From S2P Require Import Prelude GoText.

(** ** Append, length, reversal *)
Lemma app_cons c s t : String c s +:+ t = String c (s +:+ t).
Proof. done. Qed.
Lemma app_empty_l t : "" +:+ t = t.
Proof. done. Qed.
Lemma app_empty_r s : s +:+ "" = s.
Proof. induction s; [done|]. by rewrite app_cons, IHs. Qed.
Lemma str_app_assoc s t u : (s +:+ t) +:+ u = s +:+ (t +:+ u).
Proof. induction s; [done|]. by rewrite !app_cons, IHs. Qed.
#[export] Hint Rewrite app_cons app_empty_l app_empty_r str_app_assoc : str.
Ltac str := autorewrite with str.
Tactic Notation "str" "in" hyp(H) := autorewrite with str in H.
Tactic Notation "str" "in" "*" := autorewrite with str in *.

Lemma length_str_app s t : String.length (s +:+ t) = String.length s + String.length t.
Proof. induction s; [done|]. str. cbn. by rewrite IHs. Qed.
Lemma str_app_inv_tail s t u : s +:+ u = t +:+ u -> s = t.
Proof.
  revert t. induction s as [|c s IH]; intros [|d t] H; [done| | |].
  - apply (f_equal String.length) in H. str in H. cbn in H. rewrite length_str_app in H. lia.
  - apply (f_equal String.length) in H. str in H. cbn in H. rewrite length_str_app in H. lia.
  - str in H. injection H as -> H. f_equal. auto.
Qed.
Lemma app_eq_empty s t : s +:+ t = "" <-> s = "" /\ t = "".
Proof. destruct s; str; naive_solver. Qed.

Lemma rev_app_app s t : String.rev_app s t = String.rev s +:+ t.
Proof.
  unfold String.rev. revert t. induction s as [|c s IH]; intros t; [done|]. cbn.
  rewrite (IH (String c t)), (IH (String c "")). by str.
Qed.
Lemma str_rev_cons c s : String.rev (String c s) = String.rev s +:+ String c "".
Proof. unfold String.rev at 1. cbn. by rewrite rev_app_app. Qed.
Lemma str_rev_app s t : String.rev (s +:+ t) = String.rev t +:+ String.rev s.
Proof. induction s; str; [done|]. rewrite !str_rev_cons, IHs. by str. Qed.
Lemma str_rev_involutive s : String.rev (String.rev s) = s.
Proof. induction s; [done|]. by rewrite str_rev_cons, str_rev_app, IHs. Qed.
Lemma length_str_rev s : String.length (String.rev s) = String.length s.
Proof. induction s; [done|]. rewrite str_rev_cons, length_str_app, IHs. cbn. lia. Qed.
Lemma str_rev_inj s t : String.rev s = String.rev t -> s = t.
Proof. intros H. by rewrite <-(str_rev_involutive s), H, str_rev_involutive. Qed.
Lemma str_rev_empty s : String.rev s = "" <-> s = "".
Proof. split; [|by intros ->]. intros H. by apply str_rev_inj. Qed.

(** Induction from the right. *)
Lemma str_snoc_ind (P : string -> Prop) :
  P "" -> (forall s c, P s -> P (s +:+ String c "")) -> forall s, P s.
Proof.
  intros Hnil Hsnoc s. rewrite <-(str_rev_involutive s).
  induction (String.rev s) as [|c t IH]; [done|]. rewrite str_rev_cons. auto.
Qed.

(** ** Prefixes and suffixes *)
Lemma str_drop_app s t : str_drop (String.length s) (s +:+ t) = t.
Proof. induction s; str; done. Qed.
Lemma str_take_app s t : str_take (String.length s) (s +:+ t) = s.
Proof. induction s; str; cbn; [by destruct t|]. by rewrite IHs. Qed.
Lemma str_take_drop n s : str_take n s +:+ str_drop n s = s.
Proof. revert n. induction s; intros [|n]; cbn; str; try done. by rewrite IHs. Qed.
Lemma length_str_drop n s : String.length (str_drop n s) = String.length s - n.
Proof. revert n. induction s; intros [|n]; cbn; auto. Qed.
Lemma length_str_take n s : String.length (str_take n s) = n `min` String.length s.
Proof. revert n. induction s; intros [|n]; cbn; auto. Qed.

Lemma has_prefix_spec s p : has_prefix s p = true <-> exists t, s = p +:+ t.
Proof.
  unfold has_prefix. revert s. induction p as [|c p IH]; intros s.
  - split; [|by destruct s]. by exists s.
  - destruct s as [|d s]; [split; [done|]; intros [t Ht]; by str in Ht|].
    change (String.prefix (String c p) (String d s))
      with (if ascii_dec c d then String.prefix p s else false).
    destruct (ascii_dec c d) as [->|Hne].
    + rewrite IH. split; intros [t H]; exists t; str in *; congruence.
    + split; [done|]. intros [t H]. str in H. congruence.
Qed.
Lemma has_prefix_app p t : has_prefix (p +:+ t) p = true.
Proof. apply has_prefix_spec. by exists t. Qed.
Lemma has_prefix_refl s : has_prefix s s = true.
Proof. apply has_prefix_spec. exists "". by str. Qed.
Lemma has_prefix_cons c d s p :
  has_prefix (String c s) (String d p) = (c == d) && has_prefix s p.
Proof.
  unfold has_prefix. cbn. destruct (ascii_dec d c) as [->|Hne].
  - by rewrite bool_decide_true.
  - by rewrite bool_decide_false by congruence.
Qed.
Lemma has_prefix_empty s : has_prefix s "" = true.
Proof. apply has_prefix_spec. by exists s. Qed.
Lemma trim_prefix_app p t : trim_prefix (p +:+ t) p = t.
Proof. unfold trim_prefix. by rewrite has_prefix_app, str_drop_app. Qed.
Lemma trim_prefix_id s p : has_prefix s p = false -> trim_prefix s p = s.
Proof. unfold trim_prefix. by intros ->. Qed.

Lemma has_suffix_spec s p : has_suffix s p = true <-> exists t, s = t +:+ p.
Proof.
  unfold has_suffix. rewrite andb_true_iff, Nat.leb_le, bool_decide_eq_true. split.
  - intros [Hle H]. exists (str_take (String.length s - String.length p) s).
    rewrite <-(str_take_drop (String.length s - String.length p) s) at 1. by rewrite H.
  - intros [t ->]. rewrite length_str_app. split; [lia|].
    replace (_ + _ - _) with (String.length t) by lia. apply str_drop_app.
Qed.
Lemma trim_suffix_app t p : trim_suffix (t +:+ p) p = t.
Proof.
  unfold trim_suffix. assert (has_suffix (t +:+ p) p = true) as -> by (apply has_suffix_spec; eauto).
  rewrite length_str_app. replace (_ + _ - _) with (String.length t) by lia. apply str_take_app.
Qed.
Lemma trim_suffix_id s p : has_suffix s p = false -> trim_suffix s p = s.
Proof. unfold trim_suffix. by intros ->. Qed.
Lemma has_suffix_byte s c : has_suffix s (String c "") = (last_byte s == Some c).
Proof.
  apply eq_true_iff_eq. rewrite has_suffix_spec, bool_decide_eq_true. split.
  - intros [t ->]. induction t as [|d t IH]; [done|]. str. cbn. destruct t; [done|]. by str in *.
  - induction s as [|d s IH]; [done|]. cbn. destruct s as [|e s].
    + intros [= ->]. by exists "".
    + intros H. destruct (IH H) as [t ->]. exists (String d t). by str.
Qed.
Lemma last_byte_app s t : t <> "" -> last_byte (s +:+ t) = last_byte t.
Proof.
  intros Ht. induction s as [|c s IH]; str; [done|]. cbn. rewrite IH.
  destruct (s +:+ t) eqn:E; [|done]. apply app_eq_empty in E as [_ ->]. done.
Qed.

(** ** Bytes *)
Lemma contains_byte_app f s t : contains_byte f (s +:+ t) = contains_byte f s || contains_byte f t.
Proof. induction s; str; cbn; [done|]. by rewrite IHs, orb_assoc. Qed.
Lemma contains_byte_single s c : contains s (String c "") = contains_byte (fun d => d == c) s.
Proof.
  unfold contains. induction s as [|d s IH]; [done|]. cbn [index_of contains_byte].
  rewrite has_prefix_cons. destruct (d == c) eqn:E; cbn [orb andb].
  - by assert (has_prefix s "" = true) as -> by (apply has_prefix_spec; by exists s).
  - rewrite <-IH. by destruct (index_of s _).
Qed.
Lemma all_bytes_app f s t : all_bytes f (s +:+ t) = all_bytes f s && all_bytes f t.
Proof. induction s; str; cbn; [done|]. by rewrite IHs, andb_assoc. Qed.
Lemma all_bytes_contains f s : all_bytes f s = negb (contains_byte (fun c => negb (f c)) s).
Proof. induction s; cbn; [done|]. rewrite IHs. by destruct (f a). Qed.

(** ** Split and join *)
Definition no_sep (c : ascii) (s : string) : Prop := contains_byte (fun d => d == c) s = false.

Lemma no_sep_cons c d s : no_sep c (String d s) <-> d <> c /\ no_sep c s.
Proof. unfold no_sep. cbn. rewrite orb_false_iff, bool_decide_eq_false. done. Qed.
Lemma no_sep_app c s t : no_sep c (s +:+ t) <-> no_sep c s /\ no_sep c t.
Proof. unfold no_sep. by rewrite contains_byte_app, orb_false_iff. Qed.
#[export] Hint Extern 0 (no_sep _ "") => reflexivity : core.

Lemma split_on_nonempty c s : split_on c s <> [].
Proof. destruct s; cbn; [done|]. case_decide; [done|]. by destruct (split_on c s). Qed.
Lemma split_on_no_sep c s : Forall (no_sep c) (split_on c s).
Proof.
  induction s as [|d s IH]; cbn; [by repeat constructor|].
  case_decide as Hd; [by constructor|].
  destruct (split_on c s) as [|p ps]; [by apply Forall_singleton, no_sep_cons|].
  inversion IH; subst. constructor; [|done]. by apply no_sep_cons.
Qed.
Lemma str_join_cons2 sep s t l : str_join sep (s :: t :: l) = s +:+ sep +:+ str_join sep (t :: l).
Proof. done. Qed.
Lemma str_join_split c s : str_join (String c "") (split_on c s) = s.
Proof.
  induction s as [|d s IH]; [done|]. cbn [split_on]. case_decide as Hd.
  - subst d. destruct (split_on c s) as [|p ps] eqn:E; [by apply split_on_nonempty in E|].
    rewrite str_join_cons2, IH. by str.
  - destruct (split_on c s) as [|p ps] eqn:E; [by apply split_on_nonempty in E|].
    destruct ps; cbn in *; [by rewrite IH|]. rewrite <-IH. by str.
Qed.
Lemma split_on_nosep c s : no_sep c s -> split_on c s = [s].
Proof.
  induction s as [|d s IH]; [done|]. rewrite no_sep_cons. intros [Hd Hs]. cbn.
  rewrite decide_False by done. by rewrite IH.
Qed.
Lemma split_on_app c s t :
  no_sep c s -> split_on c (s +:+ String c t) = s :: split_on c t.
Proof.
  induction s as [|d s IH]; str; intros Hs; cbn; [by rewrite decide_True|].
  apply no_sep_cons in Hs as [Hd Hs]. rewrite decide_False by done. by rewrite IH.
Qed.
Lemma split_on_join c l :
  l <> [] -> Forall (no_sep c) l -> split_on c (str_join (String c "") l) = l.
Proof.
  induction l as [|s l IH]; [done|]. intros _ Hl. inversion Hl; subst.
  destruct l as [|t l]; [by apply split_on_nosep|].
  rewrite str_join_cons2. str. rewrite split_on_app by done. by rewrite IH.
Qed.
Lemma str_join_snoc sep l s :
  l <> [] -> str_join sep (l ++ [s]) = str_join sep l +:+ sep +:+ s.
Proof.
  induction l as [|t l IH]; [done|]. intros _. destruct l as [|u l]; [done|].
  rewrite <-!app_comm_cons. rewrite !str_join_cons2. rewrite app_comm_cons, IH by done. by str.
Qed.
Lemma str_join_app sep l k :
  l <> [] -> k <> [] -> str_join sep (l ++ k) = str_join sep l +:+ sep +:+ str_join sep k.
Proof.
  intros Hl Hk. induction l as [|t l IH]; [done|]. destruct l as [|u l].
  - destruct k; [done|]. done.
  - rewrite <-!app_comm_cons, !str_join_cons2. rewrite app_comm_cons, IH by done. by str.
Qed.
Lemma str_join_empty_iff c l :
  Forall (fun s => s <> "") l -> str_join (String c "") l = "" <-> l = [].
Proof.
  intros Hl. split; [|by intros ->]. destruct Hl as [|s [|t l] Hs Hl]; [done| |]; cbn.
  - done.
  - intros H. by apply app_eq_empty in H as [-> _].
Qed.

(** ** Replacement *)
Lemma str_map_app f s t : str_map f (s +:+ t) = str_map f s +:+ str_map f t.
Proof. induction s; str; cbn; [done|]. rewrite IHs. by str. Qed.
Lemma replace_all_byte s c new :
  replace_all s (String c "") new =
  str_map (fun d => if d == c then new else String d "") s.
Proof.
  unfold replace_all. induction s as [|d s IH]; [done|]. cbn [replace_go str_map].
  rewrite has_prefix_cons. assert (has_prefix s "" = true) as -> by (apply has_prefix_spec; by exists s).
  rewrite andb_true_r. destruct (d == c); cbn [String.length Nat.sub]; rewrite IH; by str.
Qed.
Lemma str_map_id f s : (forall c, f c = String c "") -> str_map f s = s.
Proof. intros Hf. induction s; cbn; [done|]. rewrite Hf, IHs. by str. Qed.
Lemma replace_all_byte_id s c new : no_sep c s -> replace_all s (String c "") new = s.
Proof.
  rewrite replace_all_byte. induction s as [|d s IH]; [done|]. rewrite no_sep_cons.
  intros [Hd Hs]. cbn. rewrite bool_decide_false by done. rewrite IH by done. by str.
Qed.
Lemma replace_all_byte_no_sep s c new :
  no_sep c new -> no_sep c (replace_all s (String c "") new).
Proof.
  intros Hn. rewrite replace_all_byte. induction s as [|d s IH]; [done|]. cbn.
  apply no_sep_app. split; [|done]. case_bool_decide; [done|]. by apply no_sep_cons.
Qed.

(** ** White space trimming *)

(** A byte that occurs in no encoding of a space. *)
Definition solid (c : ascii) : bool := (33 <=? byte_Z c)%Z && (byte_Z c <? 127)%Z.

Lemma ascii_space_not_solid c : is_ascii_space c = true -> solid c = false.
Proof. by destruct c as [[] [] [] [] [] [] [] []]. Qed.
Lemma space2_not_solid c d : is_space2 c d = true -> solid c = false /\ solid d = false.
Proof.
  unfold is_space2, solid. rewrite andb_true_iff, orb_true_iff, !Z.eqb_eq. intros [-> [->| ->]]; done.
Qed.
Lemma space3_not_solid c d e :
  is_space3 c d e = true -> solid c = false /\ solid d = false /\ solid e = false.
Proof.
  unfold is_space3, solid. intros H.
  repeat case_match; try done;
    rewrite ?andb_true_iff, ?orb_true_iff, ?andb_false_iff, ?Z.eqb_eq, ?Z.leb_le in *;
    rewrite ?Z.leb_gt, ?Z.ltb_ge; lia.
Qed.

Section scan_facts.
Context (p1 : ascii -> bool) (p2 : ascii -> ascii -> bool) (p3 : ascii -> ascii -> ascii -> bool).
Context (sol : ascii -> bool).
Context (sol1 : forall c, p1 c = true -> sol c = false).
Context (sol2 : forall c d, p2 c d = true -> sol c = false /\ sol d = false).
Context (sol3 : forall c d e, p3 c d e = true -> sol c = false /\ sol d = false /\ sol e = false).
#[local] Abbreviation scan := (scan_spaces p1 p2 p3).
#[local] Abbreviation starts := (starts_space p1 p2 p3).

Lemma scan_1 c s : p1 c = true -> scan (String c s) = scan s.
Proof. intros H. cbn [scan_spaces]. by rewrite H. Qed.
Lemma scan_2 c d s : p1 c = false -> p2 c d = true -> scan (String c (String d s)) = scan s.
Proof. intros H1 H2. cbn [scan_spaces]. by rewrite H1, H2. Qed.
Lemma scan_3 c d e s : p1 c = false -> p2 c d = false -> p3 c d e = true ->
  scan (String c (String d (String e s))) = scan s.
Proof. intros H1 H2 H3. cbn [scan_spaces]. by rewrite H1, H2, H3. Qed.

Lemma scan_id s : starts s = false -> scan s = s.
Proof.
  destruct s as [|c [|d [|e s]]]; cbn; [done|..].
  - by destruct (p1 c).
  - by destruct (p1 c), (p2 c d).
  - by destruct (p1 c), (p2 c d), (p3 c d e).
Qed.

(** What is dropped is a prefix without solid bytes, and what is left does
    not start with a space. *)
Definition scanned (s t : string) : Prop :=
  starts t = false /\ exists p, s = p +:+ t /\ contains_byte sol p = false.
Lemma scanned_step u t r :
  contains_byte sol u = false -> scanned t r -> scanned (u +:+ t) r.
Proof.
  intros Hu [Hr [p [-> Hp]]]. split; [done|]. exists (u +:+ p).
  rewrite str_app_assoc, contains_byte_app, Hu, Hp. done.
Qed.
Lemma scan_spec s : scanned s (scan s).
Proof.
  induction s as [s IH] using (induction_ltof1 _ String.length). unfold ltof in IH.
  destruct (starts s) eqn:Hs; cycle 1.
  { rewrite (scan_id s Hs). split; [done|by exists ""]. }
  destruct s as [|c s]; [done|]. cbn in Hs, IH. destruct (p1 c) eqn:E1.
  { rewrite scan_1 by done. apply (scanned_step (String c "")); [by cbn; rewrite sol1|].
    apply IH. lia. }
  destruct s as [|d s]; [done|]. cbn in IH. destruct (p2 c d) eqn:E2.
  { rewrite scan_2 by done. apply (scanned_step (String c (String d ""))).
    - cbn. by destruct (sol2 c d E2) as [-> ->].
    - apply IH. lia. }
  destruct s as [|e s]; [done|]. cbn in Hs, IH.
  rewrite scan_3 by done. apply (scanned_step (String c (String d (String e "")))).
  - cbn. by destruct (sol3 c d e Hs) as (-> & -> & ->).
  - apply IH. lia.
Qed.
Lemma starts_mono s t : starts (s +:+ t) = false -> starts s = false.
Proof.
  destruct s as [|c [|d [|e s]]]; str; cbn; [done|..].
  - by destruct (p1 c).
  - by destruct (p1 c), (p2 c d).
  - by destruct (p1 c), (p2 c d), (p3 c d e).
Qed.
Lemma starts_solid c s : sol c = true -> starts (String c s) = false.
Proof.
  intros Hc. destruct (starts _) eqn:E; [|done]. exfalso.
  cbn in E. destruct (p1 c) eqn:E1; [by rewrite sol1 in Hc|].
  destruct s as [|d s]; [done|]. destruct (p2 c d) eqn:E2.
  { destruct (sol2 c d E2) as [? _]. congruence. }
  destruct s as [|e s]; [done|]. cbn in E. destruct (sol3 c d e E) as [? _]. congruence.
Qed.
Lemma starts_app_solid c s t : sol c = true -> starts s = false -> starts (s +:+ String c t) = false.
Proof.
  intros Hc Hs. destruct s as [|a [|b [|d s]]]; [by apply starts_solid|..]; rewrite !app_cons, ?app_empty_l.
  - cbn in Hs |- *. apply orb_false_iff in Hs as [-> _]. apply orb_false_iff. split; [done|].
    apply orb_false_iff. split; [|destruct t; [done|]].
    + destruct (p2 a c) eqn:E; [|done]. apply sol2 in E. destruct E; congruence.
    + destruct (p3 a c _) eqn:E; [|done]. apply sol3 in E. destruct E as (? & ? & ?); congruence.
  - cbn in Hs |- *. rewrite !orb_false_iff in Hs. destruct Hs as (-> & -> & _). cbn.
    destruct (p3 a b c) eqn:E; [|done]. apply sol3 in E. destruct E as (? & ? & ?); congruence.
  - exact Hs.
Qed.
End scan_facts.

Definition leads_space : string -> bool := starts_space is_ascii_space is_space2 is_space3.
Definition trails_space (s : string) : bool :=
  starts_space is_ascii_space (fun d c => is_space2 c d) (fun e d c => is_space3 c d e) (String.rev s).
(** No leading and no trailing space: the fixed points of [trim_space]. *)
Definition trimmed (s : string) : Prop := leads_space s = false /\ trails_space s = false.

Lemma contains_byte_rev f s : contains_byte f (String.rev s) = contains_byte f s.
Proof.
  induction s; [done|]. rewrite str_rev_cons, contains_byte_app, IHs. cbn.
  rewrite orb_false_r. apply orb_comm.
Qed.
Lemma trim_left_space_spec s :
  leads_space (trim_left_space s) = false /\
  exists p, s = p +:+ trim_left_space s /\ contains_byte solid p = false.
Proof.
  apply scan_spec; [apply ascii_space_not_solid|apply space2_not_solid|apply space3_not_solid].
Qed.
Lemma trim_right_space_spec s :
  trails_space (trim_right_space s) = false /\
  exists p, s = trim_right_space s +:+ p /\ contains_byte solid p = false.
Proof.
  unfold trails_space, trim_right_space, trim_left_space_rev. rewrite str_rev_involutive.
  destruct (scan_spec is_ascii_space (fun d c => is_space2 c d) (fun e d c => is_space3 c d e)
    solid) with (s := String.rev s) as [H1 [p [H2 H3]]].
  - apply ascii_space_not_solid.
  - intros c d H. apply space2_not_solid in H. tauto.
  - intros c d e H. apply space3_not_solid in H. tauto.
  - split; [done|]. exists (String.rev p).
    by rewrite <-str_rev_app, <-H2, str_rev_involutive, contains_byte_rev.
Qed.
Lemma trim_space_trimmed s : trimmed (trim_space s).
Proof.
  unfold trim_space. destruct (trim_left_space_spec s) as [H1 _].
  destruct (trim_right_space_spec (trim_left_space s)) as [H2 [p [Hp _]]].
  split; [|done]. rewrite Hp in H1. by eapply starts_mono.
Qed.
Lemma trim_space_id s : trimmed s -> trim_space s = s.
Proof.
  intros [H1 H2]. unfold trim_space, trim_left_space, trim_right_space, trim_left_space_rev.
  rewrite (scan_id _ _ _ s H1), (scan_id _ _ _ (String.rev s) H2). apply str_rev_involutive.
Qed.
Lemma trim_space_idemp s : trim_space (trim_space s) = trim_space s.
Proof. apply trim_space_id, trim_space_trimmed. Qed.
(** What [trim_space] removes has no solid byte. *)
Lemma trim_space_infix s :
  exists p q, s = p +:+ trim_space s +:+ q /\
    contains_byte solid p = false /\ contains_byte solid q = false.
Proof.
  unfold trim_space. destruct (trim_left_space_spec s) as [_ [p [Hp ?]]].
  destruct (trim_right_space_spec (trim_left_space s)) as [_ [q [Hq ?]]].
  exists p, q. by rewrite <-Hq.
Qed.
Lemma trim_space_solid_nonempty s : contains_byte solid s = true -> trim_space s <> "".
Proof.
  destruct (trim_space_infix s) as (p & q & Hs & Hp & Hq). intros H Ht.
  rewrite Hs, Ht in H. str in H. rewrite contains_byte_app, Hp, Hq in H. done.
Qed.
Lemma leads_space_solid c s : solid c = true -> leads_space (String c s) = false.
Proof.
  apply starts_solid; [apply ascii_space_not_solid|apply space2_not_solid|apply space3_not_solid].
Qed.
Lemma trails_space_solid s c : solid c = true -> trails_space (s +:+ String c "") = false.
Proof.
  unfold trails_space. rewrite str_rev_app. apply starts_solid.
  - apply ascii_space_not_solid.
  - intros d e H. apply space2_not_solid in H. tauto.
  - intros d e f H. apply space3_not_solid in H. tauto.
Qed.
Lemma trails_after_solid s c t : solid c = true -> trails_space t = false -> trails_space (s +:+ String c t) = false.
Proof.
  intros Hc Ht. unfold trails_space in *. rewrite str_rev_app, str_rev_cons, str_app_assoc, app_cons, app_empty_l.
  apply (starts_app_solid _ _ _ solid); [apply ascii_space_not_solid| | |done|done].
  - intros d e H. apply space2_not_solid in H. tauto.
  - intros d e f H. apply space3_not_solid in H. tauto.
Qed.
Lemma trimmed_solid c s d : solid c = true -> solid d = true -> trimmed (String c (s +:+ String d "")).
Proof.
  intros. split; [by apply leads_space_solid|]. rewrite <-app_cons. by apply trails_space_solid.
Qed.
Lemma trimmed_solid_single c : solid c = true -> trimmed (String c "").
Proof. intros. split; [by apply leads_space_solid|by apply (trails_space_solid "")]. Qed.

(** ** Splitting at a separator *)
Lemma split_on_app_sep c s t : split_on c (s +:+ String c t) = split_on c s ++ split_on c t.
Proof.
  induction s as [|d s IH]; str; cbn; [by rewrite decide_True|]. rewrite IH. case_decide; [done|].
  destruct (split_on c s) eqn:E; [by apply split_on_nonempty in E|done].
Qed.
Lemma byte_at_app s t : byte_at (s +:+ t) (String.length s) = byte_at t 0.
Proof. unfold byte_at. by rewrite (String.append_correct2 s t 0). Qed.
Lemma byte_at_0 s c : byte_at s 0 = Some c <-> exists t, s = String c t.
Proof. destruct s; cbn; naive_solver. Qed.

(** ** ASCII text *)
Definition is_ascii (c : ascii) : bool := (byte_Z c <? 128)%Z.
Abbreviation ascii_text s := (all_bytes is_ascii s = true).

(** Prove a fact about one byte by trying all of them. *)
Ltac all_bytes_tac c := destruct c as [[] [] [] [] [] [] [] []]; vm_compute; try done.

Lemma Z_byte_Z c : Z_byte (byte_Z c) = c.
Proof. unfold Z_byte, byte_Z. by rewrite N2Z.id, ascii_N_embedding. Qed.
Lemma byte_Z_nonneg c : (0 <= byte_Z c)%Z.
Proof. unfold byte_Z. lia. Qed.
Lemma byte_Z_bound c : (byte_Z c < 256)%Z.
Proof. all_bytes_tac c. Qed.

Lemma runes_go_ascii idx c s :
  is_ascii c = true -> runes_go 0 idx (String c s) = (idx, byte_Z c) :: runes_go 0 (S idx) s.
Proof. unfold is_ascii. intros H. cbn. unfold decode_rune. by rewrite H. Qed.
Lemma runes_ascii_cons c s : is_ascii c = true -> runes (String c s) = byte_Z c :: runes s.
Proof.
  intros H. unfold runes, range_string. rewrite runes_go_ascii by done. cbn. f_equal.
  assert (forall sk i j t, (runes_go sk i t).*2 = (runes_go sk j t).*2) as E; [|apply E].
  clear. intros sk i j t. revert sk i j.
  induction t as [|d t IH]; intros sk i j; cbn; [done|]. destruct sk; [|auto].
  destruct (decode_rune (String d t)) as [r w]. cbn. f_equal. apply IH.
Qed.

Lemma encode_rune_ascii z : (0 <= z < 128)%Z -> encode_rune z = String (Z_byte z) "".
Proof.
  intros Hz. unfold encode_rune, valid_rune, encode_rune_raw.
  assert ((0 <=? z)%Z = true) as -> by lia. assert ((z <? 55296)%Z = true) as -> by lia. cbn.
  by assert ((z <? 128)%Z = true) as -> by lia.
Qed.

Definition lower_byte (c : ascii) : ascii :=
  if in_range 65 90 (byte_Z c) then Z_byte (byte_Z c + 32) else c.
Lemma lower_byte_ascii c : is_ascii (lower_byte c) = is_ascii c.
Proof. all_bytes_tac c. Qed.
Lemma lower_byte_idemp c : lower_byte (lower_byte c) = lower_byte c.
Proof. all_bytes_tac c. Qed.
Lemma lower_byte_space c : is_ascii_space (lower_byte c) = is_ascii_space c.
Proof. all_bytes_tac c. Qed.

Section ascii_case.
Context `{UnicodeTables}.

Definition ascii_lower (s : string) : string := str_map (fun c => String (lower_byte c) "") s.
Lemma ascii_lower_cons c s : ascii_lower (String c s) = String (lower_byte c) (ascii_lower s).
Proof. done. Qed.
Lemma to_lower_ascii s : ascii_text s -> to_lower s = ascii_lower s.
Proof.
  induction s as [|c s IH]; [done|]. cbn [all_bytes]. intros [Hc Hs]%andb_true_iff.
  unfold to_lower. rewrite runes_ascii_cons by done.
  change (encode_rune (rune_to_lower (byte_Z c)) +:+ to_lower s = ascii_lower (String c s)).
  rewrite (IH Hs), ascii_lower_cons.
  replace (encode_rune (rune_to_lower (byte_Z c))) with (String (lower_byte c) ""); [done|].
  unfold is_ascii in Hc. unfold rune_to_lower, lower_byte. rewrite Hc.
  assert (H1 := byte_Z_nonneg c). unfold in_range. destruct (_ && _) eqn:E; rewrite encode_rune_ascii by lia; [done|].
  by rewrite Z_byte_Z.
Qed.
Lemma ascii_lower_text s : ascii_text s -> ascii_text (ascii_lower s).
Proof.
  induction s as [|c s IH]; [done|]. rewrite ascii_lower_cons. cbn.
  intros [Hc Hs]%andb_true_iff. rewrite lower_byte_ascii, Hc. auto.
Qed.
Lemma ascii_lower_idemp s : ascii_lower (ascii_lower s) = ascii_lower s.
Proof. induction s as [|c s IH]; [done|]. by rewrite !ascii_lower_cons, lower_byte_idemp, IH. Qed.
Lemma ascii_lower_app s t : ascii_lower (s +:+ t) = ascii_lower s +:+ ascii_lower t.
Proof. apply str_map_app. Qed.
Lemma ascii_lower_empty s : ascii_lower s = "" <-> s = "".
Proof. by destruct s. Qed.
End ascii_case.

Lemma ascii_not_space2 c d : is_ascii c = true \/ is_ascii d = true -> is_space2 c d = false.
Proof. unfold is_ascii, is_space2. destruct (Z.ltb_spec (byte_Z c) 128), (Z.ltb_spec (byte_Z d) 128); lia. Qed.
Lemma ascii_not_space3 c d e : is_ascii c = true \/ is_ascii e = true -> is_space3 c d e = false.
Proof.
  unfold is_ascii, is_space3. intros H.
  repeat case_match; repeat match goal with E : _ && _ = true |- _ => apply andb_true_iff in E as [? ?] end; lia.
Qed.
Lemma leads_space_ascii c s : is_ascii c = true -> leads_space (String c s) = is_ascii_space c.
Proof.
  intros H. unfold leads_space. cbn. destruct s as [|d [|e s]]; rewrite ?orb_false_r; [done|..];
    rewrite ascii_not_space2, ?ascii_not_space3 by auto; by rewrite !orb_false_r.
Qed.
Lemma trails_space_ascii c s :
  is_ascii c = true -> trails_space (s +:+ String c "") = is_ascii_space c.
Proof.
  intros H. unfold trails_space. rewrite str_rev_app. change (String.rev (String c "")) with (String c ""). str.
  destruct (String.rev s) as [|d [|e t]];
    cbn; rewrite ?orb_false_r; [done|..]; rewrite ascii_not_space2, ?ascii_not_space3 by auto; by rewrite !orb_false_r.
Qed.
Lemma all_bytes_rev f s : all_bytes f (String.rev s) = all_bytes f s.
Proof.
  induction s as [|c s IH]; [done|]. rewrite str_rev_cons, all_bytes_app, IH. cbn.
  by rewrite andb_true_r, andb_comm.
Qed.
Lemma ascii_lower_trimmed s : ascii_text s -> trimmed s -> trimmed (ascii_lower s).
Proof.
  intros Ha [Hl Ht]. split.
  - destruct s as [|c s]; [done|]. cbn in Ha. apply andb_true_iff in Ha as [Hc _].
    rewrite leads_space_ascii in Hl by done. rewrite ascii_lower_cons, leads_space_ascii by (by rewrite lower_byte_ascii).
    by rewrite lower_byte_space.
  - clear Hl. revert Ha Ht. pattern s. apply str_snoc_ind; clear s; [done|]. intros s c _ Ha Ht.
    rewrite all_bytes_app in Ha. cbn in Ha. apply andb_true_iff in Ha as [_ Hc]. rewrite andb_true_r in Hc.
    rewrite trails_space_ascii in Ht by done.
    change (ascii_lower (s +:+ String c "")) with (str_map (fun c => String (lower_byte c) "") (s +:+ String c "")).
    rewrite str_map_app. cbn. str. rewrite trails_space_ascii by (by rewrite lower_byte_ascii).
    by rewrite lower_byte_space.
Qed.
Lemma trim_space_all_bytes f s : all_bytes f s = true -> all_bytes f (trim_space s) = true.
Proof.
  destruct (trim_space_infix s) as (a & b & E & _). rewrite E at 1.
  rewrite !all_bytes_app. intros H. by apply andb_true_iff in H as [_ [H _]%andb_true_iff].
Qed.
Lemma trim_space_ascii s : ascii_text s -> ascii_text (trim_space s).
Proof. apply trim_space_all_bytes. Qed.
Lemma ascii_lower_fixed s : ascii_lower s = s <-> all_bytes (fun c => lower_byte c == c) s = true.
Proof.
  induction s as [|c s IH]; [done|]. rewrite ascii_lower_cons. cbn.
  rewrite andb_true_iff, <-IH, bool_decide_eq_true. naive_solver congruence.
Qed.
Lemma trim_space_lower_fixed s : ascii_lower s = s -> ascii_lower (trim_space s) = trim_space s.
Proof. rewrite !ascii_lower_fixed. apply trim_space_all_bytes. Qed.

(** ** Machine integers *)
Section ints.
Local Open Scope Z_scope.

Lemma wrap64_id z : min_int64 <= z <= max_int64 -> wrap64 z = z.
Proof. unfold wrap64, min_int64, max_int64. intros Hz. rewrite Z.mod_small by lia. lia. Qed.
Lemma wrap64_overflow z : max_int64 < z < 2 ^ 64 -> wrap64 z < 0.
Proof.
  unfold wrap64, max_int64. intros Hz. replace (z + 2 ^ 63) with ((z - 2 ^ 63) + 1 * 2 ^ 64) by lia.
  rewrite Z.mod_add by lia. rewrite Z.mod_small by lia. lia.
Qed.
Lemma parse_int64_bounds s z : parse_int64 s = Some z -> min_int64 <= z <= max_int64.
Proof.
  unfold parse_int64. destruct (parse_dec s) as [y|]; cbn; [|done]. destruct (is_int64 y) eqn:E; [|done].
  intros [= <-]. unfold is_int64 in E. lia.
Qed.

(** Decimal integers are read back. *)
Lemma byte_Z_Z_byte z : 0 <= z < 256 -> byte_Z (Z_byte z) = z.
Proof. intros Hz. unfold byte_Z, Z_byte. rewrite N_ascii_embedding by lia. lia. Qed.
Lemma digit_byte_is_digit d : 0 <= d < 10 -> is_ascii_digit (digit_byte d) = true.
Proof. intros Hd. unfold is_ascii_digit, digit_byte. rewrite byte_Z_Z_byte by lia. unfold in_range. lia. Qed.
Lemma parse_dec_digits fuel : forall n acc, 0 <= n < 2 ^ Z.of_nat fuel -> (0 < fuel)%nat ->
  exists c, forall a, parse_digits a (dec_digits fuel n acc) = parse_digits (a * c + n) acc.
Proof.
  induction fuel as [|fuel IH]; intros n acc Hn Hf; [lia|]. cbn [dec_digits].
  assert (forall a, parse_digits a (String (digit_byte (n mod 10)) acc) = parse_digits (10 * a + n mod 10) acc) as Hd.
  { intros a. cbn [parse_digits]. pose proof (Z.mod_pos_bound n 10). rewrite digit_byte_is_digit by lia.
    unfold digit_byte. rewrite byte_Z_Z_byte by lia. f_equal. lia. }
  destruct (Z.ltb_spec n 10).
  - exists 10. intros a. rewrite Hd. f_equal. rewrite Z.mod_small by lia. lia.
  - rewrite Nat2Z.inj_succ, Z.pow_succ_r in Hn by lia.
    assert (n / 10 < 2 ^ Z.of_nat fuel) as Hlt by (apply Z.div_lt_upper_bound; lia).
    destruct fuel as [|fuel]; [cbn in Hn; lia|].
    destruct (IH (n / 10) (String (digit_byte (n mod 10)) acc)) as [c Hc]; [split; [apply Z.div_pos; lia|done]|lia|].
    exists (10 * c). intros a. rewrite Hc, Hd. f_equal. pose proof (Z.div_mod n 10). lia.
Qed.
Lemma dec_digits_app fuel : forall n acc, dec_digits fuel n acc = dec_digits fuel n "" +:+ acc.
Proof.
  induction fuel as [|fuel IH]; intros n acc; [done|]. cbn [dec_digits]. destruct (n <? 10); [done|].
  rewrite IH, (IH _ (String _ "")), str_app_assoc. done.
Qed.
Lemma dec_digits_head fuel n acc : 0 <= n -> exists c s, dec_digits (S fuel) n acc = String c s /\ is_ascii_digit c = true.
Proof.
  revert n acc. induction fuel as [|fuel IH]; intros n acc Hn; pose proof (Z.mod_pos_bound n 10).
  - cbn [dec_digits]. destruct (n <? 10); eexists _, _; (split; [reflexivity|]); apply digit_byte_is_digit; lia.
  - change (dec_digits (S (S fuel)) n acc) with
      (let acc := String (digit_byte (n mod 10)) acc in if n <? 10 then acc else dec_digits (S fuel) (n / 10) acc).
    cbv zeta. destruct (n <? 10); [|apply IH, Z.div_pos; lia].
    eexists _, _. split; [reflexivity|]. apply digit_byte_is_digit. lia.
Qed.
Lemma parse_int64_itoa n : 0 <= n <= max_int64 -> parse_int64 (itoa n) = Some n.
Proof.
  intros Hn. unfold parse_int64, itoa. assert ((n <? 0) = false) as -> by lia.
  assert (0 <= n < 2 ^ Z.of_nat (dec_fuel n)) as Hf.
  { split; [lia|]. unfold dec_fuel. rewrite Nat2Z.inj_succ, Z2Nat.id by apply Z.log2_nonneg.
    destruct (Z.eq_dec n 0) as [->|]; [done|]. apply Z.log2_spec. lia. }
  destruct (parse_dec_digits (dec_fuel n) n "" Hf) as [c Hc]; [unfold dec_fuel; lia|].
  specialize (Hc 0). unfold dec_fuel in *. destruct (dec_digits_head (Z.to_nat (Z.log2 n)) n "") as (d & s & E & Hd); [lia|].
  rewrite E in *. assert (parse_dec (String d s) = Some n) as ->.
  { unfold parse_dec. destruct d as [[] [] [] [] [] [] [] []]; try discriminate Hd; exact Hc. }
  cbn. assert (is_int64 n = true) as ->; [|done]. unfold is_int64, min_int64. unfold max_int64 in *. lia.
Qed.
End ints.

(** The first occurrence of a text. *)
Lemma index_of_Some s p : forall i, index_of s p = Some i ->
  s = str_take i s +:+ p +:+ str_drop (i + String.length p) s.
Proof.
  induction s as [|c s IH]; intros i; cbn [index_of]; destruct (has_prefix _ p) eqn:E; intros H.
  - injection H as <-. apply has_prefix_spec in E as [t Et]. symmetry in Et. by apply app_eq_empty in Et as [-> ->].
  - done.
  - injection H as <-. apply has_prefix_spec in E as [t Et]. cbn [str_take Nat.add]. by rewrite Et, str_drop_app.
  - destruct (index_of s p) as [j|] eqn:Ej; [|done]. injection H as <-. cbn [str_take str_drop Nat.add].
    rewrite app_cons. f_equal. by apply IH.
Qed.
Lemma index_of_take s p : p <> "" -> forall i, index_of s p = Some i -> index_of (str_take i s) p = None.
Proof.
  intros Hp. assert (index_of "" p = None) as Hempty by (by destruct p).
  induction s as [|c s IH]; intros i; cbn [index_of]; destruct (has_prefix _ p) eqn:E; intros H.
  - by injection H as <-.
  - done.
  - by injection H as <-.
  - destruct (index_of s p) as [j|] eqn:Ej; [|done]. injection H as <-. cbn [str_take index_of].
    rewrite (IH j eq_refl). destruct (has_prefix (String c (str_take j s)) p) eqn:E'; [|done].
    apply has_prefix_spec in E' as [t Et]. enough (has_prefix (String c s) p = true) by congruence. apply has_prefix_spec.
    exists (t +:+ str_drop j s). rewrite <-str_app_assoc, <-Et, app_cons. f_equal. symmetry. apply str_take_drop.
Qed.
Lemma length_index_rest s p i : index_of s p = Some i ->
  (String.length (str_drop (i + String.length p) s) + String.length p <= String.length s).
Proof.
  intros H%index_of_Some. rewrite H at 2. rewrite !length_str_app. lia.
Qed.

(** ** Slashes around a text *)
Lemma trim_left_bytes_id f c s : f c = false -> trim_left_bytes f (String c s) = String c s.
Proof. cbn. by intros ->. Qed.
Lemma trim_right_bytes_id f c s : f c = false -> trim_right_bytes f (s +:+ String c "") = s +:+ String c "".
Proof.
  intros Hc. unfold trim_right_bytes. rewrite str_rev_app. change (String.rev (String c "")) with (String c "").
  str. rewrite trim_left_bytes_id by done. rewrite str_rev_cons, str_rev_involutive. done.
Qed.
Lemma no_slash_ends s : s <> "" -> no_sep slash s ->
  (exists c t, s = String c t /\ is_slash c = false) /\ (exists t c, s = t +:+ String c "" /\ is_slash c = false).
Proof.
  intros Hn Hs. split.
  - destruct s as [|c t]; [done|]. apply no_sep_cons in Hs as [Hc _]. exists c, t. split; [done|].
    unfold is_slash. by rewrite bool_decide_false.
  - revert Hn Hs. pattern s. apply str_snoc_ind; [done|]. intros t c _ _ [_ Hc]%no_sep_app.
    apply no_sep_cons in Hc as [Hc _]. exists t, c. split; [done|]. unfold is_slash. by rewrite bool_decide_false.
Qed.
Lemma trim_slashes_join l : l <> [] -> Forall (fun s => s <> "") l -> Forall (no_sep slash) l ->
  trim_bytes is_slash ("/" +:+ str_join "/" l) = str_join "/" l.
Proof.
  intros Hl Hne Hs. set (j := str_join "/" l). unfold trim_bytes.
  change (trim_left_bytes is_slash ("/" +:+ j)) with (trim_left_bytes is_slash j).
  assert (exists c t, j = String c t /\ is_slash c = false) as (c & t & Hc & Hcs).
  { destruct l as [|k ks]; [done|]. inversion Hne; subst. inversion Hs; subst.
    destruct (no_slash_ends k) as [(c & t & -> & Ec) _]; [done..|]. unfold j. destruct ks as [|k' ks]; [by exists c, t|].
    rewrite str_join_cons2. eexists c, _. by rewrite app_cons. }
  assert (exists u d, j = u +:+ String d "" /\ is_slash d = false) as (u & d & Hd & Hds).
  { destruct (exists_last Hl) as (k & x & El). unfold j. rewrite El in Hne, Hs |- *.
    apply Forall_app in Hne as [_ Hx1]. apply Forall_app in Hs as [_ Hx2]. rewrite Forall_singleton in Hx1, Hx2.
    destruct (no_slash_ends x) as [_ (u & d & -> & Ed)]; [exact Hx1|exact Hx2|].
    destruct k as [|y k]; [by exists u, d|]. rewrite str_join_snoc by done. eexists (_ +:+ "/" +:+ u), d. by str. }
  rewrite Hc at 1. rewrite trim_left_bytes_id by done. rewrite <-Hc, Hd. by apply trim_right_bytes_id.
Qed.
