(* ===== verification/GoGlob.v ===== *)
(** * Shell patterns of the standard library

    Models [path.Match], which the modelled code calls on single path segments and on
    branch names, with its helpers [scanChunk], [matchChunk] and [getEsc]. *)
From S2P Require Import Prelude GoText GoTextFacts.
Local Open Scope Z_scope.

(** [None] is [path.ErrBadPattern]. *)
Definition getEsc (chunk : string) : option (Z * string) :=
  match chunk with
  | EmptyString => None
  | String c rest =>
      if (c == "-"%char) || (c == "]"%char) then None
      else
        let chunk := if c == "\"%char then rest else chunk in
        if chunk == "" then None
        else
          let '(r, n) := decode_rune chunk in
          if (r =? rune_error) && (n =? 1)%nat then None
          else
            let nchunk := str_drop n chunk in
            if nchunk == "" then None else Some (r, nchunk)
  end.
(** The loop over the ranges of a class; every round reads at least one byte. *)
Fixpoint match_ranges (fuel : nat) (chunk : string) (r : Z) (matched : bool) (nrange : nat) : option (bool * string) :=
  match fuel with
  | O => None
  | S fuel =>
      match chunk with
      | String c rest =>
          if (c == "]"%char) && (0 <? nrange)%nat then Some (matched, rest)
          else
            match getEsc chunk with
            | None => None
            | Some (lo, chunk) =>
                match (match chunk with
                       | String d rest => if d == "-"%char then getEsc rest else Some (lo, chunk)
                       | EmptyString => Some (lo, chunk)
                       end) with
                | None => None
                | Some (hi, chunk) => match_ranges fuel chunk r (matched || ((lo <=? r) && (r <=? hi))) (S nrange)
                end
            end
      | EmptyString => None
      end
  end.

(** The loop over a chunk without a star. [s] is [None] once the match has failed: the
    rest of the chunk is then only checked. *)
Definition class_rune (s : option string) : Z := match s with Some s => fst (decode_rune s) | None => 0 end.
Definition drop_rune (s : string) : string := str_drop (snd (decode_rune s)) s.
Definition unless_empty (s : option string) : option string :=
  match s with Some s => if s == "" then None else Some s | None => None end.
Definition match_byte (c : ascii) (s : option string) : option string :=
  match s with
  | Some (String d s) => if c == d then Some s else None
  | _ => None
  end.
Fixpoint match_chunk (fuel : nat) (chunk : string) (s : option string) : option (option string) :=
  match fuel with
  | O => None
  | S fuel =>
      match chunk with
      | EmptyString => Some s
      | String c rest =>
          let s := unless_empty s in
          if c == "["%char then
            let r := class_rune s in
            let '(negated, ranges) := match rest with
                                      | String d rest' => if d == "^"%char then (true, rest') else (false, rest)
                                      | EmptyString => (false, rest)
                                      end in
            match match_ranges (S (String.length ranges)) ranges r false 0 with
            | None => None
            | Some (matched, chunk) =>
                match_chunk fuel chunk (match s with
                                        | Some s => if Bool.eqb matched negated then None else Some (drop_rune s)
                                        | None => None
                                        end)
            end
          else if c == "?"%char then
            match_chunk fuel rest (match s with
                                   | Some s => if has_prefix s "/" then None else Some (drop_rune s)
                                   | None => None
                                   end)
          else if c == "\"%char then
            match rest with
            | EmptyString => None
            | String d rest => match_chunk fuel rest (match_byte d s)
            end
          else match_chunk fuel rest (match_byte c s)
      end
  end.
(** [None] is a bad pattern, [Some None] no match, [Some (Some rest)] a match. *)
Definition matchChunk (chunk s : string) : option (option string) := match_chunk (S (String.length chunk)) chunk (Some s).

Fixpoint strip_stars (pattern : string) : bool * string :=
  match pattern with
  | String c rest => if c == "*"%char then (true, snd (strip_stars rest)) else (false, pattern)
  | EmptyString => (false, "")
  end.
(** The length of the chunk up to the next star outside a class. *)
Fixpoint scan_chunk (inrange skip : bool) (pattern : string) : nat :=
  match pattern with
  | EmptyString => 0
  | String c rest =>
      if skip then S (scan_chunk inrange false rest)
      else if c == "\"%char then S (scan_chunk inrange true rest)
      else if c == "["%char then S (scan_chunk true false rest)
      else if c == "]"%char then S (scan_chunk false false rest)
      else if (c == "*"%char) && negb inrange then 0
      else S (scan_chunk inrange false rest)
  end.
Definition scanChunk (pattern : string) : bool * string * string :=
  let '(star, pattern) := strip_stars pattern in
  let i := scan_chunk false false pattern in
  (star, str_take i pattern, str_drop i pattern).

(** The rest of the pattern is checked before a failure is reported. *)
Fixpoint well_formed_rest (fuel : nat) (pattern : string) : bool :=
  match fuel with
  | O => true
  | S fuel =>
      if pattern == "" then true
      else let '(_, chunk, pattern) := scanChunk pattern in
           match matchChunk chunk "" with None => false | Some _ => well_formed_rest fuel pattern end
  end.
(** The positions a star may skip to: the first after which the chunk matches. *)
Fixpoint skip_to (chunk : string) (is_last : bool) (name : string) : option (option string) :=
  match name with
  | EmptyString => Some None
  | String c rest =>
      if c == slash then Some None
      else match matchChunk chunk rest with
           | None => None
           | Some (Some t) => if is_last && negb (t == "") then skip_to chunk is_last rest else Some (Some t)
           | Some None => skip_to chunk is_last rest
           end
  end.
Fixpoint match_go (fuel : nat) (pattern name : string) : option bool :=
  match fuel with
  | O => None
  | S fuel =>
      if pattern == "" then Some (name == "")
      else
        let '(star, chunk, pattern) := scanChunk pattern in
        if star && (chunk == "") then Some (negb (contains_byte is_slash name))
        else
          let failure := if well_formed_rest (S (String.length pattern)) pattern then Some false else None in
          let skipped :=
            if star then
              match skip_to chunk (pattern == "") name with
              | None => None
              | Some (Some t) => match_go fuel pattern t
              | Some None => failure
              end
            else failure in
          match matchChunk chunk name with
          | None => None
          | Some (Some t) => if (t == "") || negb (pattern == "") then match_go fuel pattern t else skipped
          | Some None => skipped
          end
  end.
(** [path.Match(pattern, name)]; [None] is [path.ErrBadPattern]. *)
Definition path_match (pattern name : string) : option bool := match_go (S (String.length pattern)) pattern name.

Example match_star : path_match "rel*/v?" "release/v2" = Some true /\ path_match "*" "a/b" = Some false. Proof. split; reflexivity. Qed.
Example match_class : path_match "[a-c]x[^0-9]*" "bxyz" = Some true /\ path_match "[a-c]x[^0-9]*" "bx1z" = Some false. Proof. split; reflexivity. Qed.
Example match_bad : path_match "[a" "b" = None /\ path_match "a[" "b" = None /\ path_match "a*[" "b" = None. Proof. repeat split; reflexivity. Qed.

(** ** Fuel and plain patterns *)
Lemma strip_stars_shrinks p : (String.length (snd (strip_stars p)) <= String.length p)%nat.
Proof. induction p as [|c p IH]; cbn; [done|]. destruct (_ == _); cbn; lia. Qed.
Lemma strip_stars_false p : fst (strip_stars p) = false -> snd (strip_stars p) = p.
Proof. destruct p as [|c p]; [done|]. cbn. by destruct (_ == _). Qed.
Lemma strip_stars_first p : match snd (strip_stars p) with String c _ => (c == "*"%char) = false | EmptyString => True end.
Proof. induction p as [|c p IH]; [done|]. cbn. destruct (c == "*"%char) eqn:E; [exact IH|exact E]. Qed.
Lemma strip_stars_true p : fst (strip_stars p) = true -> (String.length (snd (strip_stars p)) < String.length p)%nat.
Proof. destruct p as [|c p]; [done|]. cbn. destruct (_ == _); [|done]. intros _. pose proof (strip_stars_shrinks p). cbn. lia. Qed.
(** Each chunk takes at least one byte of the pattern. *)
Lemma scanChunk_shrinks p star chunk rest : scanChunk p = (star, chunk, rest) -> p <> "" -> (String.length rest < String.length p)%nat.
Proof.
  unfold scanChunk. pose proof (strip_stars_shrinks p) as Hs. pose proof (strip_stars_first p) as Hfirst.
  destruct (strip_stars p) as [st q] eqn:E. cbn [fst snd] in *. intros [= <- <- <-] Hne. rewrite length_str_drop.
  destruct st.
  - pose proof (strip_stars_true p) as Ht. rewrite E in Ht. specialize (Ht eq_refl). cbn in Ht. lia.
  - pose proof (strip_stars_false p) as Hf. rewrite E in Hf. cbn in Hf. specialize (Hf eq_refl). subst q. clear E Hs.
    destruct p as [|c p]; [done|]. cbn [scan_chunk String.length].
    destruct (c == "\"%char); [lia|]. destruct (c == "["%char); [lia|]. destruct (c == "]"%char); [lia|].
    rewrite Hfirst. cbn [andb]. lia.
Qed.
(** More fuel changes nothing. *)
Lemma match_go_fuel n : forall m pattern name, (String.length pattern < n)%nat -> (String.length pattern < m)%nat ->
  match_go n pattern name = match_go m pattern name.
Proof.
  induction n as [|n IH]; intros m pattern name Hn Hm; [lia|]. destruct m as [|m]; [lia|]. cbn [match_go].
  case_bool_decide as Hp; [done|]. destruct (scanChunk pattern) as [[star chunk] rest] eqn:E.
  apply scanChunk_shrinks in E; [|done]. destruct (star && _); [done|].
  assert (forall t, match_go n rest t = match_go m rest t) as IHr by (intros t; apply IH; lia).
  destruct (matchChunk chunk name) as [[t|]|]; [destruct (_ || _)| |]; rewrite ?IHr; try done;
    (destruct star; [destruct (skip_to _ _ _) as [[t'|]|]; by rewrite ?IHr|done]).
Qed.

Definition is_meta (c : ascii) : bool := bool_decide (c ∈ ["*"; "?"; "["; "\"]%char).
Lemma is_meta_false c : is_meta c = false -> c <> "*"%char /\ c <> "?"%char /\ c <> "["%char /\ c <> "\"%char.
Proof. intros Hc%bool_decide_eq_false. set_solver. Qed.
Lemma match_chunk_failed p : forall fuel, contains_byte is_meta p = false -> (String.length p < fuel)%nat -> match_chunk fuel p None = Some None.
Proof.
  induction p as [|c p IH]; intros fuel Hm Hf; (destruct fuel as [|fuel]; [lia|]); [done|].
    cbn [contains_byte] in Hm. apply orb_false_iff in Hm as [Hc Hm]. apply is_meta_false in Hc as (H1 & H2 & H3 & H4).
    cbn [match_chunk]. eqb. apply IH; [done|cbn in Hf; lia].
Qed.
Lemma match_chunk_plain p : forall fuel s, contains_byte is_meta p = false -> (String.length p < fuel)%nat ->
  match_chunk fuel p (Some s) = Some (if has_prefix s p then Some (str_drop (String.length p) s) else None).
Proof.
  induction p as [|c p IH]; intros fuel s Hm Hf; (destruct fuel as [|fuel]; [lia|]).
  - cbn. by rewrite has_prefix_empty.
  - cbn [contains_byte] in Hm. apply orb_false_iff in Hm as [Hc Hm]. apply is_meta_false in Hc as (H1 & H2 & H3 & H4).
    cbn [match_chunk]. eqb. destruct s as [|d s]; cbn [unless_empty match_byte].
    + eqb. cbn [match_byte]. by rewrite match_chunk_failed by (done || (cbn in Hf; lia)).
    + rewrite bool_decide_false by done. cbn [match_byte]. destruct (decide (c = d)) as [<-|Hne].
      * rewrite bool_decide_true by done. rewrite IH by (done || (cbn in Hf; lia)). cbn [String.length str_drop].
        rewrite has_prefix_cons. by rewrite bool_decide_true.
      * rewrite bool_decide_false by done. rewrite match_chunk_failed by (done || (cbn in Hf; lia)). rewrite has_prefix_cons.
        by rewrite bool_decide_false by congruence.
Qed.
Lemma scanChunk_plain p : contains_byte is_meta p = false -> scanChunk p = (false, p, "").
Proof.
  intros Hm. unfold scanChunk. assert (strip_stars p = (false, p)) as ->.
  { destruct p as [|c p]; [done|]. cbn in *. apply orb_false_iff in Hm as [Hc _]. apply is_meta_false in Hc as (H1 & _). by eqb. }
  assert (scan_chunk false false p = String.length p) as ->.
  { induction p as [|c p IH]; [done|]. cbn in *. apply orb_false_iff in Hm as [Hc Hm]. apply is_meta_false in Hc as (H1 & H2 & H3 & H4).
    eqb. destruct (c == "]"%char); by rewrite IH. }
  rewrite <-(app_empty_r p) at 2. rewrite str_take_app. rewrite <-(app_empty_r p) at 3. by rewrite str_drop_app.
Qed.
(** A pattern without metacharacters matches itself and nothing else. *)
Lemma path_match_plain p name : contains_byte is_meta p = false -> path_match p name = Some (name == p).
Proof.
  intros Hm. unfold path_match. cbn [match_go]. case_bool_decide as Hp; [by subst|].
  rewrite scanChunk_plain by done. cbn [andb]. unfold matchChunk. rewrite match_chunk_plain by (done || lia).
  destruct (has_prefix name p) eqn:E.
  - apply has_prefix_spec in E as [t ->]. rewrite str_drop_app. cbn [orb negb]. destruct (decide (t = "")) as [->|Ht].
    + rewrite app_empty_r. destruct p as [|c p]; [done|]. rewrite !bool_decide_true by done. reflexivity.
    + rewrite (bool_decide_false (t = "")) by done. rewrite !(bool_decide_true ("" = "")) by done. cbn.
      rewrite (bool_decide_false (p +:+ t = p)); [reflexivity|]. intros Heq. apply (f_equal String.length) in Heq. rewrite length_str_app in Heq.
      destruct t; [done|cbn in Heq; lia].
  - rewrite (bool_decide_false (name = p)); [reflexivity|]. intros ->. by rewrite has_prefix_refl in E.
Qed.
