(* ===== verification/GoFloat.v ===== *)
(** * Go floats

    [float64] is Rocq's [spec_float] at precision 53: integer conversion,
    [strconv.ParseFloat] on decimal literals and [strconv.FormatFloat] with
    format ['f'] and the shortest precision. *)
From S2P Require Import Prelude GoText.
From Stdlib Require Export SpecFloat.
Local Open Scope Z_scope.

#[export] Instance spec_float_eq_dec : EqDecision spec_float.
Proof. solve_decision. Defined.

Definition prec64 : Z := 53.
Definition emax64 : Z := 1024.
(** [float64(z)] for an integer: round to nearest, ties to even. *)
Definition float64_of_Z (z : Z) : spec_float := binary_normalize prec64 emax64 z 0 false.
Definition float_is_nan (f : spec_float) : bool := match f with S754_nan => true | _ => false end.
Definition float_is_inf (f : spec_float) : bool := match f with S754_infinity _ => true | _ => false end.
Definition float_eq (f g : spec_float) : bool := SFeqb f g.

(** The float64 nearest to [m * 10^e]: the division is exact up to the final
    rounding. *)
Definition float64_of_dec (neg : bool) (m e : Z) : spec_float :=
  match m with
  | Zpos p =>
      if 0 <=? e then binary_normalize prec64 emax64 (if neg then - (m * 10 ^ e) else m * 10 ^ e) 0 neg
      else match 10 ^ (- e) with
           | Zpos q => SFdiv prec64 emax64 (S754_finite neg p 0) (S754_finite false q 0)
           | _ => S754_nan
           end
  | _ => S754_zero neg
  end.

Fixpoint span_digits (s : string) : string * string :=
  match s with
  | String c s' => if is_ascii_digit c then let '(d, r) := span_digits s' in (String c d, r) else ("", s)
  | EmptyString => ("", "")
  end.
(** [strconv.ParseFloat(s, 64)] on a decimal literal, as JSON writes numbers; a
    value that overflows is an error. *)
Definition parse_float (s : string) : option spec_float :=
  let '(neg, s) := match s with
                   | String "-"%char s => (true, s)
                   | String "+"%char s => (false, s)
                   | _ => (false, s)
                   end in
  let '(ip, s) := span_digits s in
  let '(fp, s) := match s with
                  | String "."%char s => span_digits s
                  | _ => ("", s)
                  end in
  m ← parse_nat_dec (ip +:+ fp);
  e ← match s with
      | EmptyString => Some 0
      | String "e"%char s | String "E"%char s => parse_dec s
      | _ => None
      end;
  let f := float64_of_dec neg m (e - Z.of_nat (String.length fp)) in
  if float_is_inf f then None else Some f.

(** ** Shortest decimal

    The value is [m * 2^e]; the decimals that read back as it are those between
    the midpoints to its neighbours, the bounds included when [m] is even. The
    format has [mbits] explicit mantissa bits and least exponent [minexp]. *)
Section shortest.
Context (mbits minexp : Z).
Definition cmp_scaled (c k m e : Z) : comparison :=
  (* compare [c * 10^k] with [m * 2^e] *)
  let lhs := c * 10 ^ Z.max 0 k * 2 ^ Z.max 0 (- e) in
  let rhs := m * 2 ^ Z.max 0 e * 10 ^ Z.max 0 (- k) in
  lhs ?= rhs.
Definition reads_back (m e c k : Z) : bool :=
  let incl := Z.even m in
  let lower := if (m =? 2 ^ mbits) && negb (e =? minexp) then (4 * m - 1, e - 2) else (2 * m - 1, e - 1) in
  let upper := (2 * m + 1, e - 1) in
  let above := match cmp_scaled c k (fst lower) (snd lower) with Gt => true | Eq => incl | Lt => false end in
  let below := match cmp_scaled c k (fst upper) (snd upper) with Lt => true | Eq => incl | Gt => false end in
  above && below.
(** [floor (m * 2^e / 10^k)]. *)
Definition scaled_floor (m e k : Z) : Z :=
  (m * 2 ^ Z.max 0 e * 10 ^ Z.max 0 (- k)) / (10 ^ Z.max 0 k * 2 ^ Z.max 0 (- e)).
(** The number of integer digits of [m * 2^e] (at most 0 below one). *)
Fixpoint magnitude_go (fuel : nat) (m e k : Z) : Z :=
  match fuel with
  | O => k
  | S fuel => if scaled_floor m e k =? 0 then magnitude_go fuel m e (k - 1) else k + 1
  end.
Definition magnitude (m e : Z) : Z := magnitude_go 700 m e 310.

Definition pick_digits (m e k : Z) : option Z :=
  let c := scaled_floor m e k in
  let down := reads_back m e c k in
  let up := reads_back m e (c + 1) k in
  match down, up with
  | true, true =>
      (* the nearer one, an exact tie going to the even digit *)
      match cmp_scaled (2 * c + 1) k (2 * m) e with
      | Gt => Some c
      | Lt => Some (c + 1)
      | Eq => Some (if Z.even c then c else c + 1)
      end
  | true, false => Some c
  | false, true => Some (c + 1)
  | false, false => None
  end.
Fixpoint shortest_go (fuel : nat) (m e k : Z) : Z * Z :=
  match fuel with
  | O => (scaled_floor m e k, k)
  | S fuel => match pick_digits m e k with Some c => (c, k) | None => shortest_go fuel m e (k - 1) end
  end.
End shortest.
Definition zeros (n : Z) : string := Nat.iter (Z.to_nat n) (String "0"%char) "".
Fixpoint strip_zeros (fuel : nat) (c k : Z) : Z * Z :=
  match fuel with
  | O => (c, k)
  | S fuel => if (c mod 10 =? 0) && (0 <? c) then strip_zeros fuel (c / 10) (k + 1) else (c, k)
  end.
(** Write [c * 10^k] without an exponent. *)
Definition format_dec (c k : Z) : string :=
  let '(c, k) := strip_zeros 400 c k in
  let d := itoa c in
  if 0 <=? k then d +:+ zeros k
  else
    let n := Z.of_nat (String.length d) in
    if - k <? n then str_take (Z.to_nat (n + k)) d +:+ "." +:+ str_drop (Z.to_nat (n + k)) d
    else "0." +:+ zeros (- k - n) +:+ d.
Definition format_finite (mbits minexp : Z) (neg : bool) (m e : Z) : string :=
  let '(c, k) := shortest_go mbits minexp 17 m e (magnitude m e - 1) in
  (if neg then "-" else "") +:+ format_dec c k.
(** [strconv.FormatFloat(f, 'f', -1, 64)]. *)
Definition format_float (f : spec_float) : string :=
  match f with
  | S754_nan => "NaN"
  | S754_infinity neg => if neg then "-Inf" else "+Inf"
  | S754_zero neg => if neg then "-0" else "0"
  | S754_finite neg m e => format_finite 52 (-1074) neg (Zpos m) e
  end.
(** [strconv.FormatFloat(float64(f), 'f', -1, 32)] of a float32, given as the
    float64 it converts to: its own mantissa has 24 bits, fewer below 2^-126. *)
Definition format_float32 (f : spec_float) : string :=
  match f with
  | S754_finite neg m e =>
      let shift := Z.max 29 (-149 - e) in
      format_finite 23 (-149) neg (Z.shiftr (Zpos m) shift) (e + shift)
  | _ => format_float f
  end.
