(* ===== verification/GoLib.v ===== *)
(** * Instants, media types, base64

    Of the standard library of Go: [time.Time] in UTC as the number of nanoseconds since the
    Unix epoch, in the proleptic Gregorian calendar by the usual era arithmetic (400 years have
    146097 days, years start in March); the media type part of [mime.ParseMediaType], which is
    all the modelled code reads ([None] is a non-nil error); [EncodeToString] and [DecodeString]
    of [base64.StdEncoding], on the bits of the bytes. *)
From S2P Require Import Prelude GoText GoTextFacts.
Local Open Scope Z_scope.

(** ** [time] *)
Definition nanosecond : Z := 1.
Definition second : Z := 1000000000.
Definition minute : Z := 60 * second.
Definition hour : Z := 60 * minute.
Definition day : Z := 24 * hour.

Record civil := { c_year : Z; c_month : Z; c_day : Z }.
Definition civil_of_days (z : Z) : civil :=
  let z := z + 719468 in
  let era := z / 146097 in
  let doe := z - era * 146097 in
  let yoe := (doe - doe / 1460 + doe / 36524 - doe / 146096) / 365 in
  let doy := doe - (365 * yoe + yoe / 4 - yoe / 100) in
  let mp := (5 * doy + 2) / 153 in
  let m := if mp <? 10 then mp + 3 else mp - 9 in
  {| c_year := yoe + era * 400 + (if m <=? 2 then 1 else 0); c_month := m; c_day := doy - (153 * mp + 2) / 5 + 1 |}.
(** Days since the epoch; the day of the month may be out of range, and is then
    carried over, as [time.Date] does. *)
Definition days_of_civil (c : civil) : Z :=
  let y := if c_month c <=? 2 then c_year c - 1 else c_year c in
  let era := y / 400 in
  let yoe := y - era * 400 in
  let mp := if 2 <? c_month c then c_month c - 3 else c_month c + 9 in
  let doy := (153 * mp + 2) / 5 + c_day c - 1 in
  era * 146097 + (yoe * 365 + yoe / 4 - yoe / 100 + doy) - 719468.

Definition time_days (t : Z) : Z := t / day.
Definition time_minute (t : Z) : Z := (t / minute) mod 60.
Definition time_hour (t : Z) : Z := (t / hour) mod 24.
Definition time_day (t : Z) : Z := c_day (civil_of_days (time_days t)).
Definition time_month (t : Z) : Z := c_month (civil_of_days (time_days t)).
(** Sunday is 0; the epoch was a Thursday. *)
Definition time_weekday (t : Z) : Z := (time_days t + 4) mod 7.
(** [t.Truncate(d)] rounds down to a multiple of [d] since year 1, which is one since
    the epoch for the units that divide a day. *)
Definition truncate (d t : Z) : Z := t / d * d.
(** [t.AddDate(years, 0, 0)]. *)
Definition add_years (n t : Z) : Z :=
  let c := civil_of_days (time_days t) in
  days_of_civil {| c_year := c_year c + n; c_month := c_month c; c_day := c_day c |} * day + t mod day.

Example epoch_civil : civil_of_days 0 = {| c_year := 1970; c_month := 1; c_day := 1 |}.
Proof. reflexivity. Qed.
Example leap_day_carried : civil_of_days (time_days (add_years 5 (days_of_civil {| c_year := 2024; c_month := 2; c_day := 29 |} * day)))
  = {| c_year := 2029; c_month := 3; c_day := 1 |}.
Proof. reflexivity. Qed.

(** ** [mime] *)
Definition is_tspecial (c : ascii) : bool :=
  match c with
  | "(" | ")" | "<" | ">" | "@" | "," | ";" | ":" | "\" | "034" | "/" | "[" | "]" | "?" | "=" => true
  | _ => false
  end%char.
Definition is_token_char (c : ascii) : bool :=
  (32 <? byte_Z c) && (byte_Z c <? 127) && negb (is_tspecial c).
Fixpoint consume_token (v : string) : string * string :=
  match v with
  | String c v' => if is_token_char c then let '(t, r) := consume_token v' in (String c t, r) else ("", v)
  | EmptyString => ("", "")
  end.

(** The quoted string after its opening quote: the value and the rest. *)
Fixpoint consume_quoted (v : string) : option (string * string) :=
  match v with
  | EmptyString => None
  | String c v' =>
      if c == "034"%char then Some ("", v')
      else if (c == "010"%char) || (c == "013"%char) then None
      else match v' with
           | String d v'' =>
               if (c == "\"%char) && is_tspecial d
               then '(t, r) ← consume_quoted v''; Some (String d t, r)
               else '(t, r) ← consume_quoted v'; Some (String c t, r)
           | EmptyString => None
           end
  end.
Definition consume_value (v : string) : string * string :=
  match v with
  | String "034"%char v' => default ("", v) (consume_quoted v')
  | _ => consume_token v
  end.

Section mime.
Context `{UnicodeTables}.

(** One [; name=value] parameter: [None] when there is none. *)
Definition consume_media_param (v : string) : option (string * string * string) :=
  match trim_left_space v with
  | String ";"%char rest =>
      let '(param, rest) := consume_token (trim_left_space rest) in
      if param == "" then None else
      match trim_left_space rest with
      | String "="%char rest =>
          let rest := trim_left_space rest in
          let '(val, rest2) := consume_value rest in
          if (val == "") && (rest2 == rest) then None else Some (to_lower param, val, rest2)
      | _ => None
      end
  | _ => None
  end.

(** The parameter loop: whether it ends without an error. Each round consumes a
    byte at least. *)
Fixpoint media_params_ok (fuel : nat) (seen : list (string * string)) (v : string) : bool :=
  match fuel with
  | O => false
  | S fuel =>
      let v := trim_left_space v in
      if v == "" then true else
      match consume_media_param v with
      | None => trim_space v == ";"
      | Some (key, val, rest) =>
          if existsb (fun p => (p.1 == key) && negb (p.2 == val)) seen then false
          else media_params_ok fuel ((key, val) :: seen) rest
      end
  end.

(** [checkMediaTypeDisposition]. *)
Definition check_media_type (s : string) : bool :=
  let '(typ, rest) := consume_token s in
  if typ == "" then false else
  if rest == "" then true else
  match rest with
  | String "/"%char rest => let '(sub, rest) := consume_token rest in negb (sub == "") && (rest == "")
  | _ => false
  end.
Definition before_byte (c : ascii) (s : string) : string := hd "" (split_on c s).
Definition ParseMediaType (v : string) : option string :=
  let base := before_byte ";" v in
  let mediatype := trim_space (to_lower base) in
  if negb (check_media_type mediatype) then None
  else if media_params_ok (S (String.length v)) [] (str_drop (String.length base) v) then Some mediatype else None.
End mime.

Lemma consume_token_app v t r : consume_token v = (t, r) -> v = t +:+ r.
Proof.
  revert t r. induction v as [|c v IH]; cbn; intros t r Hv; [by simplify_eq|].
  destruct (is_token_char c); [|by simplify_eq]. destruct (consume_token v) as [t' r'].
  simplify_eq. by rewrite app_cons, (IH t' r).
Qed.
Lemma consume_token_bytes v t r : consume_token v = (t, r) -> all_bytes is_token_char t = true.
Proof.
  revert t r. induction v as [|c v IH]; cbn; intros t r Hv; [by simplify_eq|].
  destruct (is_token_char c) eqn:E; [|by simplify_eq]. destruct (consume_token v) as [t' r'].
  simplify_eq. cbn. rewrite E. by eapply IH.
Qed.
(** A checked media type has no parameter separator. *)
Lemma check_media_type_no_semicolon s : check_media_type s = true -> no_sep ";" s.
Proof.
  assert (forall t, all_bytes is_token_char t = true -> no_sep ";" t) as Ht.
  { intros t. rewrite all_bytes_contains, negb_true_iff. unfold no_sep. intros Hn.
    induction t as [|c t IH]; [done|]. cbn in *. apply orb_false_iff in Hn as [H1 H2].
    rewrite IH, orb_false_r by done. apply bool_decide_false. intros ->. done. }
  unfold check_media_type. destruct (consume_token s) as [typ rest] eqn:E.
  apply consume_token_app in E as Es. apply consume_token_bytes in E. subst s.
  destruct (typ == ""); [done|]. rewrite no_sep_app. intros H. split; [by apply Ht|].
  case_bool_decide as Hr; [by rewrite Hr|]. destruct rest as [|c rest]; [done|].
  destruct (decide (c = "/"%char)) as [->|Hc].
  - destruct (consume_token rest) as [sub r] eqn:E'. apply consume_token_app in E' as Es.
    apply consume_token_bytes in E'. apply andb_true_iff in H as [_ H]. apply bool_decide_eq_true in H.
    subst. apply no_sep_cons. split; [done|]. rewrite app_empty_r. by apply Ht.
  - exfalso. revert H Hc. clear. destruct c as [[] [] [] [] [] [] [] []]; done.
Qed.

Lemma ParseMediaType_Some `{UnicodeTables} v m : ParseMediaType v = Some m ->
  m = trim_space (to_lower (before_byte ";" v)) /\ check_media_type m = true.
Proof.
  unfold ParseMediaType. destruct (check_media_type _) eqn:E; cbn; [|done].
  case_match; [|done]. by intros [= <-].
Qed.
Lemma ParseMediaType_fixed `{UnicodeTables} m :
  check_media_type m = true -> trim_space (to_lower m) = m -> ParseMediaType m = Some m.
Proof.
  intros Hc Hl. unfold ParseMediaType, before_byte.
  rewrite split_on_nosep by by apply check_media_type_no_semicolon. cbn [hd]. rewrite Hl, Hc. cbn [negb].
  replace (str_drop (String.length m) m) with "" by (rewrite <-(app_empty_r m) at 2; by rewrite str_drop_app).
  done.
Qed.

(** ** [encoding/base64] *)
Definition bit_Z (b : bool) : Z := if b then 1 else 0.
(** The character of six bits, most significant first. *)
Definition sextet_char (a b c d e f : bool) : ascii :=
  let z := bit_Z f + 2 * (bit_Z e + 2 * (bit_Z d + 2 * (bit_Z c + 2 * (bit_Z b + 2 * bit_Z a)))) in
  if z <? 26 then Z_byte (65 + z)
  else if z <? 52 then Z_byte (97 + (z - 26))
  else if z <? 62 then Z_byte (48 + (z - 52))
  else if z =? 62 then "+"%char else "/"%char.
Definition sextet_value (c : ascii) : option Z :=
  let z := byte_Z c in
  if in_range 65 90 z then Some (z - 65)
  else if in_range 97 122 z then Some (z - 97 + 26)
  else if in_range 48 57 z then Some (z - 48 + 52)
  else if c == "+"%char then Some 62
  else if c == "/"%char then Some 63
  else None.
Definition char_sextet (c : ascii) : option (bool * bool * bool * bool * bool * bool) :=
  z ← sextet_value c;
  Some (Z.testbit z 5, Z.testbit z 4, Z.testbit z 3, Z.testbit z 2, Z.testbit z 1, Z.testbit z 0).

Fixpoint base64_encode (s : string) : string :=
  match s with
  | EmptyString => ""
  | String (Ascii a0 a1 a2 a3 a4 a5 a6 a7) EmptyString =>
      String (sextet_char a7 a6 a5 a4 a3 a2) (String (sextet_char a1 a0 false false false false) "==")
  | String (Ascii a0 a1 a2 a3 a4 a5 a6 a7) (String (Ascii b0 b1 b2 b3 b4 b5 b6 b7) EmptyString) =>
      String (sextet_char a7 a6 a5 a4 a3 a2)
        (String (sextet_char a1 a0 b7 b6 b5 b4) (String (sextet_char b3 b2 b1 b0 false false) "="))
  | String (Ascii a0 a1 a2 a3 a4 a5 a6 a7) (String (Ascii b0 b1 b2 b3 b4 b5 b6 b7)
      (String (Ascii c0 c1 c2 c3 c4 c5 c6 c7) rest)) =>
      String (sextet_char a7 a6 a5 a4 a3 a2)
        (String (sextet_char a1 a0 b7 b6 b5 b4)
          (String (sextet_char b3 b2 b1 b0 c7 c6) (String (sextet_char c5 c4 c3 c2 c1 c0) (base64_encode rest))))
  end.

(** Groups of four, line breaks removed; padding only in the last group. *)
Fixpoint base64_groups (s : string) : option string :=
  match s with
  | EmptyString => Some ""
  | String w (String x (String y (String z rest))) =>
      '(a7, a6, a5, a4, a3, a2) ← char_sextet w;
      '(a1, a0, b7, b6, b5, b4) ← char_sextet x;
      let a := Ascii a0 a1 a2 a3 a4 a5 a6 a7 in
      if y == "="%char then
        if (z == "="%char) && (rest == "") then Some (String a "") else None
      else
        '(b3, b2, b1, b0, c7, c6) ← char_sextet y;
        let b := Ascii b0 b1 b2 b3 b4 b5 b6 b7 in
        if z == "="%char then (if rest == "" then Some (String a (String b "")) else None)
        else
          '(c5, c4, c3, c2, c1, c0) ← char_sextet z;
          tail ← base64_groups rest;
          Some (String a (String b (String (Ascii c0 c1 c2 c3 c4 c5 c6 c7) tail)))
  | _ => None
  end.
Definition drop_line_breaks (s : string) : string :=
  str_map (fun c => if (c == "010"%char) || (c == "013"%char) then "" else String c "") s.
Definition base64_decode (s : string) : option string := base64_groups (drop_line_breaks s).

Lemma char_sextet_char a b c d e f : char_sextet (sextet_char a b c d e f) = Some (a, b, c, d, e, f).
Proof. destruct a, b, c, d, e, f; reflexivity. Qed.
Lemma sextet_char_plain a b c d e f :
  (sextet_char a b c d e f == "="%char) = false /\ (sextet_char a b c d e f == "010"%char) = false
  /\ (sextet_char a b c d e f == "013"%char) = false.
Proof. destruct a, b, c, d, e, f; repeat split. Qed.

Lemma base64_encode_no_break s : drop_line_breaks (base64_encode s) = base64_encode s.
Proof.
  assert (forall a b c d e f t, drop_line_breaks (String (sextet_char a b c d e f) t)
    = String (sextet_char a b c d e f) (drop_line_breaks t)) as E.
  { intros. unfold drop_line_breaks. cbn [str_map].
    destruct (sextet_char_plain a b c d e f) as (_ & -> & ->). reflexivity. }
  induction s as [s IH] using (induction_ltof1 _ String.length). unfold ltof in IH.
  destruct s as [|[] [|[] [|[] rest]]]; cbn [base64_encode]; rewrite ?E; try reflexivity.
  rewrite IH; [done|]. cbn. lia.
Qed.
Ltac next_char :=
  match goal with |- context [sextet_char ?a ?b ?c ?d ?e ?f == "="%char] =>
    destruct (sextet_char_plain a b c d e f) as (-> & _) end;
  rewrite ?char_sextet_char; cbn [mbind option_bind].
Lemma base64_round_trip s : base64_decode (base64_encode s) = Some s.
Proof.
  unfold base64_decode. rewrite base64_encode_no_break.
  induction s as [s IH] using (induction_ltof1 _ String.length). unfold ltof in IH.
  destruct s as [|[] [|[] [|[] rest]]]; cbn [base64_encode base64_groups]; [done| | |];
    rewrite !char_sextet_char; cbn [mbind option_bind]; eqb; rewrite ?char_sextet_char; cbn [mbind option_bind].
  - reflexivity.
  - next_char. reflexivity.
  - next_char. next_char. rewrite IH by (cbn; lia). reflexivity.
Qed.
