(* ===== verification/Faults.v ===== *)
(** * Typed errors: package [faults]

    Models [src/faults]: the categories, the error values and their wrapping,
    [errors.As] on a chain, [IsCategory] and [ExitCodeForError]. A Go [error]
    is an [option error], [None] being nil; [TypedErr] is a non-nil
    pointer to [TypedError], [PlainErr] an error of [errors.New] or [fmt.Errorf] with its
    text and the error a [%w] verb wraps, [ListShapeErr] the error of
    [src/managedservice/errors.go] around another. *)
From S2P Require Import Prelude GoText.

Inductive ErrorCategory :=
| ValidationError | NotFoundError | ConflictError | AuthError | TransportError | InternalError.

Inductive error :=
| TypedErr (Category : ErrorCategory) (Message : string) (Cause : option error)
| PlainErr (text : string) (wrapped : option error)
| ListShapeErr (err : error).

#[export] Instance ErrorCategory_eq_dec : EqDecision ErrorCategory.
Proof. solve_decision. Defined.
#[export] Instance error_eq_dec : EqDecision error.
Proof.
  refine (fix go (e f : error) {struct e} : Decision (e = f) :=
    let rec_dec : EqDecision error := @go in
    match e, f with
    | TypedErr c m x, TypedErr c' m' x' => cast_if_and3 (decide (c = c')) (decide (m = m')) (decide (x = x'))
    | PlainErr t x, PlainErr t' x' => cast_if_and (decide (t = t')) (decide (x = x'))
    | ListShapeErr x, ListShapeErr x' => cast_if (decide (x = x'))
    | _, _ => right _
    end); clear rec_dec go; abstract congruence.
Defined.

(** [string(e.Category)]. *)
Definition category_string (c : ErrorCategory) : string :=
  match c with
  | ValidationError => "ValidationError"
  | NotFoundError => "NotFoundError"
  | ConflictError => "ConflictError"
  | AuthError => "AuthError"
  | TransportError => "TransportError"
  | InternalError => "InternalError"
  end.

Definition NewTypedError (c : ErrorCategory) (message : string) (cause : option error) : error :=
  TypedErr c message cause.
Definition NotFound := NewTypedError NotFoundError.
Definition Invalid := NewTypedError ValidationError.
Definition Conflict := NewTypedError ConflictError.
Definition Auth := NewTypedError AuthError.
Definition Transport := NewTypedError TransportError.
Definition Internal := NewTypedError InternalError.

(** [fmt.Errorf] without and with a [%w] verb (at the end of the format). *)
Definition errorf (text : string) : error := PlainErr text None.

(** Method [Error] of [TypedError]. *)
Fixpoint Error (e : error) : string :=
  match e with
  | TypedErr c m cause =>
      match cause with
      | Some e' => if decide (m = "") then Error e' else m +:+ ": " +:+ Error e'
      | None => if decide (m = "") then category_string c else m
      end
  | PlainErr t _ => t
  | ListShapeErr e' => Error e'
  end.
Definition errorf_w (text : string) (e : error) : error := PlainErr (text +:+ Error e) (Some e).

(** Method [Unwrap] of [TypedError] and the [Unwrap] of [fmt.Errorf] errors. *)
Definition Unwrap (e : error) : option error :=
  match e with TypedErr _ _ c => c | PlainErr _ w => w | ListShapeErr e' => Some e' end.

(** [errors.As(err, &typedErr)]: the first typed error of the chain. *)
Fixpoint as_typed (e : error) : option (ErrorCategory * string * option error) :=
  match e with
  | TypedErr c m cause => Some (c, m, cause)
  | PlainErr _ (Some e) => as_typed e
  | PlainErr _ None => None
  | ListShapeErr e => as_typed e
  end.

Definition IsCategory (err : option error) (category : ErrorCategory) : bool :=
  match err with
  | None => false
  | Some e => match as_typed e with Some (c, _, _) => c == category | None => false end
  end.

Definition ExitCodeForError (err : option error) : Z :=
  match err with
  | None => 0
  | Some e =>
      match as_typed e with
      | None => 1
      | Some (ValidationError, _, _) => 2
      | Some (NotFoundError, _, _) => 3
      | Some (AuthError, _, _) => 4
      | Some (ConflictError, _, _) => 5
      | Some (TransportError, _, _) => 6
      | Some (_, _, _) => 1
      end
  end.

Definition NewListPayloadShapeError (message : string) (cause : option error) : error := ListShapeErr (Invalid message cause).
(** [errors.As] for a [*ListPayloadShapeError]. *)
Fixpoint IsListPayloadShapeError (e : error) : bool :=
  match e with
  | ListShapeErr _ => true
  | TypedErr _ _ (Some e) | PlainErr _ (Some e) => IsListPayloadShapeError e
  | TypedErr _ _ None | PlainErr _ None => false
  end.

(** The chain of [Unwrap]s that [errors.As] walks, as a relation. *)
Inductive wraps : error -> error -> Prop :=
| wraps_refl e : wraps e e
| wraps_step t e e' : wraps e e' -> wraps (PlainErr t (Some e)) e'
| wraps_shape e e' : wraps e e' -> wraps (ListShapeErr e) e'.

Lemma wraps_typed_inv c m x e : wraps (TypedErr c m x) e -> e = TypedErr c m x.
Proof. by inversion 1. Qed.

Fixpoint as_typed_wraps e c m x :
  as_typed e = Some (c, m, x) -> wraps e (TypedErr c m x).
Proof.
  destruct e as [c' m' x'|t [e|]|e]; cbn; intros H; [injection H as -> -> ->; constructor| |done|];
    constructor; by apply as_typed_wraps.
Qed.

Lemma wraps_as_typed e c m x : wraps e (TypedErr c m x) -> as_typed e = Some (c, m, x).
Proof.
  intros H. remember (TypedErr c m x) as f eqn:Hf. induction H; subst; cbn; auto.
Qed.

(** The least exit code is 0 and is that of no error; a category decides the
    code through any number of [%w] wrappings. *)
Lemma as_typed_errorf_w t e : as_typed (errorf_w t e) = as_typed e.
Proof. done. Qed.

Lemma IsCategory_as_typed e c :
  IsCategory (Some e) c = true <-> exists m x, as_typed e = Some (c, m, x).
Proof.
  unfold IsCategory. destruct (as_typed e) as [[[c' m] x]|]; [|naive_solver].
  rewrite bool_decide_eq_true. naive_solver.
Qed.

(** A computation that may also panic (an index out of range); a panic is not an error
    and no caller of the modelled code recovers it. *)
Inductive failure := Failed (e : error) | Panic.
Abbreviation outcome := (result failure).
Definition lift {A} (r : result error A) : outcome A := map_err Failed r.
