(* ===== verification/Paths.v ===== *)
(** * Logical paths: [resource/paths.go]

    Cleaning and validation of logical paths, overlap of two scopes, joining a
    child segment and recognising one. *)
From S2P Require Import Prelude GoText GoTextFacts Faults.

Definition template_open (c d : ascii) : bool := (c == "{"%char) && (d == "{"%char).
Definition template_close (c d : ascii) : bool := (c == "}"%char) && (d == "}"%char).

(** [CleanRawPath]. *)
Definition CleanRawPath (value : string) : result error string :=
  if decide (trim_space value = "") then Err (Invalid "logical path must not be empty" None) else
  let normalizedInput := replace_all value "\" "/" in
  if negb (has_prefix normalizedInput "/")
  then Err (Invalid "logical path must be absolute" None) else
  if existsb (fun segment => segment == "..") (split_on slash normalizedInput)
  then Err (Invalid "logical path must not contain traversal segments" None) else
  let cleaned := path_clean normalizedInput in
  if negb (has_prefix cleaned "/") then Err (Invalid "logical path must be absolute" None) else
  Ok (if decide (cleaned = "/") then cleaned else trim_suffix cleaned "/").

(** The loop of [SplitRawPathSegments]: [depth] is [templateDepth], [cur] the
    builder, last byte first. *)
Fixpoint split_raw_go (depth : nat) (cur : string) (s : string) : list string :=
  match s with
  | EmptyString => if decide (cur = "") then [] else [String.rev cur]
  | String c s1 =>
      let plain :=
        if (c == slash) && (depth =? 0)
        then String.rev cur :: split_raw_go depth "" s1
        else split_raw_go depth (String c cur) s1 in
      match s1 with
      | EmptyString => plain
      | String d s2 =>
          if template_open c d then split_raw_go (S depth) (String d (String c cur)) s2
          else if template_close c d && (0 <? depth)
          then split_raw_go (depth - 1) (String d (String c cur)) s2
          else plain
      end
  end.
Definition SplitRawPathSegments (value : string) : list string :=
  let trimmed := trim_bytes is_slash (trim_space value) in
  if decide (trimmed = "") then [] else split_raw_go 0 "" trimmed.

Record ParsedRawPath := {
  Raw : string;
  Normalized : string;
  Segments : list string;
  ExplicitCollectionTarget : bool;
}.

Definition ParseRawPathWithOptions (AllowMissingLeadingSlash : bool) (value : string)
  : result error ParsedRawPath :=
  let trimmed := trim_space value in
  if decide (trimmed = "") then Err (Invalid "logical path must not be empty" None) else
  let normalizedInput := replace_all trimmed "\" "/" in
  let explicitCollectionTarget := negb (normalizedInput == "/") && has_suffix normalizedInput "/" in
  let normalizedInput :=
    if AllowMissingLeadingSlash && negb (has_prefix normalizedInput "/")
    then "/" +:+ normalizedInput else normalizedInput in
  normalized ← CleanRawPath normalizedInput;
  Ok {| Raw := trimmed; Normalized := normalized; Segments := SplitRawPathSegments normalized;
        ExplicitCollectionTarget :=
          if decide (normalized = "/") then false else explicitCollectionTarget |}.

Definition HasExplicitCollectionTarget (value : string) : bool :=
  match ParseRawPathWithOptions false value with
  | Ok parsed => ExplicitCollectionTarget parsed
  | Err _ => false
  end.

Definition NormalizeLogicalPath (value : string) : result error string :=
  cleaned ← CleanRawPath value;
  if existsb (fun segment => segment == "_") (SplitRawPathSegments cleaned)
  then Err (Invalid ("logical path must not contain reserved metadata segment " +:+
                     String "034" ("_" +:+ String "034" "")) None)
  else Ok cleaned.

Definition overlapBoundaryMatch (candidate prefix : string) : bool :=
  if decide (prefix = "/") then true else
  if (String.length candidate <=? String.length prefix) then false else
  match byte_at candidate (String.length prefix) with Some c => c == slash | None => false end.

Definition HasLogicalPathOverlap (a b : string) : result error bool :=
  left ← NormalizeLogicalPath a;
  right ← NormalizeLogicalPath b;
  if decide (left = right) then Ok true else
  if has_prefix left right && overlapBoundaryMatch left right then Ok true else
  if has_prefix right left && overlapBoundaryMatch right left then Ok true else
  Ok false.

Definition JoinLogicalPath (collectionPath segment : string) : result error string :=
  let trimmedSegment := trim_space segment in
  if decide (trimmedSegment = "") then Err (Invalid "logical path segment must not be empty" None) else
  let joined := path_join [collectionPath; trimmedSegment] in
  let joined := if has_prefix joined "/" then joined else "/" +:+ joined in
  NormalizeLogicalPath joined.

Definition normalizeLogicalPathSegment (segment : string) : result error string :=
  let trimmedSegment := trim_space segment in
  if decide (trimmedSegment = "") then Err (Invalid "logical path segment must not be empty" None) else
  if (trimmedSegment == ".") || (trimmedSegment == "..")
  then Err (Invalid "logical path segment must not contain traversal segments" None) else
  if decide (trimmedSegment = "_")
  then Err (Invalid ("logical path segment must not contain reserved metadata segment " +:+
                     String "034" ("_" +:+ String "034" "")) None) else
  if contains trimmedSegment "/" || contains trimmedSegment "\"
  then Err (Invalid "logical path segment must not contain path separators" None) else
  Ok trimmedSegment.
Definition ValidateLogicalPathSegment (segment : string) : result error unit :=
  _ ← normalizeLogicalPathSegment segment; Ok tt.

Definition SplitLogicalPathSegments (value : string) : list string :=
  match NormalizeLogicalPath value with
  | Err _ => []
  | Ok normalized =>
      if decide (normalized = "/") then [] else split_on slash (trim_prefix normalized "/")
  end.

(** [ChildSegment]: the segment below the parent and [true], or [None]. *)
Definition ChildSegment (parentPath candidatePath : string) : option string :=
  normalizedParentPath ← ok_opt (NormalizeLogicalPath parentPath);
  normalizedCandidatePath ← ok_opt (NormalizeLogicalPath candidatePath);
  if decide (normalizedParentPath = "/") then
    let remaining := trim_prefix normalizedCandidatePath "/" in
    if (remaining == "") || contains remaining "/" then None else Some remaining
  else
    let parentPrefix := trim_suffix normalizedParentPath "/" in
    if negb (has_prefix normalizedCandidatePath (parentPrefix +:+ "/")) then None else
    let remaining := trim_prefix normalizedCandidatePath (parentPrefix +:+ "/") in
    if (remaining == "") || contains remaining "/" then None else Some remaining.

(** ** Canonical paths *)

(** A segment of a cleaned path: not empty, no separator, not [.] or [..]. *)
Definition clean_segment (s : string) : Prop :=
  s <> "" /\ s <> "." /\ s <> ".." /\ contains_byte is_slash s = false /\
  contains_byte (fun c => c == "\"%char) s = false.
(** The path with the given segments, [/] for none. *)
Definition path_of (segs : list string) : string := "/" +:+ str_join "/" segs.

(** The segments [path.Clean] keeps when there is no [..]. *)
Definition kept (segs : list string) : list string :=
  filter (fun s => s <> "" /\ s <> ".") segs.
(** Reading of a raw path into segments, backslashes being separators. *)
Definition raw_segments (value : string) : list string :=
  split_on slash (replace_all value "\" "/").

(** ** Cleaning *)
Lemma no_sep_slash s : no_sep slash s <-> contains_byte is_slash s = false.
Proof. done. Qed.

Lemma clean_segments_kept rooted out segs :
  Forall (fun s => s <> "..") segs ->
  clean_segments rooted out segs = reverse (kept segs) ++ out.
Proof.
  revert out. induction segs as [|s segs IH]; intros out Hs; [done|].
  inversion Hs as [|? ? Hd Htl]; subst. cbn [clean_segments]. unfold kept.
  destruct (decide (s <> "" /\ s <> ".")) as [[H1 H2]|Hk];
    [rewrite filter_cons_True by done|rewrite filter_cons_False by done].
  - rewrite !bool_decide_false by done. cbn [orb]. rewrite IH by done.
    by rewrite reverse_cons, <-app_assoc.
  - assert ((s == "") || (s == ".") = true) as ->; [|by apply IH].
    rewrite orb_true_iff, !bool_decide_eq_true.
    destruct (decide (s = "")), (decide (s = ".")); tauto.
Qed.

Lemma path_clean_rooted s :
  has_prefix s "/" = true -> Forall (fun s => s <> "..") (split_on slash s) ->
  path_clean s = path_of (kept (split_on slash s)).
Proof.
  intros Hp Hd. unfold path_clean. rewrite Hp, clean_segments_kept by done.
  by rewrite app_nil_r, reverse_involutive.
Qed.

Lemma path_of_inj_prefix l : has_prefix (path_of l) "/" = true.
Proof. apply has_prefix_app. Qed.
Lemma path_of_nil : path_of [] = "/".
Proof. done. Qed.

Lemma clean_segment_no_sep s : clean_segment s -> no_sep slash s.
Proof. by intros (_ & _ & _ & H & _). Qed.
Lemma clean_segments_no_sep l : Forall clean_segment l -> Forall (no_sep slash) l.
Proof. intros H. eapply Forall_impl; [done|]. apply clean_segment_no_sep. Qed.
Lemma clean_segments_nonempty l : Forall clean_segment l -> Forall (fun s => s <> "") l.
Proof. intros H. eapply Forall_impl; [done|]. by intros s (? & _). Qed.

Lemma split_path_of l :
  Forall clean_segment l ->
  split_on slash (path_of l) = "" :: (match l with [] => [""] | _ => l end).
Proof.
  intros Hl. unfold path_of. str.
  change (split_on slash (String "/" (str_join "/" l))) with
    ("" :: split_on slash (str_join "/" l)). f_equal.
  destruct l as [|s l]; [done|]. apply split_on_join; [done|]. by apply clean_segments_no_sep.
Qed.
Lemma kept_clean l : Forall clean_segment l -> kept l = l.
Proof.
  intros Hl. apply filter_all. eapply Forall_impl; [exact Hl|]. by intros s (? & ? & _).
Qed.
Lemma kept_split_path_of l : Forall clean_segment l -> kept (split_on slash (path_of l)) = l.
Proof.
  intros Hl. rewrite split_path_of by done. unfold kept. rewrite filter_cons_False by naive_solver.
  destruct l as [|s l]; [by rewrite filter_cons_False by naive_solver|]. by apply (kept_clean (s :: l)).
Qed.
Lemma path_of_inj l k :
  Forall clean_segment l -> Forall clean_segment k -> path_of l = path_of k -> l = k.
Proof. intros Hl Hk H. by rewrite <-(kept_split_path_of l), H, kept_split_path_of. Qed.
Lemma path_of_root l : Forall clean_segment l -> path_of l = "/" <-> l = [].
Proof. intros Hl. split; [|by intros ->]. intros H. by apply (path_of_inj _ [] Hl). Qed.

Lemma path_of_snoc l s : l <> [] -> path_of (l ++ [s]) = path_of l +:+ "/" +:+ s.
Proof. intros. unfold path_of. rewrite str_join_snoc by done. by str. Qed.
Lemma path_of_app l k : l <> [] -> k <> [] -> path_of (l ++ k) = path_of l +:+ path_of k.
Proof. intros. unfold path_of. rewrite str_join_app by done. by str. Qed.

Lemma last_byte_contains f s c : last_byte s = Some c -> f c = true -> contains_byte f s = true.
Proof.
  induction s as [|d s IH]; [done|]. cbn. destruct s; [by intros [= ->] ->|].
  intros H Hf. rewrite orb_true_iff. right. auto.
Qed.
Lemma path_of_no_trailing_slash l :
  Forall clean_segment l -> l <> [] -> has_suffix (path_of l) "/" = false.
Proof.
  intros Hl Hne. change "/" with (String slash ""). rewrite has_suffix_byte, bool_decide_eq_false.
  destruct (exists_last Hne) as (l' & s & ->). apply Forall_app in Hl as [Hl' Hs].
  rewrite Forall_singleton in Hs. destruct Hs as (Hs1 & _ & _ & Hs2 & _).
  assert (exists u, path_of (l' ++ [s]) = u +:+ s) as [u ->].
  { destruct l' as [|t l']; [by exists "/"|]. rewrite path_of_snoc by done.
    exists (path_of (t :: l') +:+ "/"). by str. }
  rewrite last_byte_app by done. intros H.
  rewrite (last_byte_contains _ _ _ H) in Hs2; [done|]. by apply bool_decide_eq_true.
Qed.
Lemma trim_suffix_path_of l :
  Forall clean_segment l -> l <> [] -> trim_suffix (path_of l) "/" = path_of l.
Proof. intros. by apply trim_suffix_id, path_of_no_trailing_slash. Qed.

Lemma existsb_dotdot l :
  existsb (fun segment : string => segment == "..") l = false <-> Forall (fun s => s <> "..") l.
Proof.
  induction l as [|s l IH]; cbn; [by split|]. rewrite orb_false_iff, bool_decide_eq_false, Forall_cons.
  by rewrite IH.
Qed.

Lemma raw_segments_clean value :
  Forall (fun s => s <> "..") (raw_segments value) -> Forall clean_segment (kept (raw_segments value)).
Proof.
  intros Hd. unfold kept. apply Forall_forall. intros s Hs. apply list_elem_of_filter in Hs as ((H1 & H2) & Hin).
  rewrite Forall_forall in Hd. split_and!; auto.
  - pose proof (split_on_no_sep slash (replace_all value "\" "/")) as Hn.
    rewrite Forall_forall in Hn. by apply Hn.
  - assert (no_sep "\" (replace_all value "\" "/")) as Hb by (by apply replace_all_byte_no_sep).
    unfold raw_segments in Hin. rewrite <-(str_join_split slash (replace_all value "\" "/")) in Hb.
    clear Hd H1 H2. induction (split_on slash (replace_all value "\" "/")) as [|t l IH];
      [by apply not_elem_of_nil in Hin|].
    apply elem_of_cons in Hin as [<-|Hin].
    + destruct l; [done|]. rewrite str_join_cons2 in Hb. by apply no_sep_app in Hb as [Hb _].
    + destruct l as [|u l]; [by apply not_elem_of_nil in Hin|].
      rewrite str_join_cons2 in Hb. apply no_sep_app in Hb as [_ Hb].
      apply no_sep_app in Hb as [_ Hb]. auto.
Qed.

(** [CleanRawPath] computes the canonical path of the kept segments, or says
    which of its three checks failed. *)
Lemma CleanRawPath_eq value :
  CleanRawPath value =
    if decide (trim_space value = "") then Err (Invalid "logical path must not be empty" None) else
    if decide (has_prefix (replace_all value "\" "/") "/" = false)
    then Err (Invalid "logical path must be absolute" None) else
    if decide (".." ∈ raw_segments value)
    then Err (Invalid "logical path must not contain traversal segments" None) else
    Ok (path_of (kept (raw_segments value))).
Proof.
  unfold CleanRawPath. case_decide; [done|].
  destruct (has_prefix (replace_all value "\" "/") "/") eqn:Hp; cbn [negb]; cycle 1.
  { by rewrite (decide_True (P := false = false)). }
  rewrite (decide_False (P := true = false)) by done. fold (raw_segments value).
  destruct (existsb _ _) eqn:He.
  - rewrite (decide_True (P := ".." ∈ raw_segments value)); [done|]. apply existsb_exists in He as (s & Hs & Heq).
    apply bool_decide_eq_true in Heq as ->. by apply list_elem_of_In.
  - apply existsb_dotdot in He as Hd. rewrite (decide_False (P := ".." ∈ raw_segments value)); cycle 1.
    { rewrite Forall_forall in Hd. intros Hin. exact (Hd ".." Hin eq_refl). }
    rewrite path_clean_rooted by done. fold (raw_segments value).
    rewrite path_of_inj_prefix. cbn [negb]. f_equal. case_decide as Hr; [done|].
    pose proof (raw_segments_clean value Hd) as Hc.
    apply trim_suffix_path_of; [done|]. intros Hnil. by rewrite Hnil in Hr.
Qed.

Lemma CleanRawPath_Ok value p :
  CleanRawPath value = Ok p ->
  Forall (fun s => s <> "..") (raw_segments value) /\ p = path_of (kept (raw_segments value)) /\
  Forall clean_segment (kept (raw_segments value)).
Proof.
  rewrite CleanRawPath_eq. repeat case_decide; try done. intros [= <-].
  assert (Forall (fun s => s <> "..") (raw_segments value)) as Hd.
  { apply Forall_forall. by intros s Hs ->. }
  split_and!; auto using raw_segments_clean.
Qed.

Lemma no_sep_path_of c l : c <> slash -> Forall (no_sep c) l -> no_sep c (path_of l).
Proof.
  intros Hc Hl. unfold path_of. apply no_sep_app. split; [by apply no_sep_cons|].
  induction Hl as [|s l Hs Hl IH]; [done|]. destruct l; [done|].
  rewrite str_join_cons2. rewrite !no_sep_app. split_and!; [done|by apply no_sep_cons|done].
Qed.
Lemma clean_segments_no_backslash l : Forall clean_segment l -> Forall (no_sep "\") l.
Proof. intros H. eapply Forall_impl; [done|]. by intros s (_ & _ & _ & _ & ?). Qed.
Lemma raw_segments_path_of l :
  Forall clean_segment l -> raw_segments (path_of l) = split_on slash (path_of l).
Proof.
  intros Hl. unfold raw_segments. rewrite replace_all_byte_id; [done|].
  by apply no_sep_path_of, clean_segments_no_backslash.
Qed.

Lemma CleanRawPath_path_of l : Forall clean_segment l -> CleanRawPath (path_of l) = Ok (path_of l).
Proof.
  intros Hl. rewrite CleanRawPath_eq. rewrite decide_False.
  2:{ apply trim_space_solid_nonempty. done. }
  rewrite (replace_all_byte_id (path_of l)).
  2:{ by apply no_sep_path_of, clean_segments_no_backslash. }
  rewrite path_of_inj_prefix, decide_False by done.
  rewrite raw_segments_path_of by done. rewrite decide_False.
  - by rewrite kept_split_path_of.
  - rewrite split_path_of by done. intros Hin. apply elem_of_cons in Hin as [|Hin]; [done|].
    rewrite Forall_forall in Hl. destruct l as [|s l].
    + by apply list_elem_of_singleton in Hin.
    + by destruct (Hl ".." Hin) as (_ & _ & ? & _).
Qed.

Lemma CleanRawPath_canonical value p :
  CleanRawPath value = Ok p -> exists l, Forall clean_segment l /\ p = path_of l.
Proof. intros H. apply CleanRawPath_Ok in H as (_ & -> & ?). eauto. Qed.
Lemma CleanRawPath_idemp value p : CleanRawPath value = Ok p -> CleanRawPath p = Ok p.
Proof. intros (l & Hl & ->)%CleanRawPath_canonical. by apply CleanRawPath_path_of. Qed.

(** ** Normalized logical paths *)
Lemma NormalizeLogicalPath_Ok value p :
  NormalizeLogicalPath value = Ok p <->
  CleanRawPath value = Ok p /\ existsb (fun s : string => s == "_") (SplitRawPathSegments p) = false.
Proof.
  unfold NormalizeLogicalPath. rewrite bind_Ok. split.
  - intros (q & -> & H). destruct (existsb _ _) eqn:E; [done|]. by injection H as ->.
  - intros [-> H]. exists p. by rewrite H.
Qed.
Lemma NormalizeLogicalPath_idemp value p :
  NormalizeLogicalPath value = Ok p -> NormalizeLogicalPath p = Ok p.
Proof.
  rewrite !NormalizeLogicalPath_Ok. intros [H ?]. split; [|done]. by eapply CleanRawPath_idemp.
Qed.
Lemma NormalizeLogicalPath_canonical value p :
  NormalizeLogicalPath value = Ok p -> exists l, Forall clean_segment l /\ p = path_of l.
Proof. intros [H _]%NormalizeLogicalPath_Ok. by eapply CleanRawPath_canonical. Qed.

(** [l] read from a normalized path. *)
Definition segments_of (p : string) : list string := kept (split_on slash p).
Lemma segments_of_path_of l : Forall clean_segment l -> segments_of (path_of l) = l.
Proof. apply kept_split_path_of. Qed.

(** ** Prefixes of paths are prefixes of segment lists *)
Lemma path_of_app_slash l k t :
  Forall clean_segment l -> Forall clean_segment k -> k <> [] ->
  path_of l = path_of k +:+ String slash t -> exists m, m <> [] /\ l = k ++ m /\ split_on slash t = m.
Proof.
  intros Hl Hk Hne H. apply (f_equal (split_on slash)) in H.
  rewrite split_on_app_sep, !split_path_of in H by done.
  destruct k as [|s k]; [done|]. destruct l as [|u l].
  - apply (f_equal length) in H. cbn in H. rewrite length_app in H.
    pose proof (split_on_nonempty slash t). destruct (split_on slash t); [done|]. cbn in H. lia.
  - injection H as -> ->. exists (split_on slash t).
    split_and!; [apply split_on_nonempty|done|done].
Qed.
Lemma path_of_prefix l k :
  Forall clean_segment l -> Forall clean_segment k -> path_of l <> path_of k ->
  (has_prefix (path_of l) (path_of k) && overlapBoundaryMatch (path_of l) (path_of k)) = true <->
  k `prefix_of` l.
Proof.
  intros Hl Hk Hne. rewrite andb_true_iff, has_prefix_spec. split.
  - intros [[t Ht] Hb]. destruct (decide (k = [])) as [->|Hk0]; [apply prefix_nil|].
    unfold overlapBoundaryMatch in Hb. rewrite decide_False in Hb; cycle 1.
    { intros ?%path_of_root; done. }
    destruct (_ <=? _); [done|]. rewrite Ht, byte_at_app in Hb.
    destruct (byte_at t 0) as [c|] eqn:Hc; [|done]. apply bool_decide_eq_true in Hb as ->.
    apply byte_at_0 in Hc as [u ->]. destruct (path_of_app_slash l k u) as (m & _ & -> & _); try done.
    by exists m.
  - intros [m ->]. destruct (decide (m = [])) as [->|Hm]; [by rewrite app_nil_r in Hne|].
    destruct (decide (k = [])) as [->|Hk0]; [split; [by eexists|done]|].
    rewrite path_of_app by done. split; [by eexists|].
    unfold overlapBoundaryMatch. rewrite decide_False; cycle 1.
    { intros ?%path_of_root; done. }
    rewrite length_str_app, byte_at_app.
    destruct (_ <=? _) eqn:Hle; [|done]. apply Nat.leb_le in Hle. unfold path_of at 2 in Hle.
    rewrite length_str_app in Hle. cbn in Hle. lia.
Qed.

Lemma trim_prefix_path_of l : trim_prefix (path_of l) "/" = str_join "/" l.
Proof. apply trim_prefix_app. Qed.
Lemma contains_slash s : contains s "/" = contains_byte is_slash s.
Proof. apply contains_byte_single. Qed.
Lemma join_contains_slash l :
  Forall clean_segment l ->
  ((str_join "/" l == "") || contains (str_join "/" l) "/") = false <-> exists s, l = [s].
Proof.
  intros Hl. rewrite orb_false_iff, bool_decide_eq_false, contains_slash. split.
  - destruct l as [|s [|t l]]; [by intros []|by eauto|]. rewrite str_join_cons2, !contains_byte_app.
    cbn. rewrite orb_true_r. by intros [].
  - intros [s ->]. rewrite Forall_singleton in Hl. destruct Hl as (? & _ & _ & ? & _). done.
Qed.

(** ** Children *)
Lemma ChildSegment_segments parent candidate l k s :
  Forall clean_segment l -> Forall clean_segment k ->
  NormalizeLogicalPath parent = Ok (path_of l) -> NormalizeLogicalPath candidate = Ok (path_of k) ->
  ChildSegment parent candidate = Some s <-> k = l ++ [s].
Proof.
  intros Hl Hk Hp Hq. unfold ChildSegment. rewrite Hp, Hq. cbn. case_decide as Hroot;
    rewrite (path_of_root l Hl) in Hroot.
  - subst l. rewrite trim_prefix_path_of. pose proof (join_contains_slash k Hk) as Hj.
    destruct (_ || _).
    + split; [done|]. intros ->. assert (true = false) by (apply Hj; by exists s). done.
    + destruct Hj as [Hj _]. destruct Hj as [t ->]; [done|]. cbn. naive_solver.
  - rewrite trim_suffix_path_of by done.
    destruct (has_prefix (path_of k) (path_of l +:+ "/")) eqn:Hpre; cbn [negb].
    + apply has_prefix_spec in Hpre as [t Ht]. str in Ht.
      assert (path_of k = (path_of l +:+ "/") +:+ t) as Ht' by (by str).
      rewrite Ht', trim_prefix_app.
      destruct (path_of_app_slash k l t) as (m & Hm & -> & Hsplit); [done..|].
      assert (t = str_join "/" m) as -> by (by rewrite <-Hsplit, str_join_split).
      assert (Forall clean_segment m) as Hcm by (by apply Forall_app in Hk as []).
      pose proof (join_contains_slash m Hcm) as Hj. destruct (_ || _).
      * split; [done|]. intros Heq%app_inv_head. subst m.
        assert (true = false) by (apply Hj; by exists s). done.
      * destruct Hj as [Hj _]. destruct Hj as [u ->]; [done|]. cbn. split; [by intros [= ->]|].
        intros Heq%app_inv_head. by injection Heq as ->.
    + split; [done|]. intros ->. exfalso. rewrite path_of_snoc in Hpre by done.
      by rewrite <-str_app_assoc, has_prefix_app in Hpre.
Qed.

(** ** Joining *)
Lemma clean_segments_app rooted out l k :
  clean_segments rooted out (l ++ k) = clean_segments rooted (clean_segments rooted out l) k.
Proof.
  revert out. induction l as [|s l IH]; intros out; [done|]. cbn.
  repeat case_match; auto.
Qed.
Lemma path_join_path_of l x :
  Forall clean_segment l -> x <> "" ->
  path_join [path_of l; x] =
    path_of (reverse (clean_segments true (reverse l) (split_on slash x))).
Proof.
  intros Hl Hx. unfold path_join. rewrite !filter_cons_True, filter_nil by done.
  unfold path_clean. cbn [str_join].   assert (has_prefix (path_of l +:+ "/" +:+ x) "/" = true) as ->.
  { unfold path_of. str. by rewrite has_prefix_cons, has_prefix_empty. }
  unfold path_of at 2. f_equal. f_equal. f_equal.
  change ("/" +:+ x) with (String slash x).
  rewrite split_on_app_sep, split_path_of, clean_segments_app by done. f_equal.
  destruct l as [|s l]; [done|].
  rewrite clean_segments_kept; cycle 1.
  { constructor; [done|]. eapply Forall_impl; [done|]. by intros t (_ & _ & ? & _). }
  rewrite app_nil_r. f_equal. unfold kept. rewrite filter_cons_False by naive_solver.
  by apply (kept_clean (s :: l)).
Qed.
Lemma JoinLogicalPath_path_of l segment :
  Forall clean_segment l -> trim_space segment <> "" ->
  JoinLogicalPath (path_of l) segment =
    NormalizeLogicalPath
      (path_of (reverse (clean_segments true (reverse l) (split_on slash (trim_space segment))))).
Proof.
  intros Hl Hs. unfold JoinLogicalPath. rewrite decide_False by done.
  by rewrite path_join_path_of, path_of_inj_prefix.
Qed.
Lemma normalizeLogicalPathSegment_Ok segment t :
  normalizeLogicalPathSegment segment = Ok t -> t = trim_space segment /\ clean_segment t /\ t <> "_".
Proof.
  unfold normalizeLogicalPathSegment. rewrite contains_slash.
  change "\" with (String "\" ""). rewrite contains_byte_single.
  repeat case_decide; try done. destruct ((_ == ".") || _) eqn:E; [done|].
  apply orb_false_iff in E as [E1 E2]. rewrite !bool_decide_eq_false in E1, E2.
  destruct (contains_byte is_slash _ || _) eqn:E; [done|]. apply orb_false_iff in E as [E3 E4].
  intros [= <-]. done.
Qed.

(** ** The parts of a canonical path *)
Lemma path_clean_path_of l : Forall clean_segment l -> path_clean (path_of l) = path_of l.
Proof.
  intros Hl. rewrite path_clean_rooted; [by rewrite kept_split_path_of|apply path_of_inj_prefix|].
  rewrite split_path_of by done. constructor; [done|]. destruct l as [|s l]; [by constructor|].
  eapply Forall_impl; [done|]. by intros t (_ & _ & ? & _).
Qed.
Lemma clean_snoc l s : Forall clean_segment (l ++ [s]) <-> Forall clean_segment l /\ clean_segment s.
Proof. by rewrite Forall_app, Forall_singleton. Qed.
Lemma path_of_split_last l s : exists u, path_of (l ++ [s]) = u +:+ s /\ (u = "/" /\ l = [] \/ u = path_of l +:+ "/").
Proof.
  destruct l as [|t l]; [exists "/"; split; [done|by left]|]. exists (path_of (t :: l) +:+ "/"). split; [|by right].
  rewrite path_of_snoc by done. by str.
Qed.
Lemma last_segment_snoc l s : Forall clean_segment (l ++ [s]) -> last_segment (path_of (l ++ [s])) = s.
Proof.
  intros Hl. unfold last_segment. rewrite split_path_of by done. destruct (l ++ [s]) as [|u v] eqn:E; [by destruct l|].
  rewrite <-E, last_cons, last_snoc. done.
Qed.
Lemma path_dir_snoc l s : Forall clean_segment (l ++ [s]) -> path_dir (path_of (l ++ [s])) = path_of l.
Proof.
  intros Hl. pose proof (last_segment_snoc _ _ Hl) as Hs. unfold path_dir. rewrite Hs. apply Forall_app in Hl as [Hl _].
  destruct (path_of_split_last l s) as (u & -> & Hu). rewrite length_str_app. replace (_ + _ - _) with (String.length u) by lia.
  rewrite str_take_app. destruct Hu as [[-> ->]| ->]; [done|].
  assert (split_on slash (path_of l +:+ "/") = split_on slash (path_of l) ++ [""]) as E by (apply (split_on_app_sep slash _ "")).
  assert (Forall (fun s => s <> "..") (split_on slash (path_of l))) as Hd.
  { rewrite split_path_of by done. constructor; [done|]. destruct l as [|t l]; [by constructor|].
    eapply Forall_impl; [done|]. by intros v (_ & _ & ? & _). }
  rewrite path_clean_rooted; [|by unfold path_of; str; rewrite has_prefix_cons, has_prefix_empty|rewrite E; apply Forall_app; split; [done|by repeat constructor]].
  rewrite E. unfold kept. rewrite filter_app. rewrite (filter_cons_False _ "") by naive_solver. cbn [filter]. rewrite filter_nil, app_nil_r.
  f_equal. by apply kept_split_path_of.
Qed.
Lemma path_base_snoc l s : Forall clean_segment (l ++ [s]) -> path_base (path_of (l ++ [s])) = s.
Proof.
  intros Hl. pose proof (last_segment_snoc _ _ Hl) as Hs. unfold path_base. rewrite decide_False by done.
  assert (trim_right_bytes is_slash (path_of (l ++ [s])) = path_of (l ++ [s])) as ->.
  { apply Forall_app in Hl as [_ Hl]. rewrite Forall_singleton in Hl.
    destruct (no_slash_ends s) as [_ (v & c & -> & Hc)]; [by destruct Hl|by apply clean_segment_no_sep|].
    destruct (path_of_split_last l (v +:+ String c "")) as (u & -> & _). rewrite <-str_app_assoc. by apply trim_right_bytes_id. }
  rewrite Hs. apply Forall_app in Hl as [_ Hl]. rewrite Forall_singleton in Hl. destruct Hl as (? & _). by rewrite decide_False.
Qed.
Lemma path_join_segments l k : Forall clean_segment l -> Forall clean_segment k -> k <> [] ->
  path_join [path_of l; str_join "/" k] = path_of (l ++ k).
Proof.
  intros Hl Hk Hne. assert (str_join "/" k <> "") as Hj.
  { destruct k as [|s [|t k]]; [done|..]; apply Forall_cons in Hk as [(? & _) _]; [done|]. rewrite str_join_cons2. by destruct s. }
  rewrite path_join_path_of by done. change "/" with (String slash ""). rewrite split_on_join by (done || by apply clean_segments_no_sep).
  rewrite clean_segments_kept by (eapply Forall_impl; [exact Hk|]; by intros t (_ & _ & ? & _)).
  rewrite reverse_app, !reverse_involutive. by rewrite kept_clean.
Qed.
Lemma path_join_snoc l s : Forall clean_segment l -> clean_segment s -> path_join [path_of l; s] = path_of (l ++ [s]).
Proof. intros Hl Hs. by apply (path_join_segments l [s]); [|constructor|]. Qed.

(** ** Claims *)

(** [CleanRawPath] accepts exactly the non-blank absolute paths without a
    [..] segment (backslashes read as separators); it returns the canonical
    path of their segments other than [""] and [.], and cleaning that path
    again changes nothing. *)
Theorem clean_raw_path_spec value p :
  (CleanRawPath value = Ok p <->
     (trim_space value <> "" /\ has_prefix (replace_all value "\" "/") "/" = true /\
      ~ (".." ∈ raw_segments value) /\ p = path_of (kept (raw_segments value)))) /\
  (CleanRawPath value = Ok p -> Forall clean_segment (segments_of p) /\ CleanRawPath p = Ok p).
Proof.
  split.
  - rewrite CleanRawPath_eq. destruct (has_prefix _ _) eqn:Hp; repeat case_decide; naive_solver.
  - intros H. split; [|by eapply CleanRawPath_idemp].
    apply CleanRawPath_canonical in H as (l & Hl & ->). by rewrite segments_of_path_of.
Qed.

(** Two valid logical paths overlap exactly when the segments of one are a
    prefix of the segments of the other: a shared textual prefix that ends
    inside a segment is no overlap. *)
Theorem overlap_is_segment_prefix a b p q :
  NormalizeLogicalPath a = Ok p -> NormalizeLogicalPath b = Ok q ->
  HasLogicalPathOverlap a b =
    Ok (bool_decide (segments_of p `prefix_of` segments_of q \/
                     segments_of q `prefix_of` segments_of p)).
Proof.
  intros Ha Hb. unfold HasLogicalPathOverlap. rewrite Ha, Hb. cbn.
  apply NormalizeLogicalPath_canonical in Ha as (l & Hl & ->).
  apply NormalizeLogicalPath_canonical in Hb as (k & Hk & ->).
  rewrite !segments_of_path_of by done. case_decide as Heq.
  { apply path_of_inj in Heq as ->; [|done..]. by rewrite bool_decide_true by auto. }
  pose proof (path_of_prefix l k Hl Hk Heq) as H1.
  pose proof (path_of_prefix k l Hk Hl (not_eq_sym Heq)) as H2.
  destruct (has_prefix (path_of l) (path_of k) && _); [by rewrite bool_decide_true by tauto|].
  destruct (has_prefix (path_of k) (path_of l) && _); [by rewrite bool_decide_true by tauto|].
  rewrite bool_decide_false; [done|]. intuition congruence.
Qed.
Lemma overlap_is_segment_prefix_witness :
  HasLogicalPathOverlap "/a/b" "/a/bc" = Ok false /\ HasLogicalPathOverlap "/a\b/" "/a" = Ok true.
Proof.
  split.
  - rewrite (overlap_is_segment_prefix "/a/b" "/a/bc" "/a/b" "/a/bc" eq_refl eq_refl). done.
  - rewrite (overlap_is_segment_prefix "/a\b/" "/a" "/a/b" "/a" eq_refl eq_refl). done.
Defined.

(** [ChildSegment] returns the segment [s] exactly when the candidate is
    the parent with the one segment [s] added. *)
Theorem child_segment_spec parent candidate p q s :
  NormalizeLogicalPath parent = Ok p -> NormalizeLogicalPath candidate = Ok q ->
  (ChildSegment parent candidate = Some s <-> segments_of q = segments_of p ++ [s]).
Proof.
  intros Hp Hq. apply NormalizeLogicalPath_canonical in Hp as Hl. destruct Hl as (l & Hl & ->).
  apply NormalizeLogicalPath_canonical in Hq as Hk. destruct Hk as (k & Hk & ->).
  rewrite !segments_of_path_of by done. by apply ChildSegment_segments.
Qed.
Lemma child_segment_spec_witness :
  ChildSegment "/corp" "/corp/acme/" = Some "acme" /\ ChildSegment "/corp" "/corp/a/b" <> Some "a".
Proof.
  split.
  - by apply (child_segment_spec "/corp" "/corp/acme/" "/corp" "/corp/acme").
  - intros H. by apply (child_segment_spec "/corp" "/corp/a/b" "/corp" "/corp/a/b") in H.
Defined.

Lemma JoinLogicalPath_segment l segment t :
  Forall clean_segment l -> normalizeLogicalPathSegment segment = Ok t ->
  JoinLogicalPath (path_of l) segment = NormalizeLogicalPath (path_of (l ++ [t])).
Proof.
  intros Hl Ht. apply normalizeLogicalPathSegment_Ok in Ht as (-> & (? & ? & ? & ? & ?) & _).
  rewrite JoinLogicalPath_path_of by done. rewrite split_on_nosep by done. cbn [clean_segments].
  rewrite !bool_decide_false by done. cbn [orb]. by rewrite reverse_cons, reverse_involutive.
Qed.

(** Joining one valid segment to a collection path appends that segment;
    when the result is accepted, [ChildSegment] reads it back. *)
Theorem join_valid_segment l segment t p :
  Forall clean_segment l -> normalizeLogicalPathSegment segment = Ok t ->
  JoinLogicalPath (path_of l) segment = NormalizeLogicalPath (path_of (l ++ [t])) /\
  (NormalizeLogicalPath (path_of l) = Ok (path_of l) ->
   JoinLogicalPath (path_of l) segment = Ok p -> ChildSegment (path_of l) p = Some t).
Proof.
  intros Hl Ht. assert (Hj := JoinLogicalPath_segment l segment t Hl Ht).
  apply normalizeLogicalPathSegment_Ok in Ht as (-> & Hc & _).
  split; [done|]. rewrite Hj. intros Hn Hp.
  assert (p = path_of (l ++ [trim_space segment])) as ->.
  { apply NormalizeLogicalPath_Ok in Hp as [Hp _]. rewrite CleanRawPath_path_of in Hp by
      (apply Forall_app; split; [done|by constructor]). by injection Hp as <-. }
  apply NormalizeLogicalPath_idemp in Hp as Hp'.
  assert (Forall clean_segment (l ++ [trim_space segment])) as Hall.
  { apply Forall_app; split; [done|by constructor]. }
  by apply (ChildSegment_segments _ _ l (l ++ [trim_space segment])).
Qed.
Lemma join_valid_segment_witness :
  JoinLogicalPath "/a/b" " c " = Ok "/a/b/c" /\ ChildSegment "/a/b" "/a/b/c" = Some "c".
Proof.
  assert (Forall clean_segment ["a"; "b"]) as Hl by (by repeat constructor).
  destruct (join_valid_segment ["a"; "b"] " c " "c" "/a/b/c" Hl eq_refl) as [H1 H2].
  split; [exact H1|]. apply H2; vm_compute; reflexivity.
Defined.

(** A segment such as [../t], which [ValidateLogicalPathSegment] refuses,
    is not refused by [JoinLogicalPath]: [path.Join] resolves the [..] before
    the traversal check runs, and the result is a sibling of the collection. *)
Lemma join_escapes_collection l s t :
  Forall clean_segment (l ++ [s]) -> clean_segment t -> trimmed ("../" +:+ t) ->
  JoinLogicalPath (path_of (l ++ [s])) ("../" +:+ t) = NormalizeLogicalPath (path_of (l ++ [t])).
Proof.
  intros Hl (? & ? & ? & ? & ?) Ht. rewrite JoinLogicalPath_path_of; [|done|by rewrite trim_space_id].
  rewrite trim_space_id by done. change ("../" +:+ t) with (".." +:+ String slash t).
  apply Forall_app in Hl as [_ Hs]. rewrite Forall_singleton in Hs. destruct Hs as (? & ? & ? & _).
  rewrite split_on_app, split_on_nosep by done. rewrite reverse_app.
  change (reverse [s] ++ reverse l) with (s :: reverse l). cbn [clean_segments].
  rewrite (bool_decide_false (s = "..")), !(bool_decide_false (t = _)) by done.
  rewrite (bool_decide_true (".." = "..")), !(bool_decide_false (".." = _)) by done. cbn [orb].
  by rewrite reverse_cons, reverse_involutive.
Qed.
Lemma join_escapes_collection_witness : JoinLogicalPath "/corp/users" "../admins" = Ok "/corp/admins".
Proof.
  apply (join_escapes_collection ["corp"] "users" "admins"); [by repeat constructor|done|done].
Defined.

