(* ===== verification/GoDisk.v ===== *)
(** * Files

    The part of Go's [os] and [path/filepath] (on Unix) the program uses, and
    [src/internal/providers/fsutil]: whether a path stays under a root once its symbolic
    links are followed, and the removal of empty directories. A disk is any type with the
    operations of the class [Disk]; [tree_disk] is one in memory. *)
From S2P Require Import Prelude GoText GoTextFacts Faults Paths.

(** What the program tells apart of an [*os.PathError]. *)
Inductive disk_error := ErrNotExist (e : error) | ErrNotEmpty (e : error) | ErrOther (e : error).
Definition disk_cause (e : disk_error) : error := match e with ErrNotExist e | ErrNotEmpty e | ErrOther e => e end.
Definition is_not_exist (e : disk_error) : bool := match e with ErrNotExist _ => true | _ => false end.

(** [os.ReadDir] (names in order, and whether each is a directory), [os.ReadFile],
    [os.Lstat] (whether it is a symbolic link), [os.Stat] (whether it is a directory),
    [filepath.EvalSymlinks], [os.Remove], [os.MkdirAll], [os.CreateTemp] (the path of the file), the writing of the whole of an open
    file, its closing, and [os.Rename]. A call that fails may still change the disk. *)
Class Disk (D : Type) := {
  ReadDir : D -> string -> result disk_error (list (string * bool));
  ReadFile : D -> string -> result disk_error string;
  Lstat : D -> string -> result disk_error bool;
  Stat : D -> string -> result disk_error bool;
  EvalSymlinks : D -> string -> result disk_error string;
  Remove : string -> D -> option disk_error * D;
  MkdirAll : string -> D -> option disk_error * D;
  CreateTemp : string -> string -> D -> result disk_error string * D;
  WriteOpen : string -> string -> D -> option disk_error * D;
  CloseOpen : string -> D -> option disk_error * D;
  Rename : string -> string -> D -> option disk_error * D;
}.

(** ** Relative paths *)
(** [filepath.Rel] on cleaned paths, by segments; [None] when it fails. *)
Fixpoint drop_common (base target : list string) : list string * list string :=
  match base, target with
  | b :: base', t :: target' => if b == t then drop_common base' target' else (base, target)
  | _, _ => (base, target)
  end.
Definition path_segments (cleaned : string) : list string :=
  if (cleaned == ".") || (cleaned == "") then [] else filter (fun s => s <> "") (split_on slash cleaned).
Definition path_rel (basepath targpath : string) : option string :=
  let base := path_clean basepath in
  let targ := path_clean targpath in
  if base == targ then Some "."
  else if negb (Bool.eqb (has_prefix base "/") (has_prefix targ "/")) then None
  else
    let '(b, t) := drop_common (path_segments base) (path_segments targ) in
    if bool_decide (".." ∈ b) then None
    else match b ++ t with [] => Some "." | _ => Some (str_join "/" (replicate (length b) ".." ++ t)) end.
Definition isPathUnderRootLexical (root candidate : string) : bool :=
  match path_rel root candidate with
  | None => false
  | Some relPath => negb (relPath == "..") && negb (has_prefix relPath "../")
  end.

Section links.
Context {D : Type} `{Disk D} (disk : D).

(** The loop over the parts that are left, after the directory [current]. *)
Fixpoint resolve_parts (current : string) (parts : list string) : result disk_error string :=
  match parts with
  | [] => Ok (path_clean current)
  | part :: parts =>
      let next := path_join [current; part] in
      match Lstat disk next with
      | Err (ErrNotExist _) => Ok (path_clean (match parts with [] => next | _ => path_join [next; path_join parts] end))
      | Err err => Err err
      | Ok true => resolvedLink ← EvalSymlinks disk next; resolve_parts resolvedLink parts
      | Ok false => resolve_parts next parts
      end
  end.
Definition resolvePathWithSymlinks (path : string) : result disk_error string :=
  let cleaned := path_clean path in
  if cleaned == "." then Ok cleaned
  else
    let current := if has_prefix cleaned "/" then "/" else "" in
    match filter (fun s => s <> "") (split_on slash (trim_prefix cleaned "/")) with
    | [] => if current == "" then Ok cleaned else Ok (path_clean current)
    | parts => resolve_parts current parts
    end.
Definition IsPathUnderRoot (root candidate : string) : bool :=
  match resolvePathWithSymlinks root, resolvePathWithSymlinks candidate with
  | Ok rootResolved, Ok candidateResolved => isPathUnderRootLexical rootResolved candidateResolved
  | _, _ => false
  end.
End links.

Section cleanup.
Context {D : Type} `{Disk D}.

(** The loop of [CleanupEmptyParents]; each round goes one directory up, so the length of
    the path is fuel enough. *)
Fixpoint cleanup_loop (fuel : nat) (current root : string) (disk : D) : option disk_error * D :=
  match fuel with
  | 0 => (None, disk)
  | S fuel =>
      if (current == root) || (current == ".") || (current == "/") then (None, disk)
      else
        match Remove current disk with
        | (Some (ErrNotExist _), disk) | (Some (ErrNotEmpty _), disk) => (None, disk)
        | (Some (ErrOther err), disk) => (Some (ErrOther err), disk)
        | (None, disk) => cleanup_loop fuel (path_dir current) root disk
        end
  end.
Definition CleanupEmptyParents (startDir rootDir : string) (disk : D) : option disk_error * D :=
  let current := path_clean startDir in
  cleanup_loop (S (String.length current)) current (path_clean rootDir) disk.
End cleanup.

(** A call on the disk that must succeed; [undo] is what its failure leaves to do. *)
Definition disk_step {D} (message : string) (undo : D -> D) (call : D -> option disk_error * D) (next : D -> option error * D) (disk : D)
  : option error * D :=
  match call disk with
  | (None, disk) => next disk
  | (Some err, disk) => (Some (Internal message (Some (disk_cause err))), undo disk)
  end.

(** ** Walking a tree of directories *)
(** What the function given to [filepath.WalkDir] answers. *)
Inductive walk_step := Continue | SkipDir | Stop (err : disk_error).
Section walk.
Context {D : Type} `{Disk D} {S : Type}.
(** [filepath.WalkDir] for a function that returns the errors it is told: the path, the name
    and whether it is a directory are given to [visit] with the state, of which the disk is a
    part. A path has at most [PATH_MAX] bytes, longer ones are refused, so the directories
    are not nested deeper than that. *)
Context (disk_of : S -> D) (visit : string -> string -> bool -> S -> walk_step * S).
Definition path_max : nat := 4096.
Definition name_too_long : disk_error := ErrOther (errorf "file name too long").
Fixpoint walk_dir (levels : nat) (path name : string) (isDir : bool) (s : S) : walk_step * S :=
  match visit path name isDir s with
  | (Continue, s) =>
      if negb isDir then (Continue, s)
      else match levels with
           | 0 => (Stop name_too_long, s)
           | Datatypes.S levels =>
               match ReadDir (disk_of s) path with
               | Err err => (Stop err, s)
               | Ok entries =>
                   (fix walk_entries (entries : list (string * bool)) (s : S) : walk_step * S :=
                      match entries with
                      | [] => (Continue, s)
                      | (name, isDir) :: entries =>
                          match walk_dir levels (path_join [path; name]) name isDir s with
                          | (Continue, s) => walk_entries entries s
                          | (SkipDir, s) => (Continue, s)
                          | (Stop err, s) => (Stop err, s)
                          end
                      end) entries s
               end
           end
  | (SkipDir, s) => (if isDir then Continue else SkipDir, s)
  | (Stop err, s) => (Stop err, s)
  end.
(** The root is inspected by [os.Lstat]: a link is not a directory. *)
Definition WalkDir (root : string) (s : S) : option disk_error * S :=
  match (link ← Lstat (disk_of s) root; if link : bool then Ok (false : bool) else Stat (disk_of s) root) with
  | Err err => (Some err, s)
  | Ok isDir =>
      match walk_dir path_max root (path_base root) isDir s with
      | (Stop err, s) => (Some err, s)
      | (_, s) => (None, s)
      end
  end.
End walk.

(** ** A disk in memory *)
Inductive disk_node := FileNode (content : string) | DirNode.
#[export] Instance disk_node_eq_dec : EqDecision disk_node.
Proof. solve_decision. Defined.
(** Absolute cleaned paths; the root is not listed; no links and no failures but those of
    the paths. *)
Abbreviation tree := (gmap string disk_node).
Definition not_exist (path : string) : disk_error := ErrNotExist (errorf ("open " +:+ path +:+ ": no such file or directory")).
Definition not_dir : disk_error := ErrOther (errorf "not a directory").
(** A directory above the path is a file. *)
Definition through_file (t : tree) (path : string) : bool :=
  let segs := path_segments path in
  existsb (fun n => match t !! path_of (take n segs) with Some (FileNode _) => true | _ => false end) (seq 1 (length segs - 1)).
Definition missing (t : tree) (path : string) : disk_error := if through_file t path then not_dir else not_exist path.
Definition is_dir (t : tree) (path : string) : bool := (path == "/") || bool_decide (t !! path = Some DirNode).
Definition tree_children (t : tree) (dir : string) : list (string * bool) :=
  let names := filter (fun p => path_dir p = dir) (sorted_keys t) in
  (fun p => (path_base p, match t !! p with Some DirNode => true | _ => false end)) <$> names.
Definition tree_ReadDir (t : tree) (path : string) : result disk_error (list (string * bool)) :=
  let path := path_clean path in
  if is_dir t path then Ok (tree_children t path)
  else match t !! path with Some _ => Err not_dir | None => Err (missing t path) end.
Definition tree_ReadFile (t : tree) (path : string) : result disk_error string :=
  let path := path_clean path in
  if is_dir t path then Err (ErrOther (errorf "is a directory"))
  else match t !! path with Some (FileNode content) => Ok content | _ => Err (missing t path) end.
Definition tree_Stat (t : tree) (path : string) : result disk_error bool :=
  let path := path_clean path in
  if is_dir t path then Ok true else match t !! path with Some _ => Ok false | None => Err (missing t path) end.
Definition tree_Lstat (t : tree) (path : string) : result disk_error bool := _ ← tree_Stat t path; Ok false.
Definition tree_Remove (path : string) (t : tree) : option disk_error * tree :=
  let path := path_clean path in
  match t !! path with
  | None => (Some (if path == "/" then ErrOther (errorf "busy") else missing t path), t)
  | Some DirNode => match tree_children t path with [] => (None, delete path t) | _ => (Some (ErrNotEmpty (errorf "directory not empty")), t) end
  | Some (FileNode _) => (None, delete path t)
  end.
(** The directories of a path from the first that is missing on; [None] when one is a file. *)
Fixpoint make_dirs (done segs : list string) (t : tree) : option tree :=
  match segs with
  | [] => Some t
  | s :: segs =>
      let dir := path_of (done ++ [s]) in
      match t !! dir with
      | Some (FileNode _) => None
      | Some DirNode => make_dirs (done ++ [s]) segs t
      | None => make_dirs (done ++ [s]) segs (<[dir := DirNode]> t)
      end
  end.
Definition tree_MkdirAll (path : string) (t : tree) : option disk_error * tree :=
  match make_dirs [] (path_segments (path_clean path)) t with
  | Some t => (None, t)
  | None => (Some not_dir, t)
  end.
(** A name longer than any path of the tree. *)
Definition longest_key (t : tree) : nat := foldr Nat.max 0 (String.length <$> (map_to_list t).*1).
Fixpoint zeros (n : nat) : string := match n with 0 => "" | S n => String "0" (zeros n) end.
Definition tree_temp (t : tree) (dir : string) : string := path_join [dir; "tmp" +:+ zeros (longest_key t)].
Definition tree_CreateTemp (dir pattern : string) (t : tree) : result disk_error string * tree :=
  if is_dir t (path_clean dir) then (Ok (tree_temp t dir), <[tree_temp t dir := FileNode ""]> t) else (Err (missing t dir), t).
Definition tree_WriteOpen (path content : string) (t : tree) : option disk_error * tree :=
  match t !! path_clean path with
  | Some (FileNode _) => (None, <[path_clean path := FileNode content]> t)
  | _ => (Some (ErrOther (errorf "bad file descriptor")), t)
  end.
(** Files only: the program renames no directory. *)
Definition tree_Rename (from to : string) (t : tree) : option disk_error * tree :=
  let from := path_clean from in
  let to := path_clean to in
  match t !! from with
  | Some (FileNode content) =>
      if is_dir t to then (Some (ErrOther (errorf "file exists")), t)
      else if is_dir t (path_dir to) then (None, <[to := FileNode content]> (delete from t))
      else (Some (missing t to), t)
  | _ => (Some (missing t from), t)
  end.
#[export] Instance tree_disk : Disk tree := {|
  ReadDir := tree_ReadDir;
  ReadFile := tree_ReadFile;
  Lstat := tree_Lstat;
  Stat := tree_Stat;
  EvalSymlinks := fun _ path => Ok path;
  Remove := tree_Remove;
  MkdirAll := tree_MkdirAll;
  CreateTemp := tree_CreateTemp;
  WriteOpen := tree_WriteOpen;
  CloseOpen := fun _ t => (None, t);
  Rename := tree_Rename;
|}.

(** ** Facts *)
Lemma drop_common_spec base target : exists c, base = c ++ (drop_common base target).1 /\ target = c ++ (drop_common base target).2 /\
  forall s u v, (drop_common base target).1 = s :: u -> (drop_common base target).2 = s :: v -> False.
Proof.
  revert target. induction base as [|b base IH]; intros [|t target]; cbn [drop_common]; try by exists [].
  destruct (decide (b = t)) as [<-|Hne].
  - rewrite bool_decide_true by done. destruct (IH target) as (c & H1 & H2 & H3). exists (b :: c). cbn. by rewrite <-H1, <-H2.
  - rewrite bool_decide_false by done. exists []. split_and!; [done..|]. cbn. congruence.
Qed.
Lemma drop_common_prefix base k : drop_common base (base ++ k) = ([], k).
Proof. induction base as [|b base IH]; cbn; [by destruct k|]. by rewrite bool_decide_true. Qed.
Lemma path_segments_path_of l : Forall clean_segment l -> path_segments (path_of l) = l.
Proof.
  intros Hl. unfold path_segments. rewrite !bool_decide_false by done. cbn [orb]. rewrite split_path_of by done.
  rewrite filter_cons_False by naive_solver. destruct l as [|s l]; [by rewrite filter_cons_False by naive_solver|].
  by apply filter_all, clean_segments_nonempty.
Qed.
Lemma clean_not_dotdot l : Forall clean_segment l -> ".." ∉ l.
Proof. intros Hl Hin. rewrite Forall_forall in Hl. by destruct (Hl _ Hin) as (_ & _ & ? & _). Qed.
Lemma relative_inside k : Forall clean_segment k -> k <> [] ->
  (str_join "/" k == "..") = false /\ has_prefix (str_join "/" k) "../" = false.
Proof.
  intros Hk Hne. destruct k as [|s k]; [done|]. apply Forall_cons in Hk as [Hs Hk]. destruct Hs as (Hs1 & _ & Hs2 & Hs3 & _).
  assert (str_join "/" (s :: k) = s \/ exists r, str_join "/" (s :: k) = s +:+ "/" +:+ r) as E.
  { destruct k as [|t k]; [by left|]. right. exists (str_join "/" (t :: k)). apply str_join_cons2. }
  assert (forall r, has_prefix (s +:+ r) "../" = true -> exists u, s +:+ r = "../" +:+ u) as Hp by (intros r; apply has_prefix_spec).
  assert (forall r u, s +:+ String slash r = "../" +:+ u -> False) as Hbad.
  { intros r u Hu. destruct s as [|a [|b [|c s]]]; [done|..]; injection Hu; intros; subst; done. }
  destruct E as [->|[r ->]].
  - split; [by apply bool_decide_false|]. apply not_true_iff_false. intros [u Hu]%has_prefix_spec. subst s.
    rewrite contains_byte_app in Hs3. done.
  - split; [|apply not_true_iff_false; intros [u Hu]%has_prefix_spec; by apply (Hbad r u)].
    apply bool_decide_false. intros Hu. destruct s as [|a [|b [|c s]]]; try done; injection Hu; intros; subst; done.
Qed.

(** A cleaned absolute path is under a cleaned absolute root exactly when the segments
    of the root are the first segments of the path: a sibling whose name begins with the
    root's is not, and nothing above the root is. *)
Theorem under_root_is_segment_prefix l k :
  Forall clean_segment l -> Forall clean_segment k ->
  isPathUnderRootLexical (path_of l) (path_of k) = true <-> l `prefix_of` k.
Proof.
  intros Hl Hk. unfold isPathUnderRootLexical, path_rel. rewrite !path_clean_path_of by done.
  destruct (decide (path_of l = path_of k)) as [E|E].
  { rewrite bool_decide_true by done. apply path_of_inj in E; [|done..]. by subst. }
  rewrite bool_decide_false by done. rewrite !path_of_inj_prefix, !path_segments_path_of by done. cbn [Bool.eqb negb].
  destruct (drop_common_spec l k) as (c & H1 & H2 & H3). destruct (drop_common l k) as [b t]. cbn [fst snd] in *.
  assert (Forall clean_segment b /\ Forall clean_segment t) as [Hb Ht].
  { rewrite H1 in Hl. rewrite H2 in Hk. apply Forall_app in Hl as [_ ?], Hk as [_ ?]. done. }
  rewrite bool_decide_false by by apply clean_not_dotdot. destruct b as [|s b].
  - rewrite app_nil_r in H1. subst c. destruct t as [|t ts]; [by rewrite app_nil_r in H2; subst|]. cbn [app length replicate].
    destruct (relative_inside (t :: ts) Ht) as [-> ->]; [done|]. split; [|done]. intros _. rewrite H2. by apply prefix_app_r.
  - cbn [length replicate app]. split.
    + destruct (replicate (length b) ".." ++ t) as [|u us] eqn:Eu; [done|]. rewrite str_join_cons2.
      assert (has_prefix (".." +:+ "/" +:+ str_join "/" (u :: us)) "../" = true) as ->; [|by rewrite andb_false_r].
      apply (has_prefix_app "../").
    + intros [r Hr]. rewrite H1, <-app_assoc in Hr. rewrite H2 in Hr. apply app_inv_head in Hr.
      exfalso. by apply (H3 s b (b ++ r)); [|rewrite Hr].
Qed.
Lemma under_root_is_segment_prefix_witness :
  isPathUnderRootLexical "/srv/meta" "/srv/meta/users/_" = true /\ isPathUnderRootLexical "/srv/meta" "/srv/metadata" = false.
Proof.
  assert (Forall clean_segment ["srv"; "meta"]) as H1 by (repeat constructor; by vm_compute).
  assert (Forall clean_segment ["srv"; "meta"; "users"; "_"]) as H2 by (repeat constructor; by vm_compute).
  split; [|by vm_compute]. apply (under_root_is_segment_prefix _ _ H1 H2). by exists ["users"; "_"].
Defined.
