(* ===== verification/DiskLaws.v ===== *)
(** * What is relied on of a file system

    The laws of a disk without links: it shows a tree of directories and files, its reads
    answer by that tree, and a call that succeeds changes it as documented. The disk in memory
    keeps them. *)
From S2P Require Import Prelude GoText GoTextFacts Faults Paths GoDisk.

(** ** Trees *)
(** The node of a list of names; the root is a directory. *)
Definition node_at (t : tree) (l : list string) : option disk_node := match l with [] => Some DirNode | _ => t !! path_of l end.
(** Every path is absolute and cleaned, and what is above it is a directory. *)
Definition wf_tree (t : tree) : Prop :=
  map_Forall (fun k _ => exists l s, Forall clean_segment (l ++ [s]) /\ k = path_of (l ++ [s]) /\ node_at t l = Some DirNode) t.

Lemma node_at_snoc t l s : node_at t (l ++ [s]) = t !! path_of (l ++ [s]).
Proof. by destruct l. Qed.
Lemma snoc_inj (l k : list string) s u : Forall clean_segment (l ++ [s]) -> Forall clean_segment (k ++ [u]) ->
  path_of (l ++ [s]) = path_of (k ++ [u]) -> l = k /\ s = u.
Proof. intros Hl Hk E%path_of_inj; [|done..]. by apply app_inj_tail in E. Qed.
Lemma snoc_not_parent (l : list string) s : Forall clean_segment (l ++ [s]) -> path_of l <> path_of (l ++ [s]).
Proof.
  intros Hl E%path_of_inj; [|by apply Forall_app in Hl as []|done]. apply (f_equal length) in E. rewrite length_app in E. cbn in E. lia.
Qed.
Lemma wf_parent t l s n : wf_tree t -> Forall clean_segment (l ++ [s]) -> t !! path_of (l ++ [s]) = Some n -> node_at t l = Some DirNode.
Proof. intros Hwf Hl Hn. destruct (Hwf _ _ Hn) as (l' & s' & Hl' & E & Hd). by apply snoc_inj in E as [-> ->]. Qed.
Lemma wf_ancestor t l k n : wf_tree t -> Forall clean_segment (l ++ k) -> k <> [] -> node_at t (l ++ k) = Some n -> node_at t l = Some DirNode.
Proof.
  intros Hwf. revert n. induction k as [|s k IH] using rev_ind; [done|]. intros n Hl _ Hn. rewrite app_assoc in Hl, Hn. rewrite node_at_snoc in Hn.
  apply (wf_parent _ _ _ _ Hwf Hl) in Hn. apply Forall_app in Hl as [Hl _]. destruct k as [|u k]; [by rewrite app_nil_r in Hn|]. by eapply IH.
Qed.
Lemma is_dir_node t l : Forall clean_segment l -> is_dir t (path_of l) = bool_decide (node_at t l = Some DirNode).
Proof.
  intros Hl. unfold is_dir, node_at. destruct l as [|s l]; [by rewrite !bool_decide_true by done|].
  rewrite (bool_decide_false (path_of _ = "/")); [done|]. by intros ?%path_of_root.
Qed.
Lemma through_file_clear t l n : wf_tree t -> Forall clean_segment l -> node_at t l = Some n -> through_file t (path_of l) = false.
Proof.
  intros Hwf Hl Hn. unfold through_file. rewrite path_segments_path_of by done. apply not_true_iff_false. rewrite existsb_exists. intros (i & Hi & Hf).
  apply in_seq in Hi. assert (node_at t (take i l) = Some DirNode) as Hd.
  { eapply (wf_ancestor _ _ (drop i l) n Hwf); rewrite ?take_drop; try done. intros E%(f_equal length). rewrite length_drop in E. cbn in E. lia. }
  unfold node_at in Hd. destruct (take i l) as [|s u] eqn:E; [|by rewrite Hd in Hf].
  apply (f_equal length) in E. rewrite length_take in E. cbn in E. lia.
Qed.
(** The entries of a directory. *)
Lemma children_spec t l name b : wf_tree t -> Forall clean_segment l ->
  (name, b) ∈ tree_children t (path_of l) <->
  clean_segment name /\ exists n, t !! path_of (l ++ [name]) = Some n /\ b = bool_decide (n = DirNode).
Proof.
  intros Hwf Hl. unfold tree_children. rewrite list_elem_of_fmap. setoid_rewrite list_elem_of_filter. setoid_rewrite elem_of_sorted_keys. split.
  - intros (k & [= -> ->] & Hd & [n Hn]). destruct (Hwf _ _ Hn) as (l' & s & Hl' & -> & _). rewrite path_dir_snoc in Hd by done.
    apply path_of_inj in Hd as ->; [|by apply Forall_app in Hl' as []|done]. rewrite path_base_snoc by done. split.
    + by apply clean_snoc in Hl' as [].
    + exists n. split; [done|]. rewrite Hn. by destruct n.
  - intros (Hs & n & Hn & ->). exists (path_of (l ++ [name])). assert (Forall clean_segment (l ++ [name])) as Hls by (by apply clean_snoc).
    rewrite path_base_snoc, path_dir_snoc by done. split_and!; [|done|by eexists]. rewrite Hn. by destruct n.
Qed.
Lemma children_NoDup t l : wf_tree t -> Forall clean_segment l -> NoDup (tree_children t (path_of l)).*1.
Proof.
  intros Hwf Hl. unfold tree_children. rewrite <-list_fmap_compose.
  assert (Forall (fun k => exists s, Forall clean_segment (l ++ [s]) /\ k = path_of (l ++ [s])) (filter (fun p => path_dir p = path_of l) (sorted_keys t))) as Hall.
  { apply Forall_forall. intros k [Hd [n Hn]%elem_of_sorted_keys]%list_elem_of_filter. destruct (Hwf _ _ Hn) as (l' & s & Hl' & -> & _).
    rewrite path_dir_snoc in Hd by done. apply path_of_inj in Hd as ->; [|by apply Forall_app in Hl' as []|done]. by exists s. }
  assert (NoDup (filter (fun p => path_dir p = path_of l) (sorted_keys t))) as Hn by apply NoDup_filter, sorted_keys_NoDup.
  induction Hall as [|k ks (s & Hs & ->) Hall IH]; [constructor|]. apply NoDup_cons in Hn as [Hni Hn]. cbn. constructor; [|by apply IH].
  rewrite list_elem_of_fmap. intros (k' & E & Hk'). destruct (proj1 (Forall_forall _ _) Hall k' Hk') as (s' & Hs' & ->).
  cbn in E. rewrite !path_base_snoc in E by done. by subst s'.
Qed.

(** ** Changing a tree *)
Lemma wf_insert t l s n : wf_tree t -> Forall clean_segment (l ++ [s]) -> node_at t l = Some DirNode ->
  (n = DirNode \/ t !! path_of (l ++ [s]) <> Some DirNode) -> wf_tree (<[path_of (l ++ [s]) := n]> t).
Proof.
  intros Hwf Hl Hp Hn k m Hk.
  assert (forall l', Forall clean_segment l' -> node_at t l' = Some DirNode -> node_at (<[path_of (l ++ [s]) := n]> t) l' = Some DirNode) as Hkeep.
  { intros [|u l'] Hl' Hd; [done|]. cbn [node_at] in *. destruct (decide (path_of (u :: l') = path_of (l ++ [s]))) as [E|E].
    - rewrite E, lookup_insert_eq. rewrite E in Hd. by destruct Hn as [->|].
    - by rewrite lookup_insert_ne by congruence. }
  apply lookup_insert_Some in Hk as [[<- <-]|[Hne Hk]].
  - exists l, s. split_and!; [done..|]. apply Hkeep; [by apply Forall_app in Hl as []|done].
  - destruct (Hwf _ _ Hk) as (l' & s' & Hl' & -> & Hd). exists l', s'. split_and!; [done..|]. apply Hkeep; [by apply Forall_app in Hl' as []|done].
Qed.
Lemma wf_delete t l s : wf_tree t -> Forall clean_segment (l ++ [s]) ->
  (forall u, clean_segment u -> t !! path_of ((l ++ [s]) ++ [u]) = None) -> wf_tree (delete (path_of (l ++ [s])) t).
Proof.
  intros Hwf Hl Hno k m [Hne Hk]%lookup_delete_Some. destruct (Hwf _ _ Hk) as (l' & s' & Hl' & -> & Hd). exists l', s'. split_and!; [done..|].
  destruct l' as [|u l']; [done|]. cbn [node_at] in *. rewrite lookup_delete_ne; [done|]. intros E.
  apply path_of_inj in E as E'; [|done|by apply Forall_app in Hl' as []]. rewrite <-E' in Hk. rewrite Hno in Hk; [done|]. by apply clean_snoc in Hl' as [].
Qed.
(** Directories are added, and nothing else changes. *)
Definition grows (t t' : tree) : Prop := forall k, t' !! k = t !! k \/ (t !! k = None /\ t' !! k = Some DirNode).
#[export] Instance grows_preorder : PreOrder grows.
Proof.
  split; [by left|]. intros t1 t2 t3 H12 H23 k. destruct (H12 k) as [E|[E1 E2]], (H23 k) as [E'|[E1' E2']]; try congruence.
  - left. congruence.
  - right. split; congruence.
  - right. split; congruence.
Qed.
Lemma grows_file t t' k c : grows t t' -> t' !! k = Some (FileNode c) <-> t !! k = Some (FileNode c).
Proof. intros Hg. destruct (Hg k) as [->|[-> ->]]; done. Qed.
Lemma grows_dir t t' l : grows t t' -> node_at t l = Some DirNode -> node_at t' l = Some DirNode.
Proof. intros Hg. destruct l; [done|]. cbn [node_at]. by destruct (Hg (path_of (s :: l))) as [->|[-> ->]]. Qed.
Lemma make_dirs_spec segs : forall d t t', wf_tree t -> Forall clean_segment (d ++ segs) -> node_at t d = Some DirNode ->
  make_dirs d segs t = Some t' -> wf_tree t' /\ node_at t' (d ++ segs) = Some DirNode /\ grows t t'.
Proof.
  induction segs as [|s segs IH]; intros d t t' Hwf Hl Hd; cbn [make_dirs].
  - intros [= <-]. by rewrite app_nil_r.
  - replace (d ++ s :: segs) with ((d ++ [s]) ++ segs) in * by by rewrite <-app_assoc.
    assert (Forall clean_segment (d ++ [s])) as Hds by by apply Forall_app in Hl as [].
    destruct (t !! path_of (d ++ [s])) as [[|]|] eqn:E; [done|..]; intros Hm.
    + apply IH in Hm; [done..|]. by rewrite node_at_snoc.
    + apply IH in Hm as (Hw & Hn & Hg); [|apply wf_insert; try done; by left|done|by rewrite node_at_snoc, lookup_insert_eq].
      split_and!; [done..|]. etrans; [|exact Hg]. intros k. destruct (decide (k = path_of (d ++ [s]))) as [->|Hne].
      * right. by rewrite lookup_insert_eq.
      * left. by rewrite lookup_insert_ne.
Qed.

(** ** The laws *)
(** Both succeed with the same answer, or both fail, and say alike whether nothing is there. *)
Definition agree {A} (x y : result disk_error A) : Prop :=
  match x, y with Ok a, Ok b => a = b | Err e, Err f => is_not_exist e = is_not_exist f | _, _ => False end.
#[export] Instance agree_refl {A} : Reflexive (@agree A).
Proof. by intros []. Qed.
(** A call that fails may have done a part of its work only where the law says nothing of
    failures; what [os.CreateTemp] returns is a name that was not there. *)
Class DiskLaws (D : Type) `{Disk D} := {
  view : D -> tree;
  disk_ok : D -> Prop;
  ok_tree : forall d, disk_ok d -> wf_tree (view d);
  reads_dir : forall d l, disk_ok d -> Forall clean_segment l -> agree (ReadDir d (path_of l)) (tree_ReadDir (view d) (path_of l));
  reads_file : forall d l, disk_ok d -> Forall clean_segment l -> agree (ReadFile d (path_of l)) (tree_ReadFile (view d) (path_of l));
  reads_link : forall d l, disk_ok d -> Forall clean_segment l -> agree (Lstat d (path_of l)) (tree_Lstat (view d) (path_of l));
  reads_stat : forall d l, disk_ok d -> Forall clean_segment l -> agree (Stat d (path_of l)) (tree_Stat (view d) (path_of l));
  does_Remove : forall d l, disk_ok d -> Forall clean_segment l -> let '(e, d') := Remove (path_of l) d in disk_ok d' /\
    match e with
    | None => tree_Remove (path_of l) (view d) = (None, view d')
    | Some e => view d' = view d /\ (is_not_exist e = true -> view d !! path_of l = None)
    end;
  does_MkdirAll : forall d l, disk_ok d -> Forall clean_segment l -> let '(e, d') := MkdirAll (path_of l) d in disk_ok d' /\
    (e = None -> tree_MkdirAll (path_of l) (view d) = (None, view d'));
  does_CreateTemp : forall d l pattern, disk_ok d -> Forall clean_segment l -> let '(x, d') := CreateTemp (path_of l) pattern d in disk_ok d' /\
    forall tempPath, x = Ok tempPath -> exists name, clean_segment name /\ tempPath = path_of (l ++ [name]) /\
      node_at (view d) l = Some DirNode /\ view d !! tempPath = None /\ view d' = <[tempPath := FileNode ""]> (view d);
  does_WriteOpen : forall d l content, disk_ok d -> Forall clean_segment l -> let '(e, d') := WriteOpen (path_of l) content d in disk_ok d' /\
    (e = None -> view d' = <[path_of l := FileNode content]> (view d));
  does_CloseOpen : forall d l, disk_ok d -> Forall clean_segment l -> let '(_, d') := CloseOpen (path_of l) d in disk_ok d' /\ view d' = view d;
  does_Rename : forall d l k, disk_ok d -> Forall clean_segment l -> Forall clean_segment k ->
    let '(e, d') := Rename (path_of l) (path_of k) d in disk_ok d' /\
    (e = None -> tree_Rename (path_of l) (path_of k) (view d) = (None, view d'));
}.

(** ** The disk in memory keeps them *)
Lemma clean_cases (l : list string) : l = [] \/ exists k s, l = k ++ [s].
Proof. destruct l as [|k s _] using rev_ind; [by left|right; by eexists _, _]. Qed.
Lemma root_not_listed t : wf_tree t -> t !! path_of [] = None.
Proof.
  intros Hwf. destruct (t !! path_of []) as [n|] eqn:E; [|done]. destruct (Hwf _ _ E) as (l & s & Hl & E' & _).
  symmetry in E'. apply path_of_root in E'; [by destruct l|done].
Qed.
Lemma tree_Remove_wf t l : wf_tree t -> Forall clean_segment l -> wf_tree (tree_Remove (path_of l) t).2.
Proof.
  intros Hwf Hl. unfold tree_Remove. rewrite path_clean_path_of by done. destruct (t !! path_of l) as [n|] eqn:E; [|done].
  destruct (clean_cases l) as [->|(k & s & ->)]; [by rewrite (root_not_listed t Hwf) in E|].
  assert ((forall u, clean_segment u -> t !! path_of ((k ++ [s]) ++ [u]) = None) -> wf_tree (delete (path_of (k ++ [s])) t)) as Hdel by by apply wf_delete.
  destruct n as [c|].
  - apply Hdel. intros u Hu. destruct (t !! path_of ((k ++ [s]) ++ [u])) as [n|] eqn:Eu; [|done].
    apply (wf_parent _ _ _ _ Hwf) in Eu; [|by apply clean_snoc]. rewrite node_at_snoc in Eu. congruence.
  - destruct (tree_children t (path_of (k ++ [s]))) as [|x xs] eqn:Ec; [|done]. apply Hdel. intros u Hu.
    destruct (t !! path_of ((k ++ [s]) ++ [u])) as [n|] eqn:Eu; [|done]. exfalso.
    assert ((u, bool_decide (n = DirNode)) ∈ tree_children t (path_of (k ++ [s]))) as Hin by (apply children_spec; eauto).
    rewrite Ec in Hin. by apply not_elem_of_nil in Hin.
Qed.
Lemma tree_MkdirAll_spec t t' l : wf_tree t -> Forall clean_segment l -> tree_MkdirAll (path_of l) t = (None, t') ->
  wf_tree t' /\ node_at t' l = Some DirNode /\ grows t t'.
Proof.
  intros Hwf Hl. unfold tree_MkdirAll. rewrite path_clean_path_of, path_segments_path_of by done.
  destruct (make_dirs [] l t) as [t1|] eqn:E; [|done]. intros [= <-]. by apply (make_dirs_spec l [] t t1).
Qed.
Lemma tree_MkdirAll_wf t l : wf_tree t -> Forall clean_segment l -> wf_tree (tree_MkdirAll (path_of l) t).2.
Proof.
  intros Hwf Hl. destruct (tree_MkdirAll (path_of l) t) as [[e|] t'] eqn:E; cbn; [|by apply tree_MkdirAll_spec in E as (? & _)].
  unfold tree_MkdirAll in E. destruct (make_dirs _ _ t); [done|]. by injection E as _ <-.
Qed.
Lemma longest_key_le t k n : t !! k = Some n -> String.length k <= longest_key t.
Proof.
  intros Hk. unfold longest_key. assert (k ∈ (map_to_list t).*1) as Hin by (apply list_elem_of_fmap; exists (k, n); split; [done|by apply elem_of_map_to_list]).
  induction ((map_to_list t).*1) as [|x xs IH]; [by apply not_elem_of_nil in Hin|]. cbn. apply elem_of_cons in Hin as [->|Hin]; [lia|]. specialize (IH Hin). lia.
Qed.
Lemma length_zeros n : String.length (zeros n) = n.
Proof. induction n; cbn; congruence. Qed.
Lemma zeros_free f n : f "0"%char = false -> contains_byte f (zeros n) = false.
Proof. intros Hf. induction n as [|n IH]; [done|]. cbn. by rewrite Hf. Qed.
Lemma temp_name_clean n : clean_segment ("tmp" +:+ zeros n).
Proof. split_and!; [done..| |]; (rewrite contains_byte_app, zeros_free; done). Qed.
Lemma tree_temp_spec t l : Forall clean_segment l ->
  tree_temp t (path_of l) = path_of (l ++ ["tmp" +:+ zeros (longest_key t)]) /\ t !! tree_temp t (path_of l) = None.
Proof.
  intros Hl. assert (tree_temp t (path_of l) = path_of (l ++ ["tmp" +:+ zeros (longest_key t)])) as E by (apply path_join_snoc; [done|apply temp_name_clean]).
  split; [done|]. rewrite E. destruct (t !! _) as [n|] eqn:En; [|done]. apply longest_key_le in En. exfalso.
  destruct (path_of_split_last l ("tmp" +:+ zeros (longest_key t))) as (u & Hu & _). rewrite Hu, !length_str_app, length_zeros in En. cbn in En. lia.
Qed.
Lemma tree_insert_file_wf t l c : wf_tree t -> Forall clean_segment l -> (exists c', t !! path_of l = Some (FileNode c')) -> wf_tree (<[path_of l := FileNode c]> t).
Proof.
  intros Hwf Hl (c' & Hc). destruct (clean_cases l) as [->|(k & s & ->)]; [by rewrite (root_not_listed t Hwf) in Hc|].
  apply wf_insert; try done; [by eapply wf_parent|]. right. by rewrite Hc.
Qed.
Lemma tree_Rename_wf t l k : wf_tree t -> Forall clean_segment l -> Forall clean_segment k -> wf_tree (tree_Rename (path_of l) (path_of k) t).2.
Proof.
  intros Hwf Hl Hk. unfold tree_Rename. rewrite !path_clean_path_of by done. destruct (t !! path_of l) as [[c|]|] eqn:E; try done.
  destruct (is_dir t (path_of k)) eqn:Ek; [done|]. rewrite is_dir_node in Ek by done. apply bool_decide_eq_false in Ek.
  destruct (clean_cases k) as [->|(k' & s & ->)]; [done|]. rewrite path_dir_snoc, is_dir_node by (done || by apply clean_snoc in Hk as []).
  destruct (bool_decide _) eqn:Ep; [|done]. apply bool_decide_eq_true in Ep. cbn [snd]. rewrite node_at_snoc in Ek.
  pose proof (tree_Remove_wf t l Hwf Hl) as Hw. unfold tree_Remove in Hw. rewrite path_clean_path_of, E in Hw by done. cbn [snd] in Hw.
  apply wf_insert; try done.
  - destruct k' as [|u k']; [done|]. cbn [node_at] in *. rewrite lookup_delete_ne; [done|]. intros E'. rewrite E' in E. congruence.
  - right. intros [_ ?]%lookup_delete_Some. done.
Qed.
#[export, program] Instance tree_laws : DiskLaws tree := { view := fun t => t; disk_ok := wf_tree }.
Next Obligation. done. Qed.
Next Obligation. reflexivity. Qed.
Next Obligation. reflexivity. Qed.
Next Obligation. reflexivity. Qed.
Next Obligation. reflexivity. Qed.
Next Obligation.
  intros t l Hwf Hl. cbn [Remove tree_disk]. pose proof (tree_Remove_wf t l Hwf Hl) as Hw. destruct (tree_Remove (path_of l) t) as [[e|] t'] eqn:E; [|done].
  split; [done|]. unfold tree_Remove in E. rewrite path_clean_path_of in E by done.
  destruct (t !! path_of l) as [[|]|]; [done| |by injection E as _ <-]. destruct (tree_children t (path_of l)); [done|]. by injection E as <- <-.
Qed.
Next Obligation.
  intros t l Hwf Hl. cbn [MkdirAll tree_disk]. pose proof (tree_MkdirAll_wf t l Hwf Hl) as Hw. destruct (tree_MkdirAll (path_of l) t) as [e t'] eqn:E.
  split; [done|]. by intros ->.
Qed.
Next Obligation.
  intros t l pattern Hwf Hl. cbn [CreateTemp tree_disk]. unfold tree_CreateTemp. rewrite path_clean_path_of, is_dir_node by done.
  destruct (bool_decide _) eqn:E; [|done]. apply bool_decide_eq_true in E. destruct (tree_temp_spec t l Hl) as [Et Hn]. split.
  - rewrite Et. apply wf_insert; [done|apply clean_snoc; split; [done|apply temp_name_clean]|done|]. right. rewrite <-Et. by rewrite Hn.
  - intros p [= <-]. eexists. split; [apply temp_name_clean|]. done.
Qed.
Next Obligation.
  intros t l content Hwf Hl. cbn [WriteOpen tree_disk]. unfold tree_WriteOpen. rewrite path_clean_path_of by done.
  destruct (t !! path_of l) as [[c|]|] eqn:E; [|done..]. split; [apply tree_insert_file_wf; eauto|done].
Qed.
Next Obligation. done. Qed.
Next Obligation.
  intros t l k Hwf Hl Hk. cbn [Rename tree_disk]. pose proof (tree_Rename_wf t l k Hwf Hl Hk) as Hw. destruct (tree_Rename _ _ t) as [e t'].
  split; [done|]. by intros ->.
Qed.

(** * Files of the user alone

    The permissions of files ([os.File.Chmod], [os.Chmod], [os.Stat]), beside the operations of
    [GoDisk], and the way [saveCatalog] of [src/internal/providers/config/file] and the session
    store of [src/internal/promptauth] write a file: a temporary file, readable by the user
    alone, that takes the place of the old one. *)
Class DiskModes (D : Type) := {
  Perm : D -> string -> result disk_error Z;
  ChmodOpen : string -> Z -> D -> option disk_error * D;
  Chmod : string -> Z -> D -> option disk_error * D;
}.
Definition user_only : Z := 384. (* 0o600 *)

(** Where the writing of a file can fail. *)
Inductive write_stage := MakingDirectory | MakingFile | WritingFile | SettingMode | ClosingFile | ReplacingFile.

Section write.
Context {D : Type} `{Disk D} `{!DiskModes D} (told : write_stage -> error -> error).
Definition stage (at_stage : write_stage) (undo : D -> D) (call : D -> option disk_error * D) (next : D -> option error * D) (disk : D)
  : option error * D :=
  match call disk with
  | (None, disk) => next disk
  | (Some err, disk) => (Some (told at_stage (disk_cause err)), undo disk)
  end.
Definition write_private (path pattern data : string) (disk : D) : option error * D :=
  stage MakingDirectory (fun d => d) (MkdirAll (path_dir path)) (fun disk =>
    match CreateTemp (path_dir path) pattern disk with
    | (Err err, disk) => (Some (told MakingFile (disk_cause err)), disk)
    | (Ok tempPath, disk) =>
        let removeTemp := fun d => (Remove tempPath d).2 in
        let closeAndRemove := fun d => removeTemp (CloseOpen tempPath d).2 in
        stage WritingFile closeAndRemove (WriteOpen tempPath data) (fun disk =>
          stage SettingMode closeAndRemove (ChmodOpen tempPath user_only) (fun disk =>
            stage ClosingFile removeTemp (CloseOpen tempPath) (fun disk =>
              stage ReplacingFile removeTemp (Rename tempPath path) (fun disk => (None, disk)) disk) disk) disk) disk
    end) disk.
End write.

(** ** Laws *)
(** Permissions are no part of what a disk shows; a file that is there has some, and those it
    was given. *)
Class ModeLaws (D : Type) `{DiskLaws D} `{!DiskModes D} := {
  does_Perm : forall d l e, disk_ok d -> Forall clean_segment l -> Perm d (path_of l) = Err e -> is_not_exist e = true -> view d !! path_of l = None;
  does_ChmodOpen : forall d l mode, disk_ok d -> Forall clean_segment l -> let '(_, d') := ChmodOpen (path_of l) mode d in disk_ok d' /\ view d' = view d;
  does_Chmod : forall d l mode, disk_ok d -> Forall clean_segment l -> let '(e, d') := Chmod (path_of l) mode d in disk_ok d' /\ view d' = view d /\
    (e = None -> Perm d' (path_of l) = Ok mode);
}.
(** A disk in memory all of whose files are, and stay, the user's alone. *)
Definition tree_Chmod (path : string) (mode : Z) (t : tree) : option disk_error * tree :=
  match tree_Stat t path with
  | Err e => (Some e, t)
  | Ok _ => (if mode == user_only then None else Some (ErrOther (errorf "operation not permitted")), t)
  end.
#[export] Instance tree_modes : DiskModes tree := {| Perm := fun t path => _ ← tree_Stat t path; Ok user_only; ChmodOpen := tree_Chmod; Chmod := tree_Chmod |}.
#[export, program] Instance tree_mode_laws : ModeLaws tree := {}.
Next Obligation.
  intros t l e Hwf Hl. cbn. unfold tree_Stat. rewrite path_clean_path_of by done. destruct (is_dir _ _); [done|].
  by destruct (t !! path_of l).
Qed.
Next Obligation. intros t l mode Hwf Hl. cbn. unfold tree_Chmod. by destruct (tree_Stat _ _). Qed.
Next Obligation.
  intros t l mode Hwf Hl. cbn. unfold tree_Chmod. destruct (tree_Stat t (path_of l)) eqn:E; [|done]. split_and!; [done..|].
  case_bool_decide; [|done]. intros _. rewrite E. by subst.
Qed.

Section facts.
Context {D : Type} `{DiskLaws D} `{!DiskModes D, !ModeLaws D} (told : write_stage -> error -> error).

Lemma stage_ok st undo call next (d d' : D) : stage told st undo call next d = (None, d') -> exists d1, call d = (None, d1) /\ next d1 = (None, d').
Proof. unfold stage. destruct (call d) as [[e|] d1]; [done|]. by exists d1. Qed.
Lemma tree_file_insert (t : tree) l s c : Forall clean_segment (l ++ [s]) -> is_dir t (path_of (l ++ [s])) = false ->
  tree_ReadFile (<[path_of (l ++ [s]) := FileNode c]> t) (path_of (l ++ [s])) = Ok c.
Proof.
  intros Hl Hd. unfold tree_ReadFile. rewrite path_clean_path_of by done. unfold is_dir in *. rewrite lookup_insert_eq.
  apply orb_false_iff in Hd as [-> _]. done.
Qed.
(** The file that was written reads back; no other path changes but for the directories above. *)
Lemma write_private_ok l s pattern data (d d' : D) : disk_ok d -> Forall clean_segment (l ++ [s]) ->
  write_private told (path_of (l ++ [s])) pattern data d = (None, d') -> disk_ok d' /\ ReadFile d' (path_of (l ++ [s])) = Ok data.
Proof.
  intros Hd Hl Hw. assert (Forall clean_segment l /\ clean_segment s) as [Hl' Hs] by (by apply clean_snoc in Hl).
  unfold write_private in Hw. apply stage_ok in Hw as (d1 & Hm & Hw). rewrite path_dir_snoc in Hm, Hw by done.
  pose proof (does_MkdirAll d l Hd Hl') as Hk. rewrite Hm in Hk. destruct Hk as [Hd1 _].
  destruct (CreateTemp (path_of l) pattern d1) as [[tempPath|] d2] eqn:Ec; [|done].
  pose proof (does_CreateTemp d1 l pattern Hd1 Hl') as Hk. rewrite Ec in Hk. destruct Hk as [Hd2 Hk].
  destruct (Hk _ eq_refl) as (name & Hname & -> & _ & _ & Hv2). clear Hk.
  assert (Forall clean_segment (l ++ [name])) as Hln by (by apply clean_snoc).
  apply stage_ok in Hw as (d3 & Hw3 & Hw). pose proof (does_WriteOpen d2 (l ++ [name]) data Hd2 Hln) as Hk. rewrite Hw3 in Hk. destruct Hk as [Hd3 Hk]. specialize (Hk eq_refl).
  apply stage_ok in Hw as (d4 & Hw4 & Hw). pose proof (does_ChmodOpen d3 (l ++ [name]) user_only Hd3 Hln) as Hk4. rewrite Hw4 in Hk4. destruct Hk4 as [Hd4 Hv4].
  apply stage_ok in Hw as (d5 & Hw5 & Hw). pose proof (does_CloseOpen d4 (l ++ [name]) Hd4 Hln) as Hk5. rewrite Hw5 in Hk5. destruct Hk5 as [Hd5 Hv5].
  apply stage_ok in Hw as (d6 & Hw6 & [= <-]). pose proof (does_Rename d5 (l ++ [name]) (l ++ [s]) Hd5 Hln Hl) as Hk6. rewrite Hw6 in Hk6. destruct Hk6 as [Hd6 Hr].
  split; [done|]. specialize (Hr eq_refl). unfold tree_Rename in Hr. rewrite !path_clean_path_of in Hr by done.
  rewrite Hv5, Hv4, Hk, lookup_insert_eq in Hr. destruct (is_dir _ (path_of (l ++ [s]))) eqn:Ed; [done|]. destruct (is_dir _ (path_dir _)); [|done].
  injection Hr as Hr. pose proof (reads_file d6 (l ++ [s]) Hd6 Hl) as Ha. rewrite <-Hr in Ha.
  rewrite tree_file_insert in Ha; [|done|].
  - by destruct (ReadFile d6 _); cbn in Ha; [subst|].
  - rewrite is_dir_node in Ed |- * by done. apply bool_decide_eq_false. apply bool_decide_eq_false in Ed. rewrite node_at_snoc in Ed |- *.
    intros [_ ?]%lookup_delete_Some. done.
Qed.
End facts.
