(* ===== verification/PathDescriptor.v ===== *)
(** * Targets of metadata

    Models [src/metadata/path_descriptor.go]: the selector a logical path stands for, and whether
    it names a collection. *)
From S2P Require Import Prelude GoText GoTextFacts GoGlob Faults Paths.

Record PathDescriptor := { pd_Selector : string; pd_Segments : list string; pd_Collection : bool; SelectorMode : bool }.

(** [strings.ContainsAny(segment, "*?[")]. *)
Definition hasWildcardPattern (segment : string) : bool :=
  contains_byte (fun c => bool_decide (c ∈ ["*"; "?"; "["]%char)) segment.
Definition bad_pattern : error := errorf "syntax error in pattern".
Definition joinPathSegments (segments : list string) : string := match segments with [] => "" | _ => str_join "/" segments end.
Fixpoint check_patterns (segments : list string) : result error unit :=
  match segments with
  | [] => Ok tt
  | segment :: segments =>
      if hasWildcardPattern segment && bool_decide (path_match segment "sample" = None)
      then Err (NewTypedError ValidationError "logical path contains invalid wildcard expression" (Some bad_pattern))
      else check_patterns segments
  end.
Definition is_selector_segment (segment : string) : bool := (segment == "_") || hasWildcardPattern segment.
Definition ParsePathDescriptor (logicalPath : string) : result error PathDescriptor :=
  parsedPath ← ParseRawPathWithOptions false logicalPath;
  let segments := Segments parsedPath in
  check_patterns segments;;
  let collectionTarget := (Normalized parsedPath == "/") || ExplicitCollectionTarget parsedPath in
  let last_wild := match last segments with Some s => s == "_" | None => false end in
  let segments := if last_wild then removelast segments else segments in
  let selecting := last_wild || existsb is_selector_segment segments in
  let selectorMode := collectionTarget || selecting in
  let collectionTarget := collectionTarget || selecting in
  let selector :=
    match segments with
    | [] => "/"
    | _ => if negb (length segments =? length (Segments parsedPath)) || collectionTarget
           then "/" +:+ joinPathSegments segments else Normalized parsedPath
    end in
  let selector := path_clean selector in
  if negb (has_prefix selector "/") then Err (NewTypedError ValidationError "logical path must be absolute" None)
  else
    let selector := if negb (selector == "/") then trim_suffix selector "/" else selector in
    Ok {| pd_Selector := selector; pd_Segments := SplitRawPathSegments selector; pd_Collection := collectionTarget;
          SelectorMode := selectorMode |}.
