(* ===== verification/Value.v ===== *)
(** * Payload values: [any], [resource.Normalize], [DeepCopyValue]

    [value] is the Go type [any] as payloads use it, one constructor per dynamic
    type that a type switch of the code tells apart. Models
    [src/resource/normalize.go], [DeepCopyValue] of
    [src/resource/jsonpointer.go] and [reflect.DeepEqual] on payload values. A Go map
    is a [gmap] and a slice a [list]: nil and empty ones are the same value here,
    and [Normalize] returns non-nil ones throughout. *)
From S2P Require Import Prelude GoText GoFloat Faults.
Local Open Scope Z_scope.

Inductive int_kind := KInt | KInt8 | KInt16 | KInt32.
Inductive uint_kind := KUint | KUint8 | KUint16 | KUint32 | KUint64.

Inductive value :=
| VNil
| VBool (b : bool)
| VInt64 (z : Z)
| VIntK (k : int_kind) (z : Z)
| VUintK (k : uint_kind) (z : Z)
| VFloat32 (f : spec_float)
| VFloat64 (f : spec_float)
| VNumber (s : string) (* json.Number: a number literal of the JSON decoder *)
| VString (s : string)
| VBytes (s : string) (* []byte *)
| VBinary (s : string) (* BinaryValue *)
| VBinaryPtr (o : option string) (* *BinaryValue *)
| VList (l : list value) (* []any *)
| VMap (m : gmap string value) (* map[string]any *)
| VTypedList (l : list value) (* any other slice or array *)
| VTypedMap (m : gmap string value) (* any other map with string keys *)
| VBadMap (tname : string) (* a map with other keys *)
| VOther (tname : string) (stringer : option string).
  (* any other type, by its name, and its String() if it is a fmt.Stringer *)

Abbreviation object := (gmap string value).

#[export] Instance int_kind_eq_dec : EqDecision int_kind. Proof. solve_decision. Defined.
#[export] Instance uint_kind_eq_dec : EqDecision uint_kind. Proof. solve_decision. Defined.
#[export] Instance value_eq_dec : EqDecision value.
Proof.
  refine (fix go (v w : value) {struct v} : Decision (v = w) :=
    let rec_dec : EqDecision value := @go in
    match v, w with
    | VNil, VNil => left eq_refl
    | VBool a, VBool b => cast_if (decide (a = b))
    | VInt64 a, VInt64 b => cast_if (decide (a = b))
    | VIntK k a, VIntK l b => cast_if_and (decide (k = l)) (decide (a = b))
    | VUintK k a, VUintK l b => cast_if_and (decide (k = l)) (decide (a = b))
    | VFloat32 a, VFloat32 b => cast_if (decide (a = b))
    | VFloat64 a, VFloat64 b => cast_if (decide (a = b))
    | VNumber a, VNumber b => cast_if (decide (a = b))
    | VString a, VString b => cast_if (decide (a = b))
    | VBytes a, VBytes b => cast_if (decide (a = b))
    | VBinary a, VBinary b => cast_if (decide (a = b))
    | VBinaryPtr a, VBinaryPtr b => cast_if (decide (a = b))
    | VList a, VList b => cast_if (decide (a = b))
    | VMap a, VMap b => cast_if (decide (a = b))
    | VTypedList a, VTypedList b => cast_if (decide (a = b))
    | VTypedMap a, VTypedMap b => cast_if (decide (a = b))
    | VBadMap a, VBadMap b => cast_if (decide (a = b))
    | VOther a x, VOther b y => cast_if_and (decide (a = b)) (decide (x = y))
    | _, _ => right _
    end); clear rec_dec go; abstract congruence.
Defined.

(** The type assertions [v.(map[string]any)] and [v.([]any)]. *)
Definition as_object (v : value) : option object :=
  match v with VMap m => Some m | _ => None end.
Definition as_list (v : value) : option (list value) :=
  match v with VList l => Some l | _ => None end.
Definition is_nil (v : value) : bool := match v with VNil => true | _ => false end.

(** ** Induction *)
Fixpoint value_size (v : value) : nat :=
  match v with
  | VList l | VTypedList l => S (sum_list_with value_size l)
  | VMap m | VTypedMap m => S (map_fold (fun _ v n => value_size v + n)%nat 0%nat m)
  | _ => 1%nat
  end.

Lemma map_fold_size_lookup (m : object) k v :
  m !! k = Some v -> (value_size v <= map_fold (fun _ v n => value_size v + n) 0 m)%nat.
Proof.
  intros H. rewrite (map_fold_delete_L _ _ k v m); [lia|intros; lia|done].
Qed.
Lemma sum_list_size_elem (l : list value) v :
  v ∈ l -> (value_size v <= sum_list_with value_size l)%nat.
Proof. induction 1; cbn; lia. Qed.

Section induction.
Context (P : value -> Prop).
Context (Hleaf : forall v, as_list v = None -> as_object v = None ->
  (forall l, v <> VTypedList l) -> (forall m, v <> VTypedMap m) -> P v).
Context (Hlist : forall l, Forall P l -> P (VList l)) (Hmap : forall m, map_Forall (fun _ => P) m -> P (VMap m)).
Context (Htlist : forall l, Forall P l -> P (VTypedList l)).
Context (Htmap : forall m, map_Forall (fun _ => P) m -> P (VTypedMap m)).

Lemma value_ind_size n v : (value_size v <= n)%nat -> P v.
Proof.
  revert v. induction n as [|n IH]; intros v; [destruct v; cbn; lia|].
  assert (forall l, (sum_list_with value_size l <= n)%nat -> Forall P l) as Hl.
  { intros l Hn. apply Forall_forall. intros w Hw. apply IH.
    apply sum_list_size_elem in Hw. lia. }
  assert (forall m : object, (map_fold (fun _ v n => value_size v + n) 0 m <= n)%nat ->
    map_Forall (fun _ => P) m) as Hm.
  { intros m Hn k w Hw. apply IH. apply map_fold_size_lookup in Hw. lia. }
  destruct v; intros Hn; try (apply Hleaf; done).
  - apply Hlist, Hl. apply le_S_n, Hn.
  - apply Hmap, Hm. apply le_S_n, Hn.
  - apply Htlist, Hl. apply le_S_n, Hn.
  - apply Htmap, Hm. apply le_S_n, Hn.
Qed.
Lemma value_ind' v : P v.
Proof. by apply (value_ind_size (value_size v)). Qed.
End induction.

(** Induction on a [value], the name of the induction hypothesis of containers
    being [IH]. *)
Ltac value_ind v :=
  pattern v; apply value_ind'; clear v;
  [let v := fresh "v" in intros v ? ? ? ?; destruct v; simplify_eq/=;
   try match goal with
   | H : forall l, VTypedList ?k <> VTypedList l |- _ => by destruct (H k)
   | H : forall m, VTypedMap ?n <> VTypedMap m |- _ => by destruct (H n)
   end
  |intros l IH|intros m IH|intros l IH|intros m IH].

(** ** Deep copies

    [DeepCopyValue] copies the maps and slices of a payload: as a value the copy is
    the original. *)
Fixpoint DeepCopyValue (v : value) : value :=
  match v with
  | VMap m => VMap (DeepCopyValue <$> m)
  | VList l => VList (map DeepCopyValue l)
  | _ => v
  end.

Lemma DeepCopyValue_id v : DeepCopyValue v = v.
Proof.
  value_ind v; cbn; try done; f_equal.
  - induction IH; cbn; congruence.
  - rewrite <-(map_fmap_id m) at 2. apply map_fmap_ext. intros k v H. by rewrite (IH _ _ H).
Qed.
Lemma fmap_DeepCopyValue (m : object) : DeepCopyValue <$> m = m.
Proof. rewrite <-(map_fmap_id m) at 2. apply map_fmap_ext. intros. apply DeepCopyValue_id. Qed.

(** ** Normalize *)
Definition CloneBinaryValue (s : string) : string := s.

Definition normalizeFloat (f : spec_float) : result error value :=
  if float_is_nan f || float_is_inf f
  then Err (Invalid "payload contains non-finite float" None) else Ok (VFloat64 f).
Definition normalizeUint (z : Z) : result error value :=
  if max_int64 <? z then Err (Invalid "payload contains integer out of range" None)
  else Ok (VInt64 z).
(** The error of [json.Number.Float64] on a JSON literal, which can only be out
    of range. *)
Definition parse_float_error (s : string) : error :=
  errorf ("strconv.ParseFloat: parsing " +:+ String "034" s +:+ String "034" ": value out of range").
Definition normalizeJSONNumber (s : string) : result error value :=
  match parse_int64 s with
  | Some z => Ok (VInt64 z)
  | None =>
      match parse_dec s with
      | Some z =>
          if is_int64 z then Ok (VInt64 z)
          else Err (Invalid "payload contains integer out of range" None)
      | None =>
          match parse_float s with
          | None => Err (Invalid "payload contains invalid number" (Some (parse_float_error s)))
          | Some f => normalizeFloat f
          end
      end
  end.

(** A [float32] is stored as the float64 it converts to exactly. *)
Fixpoint normalizeValue (v : value) : result error value :=
  match v with
  | VNil | VBool _ | VString _ => Ok v
  | VBinary s => Ok (VBinary (CloneBinaryValue s))
  | VBinaryPtr None => Ok VNil
  | VBinaryPtr (Some s) => Ok (VBinary (CloneBinaryValue s))
  | VBytes s => Ok (VBinary s)
  | VFloat32 f => normalizeFloat f
  | VFloat64 f => normalizeFloat f
  | VIntK _ z => Ok (VInt64 z)
  | VInt64 z => Ok (VInt64 z)
  | VUintK _ z => normalizeUint z
  | VNumber s => normalizeJSONNumber s
  | VList l => k ← sequence (map normalizeValue l); Ok (VList k)
  | VMap m => r ← map_sequence (normalizeValue <$> m); Ok (VMap r)
  | VTypedMap m => r ← map_sequence (normalizeValue <$> m); Ok (VMap r)
  | VBadMap _ => Err (Invalid "payload map keys must be strings" None)
  | VTypedList l => k ← sequence (map normalizeValue l); Ok (VList k)
  | VOther t _ => Err (NewTypedError ValidationError ("unsupported payload type " +:+ t) None)
  end.
Definition Normalize (v : value) : result error value := normalizeValue v.

(** The values of Go: integers within the range of their type. *)
Definition int_bits (k : int_kind) : Z :=
  match k with KInt => 64 | KInt8 => 8 | KInt16 => 16 | KInt32 => 32 end.
Definition uint_bits (k : uint_kind) : Z :=
  match k with KUint | KUint64 => 64 | KUint8 => 8 | KUint16 => 16 | KUint32 => 32 end.
Inductive wf_value : value -> Prop :=
| wf_int64 z : is_int64 z = true -> wf_value (VInt64 z)
| wf_intk k z : - 2 ^ (int_bits k - 1) <= z < 2 ^ (int_bits k - 1) -> wf_value (VIntK k z)
| wf_uintk k z : 0 <= z < 2 ^ uint_bits k -> wf_value (VUintK k z)
| wf_list l : Forall wf_value l -> wf_value (VList l)
| wf_map m : map_Forall (fun _ => wf_value) m -> wf_value (VMap m)
| wf_typed_list l : Forall wf_value l -> wf_value (VTypedList l)
| wf_typed_map m : map_Forall (fun _ => wf_value) m -> wf_value (VTypedMap m)
| wf_leaf v : match v with
    | VNil | VBool _ | VFloat32 _ | VFloat64 _ | VNumber _ | VString _ | VBytes _ | VBinary _
    | VBinaryPtr _ | VBadMap _ | VOther _ _ => True
    | _ => False
    end -> wf_value v.

(** The value space of [Normalize]. *)
Definition finite (f : spec_float) : bool := negb (float_is_nan f || float_is_inf f).
Inductive normal : value -> Prop :=
| normal_nil : normal VNil
| normal_bool b : normal (VBool b)
| normal_string s : normal (VString s)
| normal_binary s : normal (VBinary s)
| normal_int z : is_int64 z = true -> normal (VInt64 z)
| normal_float f : finite f = true -> normal (VFloat64 f)
| normal_list l : Forall normal l -> normal (VList l)
| normal_map m : map_Forall (fun _ => normal) m -> normal (VMap m).

Lemma normalizeFloat_Ok f v : normalizeFloat f = Ok v <-> finite f = true /\ v = VFloat64 f.
Proof. unfold normalizeFloat, finite. destruct (_ || _); cbn; naive_solver. Qed.
Lemma normalizeUint_Ok z v : normalizeUint z = Ok v <-> z <= max_int64 /\ v = VInt64 z.
Proof. unfold normalizeUint. destruct (Z.ltb_spec max_int64 z); split; intros; inv_result; naive_solver lia. Qed.
Lemma parse_int64_is_int64 s z : parse_int64 s = Some z -> is_int64 z = true.
Proof.
  unfold parse_int64. destruct (parse_dec s) as [y|]; cbn; [|done].
  destruct (is_int64 y) eqn:E; naive_solver.
Qed.
Lemma normalizeJSONNumber_normal s v : normalizeJSONNumber s = Ok v -> normal v.
Proof.
  unfold normalizeJSONNumber. destruct (parse_int64 s) as [z|] eqn:Ez.
  { intros. inv_result. constructor. eauto using parse_int64_is_int64. }
  destruct (parse_dec s) as [z|].
  - destruct (is_int64 z) eqn:E; intros; inv_result. by constructor.
  - destruct (parse_float s); [|done]. intros (? & ->)%normalizeFloat_Ok. by constructor.
Qed.

Lemma is_int64_spec z : is_int64 z = true <-> min_int64 <= z <= max_int64.
Proof. unfold is_int64. rewrite andb_true_iff, !Z.leb_le. done. Qed.
Lemma int_range_int64 k z :
  - 2 ^ (int_bits k - 1) <= z < 2 ^ (int_bits k - 1) -> is_int64 z = true.
Proof. rewrite is_int64_spec. unfold min_int64, max_int64. destruct k; cbn; lia. Qed.

(** Inversion of the well-formedness of a container. *)
Lemma wf_list_inv l : wf_value (VList l) -> Forall wf_value l.
Proof. inversion 1; by subst. Qed.
Lemma wf_map_inv m : wf_value (VMap m) -> map_Forall (fun _ => wf_value) m.
Proof. inversion 1; by subst. Qed.
Lemma wf_typed_list_inv l : wf_value (VTypedList l) -> Forall wf_value l.
Proof. inversion 1; by subst. Qed.
Lemma wf_typed_map_inv m : wf_value (VTypedMap m) -> map_Forall (fun _ => wf_value) m.
Proof. inversion 1; by subst. Qed.
Lemma normal_list_inv l : normal (VList l) -> Forall normal l.
Proof. inversion 1; by subst. Qed.
Lemma normal_map_inv m : normal (VMap m) -> map_Forall (fun _ => normal) m.
Proof. inversion 1; by subst. Qed.

Lemma normalize_elems_normal l k :
  Forall (fun v => forall w, wf_value v -> normalizeValue v = Ok w -> normal w) l ->
  Forall wf_value l -> sequence (map normalizeValue l) = Ok k -> Forall normal k.
Proof.
  intros IH Hwf Hk. apply sequence_map_Ok in Hk.
  induction Hk; inversion IH; inversion Hwf; subst; constructor; eauto.
Qed.
Lemma normalize_fields_normal (m r : object) :
  map_Forall (fun _ v => forall w, wf_value v -> normalizeValue v = Ok w -> normal w) m ->
  map_Forall (fun _ => wf_value) m -> map_sequence (normalizeValue <$> m) = Ok r ->
  map_Forall (fun _ => normal) r.
Proof.
  intros IH Hwf Hr k w Hw. rewrite map_sequence_Ok in Hr. specialize (Hr k).
  rewrite Hw, lookup_fmap in Hr. destruct (m !! k) as [v|] eqn:Hv; [|done]. cbn in Hr. injection Hr as Hr.
  eapply IH; eauto.
Qed.

Lemma normalizeValue_normal v : forall w, wf_value v -> normalizeValue v = Ok w -> normal w.
Proof.
  value_ind v; cbn; intros w Hwf Hw; inv_result; try (by constructor).
  - constructor. by inversion Hwf.
  - constructor. inversion Hwf; subst; [|done]. by eapply int_range_int64.
  - apply normalizeUint_Ok in Hw as [? ->]. constructor. apply is_int64_spec.
    inversion Hwf; subst; [|done]. unfold min_int64. lia.
  - apply normalizeFloat_Ok in Hw as [? ->]. by constructor.
  - apply normalizeFloat_Ok in Hw as [? ->]. by constructor.
  - by eapply normalizeJSONNumber_normal.
  - destruct o; inv_result; constructor.
  - constructor. eauto using normalize_elems_normal, wf_list_inv.
  - constructor. eauto using normalize_fields_normal, wf_map_inv.
  - constructor. eauto using normalize_elems_normal, wf_typed_list_inv.
  - constructor. eauto using normalize_fields_normal, wf_typed_map_inv.
Qed.

(** A value of the normal form is its own normalization. *)
Lemma normalizeValue_id v : normal v -> normalizeValue v = Ok v.
Proof.
  value_ind v; intros Hn; cbn; try done; try (by inversion Hn).
  - inversion Hn as [| | | | |f' Hf| |]; subst. by apply normalizeFloat_Ok.
  - replace (sequence _) with (Ok (E := error) l); [done|]. symmetry. apply sequence_map_Ok.
    apply normal_list_inv in Hn. induction Hn; inversion IH; subst; constructor; auto.
  - replace (map_sequence _) with (Ok (E := error) m); [done|]. symmetry. apply map_sequence_Ok.
    apply normal_map_inv in Hn. intros k. rewrite lookup_fmap.
    destruct (m !! k) as [v|] eqn:Hv; cbn; [|done]. f_equal. by eapply IH; [|eapply Hn].
Qed.

Lemma normal_lookup (m : object) k v : normal (VMap m) -> m !! k = Some v -> normal v.
Proof. intros Hn%normal_map_inv H. by eapply Hn. Qed.

(** Deciding the normal form, for concrete values. *)
Fixpoint normalb (v : value) : bool :=
  match v with
  | VNil | VBool _ | VString _ | VBinary _ => true
  | VInt64 z => is_int64 z
  | VFloat64 f => finite f
  | VList l => forallb normalb l
  | VMap m => (omap (fun b => if b : bool then None else Some tt) (normalb <$> m)) == (∅ : gmap string unit)
  | _ => false
  end.
Lemma normalb_normal v : normalb v = true -> normal v.
Proof.
  value_ind v; cbn; intros H; try done; try (by constructor).
  - constructor. revert H. induction IH as [|v l Hv _ IHl]; cbn; [by constructor|].
    intros [? ?]%andb_true_iff. constructor; auto.
  - constructor. apply bool_decide_eq_true in H. intros k v Hv. eapply IH; [exact Hv|].
    apply (f_equal (lookup k)) in H. rewrite lookup_omap, lookup_fmap, Hv, lookup_empty in H. cbn in H.
    by destruct (normalb v).
Qed.
Lemma normal_wf v : normal v -> wf_value v.
Proof.
  value_ind v; intros Hn; try (by apply wf_leaf); try (by inversion Hn).
  - apply wf_int64. by inversion Hn.
  - apply wf_list. apply normal_list_inv in Hn. rewrite Forall_forall in *. auto.
  - apply wf_map. apply normal_map_inv in Hn. intros k v Hv. eapply IH; [exact Hv|]. by eapply Hn.
Qed.

(** The shape of a normalized value is that of its source. *)
Lemma normalizeValue_object v m :
  normalizeValue v = Ok (VMap m) ->
  exists m', (v = VMap m' \/ v = VTypedMap m') /\ forall k, (m !! k = None <-> m' !! k = None).
Proof.
  assert (forall m' r, map_sequence (normalizeValue <$> m') = Ok r ->
    forall k, r !! k = None <-> m' !! k = None) as Hdom.
  { intros m' r Hr k. rewrite map_sequence_Ok in Hr. specialize (Hr k).
    rewrite lookup_fmap in Hr. destruct (m' !! k), (r !! k); cbn in Hr; naive_solver. }
  destruct v; cbn; intros H; inv_result; try congruence; eauto.
  - by apply normalizeUint_Ok in H as [_ ?].
  - by apply normalizeFloat_Ok in H as [_ ?].
  - by apply normalizeFloat_Ok in H as [_ ?].
  - apply normalizeJSONNumber_normal in H as Hn. unfold normalizeJSONNumber in H.
    destruct (parse_int64 s); [done|]. destruct (parse_dec s); [destruct (is_int64 _); done|].
    destruct (parse_float s); [|done]. by apply normalizeFloat_Ok in H as [_ ?].
  - destruct o; naive_solver.
Qed.

(** Every failure of [Normalize] is a validation error. *)
Definition is_invalid (e : error) : Prop := exists msg cause, e = Invalid msg cause.
Lemma map_sequence_Err {E A} (m : gmap string (result E A)) e :
  map_sequence m = Err e -> exists k, m !! k = Some (Err e).
Proof.
  unfold map_sequence. destruct (first_err m (sorted_keys m)) as [e'|] eqn:H; [|done]. intros [= ->].
  induction (sorted_keys m) as [|k ks IH]; cbn in H; [done|].
  destruct (m !! k) as [[a|e']|] eqn:Hk; [eauto| |eauto]. injection H as ->. eauto.
Qed.
Lemma normalizeValue_Err v : forall e, normalizeValue v = Err e -> is_invalid e.
Proof.
  assert (forall f e, normalizeFloat f = Err e -> is_invalid e) as Hf.
  { intros f e. unfold normalizeFloat. destruct (_ || _); [|done]. intros [= <-]. repeat eexists. }
  assert (forall l, Forall (fun v => forall e, normalizeValue v = Err e -> is_invalid e) l ->
    forall e, sequence (map normalizeValue l) = Err e -> is_invalid e) as Hl.
  { intros l IH e H%sequence_Err. apply list_elem_of_fmap in H as (w & Hw & Hin).
    rewrite Forall_forall in IH. by eapply IH. }
  assert (forall m : object, map_Forall (fun _ v => forall e, normalizeValue v = Err e -> is_invalid e) m ->
    forall e, map_sequence (normalizeValue <$> m) = Err e -> is_invalid e) as Hm.
  { intros m IH e (k & H)%map_sequence_Err. rewrite lookup_fmap in H.
    destruct (m !! k) as [w|] eqn:Hw; [|done]. injection H as H. by eapply IH. }
  value_ind v; cbn; intros e H; try done; eauto.
  - unfold normalizeUint in H. destruct (_ <? _); [|done]. injection H as <-. repeat eexists.
  - unfold normalizeJSONNumber in H. destruct (parse_int64 s); [done|].
    destruct (parse_dec s); [destruct (is_int64 _); [done|]; injection H as <-; repeat eexists|].
    destruct (parse_float s); [eauto|]. injection H as <-. repeat eexists.
  - by destruct o.
  - injection H as <-. repeat eexists.
  - injection H as <-. repeat eexists.
  - apply bind_Err in H as [H|(? & ? & H)]; [eauto|done].
  - apply bind_Err in H as [H|(? & ? & H)]; [eauto|done].
  - apply bind_Err in H as [H|(? & ? & H)]; [eauto|done].
  - apply bind_Err in H as [H|(? & ? & H)]; [eauto|done].
Qed.

(** ** Deep equality

    [reflect.DeepEqual] on normalized payloads: floats compare numerically (so
    the zeros are equal), the other scalars by type and value. Values outside the
    normal form are never compared by the code modelled here; two of them count
    as equal when they are the same value. *)
Fixpoint deep_equal (v w : value) : bool :=
  match v, w with
  | VFloat64 f, VFloat64 g => float_eq f g
  | VList l, VList k =>
      (fix go (l k : list value) : bool :=
         match l, k with
         | [], [] => true
         | x :: l, y :: k => deep_equal x y && go l k
         | _, _ => false
         end) l k
  | VMap m, VMap n =>
      (merge (fun x y => match x, y with
                         | Some f, Some y => if f y : bool then None else Some tt
                         | None, None => None
                         | _, _ => Some tt
                         end) (deep_equal <$> m) n) == (∅ : gmap string unit)
  | _, _ => v == w
  end.

(** Deep equality is equality up to the sign of zeros: [canon] erases it. *)
Definition canon_float (f : spec_float) : spec_float :=
  match f with S754_zero _ => S754_zero false | _ => f end.
Fixpoint canon (v : value) : value :=
  match v with
  | VFloat64 f => VFloat64 (canon_float f)
  | VList l => VList (map canon l)
  | VMap m => VMap (canon <$> m)
  | _ => v
  end.

Lemma float_eq_canon f g :
  finite f = true -> finite g = true -> float_eq f g = true <-> canon_float f = canon_float g.
Proof.
  intros Hf Hg. destruct f as [s| | |s m e], g as [t| | |t n d]; try discriminate;
    try (by destruct s, t); try (by destruct s); try (by destruct t).
  unfold float_eq, SFeqb, SFcompare, canon_float. destruct s, t; try done;
    (trans (e = d /\ m = n); [|naive_solver congruence]);
    change (Pos.compare_cont Eq m n) with (Pos.compare m n);
    destruct (Z.compare_spec e d), (Pos.compare_spec m n); cbn; naive_solver lia.
Qed.

Lemma deep_equal_list l k :
  deep_equal (VList l) (VList k) = true <-> Forall2 (fun v w => deep_equal v w = true) l k.
Proof.
  split.
  - revert k. induction l as [|v l IH]; intros [|w k]; cbn; try done.
    intros [H1 H2]%andb_true_iff. constructor; [done|]. by apply IH.
  - induction 1 as [|v w l k H _ IH]; [done|]. cbn in *. by rewrite H.
Qed.
Lemma deep_equal_map m n :
  deep_equal (VMap m) (VMap n) = true <->
  forall k, option_Forall2 (fun v w => deep_equal v w = true) (m !! k) (n !! k).
Proof.
  cbn [deep_equal]. rewrite bool_decide_eq_true. split.
  - intros H k. assert (E := f_equal (lookup k) H). rewrite lookup_empty, lookup_merge, lookup_fmap in E.
    destruct (m !! k) as [v|], (n !! k) as [w|]; cbn in E; try done; [|constructor].
    destruct (deep_equal v w) eqn:?; [by constructor|done].
  - intros H. apply map_eq. intros k. rewrite lookup_empty, lookup_merge, lookup_fmap.
    destruct (H k) as [v w E|]; cbn; [by rewrite E|done].
Qed.

Lemma deep_equal_canon v : forall w, normal v -> normal w ->
  deep_equal v w = true <-> canon v = canon w.
Proof.
  value_ind v; intros w Hv Hw; try (by inversion Hv);
    try (destruct w; cbn; rewrite ?bool_decide_eq_true; split; intros; congruence).
  - inversion Hv; subst. destruct w; try (cbn; rewrite ?bool_decide_eq_true; split; intros; congruence).
    inversion Hw; subst. cbn. rewrite float_eq_canon by done. naive_solver congruence.
  - destruct w as [| | | | | | | | | | | |k| | | | |]; try (cbn; rewrite ?bool_decide_eq_true; split; intros; congruence).
    rewrite deep_equal_list. apply normal_list_inv in Hv, Hw. cbn.
    trans (map canon l = map canon k); [|naive_solver congruence].
    revert k Hw. induction l as [|v l IHl]; intros [|w k] Hw; cbn.
    1-3: split; intros H; inversion H; constructor.
    inversion Hv; inversion Hw; inversion IH; subst. rewrite Forall2_cons, IHl by done.
    naive_solver congruence.
  - destruct w as [| | | | | | | | | | | | |n| | | |]; try (cbn; rewrite ?bool_decide_eq_true; split; intros; congruence).
    rewrite deep_equal_map. apply normal_map_inv in Hv, Hw. cbn.
    trans (canon <$> m = canon <$> n); [|naive_solver congruence].
    rewrite map_eq_iff. apply forall_proper. intros k. rewrite !lookup_fmap.
    destruct (m !! k) as [v|] eqn:Em, (n !! k) as [w|] eqn:En; cbn;
      (split; [intros H; inversion H; subst|intros H; simplify_eq; try constructor]); try done.
    + f_equal. eapply IH; [exact Em|by eapply Hv|by eapply Hw|done].
    + eapply IH; [exact Em|by eapply Hv|by eapply Hw|done].
Qed.

Lemma deep_equal_refl v : normal v -> deep_equal v v = true.
Proof. intros H. by apply deep_equal_canon. Qed.
Lemma canon_idemp v : canon (canon v) = canon v.
Proof.
  value_ind v; cbn; try done.
  - by destruct f.
  - f_equal. induction IH; cbn; congruence.
  - f_equal. rewrite <-map_fmap_compose. apply map_fmap_ext. intros k v H. cbn. by eapply IH.
Qed.

(** ** What [Normalize] rejects

    [subvalue u v]: [u] occurs in [v], itself included. *)
Inductive subvalue (u : value) : value -> Prop :=
| sub_refl : subvalue u u
| sub_list l v : v ∈ l -> subvalue u v -> subvalue u (VList l)
| sub_map m k v : m !! k = Some v -> subvalue u v -> subvalue u (VMap m)
| sub_typed_list l v : v ∈ l -> subvalue u v -> subvalue u (VTypedList l)
| sub_typed_map m k v : m !! k = Some v -> subvalue u v -> subvalue u (VTypedMap m).

(** The values the comment of [Normalize] lists as losing precision, and the types
    no payload has. *)
Definition unsupported (v : value) : bool :=
  match v with
  | VUintK _ z => max_int64 <? z
  | VFloat32 f | VFloat64 f => negb (finite f)
  | VNumber s =>
      match parse_dec s with
      | Some z => negb (is_int64 z)
      | None => match parse_float s with Some f => negb (finite f) | None => true end
      end
  | VBadMap _ | VOther _ _ => true
  | _ => false
  end.

Lemma normalizeFloat_is_ok f : is_ok (normalizeFloat f) = finite f.
Proof. unfold normalizeFloat, finite. by destruct (_ || _). Qed.
Lemma sequence_is_ok {E A} (l : list (result E A)) :
  is_ok (sequence l) = true <-> Forall (fun r => is_ok r = true) l.
Proof.
  induction l as [|[a|e] l IH]; cbn; [by split|..]; rewrite Forall_cons.
  - rewrite <-IH. destruct (sequence l); naive_solver.
  - naive_solver.
Qed.
Lemma map_sequence_is_ok {E A} (m : gmap string (result E A)) :
  is_ok (map_sequence m) = true <-> map_Forall (fun _ r => is_ok r = true) m.
Proof.
  unfold map_sequence. destruct (first_err _ _) as [e|] eqn:He.
  - split; [done|]. intros H. exfalso.
    enough (first_err m (sorted_keys m) = None) by congruence.
    apply first_err_None. intros k e' _ Hk. by specialize (H _ _ Hk).
  - split; [|done]. intros _ k [a|e] Hk; [done|]. exfalso.
    rewrite first_err_None in He. eapply He; [|exact Hk]. apply elem_of_sorted_keys. eauto.
Qed.
Lemma bind_ret_is_ok {E A B} (r : result E A) (f : A -> B) :
  is_ok (a ← r; Ok (f a)) = is_ok r.
Proof. by destruct r. Qed.

Definition supported (v : value) : Prop := forall u, subvalue u v -> unsupported u = false.
Lemma supported_list l : Forall supported l <-> supported (VList l).
Proof.
  rewrite Forall_forall. split.
  - intros H u Hu. inversion Hu; subst; [done|]. by eapply H.
  - intros H v Hv u Hu. apply H. by eapply sub_list.
Qed.
Lemma supported_typed_list l : Forall supported l <-> supported (VTypedList l).
Proof.
  rewrite Forall_forall. split.
  - intros H u Hu. inversion Hu; subst; [done|]. by eapply H.
  - intros H v Hv u Hu. apply H. by eapply sub_typed_list.
Qed.
Lemma supported_map m : map_Forall (fun _ => supported) m <-> supported (VMap m).
Proof.
  split.
  - intros H u Hu. inversion Hu; subst; [done|]. by eapply H.
  - intros H k v Hv u Hu. apply H. by eapply sub_map.
Qed.
Lemma supported_typed_map m : map_Forall (fun _ => supported) m <-> supported (VTypedMap m).
Proof.
  split.
  - intros H u Hu. inversion Hu; subst; [done|]. by eapply H.
  - intros H k v Hv u Hu. apply H. by eapply sub_typed_map.
Qed.

Lemma normalize_list_ok l :
  Forall (fun v => is_ok (normalizeValue v) = true <-> supported v) l ->
  is_ok (sequence (map normalizeValue l)) = true <-> Forall supported l.
Proof.
  intros IH. rewrite sequence_is_ok, Forall_fmap. unfold compose. rewrite !Forall_forall in *.
  apply forall_proper. intros v. split; intros H Hv; apply IH; auto.
Qed.
Lemma normalize_map_ok (m : object) :
  map_Forall (fun _ v => is_ok (normalizeValue v) = true <-> supported v) m ->
  is_ok (map_sequence (normalizeValue <$> m)) = true <-> map_Forall (fun _ => supported) m.
Proof.
  intros IH. rewrite map_sequence_is_ok. unfold map_Forall in *. apply forall_proper. intros k. split.
  - intros H v Hv. eapply IH; [exact Hv|]. apply H. by rewrite lookup_fmap, Hv.
  - intros H r Hr. rewrite lookup_fmap in Hr. destruct (m !! k) as [v|] eqn:Hv; [|done].
    injection Hr as <-. eapply IH; eauto.
Qed.
Lemma supported_leaf v : as_list v = None -> as_object v = None ->
  (forall l, v <> VTypedList l) -> (forall m, v <> VTypedMap m) ->
  supported v <-> unsupported v = false.
Proof.
  intros Hl Hm Hl' Hm'. split; [intros H; apply H, sub_refl|].
  intros H u Hu. inversion Hu; subst; try done; naive_solver.
Qed.

Lemma normalizeValue_is_ok v : is_ok (normalizeValue v) = true <-> supported v.
Proof.
  pattern v; apply value_ind'; clear v.
  - intros v ? ? ? ?. rewrite supported_leaf by done. rewrite <-negb_true_iff.
    enough (is_ok (normalizeValue v) = negb (unsupported v)) as -> by done.
    destruct v; try done; cbn.
    + unfold normalizeUint. by destruct (_ <? _).
    + by rewrite normalizeFloat_is_ok, negb_involutive.
    + by rewrite normalizeFloat_is_ok, negb_involutive.
    + unfold normalizeJSONNumber, parse_int64. destruct (parse_dec s) as [z|]; cbn.
      * by destruct (is_int64 z).
      * destruct (parse_float s); [by rewrite normalizeFloat_is_ok, negb_involutive|done].
    + by destruct o.
    + naive_solver.
    + naive_solver.
  - intros l IH. cbn. by rewrite bind_ret_is_ok, normalize_list_ok, supported_list.
  - intros m IH. cbn. by rewrite bind_ret_is_ok, normalize_map_ok, supported_map.
  - intros l IH. cbn. by rewrite bind_ret_is_ok, normalize_list_ok, supported_typed_list.
  - intros m IH. cbn. by rewrite bind_ret_is_ok, normalize_map_ok, supported_typed_map.
Qed.

(** ** Properties *)

(** [C38] [Normalize] maps every Go value it accepts into the canonical value space
    of the comment (nil, bool, string, binary, int64 within its range, finite
    float64, slices and string-keyed maps of these, recursively), and normalizing
    the result again changes nothing. *)
Theorem normalize_canonical v w :
  wf_value v -> Normalize v = Ok w -> normal w /\ Normalize w = Ok w.
Proof.
  intros Hwf H. assert (normal w) as Hn by eauto using normalizeValue_normal.
  split; [done|]. by apply normalizeValue_id.
Qed.
Lemma normalize_canonical_witness :
  normal (VMap {[ "a" := VList [VInt64 7; VBinary "x"] ]})
  /\ Normalize (VMap {[ "a" := VList [VInt64 7; VBinary "x"] ]})
     = Ok (VMap {[ "a" := VList [VInt64 7; VBinary "x"] ]}).
Proof.
  apply (normalize_canonical (VMap {[ "a" := VTypedList [VUintK KUint8 7; VBytes "x"] ]})).
  - apply wf_map. intros k v [<- <-]%lookup_singleton_Some. apply wf_typed_list.
    repeat constructor; cbn; lia.
  - vm_compute. reflexivity.
Defined.

(** [C39] [Normalize] rejects exactly the payloads in which, at some depth, an
    unsigned integer or an integral JSON number is beyond int64, a float is NaN or
    infinite, a JSON number overflows, a map has keys other than strings, or a
    type is not a payload type; and every rejection is a [ValidationError]. *)
Theorem normalize_rejects_exactly v :
  (is_ok (Normalize v) = true <-> forall u, subvalue u v -> unsupported u = false)
  /\ match Normalize v with Err e => IsCategory (Some e) ValidationError = true | Ok _ => True end.
Proof.
  split; [apply normalizeValue_is_ok|]. destruct (Normalize v) as [|e] eqn:H; [done|].
  by apply normalizeValue_Err in H as (msg & cause & ->).
Qed.
