(* ===== verification/Pointer.v ===== *)
(** * JSON pointers

    Models [src/resource/jsonpointer.go]: parsing and escaping of RFC 6901
    pointers, and lookup, assignment and deletion through a payload. The code
    updates maps and slices in place; the functions here return the payload as it
    is after the call. Array indices are bounded by memory in the code (a slice of
    [index+1] elements is made), by nothing here. *)
From S2P Require Import Prelude GoText GoTextFacts GoFloat Faults Value.

Section pointer.
Context `{UnicodeTables}.

(** ** Parsing *)
Definition pointer_escape_error : error := Invalid "invalid JSON pointer escape" None.

(** The loop of [unescapeJSONPointerToken]. *)
Fixpoint unescape_go (s : string) : result error string :=
  match s with
  | EmptyString => Ok ""
  | String c s' =>
      if c == "~"%char then
        match s' with
        | EmptyString => Err pointer_escape_error
        | String d s'' =>
            if d == "0"%char then t ← unescape_go s''; Ok (String "~" t)
            else if d == "1"%char then t ← unescape_go s''; Ok (String "/" t)
            else Err pointer_escape_error
        end
      else t ← unescape_go s'; Ok (String c t)
  end.
Definition unescapeJSONPointerToken (token : string) : result error string :=
  if negb (contains_byte (fun c => c == "~"%char) token) then Ok token else unescape_go token.

Definition ParseJSONPointer (pointer : string) : result error (list string) :=
  let trimmed := trim_space pointer in
  if trimmed == "" then Ok []
  else if negb (has_prefix trimmed "/") then
    Err (Invalid ("invalid JSON pointer " +:+ quote pointer) None)
  else
    map_err (fun err => Invalid ("invalid JSON pointer " +:+ quote pointer) (Some err))
      (sequence (map unescapeJSONPointerToken (split_on slash (str_drop 1 trimmed)))).

Definition EscapeJSONPointerToken (token : string) : string :=
  replace_all (replace_all token "~" "~0") "/" "~1".
Definition JSONPointerFromTokens (tokens : list string) : string :=
  foldr (fun token s => "/" +:+ EscapeJSONPointerToken token +:+ s) "" tokens.
Definition JSONPointerForObjectKey (key : string) : string := JSONPointerFromTokens [key].

Definition parseJSONPointerArrayIndex (value : string) : option nat :=
  if value == "" then None
  else if negb (forallb (fun char => (48 <=? char)%Z && (char <=? 57)%Z) (runes value)) then None
  else Z.to_nat <$> parse_int64 value.

(** ** Lookup *)
Fixpoint lookup_tokens (current : value) (tokens : list string) : option value :=
  match tokens with
  | [] => Some current
  | token :: tokens =>
      match current with
      | VMap m => item ← m !! token; lookup_tokens item tokens
      | VList l =>
          index ← parseJSONPointerArrayIndex token;
          item ← l !! index; lookup_tokens item tokens
      | _ => None
      end
  end.
Definition LookupJSONPointer (v : value) (pointer : string) : result error (option value) :=
  tokens ← ParseJSONPointer pointer; Ok (lookup_tokens v tokens).

Definition jsonPointerScalarString (v : value) : string * bool :=
  match v with
  | VString s => (s, negb (s == ""))
  | VNumber s | VOther _ (Some s) => let text := trim_space s in (text, negb (text == ""))
  | VInt64 z | VIntK _ z | VUintK _ z => (itoa z, true)
  | VFloat32 f => (format_float32 f, true)
  | VFloat64 f => (format_float f, true)
  | VBool b => (if b then "true" else "false", true)
  | _ => ("", false)
  end.
Definition LookupJSONPointerString (v : value) (pointer : string) : result error (string * bool) :=
  item ← LookupJSONPointer v pointer;
  match item with None => Ok ("", false) | Some item => Ok (jsonPointerScalarString item) end.

(** ** Assignment *)
Definition grow (items : list value) (index : nat) : list value :=
  items ++ replicate (S index - length items) VNil.
Fixpoint setJSONPointerValue (root : value) (tokens : list string) (v : value) : result error value :=
  match tokens with
  | [] => Ok (DeepCopyValue v)
  | head :: tail =>
      match parseJSONPointerArrayIndex head with
      | Some index =>
          items ← match root with
                  | VNil => Ok (replicate (S index) VNil)
                  | VList l => Ok (grow l index)
                  | _ => Err (Invalid "JSON pointer expects array segment" None)
                  end;
          next ← setJSONPointerValue (default VNil (items !! index)) tail v;
          Ok (VList (<[index := next]> items))
      | None =>
          fields ← match root with
                   | VNil => Ok ∅
                   | VMap m => Ok m
                   | _ => Err (Invalid "JSON pointer expects object segment" None)
                   end;
          next ← setJSONPointerValue (default VNil (fields !! head)) tail v;
          Ok (VMap (<[head := next]> fields))
      end
  end.
Definition SetJSONPointerValue (root : value) (pointer : string) (v : value) : result error value :=
  tokens ← ParseJSONPointer pointer; setJSONPointerValue root tokens v.

(** ** Deletion: no branch fails *)
Fixpoint deleteJSONPointerValue (root : value) (tokens : list string) : value :=
  match tokens with
  | [] => VNil
  | head :: tail =>
      match parseJSONPointerArrayIndex head with
      | Some index =>
          match root with
          | VList items =>
              match items !! index with
              | None => root
              | Some item =>
                  match tail with
                  | [] => VList (delete index items)
                  | _ => VList (<[index := deleteJSONPointerValue item tail]> items)
                  end
              end
          | _ => root
          end
      | None =>
          match root with
          | VMap fields =>
              match tail with
              | [] => VMap (delete head fields)
              | _ =>
                  match fields !! head with
                  | None => root
                  | Some child =>
                      let next := deleteJSONPointerValue child tail in
                      if is_nil next then VMap (delete head fields)
                      else VMap (<[head := next]> fields)
                  end
              end
          | _ => root
          end
      end
  end.
Definition DeleteJSONPointerValue (root : value) (pointer : string) : result error value :=
  tokens ← ParseJSONPointer pointer; Ok (deleteJSONPointerValue root tokens).
End pointer.

(** ** Escaping and parsing *)
Section escape.
Context `{UnicodeTables}.

#[local] Arguments EscapeJSONPointerToken : simpl never.

Definition escape_byte (c : ascii) : string :=
  if c == "~"%char then "~0" else if c == "/"%char then "~1" else String c "".

Lemma escape_map s : EscapeJSONPointerToken s = str_map escape_byte s.
Proof.
  unfold EscapeJSONPointerToken. rewrite !replace_all_byte.
  induction s as [|c s IH]; cbn; [done|]. rewrite str_map_app, IH. f_equal.
  unfold escape_byte. case_eqb c "~"%char; [done|]. cbn. case_eqb c "/"%char; by str.
Qed.
Lemma escape_cons c s :
  EscapeJSONPointerToken (String c s) = escape_byte c +:+ EscapeJSONPointerToken s.
Proof. by rewrite !escape_map. Qed.

Lemma unescape_escape s : unescape_go (EscapeJSONPointerToken s) = Ok s.
Proof.
  induction s as [|c s IH]; [done|]. rewrite escape_cons. unfold escape_byte.
  case_eqb c "~"%char; [|case_eqb c "/"%char]; str; cbn [unescape_go]; eqb; by rewrite IH.
Qed.
Lemma unescape_no_tilde s : contains_byte (fun c => c == "~"%char) s = false -> unescape_go s = Ok s.
Proof.
  induction s as [|c s IH]; [done|]. cbn. intros [Hc Hs]%orb_false_iff. by rewrite Hc, IH.
Qed.
Lemma unescape_token s : unescapeJSONPointerToken s = unescape_go s.
Proof.
  unfold unescapeJSONPointerToken. destruct (contains_byte _ s) eqn:E; [done|].
  by rewrite unescape_no_tilde.
Qed.
Lemma escape_unescape s : forall t, no_sep slash s -> unescape_go s = Ok t -> EscapeJSONPointerToken t = s.
Proof.
  induction s as [s IH] using (induction_ltof1 _ String.length). unfold ltof in IH.
  assert (forall c s' u, String.length s' < String.length s -> no_sep slash s' ->
    unescape_go s' = Ok u -> EscapeJSONPointerToken (String c u) = escape_byte c +:+ s') as IH'.
  { intros c s' u Hl Hn Hu. by rewrite escape_cons, (IH s' Hl u). }
  destruct s as [|c s]; cbn; intros t Hs Ht; [by injection Ht as <-|].
  apply no_sep_cons in Hs as [Hc Hs]. destruct (decide (c = "~"%char)) as [->|Hn]; eqb_in Ht.
  - destruct s as [|d s]; [done|]. apply no_sep_cons in Hs as [_ Hs].
    destruct (decide (d = "0"%char)) as [->|]; [|destruct (decide (d = "1"%char)) as [->|]];
      eqb_in Ht; inv_result; rewrite (IH' _ s); cbn; auto; unfold escape_byte; by eqb.
  - inv_result. rewrite (IH' _ s); cbn; auto. unfold escape_byte. by eqb.
Qed.
Lemma escape_no_slash s : no_sep slash (EscapeJSONPointerToken s).
Proof.
  induction s as [|c s IH]; [done|]. rewrite escape_cons, no_sep_app. split; [|done].
  unfold escape_byte. case_eqb c "~"%char; [done|]. case_eqb c "/"%char; [done|].
  by apply no_sep_cons.
Qed.

Lemma pointer_join t ts :
  JSONPointerFromTokens (t :: ts) = "/" +:+ str_join "/" (map EscapeJSONPointerToken (t :: ts)).
Proof.
  cbn [JSONPointerFromTokens foldr]. f_equal. revert t. induction ts as [|u ts IH]; intros t; [cbn; by str|].
  cbn [foldr map]. rewrite IH. change (map _ (u :: ts)) with (EscapeJSONPointerToken u :: map EscapeJSONPointerToken ts).
  by rewrite str_join_cons2.
Qed.
Lemma pointer_split t ts :
  split_on slash (str_drop 1 (JSONPointerFromTokens (t :: ts))) = map EscapeJSONPointerToken (t :: ts).
Proof.
  rewrite pointer_join. change (str_drop 1 ("/" +:+ ?s)) with s. apply split_on_join.
  - done.
  - apply Forall_fmap, Forall_true. intros u. apply escape_no_slash.
Qed.
Lemma ParseJSONPointer_tokens ts :
  trimmed (JSONPointerFromTokens ts) -> ParseJSONPointer (JSONPointerFromTokens ts) = Ok ts.
Proof.
  intros Ht. unfold ParseJSONPointer. rewrite (trim_space_id _ Ht). destruct ts as [|t ts]; [done|].
  rewrite pointer_split. rewrite pointer_join.
  rewrite bool_decide_false, has_prefix_app by (by rewrite app_cons). cbn [negb].
  replace (sequence _) with (Ok (E := error) (t :: ts)); [done|]. symmetry.
  apply sequence_map_Ok. apply Forall2_fmap_l, Forall_Forall2_diag, Forall_true. intros u.
  change (unescapeJSONPointerToken (EscapeJSONPointerToken u) = Ok u).
  by rewrite unescape_token, unescape_escape.
Qed.
Lemma ParseJSONPointer_Ok p ts : ParseJSONPointer p = Ok ts -> JSONPointerFromTokens ts = trim_space p.
Proof.
  unfold ParseJSONPointer. destruct (decide (trim_space p = "")) as [E|E].
  { rewrite bool_decide_true by done. intros [= <-]. by rewrite E. }
  rewrite bool_decide_false by done. destruct (has_prefix (trim_space p) "/") eqn:Hp; cbn [negb]; [|done].
  apply has_prefix_spec in Hp as [s Hs]. rewrite Hs. change (str_drop 1 ("/" +:+ s)) with s.
  rewrite map_err_Ok, sequence_map_Ok. intros H'.
  assert (map EscapeJSONPointerToken ts = split_on slash s) as E'.
  { assert (Hn := split_on_no_sep slash s). induction H' as [|x t l k Hx _ IH]; [done|].
    inversion Hn; subst. cbn. rewrite unescape_token in Hx. rewrite IH by done. f_equal.
    by apply escape_unescape. }
  destruct ts as [|t ts]; [by destruct (split_on_nonempty slash s)|].
  rewrite pointer_join, E'. f_equal. apply str_join_split.
Qed.
End escape.

(** ** Assignment and deletion against lookup *)
Section update.
Context `{UnicodeTables}.
Implicit Types (ts us : list string) (root : value).

(** Two tokens address the same member: the same key, or the same index written
    differently. *)
Definition same_token (t u : string) : bool :=
  (t == u) || match parseJSONPointerArrayIndex t, parseJSONPointerArrayIndex u with
              | Some i, Some j => i == j
              | _, _ => false
              end.
(** Neither of two pointers addresses a part of what the other does. *)
Fixpoint diverge ts us : bool :=
  match ts, us with
  | t :: ts, u :: us => if same_token t u then diverge ts us else true
  | _, _ => false
  end.

Lemma grow_lookup l i j v : l !! j = Some v -> grow l i !! j = Some v.
Proof. intros H'. unfold grow. by apply lookup_app_l_Some. Qed.
Lemma grow_length l i : i < length (grow l i).
Proof. unfold grow. rewrite length_app, length_replicate. lia. Qed.
Lemma grow_default l i j : default VNil (grow l i !! j) = default VNil (l !! j).
Proof.
  unfold grow. destruct (decide (j < length l)); [by rewrite lookup_app_l|].
  rewrite lookup_app_r, (lookup_ge_None_2 l) by lia. destruct (decide (j - length l < S i - length l)).
  - by rewrite lookup_replicate_2.
  - by rewrite lookup_ge_None_2 by (rewrite length_replicate; lia).
Qed.
(** A missing member reads as nil. *)
Lemma lookup_tokens_nil us v : lookup_tokens VNil us = Some v -> us = [].
Proof. by destruct us. Qed.

(** The two steps of an assignment: an index into a list (made or grown when too
    short), a key of an object (made when missing). *)
Lemma set_cons root t ts v r :
  setJSONPointerValue root (t :: ts) v = Ok r ->
  (exists i l next, parseJSONPointerArrayIndex t = Some i /\
     (root = VList l \/ root = VNil /\ l = []) /\
     setJSONPointerValue (default VNil (l !! i)) ts v = Ok next /\ r = VList (<[i := next]> (grow l i)))
  \/ (exists m next, parseJSONPointerArrayIndex t = None /\
     (root = VMap m \/ root = VNil /\ m = ∅) /\
     setJSONPointerValue (default VNil (m !! t)) ts v = Ok next /\ r = VMap (<[t := next]> m)).
Proof.
  cbn [setJSONPointerValue]. destruct (parseJSONPointerArrayIndex t) as [i|].
  - intros H'. left. exists i. apply bind_Ok in H' as (items & Hr & H'). apply bind_Ok in H' as (next & Hn & [= <-]).
    destruct root; try discriminate.
    + exists [], next. injection Hr as <-. split_and!; [done|by right| |].
      * by rewrite <-(grow_default [] i).
      * unfold grow. by rewrite app_nil_l, Nat.sub_0_r.
    + exists l, next. injection Hr as <-. rewrite grow_default in Hn. eauto.
  - intros H'. right. apply bind_Ok in H' as (items & Hr & H'). apply bind_Ok in H' as (next & Hn & [= <-]).
    destruct root; try discriminate; injection Hr as <-; eauto 8.
Qed.

Lemma lookup_set_same ts v : forall root r,
  setJSONPointerValue root ts v = Ok r -> lookup_tokens r ts = Some v.
Proof.
  induction ts as [|t ts IH]; intros root r H'.
  - cbn in *. injection H' as <-. by rewrite DeepCopyValue_id.
  - apply set_cons in H' as [(i & l & next & Hi & _ & Hn & ->)|(m & next & Hi & _ & Hn & ->)]; cbn.
    + rewrite Hi. cbn. rewrite list_lookup_insert_eq by apply grow_length. cbn. eauto.
    + rewrite lookup_insert_eq. cbn. eauto.
Qed.

Lemma lookup_set_diverge ts v : forall us root r w,
  setJSONPointerValue root ts v = Ok r -> diverge ts us = true ->
  lookup_tokens root us = Some w -> lookup_tokens r us = Some w.
Proof.
  induction ts as [|t ts IH]; intros [|u us] root r w H' Hd Hw; try done. cbn [diverge] in Hd.
  apply set_cons in H' as [(i & l & next & Hi & [->|[-> ->]] & Hn & ->)|(m & next & Hi & [->|[-> ->]] & Hn & ->)];
    try done; cbn in *.
  - destruct (parseJSONPointerArrayIndex u) as [j|] eqn:Hj; [|done]. cbn in *.
    destruct (l !! j) as [item|] eqn:Hl; [|done]. cbn in Hw.
    destruct (decide (i = j)) as [->|Hij].
    + rewrite list_lookup_insert_eq by apply grow_length. cbn. rewrite Hl in Hn. cbn in Hn.
      eapply IH; eauto. unfold same_token in Hd. rewrite Hi, Hj, (bool_decide_true (j = j)) in Hd by done.
      by rewrite orb_true_r in Hd.
    + rewrite list_lookup_insert_ne by done. by rewrite (grow_lookup _ _ _ _ Hl).
  - destruct (decide (t = u)) as [->|Htu].
    + destruct (m !! u) as [item|] eqn:Hm; [|done]. cbn in *. rewrite lookup_insert_eq. cbn.
      eapply IH; eauto. unfold same_token in Hd. by rewrite bool_decide_true in Hd.
    + by rewrite lookup_insert_ne.
Qed.

(** [root] can be walked along a pointer by [deleteJSONPointerValue]: no numeric
    token meets an object. *)
Fixpoint indexes_lists root ts : bool :=
  match ts with
  | [] => true
  | t :: ts =>
      match parseJSONPointerArrayIndex t with
      | Some i =>
          match root with
          | VMap _ => false
          | VList l => match l !! i with Some item => indexes_lists item ts | None => true end
          | _ => true
          end
      | None =>
          match root with
          | VMap m => match m !! t with Some item => indexes_lists item ts | None => true end
          | _ => true
          end
      end
  end.
Definition last_is_key ts : bool :=
  match last ts with Some t => match parseJSONPointerArrayIndex t with None => true | _ => false end | None => false end.
Lemma last_is_key_cons t u ts : last_is_key (t :: u :: ts) = last_is_key (u :: ts).
Proof. done. Qed.
Lemma lookup_tokens_is_nil v u us : is_nil v = true -> lookup_tokens v (u :: us) = None.
Proof. by destruct v. Qed.

Lemma lookup_tokens_map m u us :
  lookup_tokens (VMap m) (u :: us) = m !! u ≫= fun item => lookup_tokens item us.
Proof. done. Qed.

Lemma lookup_delete_same ts : forall root,
  last_is_key ts = true -> indexes_lists root ts = true ->
  lookup_tokens (deleteJSONPointerValue root ts) ts = None.
Proof.
  induction ts as [|t ts IH]; intros root Hk Hw; [done|].
  cbn [deleteJSONPointerValue]. cbn [indexes_lists] in Hw.
  destruct (parseJSONPointerArrayIndex t) as [i|] eqn:Hi.
  - destruct root as [| | | | | | | | | | | |l| | | | |]; try done. destruct ts as [|u ts].
    { unfold last_is_key in Hk. cbn in Hk. by rewrite Hi in Hk. }
    destruct (l !! i) as [item|] eqn:Hl; cbn [lookup_tokens]; rewrite Hi; cbn; [|by rewrite Hl].
    rewrite list_lookup_insert_eq by (by eapply lookup_lt_Some).
    change (lookup_tokens (deleteJSONPointerValue item (u :: ts)) (u :: ts) = None). by apply IH.
  - destruct root as [| | | | | | | | | | | |l|m| | | |]; try done.
    { cbn. by rewrite Hi. }
    destruct ts as [|u ts]; [cbn; by rewrite lookup_delete_eq|].
    destruct (m !! t) as [item|] eqn:Hm; [|cbn; by rewrite Hm].
    destruct (is_nil _); cbn [lookup_tokens]; [by rewrite lookup_delete_eq|].
    rewrite lookup_insert_eq.
    change (lookup_tokens (deleteJSONPointerValue item (u :: ts)) (u :: ts) = None). by apply IH.
Qed.

Lemma lookup_delete_diverge ts : forall us root,
  last_is_key ts = true -> diverge ts us = true ->
  lookup_tokens (deleteJSONPointerValue root ts) us = lookup_tokens root us.
Proof.
  induction ts as [|t ts IH]; intros [|u us] root Hk Hd; try done. cbn [diverge] in Hd.
  cbn [deleteJSONPointerValue]. destruct (parseJSONPointerArrayIndex t) as [i|] eqn:Hi.
  - destruct root as [| | | | | | | | | | | |l| | | | |]; try done.
    destruct (l !! i) as [item|] eqn:Hl; [|done]. destruct ts as [|t' ts].
    { unfold last_is_key in Hk. cbn in Hk. by rewrite Hi in Hk. }
    cbn [lookup_tokens]. destruct (parseJSONPointerArrayIndex u) as [j|] eqn:Hj; [|done]. cbn -[deleteJSONPointerValue].
    destruct (decide (i = j)) as [->|Hij]; [|by rewrite list_lookup_insert_ne].
    rewrite list_lookup_insert_eq, Hl by (by eapply lookup_lt_Some). cbn -[deleteJSONPointerValue].
    apply IH; [done|]. unfold same_token in Hd.
    rewrite Hi, Hj, (bool_decide_true (j = j)), orb_true_r in Hd by done. done.
  - destruct root as [| | | | | | | | | | | | |m| | | |]; try done.
    destruct (decide (t = u)) as [->|Htu].
    + unfold same_token in Hd. rewrite bool_decide_true in Hd by done. cbn [orb] in Hd.
      destruct ts as [|t' ts]; [done|]. destruct us as [|u' us]; [done|].
      destruct (m !! u) as [item|] eqn:Hm; [|done]. specialize (IH (u' :: us) item Hk Hd).
      destruct (is_nil (deleteJSONPointerValue item (t' :: ts))) eqn:Hnil; rewrite !lookup_tokens_map, Hm;
        cbn [mbind option_bind].
      * rewrite lookup_delete_eq, <-IH. by rewrite lookup_tokens_is_nil.
      * rewrite lookup_insert_eq. apply IH.
    + destruct ts as [|t' ts]; [cbn; by rewrite lookup_delete_ne|].
      destruct (m !! t) as [item|]; [|done].
      destruct (is_nil _); cbn [lookup_tokens]; by rewrite ?lookup_delete_ne, ?lookup_insert_ne.
Qed.
End update.

(** ** Properties *)
Section properties.
Context `{UnicodeTables}.

(** Pointers and token lists are two notations of one thing: the pointer of
    any tokens (of any bytes, escapes and separators included) that has no white
    space at its end parses back to these tokens, and printing the tokens of any
    pointer the parser accepts gives the trimmed pointer. *)
Theorem pointer_round_trip ts p :
  (trimmed (JSONPointerFromTokens ts) -> ParseJSONPointer (JSONPointerFromTokens ts) = Ok ts)
  /\ (ParseJSONPointer p = Ok ts -> JSONPointerFromTokens ts = trim_space p).
Proof. split; [apply ParseJSONPointer_tokens|apply ParseJSONPointer_Ok]. Qed.

(** After a successful assignment through a pointer, looking the pointer up
    gives the assigned value, and every value found before under a pointer that
    diverges from it is still found there: growing an array and making missing
    parents loses nothing. *)
Theorem set_pointer_spec root p q ts us v r :
  ParseJSONPointer p = Ok ts -> ParseJSONPointer q = Ok us ->
  SetJSONPointerValue root p v = Ok r ->
  LookupJSONPointer r p = Ok (Some v)
  /\ (diverge ts us = true -> forall w,
      LookupJSONPointer root q = Ok (Some w) -> LookupJSONPointer r q = Ok (Some w)).
Proof.
  unfold SetJSONPointerValue, LookupJSONPointer. intros -> ->. cbn. intros Hr. split.
  - f_equal. by eapply lookup_set_same.
  - intros Hd w [= Hw]. f_equal. by eapply lookup_set_diverge.
Qed.

(** Deleting an object member through a pointer whose numeric tokens all index
    arrays removes it (the lookup finds nothing), and no lookup through a pointer
    that diverges from it changes, in either direction. *)
Theorem delete_pointer_spec root p q ts us r :
  ParseJSONPointer p = Ok ts -> ParseJSONPointer q = Ok us ->
  last_is_key ts = true -> DeleteJSONPointerValue root p = Ok r ->
  (indexes_lists root ts = true -> LookupJSONPointer r p = Ok None)
  /\ (diverge ts us = true -> LookupJSONPointer r q = LookupJSONPointer root q).
Proof.
  unfold DeleteJSONPointerValue, LookupJSONPointer. intros -> -> Hk. cbn. intros [= <-]. split.
  - intros Hi. f_equal. by apply lookup_delete_same.
  - intros Hd. f_equal. by apply lookup_delete_diverge.
Qed.

(** The three operations disagree on objects with a numeric key: a lookup
    finds the member, an assignment to the same pointer is refused, and a deletion
    succeeds and leaves the member in place. *)
Lemma numeric_object_key m t w v :
  parseJSONPointerArrayIndex t <> None -> trimmed (JSONPointerForObjectKey t) -> m !! t = Some w ->
  LookupJSONPointer (VMap m) (JSONPointerForObjectKey t) = Ok (Some w)
  /\ SetJSONPointerValue (VMap m) (JSONPointerForObjectKey t) v
     = Err (Invalid "JSON pointer expects array segment" None)
  /\ DeleteJSONPointerValue (VMap m) (JSONPointerForObjectKey t) = Ok (VMap m).
Proof.
  intros Hi Ht Hm. unfold LookupJSONPointer, SetJSONPointerValue, DeleteJSONPointerValue.
  unfold JSONPointerForObjectKey in *. rewrite (ParseJSONPointer_tokens _ Ht). cbn.
  destruct (parseJSONPointerArrayIndex t) as [i|]; [|done]. by rewrite Hm.
Qed.
End properties.

Section witnesses.
#[local] Existing Instance latin1_tables.
Lemma pointer_round_trip_witness :
  ParseJSONPointer (JSONPointerFromTokens ["a/b"; ""; "~1"]) = Ok ["a/b"; ""; "~1"]
  /\ JSONPointerFromTokens ["x"] = trim_space " /x ".
Proof.
  split.
  - apply (proj1 (pointer_round_trip ["a/b"; ""; "~1"] "")). split; reflexivity.
  - apply (proj2 (pointer_round_trip ["x"] " /x ")). reflexivity.
Defined.
Definition sample : value := VMap {[ "a" := VList [VInt64 1]; "b" := VBool true ]}.
Definition sample_set : value :=
  VMap {[ "a" := VList [VInt64 1; VNil; VMap {[ "k" := VString "x" ]}]; "b" := VBool true ]}.
Lemma set_pointer_spec_witness :
  LookupJSONPointer sample_set "/a/2/k" = Ok (Some (VString "x"))
  /\ LookupJSONPointer sample_set "/a/0" = Ok (Some (VInt64 1)).
Proof.
  destruct (set_pointer_spec sample "/a/2/k" "/a/0" ["a"; "2"; "k"] ["a"; "0"] (VString "x") sample_set)
    as [H1 H2]; [reflexivity|reflexivity|vm_compute; reflexivity|].
  split; [exact H1|]. apply H2; vm_compute; reflexivity.
Defined.
Lemma delete_pointer_spec_witness :
  LookupJSONPointer (VMap {[ "a" := VList [VInt64 1] ]}) "/b" = Ok None
  /\ LookupJSONPointer (VMap {[ "a" := VList [VInt64 1] ]}) "/a/0" = LookupJSONPointer sample "/a/0".
Proof.
  destruct (delete_pointer_spec sample "/b" "/a/0" ["b"] ["a"; "0"] (VMap {[ "a" := VList [VInt64 1] ]}))
    as [H1 H2]; [reflexivity|reflexivity|reflexivity|vm_compute; reflexivity|].
  split; [apply H1|apply H2]; vm_compute; reflexivity.
Defined.
Lemma numeric_object_key_witness :
  LookupJSONPointer (VMap {[ "7" := VNil ]}) "/7" = Ok (Some VNil)
  /\ SetJSONPointerValue (VMap {[ "7" := VNil ]}) "/7" VNil
     = Err (Invalid "JSON pointer expects array segment" None)
  /\ DeleteJSONPointerValue (VMap {[ "7" := VNil ]}) "/7" = Ok (VMap {[ "7" := VNil ]}).
Proof.
  apply (numeric_object_key {[ "7" := VNil ]} "7" VNil VNil); [vm_compute; discriminate|split; reflexivity|].
  vm_compute. reflexivity.
Defined.
End witnesses.
