(* ===== verification/Descriptor.v ===== *)
(** * Payload types and descriptors

    Models the codec table and type predicates of
    [src/resource/payload_codec.go] and all of
    [src/resource/payload_descriptor.go]: how a payload's type, media type and
    file extension are recognised and completed from one another. *)
From S2P Require Import Prelude GoText GoTextFacts GoLib Faults.

Definition PayloadTypeJSON := "json".
Definition PayloadTypeYAML := "yaml".
Definition PayloadTypeXML := "xml".
Definition PayloadTypeHCL := "hcl".
Definition PayloadTypeINI := "ini".
Definition PayloadTypeProperties := "properties".
Definition PayloadTypeText := "text".
Definition PayloadTypeOctetStream := "octet-stream".
Definition PayloadTypeBinary := "binary".

Record PayloadCodec := {
  codec_Type : string; codec_Extension : string; codec_MediaType : string;
  Structured : bool; Text : bool; Binary : bool }.
Record PayloadDescriptor := { PayloadType : string; MediaType : string; Extension : string }.
#[export] Instance PayloadDescriptor_eq_dec : EqDecision PayloadDescriptor.
Proof. solve_decision. Defined.
Definition empty_descriptor : PayloadDescriptor := Build_PayloadDescriptor "" "" "".
Definition set_Extension (d : PayloadDescriptor) (e : string) : PayloadDescriptor :=
  Build_PayloadDescriptor (PayloadType d) (MediaType d) e.

Definition payloadCodecs : list PayloadCodec := [
  Build_PayloadCodec PayloadTypeJSON ".json" "application/json" true false false;
  Build_PayloadCodec PayloadTypeYAML ".yaml" "application/yaml" true false false;
  Build_PayloadCodec PayloadTypeINI ".ini" "application/ini" true false false;
  Build_PayloadCodec PayloadTypeProperties ".properties" "text/x-java-properties" true false false;
  Build_PayloadCodec PayloadTypeXML ".xml" "application/xml" false true false;
  Build_PayloadCodec PayloadTypeHCL ".hcl" "application/hcl" false true false;
  Build_PayloadCodec PayloadTypeText ".txt" "text/plain" false true false;
  Build_PayloadCodec PayloadTypeOctetStream ".bin" "application/octet-stream" false false true].
Definition buildPayloadCodecByType (codecs : list PayloadCodec) : gmap string PayloadCodec :=
  foldl (fun result codec => <[codec_Type codec := codec]> result) ∅ codecs.
Definition payloadCodecByType : gmap string PayloadCodec := buildPayloadCodecByType payloadCodecs.
Definition SupportedPayloadTypes : list string := codec_Type <$> payloadCodecs.

Definition defaultOctetStreamMediaType := "application/octet-stream".
Definition DefaultOctetStreamDescriptor : PayloadDescriptor :=
  Build_PayloadDescriptor PayloadTypeOctetStream defaultOctetStreamMediaType ".bin".

Section descriptor.
Context `{UnicodeTables}.

Definition NormalizePayloadType (v : string) : string :=
  let normalized := to_lower (trim_space v) in
  if (normalized == "") || (normalized == PayloadTypeJSON) then PayloadTypeJSON
  else if normalized == PayloadTypeBinary then PayloadTypeOctetStream
  else normalized.
Definition ValidatePayloadType (v : string) : result error string :=
  let normalized := NormalizePayloadType v in
  match payloadCodecByType !! normalized with
  | Some _ => Ok normalized
  | None => Err (Invalid ("unsupported payload type " +:+ quote (trim_space v)) None)
  end.
Definition PayloadCodecForType (v : string) : result error PayloadCodec :=
  normalized ← ValidatePayloadType v;
  match payloadCodecByType !! normalized with
  | Some codec => Ok codec
  | None => Ok (Build_PayloadCodec "" "" "" false false false)
  end.
Definition PayloadMediaType (v : string) : result error string :=
  codec ← PayloadCodecForType v; Ok (codec_MediaType codec).
Definition PayloadExtension (v : string) : result error string :=
  codec ← PayloadCodecForType v; Ok (codec_Extension codec).
Definition IsStructuredPayloadType (v : string) : bool :=
  match PayloadCodecForType v with Ok codec => Structured codec | Err _ => false end.
Definition IsTextPayloadType (v : string) : bool :=
  match PayloadCodecForType v with Ok codec => Text codec | Err _ => false end.
Definition IsBinaryPayloadType (v : string) : bool :=
  match PayloadCodecForType v with Ok codec => Binary codec | Err _ => false end.
(** [x, _ := f(v)]: the zero value when there is an error. *)
Definition or_zero (r : result error string) : string := match r with Ok s => s | Err _ => "" end.

Definition normalizePayloadExtension (v : string) : string :=
  let trimmed := to_lower (trim_space v) in
  if trimmed == "" then ""
  else if negb (has_prefix trimmed ".") then "." +:+ trimmed else trimmed.
Definition normalizeContentTypeOrShortname (v : string) : string :=
  let trimmed := to_lower (trim_space v) in
  if trimmed == "" then ""
  else match ParseMediaType trimmed with
       | Some parsed => to_lower (trim_space parsed)
       | None => trimmed
       end.
Definition canonicalDescriptor (payloadType : string) : PayloadDescriptor :=
  let normalized := NormalizePayloadType payloadType in
  Build_PayloadDescriptor normalized (or_zero (PayloadMediaType normalized)) (or_zero (PayloadExtension normalized)).

Definition PayloadDescriptorForExtension (extension : string) : option PayloadDescriptor :=
  let normalized := normalizePayloadExtension extension in
  let one_of l := existsb (fun s => normalized == s) l in
  let desc t m := Some (Build_PayloadDescriptor t m normalized) in
  if normalized == "" then None
  else if one_of [".json"] then desc PayloadTypeJSON "application/json"
  else if one_of [".yaml"; ".yml"] then desc PayloadTypeYAML "application/yaml"
  else if one_of [".xml"] then desc PayloadTypeXML "application/xml"
  else if one_of [".hcl"] then desc PayloadTypeHCL "application/hcl"
  else if one_of [".ini"] then desc PayloadTypeINI "application/ini"
  else if one_of [".properties"; ".props"] then desc PayloadTypeProperties "text/x-java-properties"
  else if one_of [".txt"; ".text"] then desc PayloadTypeText "text/plain"
  else if one_of [".csv"] then desc PayloadTypeText "text/csv"
  else if one_of [".html"; ".htm"] then desc PayloadTypeText "text/html"
  else if one_of [".css"] then desc PayloadTypeText "text/css"
  else if one_of [".js"] then desc PayloadTypeText "text/javascript"
  else if one_of [".bin"] then desc PayloadTypeOctetStream defaultOctetStreamMediaType
  else None.

Definition PayloadDescriptorForContentType (v : string) : option PayloadDescriptor :=
  let normalized := normalizeContentTypeOrShortname v in
  let one_of l := existsb (fun s => normalized == s) l in
  let desc t e := Some (Build_PayloadDescriptor t normalized e) in
  if normalized == "" then None
  else if one_of [PayloadTypeJSON] then Some (canonicalDescriptor PayloadTypeJSON)
  else if one_of [PayloadTypeYAML] then Some (canonicalDescriptor PayloadTypeYAML)
  else if one_of [PayloadTypeXML] then Some (canonicalDescriptor PayloadTypeXML)
  else if one_of [PayloadTypeHCL] then Some (canonicalDescriptor PayloadTypeHCL)
  else if one_of [PayloadTypeINI] then Some (canonicalDescriptor PayloadTypeINI)
  else if one_of [PayloadTypeProperties] then Some (canonicalDescriptor PayloadTypeProperties)
  else if one_of [PayloadTypeText; "txt"] then Some (canonicalDescriptor PayloadTypeText)
  else if one_of [PayloadTypeBinary; PayloadTypeOctetStream] then Some (canonicalDescriptor PayloadTypeOctetStream)
  else if one_of ["application/json"] then desc PayloadTypeJSON ".json"
  else if one_of ["application/yaml"; "application/x-yaml"; "text/yaml"; "text/x-yaml"] then desc PayloadTypeYAML ".yaml"
  else if one_of ["application/xml"; "text/xml"] then desc PayloadTypeXML ".xml"
  else if one_of ["application/hcl"; "text/hcl"] then desc PayloadTypeHCL ".hcl"
  else if one_of ["application/ini"; "text/ini"] then desc PayloadTypeINI ".ini"
  else if one_of ["application/properties"; "text/properties"; "text/x-java-properties"] then desc PayloadTypeProperties ".properties"
  else if one_of ["text/plain"] then desc PayloadTypeText ".txt"
  else if one_of ["text/csv"] then desc PayloadTypeText ".csv"
  else if one_of ["text/html"] then desc PayloadTypeText ".html"
  else if one_of ["text/css"] then desc PayloadTypeText ".css"
  else if one_of ["text/javascript"; "application/javascript"; "application/x-javascript"] then desc PayloadTypeText ".js"
  else if one_of [defaultOctetStreamMediaType] then desc PayloadTypeOctetStream ".bin"
  else if has_suffix normalized "+json" then desc PayloadTypeJSON ".json"
  else if has_suffix normalized "+xml" then desc PayloadTypeXML ".xml"
  else None.

Definition PayloadTypeForExtension (extension : string) : option string :=
  PayloadType <$> PayloadDescriptorForExtension extension.
Definition PayloadTypeForMediaType (v : string) : option string :=
  PayloadType <$> PayloadDescriptorForContentType v.
Definition PayloadDescriptorForFileName (name : string) : option PayloadDescriptor :=
  let trimmed := trim_space name in
  if trimmed == "" then None else PayloadDescriptorForExtension (path_ext trimmed).

Definition resolveConsistentExtension (extension resolvedPayloadType : string) : string :=
  match PayloadDescriptorForExtension extension with
  | None => extension
  | Some extDescriptor =>
      if PayloadType extDescriptor == resolvedPayloadType then extension
      else match PayloadExtension resolvedPayloadType with
           | Err _ => extension
           | Ok canonical => canonical
           end
  end.

Definition NormalizePayloadDescriptor (v : PayloadDescriptor) : PayloadDescriptor :=
  let extension := normalizePayloadExtension (Extension v) in
  let bare := (trim_space (MediaType v) == "") && (trim_space (PayloadType v) == "") in
  match if bare then PayloadDescriptorForExtension extension else None with
  | Some descriptor => descriptor
  | None =>
      match PayloadDescriptorForContentType (MediaType v) with
      | Some descriptor =>
          if negb (extension == "")
          then set_Extension descriptor (resolveConsistentExtension extension (PayloadType descriptor))
          else descriptor
      | None =>
          if negb (trim_space (PayloadType v) == "") then
            let payloadType := NormalizePayloadType (PayloadType v) in
            let mediaType := or_zero (PayloadMediaType payloadType) in
            let resolvedExtension := or_zero (PayloadExtension payloadType) in
            let resolvedExtension :=
              if negb (extension == "") then resolveConsistentExtension extension payloadType
              else resolvedExtension in
            Build_PayloadDescriptor payloadType mediaType resolvedExtension
          else if negb (extension == "") then
            Build_PayloadDescriptor PayloadTypeOctetStream defaultOctetStreamMediaType extension
          else DefaultOctetStreamDescriptor
      end
  end.

Definition IsPayloadDescriptorExplicit (v : PayloadDescriptor) : bool :=
  negb (trim_space (PayloadType v) == "") || negb (trim_space (MediaType v) == "")
  || negb (trim_space (Extension v) == "").

(** [bytes.TrimSpace] trims as [strings.TrimSpace] does. *)
Definition StructuredLookingPayload (data : string) : bool :=
  match trim_space data with
  | String "{"%char _ | String "["%char _ => true
  | _ => false
  end.
End descriptor.

(** ** Normal forms of the text fields *)
Section normal_forms.
Context `{UnicodeTables}.

Lemma lower_trim_ascii s : ascii_text s -> to_lower (trim_space s) = ascii_lower (trim_space s).
Proof. intros Ha. by apply to_lower_ascii, trim_space_ascii. Qed.
(** [strings.ToLower(strings.TrimSpace(s))] on ASCII text: ASCII, trimmed and lower
    case, so a fixed point. *)
Definition lowered (s : string) : Prop := ascii_text s /\ trimmed s /\ ascii_lower s = s.
Lemma lower_trim_lowered s : ascii_text s -> lowered (to_lower (trim_space s)).
Proof.
  intros Ha. rewrite lower_trim_ascii by done. split_and!.
  - by apply ascii_lower_text, trim_space_ascii.
  - apply ascii_lower_trimmed; [by apply trim_space_ascii|apply trim_space_trimmed].
  - apply ascii_lower_idemp.
Qed.
Lemma lowered_fixed s : lowered s -> to_lower (trim_space s) = s.
Proof. intros (? & ? & ?). rewrite trim_space_id by done. by rewrite to_lower_ascii. Qed.
Lemma lowered_fixed' s : lowered s -> trim_space (to_lower s) = s.
Proof. intros (? & ? & E). rewrite to_lower_ascii, E by done. by apply trim_space_id. Qed.
Lemma lowered_trim s : lowered s -> trim_space s = s.
Proof. intros (_ & ? & _). by apply trim_space_id. Qed.

Lemma normalizePayloadExtension_lowered e : ascii_text e -> lowered (normalizePayloadExtension e).
Proof.
  intros Ha. unfold normalizePayloadExtension. apply lower_trim_lowered in Ha.
  destruct (to_lower (trim_space e)) as [|c s] eqn:E; [eqb; done|].
  rewrite (bool_decide_false (String c s = "")) by done.
  destruct (has_prefix (String c s) ".") eqn:Hp; cbn [negb]; [done|].
  destruct Ha as (Ha & [_ Ht] & Hl). split_and!; [done| |by rewrite app_cons, ascii_lower_cons, app_empty_l, Hl].
  split; [by apply leads_space_solid|]. revert Ha Ht. generalize (String c s) as t. clear. intros t.
  pattern t. apply str_snoc_ind; clear t; [done|]. intros s c _ Ha. rewrite all_bytes_app in Ha. cbn in Ha.
  apply andb_true_iff in Ha as [_ Ha]. rewrite andb_true_r in Ha.
  rewrite <-str_app_assoc. by rewrite !trails_space_ascii.
Qed.
Lemma normalizePayloadExtension_fixed e :
  lowered e -> (e = "" \/ has_prefix e "." = true) -> normalizePayloadExtension e = e.
Proof.
  intros Hl He. unfold normalizePayloadExtension. rewrite lowered_fixed by done.
  case_bool_decide as Hn; [done|]. destruct He as [->|He]; [done|]. by rewrite He.
Qed.
Lemma normalizePayloadExtension_shape e :
  normalizePayloadExtension e = "" \/ has_prefix (normalizePayloadExtension e) "." = true.
Proof.
  unfold normalizePayloadExtension. case_bool_decide; [by left|right].
  destruct (has_prefix (to_lower (trim_space e)) ".") eqn:E; cbn [negb]; [done|]. apply has_prefix_app.
Qed.
Lemma normalizePayloadExtension_idemp e :
  ascii_text e -> normalizePayloadExtension (normalizePayloadExtension e) = normalizePayloadExtension e.
Proof.
  intros. apply normalizePayloadExtension_fixed;
    [by apply normalizePayloadExtension_lowered|apply normalizePayloadExtension_shape].
Qed.

Lemma all_bytes_split f c s : all_bytes f s = true -> Forall (fun p => all_bytes f p = true) (split_on c s).
Proof.
  induction s as [|d s IH]; cbn; [by repeat constructor|]. intros [Hd Hs]%andb_true_iff.
  specialize (IH Hs). destruct (decide (d = c)); [by constructor|].
  destruct (split_on c s) as [|p ps] eqn:E; [by destruct (split_on_nonempty c s)|].
  inversion IH; subst. constructor; [|done]. cbn. by rewrite Hd.
Qed.
Lemma before_byte_ascii c s : ascii_text s -> ascii_text (before_byte c s).
Proof.
  intros Ha. unfold before_byte. apply (all_bytes_split _ c) in Ha.
  destruct (split_on c s); [done|]. by inversion Ha.
Qed.
Lemma normalizeContentType_lowered m : ascii_text m -> lowered (normalizeContentTypeOrShortname m).
Proof.
  intros Ha. unfold normalizeContentTypeOrShortname. apply lower_trim_lowered in Ha.
  case_bool_decide; [done|]. destruct (ParseMediaType _) as [p|] eqn:Hp; [|done].
  apply ParseMediaType_Some in Hp as [-> _]. destruct Ha as (Ha & _ & _). apply lower_trim_lowered.
  apply before_byte_ascii with (c := ";"%char) in Ha. rewrite to_lower_ascii by done.
  by apply trim_space_ascii, ascii_lower_text.
Qed.
Lemma normalizeContentType_idemp m : ascii_text m ->
  normalizeContentTypeOrShortname (normalizeContentTypeOrShortname m) = normalizeContentTypeOrShortname m.
Proof.
  intros Ha. assert (lowered (normalizeContentTypeOrShortname m)) as Hl by by apply normalizeContentType_lowered.
  unfold normalizeContentTypeOrShortname at 1. rewrite lowered_fixed by done.
  case_bool_decide as Hn; [done|]. revert Hl Hn. unfold normalizeContentTypeOrShortname.
  case_bool_decide; [done|]. apply lower_trim_lowered in Ha.
  destruct (ParseMediaType (to_lower (trim_space m))) as [p|] eqn:Hp; [|by rewrite Hp].
  apply ParseMediaType_Some in Hp as [Hp Hc]. intros Hl Hn.
  assert (lowered p) as Hlp.
  { destruct Ha as (Ha & _ & _). apply before_byte_ascii with (c := ";"%char) in Ha.
    rewrite to_lower_ascii in Hp by done. subst p. split_and!.
    - by apply trim_space_ascii, ascii_lower_text.
    - apply trim_space_trimmed.
    - apply trim_space_lower_fixed, ascii_lower_idemp. }
  rewrite (lowered_fixed p) by done. rewrite (ParseMediaType_fixed p) by (done || by apply lowered_fixed').
  by apply lowered_fixed.
Qed.
End normal_forms.

(** ** Completing a descriptor *)
Section complete.
Context `{UnicodeTables}.

(** Walk down a chain of conditionals of a hypothesis. *)
Ltac chain H := repeat match type of H with (if ?b then _ else _) = _ => destruct b end.

(** The canonical media type and extension of each payload type are recognised as
    that type. *)
Lemma ForExtension_Some e d : PayloadDescriptorForExtension e = Some d ->
  Extension d = normalizePayloadExtension e /\ Extension d <> ""
  /\ exists d', PayloadDescriptorForContentType (MediaType d) = Some d'
       /\ PayloadType d' = PayloadType d /\ MediaType d' = MediaType d.
Proof.
  unfold PayloadDescriptorForExtension. cbv zeta.
  destruct (normalizePayloadExtension e == "") eqn:Hn; [done|]. apply bool_decide_eq_false in Hn.
  intros He. chain He; try discriminate He; injection He as <-; (split; [done|]); (split; [done|]);
    eexists; (split; [vm_compute; reflexivity|done]).
Qed.
Lemma ForContentType_Some m d : ascii_text m ->
  PayloadDescriptorForContentType m = Some d -> PayloadDescriptorForContentType (MediaType d) = Some d.
Proof.
  intros Ha Hd. assert (PayloadDescriptorForContentType (normalizeContentTypeOrShortname m) = Some d) as E.
  { rewrite <-Hd. unfold PayloadDescriptorForContentType. by rewrite normalizeContentType_idemp. }
  revert Hd. unfold PayloadDescriptorForContentType at 1. cbv zeta. intros Hd.
  chain Hd; try discriminate Hd; injection Hd as <-; first [exact E|vm_compute; reflexivity].
Qed.
Lemma ForContentType_extension m d : ascii_text m -> PayloadDescriptorForContentType m = Some d ->
  (exists e, PayloadDescriptorForExtension (Extension d) = Some e /\ PayloadType e = PayloadType d)
  /\ normalizePayloadExtension (Extension d) = Extension d /\ Extension d <> "" /\ trim_space (MediaType d) <> "".
Proof.
  intros Ha. unfold PayloadDescriptorForContentType. cbv zeta.
  destruct (normalizeContentTypeOrShortname m == "") eqn:Hn; [done|]. apply bool_decide_eq_false in Hn.
  assert (trim_space (normalizeContentTypeOrShortname m) <> "") as Ht.
  { by rewrite lowered_trim by by apply normalizeContentType_lowered. }
  intros Hd. chain Hd; try discriminate Hd; injection Hd as <-;
    (split_and!; [eexists; split; [vm_compute; reflexivity|done]|vm_compute; reflexivity|done|first [exact Ht|done]]).
Qed.

Lemma codec_known t codec : payloadCodecByType !! t = Some codec -> codec ∈ payloadCodecs /\ codec_Type codec = t.
Proof.
  unfold payloadCodecByType, buildPayloadCodecByType.
  assert (forall l (m : gmap string PayloadCodec),
    foldl (fun r c => <[codec_Type c := c]> r) m l !! t = Some codec ->
    (codec ∈ l /\ codec_Type codec = t) \/ m !! t = Some codec) as Hl.
  { induction l as [|c l IH]; intros m; cbn; [by right|]. intros [[? ?]|Hm]%IH.
    - left. split; [by right|done].
    - apply lookup_insert_Some in Hm as [[<- <-]|[_ ?]]; [left; split; [left|done]|by right]. }
  intros [?|Hm]%Hl; [done|]. by rewrite lookup_empty in Hm.
Qed.
(** A supported type's codec is recognised from its media type and from its
    extension. *)
Lemma codec_recognised t codec : payloadCodecByType !! t = Some codec ->
  (exists e, PayloadDescriptorForExtension (codec_Extension codec) = Some e /\ PayloadType e = t)
  /\ normalizePayloadExtension (codec_Extension codec) = codec_Extension codec
  /\ PayloadDescriptorForContentType (codec_MediaType codec)
     = Some (Build_PayloadDescriptor t (codec_MediaType codec) (codec_Extension codec))
  /\ NormalizePayloadType t = t.
Proof.
  intros [Hc <-]%codec_known. unfold payloadCodecs in Hc.
  repeat (apply elem_of_cons in Hc as [->|Hc];
    [split_and!; [eexists; split; [vm_compute; reflexivity|done]|vm_compute; reflexivity..]|]).
  by apply not_elem_of_nil in Hc.
Qed.

Lemma PayloadCodecForType_Ok t codec :
  PayloadCodecForType t = Ok codec <-> payloadCodecByType !! NormalizePayloadType t = Some codec.
Proof.
  unfold PayloadCodecForType, ValidatePayloadType.
  destruct (payloadCodecByType !! NormalizePayloadType t) as [c|] eqn:E; cbn [mbind result_bind]; [|done].
  rewrite E. naive_solver.
Qed.
Lemma PayloadExtension_cases t : NormalizePayloadType t = t ->
  (exists codec, payloadCodecByType !! t = Some codec /\ PayloadExtension t = Ok (codec_Extension codec)
     /\ PayloadMediaType t = Ok (codec_MediaType codec))
  \/ (payloadCodecByType !! t = None /\ exists e, PayloadExtension t = Err e /\ PayloadMediaType t = Err e).
Proof.
  intros Ht. unfold PayloadExtension, PayloadMediaType, PayloadCodecForType, ValidatePayloadType. rewrite Ht.
  destruct (payloadCodecByType !! t) as [codec|] eqn:E; cbn [mbind result_bind]; [rewrite E; cbn; eauto|eauto].
Qed.

(** The extension of a descriptor is unknown, or stands for its own type. *)
Definition consistent (d : PayloadDescriptor) : Prop :=
  forall e, PayloadDescriptorForExtension (Extension d) = Some e ->
  PayloadType e = PayloadType d \/ payloadCodecByType !! PayloadType d = None.

Lemma resolveConsistentExtension_spec ext t :
  normalizePayloadExtension ext = ext -> NormalizePayloadType t = t -> ext <> "" ->
  let r := resolveConsistentExtension ext t in
  normalizePayloadExtension r = r /\ r <> "" /\ resolveConsistentExtension r t = r
  /\ forall m, consistent (Build_PayloadDescriptor t m r).
Proof.
  intros He Ht Hn r. subst r. unfold resolveConsistentExtension, consistent. cbn [Extension PayloadType].
  destruct (PayloadDescriptorForExtension ext) as [d|] eqn:Ed.
  2: { rewrite Ed. naive_solver. }
  case_bool_decide as Hd; [rewrite Ed, Hd; eqb; naive_solver|].
  destruct (PayloadExtension_cases t Ht) as [(codec & Hc & -> & _)|(Hc & e & -> & _)].
  - destruct (codec_recognised t codec Hc) as ((e & He' & Hte) & Hn' & _ & _). rewrite He', Hte. eqb.
    split_and!; [done| |done|naive_solver]. intros E. rewrite E in He'. discriminate He'.
  - rewrite Ed. eqb. naive_solver.
Qed.
End complete.

Section normalize.
Context `{UnicodeTables}.

Lemma NormalizePayloadType_idemp t :
  ascii_text t -> NormalizePayloadType (NormalizePayloadType t) = NormalizePayloadType t.
Proof.
  intros Ha. apply lower_trim_lowered in Ha. unfold NormalizePayloadType at 2 3.
  destruct ((to_lower (trim_space t) == "") || _) eqn:E1; [vm_compute; reflexivity|].
  destruct (to_lower (trim_space t) == PayloadTypeBinary) eqn:E2; [vm_compute; reflexivity|].
  unfold NormalizePayloadType. rewrite lowered_fixed by done. by rewrite E1, E2.
Qed.
Lemma NormalizePayloadType_ascii t : ascii_text t -> ascii_text (NormalizePayloadType t).
Proof.
  intros Ha. apply lower_trim_lowered in Ha as [Ha _]. unfold NormalizePayloadType.
  by repeat case_match.
Qed.
Lemma NormalizePayloadType_trim t :
  ascii_text t -> trim_space (NormalizePayloadType t) <> "".
Proof.
  intros Ha. apply lower_trim_lowered in Ha. unfold NormalizePayloadType.
  destruct ((to_lower (trim_space t) == "") || _) eqn:E1; [done|].
  destruct (to_lower (trim_space t) == PayloadTypeBinary) eqn:E2; [done|].
  rewrite lowered_trim by done. apply orb_false_iff in E1 as [E1%bool_decide_eq_false _]. done.
Qed.

(** The descriptor with an unrecognised media type, no payload type and the
    extension of another type than octet-stream: the one case left as it is. *)
Definition stray_media_type (v : PayloadDescriptor) : bool :=
  (trim_space (PayloadType v) == "") && negb (trim_space (MediaType v) == "")
  && match PayloadDescriptorForContentType (MediaType v) with None => true | Some _ => false end
  && match PayloadDescriptorForExtension (Extension v) with
     | Some e => negb (PayloadType e == PayloadTypeOctetStream)
     | None => false
     end.

(** A descriptor [d] that one more normalization leaves alone. *)
Definition settled (d : PayloadDescriptor) : Prop := NormalizePayloadDescriptor d = d /\ consistent d.

Lemma ForExtension_normalize e : ascii_text e ->
  PayloadDescriptorForExtension (normalizePayloadExtension e) = PayloadDescriptorForExtension e.
Proof. intros Ha. unfold PayloadDescriptorForExtension. by rewrite normalizePayloadExtension_idemp. Qed.

(** A descriptor whose media type is recognised, with its extension fixed up. *)
Lemma settled_media d :
  PayloadDescriptorForContentType (MediaType d) = Some d \/
  (exists d', PayloadDescriptorForContentType (MediaType d) = Some d'
    /\ PayloadType d' = PayloadType d /\ MediaType d' = MediaType d) ->
  trim_space (MediaType d) <> "" -> normalizePayloadExtension (Extension d) = Extension d ->
  Extension d <> "" -> resolveConsistentExtension (Extension d) (PayloadType d) = Extension d ->
  NormalizePayloadDescriptor d = d.
Proof.
  intros Hd Hm He Hn Hr. assert (exists d', PayloadDescriptorForContentType (MediaType d) = Some d'
    /\ PayloadType d' = PayloadType d /\ MediaType d' = MediaType d) as (d' & Ed & Et & Em) by naive_solver.
  unfold NormalizePayloadDescriptor. rewrite He, Ed. rewrite (bool_decide_false _ Hm). cbn [andb].
  rewrite (bool_decide_false _ Hn). cbn [negb]. rewrite Et, Hr. destruct d, d'. cbn in *. by subst.
Qed.
Lemma resolve_same e t d :
  PayloadDescriptorForExtension e = Some d -> PayloadType d = t -> resolveConsistentExtension e t = e.
Proof. intros Hd Ht. unfold resolveConsistentExtension. by rewrite Hd, Ht, bool_decide_true. Qed.

Lemma settled_extension e d : ascii_text e -> PayloadDescriptorForExtension e = Some d -> settled d.
Proof.
  intros Ha Hd. destruct (ForExtension_Some _ _ Hd) as (Ee & Hn & d' & Hd' & Ht & Hm).
  assert (PayloadDescriptorForExtension (Extension d) = Some d) as Hself by (by rewrite Ee, ForExtension_normalize).
  split; [|intros e' He'; left; by simplify_eq].
  apply settled_media; [right; eauto| | |done|by eapply resolve_same].
  - intros E. destruct d as [t m x]. cbn in *. unfold PayloadDescriptorForExtension in Hd. cbv zeta in Hd.
    repeat match type of Hd with (if ?b then _ else _) = _ => destruct b end;
      try discriminate Hd; injection Hd as <- <- <-; vm_compute in E; discriminate E.
  - rewrite Ee. by apply normalizePayloadExtension_idemp.
Qed.

Lemma settled_content_type m d e : ascii_text m ->
  PayloadDescriptorForContentType m = Some d -> normalizePayloadExtension e = e ->
  NormalizePayloadType (PayloadType d) = PayloadType d ->
  settled (if negb (e == "") then set_Extension d (resolveConsistentExtension e (PayloadType d)) else d).
Proof.
  intros Ha Hd He Ht. apply ForContentType_Some in Hd as Hself; [|done].
  destruct (ForContentType_extension _ _ Ha Hd) as ((x & Hx & Htx) & Hex & Hnx & Hm).
  case_bool_decide as Hn; cbn [negb].
  - split; [|intros e' He'; left; by simplify_eq]. apply settled_media; eauto using resolve_same.
  - destruct (resolveConsistentExtension_spec e (PayloadType d)) as (H1 & H2 & H3 & H4); [done..|].
    split; [|apply H4]. apply settled_media; eauto.
Qed.

Lemma ForContentType_type m d :
  PayloadDescriptorForContentType m = Some d -> NormalizePayloadType (PayloadType d) = PayloadType d.
Proof.
  unfold PayloadDescriptorForContentType. cbv zeta. intros Hd.
  repeat match type of Hd with (if ?b then _ else _) = _ => destruct b end;
    try discriminate Hd; injection Hd as <-; vm_compute; reflexivity.
Qed.

Lemma codec_ascii t codec : payloadCodecByType !! t = Some codec -> ascii_text (codec_MediaType codec).
Proof.
  intros [Hc _]%codec_known. unfold payloadCodecs in Hc.
  repeat (apply elem_of_cons in Hc as [->|Hc]; [done|]). by apply not_elem_of_nil in Hc.
Qed.

Lemma normalizePayloadExtension_empty : normalizePayloadExtension "" = "".
Proof. vm_compute. reflexivity. Qed.
Lemma ForContentType_empty : PayloadDescriptorForContentType "" = None.
Proof. vm_compute. reflexivity. Qed.

Lemma settled_type t e : ascii_text t -> trim_space t <> "" -> ascii_text e ->
  NormalizePayloadType t = t -> normalizePayloadExtension e = e ->
  settled (Build_PayloadDescriptor t (or_zero (PayloadMediaType t))
    (if negb (e == "") then resolveConsistentExtension e t else or_zero (PayloadExtension t))).
Proof.
  intros Ha Hnt Hae Ht He. destruct (PayloadExtension_cases t Ht) as [(codec & Hc & HE & HM)|(Hc & err & HE & HM)].
  - destruct (codec_recognised t codec Hc) as ((x & Hx & Htx) & Hex & HCT & _).
    rewrite HE, HM. cbn [or_zero].
    assert (H' := settled_content_type _ _ e (codec_ascii _ _ Hc) HCT He Ht). by destruct (negb (e == "")).
  - rewrite HE, HM. cbn [or_zero]. case_bool_decide as Hn; cbn [negb].
    + split; [|intros d' Hd'; by right]. unfold NormalizePayloadDescriptor. cbn [Extension MediaType PayloadType].
      rewrite normalizePayloadExtension_empty, ForContentType_empty, (bool_decide_false _ Hnt), andb_false_r.
      eqb. by rewrite Ht, HE, HM.
    + destruct (resolveConsistentExtension_spec e t) as (H1 & H2 & H3 & H4); [done..|].
      split; [|apply H4]. unfold NormalizePayloadDescriptor. cbn [Extension MediaType PayloadType].
      rewrite ForContentType_empty, H1, (bool_decide_false _ Hnt), andb_false_r. cbn [negb].
      rewrite Ht, HM, H3, (bool_decide_false _ H2). done.
Qed.
End normalize.

(** ** Properties *)
Section properties.
Context `{UnicodeTables}.

(** [NormalizePayloadDescriptor] completes any descriptor of ASCII fields to one
    that a second normalization does not change, and whose extension is unknown or
    stands for its own payload type (unless that type is not supported): for every
    combination of given and missing fields except an unrecognised media type given
    without payload type but with the extension of some textual type. *)
Theorem normalize_descriptor_settles v :
  ascii_text (PayloadType v) -> ascii_text (MediaType v) -> ascii_text (Extension v) ->
  stray_media_type v = false ->
  let d := NormalizePayloadDescriptor v in NormalizePayloadDescriptor d = d /\ consistent d.
Proof.
  intros Hat Ham Hae Hs. cbv zeta. change (settled (NormalizePayloadDescriptor v)).
  set (e := normalizePayloadExtension (Extension v)).
  assert (normalizePayloadExtension e = e) as He by by apply normalizePayloadExtension_idemp.
  assert (ascii_text e) as Hxe by by apply normalizePayloadExtension_lowered.
  unfold NormalizePayloadDescriptor. fold e.
  assert (PayloadDescriptorForExtension e = PayloadDescriptorForExtension (Extension v)) as Hfe
    by by apply ForExtension_normalize.
  destruct (if _ && _ then _ else None) as [d|] eqn:Hd.
  { destruct (_ && _) in Hd; [|done]. by eapply settled_extension. }
  destruct (PayloadDescriptorForContentType (MediaType v)) as [d|] eqn:Em.
  { exact (settled_content_type _ d e Ham Em He (ForContentType_type _ _ Em)). }
  destruct (decide (trim_space (PayloadType v) = "")) as [Ht|Ht].
  2: { rewrite (bool_decide_false _ Ht). cbn [negb].
       apply settled_type; auto using NormalizePayloadType_idemp, NormalizePayloadType_trim, NormalizePayloadType_ascii. }
  unfold stray_media_type in Hs. rewrite Em, <-Hfe in Hs. rewrite (bool_decide_true _ Ht) in *.
  rewrite andb_true_r in *. cbn [andb negb] in *.
  destruct (decide (e = "")) as [Hen|Hen].
  { rewrite (bool_decide_true _ Hen). by split; [vm_compute; reflexivity|intros x [= <-]; left]. }
  rewrite (bool_decide_false _ Hen). cbn [negb].
  assert (forall x, PayloadDescriptorForExtension e = Some x -> PayloadType x = PayloadTypeOctetStream) as Hx.
  { intros x Ex. rewrite Ex in *. destruct (trim_space (MediaType v) == ""); [done|]. cbn [negb andb] in Hs.
    by apply negb_false_iff, bool_decide_eq_true in Hs. }
  split; [|intros x Ex; left; by apply Hx].
  apply settled_media; [right; exists DefaultOctetStreamDescriptor; split; [vm_compute; reflexivity|done]|done|done|done|].
  unfold resolveConsistentExtension. cbn [Extension PayloadType].
  destruct (PayloadDescriptorForExtension e) as [x|]; [|done]. by rewrite (Hx x), bool_decide_true.
Qed.

(** The excepted case is really unstable: an unrecognised media type, no payload
    type and the extension of a textual type give an octet-stream descriptor that keeps
    the textual extension, and normalizing it again replaces that extension. *)
Lemma stray_media_type_unstable v e :
  ascii_text (Extension v) -> trim_space (PayloadType v) = "" -> trim_space (MediaType v) <> "" ->
  PayloadDescriptorForContentType (MediaType v) = None ->
  PayloadDescriptorForExtension (Extension v) = Some e -> PayloadType e <> PayloadTypeOctetStream ->
  NormalizePayloadDescriptor v
    = Build_PayloadDescriptor PayloadTypeOctetStream defaultOctetStreamMediaType (Extension e)
  /\ NormalizePayloadDescriptor (NormalizePayloadDescriptor v) = DefaultOctetStreamDescriptor.
Proof.
  intros Ha Ht Hm Hc He Hne. destruct (ForExtension_Some _ _ He) as (Ee & Hn & _).
  assert (NormalizePayloadDescriptor v
    = Build_PayloadDescriptor PayloadTypeOctetStream defaultOctetStreamMediaType (Extension e)) as E1.
  { unfold NormalizePayloadDescriptor. rewrite Hc, (bool_decide_false _ Hm), (bool_decide_true _ Ht), <-Ee.
    cbn [andb negb]. by rewrite (bool_decide_false _ Hn). }
  split; [done|]. rewrite E1. unfold NormalizePayloadDescriptor. cbn [MediaType Extension PayloadType].
  replace (normalizePayloadExtension (Extension e)) with (Extension e)
    by (rewrite Ee; symmetry; by apply normalizePayloadExtension_idemp).
  replace (PayloadDescriptorForContentType defaultOctetStreamMediaType) with (Some DefaultOctetStreamDescriptor)
    by (vm_compute; reflexivity).
  rewrite (bool_decide_false _ Hn). cbn [negb]. rewrite (bool_decide_false (trim_space _ = "")) by done. cbn [andb].
  unfold resolveConsistentExtension. replace (PayloadDescriptorForExtension (Extension e)) with (Some e)
    by (rewrite Ee; symmetry; by rewrite ForExtension_normalize).
  by rewrite (bool_decide_false _ Hne).
Qed.
End properties.

Section witnesses.
#[local] Existing Instance latin1_tables.
Lemma normalize_descriptor_settles_witness :
  let d := NormalizePayloadDescriptor (Build_PayloadDescriptor "YAML" "" "json") in
  NormalizePayloadDescriptor d = d /\ consistent d.
Proof. apply normalize_descriptor_settles; vm_compute; reflexivity. Defined.
Lemma stray_media_type_unstable_witness :
  NormalizePayloadDescriptor (Build_PayloadDescriptor "" "foo/bar" ".json")
    = Build_PayloadDescriptor PayloadTypeOctetStream defaultOctetStreamMediaType ".json"
  /\ NormalizePayloadDescriptor (NormalizePayloadDescriptor (Build_PayloadDescriptor "" "foo/bar" ".json"))
    = DefaultOctetStreamDescriptor.
Proof.
  apply (stray_media_type_unstable (Build_PayloadDescriptor "" "foo/bar" ".json")
    (Build_PayloadDescriptor "json" "application/json" ".json")); vm_compute; try reflexivity; discriminate.
Defined.
End witnesses.
