(* ===== verification/CodecKV.v ===== *)
(** * INI and properties payloads

    Models [src/resource/payload_codec_kv.go]: the readers and writers of the two
    line-based formats, on byte strings. [range] over the runes of a line is written
    over its bytes where the runes looked for are ASCII: a byte of a longer rune is
    never one of them. *)
From S2P Require Import Prelude GoText GoTextFacts GoFloat Faults Value.
Local Open Scope nat_scope.

Definition is_eq_colon (c : ascii) : bool := (c == "="%char) || (c == ":"%char).
Definition is_properties_space (c : ascii) : bool := (c == " "%char) || (c == "009"%char) || (c == "012"%char).
(** The text before the first byte satisfying [f], that byte, the text after. *)
Fixpoint cut_at (f : ascii -> bool) (s : string) : option (string * ascii * string) :=
  match s with
  | EmptyString => None
  | String c s' =>
      if f c then Some ("", c, s')
      else '(k, d, v) ← cut_at f s'; Some (String c k, d, v)
  end.
(** [s[1 : len(s)-1]]. *)
Definition inner (s : string) : string := str_take (String.length s - 2) (str_drop 1 s).

Definition splitPayloadLines (data : string) : list string :=
  let text := replace_all data (String "013" (String "010" "")) (String "010" "") in
  let text := replace_all text (String "013" "") (String "010" "") in
  split_on "010" text.

Section codec.
Context `{UnicodeTables}.
(** [fmt.Sprint] on the values that are not in the normal form; the writers are
    called on normalized payloads only. *)
Context (sprint_other : value -> string).

(** ** Scalars *)
Definition sprint (v : value) : string :=
  match v with
  | VBinary s => "{[" +:+ str_join " " ((fun c => itoa (byte_Z c)) <$> String.list_ascii_of_string s) +:+ "]}"
  | _ => sprint_other v
  end.
Definition stringifyStructuredTextScalar (v : value) (payloadType : string) : result error string :=
  match v with
  | VNil => Ok ""
  | VString s => Ok s
  | VBool b => Ok (if b then "true" else "false")
  | VInt64 z => Ok (itoa z)
  | VFloat64 f => Ok (format_float f)
  | VMap _ => Err (Invalid ("failed to encode " +:+ payloadType +:+ " payload")
      (Some (errorf (payloadType +:+ " payloads support only root objects and scalar values"))))
  | VList _ => Err (Invalid ("failed to encode " +:+ payloadType +:+ " payload")
      (Some (errorf (payloadType +:+ " payloads do not support arrays"))))
  | _ => Ok (sprint v)
  end.

(** ** INI *)
Definition parseINILine (line : string) : result error (string * string) :=
  match cut_at is_eq_colon line with
  | Some (k, _, v) =>
      let key := trim_space k in
      if key == "" then Err (errorf "missing key") else Ok (key, trim_space v)
  | None =>
      match fields line with
      | [] => Err (errorf "missing key")
      | key :: _ =>
          if String.length key == String.length (trim_space line) then Ok (key, "")
          else Ok (key, trim_space (str_drop (String.length key) line))
      end
  end.

(** The state of [decodeINIPayload]: [current] aliases the root map ([None]) or the
    map of a section of it. *)
Record ini_state := { ini_root : object; ini_current : option string }.
Definition ini_assign (st : ini_state) (key : string) (v : value) : ini_state :=
  match ini_current st with
  | None => {| ini_root := <[key := v]> (ini_root st); ini_current := None |}
  | Some section =>
      let m := match ini_root st !! section with Some (VMap m) => m | _ => ∅ end in
      {| ini_root := <[section := VMap (<[key := v]> m)]> (ini_root st); ini_current := Some section |}
  end.
Definition ini_line (st : ini_state) (rawLine : string) : result error ini_state :=
  let trimmed := trim_space rawLine in
  if (trimmed == "") || has_prefix trimmed ";" || has_prefix trimmed "#" then Ok st
  else if has_prefix trimmed "[" && has_suffix trimmed "]" then
    let section := trim_space (inner trimmed) in
    if section == "" then Err (Invalid "invalid ini payload" (Some (errorf "empty section name")))
    else match ini_root st !! section with
         | None => Ok {| ini_root := <[section := VMap ∅]> (ini_root st); ini_current := Some section |}
         | Some (VMap _) => Ok {| ini_root := ini_root st; ini_current := Some section |}
         | Some _ => Err (Invalid "invalid ini payload"
             (Some (errorf ("section " +:+ quote section +:+ " conflicts with a scalar key"))))
         end
  else
    '(key, v) ← map_err (fun err => Invalid "invalid ini payload" (Some err)) (parseINILine trimmed);
    Ok (ini_assign st key (VString v)).
Fixpoint ini_lines (st : ini_state) (lines : list string) : result error ini_state :=
  match lines with
  | [] => Ok st
  | l :: lines => st ← ini_line st l; ini_lines st lines
  end.
Definition decodeINIPayload (data : string) : result error object :=
  st ← ini_lines {| ini_root := ∅; ini_current := None |} (splitPayloadLines data);
  Ok (ini_root st).

Definition newline : string := String "010" "".
Definition is_object (v : value) : bool := match v with VMap _ => true | _ => false end.
Definition ini_entry (m : object) (key : string) : result error string :=
  text ← stringifyStructuredTextScalar (default VNil (m !! key)) "ini";
  Ok (key +:+ " = " +:+ text).
Definition ini_section (root : object) (blank : bool) (section : string) : result error (list string) :=
  let sectionMap := default ∅ (root !! section ≫= as_object) in
  entries ← sequence (map (ini_entry sectionMap) (sorted_keys sectionMap));
  Ok ((if blank then [""] else []) ++ ("[" +:+ section +:+ "]") :: entries).
Definition encodeINIPayload (v : value) : result error string :=
  match v with
  | VMap root =>
      let keys := sorted_keys root in
      let is_section k := default false (is_object <$> root !! k) in
      let rootKeys := filter (fun k => is_section k = false) keys in
      let sectionKeys := filter (fun k => is_section k = true) keys in
      lines ← sequence (map (ini_entry root) rootKeys);
      sections ← sequence (imap (fun idx section =>
        ini_section root ((0 <? length lines)%nat || (0 <? idx)%nat) section) sectionKeys);
      let lines := lines ++ concat sections in
      Ok (if length lines == 0 then "" else str_join newline lines +:+ newline)
  | _ => Err (Invalid "failed to encode ini payload" (Some (errorf "ini payload requires an object")))
  end.

(** ** Properties: reading *)
Fixpoint count_trailing_backslashes (s : string) : nat :=
  match s with
  | String "\"%char s => S (count_trailing_backslashes s)
  | _ => 0
  end.
Definition hasTrailingUnescapedBackslash (s : string) : bool :=
  Nat.odd (count_trailing_backslashes (String.rev s)).

Definition bom : string := String "239" (String "187" (String "191" "")).
(** One round of [propertiesLogicalLines]: the finished lines and [current]. *)
Definition logical_line (st : list string * string) (line : string) : list string * string :=
  let '(logical, current) := st in
  let current :=
    if current == "" then line
    else str_take (String.length current - 1) current +:+ trim_left_bytes is_properties_space line in
  if hasTrailingUnescapedBackslash current then (logical, current) else (logical ++ [current], "").
Definition propertiesLogicalLines (data : string) : list string :=
  let lines := match splitPayloadLines data with
               | [] => []
               | line :: lines => trim_prefix line bom :: lines
               end in
  let '(logical, current) := foldl logical_line ([], "") lines in
  if current == "" then logical else logical ++ [current].

(** The first separator that is not escaped: the key, the separator, the rest. *)
Fixpoint find_separator (escaped : bool) (s : string) : option (string * ascii * string) :=
  match s with
  | EmptyString => None
  | String c s' =>
      let next escaped := '(k, d, v) ← find_separator escaped s'; Some (String c k, d, v) in
      if escaped then next false
      else if c == "\"%char then next true
      else if is_eq_colon c || is_properties_space c then Some ("", c, s')
      else next false
  end.
Fixpoint skip_separators (space_sep : bool) (s : string) : string :=
  match s with
  | EmptyString => EmptyString
  | String c s' =>
      if is_properties_space c || (space_sep && is_eq_colon c) then skip_separators space_sep s' else s
  end.
Definition splitPropertiesKeyValue (line : string) : string * string :=
  match find_separator false line with
  | None => (line, "")
  | Some (key, sep, rest) => (key, skip_separators (is_properties_space sep) rest)
  end.

Definition write_byte (c : ascii) (r : result error string) : result error string := String c <$> r.
Fixpoint unescapePropertiesString (s : string) : result error string :=
  match s with
  | EmptyString => Ok ""
  | String c s' =>
      if negb (c == "\"%char) then write_byte c (unescapePropertiesString s')
      else match s' with
           | EmptyString => Ok "\"
           | String d s'' =>
               match d with
               | "t" => write_byte "009" (unescapePropertiesString s'')
               | "n" => write_byte "010" (unescapePropertiesString s'')
               | "r" => write_byte "013" (unescapePropertiesString s'')
               | "f" => write_byte "012" (unescapePropertiesString s'')
               | "u" =>
                   match s'' with
                   | String h1 (String h2 (String h3 (String h4 rest))) =>
                       let hexValue := String h1 (String h2 (String h3 (String h4 ""))) in
                       match parse_hex_n 4 0 hexValue with
                       | Some (codePoint, _) =>
                           (fun t => encode_rune codePoint +:+ t) <$> unescapePropertiesString rest
                       | None => Err (errorf ("invalid unicode escape " +:+ quote ("\u" +:+ hexValue)))
                       end
                   | _ => Err (errorf "truncated unicode escape")
                   end
               | _ => write_byte d (unescapePropertiesString s'')
               end%char
           end
  end.
(** One logical line of [decodePropertiesPayload]. *)
Definition properties_line (values : object) (rawLine : string) : result error object :=
  let trimmed := trim_left_bytes is_properties_space rawLine in
  if (trimmed == "") || has_prefix trimmed "#" || has_prefix trimmed "!" then Ok values
  else
    let '(keyRaw, valueRaw) := splitPropertiesKeyValue trimmed in
    let invalid err := Invalid "invalid properties payload" (Some err) in
    key ← map_err invalid (unescapePropertiesString keyRaw);
    v ← map_err invalid (unescapePropertiesString valueRaw);
    Ok (<[key := VString v]> values).
Fixpoint properties_lines (values : object) (lines : list string) : result error object :=
  match lines with
  | [] => Ok values
  | l :: lines => values ← properties_line values l; properties_lines values lines
  end.
Definition decodePropertiesPayload (data : string) : result error object :=
  properties_lines ∅ (propertiesLogicalLines data).

(** ** Properties: writing *)
Definition escape_key_rune (p : nat * Z) : string :=
  let '(idx, r) := p in
  if (r =? 92)%Z then "\\"
  else if (r =? 61)%Z || (r =? 58)%Z || (r =? 35)%Z || (r =? 33)%Z then "\" +:+ encode_rune r
  else if (r =? 32)%Z && (idx =? 0)%nat then "\ "
  else encode_rune r.
Definition escapePropertiesKey (s : string) : string := str_join "" (escape_key_rune <$> range_string s).
Definition escape_value_rune (p : nat * Z) : string :=
  let '(idx, r) := p in
  if (r =? 92)%Z then "\\"
  else if (r =? 9)%Z then "\t"
  else if (r =? 10)%Z then "\n"
  else if (r =? 13)%Z then "\r"
  else if (r =? 12)%Z then "\f"
  else if (r =? 32)%Z && (idx =? 0)%nat then "\ "
  else encode_rune r.
Definition escapePropertiesValue (s : string) : string := str_join "" (escape_value_rune <$> range_string s).

Definition properties_entry (root : object) (key : string) : result error string :=
  text ← stringifyStructuredTextScalar (default VNil (root !! key)) "properties";
  Ok (escapePropertiesKey key +:+ "=" +:+ escapePropertiesValue text).
Definition encodePropertiesPayload (v : value) : result error string :=
  match v with
  | VMap root =>
      lines ← sequence (map (properties_entry root) (sorted_keys root));
      Ok (if length lines == 0 then "" else str_join newline lines +:+ newline)
  | _ => Err (Invalid "failed to encode properties payload"
           (Some (errorf "properties payload requires an object")))
  end.
End codec.

(** ** Properties: what is written reads back *)
Section properties_lemmas.
Context `{UnicodeTables}.
Implicit Types (s t : string) (c : ascii).

Lemma str_join_empty_cons x l : str_join "" (x :: l) = x +:+ str_join "" l.
Proof. destruct l; cbn; by str. Qed.

(** The writers byte by byte, for ASCII text. *)
Definition key_byte c : string :=
  if c == "\"%char then "\\"
  else if is_eq_colon c || (c == "#"%char) || (c == "!"%char) then String "\" (String c "")
  else String c "".
Definition value_byte c : string :=
  match c with
  | "\"%char => "\\" | "009"%char => "\t" | "010"%char => "\n" | "013"%char => "\r" | "012"%char => "\f"
  | _ => String c ""
  end.
Definition escape_text (f : ascii -> string) s : string :=
  match s with
  | EmptyString => ""
  | String c s' => (if c == " "%char then "\ " else f c) +:+ str_map f s'
  end.

Section escape_ascii.
Context (g : nat * Z -> string) (f : ascii -> string).
Context (Hg : forall idx c, is_ascii c = true ->
  g (idx, byte_Z c) = if (c == " "%char) && (idx =? 0) then "\ " else f c).
Lemma escape_tail_ascii idx s : ascii_text s -> str_join "" (g <$> runes_go 0 (S idx) s) = str_map f s.
Proof.
  revert idx. induction s as [|c s IH]; intros idx; [done|]. intros Ha.
  cbn [all_bytes] in Ha. apply andb_true_iff in Ha as [Hc Hs].
  rewrite runes_go_ascii by done. change (g <$> ?x :: ?l) with (g x :: (g <$> l)).
  rewrite str_join_empty_cons, IH, Hg by done. cbn [Nat.eqb]. by rewrite andb_false_r.
Qed.
Lemma escape_text_ascii s : ascii_text s -> str_join "" (g <$> range_string s) = escape_text f s.
Proof.
  destruct s as [|c s]; [done|]. cbn [all_bytes]. intros [Hc Hs]%andb_true_iff.
  unfold range_string. rewrite runes_go_ascii by done. change (g <$> ?x :: ?l) with (g x :: (g <$> l)).
  rewrite str_join_empty_cons, escape_tail_ascii, Hg by done. cbn [Nat.eqb escape_text].
  by rewrite andb_true_r.
Qed.
End escape_ascii.

Lemma escape_key_rune_byte idx c : is_ascii c = true ->
  escape_key_rune (idx, byte_Z c) = if (c == " "%char) && (idx =? 0) then "\ " else key_byte c.
Proof.
  intros Ha. assert (encode_rune (byte_Z c) = String c "") as E.
  { unfold is_ascii in Ha. assert (Hn := byte_Z_nonneg c). rewrite encode_rune_ascii by lia. by rewrite Z_byte_Z. }
  unfold escape_key_rune. rewrite E. destruct (idx =? 0); revert Ha; clear; all_bytes_tac c.
Qed.
Lemma escape_value_rune_byte idx c : is_ascii c = true ->
  escape_value_rune (idx, byte_Z c) = if (c == " "%char) && (idx =? 0) then "\ " else value_byte c.
Proof.
  intros Ha. assert (encode_rune (byte_Z c) = String c "") as E.
  { unfold is_ascii in Ha. assert (Hn := byte_Z_nonneg c). rewrite encode_rune_ascii by lia. by rewrite Z_byte_Z. }
  unfold escape_value_rune. rewrite E. destruct (idx =? 0); revert Ha; clear; all_bytes_tac c.
Qed.
Lemma escapePropertiesKey_ascii s : ascii_text s -> escapePropertiesKey s = escape_text key_byte s.
Proof. apply escape_text_ascii. intros. by apply escape_key_rune_byte. Qed.
Lemma escapePropertiesValue_ascii s : ascii_text s -> escapePropertiesValue s = escape_text value_byte s.
Proof. apply escape_text_ascii. intros. by apply escape_value_rune_byte. Qed.

(** *** Trailing backslashes *)
Fixpoint esc_state (b : bool) s : bool :=
  match s with EmptyString => b | String c s => esc_state (negb b && (c == "\"%char)) s end.
Lemma esc_state_app b s t : esc_state b (s +:+ t) = esc_state (esc_state b s) t.
Proof. revert b. induction s as [|c s IH]; intros b; [done|]. str. cbn. apply IH. Qed.
Lemma trailing_esc_state s : hasTrailingUnescapedBackslash s = esc_state false s.
Proof.
  pattern s. apply str_snoc_ind; clear s; [done|]. intros s c IH.
  rewrite esc_state_app, <-IH. unfold hasTrailingUnescapedBackslash. rewrite str_rev_app.
  change (String.rev (String c "")) with (String c ""). str. cbn [esc_state].
  destruct (decide (c = "\"%char)) as [->|Hc].
  - eqb. cbn [count_trailing_backslashes]. by rewrite Nat.odd_succ, <-Nat.negb_odd, andb_true_r.
  - eqb. rewrite andb_false_r. destruct c as [[] [] [] [] [] [] [] []]; try done.
Qed.
Lemma esc_state_map f s : (forall c, esc_state false (f c) = false) -> esc_state false (str_map f s) = false.
Proof. intros Hf. induction s as [|c s IH]; [done|]. cbn. by rewrite esc_state_app, Hf. Qed.
Lemma esc_state_text f s : (forall c, esc_state false (f c) = false) -> esc_state false (escape_text f s) = false.
Proof.
  intros Hf. destruct s as [|c s]; [done|]. cbn [escape_text].
  rewrite esc_state_app. destruct (c == " "%char); [|rewrite Hf]; by apply esc_state_map.
Qed.
Lemma key_byte_esc c : esc_state false (key_byte c) = false.
Proof. all_bytes_tac c. Qed.
Lemma value_byte_esc c : esc_state false (value_byte c) = false.
Proof. all_bytes_tac c. Qed.

(** *** Separators and unescaping *)
Definition plain_key_byte c : bool := negb (is_properties_space c || (c == "010"%char) || (c == "013"%char)).
(** The keys that survive: no space after the first byte, no control separator. *)
Definition valid_key s : bool :=
  match s with
  | EmptyString => true
  | String c s' => ((c == " "%char) || plain_key_byte c) && all_bytes plain_key_byte s'
  end.

Definition prepend3 (p : string) (x : option (string * ascii * string)) : option (string * ascii * string) :=
  '(k, d, v) ← x; Some (p +:+ k, d, v).
Lemma find_separator_escaped c t :
  find_separator false (String "\" (String c t)) = prepend3 (String "\" (String c "")) (find_separator false t).
Proof.
  cbn [find_separator]. eqb. unfold prepend3. destruct (find_separator false t) as [[[k d] v]|]; cbn; by str.
Qed.
Lemma find_separator_key_byte c t : plain_key_byte c = true ->
  find_separator false (key_byte c +:+ t) = prepend3 (key_byte c) (find_separator false t).
Proof.
  intros Hc. unfold key_byte. destruct (decide (c = "\"%char)) as [->|Hb].
  { eqb. str. cbn [find_separator]. eqb. unfold prepend3. destruct (find_separator false t) as [[[k d] v]|]; cbn; by str. }
  eqb. unfold plain_key_byte in Hc. apply negb_true_iff in Hc. rewrite !orb_false_iff in Hc. destruct Hc as [[Hc _] _].
  destruct (is_eq_colon c) eqn:Hec; cbn [orb]; [|destruct (_ || _)]; str; cbn [find_separator];
    eqb; rewrite ?Hec, ?Hc; unfold prepend3; destruct (find_separator false t) as [[[k d] v]|]; cbn; by str.
Qed.
Lemma find_separator_map s t : all_bytes plain_key_byte s = true ->
  find_separator false (str_map key_byte s +:+ t) = prepend3 (str_map key_byte s) (find_separator false t).
Proof.
  induction s as [|c s IH]; cbn [all_bytes str_map].
  - intros _. rewrite app_empty_l. unfold prepend3. by destruct (find_separator false t) as [[[k d] v]|].
  - intros [Hc Hs]%andb_true_iff. rewrite str_app_assoc, find_separator_key_byte, IH by done.
    unfold prepend3. destruct (find_separator false t) as [[[k d] v]|]; cbn; [|done]. by rewrite str_app_assoc.
Qed.
Lemma find_separator_key s v : valid_key s = true ->
  find_separator false (escape_text key_byte s +:+ String "=" v) = Some (escape_text key_byte s, "="%char, v).
Proof.
  destruct s as [|c s]; [done|]. cbn [valid_key escape_text]. intros [Hc Hs]%andb_true_iff.
  assert (find_separator false (str_map key_byte s +:+ String "=" v) = Some (str_map key_byte s, "="%char, v)) as E.
  { rewrite find_separator_map by done. change (find_separator false (String "=" v)) with (Some ("", "="%char, v)).
    cbn. by rewrite app_empty_r. }
  rewrite str_app_assoc. destruct (decide (c = " "%char)) as [->|Hsp]; eqb.
  - str. by rewrite find_separator_escaped, E.
  - eqb_in Hc. by rewrite find_separator_key_byte, E.
Qed.

Lemma unescape_key_byte c t : unescapePropertiesString (key_byte c +:+ t) = write_byte c (unescapePropertiesString t).
Proof. destruct c as [[] [] [] [] [] [] [] []]; reflexivity. Qed.
Lemma unescape_value_byte c t : unescapePropertiesString (value_byte c +:+ t) = write_byte c (unescapePropertiesString t).
Proof. destruct c as [[] [] [] [] [] [] [] []]; reflexivity. Qed.
Section unescape.
Context (f : ascii -> string).
Context (Hf : forall c t, unescapePropertiesString (f c +:+ t) = write_byte c (unescapePropertiesString t)).
Lemma unescape_map s t : unescapePropertiesString (str_map f s +:+ t) = (fun u => s +:+ u) <$> unescapePropertiesString t.
Proof.
  induction s as [|c s IH]; cbn [str_map].
  - rewrite app_empty_l. destruct (unescapePropertiesString t); [|done]. cbn. by rewrite app_empty_l.
  - rewrite str_app_assoc, Hf, IH. by destruct (unescapePropertiesString t).
Qed.
Lemma unescape_text s : unescapePropertiesString (escape_text f s) = Ok s.
Proof.
  destruct s as [|c s]; [done|]. cbn [escape_text].
  assert (unescapePropertiesString (str_map f s) = Ok s) as E.
  { rewrite <-(app_empty_r (str_map f s)), unescape_map. cbn. by rewrite app_empty_r. }
  destruct (decide (c = " "%char)) as [->|Hc]; eqb; [str; cbn|rewrite Hf]; by rewrite E.
Qed.
End unescape.
End properties_lemmas.

Section properties_round_trip.
Context `{UnicodeTables} (sprint_other : value -> string).

Definition line_text (k t : string) : string :=
  escape_text key_byte k +:+ String "=" (escape_text value_byte t).
Definition is_eol (c : ascii) : bool := (c == "010"%char) || (c == "013"%char).

Lemma str_map_no_byte (g : ascii -> bool) f (P : ascii -> bool) s :
  (forall c, P c = true -> contains_byte g (f c) = false) -> all_bytes P s = true ->
  contains_byte g (str_map f s) = false.
Proof.
  intros Hf. induction s as [|c s IH]; [done|]. cbn. intros [Hc Hs]%andb_true_iff.
  by rewrite contains_byte_app, Hf, IH.
Qed.
Lemma line_no_eol k t : valid_key k = true -> contains_byte is_eol (line_text k t) = false.
Proof.
  intros Hk. unfold line_text. rewrite contains_byte_app. apply orb_false_iff. split.
  - destruct k as [|c k]; [done|]. cbn [valid_key escape_text] in *. apply andb_true_iff in Hk as [Hc Hk].
    rewrite contains_byte_app. apply orb_false_iff. split.
    + destruct (decide (c = " "%char)) as [->|Hs]; eqb; [done|]. eqb_in Hc. revert Hc. clear. all_bytes_tac c.
    + eapply str_map_no_byte; [|exact Hk]. clear. intros c. all_bytes_tac c.
  - cbn [contains_byte]. change (is_eol "=") with false. cbn [orb].
    destruct t as [|c t]; [done|]. cbn [escape_text]. rewrite contains_byte_app. apply orb_false_iff. split.
    + destruct (c == " "%char); [done|]. clear. all_bytes_tac c.
    + apply (str_map_no_byte _ _ (fun _ => true)); [intros d _; revert d; clear; intros d; all_bytes_tac d|].
      clear. by induction t.
Qed.
Lemma line_esc_state k t : hasTrailingUnescapedBackslash (line_text k t) = false.
Proof.
  rewrite trailing_esc_state. unfold line_text. rewrite esc_state_app, esc_state_text by apply key_byte_esc.
  cbn [esc_state]. change ("="%char == "\"%char) with false. cbn [negb andb].
  apply esc_state_text, value_byte_esc.
Qed.
(** A line starts like none of those the reader strips or skips. *)
Definition plain_start (s : string) : bool :=
  match s with
  | EmptyString => false
  | String c _ => is_ascii c && negb (is_properties_space c) && negb (c == "#"%char) && negb (c == "!"%char)
  end.
Lemma line_start k t : ascii_text k -> valid_key k = true -> plain_start (line_text k t) = true.
Proof.
  destruct k as [|c k]; [done|]. cbn [all_bytes valid_key]. unfold line_text. cbn [escape_text].
  intros [Ha _]%andb_true_iff [Hc _]%andb_true_iff. rewrite str_app_assoc. revert Ha Hc.
  generalize (str_map key_byte k +:+ String "=" (escape_text value_byte t)) as u. clear.
  intros u. destruct c as [[] [] [] [] [] [] [] []]; intros; (done || discriminate).
Qed.
Lemma plain_start_facts s : plain_start s = true ->
  trim_left_bytes is_properties_space s = s /\ s <> "" /\ has_prefix s "#" = false /\ has_prefix s "!" = false
  /\ trim_prefix s bom = s.
Proof.
  destruct s as [|c s]; [done|]. cbn [plain_start trim_left_bytes]. rewrite !andb_true_iff, !negb_true_iff.
  intros [[[Ha Hs] H1] H2]. rewrite Hs. split_and!; [done|done|by rewrite has_prefix_cons, H1|by rewrite has_prefix_cons, H2|].
  apply trim_prefix_id. unfold bom. rewrite has_prefix_cons. rewrite bool_decide_false; [done|]. intros ->. done.
Qed.
Lemma value_start t : skip_separators false (escape_text value_byte t) = escape_text value_byte t.
Proof.
  destruct t as [|c t]; [done|]. cbn [escape_text]. generalize (str_map value_byte t) as u. clear. intros u.
  destruct c as [[] [] [] [] [] [] [] []]; reflexivity.
Qed.
Lemma properties_line_text values k t : ascii_text k -> valid_key k = true ->
  properties_line values (line_text k t) = Ok (<[k := VString t]> values).
Proof.
  intros Ha Hk. destruct (plain_start_facts (line_text k t)) as (H1 & H2 & H3 & H4 & _); [by apply line_start|].
  unfold properties_line. rewrite H1, H3, H4, (bool_decide_false _ H2). cbn [orb].
  unfold splitPropertiesKeyValue, line_text. rewrite find_separator_key by done.
  change (is_properties_space "=") with false. rewrite value_start.
  rewrite !unescape_text by (apply unescape_key_byte || apply unescape_value_byte). done.
Qed.

Lemma logical_lines_plain ls acc :
  Forall (fun l => hasTrailingUnescapedBackslash l = false) ls ->
  foldl logical_line (acc, "") ls = (acc ++ ls, "").
Proof.
  intros Hl. revert acc. induction Hl as [|l ls Hl _ IH]; intros acc; cbn [foldl]; [by rewrite app_nil_r|].
  unfold logical_line at 2. eqb. rewrite Hl, IH. by rewrite <-app_assoc.
Qed.
Lemma replace_all_no_first s c t new : no_sep c s -> replace_all s (String c t) new = s.
Proof.
  unfold replace_all. induction s as [|d s IH]; [done|]. rewrite no_sep_cons. intros [Hd Hs].
  cbn [replace_go]. rewrite has_prefix_cons, bool_decide_false by done. cbn [andb]. by rewrite IH.
Qed.
Lemma splitPayloadLines_join ls : ls <> [] -> Forall (fun l => contains_byte is_eol l = false) ls ->
  splitPayloadLines (str_join newline ls +:+ newline) = ls ++ [""].
Proof.
  intros Hn Hl. assert (Forall (fun l => no_sep "010" l /\ no_sep "013" l) ls) as Hls.
  { eapply Forall_impl; [exact Hl|]. intros l. unfold no_sep. clear. induction l as [|c l IH]; [done|].
    cbn. unfold is_eol at 1. rewrite !orb_false_iff. intros [[? ?] Hc]. apply IH in Hc as [? ?]. done. }
  replace (str_join newline ls +:+ newline) with (str_join newline (ls ++ [""]))
    by (rewrite str_join_snoc by done; by rewrite app_empty_r).
  assert (no_sep "013" (str_join newline (ls ++ [""]))) as Hcr.
  { assert (Forall (no_sep "013") (ls ++ [""])) as Hf
      by (apply Forall_app; split; [eapply Forall_impl; [exact Hls|]; naive_solver|by repeat constructor]).
    revert Hf. generalize (ls ++ [""]) as l. clear. induction l as [|x l IH]; [done|]. intros Hf.
    inversion Hf; subst. destruct l as [|y l]; [done|]. rewrite str_join_cons2, !no_sep_app. split_and!; [done|done|auto]. }
  unfold splitPayloadLines. rewrite (replace_all_no_first _ _ _ _ Hcr), (replace_all_no_first _ _ _ _ Hcr).
  apply split_on_join; [by destruct ls|]. apply Forall_app. split; [|by repeat constructor].
  eapply Forall_impl; [exact Hls|]. naive_solver.
Qed.

(** The object of the texts of a payload. *)
Definition text_values (root : object) : object :=
  omap (fun v => VString <$> ok_opt (stringifyStructuredTextScalar sprint_other v "properties")) root.
Definition text_entries (root : object) (ks : list string) : list (string * string) :=
  omap (fun k => t ← root !! k ≫= fun v => ok_opt (stringifyStructuredTextScalar sprint_other v "properties");
                 Some (k, t)) ks.

Lemma properties_lines_texts kts values :
  Forall (fun kt => ascii_text kt.1 /\ valid_key kt.1 = true) kts ->
  properties_lines values ((fun kt => line_text kt.1 kt.2) <$> kts) =
  Ok (foldl (fun m kt => <[kt.1 := VString kt.2]> m) values kts).
Proof.
  intros Hk. revert values. induction Hk as [|[k t] kts [Ha Hk] _ IH]; intros values; [done|].
  change ((fun kt => line_text kt.1 kt.2) <$> (k, t) :: kts) with
    (line_text k t :: ((fun kt => line_text kt.1 kt.2) <$> kts)).
  cbn [properties_lines]. rewrite properties_line_text by done. apply IH.
Qed.
Lemma lookup_foldl_insert (kts : list (string * string)) (m : object) k :
  NoDup kts.*1 ->
  foldl (fun m kt => <[kt.1 := VString kt.2]> m) m kts !! k =
  match (list_to_map kts : gmap string string) !! k with Some t => Some (VString t) | None => m !! k end.
Proof.
  revert m. induction kts as [|[k' t] kts IH]; intros m; cbn; [done|].
  intros [Hn Hd]%NoDup_cons. rewrite IH by done. destruct (decide (k = k')) as [->|Hk].
  - rewrite lookup_insert_eq, not_elem_of_list_to_map_1 by done. by rewrite lookup_insert_eq.
  - by rewrite !lookup_insert_ne.
Qed.
End properties_round_trip.

Section properties_theorem.
Context `{UnicodeTables} (sprint_other : value -> string).

(** The payloads of the round trip: keys the writer escapes completely, ASCII
    texts. *)
Definition plain_entry (k : string) (v : value) : Prop :=
  ascii_text k /\ valid_key k = true /\
  match stringifyStructuredTextScalar sprint_other v "properties" with
  | Ok t => ascii_text t
  | Err _ => True
  end.

Lemma entries_lines root ks lines :
  (forall k, k ∈ ks -> is_Some (root !! k)) -> map_Forall plain_entry root ->
  sequence (map (properties_entry sprint_other root) ks) = Ok lines ->
  lines = (fun kt => line_text kt.1 kt.2) <$> text_entries sprint_other root ks
  /\ (text_entries sprint_other root ks).*1 = ks.
Proof.
  intros Hks Hp Hl. apply sequence_map_Ok in Hl. induction Hl as [|k line ks lines Hk _ IH]; [done|].
  destruct (Hks k) as [v Hv]; [by left|]. destruct (Hp _ _ Hv) as (Ha & Hvk & Ht).
  destruct IH as [-> E2]; [intros; apply Hks; by right|]. unfold properties_entry in Hk. rewrite Hv in Hk.
  change (default VNil (Some v)) with v in Hk. apply bind_Ok in Hk as (t & Et & [= <-]). rewrite Et in Ht.
  unfold text_entries in *. cbn [omap list_omap]. rewrite Hv. cbn. rewrite Et. cbn. rewrite E2. split; [|done].
  f_equal. unfold line_text. rewrite escapePropertiesKey_ascii, escapePropertiesValue_ascii by done. done.
Qed.
Lemma text_entries_lookup root ks k : NoDup ks ->
  (list_to_map (text_entries sprint_other root ks) : gmap string string) !! k =
  if decide (k ∈ ks) then root !! k ≫= fun v => ok_opt (stringifyStructuredTextScalar sprint_other v "properties")
  else None.
Proof.
  induction ks as [|k' ks IH]; intros Hd; [done|]. apply NoDup_cons in Hd as [Hn Hd]. specialize (IH Hd).
  unfold text_entries in *. cbn [omap list_omap].
  destruct (root !! k' ≫= _) as [t|] eqn:Et; cbn.
  - destruct (decide (k = k')) as [->|Hk].
    + rewrite lookup_insert_eq, decide_True by by left. done.
    + rewrite lookup_insert_ne by done. rewrite IH. by repeat case_decide; set_solver.
  - rewrite IH. destruct (decide (k = k')) as [->|Hk].
    + rewrite decide_False, decide_True by (done || by left). done.
    + by repeat case_decide; set_solver.
Qed.

(** A properties payload survives writing and reading: for an object whose keys
    have no space, tab, form feed or line break after their first byte (a leading
    space, separators, comment signs and backslashes are escaped) and whose scalars
    have ASCII texts with any control characters, decoding what
    [encodePropertiesPayload] writes gives the object of these texts. *)
Theorem properties_round_trip root text :
  map_Forall plain_entry root ->
  encodePropertiesPayload sprint_other (VMap root) = Ok text ->
  decodePropertiesPayload text = Ok (text_values sprint_other root).
Proof.
  intros Hp He. cbn [encodePropertiesPayload] in He. apply bind_Ok in He as (lines & Hl & [= <-]).
  destruct (entries_lines root (sorted_keys root) lines) as [El Ek]; [intros k; apply elem_of_sorted_keys|done|done|].
  set (kts := text_entries sprint_other root (sorted_keys root)) in *.
  assert (Forall (fun kt => ascii_text kt.1 /\ valid_key kt.1 = true) kts) as Hk.
  { apply Forall_forall. intros kt Hin. assert (kt.1 ∈ sorted_keys root) as Hs
      by (rewrite <-Ek; by apply list_elem_of_fmap_2).
    apply elem_of_sorted_keys in Hs as [v Hv]. destruct (Hp _ _ Hv) as (? & ? & _). done. }
  assert (Forall (fun l => contains_byte is_eol l = false) lines
    /\ Forall (fun l => hasTrailingUnescapedBackslash l = false) lines
    /\ Forall (fun l => plain_start l = true) lines) as (H1 & H2 & H3).
  { rewrite El. split_and!; apply Forall_fmap; (eapply Forall_impl; [exact Hk|]); intros [k t] [Ha Hv]; cbn;
      [by apply line_no_eol|by apply line_esc_state|by apply line_start]. }
  unfold decodePropertiesPayload.
  assert (propertiesLogicalLines (if length lines == 0 then "" else str_join newline lines +:+ newline)
    = lines ++ [""]) as ->.
  { unfold propertiesLogicalLines. destruct lines as [|l ls]; [reflexivity|].
    rewrite bool_decide_false by done. rewrite splitPayloadLines_join by done.
    cbn [app]. inversion H3; subst. destruct (plain_start_facts l) as (_ & _ & _ & _ & ->); [done|].
    change (l :: ls ++ [""]) with ((l :: ls) ++ [""]). rewrite logical_lines_plain; [done|].
    apply Forall_app. split; [done|by repeat constructor]. }
  rewrite El.
  assert (properties_lines ∅ (((fun kt => line_text kt.1 kt.2) <$> kts) ++ [""])
    = properties_lines ∅ ((fun kt => line_text kt.1 kt.2) <$> kts)) as ->.
  { generalize (∅ : object) as m. generalize ((fun kt => line_text kt.1 kt.2) <$> kts) as ls. clear.
    induction ls as [|l ls IH]; intros m; [done|]. cbn [app properties_lines].
    destruct (properties_line m l); [apply IH|done]. }
  rewrite properties_lines_texts by done. f_equal. apply map_eq. intros k.
  rewrite lookup_foldl_insert by (rewrite Ek; apply sorted_keys_NoDup).
  unfold kts. rewrite text_entries_lookup by apply sorted_keys_NoDup. unfold text_values. rewrite lookup_omap, lookup_empty.
  case_decide as Hin; [by destruct (root !! k) as [v|]; cbn; [destruct (stringifyStructuredTextScalar _ _ _)|]|].
  rewrite elem_of_sorted_keys in Hin. destruct (root !! k); [by destruct Hin|done].
Qed.

(** *** A space inside a key *)
Lemma key_byte_ident c : is_ident_byte c = true -> key_byte c = String c "".
Proof. all_bytes_tac c. Qed.
Lemma key_map_ident s : all_bytes is_ident_byte s = true -> str_map key_byte s = s.
Proof.
  induction s as [|c s IH]; [done|]. cbn. intros [Hc Hs]%andb_true_iff. by rewrite key_byte_ident, IH.
Qed.
Lemma ident_ascii s : all_bytes is_ident_byte s = true -> ascii_text s.
Proof.
  induction s as [|c s IH]; [done|]. cbn. intros [Hc Hs]%andb_true_iff. rewrite IH, andb_true_r by done.
  revert Hc. clear. all_bytes_tac c.
Qed.
Lemma ident_byte_plain c : is_ident_byte c = true ->
  (c == "\"%char) = false /\ is_eq_colon c = false /\ is_properties_space c = false
  /\ (c == " "%char) = false /\ is_eol c = false.
Proof. all_bytes_tac c. Qed.
Lemma find_separator_ident a r : all_bytes is_ident_byte a = true ->
  find_separator false (a +:+ String " " r) = Some (a, " "%char, r).
Proof.
  induction a as [|c a IH]; [done|]. cbn [all_bytes]. intros [Hc Ha]%andb_true_iff. str.
  destruct (ident_byte_plain c Hc) as (H1 & H2 & H3 & _). cbn [find_separator]. rewrite H1, H2, H3, IH by done. done.
Qed.
Lemma unescape_ident b r : all_bytes is_ident_byte b = true ->
  unescapePropertiesString (b +:+ r) = (fun t => b +:+ t) <$> unescapePropertiesString r.
Proof.
  intros Hb. rewrite <-(unescape_map key_byte) by apply unescape_key_byte. by rewrite key_map_ident.
Qed.
Definition spaced_line (a b t : string) : string :=
  a +:+ String " " (b +:+ String "=" (escape_text value_byte t)).
Lemma spaced_line_plain a b t : a <> "" -> all_bytes is_ident_byte a = true -> all_bytes is_ident_byte b = true ->
  contains_byte is_eol (spaced_line a b t) = false
  /\ hasTrailingUnescapedBackslash (spaced_line a b t) = false /\ plain_start (spaced_line a b t) = true.
Proof.
  intros Hn Ha Hb. assert (forall s, all_bytes is_ident_byte s = true -> contains_byte is_eol s = false) as Hi.
  { induction s as [|c s IH]; [done|]. cbn. intros [Hc Hs]%andb_true_iff.
    destruct (ident_byte_plain c Hc) as (_ & _ & _ & _ & ->). auto. }
  assert (forall s, all_bytes is_ident_byte s = true -> esc_state false s = false) as He.
  { intros s Hs. rewrite <-(key_map_ident s Hs). apply esc_state_map, key_byte_esc. }
  unfold spaced_line. split_and!.
  - rewrite contains_byte_app, (Hi a Ha). cbn [contains_byte orb]. change (is_eol " ") with false. cbn [orb].
    rewrite contains_byte_app, (Hi b Hb). apply (line_no_eol "" t). done.
  - rewrite trailing_esc_state, esc_state_app, (He a Ha). cbn [esc_state].
    change (" "%char == "\"%char) with false. cbn [negb andb]. rewrite esc_state_app, (He b Hb). cbn [esc_state].
    change ("="%char == "\"%char) with false. apply esc_state_text, value_byte_esc.
  - destruct a as [|c a]; [done|]. cbn [all_bytes] in Ha. apply andb_true_iff in Ha as [Hc _]. str.
    revert Hc. clear. intros Hc. cbn [plain_start]. revert Hc. all_bytes_tac c.
Qed.

(** A key with a space inside does not survive: the writer escapes only a
    leading space, so the member [a b] with the text [t] reads back as the member [a]
    with the text [b=t]. *)
Lemma properties_key_space a b t text :
  a <> "" -> b <> "" -> all_bytes is_ident_byte a = true -> all_bytes is_ident_byte b = true -> ascii_text t ->
  encodePropertiesPayload sprint_other (VMap {[ a +:+ " " +:+ b := VString t ]}) = Ok text ->
  decodePropertiesPayload text = Ok {[ a := VString (b +:+ "=" +:+ t) ]}.
Proof.
  intros Hna Hnb Ha Hb Ht He.
  assert (text = spaced_line a b t +:+ newline) as ->.
  { cbn [encodePropertiesPayload] in He. unfold sorted_keys in He.
    rewrite map_to_list_singleton in He. cbn [fmap list_fmap sort_strings] in He.
    change (sort_strings [(a +:+ " " +:+ b, VString t).1]) with [a +:+ " " +:+ b] in He.
    cbn [map sequence] in He. unfold properties_entry in He. rewrite lookup_singleton_eq in He.
    cbn in He. injection He as <-. rewrite escapePropertiesKey_ascii, escapePropertiesValue_ascii by
      (done || rewrite !all_bytes_app, (ident_ascii a Ha), (ident_ascii b Hb); done).
    unfold spaced_line. destruct a as [|c a]; [done|]. cbn [all_bytes] in Ha. apply andb_true_iff in Ha as [Hc Ha].
    destruct (ident_byte_plain c Hc) as (_ & _ & _ & Hsp & _). str. cbn [escape_text]. rewrite Hsp, key_byte_ident by done.
    rewrite !str_map_app. change (str_map key_byte (String " " b)) with (String " " (str_map key_byte b)).
    rewrite !key_map_ident by done. by str. }
  destruct (spaced_line_plain a b t) as (H1 & H2 & H3); [done..|].
  unfold decodePropertiesPayload. assert (propertiesLogicalLines (spaced_line a b t +:+ newline) = [spaced_line a b t; ""]) as ->.
  { unfold propertiesLogicalLines. change (spaced_line a b t +:+ newline) with (str_join newline [spaced_line a b t] +:+ newline).
    rewrite splitPayloadLines_join by (done || by constructor). cbn [app].
    destruct (plain_start_facts _ H3) as (_ & _ & _ & _ & ->).
    rewrite logical_lines_plain by by repeat constructor. done. }
  destruct (plain_start_facts _ H3) as (P1 & P2 & P3 & P4 & _).
  enough (properties_line ∅ (spaced_line a b t) = Ok {[ a := VString (b +:+ "=" +:+ t) ]}) as E
    by (cbn [properties_lines]; by rewrite E).
  unfold properties_line. rewrite P1, P3, P4, (bool_decide_false _ P2). cbn [orb].
  unfold splitPropertiesKeyValue, spaced_line. rewrite find_separator_ident by done.
  change (is_properties_space " ") with true.
  assert (skip_separators true (b +:+ String "=" (escape_text value_byte t)) = b +:+ String "=" (escape_text value_byte t)) as ->.
  { destruct b as [|c b]; [done|]. cbn [all_bytes] in Hb. apply andb_true_iff in Hb as [Hc _]. str.
    destruct (ident_byte_plain c Hc) as (_ & Q1 & Q2 & _). cbn [skip_separators]. by rewrite Q1, Q2. }
  rewrite <-(app_empty_r a) at 1. rewrite !unescape_ident by done.
  change (unescapePropertiesString (String "=" ?s)) with (write_byte "=" (unescapePropertiesString s)).
  rewrite unescape_text by apply unescape_value_byte. cbn. by rewrite app_empty_r.
Qed.
End properties_theorem.

(** ** INI: the shape of what is read *)
Section ini.
Context `{UnicodeTables}.

Definition is_text (v : value) : Prop := exists s, v = VString s.
Definition ini_value (v : value) : Prop :=
  is_text v \/ exists m, v = VMap m /\ map_Forall (fun k v => k <> "" /\ is_text v) m.
Definition ini_shape (root : object) : Prop := map_Forall (fun k v => k <> "" /\ ini_value v) root.
(** The alias of a section is a section of the root. *)
Definition ini_inv (st : ini_state) : Prop :=
  ini_shape (ini_root st) /\
  match ini_current st with
  | None => True
  | Some section => exists m, ini_root st !! section = Some (VMap m)
  end.

Lemma fields_go_cons cur c s1 :
  fields_go cur (String c s1) =
  if is_ascii_space c then push_field cur (fields_go "" s1)
  else match s1 with
       | EmptyString => push_field (String c cur) []
       | String d s2 =>
           if is_space2 c d then push_field cur (fields_go "" s2)
           else match s2 with
                | EmptyString => fields_go (String c cur) s1
                | String e s3 => if is_space3 c d e then push_field cur (fields_go "" s3) else fields_go (String c cur) s1
                end
       end.
Proof. reflexivity. Qed.
Lemma parseINILine_key line k v : trim_space line = line -> parseINILine line = Ok (k, v) -> k <> "".
Proof.
  unfold parseINILine. intros Ht. destruct (cut_at is_eq_colon line) as [[[k' d] v']|].
  { case_bool_decide as Hk; [done|]. by intros [= <- _]. }
  destruct (fields line) as [|f fs] eqn:Ef; [done|].
  assert (f <> "") as Hf.
  { assert (Forall (fun x => x <> "") (fields line)) as Hall; [|rewrite Ef in Hall; by inversion Hall].
    unfold fields. enough (forall cur, Forall (fun x => x <> "") (fields_go cur line)) by auto. clear.
    assert (forall cur l, Forall (fun x => x <> "") l -> Forall (fun x => x <> "") (push_field cur l)) as Hp.
    { intros cur l Hl. unfold push_field. case_decide as Hc; [done|]. constructor; [|done].
      intros E. apply Hc. by apply str_rev_empty. }
    induction line as [line IH] using (induction_ltof1 _ String.length). unfold ltof in IH.
    intros cur. destruct line as [|c s1]; [by apply Hp|]. rewrite fields_go_cons.
    repeat case_match; subst; first [apply Hp|idtac]; first [apply IH; cbn; lia|done]. }
  case_bool_decide; by intros [= <- _].
Qed.
Lemma ini_assign_inv st k v : ini_inv st -> k <> "" -> is_text v -> ini_inv (ini_assign st k v).
Proof.
  intros [Hs Hc] Hk Hv. unfold ini_assign, ini_inv in *. destruct (ini_current st) as [section|]; cbn.
  - destruct Hc as [m Hm]. rewrite Hm. split; [|eexists; apply lookup_insert_eq].
    destruct (Hs _ _ Hm) as [Hn [[? ?]|(m' & [= <-] & Hf)]]; [done|].
    apply map_Forall_insert_2; [|done]. split; [done|]. right. eexists. split; [done|].
    by apply map_Forall_insert_2.
  - split; [|done]. apply map_Forall_insert_2; [|done]. split; [done|by left].
Qed.
Lemma ini_line_inv st l st' : ini_inv st -> ini_line st l = Ok st' -> ini_inv st'.
Proof.
  intros Hi. unfold ini_line. destruct ((trim_space l == "") || _ || _); [by intros [= <-]|].
  destruct (has_prefix _ "[" && _).
  - case_bool_decide as Hn; [done|]. destruct (ini_root st !! _) as [v|] eqn:E.
    + destruct v; try done. intros [= <-]. split; [apply Hi|]. cbn. eauto.
    + intros [= <-]. split; cbn; [|eexists; apply lookup_insert_eq].
      apply map_Forall_insert_2; [|apply Hi]. split; [done|]. right. eexists. split; [done|].
      apply map_Forall_empty.
  - intros ([k v] & Hp & [= <-])%bind_Ok. apply map_err_Ok in Hp.
    apply ini_assign_inv; [done| |by eexists]. eapply parseINILine_key; [|exact Hp]. apply trim_space_idemp.
Qed.

(** Whatever bytes [decodeINIPayload] accepts, the payload is an object of
    strings and of one level of sections, themselves objects of strings, and no key or
    section name is empty; the writer accepts every payload so read. *)
Theorem ini_decoded_shape data root (sprint_other : value -> string) :
  decodeINIPayload data = Ok root ->
  ini_shape root /\ is_ok (encodeINIPayload sprint_other (VMap root)) = true.
Proof.
  intros Hd. assert (ini_shape root) as Hs.
  { unfold decodeINIPayload in Hd. apply bind_Ok in Hd as (st & Hl & [= <-]).
    assert (ini_inv {| ini_root := ∅; ini_current := None |}) as Hi by (split; [apply map_Forall_empty|done]).
    revert Hi Hl. generalize {| ini_root := ∅; ini_current := None |} as st0.
    induction (splitPayloadLines data) as [|l ls IH]; intros st0 Hi; cbn; [intros [= <-]; apply Hi|].
    intros (st1 & H1 & H2)%bind_Ok. eapply IH; [|exact H2]. by eapply ini_line_inv. }
  split; [done|].
  assert (forall m ks, (forall k, k ∈ ks -> exists s, m !! k = Some (VString s)) ->
    exists lines, sequence (map (ini_entry sprint_other m) ks) = Ok lines) as Hent.
  { intros m. induction ks as [|k ks IH]; intros Hk; [by exists []|]. destruct (Hk k) as [s Es]; [by left|].
    destruct IH as [ls E]; [intros; apply Hk; by right|]. 
    assert (ini_entry sprint_other m k = Ok (k +:+ " = " +:+ s)) as Ek by (unfold ini_entry; by rewrite Es).
    exists ((k +:+ " = " +:+ s) :: ls). cbn. by rewrite Ek, E. }
  cbn [encodeINIPayload].
  match goal with |- context [sequence (map (ini_entry _ root) ?ks)] => destruct (Hent root ks) as [lines ->] end.
  { intros k [Hf Hk]%list_elem_of_filter. apply elem_of_sorted_keys in Hk as [v Hv]. rewrite Hv in Hf.
    destruct (Hs _ _ Hv) as [_ [[s ->]|(m & -> & _)]]; [eauto|done]. }
  cbn [mbind result_bind]. rewrite bind_ret_is_ok. apply sequence_is_ok. apply Forall_lookup. intros i r Hr.
  apply list_lookup_imap_Some in Hr as (section & Hsec & ->).
  apply list_elem_of_lookup_2 in Hsec. apply list_elem_of_filter in Hsec as [Hf Hk].
  apply elem_of_sorted_keys in Hk as [v Hv]. rewrite Hv in Hf.
  destruct (Hs _ _ Hv) as [_ [[s ->]|(m & -> & Hm)]]; [done|].
  unfold ini_section. rewrite Hv. cbn [mbind option_bind as_object]. change (default ∅ (Some m)) with m.
  destruct (Hent m (sorted_keys m)) as [ls ->]; [|done].
  intros k [w Hw]%elem_of_sorted_keys. destruct (Hm _ _ Hw) as [_ [s ->]]. eauto.
Qed.
End ini.

Section witnesses.
#[local] Existing Instance latin1_tables.
Definition sprint_none (v : value) : string := "".
Definition ini_sample : string := "k = v" +:+ newline +:+ "[s]" +:+ newline +:+ "a: b".
Lemma ini_decoded_shape_witness :
  ini_shape {[ "k" := VString "v"; "s" := VMap {[ "a" := VString "b" ]} ]} /\
  is_ok (encodeINIPayload sprint_none (VMap {[ "k" := VString "v"; "s" := VMap {[ "a" := VString "b" ]} ]})) = true.
Proof. apply (ini_decoded_shape ini_sample). vm_compute. reflexivity. Defined.
Lemma properties_round_trip_witness :
  decodePropertiesPayload (escapePropertiesKey " k=" +:+ "=a" +:+ newline) = Ok (text_values sprint_none {[ " k=" := VString "a" ]}).
Proof.
  apply (properties_round_trip sprint_none {[ " k=" := VString "a" ]}).
  - intros k v [<- <-]%lookup_singleton_Some. repeat split.
  - vm_compute. reflexivity.
Defined.
Lemma properties_key_space_witness :
  decodePropertiesPayload ("a b=x" +:+ newline) = Ok {[ "a" := VString ("b" +:+ "=" +:+ "x") ]}.
Proof.
  apply (properties_key_space sprint_none "a" "b" "x"); try reflexivity; try discriminate.
Defined.
End witnesses.
