(* ===== verification/Codec.v ===== *)
(** * Payload codecs

    Models [EncodePayload], [DecodePayload], [EncodeContent] and [DecodeContent] of
    [src/resource/payload_codec.go]: the dispatch on the payload type over the JSON,
    YAML, INI and properties codecs. The JSON and YAML libraries are the operations of
    the class [TextCodecs], of which nothing is assumed here. *)
From S2P Require Import Prelude GoText GoTextFacts Faults Value Descriptor CodecKV.

(** [json_decode] is one [Decode] of a [json.Decoder] with [UseNumber]: the first
    value of the data and the bytes it leaves unread. *)
Class TextCodecs := {
  json_decode : string -> result error (value * string);
  json_marshal : value -> result error string;
  json_marshal_indent : value -> result error string;
  yaml_unmarshal : string -> result error value;
  yaml_marshal : value -> result error string;
  fmt_sprint : value -> string;
}.

Record Content := { content_Value : value; content_Descriptor : PayloadDescriptor }.

Definition IsBinaryValue (v : value) : bool :=
  match v with VBinary _ | VBinaryPtr (Some _) => true | _ => false end.
Definition BinaryBytes (v : value) : option string :=
  match v with
  | VBinary s | VBinaryPtr (Some s) | VBytes s => Some s
  | _ => None
  end.

Section codec.
Context `{UnicodeTables, TextCodecs}.

Definition decodeStructuredPayload (data payloadType : string) : result error value :=
  if payloadType == PayloadTypeYAML then
    decoded ← map_err (fun err => Invalid "invalid yaml payload" (Some err)) (yaml_unmarshal data); Normalize decoded
  else if payloadType == PayloadTypeINI then
    decoded ← decodeINIPayload data; Normalize (VMap decoded)
  else if payloadType == PayloadTypeProperties then
    decoded ← decodePropertiesPayload data; Normalize (VMap decoded)
  else
    '(decoded, _) ← map_err (fun err => Invalid "invalid json payload" (Some err)) (json_decode data);
    Normalize decoded.

Definition encodeStructuredPayload (v : value) (payloadType : string) (pretty : bool) : result error string :=
  normalized ← Normalize v;
  if payloadType == PayloadTypeYAML then
    map_err (fun err => Invalid "failed to encode yaml payload" (Some err)) (yaml_marshal normalized)
  else if payloadType == PayloadTypeINI then encodeINIPayload fmt_sprint normalized
  else if payloadType == PayloadTypeProperties then encodePropertiesPayload fmt_sprint normalized
  else map_err (fun err => Invalid "failed to encode json payload" (Some err))
         (if pretty then json_marshal_indent normalized else json_marshal normalized).

Definition encodeTextPayload (v : value) (payloadType : string) : result error string :=
  match v with
  | VString s | VBytes s => Ok s
  | _ => Err (Invalid ("payload type " +:+ quote payloadType +:+ " requires string input") None)
  end.
Definition encodeBinaryPayload (v : value) : result error string :=
  match BinaryBytes v with
  | Some s => Ok s
  | None => Err (Invalid ("payload type " +:+ String "034" "octet-stream" +:+ String "034" ""
                          +:+ " requires resource.BinaryValue input") None)
  end.
Definition unsupported_type (payloadType : string) : error :=
  Invalid ("unsupported payload type " +:+ quote payloadType) None.

Definition encodePayload (v : value) (payloadType : string) (pretty : bool) : result error string :=
  codec ← PayloadCodecForType payloadType;
  if is_nil v then Ok ""
  else if Structured codec then encodeStructuredPayload v (codec_Type codec) pretty
  else if Text codec then encodeTextPayload v (codec_Type codec)
  else if Binary codec then encodeBinaryPayload v
  else Err (unsupported_type payloadType).
Definition EncodePayload (v : value) (payloadType : string) : result error string := encodePayload v payloadType false.
Definition EncodePayloadPretty (v : value) (payloadType : string) : result error string := encodePayload v payloadType true.
Definition DecodePayload (data payloadType : string) : result error value :=
  codec ← PayloadCodecForType payloadType;
  if Structured codec then decodeStructuredPayload data (codec_Type codec)
  else if Text codec then Ok (VString data)
  else if Binary codec then Ok (VBinary data)
  else Err (unsupported_type payloadType).

Definition EncodeContent (content : Content) : result error string :=
  EncodePayload (content_Value content) (PayloadType (NormalizePayloadDescriptor (content_Descriptor content))).
Definition EncodeContentPretty (content : Content) : result error string :=
  EncodePayloadPretty (content_Value content) (PayloadType (NormalizePayloadDescriptor (content_Descriptor content))).
Definition DecodeContent (data : string) (descriptor : PayloadDescriptor) : result error Content :=
  let resolved := NormalizePayloadDescriptor descriptor in
  v ← DecodePayload data (PayloadType resolved);
  Ok {| content_Value := v; content_Descriptor := resolved |}.

Lemma structured_types t codec : PayloadCodecForType t = Ok codec ->
  (Structured codec = true /\ codec_Type codec ∈ [PayloadTypeJSON; PayloadTypeYAML; PayloadTypeINI; PayloadTypeProperties])
  \/ (Structured codec = false /\ Text codec = true) \/ (Structured codec = false /\ Text codec = false /\ Binary codec = true).
Proof.
  intros Hc%PayloadCodecForType_Ok. apply codec_known in Hc as [Hin _]. unfold payloadCodecs in Hin.
  repeat (apply elem_of_cons in Hin as [->|Hin]; [cbn; first [left; split; [done|]; set_solver|naive_solver]|]).
  by apply not_elem_of_nil in Hin.
Qed.

(** A JSON payload is read up to the end of its first value: whatever follows
    that value in the data is dropped without an error. *)
Lemma json_trailing_data_ignored t codec data v rest :
  PayloadCodecForType t = Ok codec -> codec_Type codec = PayloadTypeJSON ->
  json_decode data = Ok (v, rest) -> DecodePayload data t = Normalize v.
Proof.
  intros Hc Ht Hd. unfold DecodePayload. rewrite Hc. cbn [mbind result_bind].
  destruct (structured_types _ _ Hc) as [[Hs _]|[[Hs Htx]|(Hs & Htx & Hb)]]; rewrite Hs.
  - unfold decodeStructuredPayload. rewrite Ht, Hd. reflexivity.
  - exfalso. apply PayloadCodecForType_Ok, codec_known in Hc as [Hin _]. unfold payloadCodecs in Hin.
    repeat (apply elem_of_cons in Hin as [->|Hin]; [done|]). by apply not_elem_of_nil in Hin.
  - exfalso. apply PayloadCodecForType_Ok, codec_known in Hc as [Hin _]. unfold payloadCodecs in Hin.
    repeat (apply elem_of_cons in Hin as [->|Hin]; [done|]). by apply not_elem_of_nil in Hin.
Qed.
End codec.

(** A concrete codec for the witnesses: it writes strings as they are and reads the
    first line. *)
Section witnesses.
#[local] Existing Instance latin1_tables.
Definition line_codecs : TextCodecs := {|
  json_decode s := match split_on "010" s with
                   | l :: ls => Ok (VString l, str_join newline ls)
                   | [] => Err (errorf "EOF")
                   end;
  json_marshal v := match v with VString s => if contains_byte is_eol s then Err (errorf "no") else Ok s | _ => Err (errorf "no") end;
  json_marshal_indent v := Err (errorf "no");
  yaml_unmarshal s := Ok (VString s);
  yaml_marshal v := match v with VString s => Ok s | _ => Err (errorf "no") end;
  fmt_sprint _ := "" |}.
#[local] Existing Instance line_codecs.
Lemma json_trailing_data_ignored_witness :
  DecodePayload ("x" +:+ newline +:+ "garbage") "json" = Normalize (VString "x").
Proof.
  apply (json_trailing_data_ignored "json" (Build_PayloadCodec PayloadTypeJSON ".json" "application/json" true false false)
    _ _ "garbage"); vm_compute; reflexivity.
Defined.
End witnesses.
