(* ===== verification/Cron.v ===== *)
(** * Cron schedules

    Models [src/cronexpr/cronexpr.go] and
    [src/internal/operator/controllers/syncpolicy_schedule.go]. A field is parsed into
    the table of its allowed values with the machine arithmetic of the code; an index
    out of the table's range is a panic, kept apart from the errors. [Next] walks the
    minutes up to five years ahead. *)
From S2P Require Import Prelude GoText GoTextFacts GoLib Faults.
Local Open Scope Z_scope.

Record field := { f_min : Z; f_max : Z; allowed : list bool; wildcard : bool }.
Record Schedule := { s_minute : field; s_hour : field; dayOfMonth : field; month : field; dayOfWeek : field }.

(** Fields are built by [parseField], whose table reaches the maximum: the index is in range. *)
Definition has (f : field) (v : Z) : bool :=
  if (v <? f_min f) || (f_max f <? v) then false else default false (allowed f !! Z.to_nat v).

Section parse.
Context `{UnicodeTables}.

Definition parseFieldValue (raw : string) (min max : Z) (allowSundaySeven : bool) : outcome Z :=
  match parse_int64 (trim_space raw) with
  | None => Err (Failed (errorf ("invalid number " +:+ quote raw)))
  | Some parsed =>
      let parsed := if allowSundaySeven && (parsed =? 7) then 0 else parsed in
      if (parsed <? min) || (max <? parsed) then
        Err (Failed (errorf ("value " +:+ itoa parsed +:+ " out of range [" +:+ itoa min +:+ "," +:+ itoa max +:+ "]")))
      else Ok parsed
  end.

(** The step of a list item and what precedes it. *)
Definition parse_step (raw : string) : outcome (string * Z) :=
  if contains raw "/" then
    match split_on slash raw with
    | [base; stepRaw] =>
        let stepRaw := trim_space stepRaw in
        match parse_int64 stepRaw with
        | Some step => if step <=? 0 then Err (Failed (errorf ("invalid step value " +:+ quote stepRaw)))
                       else Ok (trim_space base, step)
        | None => Err (Failed (errorf ("invalid step value " +:+ quote stepRaw)))
        end
    | _ => Err (Failed (errorf ("invalid step syntax " +:+ quote raw)))
    end
  else Ok (raw, 1).
Definition parse_range (base : string) (min max : Z) (allowSundaySeven : bool) : outcome (Z * Z) :=
  if base == "*" then Ok (min, max)
  else if contains base "-" then
    match split_on "-" base with
    | [left_; right_] =>
        let left_ := trim_space left_ in
        let right_ := trim_space right_ in
        if allowSundaySeven && ((left_ == "7") || (right_ == "7")) then Err (Failed (errorf "use 0 for sunday in ranges"))
        else
          start ← parseFieldValue left_ min max allowSundaySeven;
          finish ← parseFieldValue right_ min max allowSundaySeven;
          if finish <? start then Err (Failed (errorf "range start must be <= end")) else Ok (start, finish)
    | _ => Err (Failed (errorf ("invalid range syntax " +:+ quote base)))
    end
  else
    single ← parseFieldValue base min max allowSundaySeven; Ok (single, single).
(** [for value := rangeStart; value <= rangeEnd; value += step { allowed[value] = true }]. *)
Fixpoint mark_values (fuel : nat) (v rangeEnd step : Z) (table : list bool) : outcome (list bool) :=
  match fuel with
  | O => Ok table
  | S fuel =>
      if rangeEnd <? v then Ok table
      else if (v <? 0) || (Z.of_nat (length table) <=? v) then Err Panic
      else mark_values fuel (wrap64 (v + step)) rangeEnd step (<[Z.to_nat v := true]> table)
  end.
Definition mark_fuel (rangeStart rangeEnd : Z) : nat := S (S (Z.to_nat (rangeEnd - rangeStart))).
Definition addFieldPart (raw : string) (min max : Z) (allowSundaySeven : bool) (table : list bool) : outcome (list bool) :=
  if raw == "" then Err (Failed (errorf "invalid empty list item"))
  else
    '(base, step) ← parse_step raw;
    '(rangeStart, rangeEnd) ← parse_range base min max allowSundaySeven;
    mark_values (mark_fuel rangeStart rangeEnd) rangeStart rangeEnd step table.
Fixpoint add_parts (parts : list string) (min max : Z) (allowSundaySeven : bool) (table : list bool) : outcome (list bool) :=
  match parts with
  | [] => Ok table
  | part :: parts =>
      table ← addFieldPart (trim_space part) min max allowSundaySeven table;
      add_parts parts min max allowSundaySeven table
  end.
Definition parseField (raw : string) (min max : Z) (allowSundaySeven : bool) : outcome field :=
  let v := trim_space raw in
  if v == "" then Err (Failed (errorf "field is empty"))
  else
    table ← add_parts (split_on "," v) min max allowSundaySeven (replicate (Z.to_nat (max + 1)) false);
    let out := {| f_min := min; f_max := max; allowed := table; wildcard := v == "*" |} in
    if existsb (fun idx => default false (table !! idx)) (seq (Z.to_nat min) (Z.to_nat (max + 1 - min)))
    then Ok out else Err (Failed (errorf "field has no valid values")).

Definition named (name : string) {A} (r : outcome A) : outcome A :=
  map_err (fun f => match f with Failed e => Failed (errorf_w (name +:+ ": ") e) | Panic => Panic end) r.
Definition Parse (raw : string) : outcome Schedule :=
  match fields (trim_space raw) with
  | [p0; p1; p2; p3; p4] =>
      mi ← named "minute" (parseField p0 0 59 false);
      ho ← named "hour" (parseField p1 0 23 false);
      dom ← named "day-of-month" (parseField p2 1 31 false);
      mo ← named "month" (parseField p3 1 12 false);
      dow ← named "day-of-week" (parseField p4 0 6 true);
      Ok {| s_minute := mi; s_hour := ho; dayOfMonth := dom; month := mo; dayOfWeek := dow |}
  | parts => Err (Failed (errorf ("expected 5 cron fields, got " +:+ itoa (Z.of_nat (length parts)))))
  end.
End parse.

(** ** Times *)
Definition Matches (s : Schedule) (at_ : Z) : bool :=
  if negb (has (s_minute s) (time_minute at_)) then false
  else if negb (has (s_hour s) (time_hour at_)) then false
  else if negb (has (month s) (time_month at_)) then false
  else
    let dayOfMonthMatch := has (dayOfMonth s) (time_day at_) in
    let dayOfWeekMatch := has (dayOfWeek s) (time_weekday at_) in
    if wildcard (dayOfMonth s) && wildcard (dayOfWeek s) then true
    else if wildcard (dayOfMonth s) then dayOfWeekMatch
    else if wildcard (dayOfWeek s) then dayOfMonthMatch
    else dayOfMonthMatch || dayOfWeekMatch.

(** One round of the loop of [Next]. *)
Definition next_step (s : Schedule) (limit candidate : Z) : Z + option Z :=
  if limit <? candidate then inr None
  else if Matches s candidate then inr (Some candidate)
  else inl (candidate + minute).
(** The rounds up to the limit; the loop always ends within them. *)
Definition next_rounds (candidate limit : Z) : positive := Z.to_pos ((limit - candidate) / minute + 2).
Definition first_candidate (after : Z) : Z := truncate minute after + minute.
Definition next_limit (after : Z) : Z := add_years 5 (first_candidate after).
Definition Next (s : Schedule) (after : Z) : option Z :=
  match iter_until (next_step s (next_limit after)) (next_rounds (first_candidate after) (next_limit after)) (first_candidate after) with
  | inr r => r
  | inl _ => None
  end.

(** ** The sync policy's schedule *)
Section schedule.
Context `{UnicodeTables}.

Definition defaultSyncPolicyRequeueInterval : Z := 5 * minute.
Definition shouldRunFullResync (cronRaw : string) (lastFullResyncTime : option Z) (currentTime : Z) : outcome bool :=
  let v := trim_space cronRaw in
  if v == "" then Ok false
  else
    schedule ← Parse v;
    match lastFullResyncTime with
    | None => Ok true
    | Some last =>
        match Next schedule last with
        | None => Ok false
        | Some next => Ok (negb (currentTime <? next))
        end
    end.
(** The two fields of the policy's spec that are read. *)
Record sync_timing := { SyncInterval : option Z; FullResyncCron : string }.
Definition syncPolicyRequeueAfter (syncPolicy : option sync_timing) (currentTime : Z) : outcome Z :=
  let interval := defaultSyncPolicyRequeueInterval in
  match syncPolicy with
  | None => Ok interval
  | Some spec =>
      let interval := match SyncInterval spec with
                      | Some d => if 0 <? d then d else interval
                      | None => interval
                      end in
      let cronRaw := trim_space (FullResyncCron spec) in
      if cronRaw == "" then Ok interval
      else match Parse cronRaw with
           | Err Panic => Err Panic
           | Err (Failed _) => Ok interval
           | Ok schedule =>
               match Next schedule currentTime with
               | None => Ok interval
               | Some next =>
                   let cronInterval := next - currentTime in
                   let cronInterval := if cronInterval <=? 0 then second else cronInterval in
                   if cronInterval <? interval then Ok cronInterval else Ok interval
               end
           end
  end.
End schedule.

(** ** The table of a field *)
Section table.
Implicit Types (table : list bool).

Definition marked table (i : Z) : Prop := 0 <= i /\ table !! Z.to_nat i = Some true.
Definition progression (start finish step i : Z) : Prop := exists k, 0 <= k /\ i = start + k * step /\ i <= finish.

Lemma progression_step start finish step i : 0 < step ->
  progression start finish step i <-> start <= finish /\ (i = start \/ progression (start + step) finish step i).
Proof.
  intros Hs. split.
  - intros (k & Hk & -> & Hf). split; [nia|]. destruct (decide (k = 0)) as [->|]; [left; lia|].
    right. exists (k - 1). split_and!; [lia|lia|lia].
  - intros [Hsf [->|(k & Hk & -> & Hf)]]; [exists 0; lia|]. exists (k + 1). split_and!; [lia|lia|lia].
Qed.
Lemma marked_insert table v i : 0 <= v < Z.of_nat (length table) ->
  marked (<[Z.to_nat v := true]> table) i <-> i = v \/ marked table i.
Proof.
  intros Hv. unfold marked. destruct (decide (i = v)) as [->|Hi].
  - rewrite list_lookup_insert_eq by lia. split; [by left|]. intros _. split; [lia|done].
  - split.
    + intros [H0 Hl]. right. rewrite list_lookup_insert_ne in Hl by lia. done.
    + intros [?|[H0 Hl]]; [done|]. split; [done|]. by rewrite list_lookup_insert_ne by lia.
Qed.

(** The marking loop, when it does not panic, marks an arithmetic progression. *)
Lemma mark_values_Ok fuel : forall v rangeEnd step table t',
  0 < step <= max_int64 -> 0 <= v <= max_int64 -> rangeEnd < Z.of_nat (length table) -> rangeEnd < 2 ^ 32 ->
  (v <= rangeEnd -> rangeEnd - v + 1 < Z.of_nat fuel) ->
  mark_values fuel v rangeEnd step table = Ok t' ->
  length t' = length table /\ forall i, marked t' i <-> marked table i \/ progression v rangeEnd step i.
Proof.
  induction fuel as [|fuel IH]; intros v rangeEnd step table t' Hs Hv Hl Hr Hf He; cbn [mark_values] in He.
  { injection He as <-. split; [done|]. intros i. split; [by left|]. intros [?|(k & Hk & -> & Hi)]; [done|].
    assert (v <= rangeEnd) by nia. lia. }
  destruct (Z.ltb_spec rangeEnd v).
  { injection He as <-. split; [done|]. intros i. split; [by left|]. intros [?|(k & Hk & -> & Hi)]; [done|nia]. }
  destruct (_ || _) eqn:Eb; [done|]. apply orb_false_iff in Eb as [E1 E2].
  destruct (Z.le_gt_cases (v + step) max_int64) as [Hn|Hn].
  - rewrite wrap64_id in He by (unfold min_int64; lia).
    apply IH in He as [L1 L2]; [|lia|lia|by rewrite length_insert|done|lia].
    rewrite length_insert in L1. split; [done|]. intros i.
    rewrite L2, marked_insert, (progression_step v) by lia. split; [tauto|].
    intros [?|[_ ?]]; tauto.
  - exfalso. assert (wrap64 (v + step) < 0) as Hneg
      by (apply wrap64_overflow; unfold max_int64 in *; lia).
    destruct fuel as [|fuel]; [lia|]. cbn [mark_values] in He.
    destruct (Z.ltb_spec rangeEnd (wrap64 (v + step))); [lia|].
    assert ((wrap64 (v + step) <? 0) = true) as E by lia. by rewrite E in He.
Qed.

(** It panics when the first addition overflows, whatever the range. *)
Lemma mark_values_panic v rangeEnd step table :
  0 <= v <= rangeEnd -> rangeEnd < Z.of_nat (length table) -> rangeEnd < 2 ^ 32 ->
  0 < step <= max_int64 -> max_int64 < v + step ->
  mark_values (mark_fuel v rangeEnd) v rangeEnd step table = Err Panic.
Proof.
  intros Hv Hl Hr Hs Ho. assert (wrap64 (v + step) < 0) as Hneg by (apply wrap64_overflow; unfold max_int64 in *; lia).
  unfold mark_fuel. cbn [mark_values]. assert ((rangeEnd <? v) = false) as -> by lia.
  assert ((v <? 0) || (Z.of_nat (length table) <=? v) = false) as -> by lia.
  assert ((rangeEnd <? wrap64 (v + step)) = false) as -> by lia.
  by assert ((wrap64 (v + step) <? 0) = true) as -> by lia.
Qed.
(** It does not when no addition can overflow. *)
Lemma mark_values_total fuel : forall v rangeEnd step table,
  0 < step -> 0 <= v -> rangeEnd < Z.of_nat (length table) -> rangeEnd + step <= max_int64 ->
  v <= rangeEnd + step -> exists t', mark_values fuel v rangeEnd step table = Ok t'.
Proof.
  induction fuel as [|fuel IH]; intros v rangeEnd step table Hs Hv Hl Hm Hb; cbn [mark_values]; [by eexists|].
  destruct (Z.ltb_spec rangeEnd v); [by eexists|].
  assert ((v <? 0) || (Z.of_nat (length table) <=? v) = false) as -> by lia.
  rewrite wrap64_id by (unfold min_int64; lia). apply IH; rewrite ?length_insert; lia.
Qed.
End table.

Section fields.
Context `{UnicodeTables}.
Implicit Types (raw part : string).

(** The values a list item stands for. *)
Definition part_values raw (min max : Z) (sunday : bool) (v : Z) : Prop :=
  exists base step rangeStart rangeEnd,
    parse_step raw = Ok (base, step) /\ parse_range base min max sunday = Ok (rangeStart, rangeEnd)
    /\ progression rangeStart rangeEnd step v.

Lemma parse_step_bounds raw base step : parse_step raw = Ok (base, step) -> 0 < step <= max_int64.
Proof.
  unfold parse_step. destruct (contains raw "/"); [|intros [= <- <-]; unfold max_int64; lia].
  destruct (split_on slash raw) as [|b [|st [|]]]; try done.
  destruct (parse_int64 (trim_space st)) as [z|] eqn:E; [|done]. apply parse_int64_bounds in E.
  destruct (Z.leb_spec z 0); [done|]. intros [= <- <-]. lia.
Qed.
Lemma parseFieldValue_bounds raw min max sunday v : parseFieldValue raw min max sunday = Ok v -> min <= v <= max.
Proof.
  unfold parseFieldValue. destruct (parse_int64 _) as [z|]; [|done]. cbv zeta.
  destruct (_ || _) eqn:E; [done|]. intros [= <-]. lia.
Qed.
Lemma parse_range_bounds base min max sunday s e : min <= max ->
  parse_range base min max sunday = Ok (s, e) -> min <= s <= e /\ e <= max.
Proof.
  intros Hm. unfold parse_range. case_bool_decide; [intros [= <- <-]; lia|].
  destruct (contains base "-").
  - destruct (split_on "-" base) as [|l [|r [|]]]; try done. destruct (_ && _); [done|].
    intros (a & Ha & Hr)%bind_Ok. apply bind_Ok in Hr as (b & Hb & Hr).
    apply parseFieldValue_bounds in Ha, Hb. destruct (Z.ltb_spec b a); [done|]. injection Hr as <- <-. lia.
  - intros (a & Ha & [= <- <-])%bind_Ok. apply parseFieldValue_bounds in Ha. lia.
Qed.

Lemma addFieldPart_Ok raw min max sunday table t' :
  0 <= min <= max -> max < 2 ^ 32 -> length table = Z.to_nat (max + 1) ->
  addFieldPart raw min max sunday table = Ok t' ->
  length t' = length table /\ forall i, marked t' i <-> marked table i \/ part_values raw min max sunday i.
Proof.
  intros Hm Hx Hl. unfold addFieldPart. case_bool_decide; [done|].
  intros ([base step] & Hstep & Hr)%bind_Ok. apply bind_Ok in Hr as ([s e] & Hrange & Hmark).
  assert (Hs := parse_step_bounds _ _ _ Hstep). assert (Hb := parse_range_bounds _ min max _ _ _ ltac:(lia) Hrange).
  assert (2 ^ 32 < max_int64) as Hbig by done.
  apply mark_values_Ok in Hmark as [L1 L2]; [|lia|lia|rewrite Hl; lia|lia|unfold mark_fuel; lia].
  split; [done|]. intros i. rewrite L2. unfold part_values. split; intros [?|Hv]; [by left|right|by left|right].
  - by exists base, step, s, e.
  - destruct Hv as (b' & st' & s' & e' & H1 & H2 & H3). congruence.
Qed.
Lemma add_parts_Ok parts min max sunday : forall table t',
  0 <= min <= max -> max < 2 ^ 32 -> length table = Z.to_nat (max + 1) ->
  add_parts parts min max sunday table = Ok t' ->
  length t' = length table
  /\ forall i, marked t' i <-> marked table i \/ exists part, part ∈ parts /\ part_values (trim_space part) min max sunday i.
Proof.
  induction parts as [|part parts IH]; intros table t' Hm Hx Hl He; cbn [add_parts] in He.
  { injection He as <-. split; [done|]. intros i. split; [by left|].
    intros [?|(part & Hp & _)]; [done|by apply not_elem_of_nil in Hp]. }
  apply bind_Ok in He as (t1 & H1 & He). apply addFieldPart_Ok in H1 as [L1 L2]; [|done..].
  apply IH in He as [L3 L4]; [|done|done|congruence]. split; [congruence|]. intros i. rewrite L4, L2.
  split.
  - intros [[?|?]|(p & ? & ?)]; [by left|right; exists part; split; [left|done]|right; exists p; split; [by right|done]].
  - intros [?|(p & [->|?]%elem_of_cons & ?)]; [by left; left|by left; right|right; by exists p].
Qed.

(** ** Properties *)

(** A parsed cron field allows exactly what its text says: for a field of range
    [min, max] that is accepted, a value is allowed iff one of the comma-separated
    items stands for it, that is, it is reached from the start of the item's range by
    the item's steps and is within the range. *)
Theorem cron_field_exact raw min max sunday f v :
  0 <= min <= max -> max < 2 ^ 32 -> parseField raw min max sunday = Ok f ->
  has f v = true <-> exists part, part ∈ split_on "," (trim_space raw) /\ part_values (trim_space part) min max sunday v.
Proof.
  intros Hm Hx. unfold parseField. case_bool_decide; [done|].
  intros (table & Ht & Hf)%bind_Ok. cbv zeta in Hf. destruct (existsb _ _); [|done]. injection Hf as <-.
  apply add_parts_Ok in Ht as [L1 L2]; [|done|done|by rewrite length_replicate].
  unfold has. cbn [f_min f_max allowed].
  assert (forall i, (exists part, part ∈ split_on "," (trim_space raw) /\ part_values (trim_space part) min max sunday i)
    -> min <= i <= max) as Hb.
  { intros i (part & _ & base & step & s & e & Hstep & Hrange & k & Hk & -> & Hi).
    assert (Hs := parse_step_bounds _ _ _ Hstep). assert (Hr := parse_range_bounds _ min max _ _ _ ltac:(lia) Hrange). nia. }
  assert (forall i, marked table i <-> exists part, part ∈ split_on "," (trim_space raw)
    /\ part_values (trim_space part) min max sunday i) as Hmk.
  { intros i. rewrite L2. split; [|by right]. intros [[_ Hr]|?]; [|done]. by apply lookup_replicate in Hr as [? _]. }
  rewrite <-Hmk. destruct ((v <? min) || (max <? v)) eqn:E.
  - split; [done|]. intros Hv%Hmk%Hb. lia.
  - unfold marked. destruct (table !! Z.to_nat v) as [[]|]; cbn; split; try done; try (intros _; split; [lia|done]).
    + by intros [_ ?].
    + by intros [_ ?].
Qed.

(** A list item never panics as long as its step is less than 2^62, and always
    panics (an index out of the range of the table) when the first step from the start
    of its range overflows the integers: a huge step in a schedule crashes the parser
    instead of being rejected. *)
Theorem cron_step_panic raw min max sunday base step rangeStart rangeEnd table :
  0 <= min <= max -> max < 2 ^ 32 -> length table = Z.to_nat (max + 1) -> raw <> "" ->
  parse_step raw = Ok (base, step) -> parse_range base min max sunday = Ok (rangeStart, rangeEnd) ->
  (step < 2 ^ 62 -> exists t', addFieldPart raw min max sunday table = Ok t')
  /\ (max_int64 < rangeStart + step -> addFieldPart raw min max sunday table = Err Panic).
Proof.
  intros Hm Hx Hl Hraw Hstep Hrange. unfold addFieldPart.
  rewrite (bool_decide_false _ Hraw), Hstep. cbn [mbind result_bind]. rewrite Hrange. cbn [mbind result_bind].
  assert (Hs := parse_step_bounds _ _ _ Hstep). assert (Hb := parse_range_bounds _ min max _ _ _ ltac:(lia) Hrange). split.
  - intros Hsm. apply mark_values_total; unfold max_int64; lia.
  - intros Ho. apply mark_values_panic; lia.
Qed.
End fields.

Lemma cron_field_exact_witness (T : UnicodeTables := latin1_tables) :
  exists f, parseField "*/20, 7" 0 59 false = Ok f /\ has f 40 = true /\ has f 7 = true /\ has f 41 = false.
Proof.
  destruct (parseField "*/20, 7" 0 59 false) as [f|] eqn:E; [|vm_compute in E; discriminate].
  exists f. split; [done|].
  assert (Hf := fun v => cron_field_exact "*/20, 7" 0 59 false f v ltac:(lia) ltac:(lia) E).
  split; [|split].
  - apply Hf. exists "*/20". split; [vm_compute; apply list_elem_of_here|].
    exists "*", 20, 0, 59. split; [vm_compute; reflexivity|]. split; [vm_compute; reflexivity|]. exists 2. lia.
  - apply Hf. exists " 7". split; [vm_compute; apply list_elem_of_further, list_elem_of_here|].
    exists "7", 1, 7, 7. split; [vm_compute; reflexivity|]. split; [vm_compute; reflexivity|]. exists 0. lia.
  - vm_compute in E. injection E as <-. vm_compute. reflexivity.
Defined.

Lemma cron_step_panic_witness (T : UnicodeTables := latin1_tables) :
  addFieldPart "1/9223372036854775807" 0 59 false (replicate 60 false) = Err Panic
  /\ parseField "1/9223372036854775807" 0 59 false = Err Panic.
Proof.
  split; [|vm_compute; reflexivity].
  apply (cron_step_panic "1/9223372036854775807" 0 59 false "1" 9223372036854775807 1 1 (replicate 60 false)).
  - lia.
  - lia.
  - vm_compute; reflexivity.
  - discriminate.
  - vm_compute; reflexivity.
  - vm_compute; reflexivity.
  - unfold max_int64. lia.
Defined.

(** ** The next time *)
Definition aligned (t : Z) : Prop := t mod minute = 0.

Section next.
Implicit Types (s : Schedule) (c t u limit : Z).

Lemma minute_pos : 0 < minute.
Proof. done. Qed.
Lemma aligned_add c : aligned c -> aligned (c + minute).
Proof. unfold aligned. intros Hc. rewrite <-Zplus_mod_idemp_l, Hc. reflexivity. Qed.
Lemma aligned_gap c u : aligned c -> aligned u -> c < u -> c + minute <= u.
Proof.
  unfold aligned. intros Hc Hu Hlt. assert (Hm := minute_pos). revert Hm Hc Hu. generalize minute. intros m Hm Hc Hu.
  assert (m <> 0) as H0 by lia. apply (Z.mod_divide _ _ H0) in Hc as [a ->]. apply (Z.mod_divide _ _ H0) in Hu as [b ->]. assert (a < b) by nia. nia.
Qed.

Lemma nat_until_next s limit n : forall c, aligned c -> (1 <= n)%nat -> limit < c + minute * (Z.of_nat n - 1) ->
  match nat_until (next_step s limit) n c with
  | inl _ => False
  | inr (Some t) => c <= t <= limit /\ aligned t /\ Matches s t = true
                    /\ forall u, c <= u < t -> aligned u -> Matches s u = false
  | inr None => forall u, c <= u <= limit -> aligned u -> Matches s u = false
  end.
Proof.
  induction n as [|n IH]; intros c Ha Hn Hl; [lia|]. cbn [nat_until]. unfold next_step at 1.
  destruct (Z.ltb_spec limit c) as [Hc|Hc]; [intros; lia|].
  destruct (Matches s c) eqn:Em; [split_and!; [lia|lia|done|done|intros; lia]|].
  assert (Hm := minute_pos). assert (n <> 0%nat) by (intros ->; lia).
  assert (forall u, c <= u -> aligned u -> u = c \/ c + minute <= u) as Hgap.
  { intros u Hu Hau. destruct (decide (u = c)); [by left|right]. apply aligned_gap; [done..|lia]. }
  assert (limit < c + minute + minute * (Z.of_nat n - 1)) as Hl' by (rewrite Nat2Z.inj_succ in Hl; nia).
  specialize (IH (c + minute) (aligned_add c Ha) ltac:(lia) Hl').
  destruct (nat_until _ n _) as [|[t|]]; [done| |].
  - destruct IH as (H1 & H2 & H3 & H4). split_and!; [lia|lia|done|done|].
    intros u Hu Hau. destruct (Hgap u ltac:(lia) Hau) as [->|]; [done|apply H4; [lia|done]].
  - intros u Hu Hau. destruct (Hgap u ltac:(lia) Hau) as [->|]; [done|apply IH; [lia|done]].
Qed.

Lemma first_candidate_spec after : aligned (first_candidate after)
  /\ after < first_candidate after /\ forall u, after < u -> aligned u -> first_candidate after <= u.
Proof.
  assert (aligned (truncate minute after)) as Ha by (unfold aligned, truncate; apply Z.mod_mul; done).
  assert (truncate minute after <= after < truncate minute after + minute) as Hb.
  { unfold truncate. assert (Hd := Z.div_mod after minute ltac:(done)).
    assert (Hb := Z.mod_pos_bound after minute minute_pos). lia. }
  split_and!; [by apply aligned_add|unfold first_candidate; lia|].
  intros u Hu Hau. unfold first_candidate. apply aligned_gap; [done..|lia].
Qed.

Definition next_spec s after (r : option Z) : Prop :=
  match r with
  | Some t => after < t <= next_limit after /\ aligned t /\ Matches s t = true
              /\ forall u, after < u < t -> aligned u -> Matches s u = false
  | None => forall u, after < u <= next_limit after -> aligned u -> Matches s u = false
  end.
Lemma Next_spec s after : next_spec s after (Next s after).
Proof.
  destruct (first_candidate_spec after) as (Ha & Hlt & Hleast).
  unfold Next. rewrite iter_until_nat. set (c := first_candidate after) in *. set (limit := next_limit after).
  assert (limit < c + minute * (Z.of_nat (Pos.to_nat (next_rounds c limit)) - 1)) as Hb.
  { unfold next_rounds. assert (Hm := minute_pos). assert (Hd := Z.div_mod (limit - c) minute ltac:(done)).
    assert (Hr := Z.mod_pos_bound (limit - c) minute minute_pos). set (q := (limit - c) / minute) in *.
    destruct (Z.le_gt_cases (-1) q) as [Hq|Hq].
    2:{ replace (Z.of_nat (Pos.to_nat (Z.to_pos (q + 2)))) with 1 by lia. nia. }
    replace (Z.of_nat (Pos.to_nat (Z.to_pos (q + 2)))) with (q + 2) by lia. nia. }
  assert (H := nat_until_next s limit _ c Ha (Pos2Nat.is_pos _) Hb).
  destruct (nat_until _ _ _) as [|[t|]]; [done| |]; cbn [next_spec].
  - destruct H as (H1 & H2 & H3 & H4). split_and!; [lia|lia|done|done|].
    intros u Hu Hau. apply H4; [|done]. specialize (Hleast u ltac:(lia) Hau). lia.
  - intros u Hu Hau. apply H; [|done]. specialize (Hleast u ltac:(lia) Hau). lia.
Qed.

(** [C34] The next time of a schedule is the least whole minute strictly after the
    instant given that matches it, and the search always ends: when it finds nothing,
    no minute up to the limit five calendar years ahead matches. *)
Theorem next_is_least s after :
  match Next s after with
  | Some t => after < t <= next_limit after /\ aligned t /\ Matches s t = true
              /\ forall u, after < u < t -> aligned u -> Matches s u = false
  | None => forall u, after < u <= next_limit after -> aligned u -> Matches s u = false
  end.
Proof. generalize (Next_spec s after). destruct (Next s after); exact (fun H => H). Qed.
End next.

Section due.
Context `{UnicodeTables}.

(** A full resync is due exactly when a time of the schedule has come since the
    last one: with a valid schedule and a last resync at [last], the decision at [now] is
    positive iff some whole minute after [last], not after [now] (and within the five
    years searched), matches the schedule. With no last resync it is always due, and
    without a schedule never. *)
Theorem resync_due_exactly raw schedule last now :
  trim_space raw <> "" -> Parse (trim_space raw) = Ok schedule ->
  shouldRunFullResync raw None now = Ok true
  /\ exists due, shouldRunFullResync raw (Some last) now = Ok due
     /\ (due = true <-> exists t, last < t <= now /\ t <= next_limit last /\ aligned t /\ Matches schedule t = true).
Proof.
  intros Hr Hp. unfold shouldRunFullResync. rewrite (bool_decide_false _ Hr), Hp. cbn [mbind result_bind].
  split; [done|]. assert (Hn := Next_spec schedule last). destruct (Next schedule last) as [t|]; eexists; (split; [done|]).
  - destruct Hn as (H1 & H2 & H3 & H4). split.
    + intros E. exists t. split_and!; [lia|lia|lia|done|done].
    + intros (u & Hu & Hul & Hau & Hmu). destruct (Z.ltb_spec now t); [|done]. exfalso.
      rewrite H4 in Hmu; [done|lia|done].
  - split; [done|]. intros (u & Hu & Hul & Hau & Hmu). rewrite Hn in Hmu; [done|lia|done].
Qed.

(** The requeue delay of a sync policy is always positive and at most the policy's
    interval (five minutes when it has none that is positive); with a valid schedule no
    scheduled minute lies strictly between now and the requeue, and a delay shorter than
    the interval ends exactly on a scheduled minute. *)
Theorem requeue_bounds spec now r :
  syncPolicyRequeueAfter (Some spec) now = Ok r ->
  let interval := match SyncInterval spec with
                  | Some d => if 0 <? d then d else defaultSyncPolicyRequeueInterval
                  | None => defaultSyncPolicyRequeueInterval
                  end in
  0 < r <= interval
  /\ forall schedule, trim_space (FullResyncCron spec) <> "" -> Parse (trim_space (FullResyncCron spec)) = Ok schedule ->
       (forall u, now < u < now + r -> u <= next_limit now -> aligned u -> Matches schedule u = false)
       /\ (r < interval -> aligned (now + r) /\ Matches schedule (now + r) = true).
Proof.
  unfold syncPolicyRequeueAfter. cbv zeta. set (interval := match SyncInterval spec with Some _ => _ | None => _ end).
  assert (0 < interval) as Hi.
  { subst interval. destruct (SyncInterval spec) as [d|]; [|done]. by destruct (Z.ltb_spec 0 d). }
  clearbody interval. case_bool_decide as Hc; [intros [= <-]; split; [lia|by intros ? []]|].
  destruct (Parse _) as [schedule|[e|]]; [|intros [= <-]; split; [lia|by intros ? _]|done].
  assert (Hn := Next_spec schedule now). destruct (Next schedule now) as [t|]; cbn [next_spec] in Hn.
  - destruct Hn as (H1 & H2 & H3 & H4). assert ((t - now <=? 0) = false) as -> by lia.
    destruct (Z.ltb_spec (t - now) interval) as [Hlt|Hge]; intros [= <-]; (split; [lia|]); intros ? _ [= <-]; split.
    + intros u Hu _ Hau. apply H4; [lia|done].
    + intros _. by replace (now + (t - now)) with t by lia.
    + intros u Hu _ Hau. apply H4; [lia|done].
    + lia.
  - intros [= <-]. split; [lia|]. intros ? _ [= <-]. split; [|lia]. intros u Hu Hul Hau. apply Hn; [lia|done].
Qed.
End due.

Definition hourly : sync_timing := {| SyncInterval := Some (2 * hour); FullResyncCron := "0 * * * *" |}.
Lemma resync_due_exactly_witness (T : UnicodeTables := latin1_tables) :
  exists schedule, Parse (trim_space "0 * * * *") = Ok schedule
  /\ shouldRunFullResync "0 * * * *" (Some (10 * minute)) (61 * minute) = Ok true.
Proof.
  destruct (Parse (trim_space "0 * * * *")) as [schedule|] eqn:E; [|vm_compute in E; discriminate].
  exists schedule. split; [done|].
  destruct (resync_due_exactly "0 * * * *" schedule (10 * minute) (61 * minute) ltac:(vm_compute; discriminate) E) as (_ & due & Hd & Hiff).
  rewrite Hd. f_equal. apply Hiff. exists (60 * minute). vm_compute in E. injection E as <-.
  split; [split; vm_compute; [reflexivity|discriminate]|]. split; [vm_compute; discriminate|]. split; [vm_compute; reflexivity|]. vm_compute. reflexivity.
Defined.
Lemma requeue_bounds_witness (T : UnicodeTables := latin1_tables) :
  exists r, syncPolicyRequeueAfter (Some hourly) (10 * minute) = Ok r /\ 0 < r <= 2 * hour /\ r = 50 * minute.
Proof.
  exists (50 * minute). assert (syncPolicyRequeueAfter (Some hourly) (10 * minute) = Ok (50 * minute)) as E by (vm_compute; reflexivity).
  split; [exact E|]. split; [|reflexivity]. exact (proj1 (requeue_bounds hourly (10 * minute) (50 * minute) E)).
Defined.
