(* ===== verification/Overlay.v ===== *)
(** * Resource defaults: merging, compacting, inferring

    Models [src/resource/defaults_overlay.go]. A resource is stored as the part of
    its payload that differs from the defaults of its collection
    ([CompactAgainstDefaults]) and read back by laying that part over the defaults
    ([MergeWithDefaults]); [InferDefaultsFromValues] proposes the defaults of a set of
    samples. *)
From S2P Require Import Prelude GoText Faults Value Descriptor.

(** ** Operations on objects

    The loops over the keys of a map do not depend on the order: each key is written
    at most once. *)
Definition merge_key (x : option (value * (value -> value))) (y : option value) : option value :=
  match x, y with
  | None, None => None
  | Some (d, _), None => Some (DeepCopyValue d)
  | None, Some o => Some (DeepCopyValue o)
  | Some (_, f), Some o => Some (f o)
  end.
Fixpoint merge_member (defaultValue overrideValue : value) : value :=
  match defaultValue, overrideValue with
  | VMap defaults, VMap overrides =>
      VMap (merge merge_key ((fun d => (d, merge_member d)) <$> defaults) overrides)
  | _, _ => DeepCopyValue overrideValue
  end.
Definition mergeObjectWithDefaults (defaults overrides : object) : object :=
  merge merge_key ((fun d => (d, merge_member d)) <$> defaults) overrides.

Definition compact_key (x : option (value * (value -> option value))) (y : option value) : option value :=
  match x, y with
  | None, _ => None
  | Some (v, _), None => Some (DeepCopyValue v)
  | Some (_, f), Some d => f d
  end.
Fixpoint compact_member (currentValue defaultValue : value) : option value :=
  match currentValue, defaultValue with
  | VMap valueObject, VMap defaultObject =>
      let nested := merge compact_key ((fun v => (v, compact_member v)) <$> valueObject) defaultObject in
      if nested == ∅ then None else Some (VMap nested)
  | _, _ => if deep_equal currentValue defaultValue then None else Some (DeepCopyValue currentValue)
  end.
Definition compactObjectAgainstDefaults (v defaults : object) : object :=
  merge compact_key ((fun v => (v, compact_member v)) <$> v) defaults.

Definition intersect_key (x : option (value -> option value)) (y : option value) : option value :=
  match x, y with
  | Some f, Some r => f r
  | _, _ => None
  end.
Fixpoint intersect_member (leftValue rightValue : value) : option value :=
  match leftValue, rightValue with
  | VMap leftObject, VMap rightObject =>
      let nested := merge intersect_key (intersect_member <$> leftObject) rightObject in
      if negb (nested == ∅) || ((leftObject == ∅) && (rightObject == ∅)) then Some (VMap nested) else None
  | _, _ => if deep_equal leftValue rightValue then Some (DeepCopyValue leftValue) else None
  end.
Definition intersectObjectDefaults (left right : object) : object :=
  merge intersect_key (intersect_member <$> left) right.

(** ** Operations on payloads *)
Definition defaults_object_error : error := Invalid "resource defaults require a structured object payload" None.

Definition MergeWithDefaults (defaults overrides : value) : result error value :=
  if is_nil defaults then Normalize overrides else
  normalizedDefaults ← Normalize defaults;
  match as_object normalizedDefaults with
  | None => Err defaults_object_error
  | Some defaultObject =>
      if is_nil overrides then Normalize (DeepCopyValue (VMap defaultObject)) else
      normalizedOverrides ← Normalize overrides;
      match as_object normalizedOverrides with
      | None => Err (Invalid "resource payload overrides must be a structured object when resource defaults are present" None)
      | Some overrideObject => Normalize (VMap (mergeObjectWithDefaults defaultObject overrideObject))
      end
  end.

Definition CompactAgainstDefaults (v defaults : value) : result error value :=
  if is_nil defaults then Normalize v else
  normalizedDefaults ← Normalize defaults;
  match as_object normalizedDefaults with
  | None => Err defaults_object_error
  | Some defaultObject =>
      if is_nil v then Ok VNil else
      normalizedValue ← Normalize v;
      match as_object normalizedValue with
      | None => Err (Invalid "effective payload must be a structured object when resource defaults are present" None)
      | Some valueObject =>
          let compacted := compactObjectAgainstDefaults valueObject defaultObject in
          if compacted == ∅ then Ok VNil else Normalize (VMap compacted)
      end
  end.

(** The loop of [InferDefaultsFromValues]: [common], and whether a sample was seen
    ([samples] is compared with 0 and with 2 only). *)
Fixpoint infer_loop (common : object) (samples : nat) (values : list value) : result error (object * nat) :=
  match values with
  | [] => Ok (common, samples)
  | v :: values =>
      if is_nil v then infer_loop common samples values else
      normalized ← Normalize v;
      match as_object normalized with
      | None => Err (Invalid "defaults inference requires structured object payloads" None)
      | Some current =>
          if samples == 0 then infer_loop (DeepCopyValue <$> current) (S samples) values
          else infer_loop (intersectObjectDefaults common current) (S samples) values
      end
  end.
Definition InferDefaultsFromValues (values : list value) : result error value :=
  if length values <? 2 then Normalize (VMap ∅) else
  '(common, samples) ← infer_loop ∅ 0 values;
  if (samples <? 2) || (common == ∅) then Normalize (VMap ∅) else Normalize (VMap common).

Definition InferCreatedDefaults (inputs outputs : list value) : result error value :=
  inferredOutputs ← InferDefaultsFromValues outputs;
  inferredInputs ← InferDefaultsFromValues inputs;
  compacted ← CompactAgainstDefaults inferredOutputs inferredInputs;
  if is_nil compacted then Normalize (VMap ∅) else Normalize compacted.

Definition ValidateDefaultsSidecarValue (defaults : value) : result error unit :=
  if is_nil defaults then Err defaults_object_error else
  normalizedDefaults ← Normalize defaults;
  match as_object normalizedDefaults with None => Err defaults_object_error | Some _ => Ok tt end.

(** ** Payload types with defaults *)
Definition defaultsOverlayPayloadTypes : list string :=
  [PayloadTypeINI; PayloadTypeJSON; PayloadTypeProperties; PayloadTypeYAML].
Definition SupportedDefaultsOverlayPayloadTypes : list string := sort_strings defaultsOverlayPayloadTypes.

Section sidecar.
Context `{UnicodeTables}.

Definition SupportsDefaultsOverlayPayloadType (payloadType : string) : bool :=
  existsb (fun candidate => NormalizePayloadType payloadType == candidate) defaultsOverlayPayloadTypes.
Definition isJSONYAMLDefaultsOverlayType (payloadType : string) : bool :=
  let t := NormalizePayloadType payloadType in (t == PayloadTypeJSON) || (t == PayloadTypeYAML).
Definition defaultsOverlayPayloadTypesCompatible (defaultsType overridesType : string) : bool :=
  let normalizedDefaults := NormalizePayloadType defaultsType in
  let normalizedOverrides := NormalizePayloadType overridesType in
  (normalizedDefaults == normalizedOverrides)
  || (isJSONYAMLDefaultsOverlayType normalizedDefaults && isJSONYAMLDefaultsOverlayType normalizedOverrides).
Definition ValidateDefaultsSidecarDescriptor (defaults overrides : PayloadDescriptor) : result error unit :=
  let resolvedDefaults := NormalizePayloadDescriptor defaults in
  if negb (SupportsDefaultsOverlayPayloadType (PayloadType resolvedDefaults)) then
    Err (Invalid ("resource defaults require merge-capable payload type (json, yaml, ini, properties); got "
                  +:+ quote (PayloadType resolvedDefaults)) None)
  else if negb (IsPayloadDescriptorExplicit overrides) then Ok tt
  else
    let resolvedOverrides := NormalizePayloadDescriptor overrides in
    if negb (defaultsOverlayPayloadTypesCompatible (PayloadType resolvedDefaults) (PayloadType resolvedOverrides)) then
      Err (Invalid ("resource defaults payload type " +:+ quote (PayloadType resolvedDefaults)
                    +:+ " does not match resource payload type " +:+ quote (PayloadType resolvedOverrides)) None)
    else Ok tt.
End sidecar.

(** ** Lookups in the results *)
Lemma lookup_merge_object d o k :
  mergeObjectWithDefaults d o !! k =
  match d !! k, o !! k with
  | None, None => None
  | Some dv, None => Some dv
  | None, Some ov => Some ov
  | Some (VMap dm), Some (VMap om) => Some (VMap (mergeObjectWithDefaults dm om))
  | Some _, Some ov => Some ov
  end.
Proof.
  unfold mergeObjectWithDefaults at 1. rewrite lookup_merge, lookup_fmap.
  destruct (d !! k) as [dv|], (o !! k) as [ov|]; cbn [fmap option_fmap option_map diag_None merge_key];
    rewrite ?DeepCopyValue_id; try done; try (by destruct dv).
  destruct dv; try (cbn [merge_member]; by rewrite DeepCopyValue_id).
  destruct ov; try (cbn [merge_member]; by rewrite DeepCopyValue_id). done.
Qed.

Lemma lookup_compact_object v d k :
  compactObjectAgainstDefaults v d !! k =
  match v !! k, d !! k with
  | None, _ => None
  | Some cv, None => Some cv
  | Some (VMap vm), Some (VMap dm) =>
      let nested := compactObjectAgainstDefaults vm dm in if nested == ∅ then None else Some (VMap nested)
  | Some cv, Some dv => if deep_equal cv dv then None else Some cv
  end.
Proof.
  unfold compactObjectAgainstDefaults at 1. rewrite lookup_merge, lookup_fmap.
  destruct (v !! k) as [cv|], (d !! k) as [dv|]; cbn [fmap option_fmap option_map diag_None compact_key];
    rewrite ?DeepCopyValue_id; try done; try (by destruct cv).
  all: destruct cv; try (cbn [compact_member]; by rewrite DeepCopyValue_id); by destruct dv.
Qed.

Lemma lookup_intersect_object l r k :
  intersectObjectDefaults l r !! k =
  match l !! k, r !! k with
  | Some (VMap lm), Some (VMap rm) =>
      let nested := intersectObjectDefaults lm rm in
      if negb (nested == ∅) || ((lm == ∅) && (rm == ∅)) then Some (VMap nested) else None
  | Some lv, Some rv => if deep_equal lv rv then Some lv else None
  | _, _ => None
  end.
Proof.
  unfold intersectObjectDefaults at 1. rewrite lookup_merge, lookup_fmap.
  destruct (l !! k) as [lv|], (r !! k) as [rv|]; cbn [fmap option_fmap option_map diag_None intersect_key]; try done.
  2: by destruct lv.
  all: destruct lv; try (cbn [intersect_member]; by rewrite DeepCopyValue_id); by destruct rv.
Qed.

(** ** Normal forms *)
Lemma normal_VMap (m : object) : normal (VMap m) <-> map_Forall (fun _ => normal) m.
Proof. split; [apply normal_map_inv|by constructor]. Qed.

(** A kind of values that an object is of when its members are. *)
Section hereditary.
Context (P : value -> Prop) (HP : forall m, P (VMap m) <-> map_Forall (fun _ => P) m).

Lemma merge_hereditary d : forall o, P (VMap d) -> P (VMap o) -> P (VMap (mergeObjectWithDefaults d o)).
Proof using HP.
  enough (forall dv, match dv with VMap d => forall o, P (VMap d) -> P (VMap o) ->
    P (VMap (mergeObjectWithDefaults d o)) | _ => True end) as E by apply (E (VMap d)).
  intros dv. clear d. value_ind dv; try exact I. intros o Hd Ho. apply HP. intros k v Hv.
  rewrite lookup_merge_object in Hv. rewrite HP in Hd, Ho.
  destruct (m !! k) as [dv|] eqn:Ed, (o !! k) as [ov|] eqn:Eo; try done.
  - assert (P ov) by by eapply Ho. assert (P dv) by by eapply Hd.
    destruct dv, ov; injection Hv as <-; try done. by apply (IH _ _ Ed).
  - destruct dv; injection Hv as <-; by eapply Hd.
  - injection Hv as <-. by eapply Ho.
Qed.
Lemma compact_hereditary v : forall d, P (VMap v) -> P (VMap (compactObjectAgainstDefaults v d)).
Proof using HP.
  enough (forall cv, match cv with VMap v => forall d, P (VMap v) ->
    P (VMap (compactObjectAgainstDefaults v d)) | _ => True end) as E by apply (E (VMap v)).
  intros cv. clear v. value_ind cv; try exact I. intros d Hv. apply HP. intros k w Hw.
  rewrite lookup_compact_object in Hw. rewrite HP in Hv.
  destruct (m !! k) as [cv|] eqn:Ec; [|done]. assert (P cv) as Hn by by eapply Hv.
  destruct (d !! k) as [dv|].
  2: { destruct cv; injection Hw as <-; done. }
  destruct cv; try (destruct (deep_equal _ _) in Hw; by simplify_eq).
  destruct dv; try (destruct (deep_equal _ _) in Hw; by simplify_eq).
  cbv zeta in Hw. case_bool_decide; [done|]. injection Hw as <-. by apply (IH _ _ Ec).
Qed.
End hereditary.
Lemma merge_normal d : forall o, normal (VMap d) -> normal (VMap o) -> normal (VMap (mergeObjectWithDefaults d o)).
Proof. apply merge_hereditary, normal_VMap. Qed.
Lemma compact_normal v : forall d, normal (VMap v) -> normal (VMap (compactObjectAgainstDefaults v d)).
Proof. apply compact_hereditary, normal_VMap. Qed.
(** No float zero of the value has a sign: deep equality is then equality. *)
Definition unsigned_zeros (v : value) : Prop := canon v = v.
Lemma unsigned_zeros_VMap m : unsigned_zeros (VMap m) <-> map_Forall (fun _ => unsigned_zeros) m.
Proof.
  unfold unsigned_zeros. cbn [canon]. split.
  - intros [= E] k v Hk. apply (f_equal (.!! k)) in E. rewrite lookup_fmap, Hk in E. by injection E.
  - intros Hm. f_equal. apply map_eq. intros k. rewrite lookup_fmap. destruct (m !! k) as [v|] eqn:E; [|done]. cbn. f_equal. by eapply Hm.
Qed.
Lemma intersect_normal l : forall r, normal (VMap l) -> normal (VMap (intersectObjectDefaults l r)).
Proof.
  enough (forall lv, match lv with VMap l => forall r, normal (VMap l) ->
    normal (VMap (intersectObjectDefaults l r)) | _ => True end) as E by apply (E (VMap l)).
  intros lv. clear l. value_ind lv; try exact I. intros r Hv. apply normal_VMap. intros k w Hw.
  rewrite lookup_intersect_object in Hw. rewrite normal_VMap in Hv.
  destruct (m !! k) as [lv|] eqn:El; [|done]. assert (normal lv) as Hn by by eapply Hv.
  destruct (r !! k) as [rv|]; [|by destruct lv].
  destruct lv; try (destruct (deep_equal _ _) in Hw; by simplify_eq).
  destruct rv; try (destruct (deep_equal _ _) in Hw; by simplify_eq).
  cbv zeta in Hw. destruct (_ || _); [|done]. injection Hw as <-. by apply (IH _ _ El).
Qed.

(** ** Coverage

    [covers d v]: every key of the defaults is in the payload, recursively where both
    are objects. *)
Inductive covers : value -> value -> Prop :=
| covers_object d v :
    (forall k dv, d !! k = Some dv -> exists w, v !! k = Some w /\ covers dv w) -> covers (VMap d) (VMap v)
| covers_leaf dv v : as_object dv = None \/ as_object v = None -> covers dv v.

(** The defaults [d] are part of [v]: as coverage, and an object of [d] is an object
    in [v]. *)
Inductive part_of : value -> value -> Prop :=
| part_object d v :
    (forall k dv, d !! k = Some dv -> exists w, v !! k = Some w /\ part_of dv w) -> part_of (VMap d) (VMap v)
| part_leaf dv v : as_object dv = None -> part_of dv v.

Lemma covers_object_inv d v : covers (VMap d) (VMap v) ->
  forall k dv, d !! k = Some dv -> exists w, v !! k = Some w /\ covers dv w.
Proof. inversion 1 as [? ? Hk|? ? [?|?]]; [exact Hk|done|done]. Qed.
Lemma part_object_inv d v : part_of (VMap d) v ->
  exists m, v = VMap m /\ forall k dv, d !! k = Some dv -> exists w, m !! k = Some w /\ part_of dv w.
Proof. inversion 1 as [? m Hk|]; [by exists m|done]. Qed.

Lemma part_of_covers d : forall v, part_of d v -> covers d v.
Proof.
  value_ind d; try (intros ? _; apply covers_leaf; by left).
  intros v (n & -> & Hp)%part_object_inv. apply covers_object. intros k dv Hdv.
  destruct (Hp _ _ Hdv) as (w & Hw & Hpw). exists w. split; [done|]. by apply (IH _ _ Hdv).
Qed.
Lemma part_of_refl v : part_of v v.
Proof. value_ind v; try (by apply part_leaf). apply part_object. intros k v Hv. exists v. split; [done|]. by eapply IH. Qed.
Lemma part_of_trans a : forall b c, part_of a b -> part_of b c -> part_of a c.
Proof.
  value_ind a; try (intros ? ? _ _; by apply part_leaf).
  intros b c (n & -> & Hb)%part_object_inv (p & -> & Hc)%part_object_inv. apply part_object.
  intros k dv Hdv. destruct (Hb _ _ Hdv) as (w & Hw & Hp). destruct (Hc _ _ Hw) as (x & Hx & Hp').
  exists x. split; [done|]. by eapply IH.
Qed.
Lemma part_of_canon a b c : canon b = canon c -> part_of a b -> part_of a c.
Proof.
  revert b c. value_ind a; try (intros ? ? _ _; by apply part_leaf).
  intros b c E (n & -> & Hb)%part_object_inv. destruct c; try done. cbn in E. injection E as E.
  apply part_object. intros k dv Hdv. destruct (Hb _ _ Hdv) as (w & Hw & Hp).
  apply (f_equal (lookup k)) in E. rewrite !lookup_fmap, Hw in E. destruct (m0 !! k) as [x|] eqn:Hx; [|done].
  cbn in E. injection E as E. exists x. split; [done|]. by eapply IH.
Qed.

Lemma intersect_part l : forall r, normal (VMap l) -> normal (VMap r) ->
  part_of (VMap (intersectObjectDefaults l r)) (VMap l) /\ part_of (VMap (intersectObjectDefaults l r)) (VMap r).
Proof.
  enough (forall lv, match lv with VMap l => forall r, normal (VMap l) -> normal (VMap r) ->
    part_of (VMap (intersectObjectDefaults l r)) (VMap l) /\ part_of (VMap (intersectObjectDefaults l r)) (VMap r)
    | _ => True end) as E by apply (E (VMap l)).
  intros lv. clear l. value_ind lv; try exact I. intros r Hl Hr. rewrite normal_VMap in Hl, Hr.
  assert (forall k w, intersectObjectDefaults m r !! k = Some w -> exists lv rv,
    m !! k = Some lv /\ r !! k = Some rv /\ part_of w lv /\ part_of w rv) as Hk.
  { intros k w Hw. rewrite lookup_intersect_object in Hw. destruct (m !! k) as [lv|] eqn:El; [|done].
    assert (normal lv) as Hnl by by eapply Hl.
    destruct (r !! k) as [rv|] eqn:Er; [|by destruct lv]. assert (normal rv) as Hnr by by eapply Hr.
    exists lv, rv. split_and!; [done|done|..].
    all: destruct lv as [| | | | | | | | | | | | |lm| | | |];
      try (destruct (deep_equal _ _) in Hw; [|done]; injection Hw as <-; by apply part_leaf).
    all: destruct rv as [| | | | | | | | | | | | |rm| | | |];
      try (cbn in Hw; rewrite bool_decide_false in Hw by done; done).
    all: cbv zeta in Hw; destruct (_ || _); [|done]; injection Hw as <-; by apply (IH _ _ El). }
  split; apply part_object; intros k w Hw; destruct (Hk _ _ Hw) as (lv & rv & ? & ? & ? & ?); eauto.
Qed.

(** ** Compacting and merging *)
Lemma canon_object m n :
  canon (VMap m) = canon (VMap n) <-> forall k, canon <$> (m !! k) = canon <$> (n !! k).
Proof.
  cbn. trans (canon <$> m = canon <$> n); [naive_solver congruence|]. rewrite map_eq_iff.
  apply forall_proper. intros k. by rewrite !lookup_fmap.
Qed.
Lemma merge_empty d : mergeObjectWithDefaults d ∅ = d.
Proof. apply map_eq. intros k. rewrite lookup_merge_object, lookup_empty. by destruct (d !! k) as [[]|]. Qed.

(** Two members of which at most one is an object. *)
Lemma compact_leaf_lookup v d k cv dv : v !! k = Some cv -> d !! k = Some dv ->
  as_object cv = None \/ as_object dv = None ->
  compactObjectAgainstDefaults v d !! k = if deep_equal cv dv then None else Some cv.
Proof. intros Hv Hd Ho. rewrite lookup_compact_object, Hv, Hd. destruct cv, dv; naive_solver. Qed.
Lemma merge_leaf_lookup d o k dv ov : d !! k = Some dv -> o !! k = Some ov ->
  as_object dv = None \/ as_object ov = None -> mergeObjectWithDefaults d o !! k = Some ov.
Proof. intros Hd Hv Ho. rewrite lookup_merge_object, Hd, Hv. destruct dv, ov; naive_solver. Qed.
Lemma both_objects_or_not v w : (exists m n, v = VMap m /\ w = VMap n) \/ as_object v = None \/ as_object w = None.
Proof. destruct v, w; eauto. Qed.

Lemma merge_compact d : forall v, normal (VMap d) -> normal (VMap v) -> covers (VMap d) (VMap v) ->
  canon (VMap (mergeObjectWithDefaults d (compactObjectAgainstDefaults v d))) = canon (VMap v).
Proof.
  enough (forall dv, match dv with VMap d => forall v, normal (VMap d) -> normal (VMap v) ->
    covers (VMap d) (VMap v) ->
    canon (VMap (mergeObjectWithDefaults d (compactObjectAgainstDefaults v d))) = canon (VMap v)
    | _ => True end) as E by apply (E (VMap d)).
  intros dv. clear d. value_ind dv; try exact I. intros v Hd Hv Hc.
  apply canon_object. intros k. assert (Hck := covers_object_inv _ _ Hc k).
  destruct (m !! k) as [dv|] eqn:Ed.
  2: { rewrite lookup_merge_object, lookup_compact_object, Ed. by destruct (v !! k) as [[]|]. }
  destruct (Hck _ eq_refl) as (cv & Ev & Hcv). assert (normal dv) by eauto using normal_lookup.
  assert (normal cv) by eauto using normal_lookup.
  destruct (both_objects_or_not dv cv) as [(dm & cm & -> & ->)|Hl].
  - specialize (IH _ _ Ed cm). cbn beta iota in IH. rewrite lookup_merge_object, lookup_compact_object, Ed, Ev. cbv zeta.
    case_bool_decide as Hn; cbn [fmap option_fmap option_map]; f_equal; [|by apply IH].
    rewrite <-IH by done. by rewrite Hn, merge_empty.
  -
    assert (Hc' := compact_leaf_lookup v m k cv dv Ev Ed ltac:(tauto)).
    destruct (deep_equal cv dv) eqn:Eq.
    + rewrite lookup_merge_object, Hc', Ed, Ev. cbn. apply deep_equal_canon in Eq; [|done..].
      destruct dv; cbn [fmap option_fmap option_map]; by f_equal.
    + erewrite merge_leaf_lookup by eauto. by rewrite Ev.
Qed.

Lemma merge_compact_exact d v : normal (VMap d) -> normal (VMap v) -> covers (VMap d) (VMap v) ->
  unsigned_zeros (VMap d) -> unsigned_zeros (VMap v) ->
  mergeObjectWithDefaults d (compactObjectAgainstDefaults v d) = v.
Proof.
  intros Hd Hv Hc Zd Zv. pose proof (merge_compact d v Hd Hv Hc) as E.
  assert (unsigned_zeros (VMap (mergeObjectWithDefaults d (compactObjectAgainstDefaults v d)))) as Z.
  { apply merge_hereditary, compact_hereditary; auto using unsigned_zeros_VMap. }
  unfold unsigned_zeros in Z, Zv. rewrite Z, Zv in E. by injection E.
Qed.

(** Keys of the defaults that the payload does not have come back. *)
Lemma merge_compact_missing d v k dv :
  d !! k = Some dv -> v !! k = None ->
  mergeObjectWithDefaults d (compactObjectAgainstDefaults v d) !! k = Some dv.
Proof. intros Hd Hv. rewrite lookup_merge_object, lookup_compact_object, Hd, Hv. by destruct dv. Qed.

Lemma compact_self d : normal (VMap d) -> compactObjectAgainstDefaults d d = ∅.
Proof.
  enough (forall dv, match dv with VMap d => normal (VMap d) -> compactObjectAgainstDefaults d d = ∅
    | _ => True end) as E by apply (E (VMap d)).
  intros dv. clear d. value_ind dv; try exact I. intros Hd. apply map_eq. intros k. rewrite lookup_empty.
  destruct (m !! k) as [dv|] eqn:Ed; [|by rewrite lookup_compact_object, Ed].
  assert (normal dv) as Hn by eauto using normal_lookup.
  destruct (both_objects_or_not dv dv) as [(dm & cm & -> & [= <-])|Hl].
  - rewrite lookup_compact_object, Ed. cbv zeta. by rewrite (IH _ _ Ed Hn), bool_decide_true.
  - erewrite compact_leaf_lookup by eauto. by rewrite deep_equal_refl.
Qed.

(** Merging adds only what compacting removes. *)
Lemma compact_merge d : forall o, normal (VMap d) -> normal (VMap o) ->
  compactObjectAgainstDefaults (mergeObjectWithDefaults d o) d = compactObjectAgainstDefaults o d.
Proof.
  enough (forall dv, match dv with VMap d => forall o, normal (VMap d) -> normal (VMap o) ->
    compactObjectAgainstDefaults (mergeObjectWithDefaults d o) d = compactObjectAgainstDefaults o d
    | _ => True end) as E by apply (E (VMap d)).
  intros dv. clear d. value_ind dv; try exact I. intros o Hd Ho. apply map_eq. intros k.
  destruct (m !! k) as [dv|] eqn:Ed, (o !! k) as [ov|] eqn:Eo;
    [|rewrite !lookup_compact_object, lookup_merge_object, Ed, ?Eo..].
  - assert (normal dv) by eauto using normal_lookup. assert (normal ov) by eauto using normal_lookup.
    destruct (both_objects_or_not dv ov) as [(dm & om & -> & ->)|Hl].
    + rewrite !lookup_compact_object, lookup_merge_object, Ed, Eo. cbv zeta. by rewrite (IH _ _ Ed).
    + erewrite !compact_leaf_lookup; eauto using merge_leaf_lookup; tauto.
  - assert (normal dv) by eauto using normal_lookup. destruct dv; cbv zeta; try (by rewrite deep_equal_refl).
    by rewrite compact_self, bool_decide_true.
  - by destruct ov.
  - done.
Qed.

(** Compacting again changes nothing. *)
Lemma compact_idemp v : forall d,
  compactObjectAgainstDefaults (compactObjectAgainstDefaults v d) d = compactObjectAgainstDefaults v d.
Proof.
  enough (forall cv, match cv with VMap v => forall d,
    compactObjectAgainstDefaults (compactObjectAgainstDefaults v d) d = compactObjectAgainstDefaults v d
    | _ => True end) as E by apply (E (VMap v)).
  intros cv. clear v. value_ind cv; try exact I. intros d. apply map_eq. intros k.
  destruct (d !! k) as [dv|] eqn:Ed; [|rewrite !lookup_compact_object, Ed; by destruct (m !! k) as [[]|]].
  destruct (m !! k) as [cv|] eqn:Ec; [|by rewrite !lookup_compact_object, Ec].
  destruct (both_objects_or_not cv dv) as [(cm & dm & -> & ->)|Hl].
  - rewrite (lookup_compact_object (compactObjectAgainstDefaults m d)), lookup_compact_object, Ec, Ed. cbv zeta.
    case_bool_decide as Hn; [done|]. rewrite (IH _ _ Ec). by rewrite bool_decide_false.
  - assert (Hc := compact_leaf_lookup m d k cv dv Ec Ed Hl).
    destruct (deep_equal cv dv) eqn:Eq; [by rewrite lookup_compact_object, Hc|].
    rewrite Hc. erewrite compact_leaf_lookup by eauto. by rewrite Eq.
Qed.

(** ** The operations on payloads *)
Lemma Normalize_normal v : normal v -> Normalize v = Ok v.
Proof. apply normalizeValue_id. Qed.
Lemma Normalize_is_nil v m : Normalize v = Ok (VMap m) -> is_nil v = false.
Proof. by destruct v. Qed.

Lemma CompactAgainstDefaults_objects v m d : Normalize v = Ok (VMap m) -> normal (VMap m) -> normal (VMap d) ->
  CompactAgainstDefaults v (VMap d) =
  Ok (if compactObjectAgainstDefaults m d == ∅ then VNil else VMap (compactObjectAgainstDefaults m d)).
Proof.
  intros Hv Hm Hd. unfold CompactAgainstDefaults. rewrite (Normalize_is_nil _ _ Hv), (Normalize_normal _ Hd), Hv.
  cbn [is_nil mbind result_bind as_object]. case_bool_decide; [done|]. by apply Normalize_normal, compact_normal.
Qed.
Lemma MergeWithDefaults_objects d o : normal (VMap d) -> normal (VMap o) ->
  MergeWithDefaults (VMap d) (VMap o) = Ok (VMap (mergeObjectWithDefaults d o)).
Proof.
  intros Hd Ho. unfold MergeWithDefaults. rewrite (Normalize_normal _ Hd), (Normalize_normal _ Ho).
  cbn [is_nil mbind result_bind as_object]. by apply Normalize_normal, merge_normal.
Qed.
Lemma MergeWithDefaults_nil d : normal (VMap d) -> MergeWithDefaults (VMap d) VNil = Ok (VMap d).
Proof.
  intros Hd. unfold MergeWithDefaults. rewrite (Normalize_normal _ Hd). cbn [is_nil mbind result_bind as_object].
  rewrite DeepCopyValue_id. by apply Normalize_normal.
Qed.

Lemma overlay_round_trip v m d : Normalize v = Ok (VMap m) -> normal (VMap m) -> normal (VMap d) ->
  covers (VMap d) (VMap m) ->
  exists c w, CompactAgainstDefaults v (VMap d) = Ok c /\ MergeWithDefaults (VMap d) c = Ok w
    /\ canon w = canon (VMap m).
Proof.
  intros Hv Hm Hd Hc. rewrite (CompactAgainstDefaults_objects v m d) by done.
  assert (E := merge_compact d m Hd Hm Hc). case_bool_decide as Hn.
  - rewrite Hn, merge_empty in E. exists VNil, (VMap d). by rewrite MergeWithDefaults_nil.
  - eexists _, _. split; [done|]. rewrite MergeWithDefaults_objects; [done|done|]. by apply compact_normal.
Qed.

Lemma infer_loop_spec values : forall common samples c n,
  Forall wf_value values -> (samples = 0 \/ normal (VMap common)) ->
  infer_loop common samples values = Ok (c, n) ->
  samples <= n /\ (n = 0 \/ normal (VMap c))
  /\ (samples = 0 \/ part_of (VMap c) (VMap common))
  /\ forall v, v ∈ values -> v <> VNil -> exists m, Normalize v = Ok (VMap m) /\ normal (VMap m) /\ part_of (VMap c) (VMap m).
Proof.
  induction values as [|v values IH]; intros common samples c n Hwf Hs Hl; cbn [infer_loop] in Hl.
  { injection Hl as <- <-. split_and!; [lia|done|right; apply part_of_refl|]. intros v Hv. by apply not_elem_of_nil in Hv. }
  inversion Hwf as [|? ? Hw Hws]; subst. destruct (is_nil v) eqn:Hnil.
  { destruct (IH _ _ _ _ Hws Hs Hl) as (H1 & H2 & H3 & H4). split_and!; [done..|].
    intros u [->|Hu]%elem_of_cons Hun; [by destruct v|]. by apply H4. }
  apply bind_Ok in Hl as (nv & Hnv & Hl). assert (normal nv) as Hn by eauto using normalizeValue_normal.
  destruct (as_object nv) as [cur|] eqn:Ecur; [|done]. destruct nv; try done. injection Ecur as ->.
  case_bool_decide as Hz.
  - rewrite fmap_DeepCopyValue in Hl. destruct (IH _ _ _ _ Hws (or_intror Hn) Hl) as (H1 & H2 & H3 & H4).
    destruct H3 as [?|H3]; [lia|]. split_and!; [lia|done|by left|].
    intros u [->|Hu]%elem_of_cons Hun; [eauto|by apply H4].
  - destruct Hs as [?|Hs]; [done|].
    assert (normal (VMap (intersectObjectDefaults common cur))) as Hi by by apply intersect_normal.
    destruct (intersect_part common cur Hs Hn) as [P1 P2].
    destruct (IH _ _ _ _ Hws (or_intror Hi) Hl) as (H1 & H2 & H3 & H4).
    destruct H3 as [?|H3]; [lia|]. split_and!; [lia|done|right; by eapply part_of_trans|].
    intros u [->|Hu]%elem_of_cons Hun; [|by apply H4]. eexists. split_and!; [done|done|by eapply part_of_trans].
Qed.

Lemma part_of_empty v : part_of (VMap ∅) (VMap v).
Proof. apply part_object. intros k dv Hk. by rewrite lookup_empty in Hk. Qed.
Lemma normal_empty : normal (VMap ∅).
Proof. apply normal_VMap, map_Forall_empty. Qed.

(** The inferred defaults are an object that is part of every sample. *)
Lemma InferDefaultsFromValues_spec values d : Forall wf_value values -> InferDefaultsFromValues values = Ok d ->
  exists c, d = VMap c /\ normal (VMap c)
  /\ forall v m, v ∈ values -> Normalize v = Ok (VMap m) -> part_of (VMap c) (VMap m).
Proof.
  intros Hwf. assert (Normalize (VMap ∅) = Ok (VMap ∅)) as E0 by (apply Normalize_normal, normal_empty).
  unfold InferDefaultsFromValues. rewrite E0. destruct (_ <? 2).
  { intros [= <-]. exists ∅. split_and!; [done|apply normal_empty|]. intros. apply part_of_empty. }
  intros ([c n] & Hl & Hd)%bind_Ok. destruct (_ || _) eqn:En.
  { injection Hd as <-. exists ∅. split_and!; [done|apply normal_empty|]. intros. apply part_of_empty. }
  apply infer_loop_spec in Hl as (_ & Hn & _ & Hp); [|done|by left].
  apply orb_false_iff in En as [En _]. apply Nat.ltb_ge in En. destruct Hn as [?|Hn]; [lia|].
  rewrite (Normalize_normal _ Hn) in Hd. injection Hd as <-. exists c. split_and!; [done|done|].
  intros v m Hv Hm. destruct (Hp v Hv) as (m' & Hm' & _ & Hpart); [by intros ->|]. rewrite Hm in Hm'. by injection Hm' as ->.
Qed.

(** ** Properties *)

(** [C27] Storing only the difference loses nothing: for defaults and a payload that
    are objects and such that the payload has every key of the defaults (recursively in
    nested objects), compacting the payload against the defaults and merging the result
    over the defaults succeeds and gives the payload back, up to the sign of float
    zeros. *)
Theorem compact_merge_round_trip v m d :
  wf_value v -> Normalize v = Ok (VMap m) -> normal (VMap d) -> covers (VMap d) (VMap m) ->
  exists c w, CompactAgainstDefaults v (VMap d) = Ok c /\ MergeWithDefaults (VMap d) c = Ok w
    /\ canon w = canon (VMap m).
Proof. intros Hwf Hv Hd. apply overlay_round_trip; eauto using normalizeValue_normal. Qed.

(** Coverage is needed: a key of the defaults that the payload does not have is
    back after compacting and merging, so a stored resource cannot remove a default. *)
Lemma removed_default_returns v m d k dv :
  wf_value v -> Normalize v = Ok (VMap m) -> normal (VMap d) -> d !! k = Some dv -> m !! k = None ->
  exists c w, CompactAgainstDefaults v (VMap d) = Ok c /\ MergeWithDefaults (VMap d) c = Ok (VMap w)
    /\ w !! k = Some dv.
Proof.
  intros Hwf Hv Hd Hk Hm. assert (normal (VMap m)) as Hn by eauto using normalizeValue_normal.
  rewrite (CompactAgainstDefaults_objects v m d) by done. assert (E := merge_compact_missing _ _ _ _ Hk Hm).
  case_bool_decide as Hc.
  - rewrite Hc, merge_empty in E. exists VNil, d. by rewrite MergeWithDefaults_nil.
  - eexists _, _. split; [done|]. rewrite MergeWithDefaults_objects by (done || by apply compact_normal). done.
Qed.

(** Compacting is a normal form of the overrides: compacting what a merge
    produced gives what compacting the overrides gives (the merge adds nothing that
    has to be stored), and a compacted object compacts to itself. *)
Theorem compact_of_merge d o :
  normal (VMap d) -> normal (VMap o) ->
  compactObjectAgainstDefaults (mergeObjectWithDefaults d o) d = compactObjectAgainstDefaults o d
  /\ compactObjectAgainstDefaults (compactObjectAgainstDefaults o d) d = compactObjectAgainstDefaults o d.
Proof. intros Hd Ho. split; [by apply compact_merge|apply compact_idemp]. Qed.

(** Defaults inferred from samples are safe for each of them: whenever
    [InferDefaultsFromValues] returns, every sample that is an object can be compacted
    against the inferred defaults and merged back without losing anything. *)
Theorem inferred_defaults_lossless values d v m :
  Forall wf_value values -> InferDefaultsFromValues values = Ok d -> v ∈ values -> Normalize v = Ok (VMap m) ->
  exists c w, CompactAgainstDefaults v d = Ok c /\ MergeWithDefaults d c = Ok w /\ canon w = canon (VMap m).
Proof.
  intros Hwf Hd Hv Hm. destruct (InferDefaultsFromValues_spec _ _ Hwf Hd) as (c & -> & Hn & Hp).
  rewrite Forall_forall in Hwf. apply overlay_round_trip; eauto using normalizeValue_normal, part_of_covers.
Qed.

Definition overlay_defaults : object := {[ "a" := VMap {[ "x" := VInt64 1; "y" := VInt64 2 ]}; "b" := VBool true ]}.
Definition overlay_sample : object := {[ "a" := VMap {[ "x" := VInt64 1; "y" := VInt64 3 ]}; "b" := VBool true ]}.
Lemma overlay_covers : covers (VMap {[ "b" := VBool false ]}) (VMap overlay_sample).
Proof.
  apply covers_object. intros k dv [<- <-]%lookup_singleton_Some. exists (VBool true).
  split; [vm_compute; reflexivity|apply covers_leaf; by left].
Qed.
Lemma compact_merge_round_trip_witness :
  exists c w, CompactAgainstDefaults (VMap overlay_sample) (VMap {[ "b" := VBool false ]}) = Ok c
    /\ MergeWithDefaults (VMap {[ "b" := VBool false ]}) c = Ok w /\ canon w = canon (VMap overlay_sample).
Proof.
  apply (compact_merge_round_trip (VMap overlay_sample) overlay_sample {[ "b" := VBool false ]}).
  - apply normal_wf, normalb_normal. vm_compute. reflexivity.
  - apply Normalize_normal, normalb_normal. vm_compute. reflexivity.
  - apply normalb_normal. vm_compute. reflexivity.
  - apply overlay_covers.
Defined.
Lemma removed_default_returns_witness :
  exists c w, CompactAgainstDefaults (VMap {[ "b" := VBool true ]}) (VMap overlay_defaults) = Ok c
    /\ MergeWithDefaults (VMap overlay_defaults) c = Ok (VMap w) /\ w !! "a" = overlay_defaults !! "a".
Proof.
  apply (removed_default_returns (VMap {[ "b" := VBool true ]}) {[ "b" := VBool true ]} overlay_defaults "a").
  - apply normal_wf, normalb_normal. vm_compute. reflexivity.
  - apply Normalize_normal, normalb_normal. vm_compute. reflexivity.
  - apply normalb_normal. vm_compute. reflexivity.
  - vm_compute. reflexivity.
  - vm_compute. reflexivity.
Defined.
Lemma compact_of_merge_witness :
  compactObjectAgainstDefaults (mergeObjectWithDefaults overlay_defaults overlay_sample) overlay_defaults
    = compactObjectAgainstDefaults overlay_sample overlay_defaults
  /\ compactObjectAgainstDefaults (compactObjectAgainstDefaults overlay_sample overlay_defaults) overlay_defaults
    = compactObjectAgainstDefaults overlay_sample overlay_defaults.
Proof. apply compact_of_merge; apply normalb_normal; vm_compute; reflexivity. Defined.
Lemma inferred_defaults_lossless_witness :
  exists c w, CompactAgainstDefaults (VMap overlay_sample) (VMap {[ "a" := VMap {[ "x" := VInt64 1 ]}; "b" := VBool true ]}) = Ok c
    /\ MergeWithDefaults (VMap {[ "a" := VMap {[ "x" := VInt64 1 ]}; "b" := VBool true ]}) c = Ok w
    /\ canon w = canon (VMap overlay_sample).
Proof.
  apply (inferred_defaults_lossless [VMap overlay_defaults; VMap overlay_sample] _ (VMap overlay_sample)).
  - do 2 (apply Forall_cons; split; [apply normal_wf, normalb_normal; vm_compute; reflexivity|]). apply Forall_nil_2.
  - vm_compute. reflexivity.
  - right. left.
  - apply Normalize_normal, normalb_normal. vm_compute. reflexivity.
Defined.
