(* ===== verification/DefaultsSpec.v ===== *)
(** * The defaults of a resource

    Models [src/metadata/resource_defaults.go] (and the cloning of slices of
    [src/metadata/clone_helpers.go]): the defaults of a metadata document, an object or a
    reference to a file, with named profiles; their validation, the merging of the
    documents of a path from the root down, and the object they stand for. A slice or map
    that may be nil is an [option]. *)
From S2P Require Import Prelude GoText GoTextFacts Faults Value Descriptor Overlay.

Definition cloneStringSlice (values : option (list string)) : option (list string) :=
  match values with None => None | Some l => Some l end.

Definition DefaultsModeInherit := "inherit".
Definition DefaultsModeIgnore := "ignore".
Definition DefaultsModeReplace := "replace".

Record DefaultsSpec := {
  Mode : string;
  UseProfiles : option (list string);
  DefaultsValue : value;
  Profiles : option (gmap string value);
}.
#[export] Instance DefaultsSpec_eq_dec : EqDecision DefaultsSpec.
Proof. solve_decision. Defined.

Definition SupportedDefaultsArtifactExtensions : list string := [".json"; ".properties"; ".yaml"; ".yml"].

(** The regular expressions [^\{\{include ([^{}\s]+)\}\}$] and [^[A-Za-z0-9][A-Za-z0-9._-]*$]. *)
Definition is_include_byte (c : ascii) : bool :=
  negb (bool_decide (c ∈ ["{"; "}"; " "; "009"; "010"; "012"; "013"]%char)).
Definition match_include (s : string) : option string :=
  if has_prefix s "{{include " && has_suffix s "}}" && (13 <=? String.length s) then
    let file := str_take (String.length s - 12) (str_drop 10 s) in
    if negb (file == "") && all_bytes is_include_byte file then Some file else None
  else None.
Definition is_profile_byte (c : ascii) : bool :=
  is_ascii_alpha c || is_ascii_digit c || bool_decide (c ∈ ["."; "_"; "-"]%char).
Definition match_profile_name (s : string) : bool :=
  match s with
  | "" => false
  | String c s => (is_ascii_alpha c || is_ascii_digit c) && all_bytes is_profile_byte s
  end.

Definition DefaultsIncludePlaceholder (file : string) : string := "{{include " +:+ trim_space file +:+ "}}".
Definition ParseDefaultsIncludeReference (v : string) : option string := match_include (trim_space v).

Section defaults.
Context `{UnicodeTables}.

Definition DefaultsSupportsFileBackedDescriptor (descriptor : PayloadDescriptor) : bool :=
  bool_decide (Extension (NormalizePayloadDescriptor descriptor) ∈ SupportedDefaultsArtifactExtensions).
Definition DefaultsSupportsFileBackedPayloadType (payloadType : string) : bool :=
  bool_decide (NormalizePayloadType payloadType ∈ [PayloadTypeJSON; PayloadTypeProperties; PayloadTypeYAML]).

Definition ValidateDefaultsProfileName (v : string) : result error unit :=
  guard_err (negb (match_profile_name (trim_space v)))
    (Invalid ("resource.defaults profile " +:+ quote v +:+ " is invalid") None).
Definition DefaultsFileName (profile : string) (descriptor : PayloadDescriptor) : result error string :=
  let resolved := NormalizePayloadDescriptor descriptor in
  if negb (DefaultsSupportsFileBackedDescriptor resolved) then
    Err (Invalid ("resource defaults files support only json, yaml, yml, or properties; got " +:+ quote (Extension resolved)) None)
  else if trim_space profile == "" then Ok ("defaults" +:+ Extension resolved)
  else _ ← ValidateDefaultsProfileName profile; Ok ("defaults-" +:+ profile +:+ Extension resolved).

Definition ValidateDefaultsMode (v : string) : result error string :=
  let trimmed := trim_space v in
  if trimmed == "" then Ok DefaultsModeInherit
  else if bool_decide (trimmed ∈ [DefaultsModeInherit; DefaultsModeIgnore; DefaultsModeReplace]) then Ok trimmed
  else Err (Invalid ("resource.defaults.mode " +:+ quote v +:+ " is not supported") None).

Definition validateDefaultsIncludeReference (field v expectedProfile : string) : result error unit :=
  match ParseDefaultsIncludeReference v with
  | None => Err (Invalid (field +:+ " must be an exact {{include ...}} reference") None)
  | Some includeFile =>
      let base := trim_suffix includeFile (path_ext includeFile) in
      let extension := to_lower (path_ext includeFile) in
      if negb (bool_decide (extension ∈ SupportedDefaultsArtifactExtensions)) then
        Err (Invalid (field +:+ " include file " +:+ quote includeFile +:+ " is not supported") None)
      else
        let expectedBase := if trim_space expectedProfile == "" then "defaults" else "defaults-" +:+ expectedProfile in
        guard_err (negb (base == expectedBase))
          (Invalid (field +:+ " include file " +:+ quote includeFile +:+ " is invalid for this defaults entry") None)
  end.
Definition validateDefaultsEntry (field : string) (v : value) (expectedProfile : string) : result error unit :=
  match v with
  | VNil => Ok tt
  | VString includeFile => validateDefaultsIncludeReference field includeFile expectedProfile
  | _ =>
      normalized ← Normalize v;
      match as_object normalized with
      | Some _ => Ok tt
      | None => Err (Invalid (field +:+ " must be an object or exact {{include ...}} reference") None)
      end
  end.

Fixpoint validate_profiles_used (idx : Z) (profiles : list string) : result error unit :=
  match profiles with
  | [] => Ok tt
  | profile :: profiles =>
      if trim_space profile == "" then
        Err (Invalid ("resource.defaults.useProfiles[" +:+ itoa idx +:+ "] must not be empty") None)
      else _ ← ValidateDefaultsProfileName profile; validate_profiles_used (idx + 1) profiles
  end.
Fixpoint validate_profiles (profiles : gmap string value) (keys : list string) : result error unit :=
  match keys with
  | [] => Ok tt
  | key :: keys =>
      _ ← ValidateDefaultsProfileName key;
      _ ← validateDefaultsEntry ("resource.defaults.profiles." +:+ key) (default VNil (profiles !! key)) key;
      validate_profiles profiles keys
  end.
Definition ValidateDefaultsSpec (v : option DefaultsSpec) : result error unit :=
  match v with
  | None => Ok tt
  | Some v =>
      _ ← ValidateDefaultsMode (Mode v);
      _ ← validate_profiles_used 0 (default [] (UseProfiles v));
      _ ← validateDefaultsEntry "resource.defaults.value" (DefaultsValue v) "";
      match Profiles v with
      | None => Ok tt
      | Some profiles => validate_profiles profiles (sorted_keys profiles)
      end
  end.
End defaults.

Definition HasDefaultsSpecDirectives (v : option DefaultsSpec) : bool :=
  match v with
  | None => false
  | Some v =>
      negb (trim_space (Mode v) == "") || bool_decide (is_Some (UseProfiles v))
      || negb (is_nil (DefaultsValue v)) || bool_decide (is_Some (Profiles v))
  end.
Definition cloneDefaultsEntry (v : value) : value := if is_nil v then VNil else DeepCopyValue v.
Definition CloneDefaultsSpec (v : option DefaultsSpec) : option DefaultsSpec :=
  match v with
  | None => None
  | Some v =>
      Some {| Mode := Mode v; UseProfiles := cloneStringSlice (UseProfiles v);
              DefaultsValue := cloneDefaultsEntry (DefaultsValue v);
              Profiles := match Profiles v with None => None | Some p => Some (cloneDefaultsEntry <$> p) end |}
  end.

Definition defaultsEntryObject (v : value) (field : string) : result error (option object) :=
  if is_nil v then Ok None
  else
    normalized ← Normalize v;
    match as_object normalized with
    | None => Err (Invalid (field +:+ " must resolve to an object") None)
    | Some objectValue => Ok (Some objectValue)
    end.
(** A nil map passed as a value is an empty object. *)
Definition mergeDefaultsEntry (base overlay : value) : value :=
  if is_nil overlay then cloneDefaultsEntry base
  else
    match defaultsEntryObject base "", defaultsEntryObject overlay "" with
    | Ok baseObject, Ok overlayObject =>
        match MergeWithDefaults (VMap (default ∅ baseObject)) (VMap (default ∅ overlayObject)) with
        | Ok merged => cloneDefaultsEntry merged
        | Err _ => cloneDefaultsEntry overlay
        end
    | _, _ => cloneDefaultsEntry overlay
    end.
(** The merged entry of a profile: a profile of the overlay is merged with the entry of
    the base, nil when there is none. *)
Definition merge_profile (base overlay : option value) : option value :=
  match base, overlay with
  | _, Some o => Some (mergeDefaultsEntry (default VNil base) o)
  | b, None => b
  end.

Section merging.
Context `{UnicodeTables}.

Definition empty_spec : DefaultsSpec := {| Mode := ""; UseProfiles := None; DefaultsValue := VNil; Profiles := None |}.
(** [mode, _ := ValidateDefaultsMode(...)]: the empty mode on an error. *)
Definition overlay_mode (overlay : DefaultsSpec) : string :=
  match ValidateDefaultsMode (Mode overlay) with Ok mode => mode | Err _ => "" end.
Definition reset_by_mode (mode : string) (merged : DefaultsSpec) : DefaultsSpec :=
  if mode == DefaultsModeIgnore then
    {| Mode := Mode merged; UseProfiles := None; DefaultsValue := VNil; Profiles := Profiles merged |}
  else if mode == DefaultsModeReplace then
    {| Mode := Mode merged; UseProfiles := None; DefaultsValue := VNil; Profiles := None |}
  else merged.
Definition MergeDefaultsSpec (base overlay : option DefaultsSpec) : option DefaultsSpec :=
  match base, overlay with
  | None, None => None
  | _, _ =>
      let merged := default empty_spec (CloneDefaultsSpec base) in
      let merged :=
        match overlay with
        | None => merged
        | Some overlay =>
            let mode := overlay_mode overlay in
            let merged := reset_by_mode mode merged in
            {| Mode := if negb (trim_space (Mode overlay) == "") then mode
                       else if Mode merged == "" then DefaultsModeInherit else Mode merged;
               Profiles := match Profiles overlay with
                           | None => Profiles merged
                           | Some p => Some (merge merge_profile (default ∅ (Profiles merged)) p)
                           end;
               UseProfiles := match UseProfiles overlay with
                              | None => UseProfiles merged
                              | Some l => cloneStringSlice (Some l)
                              end;
               DefaultsValue := if is_nil (DefaultsValue overlay) then DefaultsValue merged
                                else mergeDefaultsEntry (DefaultsValue merged) (DefaultsValue overlay) |}
        end in
      if HasDefaultsSpecDirectives (Some merged) then Some merged else None
  end.

(** The profiles in use, in order, over the value. *)
Fixpoint apply_profiles (profiles : gmap string value) (names : list string) (current : object) : result error object :=
  match names with
  | [] => Ok current
  | profileName :: names =>
      match profiles !! profileName with
      | None => Err (Invalid ("resource.defaults.useProfiles references unknown profile " +:+ quote profileName) None)
      | Some entry =>
          profileValue ← defaultsEntryObject entry ("resource.defaults.profiles." +:+ profileName);
          currentValue ← MergeWithDefaults (VMap current) (VMap (default ∅ profileValue));
          apply_profiles profiles names (default ∅ (as_object currentValue))
      end
  end.
Definition ResolveEffectiveDefaults (spec : option DefaultsSpec) : result error value :=
  match spec with
  | None => Ok (VMap ∅)
  | Some spec =>
      current ← defaultsEntryObject (DefaultsValue spec) "resource.defaults.value";
      current ← apply_profiles (default ∅ (Profiles spec)) (default [] (UseProfiles spec)) (default ∅ current);
      normalized ← Normalize (VMap current);
      if is_nil normalized then Ok (VMap ∅) else Ok normalized
  end.
End merging.

(** ** Facts *)
Example include_reference : ParseDefaultsIncludeReference " {{include defaults-a.yaml}} " = Some "defaults-a.yaml".
Proof. reflexivity. Qed.
Example include_reference_blank : ParseDefaultsIncludeReference "{{include }}" = None.
Proof. reflexivity. Qed.
Example include_reference_space : ParseDefaultsIncludeReference "{{include a b}}" = None.
Proof. reflexivity. Qed.

Lemma cloneDefaultsEntry_id v : cloneDefaultsEntry v = v.
Proof. unfold cloneDefaultsEntry. destruct v; cbn [is_nil]; try done; apply DeepCopyValue_id. Qed.
Lemma CloneDefaultsSpec_id v : CloneDefaultsSpec v = v.
Proof.
  destruct v as [[m u d p]|]; [|done]. unfold CloneDefaultsSpec. cbn. rewrite cloneDefaultsEntry_id. do 2 f_equal.
  - by destruct u.
  - destruct p as [p|]; [|done]. f_equal. rewrite <-(map_fmap_id p) at 2. apply map_fmap_ext. intros. apply cloneDefaultsEntry_id.
Qed.
Lemma defaultsEntryObject_Ok v field o : defaultsEntryObject v field = Ok o ->
  match o with None => v = VNil | Some m => v <> VNil /\ Normalize v = Ok (VMap m) end.
Proof.
  unfold defaultsEntryObject. destruct (is_nil v) eqn:E.
  - intros [= <-]. by destruct v.
  - intros (n & Hn & Ho)%bind_Ok. destruct n; try done. injection Ho as <-. split; [by intros ->|done].
Qed.

(** ** The object a defaults document stands for *)
Definition entry_object (v : value) (o : object) : Prop := (v = VNil /\ o = ∅) \/ (v <> VNil /\ Normalize v = Ok (VMap o)).

Lemma entry_object_spec v field o : entry_object v o <-> exists x, defaultsEntryObject v field = Ok x /\ o = default ∅ x.
Proof.
  unfold entry_object. split.
  - intros [[-> ->]|[Hv Hn]]; [by exists None|]. exists (Some o). split; [|done]. unfold defaultsEntryObject.
    assert (is_nil v = false) as -> by by destruct v. by rewrite Hn.
  - intros ([m|] & Hx%defaultsEntryObject_Ok & ->); [by right|by left].
Qed.
Lemma entry_object_normal v o : wf_value v -> entry_object v o -> normal (VMap o).
Proof.
  intros Hw [[_ ->]|[_ Hn]]; [apply normal_empty|]. by apply normalizeValue_normal in Hn.
Qed.
Lemma foldl_merge_normal objs : forall o, normal (VMap o) -> Forall (fun o => normal (VMap o)) objs ->
  normal (VMap (foldl mergeObjectWithDefaults o objs)).
Proof.
  induction objs as [|p objs IH]; intros o Ho Hall; [done|]. apply Forall_cons in Hall as [Hp Hall].
  apply IH; [by apply merge_normal|done].
Qed.

Section effective.
Context `{UnicodeTables}.

Definition profile_object (profiles : gmap string value) (name : string) (o : object) : Prop :=
  exists entry, profiles !! name = Some entry /\ entry_object entry o.
Lemma apply_profiles_Ok profiles names : map_Forall (fun _ => wf_value) profiles -> forall current r,
  normal (VMap current) ->
  apply_profiles profiles names current = Ok r <->
  exists objs, Forall2 (profile_object profiles) names objs /\ r = foldl mergeObjectWithDefaults current objs.
Proof.
  intros Hw. induction names as [|name names IH]; intros current r Hc; cbn [apply_profiles].
  - split; [intros [= <-]; by exists []|]. intros (objs & Hn & ->). by inversion Hn.
  - destruct (profiles !! name) as [entry|] eqn:Ee.
    2:{ split; [done|]. intros (objs & Hn & _). inversion Hn as [|? ? ? ? (e & He & _)]; subst. congruence. }
    split.
    + intros (x & Hx & Hr)%bind_Ok.
      assert (entry_object entry (default ∅ x)) as Ho by (eapply entry_object_spec; eauto).
      assert (Hn := entry_object_normal _ _ (Hw _ _ Ee) Ho). rewrite MergeWithDefaults_objects in Hr by done.
      cbn [mbind result_bind as_object default] in Hr. apply IH in Hr as (objs & H2 & ->); [|by apply merge_normal].
      exists (default ∅ x :: objs). split; [|done]. constructor; [by exists entry|done].
    + intros (objs & Hn & ->). inversion Hn as [|? o ? objs' (e & He & Ho) Hrest]; subst. simplify_eq.
      assert (Hno := entry_object_normal _ _ (Hw _ _ Ee) Ho).
      apply (entry_object_spec _ ("resource.defaults.profiles." +:+ name)) in Ho as (x & Hx & ->).
      rewrite Hx. cbn [mbind result_bind]. rewrite MergeWithDefaults_objects by done. cbn [mbind result_bind as_object default].
      apply IH; [by apply merge_normal|]. by exists objs'.
Qed.

(** The effective defaults are the entries of the document layered in order: they
    exist exactly when the value and every profile in use, all of which must be defined,
    stand for objects, and are then the value overridden by each of those profiles in
    turn, the last one winning. *)
Theorem effective_defaults_layered spec r :
  wf_value (DefaultsValue spec) -> map_Forall (fun _ => wf_value) (default ∅ (Profiles spec)) ->
  ResolveEffectiveDefaults (Some spec) = Ok r <->
  exists base objs, entry_object (DefaultsValue spec) base
    /\ Forall2 (profile_object (default ∅ (Profiles spec))) (default [] (UseProfiles spec)) objs
    /\ r = VMap (foldl mergeObjectWithDefaults base objs).
Proof.
  intros Hv Hp. cbn [ResolveEffectiveDefaults].
  assert (forall names objs, Forall2 (profile_object (default ∅ (Profiles spec))) names objs ->
    Forall (fun o => normal (VMap o)) objs) as Hnormal.
  { intros names objs. induction 1 as [|n o ns os (e & He & Ho) _ IH]; constructor; [|done].
    eapply entry_object_normal; [|exact Ho]. by eapply Hp. }
  split.
  - intros (x & Hx & Hr)%bind_Ok. apply bind_Ok in Hr as (c & Hc & Hr).
    assert (entry_object (DefaultsValue spec) (default ∅ x)) as Ho by (eapply entry_object_spec; eauto).
    assert (Hn := entry_object_normal _ _ Hv Ho).
    apply apply_profiles_Ok in Hc as (objs & H2 & ->); [|done..]. exists (default ∅ x), objs. split_and!; [done..|].
    rewrite Normalize_normal in Hr by (apply foldl_merge_normal; [done|by eapply Hnormal]). by injection Hr as <-.
  - intros (base & objs & Hb & H2 & ->). assert (Hn := entry_object_normal _ _ Hv Hb).
    apply (entry_object_spec _ "resource.defaults.value") in Hb as (x & Hx & ->). rewrite Hx. cbn [mbind result_bind].
    rewrite (proj2 (apply_profiles_Ok _ _ Hp _ _ Hn)) by by exists objs. cbn [mbind result_bind].
    rewrite Normalize_normal by (apply foldl_merge_normal; [done|by eapply Hnormal]). done.
Qed.
End effective.

Definition defaults_sample : DefaultsSpec :=
  {| Mode := ""; UseProfiles := Some ["prod"]; DefaultsValue := VMap {[ "debug" := VBool true; "size" := VInt64 1 ]};
     Profiles := Some {[ "prod" := VMap {[ "debug" := VBool false ]} ]} |}.
Lemma effective_defaults_layered_witness (T : UnicodeTables := latin1_tables) :
  ResolveEffectiveDefaults (Some defaults_sample) = Ok (VMap {[ "debug" := VBool false; "size" := VInt64 1 ]}).
Proof.
  apply (effective_defaults_layered defaults_sample).
  - apply normal_wf, normalb_normal. vm_compute. reflexivity.
  - intros k v Hv. cbn in Hv. apply lookup_singleton_Some in Hv as [_ <-].
    apply normal_wf, normalb_normal. vm_compute. reflexivity.
  - exists {[ "debug" := VBool true; "size" := VInt64 1 ]}, [ {[ "debug" := VBool false ]} ].
    split; [right; split; [discriminate|vm_compute; reflexivity]|]. split; [|vm_compute; reflexivity].
    constructor; [|constructor]. exists (VMap {[ "debug" := VBool false ]}). split; [vm_compute; reflexivity|].
    right. split; [discriminate|vm_compute; reflexivity].
Defined.
