(* ===== verification/Metadata.v ===== *)
(** * Resource metadata

    Models [src/metadata/types.go], [resource_metadata_helpers.go], [clone_helpers.go],
    [payload_mutation.go] and [externalized_attributes.go]: the metadata documents that
    describe a resource, the merging of a document over another, and the attributes kept
    in files of their own. A slice or map that may be nil is an [option]; clones are the
    values themselves. *)
From S2P Require Import Prelude GoText GoTextFacts Faults Value Pointer Paths DefaultsSpec.

(** ** Documents *)
Inductive Operation :=
| OperationGet | OperationCreate | OperationUpdate | OperationDelete | OperationList | OperationCompare
| OperationOther (name : string).
Definition operation_of (name : string) : Operation :=
  if name == "get" then OperationGet else if name == "create" then OperationCreate
  else if name == "update" then OperationUpdate else if name == "delete" then OperationDelete
  else if name == "list" then OperationList else if name == "compare" then OperationCompare
  else OperationOther name.
#[export] Instance Operation_eq_dec : EqDecision Operation.
Proof. solve_decision. Defined.
Definition IsValid (o : Operation) : bool := match o with OperationOther _ => false | _ => true end.

Record SelectorSpec := { Descendants : option bool }.
Definition AllowsDescendants (s : option SelectorSpec) : bool :=
  match s with Some s => default false (Descendants s) | None => false end.

Record TransformStep := {
  SelectAttributes : option (list string);
  ExcludeAttributes : option (list string);
  JQExpression : string;
}.
Record ValidationAssertion := { a_Message : string; a_JQ : string }.
Record OperationValidationSpec := {
  v_RequiredAttributes : option (list string);
  Assertions : option (list ValidationAssertion);
  SchemaRef : string;
}.
Record OperationSpec := {
  Method : string;
  op_Path : string;
  Query : option (gmap string string);
  Headers : option (gmap string string);
  Accept : string;
  ContentType : string;
  Body : value;
  op_Transforms : option (list TransformStep);
  Validate : option OperationValidationSpec;
}.
Record ExternalizedAttribute := {
  x_Path : string; File : string; x_Template : string; x_Mode : string;
  SaveBehavior : string; RenderBehavior : string; Enabled : option bool;
}.
Record ResolvedExternalizedAttribute := {
  r_Path : string; r_File : string; r_Template : string; r_Mode : string;
  r_SaveBehavior : string; r_RenderBehavior : string; r_Enabled : bool;
}.
Record ResourceMetadata := {
  Selector : option SelectorSpec;
  ID : string;
  Alias : string;
  RequiredAttributes : option (list string);
  RemoteCollectionPath : string;
  Format : string;
  Defaults : option DefaultsSpec;
  Secret : option bool;
  SecretAttributes : option (list string);
  ExternalizedAttributes : option (list ExternalizedAttribute);
  Operations : option (gmap string OperationSpec);
  Transforms : option (list TransformStep);
}.
Definition IsWholeResourceSecret (m : ResourceMetadata) : bool := default false (Secret m).

Definition empty_operation : OperationSpec :=
  {| Method := ""; op_Path := ""; Query := None; Headers := None; Accept := ""; ContentType := "";
     Body := VNil; op_Transforms := None; Validate := None |}.
Definition empty_metadata : ResourceMetadata :=
  {| Selector := None; ID := ""; Alias := ""; RequiredAttributes := None; RemoteCollectionPath := ""; Format := "";
     Defaults := None; Secret := None; SecretAttributes := None; ExternalizedAttributes := None;
     Operations := None; Transforms := None |}.

(** ** Clones *)
Definition cloneBoolPointer (v : option bool) : option bool := match v with None => None | Some b => Some b end.
Definition cloneStringSliceOrEmpty (values : option (list string)) : list string :=
  match cloneStringSlice values with None | Some [] => [] | Some l => l end.
Definition CloneTransformSteps (values : option (list TransformStep)) : option (list TransformStep) :=
  match values with
  | None => None
  | Some l => Some (map (fun v => {| SelectAttributes := cloneStringSlice (SelectAttributes v);
                                     ExcludeAttributes := cloneStringSlice (ExcludeAttributes v);
                                     JQExpression := JQExpression v |}) l)
  end.
Definition CloneSelectorSpec (v : option SelectorSpec) : option SelectorSpec :=
  match v with None => None | Some v => Some {| Descendants := cloneBoolPointer (Descendants v) |} end.
Definition cloneExternalizedAttributes (values : option (list ExternalizedAttribute)) : option (list ExternalizedAttribute) :=
  match values with
  | None => None
  | Some l => Some (map (fun v => {| x_Path := x_Path v; File := File v; x_Template := x_Template v; x_Mode := x_Mode v;
      SaveBehavior := SaveBehavior v; RenderBehavior := RenderBehavior v; Enabled := cloneBoolPointer (Enabled v) |}) l)
  end.
Definition cloneValidationAssertions (values : option (list ValidationAssertion)) : option (list ValidationAssertion) :=
  match values with None => None | Some l => Some l end.
Definition cloneOperationValidationSpec (v : option OperationValidationSpec) : option OperationValidationSpec :=
  match v with
  | None => None
  | Some v => Some {| v_RequiredAttributes := cloneStringSlice (v_RequiredAttributes v);
                      Assertions := cloneValidationAssertions (Assertions v); SchemaRef := SchemaRef v |}
  end.
Definition clone_operation (v : OperationSpec) : OperationSpec :=
  {| Method := Method v; op_Path := op_Path v; Query := Query v; Headers := Headers v; Accept := Accept v;
     ContentType := ContentType v; Body := DeepCopyValue (Body v); op_Transforms := CloneTransformSteps (op_Transforms v);
     Validate := cloneOperationValidationSpec (Validate v) |}.
Definition cloneOperationMap (values : option (gmap string OperationSpec)) : option (gmap string OperationSpec) :=
  match values with None => None | Some m => Some (clone_operation <$> m) end.
Definition CloneResourceMetadata (v : ResourceMetadata) : ResourceMetadata :=
  {| Selector := CloneSelectorSpec (Selector v); ID := ID v; Alias := Alias v;
     RequiredAttributes := cloneStringSlice (RequiredAttributes v); RemoteCollectionPath := RemoteCollectionPath v;
     Format := Format v; Defaults := CloneDefaultsSpec (Defaults v); Secret := cloneBoolPointer (Secret v);
     SecretAttributes := cloneStringSlice (SecretAttributes v);
     ExternalizedAttributes := cloneExternalizedAttributes (ExternalizedAttributes v);
     Operations := Some (clone_operation <$> default ∅ (Operations v));
     Transforms := CloneTransformSteps (Transforms v) |}.

Definition HasResourceMetadataDirectives (v : ResourceMetadata) : bool :=
  negb (trim_space (ID v) == "") || negb (trim_space (Alias v) == "") || bool_decide (is_Some (RequiredAttributes v))
  || negb (trim_space (RemoteCollectionPath v) == "") || negb (trim_space (Format v) == "")
  || HasDefaultsSpecDirectives (Defaults v) || bool_decide (is_Some (Secret v)) || bool_decide (is_Some (SecretAttributes v))
  || bool_decide (is_Some (ExternalizedAttributes v)) || bool_decide (is_Some (Operations v)) || bool_decide (is_Some (Transforms v)).

(** ** Merging *)
Definition merge_text (base overlay : string) : string := if overlay == "" then base else overlay.
Definition merge_opt {A} (base overlay : option A) : option A := match overlay with None => base | Some v => Some v end.
(** An empty map in the overlay clears the map; another adds its entries. *)
Definition merge_entries (base overlay : option (gmap string string)) : option (gmap string string) :=
  match overlay with
  | None => base
  | Some o => if o == ∅ then Some ∅ else Some (o ∪ default ∅ base)
  end.
Definition mergeOperationValidationSpec (base overlay : option OperationValidationSpec) : option OperationValidationSpec :=
  match base, overlay with
  | None, None => None
  | _, None => cloneOperationValidationSpec base
  | _, Some o =>
      let merged := default {| v_RequiredAttributes := None; Assertions := None; SchemaRef := "" |}
                            (cloneOperationValidationSpec base) in
      Some {| v_RequiredAttributes := merge_opt (v_RequiredAttributes merged) (cloneStringSlice (v_RequiredAttributes o));
              Assertions := merge_opt (Assertions merged) (cloneValidationAssertions (Assertions o));
              SchemaRef := merge_text (SchemaRef merged) (SchemaRef o) |}
  end.
Definition MergeOperationSpec (base overlay : OperationSpec) : OperationSpec :=
  let merged := clone_operation base in
  {| Method := merge_text (Method merged) (Method overlay);
     op_Path := merge_text (op_Path merged) (op_Path overlay);
     Query := merge_entries (Query merged) (Query overlay);
     Headers := merge_entries (Headers merged) (Headers overlay);
     Accept := merge_text (Accept merged) (Accept overlay);
     ContentType := merge_text (ContentType merged) (ContentType overlay);
     Body := if is_nil (Body overlay) then Body merged else Body overlay;
     op_Transforms := merge_opt (op_Transforms merged) (CloneTransformSteps (op_Transforms overlay));
     Validate := mergeOperationValidationSpec (Validate merged) (Validate overlay) |}.
(** The operation of the overlay is merged with that of the base, the zero one when
    there is none. *)
Definition merge_operation (base overlay : option OperationSpec) : option OperationSpec :=
  match base, overlay with
  | _, Some o => Some (MergeOperationSpec (default empty_operation base) o)
  | b, None => b
  end.

Section merging.
Context `{UnicodeTables}.

Definition MergeResourceMetadata (base overlay : ResourceMetadata) : ResourceMetadata :=
  {| Selector := None;
     ID := merge_text (ID base) (ID overlay);
     Alias := merge_text (Alias base) (Alias overlay);
     RequiredAttributes := merge_opt (cloneStringSlice (RequiredAttributes base)) (cloneStringSlice (RequiredAttributes overlay));
     RemoteCollectionPath := merge_text (RemoteCollectionPath base) (RemoteCollectionPath overlay);
     Format := merge_text (Format base) (Format overlay);
     Defaults := MergeDefaultsSpec (CloneDefaultsSpec (Defaults base)) (Defaults overlay);
     Secret := merge_opt (cloneBoolPointer (Secret base)) (cloneBoolPointer (Secret overlay));
     SecretAttributes := merge_opt (cloneStringSlice (SecretAttributes base)) (cloneStringSlice (SecretAttributes overlay));
     ExternalizedAttributes := merge_opt (cloneExternalizedAttributes (ExternalizedAttributes base))
                                         (cloneExternalizedAttributes (ExternalizedAttributes overlay));
     Operations := match Operations overlay with
                   | None => cloneOperationMap (Operations base)
                   | Some o => Some (merge merge_operation (default ∅ (cloneOperationMap (Operations base))) o)
                   end;
     Transforms := merge_opt (CloneTransformSteps (Transforms base)) (CloneTransformSteps (Transforms overlay)) |}.
End merging.

(** ** Transforms *)
Definition transformSelect := "selectAttributes".
Definition transformExclude := "excludeAttributes".
Definition transformJQ := "jqExpression".
Definition transformStepType (step : TransformStep) : string :=
  let kinds := (if bool_decide (is_Some (SelectAttributes step)) then [transformSelect] else [])
            ++ (if bool_decide (is_Some (ExcludeAttributes step)) then [transformExclude] else [])
            ++ (if trim_space (JQExpression step) == "" then [] else [transformJQ]) in
  match kinds with [kind] => kind | _ => "" end.
Definition combineTransformSteps (defaults operation : option (list TransformStep)) : option (list TransformStep) :=
  match defaults, operation with
  | None, None => None
  | _, _ => Some (default [] (CloneTransformSteps defaults) ++ default [] (CloneTransformSteps operation))
  end.
Definition OrderedTransformSteps (spec : OperationSpec) : option (list TransformStep) := CloneTransformSteps (op_Transforms spec).
Definition HasTransformJQ (values : list TransformStep) : bool := existsb (fun v => transformStepType v == transformJQ) values.

(** ** Externalized attributes *)
Definition DefaultExternalizedAttributeTemplate := "{{include %s}}".
Definition ExternalizedAttributeModeText := "text".
Definition ExternalizedAttributeSaveBehaviorExternalize := "externalize".
Definition ExternalizedAttributeRenderBehaviorInclude := "include".

Section externalized.
Context `{UnicodeTables}.

Definition attribute_error (idx : Z) (rest : string) (cause : option error) : error :=
  Invalid ("resource.externalizedAttributes[" +:+ itoa idx +:+ "]." +:+ rest) cause.
Definition normalizeExternalizedAttributePath (v : string) (idx : Z) : result error string :=
  let trimmed := trim_space v in
  if trimmed == "" then Err (attribute_error idx "path must not be empty" None)
  else
    tokens ← map_err (fun err => attribute_error idx "path must be a valid JSON pointer" (Some err)) (ParseJSONPointer trimmed);
    Ok (JSONPointerFromTokens tokens).
Definition normalizeExternalizedAttributeFile (v : string) (idx : Z) : result error string :=
  let trimmed := trim_space v in
  if trimmed == "" then Err (attribute_error idx "file must not be empty" None)
  else if has_prefix trimmed "/" then Err (attribute_error idx "file must stay within the resource directory" None)
  else
    let cleaned := path_clean trimmed in
    if (cleaned == ".") || (cleaned == "") then Err (attribute_error idx "file must not be empty" None)
    else if existsb (fun segment => segment == "..") (split_on slash cleaned) then
      Err (attribute_error idx "file must stay within the resource directory" None)
    else Ok cleaned.
(** An option of the attribute: blank is the only supported value. *)
Definition only_value (idx : Z) (name : string) (v supported : string) : result error string :=
  let trimmed := trim_space v in
  let trimmed := if trimmed == "" then supported else trimmed in
  if trimmed == supported then Ok trimmed
  else Err (attribute_error idx (name +:+ " " +:+ quote v +:+ " is not supported") None).
Definition resolveExternalizedAttribute (item : ExternalizedAttribute) (idx : Z) : result error ResolvedExternalizedAttribute :=
  pathValue ← normalizeExternalizedAttributePath (x_Path item) idx;
  fileValue ← normalizeExternalizedAttributeFile (File item) idx;
  let templateValue := trim_space (x_Template item) in
  let templateValue := if templateValue == "" then DefaultExternalizedAttributeTemplate else templateValue in
  modeValue ← only_value idx "mode" (x_Mode item) ExternalizedAttributeModeText;
  saveBehaviorValue ← only_value idx "saveBehavior" (SaveBehavior item) ExternalizedAttributeSaveBehaviorExternalize;
  renderBehaviorValue ← only_value idx "renderBehavior" (RenderBehavior item) ExternalizedAttributeRenderBehaviorInclude;
  Ok {| r_Path := pathValue; r_File := fileValue; r_Template := templateValue; r_Mode := modeValue;
        r_SaveBehavior := saveBehaviorValue; r_RenderBehavior := renderBehaviorValue; r_Enabled := true |}.

(** The loop, with the indexes of the paths and files seen. *)
Fixpoint resolve_attributes (idx : Z) (paths files : gmap string Z) (items : list ExternalizedAttribute)
    : result error (list ResolvedExternalizedAttribute) :=
  match items with
  | [] => Ok []
  | item :: items =>
      if match Enabled item with Some false => true | _ => false end then resolve_attributes (idx + 1) paths files items
      else
        entry ← resolveExternalizedAttribute item idx;
        match paths !! r_Path entry with
        | Some previous => Err (attribute_error idx ("path duplicates resource.externalizedAttributes[" +:+ itoa previous +:+ "].path") None)
        | None =>
            match files !! r_File entry with
            | Some previous => Err (attribute_error idx ("file duplicates resource.externalizedAttributes[" +:+ itoa previous +:+ "].file") None)
            | None =>
                rest ← resolve_attributes (idx + 1) (<[r_Path entry := idx]> paths) (<[r_File entry := idx]> files) items;
                Ok (entry :: rest)
            end
        end
  end.
Definition ResolveExternalizedAttributes (metadata : ResourceMetadata) : result error (list ResolvedExternalizedAttribute) :=
  match ExternalizedAttributes metadata with
  | None => Ok []
  | Some items => resolve_attributes 0 ∅ ∅ items
  end.
End externalized.

#[local] Arguments merge_text : simpl never.
#[local] Arguments merge_opt : simpl never.
#[local] Arguments merge_entries : simpl never.
#[local] Arguments mergeOperationValidationSpec : simpl never.
#[local] Arguments MergeOperationSpec : simpl never.

(** ** Clones are copies *)
Lemma merge_opt_clone {A} (b o : option A) : merge_opt b o = match o with None => b | Some v => Some v end.
Proof. done. Qed.
Lemma cloneStringSlice_id v : cloneStringSlice v = v.
Proof. by destruct v. Qed.
Lemma cloneBoolPointer_id v : cloneBoolPointer v = v.
Proof. by destruct v. Qed.
Lemma CloneTransformSteps_id v : CloneTransformSteps v = v.
Proof.
  destruct v as [l|]; [|done]. cbn. f_equal. rewrite <-(list_fmap_id l) at 2. apply list_fmap_ext.
  intros ? [] _. cbn. by rewrite !cloneStringSlice_id.
Qed.
Lemma cloneExternalizedAttributes_id v : cloneExternalizedAttributes v = v.
Proof.
  destruct v as [l|]; [|done]. cbn. f_equal. rewrite <-(list_fmap_id l) at 2. apply list_fmap_ext.
  intros ? [] _. cbn. by rewrite !cloneBoolPointer_id.
Qed.
Lemma cloneOperationValidationSpec_id v : cloneOperationValidationSpec v = v.
Proof. destruct v as [[r a s]|]; [|done]. cbn. rewrite cloneStringSlice_id. by destruct a. Qed.
Lemma clone_operation_id v : clone_operation v = v.
Proof.
  destruct v. unfold clone_operation. cbn.
  by rewrite DeepCopyValue_id, CloneTransformSteps_id, cloneOperationValidationSpec_id.
Qed.
Lemma cloneOperationMap_id v : cloneOperationMap v = v.
Proof.
  destruct v as [m|]; [|done]. cbn. f_equal. rewrite <-(map_fmap_id m) at 2. apply map_fmap_ext.
  intros. apply clone_operation_id.
Qed.
#[export] Hint Rewrite cloneStringSlice_id cloneBoolPointer_id CloneTransformSteps_id cloneExternalizedAttributes_id
  cloneOperationValidationSpec_id clone_operation_id cloneOperationMap_id CloneDefaultsSpec_id DeepCopyValue_id : clones.

(** ** Regrouping of layers *)
Lemma merge_text_assoc a b c : merge_text (merge_text a b) c = merge_text a (merge_text b c).
Proof. unfold merge_text. by repeat case_bool_decide. Qed.
Lemma merge_opt_assoc {A} (a b c : option A) : merge_opt (merge_opt a b) c = merge_opt a (merge_opt b c).
Proof. by destruct c. Qed.
(** An explicitly empty map, which clears the entries below it. *)
Definition clears (m : option (gmap string string)) : bool := m == Some ∅.
Lemma merge_entries_assoc a b c : clears b = false ->
  merge_entries (merge_entries a b) c = merge_entries a (merge_entries b c).
Proof.
  unfold clears, merge_entries. intros Hb%bool_decide_eq_false. destruct c as [c|]; [|done].
  destruct (decide (c = ∅)) as [->|Hc]; [by eqb|]. rewrite (bool_decide_false (c = ∅)) by done.
  destruct b as [b|]; cbn [default]; [|by rewrite map_union_empty, bool_decide_false].
  rewrite (bool_decide_false (b = ∅)) by (intros ->; done). cbn [default].
  rewrite bool_decide_false by (intros ?%map_positive_l; done). unfold id. by rewrite (assoc_L (∪)).
Qed.
Lemma merge_text_nil a : merge_text "" a = a.
Proof. unfold merge_text. by case_bool_decide. Qed.
Lemma merge_opt_nil {A} (a : option A) : merge_opt None a = a.
Proof. by destruct a. Qed.
Lemma merge_validation_eq b o : mergeOperationValidationSpec b o =
  match b, o with
  | _, None => b
  | None, Some o => Some o
  | Some b, Some o =>
      Some {| v_RequiredAttributes := merge_opt (v_RequiredAttributes b) (v_RequiredAttributes o);
              Assertions := merge_opt (Assertions b) (Assertions o); SchemaRef := merge_text (SchemaRef b) (SchemaRef o) |}
  end.
Proof.
  assert (forall x, cloneValidationAssertions x = x) as Ha by by intros [].
  unfold mergeOperationValidationSpec. destruct b as [b|], o as [[r a s]|]; cbn; rewrite ?cloneOperationValidationSpec_id, ?cloneStringSlice_id, ?Ha; try done.
  1: by destruct b. by rewrite merge_text_nil.
Qed.
Lemma merge_validation_assoc a b c : mergeOperationValidationSpec (mergeOperationValidationSpec a b) c
  = mergeOperationValidationSpec a (mergeOperationValidationSpec b c).
Proof.
  rewrite !merge_validation_eq. destruct a, b, c; try done. cbn. by rewrite !merge_opt_assoc, merge_text_assoc.
Qed.

Definition clears_nothing (o : OperationSpec) : Prop := clears (Query o) = false /\ clears (Headers o) = false.
Lemma merge_operation_assoc a b c : clears_nothing b ->
  MergeOperationSpec (MergeOperationSpec a b) c = MergeOperationSpec a (MergeOperationSpec b c).
Proof.
  intros [Hq Hh]. unfold MergeOperationSpec. cbv zeta. autorewrite with clones. cbn.
  rewrite !merge_text_assoc, !merge_entries_assoc, merge_validation_assoc by done. autorewrite with clones.
  f_equal; [|by destruct (op_Transforms c)]. destruct (Body c), (Body b); done.
Qed.
Lemma merge_empty_operation o : MergeOperationSpec empty_operation o = o.
Proof.
  destruct o as [m p q h a c b t v]. unfold MergeOperationSpec, empty_operation. cbn.
  rewrite !merge_text_nil, merge_validation_eq. autorewrite with clones.
  assert (forall x, merge_entries None x = x) as Hm.
  { intros [x|]; [|done]. unfold merge_entries. cbn. rewrite map_union_empty. by case_bool_decide; subst. }
  rewrite !Hm. f_equal; [by destruct b|by destruct t|by destruct v].
Qed.

Section layers.
Context `{UnicodeTables}.

Definition layer_ok (m : ResourceMetadata) : Prop :=
  Defaults m = None /\ map_Forall (fun _ => clears_nothing) (default ∅ (Operations m)).
Lemma merge_metadata_assoc a b c : Defaults a = None -> layer_ok b -> Defaults c = None ->
  MergeResourceMetadata (MergeResourceMetadata a b) c = MergeResourceMetadata a (MergeResourceMetadata b c).
Proof.
  intros Ha [Hb Ho] Hc. unfold MergeResourceMetadata. cbn. rewrite Ha, Hb, Hc. cbn.
  autorewrite with clones. rewrite !merge_text_assoc, !merge_opt_assoc. f_equal.
  destruct (Operations c) as [oc|]; autorewrite with clones; [|done].
  destruct (Operations b) as [ob|]; autorewrite with clones; set (oa := default ∅ (Operations a)); clearbody oa; cbn [default from_option] in *; unfold id; f_equal;
    apply map_eq; intros k; rewrite ?lookup_merge.
  - specialize (Ho k). unfold id in Ho.
    destruct (oa !! k) as [x|], (ob !! k) as [y|], (oc !! k) as [z|]; cbn; unfold id; try done.
    + rewrite merge_operation_assoc by by apply Ho. done.
    + by rewrite !merge_empty_operation.
    + by rewrite !merge_empty_operation.
    + by rewrite !merge_empty_operation.
  - destruct (oa !! k) as [x|], (oc !! k) as [z|]; rewrite ?lookup_empty; cbn; rewrite ?lookup_empty; cbn; unfold id; try done.
    all: by rewrite !merge_empty_operation.
Qed.
End layers.

(** Cloning a document without operations gives it an empty map of them, which counts
    as a directive. *)
Lemma clone_gains_directives :
  HasResourceMetadataDirectives empty_metadata = false
  /\ HasResourceMetadataDirectives (CloneResourceMetadata empty_metadata) = true.
Proof. split; reflexivity. Qed.
(** An overlay that clears the entries of the base is lost when it is merged with what
    comes after it first. *)
Lemma cleared_entries_return a b :
  a <> ∅ -> b <> ∅ ->
  merge_entries (merge_entries (Some a) (Some ∅)) (Some b) = Some b
  /\ merge_entries (Some a) (merge_entries (Some ∅) (Some b)) = Some (b ∪ a).
Proof.
  intros Ha Hb. unfold merge_entries. eqb. cbn [default from_option]. unfold id. rewrite !map_union_empty.
  by rewrite !(bool_decide_false (b = ∅)) by done.
Qed.

Section regroup.
Context `{UnicodeTables}.

Definition resolve_layers (docs : list ResourceMetadata) : ResourceMetadata := foldl MergeResourceMetadata empty_metadata docs.

Lemma merge_empty_metadata m : Defaults m = None -> Selector m = None -> MergeResourceMetadata m empty_metadata = m.
Proof.
  destruct m as [s i al r c f d se sa x o t]. cbn. intros -> ->. unfold MergeResourceMetadata. cbn.
  autorewrite with clones. unfold merge_text, merge_opt. by eqb.
Qed.
Lemma merge_entries_clears a b : clears a = false -> clears b = false -> clears (merge_entries a b) = false.
Proof.
  unfold clears, merge_entries. rewrite !bool_decide_eq_false. intros Ha Hb. destruct b as [b|]; [|done].
  rewrite bool_decide_false by (intros ->; done). by intros [= ?%map_positive_l]; subst.
Qed.
Lemma layer_ok_merge a b : layer_ok a -> layer_ok b -> layer_ok (MergeResourceMetadata a b).
Proof.
  intros [Ha Hoa] [Hb Hob]. split; [unfold MergeResourceMetadata; cbn; by rewrite Ha, Hb|].
  unfold MergeResourceMetadata. cbn [Operations]. autorewrite with clones. destruct (Operations b) as [ob|]; [|done].
  set (oa := default ∅ (Operations a)) in *. clearbody oa. cbn [default from_option] in *. unfold id in *.
  intros k o. rewrite lookup_merge. specialize (Hoa k). specialize (Hob k).
  destruct (oa !! k) as [x|], (ob !! k) as [y|]; cbn; unfold id; intros [= <-]; try (by apply Hoa).
  - destruct (Hoa x eq_refl) as [Q1 H1], (Hob y eq_refl) as [Q2 H2].
    split; unfold MergeOperationSpec; cbn; by apply merge_entries_clears.
  - rewrite merge_empty_operation. by apply Hob.
Qed.
Lemma resolve_layers_ok docs : Forall layer_ok docs -> layer_ok (resolve_layers docs).
Proof.
  induction docs as [|d docs IH] using rev_ind; intros Hall; [done|].
  apply Forall_app in Hall as [Hd Hall]. rewrite Forall_singleton in Hall. unfold resolve_layers. rewrite foldl_snoc.
  apply layer_ok_merge; [by apply IH|done].
Qed.
Lemma resolve_layers_selector docs : Selector (resolve_layers docs) = None.
Proof. induction docs as [|d docs IH] using rev_ind; [done|]. unfold resolve_layers. by rewrite foldl_snoc. Qed.
Lemma resolve_layers_defaults docs : Forall (fun d => Defaults d = None) docs -> Defaults (resolve_layers docs) = None.
Proof.
  induction docs as [|d docs IH] using rev_ind; intros Hall; [done|]. apply Forall_app in Hall as [Hd Hall].
  rewrite Forall_singleton in Hall. unfold resolve_layers. rewrite foldl_snoc.
  change (MergeDefaultsSpec (CloneDefaultsSpec (Defaults (resolve_layers docs))) (Defaults d) = None). by rewrite IH, Hall.
Qed.

(** Layers can be resolved apart: merging the documents of a shared and of a local
    tree, each resolved on its own, gives what merging all the documents in order does,
    as long as no document has defaults and no local operation clears its query
    parameters or headers with an explicitly empty map. *)
Theorem layers_regroup shared_docs local_docs :
  Forall (fun d => Defaults d = None) shared_docs -> Forall layer_ok local_docs ->
  MergeResourceMetadata (resolve_layers shared_docs) (resolve_layers local_docs)
  = resolve_layers (shared_docs ++ local_docs).
Proof.
  intros Hs. induction local_docs as [|d docs IH] using rev_ind; intros Hall.
  - rewrite app_nil_r. apply merge_empty_metadata; [by apply resolve_layers_defaults|apply resolve_layers_selector].
  - apply Forall_app in Hall as [Hdocs Hd]. rewrite Forall_singleton in Hd.
    rewrite app_assoc. unfold resolve_layers at 2 3. rewrite !foldl_snoc.
    fold (resolve_layers docs) (resolve_layers (shared_docs ++ docs)). rewrite <-IH by done.
    rewrite merge_metadata_assoc; [done|by apply resolve_layers_defaults|by apply resolve_layers_ok|by destruct Hd].
Qed.
End regroup.

(** ** Externalized files *)
Definition cleaned_segment (s : string) : Prop := s <> "" /\ s <> "." /\ no_sep slash s.
Lemma clean_segments_cleaned rooted segs : forall out, Forall cleaned_segment out -> Forall (no_sep slash) segs ->
  Forall cleaned_segment (clean_segments rooted out segs).
Proof.
  assert (cleaned_segment "..") as Hdd by done.
  induction segs as [|s segs IH]; intros out Ho Hs; [done|]. apply Forall_cons in Hs as [Hn Hs]. cbn [clean_segments].
  destruct (_ || _) eqn:E; [by apply IH|]. apply orb_false_iff in E as [E1%bool_decide_eq_false E2%bool_decide_eq_false].
  case_bool_decide.
  - destruct out as [|t out]; [apply IH; [destruct rooted; [constructor|constructor; [done|constructor]]|done]|].
    apply Forall_cons in Ho as [Ht Ho]. case_bool_decide; apply IH; try done.
    constructor; [done|]. by constructor.
  - apply IH; [by constructor|done].
Qed.
Lemma kept_cleaned l : Forall cleaned_segment l -> kept l = l.
Proof.
  intros Hl. unfold kept. induction Hl as [|s l Hs Hl IH]; [done|].
  rewrite filter_cons_True; [by rewrite IH|]. by destruct Hs as (? & ? & _).
Qed.
Lemma path_clean_relative s : has_prefix s "/" = false ->
  path_clean s = "." \/ exists segs, segs <> [] /\ Forall cleaned_segment segs /\ path_clean s = str_join "/" segs.
Proof.
  intros Hp. unfold path_clean. rewrite Hp. set (segs := reverse _).
  destruct (decide (str_join "/" segs = "")) as [|Hne]; [by left|right]. exists segs. split_and!; [by intros ->| |done].
  apply Forall_reverse, clean_segments_cleaned; [done|apply split_on_no_sep].
Qed.

Section files.
Context `{UnicodeTables}.

(** The file of an attribute is a path below the directory of the resource. *)
Definition below (file : string) : Prop :=
  forall dir, Forall clean_segment dir ->
  exists segs, segs <> [] /\ Forall (fun s => s <> "..") segs /\ Forall cleaned_segment segs
    /\ path_join [path_of dir; file] = path_of (dir ++ segs).
Lemma normalize_file_below v idx f : normalizeExternalizedAttributeFile v idx = Ok f -> below f.
Proof.
  unfold normalizeExternalizedAttributeFile. case_bool_decide; [done|]. destruct (has_prefix _ _) eqn:Hp; [done|].
  cbv zeta. destruct (_ || _) eqn:E; [done|]. apply orb_false_iff in E as [E1%bool_decide_eq_false E2%bool_decide_eq_false].
  destruct (existsb _ _) eqn:Ed; [done|]. intros [= <-]. intros dir Hdir.
  destruct (path_clean_relative _ Hp) as [?|(segs & Hne & Hs & Hc)]; [done|]. rewrite Hc in Ed, E2 |- *.
  assert (Forall (no_sep slash) segs) as Hns by (eapply Forall_impl; [exact Hs|]; by intros s (_ & _ & ?)).
  change "/" with (String slash "") in Ed, E2 |- *. rewrite split_on_join in Ed by done.
  assert (Forall (fun s => s <> "..") segs) as Hdd.
  { apply Forall_forall. intros s Hin ->. apply not_true_iff_false in Ed. apply Ed. apply existsb_exists.
    exists "..". split; [by apply list_elem_of_In|by apply bool_decide_eq_true]. }
  exists segs. split_and!; [done..|]. rewrite path_join_path_of by done. rewrite split_on_join by done.
  rewrite clean_segments_kept by done. f_equal. rewrite reverse_app, !reverse_involutive. f_equal.
  by apply kept_cleaned.
Qed.

Lemma resolve_attributes_spec items : forall idx paths files rs, resolve_attributes idx paths files items = Ok rs ->
  NoDup (r_Path <$> rs) /\ NoDup (r_File <$> rs) /\ Forall (fun r => below (r_File r)) rs
  /\ Forall (fun r => paths !! r_Path r = None /\ files !! r_File r = None) rs.
Proof.
  induction items as [|item items IH]; intros idx paths files rs; cbn [resolve_attributes].
  { intros [= <-]. split_and!; constructor. }
  destruct (match Enabled item with Some false => true | _ => false end); [apply IH|].
  intros (entry & He & Hr)%bind_Ok. destruct (paths !! r_Path entry) eqn:Ep; [done|].
  destruct (files !! r_File entry) eqn:Ef; [done|]. apply bind_Ok in Hr as (rest & Hr & [= <-]).
  apply IH in Hr as (N1 & N2 & Hb & Hf). rewrite Forall_forall in Hf.
  assert (below (r_File entry)) as Hbe.
  { unfold resolveExternalizedAttribute in He. inv_result. eapply normalize_file_below; eassumption. }
  rewrite !fmap_cons. split_and!.
  - constructor; [|done]. intros (r & Er & Hin)%list_elem_of_fmap. destruct (Hf _ Hin) as [Hp _].
    rewrite Er, lookup_insert_eq in Hp. done.
  - constructor; [|done]. intros (r & Er & Hin)%list_elem_of_fmap. destruct (Hf _ Hin) as [_ Hp].
    rewrite Er, lookup_insert_eq in Hp. done.
  - by constructor.
  - constructor; [done|]. apply Forall_forall. intros r Hin. destruct (Hf _ Hin) as [Hp1 Hp2].
    apply lookup_insert_None in Hp1 as [? _], Hp2 as [? _]. done.
Qed.

(** [C35] The externalized attributes that are accepted have pointers of distinct texts and
    distinct files, and every file stays below the directory of its resource: joined to it, the
    path only gains segments. Two pointers of different texts can still lead to one attribute
    (see [pointers_share_attribute]). *)
Theorem externalized_files_confined metadata rs :
  ResolveExternalizedAttributes metadata = Ok rs ->
  NoDup (r_Path <$> rs) /\ NoDup (r_File <$> rs) /\ Forall (fun r => below (r_File r)) rs.
Proof.
  unfold ResolveExternalizedAttributes. destruct (ExternalizedAttributes metadata) as [items|].
  - intros (H1 & H2 & H3 & _)%resolve_attributes_spec. done.
  - intros [= <-]. split_and!; constructor.
Qed.
End files.

Definition script_attribute : ExternalizedAttribute :=
  {| x_Path := "/script"; File := " ./lib/../script.js"; x_Template := ""; x_Mode := ""; SaveBehavior := "";
     RenderBehavior := ""; Enabled := None |}.
Definition metadata_sample : ResourceMetadata :=
  {| Selector := None; ID := "/id"; Alias := ""; RequiredAttributes := None; RemoteCollectionPath := ""; Format := "";
     Defaults := None; Secret := None; SecretAttributes := None; ExternalizedAttributes := Some [script_attribute];
     Operations := Some {[ "get" := empty_operation ]}; Transforms := None |}.
Lemma externalized_files_confined_witness (T : UnicodeTables := latin1_tables) :
  exists r, ResolveExternalizedAttributes metadata_sample = Ok [r] /\ r_File r = "script.js" /\ below (r_File r).
Proof.
  destruct (ResolveExternalizedAttributes metadata_sample) as [rs|] eqn:E; [|vm_compute in E; discriminate].
  assert (P := externalized_files_confined metadata_sample rs E). destruct P as (_ & _ & Hb).
  vm_compute in E. injection E as <-. eexists. split; [reflexivity|]. split; [reflexivity|].
  apply Forall_cons in Hb as [Hb _]. exact Hb.
Defined.
(** An element, every element, and the element with a leading zero: three pointers to one
    attribute are accepted together. *)
Example pointers_share_attribute (T : UnicodeTables := latin1_tables) :
  let item p f := {| x_Path := p; File := f; x_Template := ""; x_Mode := ""; SaveBehavior := ""; RenderBehavior := ""; Enabled := None |} in
  let metadata := {| Selector := None; ID := ""; Alias := ""; RequiredAttributes := None; RemoteCollectionPath := ""; Format := "";
     Defaults := None; Secret := None; SecretAttributes := None;
     ExternalizedAttributes := Some [item "/items/0/s" "a.txt"; item "/items/*/s" "b.txt"; item "/items/00/s" "c.txt"]; Operations := None; Transforms := None |} in
  match ResolveExternalizedAttributes metadata with Ok rs => r_Path <$> rs | Err _ => [] end = ["/items/0/s"; "/items/*/s"; "/items/00/s"].
Proof. vm_compute. reflexivity. Qed.
Lemma layers_regroup_witness (T : UnicodeTables := latin1_tables) :
  MergeResourceMetadata (resolve_layers [metadata_sample]) (resolve_layers [metadata_sample; empty_metadata])
  = resolve_layers [metadata_sample; metadata_sample; empty_metadata].
Proof.
  apply (layers_regroup [metadata_sample] [metadata_sample; empty_metadata]).
  - apply Forall_cons. split; [reflexivity|constructor].
  - apply Forall_cons. split; [|apply Forall_cons; split; [|constructor]].
    + split; [reflexivity|]. intros k o Ho. cbn in Ho. apply lookup_singleton_Some in Ho as [_ <-]. split; reflexivity.
    + split; [reflexivity|]. intros k o Ho. cbn in Ho. by rewrite lookup_empty in Ho.
Defined.
