(* ===== verification/MetaWire.v ===== *)
(** * The stored shape of metadata documents

    Models [src/metadata/schema_serialization.go] and the helpers of [string_list_wire.go]
    and [clone_helpers.go] it uses: the nested wire types a JSON or YAML document is decoded
    into, and the two maps between them and [ResourceMetadata]. A pointer is an [option]; a
    [stringListWire] may itself be nil behind its pointer. Ranging over a header map has no
    order: the functions that do take the [order] of the keys, any permutation of them. *)
From S2P Require Import Prelude GoText GoTextFacts Faults Value DefaultsSpec Metadata.

(** ** Wire types *)
Record selectorWire := { sw_Descendants : option bool }.
Record defaultsSpecWire := {
  dw_Mode : string;
  dw_UseProfiles : option (list string);
  dw_Value : value;
  dw_Profiles : option (gmap string value);
}.
Record externalizedAttributeWire := {
  xw_Path : string; xw_File : string; xw_Template : string; xw_Mode : string;
  xw_SaveBehavior : string; xw_RenderBehavior : string; xw_Enabled : option bool;
}.
Record resourceWire := {
  rw_ID : string;
  rw_Alias : string;
  rw_RequiredAttributes : option (list string);
  rw_RemoteCollectionPath : string;
  rw_Format : string;
  rw_Defaults : option defaultsSpecWire;
  rw_Secret : option bool;
  rw_SecretAttributes : option (list string);
  rw_ExternalizedAttributes : option (list externalizedAttributeWire);
}.
Definition stringListWire := option (list string).
Record transformStepWire := {
  tw_SelectAttributes : option stringListWire;
  tw_ExcludeAttributes : option stringListWire;
  tw_JQExpression : option string;
}.
Record validationAssertionWire := { aw_Message : string; aw_JQ : string }.
Record operationValidationWire := {
  vw_RequiredAttributes : option stringListWire;
  vw_Assertions : option (list validationAssertionWire);
  vw_SchemaRef : string;
}.
Abbreviation headerMapWire := (gmap string string).
Record resourceOperationWire := {
  ow_Method : string;
  ow_Path : string;
  ow_Query : option (gmap string string);
  ow_Headers : option headerMapWire;
  ow_Body : value;
  ow_Transforms : option (list transformStepWire);
  ow_Validate : option operationValidationWire;
}.
Record operationDefaultsWire := { odw_Transforms : option (list transformStepWire) }.
Record operationsWire := {
  osw_Defaults : option operationDefaultsWire;
  Get : option resourceOperationWire;
  Create : option resourceOperationWire;
  Update : option resourceOperationWire;
  Delete : option resourceOperationWire;
  List : option resourceOperationWire;
  Compare : option resourceOperationWire;
}.
Record resourceMetadataWire := {
  mw_Selector : option selectorWire;
  mw_Resource : option resourceWire;
  mw_Operations : option operationsWire;
}.
Definition empty_operations : operationsWire :=
  {| osw_Defaults := None; Get := None; Create := None; Update := None; Delete := None; List := None; Compare := None |}.

(** ** Pointers to slices and maps *)
Definition stringPointer (v : string) : option string := Some v.
Definition stringValue (v : option string) : string := default "" v.
Definition stringSlicePointer (values : option (list string)) : option (list string) :=
  match values with None => None | Some l => Some l end.
Definition stringMapPointer (values : option (gmap string string)) : option (gmap string string) :=
  match values with None => None | Some m => Some m end.
Definition headerMapWirePointer (values : option (gmap string string)) : option headerMapWire :=
  match values with None => None | Some m => Some m end.
Definition cloneStringListWire (values : option stringListWire) : option (list string) :=
  match values with None => None | Some l => cloneStringSlice l end.
Definition stringListWirePointer (values : option (list string)) : option stringListWire :=
  match values with None => None | Some _ => Some (cloneStringSlice values) end.
Definition stringListWireNullPointer (values : option (list string)) : option stringListWire :=
  match values with None => Some None | Some _ => stringListWirePointer values end.

(** ** Headers *)
(** [strings.EqualFold(strings.TrimSpace(key), name)] for the two names of the code: no
    letter of theirs folds to anything but its two ASCII cases. *)
Definition header_is (name key : string) : bool := ascii_lower (trim_space key) == ascii_lower name.
Definition setOrReplaceHeader (headers : option (gmap string string)) (name v : string) : option (gmap string string) :=
  if trim_space v == "" then headers
  else Some (<[name := v]> (filter (fun '(key, _) => header_is name key = false) (default ∅ headers))).
Definition operationHeadersToWire (spec : OperationSpec) : option (gmap string string) :=
  let headers := Headers spec in
  let headers := setOrReplaceHeader headers "Accept" (Accept spec) in
  setOrReplaceHeader headers "Content-Type" (ContentType spec).
(** The order in which [range] visits the keys of a map. *)
Definition map_order := gmap string string -> list string.
Definition lookupHeaderCaseInsensitive (order : map_order) (headers : gmap string string) (name : string)
  : option (string * string) :=
  match list_find (fun key => header_is name key = true) (order headers) with
  | Some (_, key) => v ← headers !! key; Some (v, key)
  | None => None
  end.
(** One header moved to its own field. *)
Definition promote_header (order : map_order) (name : string) (target : string * gmap string string)
  : string * gmap string string :=
  match lookupHeaderCaseInsensitive order target.2 name with
  | Some (v, key) => (if trim_space target.1 == "" then v else target.1, delete key target.2)
  | None => target
  end.
Definition promoteMediaHeadersFromOperationHeaders (order : map_order) (target : OperationSpec)
  (preserveExplicitEmptyHeaders : bool) : OperationSpec :=
  match Headers target with
  | None => target
  | Some headers =>
      let '(accept, headers) := promote_header order "Accept" (Accept target, headers) in
      let '(contentType, headers) := promote_header order "Content-Type" (ContentType target, headers) in
      {| Method := Method target; op_Path := op_Path target; Query := Query target;
         Headers := if (headers == ∅) && negb preserveExplicitEmptyHeaders then None else Some headers;
         Accept := accept; ContentType := contentType; Body := Body target;
         op_Transforms := op_Transforms target; Validate := Validate target |}
  end.
(** A list of header maps is merged left to right. *)
Definition mergeHeaderMaps (values : option (list (gmap string string))) : option (gmap string string) :=
  match values with None => None | Some l => Some (foldl (fun merged item => item ∪ merged) ∅ l) end.

(** ** Parts of a document *)
Definition hasSelectorInfo (v : option SelectorSpec) : bool :=
  match v with None => false | Some v => bool_decide (is_Some (Descendants v)) end.
Definition selectorSpecToWire (v : option SelectorSpec) : option selectorWire :=
  if negb (hasSelectorInfo v) then None
  else match v with None => None | Some v => Some {| sw_Descendants := cloneBoolPointer (Descendants v) |} end.
Definition selectorSpecFromWire (v : option selectorWire) : option SelectorSpec :=
  match v with
  | None => None
  | Some v =>
      let decoded := Some {| Descendants := cloneBoolPointer (sw_Descendants v) |} in
      if negb (hasSelectorInfo decoded) then None else decoded
  end.
Definition hasResourceInfo (r : resourceWire) : bool :=
  negb (trim_space (rw_ID r) == "") || negb (trim_space (rw_Alias r) == "")
  || bool_decide (is_Some (rw_RequiredAttributes r)) || negb (trim_space (rw_RemoteCollectionPath r) == "")
  || negb (trim_space (rw_Format r) == "") || bool_decide (is_Some (rw_Defaults r)) || bool_decide (is_Some (rw_Secret r))
  || bool_decide (is_Some (rw_SecretAttributes r)) || bool_decide (is_Some (rw_ExternalizedAttributes r)).
Definition defaultsSpecToWire (v : option DefaultsSpec) : option defaultsSpecWire :=
  if negb (HasDefaultsSpecDirectives v) then None
  else
    match v with
    | None => None
    | Some v => Some {| dw_Mode := Mode v; dw_UseProfiles := stringSlicePointer (UseProfiles v);
                        dw_Value := cloneDefaultsEntry (DefaultsValue v);
                        dw_Profiles := match Profiles v with None => None | Some p => Some (cloneDefaultsEntry <$> p) end |}
    end.
Definition defaultsSpecFromWire (v : option defaultsSpecWire) : option DefaultsSpec :=
  match v with
  | None => None
  | Some v =>
      let decoded := Some {| Mode := dw_Mode v; UseProfiles := cloneStringSlice (dw_UseProfiles v);
                             DefaultsValue := cloneDefaultsEntry (dw_Value v);
                             Profiles := match dw_Profiles v with None => None | Some p => Some (cloneDefaultsEntry <$> p) end |} in
      if negb (HasDefaultsSpecDirectives decoded) then None else decoded
  end.
Definition externalizedAttributeWirePointer (values : option (list ExternalizedAttribute))
  : option (list externalizedAttributeWire) :=
  match values with
  | None => None
  | Some l => Some (map (fun v =>
      {| xw_Path := x_Path v; xw_File := File v; xw_Template := x_Template v; xw_Mode := x_Mode v;
         xw_SaveBehavior := SaveBehavior v; xw_RenderBehavior := RenderBehavior v; xw_Enabled := cloneBoolPointer (Enabled v) |}) l)
  end.
Definition externalizedAttributesFromWire (values : list externalizedAttributeWire) : list ExternalizedAttribute :=
  map (fun v =>
      {| x_Path := xw_Path v; File := xw_File v; x_Template := xw_Template v; x_Mode := xw_Mode v;
         SaveBehavior := xw_SaveBehavior v; RenderBehavior := xw_RenderBehavior v; Enabled := cloneBoolPointer (xw_Enabled v) |}) values.
Definition transformStepToWire (v : TransformStep) : transformStepWire :=
  {| tw_SelectAttributes := stringListWireNullPointer (SelectAttributes v);
     tw_ExcludeAttributes := stringListWireNullPointer (ExcludeAttributes v);
     tw_JQExpression := stringPointer (JQExpression v) |}.
Definition transformStepFromWire (v : transformStepWire) : TransformStep :=
  {| SelectAttributes := cloneStringListWire (tw_SelectAttributes v);
     ExcludeAttributes := cloneStringListWire (tw_ExcludeAttributes v);
     JQExpression := stringValue (tw_JQExpression v) |}.
Definition transformStepsWirePointer (values : option (list TransformStep)) : option (list transformStepWire) :=
  match values with None => None | Some l => Some (map transformStepToWire l) end.
Definition transformStepsFromWire (values : list transformStepWire) : list TransformStep := map transformStepFromWire values.
Definition validationAssertionToWire (a : ValidationAssertion) : validationAssertionWire :=
  {| aw_Message := a_Message a; aw_JQ := a_JQ a |}.
Definition validationAssertionFromWire (a : validationAssertionWire) : ValidationAssertion :=
  {| a_Message := aw_Message a; a_JQ := aw_JQ a |}.
Definition operationValidationToWire (v : option OperationValidationSpec) : option operationValidationWire :=
  match v with
  | None => None
  | Some v => Some {| vw_RequiredAttributes := stringListWirePointer (v_RequiredAttributes v);
                      vw_Assertions := match Assertions v with None => None | Some l => Some (map validationAssertionToWire l) end;
                      vw_SchemaRef := SchemaRef v |}
  end.
Definition operationValidationFromWire (v : option operationValidationWire) : option OperationValidationSpec :=
  match v with
  | None => None
  | Some v =>
      let decoded := {| v_RequiredAttributes := cloneStringListWire (vw_RequiredAttributes v);
                        Assertions := match vw_Assertions v with None => None | Some l => Some (map validationAssertionFromWire l) end;
                        SchemaRef := vw_SchemaRef v |} in
      if negb (bool_decide (is_Some (v_RequiredAttributes decoded))) && negb (bool_decide (is_Some (Assertions decoded)))
         && (trim_space (SchemaRef decoded) == "")
      then None else Some decoded
  end.

(** ** Operations *)
Definition operationSpecToWire (spec : OperationSpec) : resourceOperationWire :=
  {| ow_Method := Method spec; ow_Path := op_Path spec; ow_Body := Body spec;
     ow_Validate := operationValidationToWire (Validate spec);
     ow_Query := stringMapPointer (Query spec);
     ow_Headers := match operationHeadersToWire spec with None => None | Some headers => headerMapWirePointer (Some headers) end;
     ow_Transforms := transformStepsWirePointer (op_Transforms spec) |}.
Definition operationSpecFromWire (order : map_order) (spec : resourceOperationWire) : OperationSpec :=
  let decoded := {| Method := ow_Method spec; op_Path := ow_Path spec; Query := ow_Query spec; Headers := ow_Headers spec;
                    Accept := ""; ContentType := ""; Body := ow_Body spec; op_Transforms := None; Validate := None |} in
  let preserveExplicitEmptyHeaders := ow_Headers spec == Some ∅ in
  let decoded := promoteMediaHeadersFromOperationHeaders order decoded preserveExplicitEmptyHeaders in
  {| Method := Method decoded; op_Path := op_Path decoded; Query := Query decoded; Headers := Headers decoded;
     Accept := Accept decoded; ContentType := ContentType decoded; Body := Body decoded;
     op_Transforms := match ow_Transforms spec with None => None | Some l => Some (transformStepsFromWire l) end;
     Validate := operationValidationFromWire (ow_Validate spec) |}.
Definition hasOperationsInfo (info : operationsWire) : bool :=
  bool_decide (is_Some (osw_Defaults info)) || bool_decide (is_Some (Get info)) || bool_decide (is_Some (Create info))
  || bool_decide (is_Some (Update info)) || bool_decide (is_Some (Delete info)) || bool_decide (is_Some (List info))
  || bool_decide (is_Some (Compare info)).
Definition operationsIsExplicitEmpty (info : option operationsWire) : bool :=
  match info with
  | None => false
  | Some info =>
      negb (bool_decide (is_Some (Get info)) || bool_decide (is_Some (Create info)) || bool_decide (is_Some (Update info))
            || bool_decide (is_Some (Delete info)) || bool_decide (is_Some (List info)) || bool_decide (is_Some (Compare info)))
  end.
(** [set(operation, spec)]. *)
Definition set_operation (order : map_order) (name : string) (spec : option resourceOperationWire)
  (m : gmap string OperationSpec) : gmap string OperationSpec :=
  match spec with None => m | Some spec => <[name := operationSpecFromWire order spec]> m end.
Definition operationsToMap (order : map_order) (info : option operationsWire) : option (gmap string OperationSpec) :=
  match info with
  | None => None
  | Some info =>
      let m := set_operation order "get" (Get info) ∅ in
      let m := set_operation order "create" (Create info) m in
      let m := set_operation order "update" (Update info) m in
      let m := set_operation order "delete" (Delete info) m in
      let m := set_operation order "list" (List info) m in
      let m := set_operation order "compare" (Compare info) m in
      if m == ∅ then None else Some m
  end.

(** ** Documents *)
Definition resource_to_wire (m : ResourceMetadata) : resourceWire :=
  {| rw_ID := ID m; rw_Alias := Alias m; rw_RemoteCollectionPath := RemoteCollectionPath m; rw_Format := Format m;
     rw_Defaults := defaultsSpecToWire (Defaults m); rw_Secret := cloneBoolPointer (Secret m);
     rw_RequiredAttributes := stringSlicePointer (RequiredAttributes m);
     rw_SecretAttributes := stringSlicePointer (SecretAttributes m);
     rw_ExternalizedAttributes := externalizedAttributeWirePointer (ExternalizedAttributes m) |}.
Definition operations_to_wire (m : ResourceMetadata) : operationsWire :=
  let spec name := match Operations m with None => None | Some ops => operationSpecToWire <$> (ops !! name) end in
  {| osw_Defaults := match Transforms m with
                     | None => None
                     | Some _ => Some {| odw_Transforms := transformStepsWirePointer (Transforms m) |}
                     end;
     Get := spec "get"; Create := spec "create"; Update := spec "update"; Delete := spec "delete";
     List := spec "list"; Compare := spec "compare" |}.
Definition resourceMetadataToWire (m : ResourceMetadata) : resourceMetadataWire :=
  let resource := resource_to_wire m in
  let operations := operations_to_wire m in
  {| mw_Selector := if hasSelectorInfo (Selector m) then selectorSpecToWire (Selector m) else None;
     mw_Resource := if hasResourceInfo resource then Some resource else None;
     mw_Operations := if bool_decide (is_Some (Operations m)) || hasOperationsInfo operations then Some operations else None |}.

Definition resource_from_wire (r : resourceWire) (m : ResourceMetadata) : ResourceMetadata :=
  let remoteCollectionPath := trim_space (rw_RemoteCollectionPath r) in
  {| Selector := Selector m;
     ID := if rw_ID r == "" then ID m else rw_ID r;
     Alias := if rw_Alias r == "" then Alias m else rw_Alias r;
     RequiredAttributes := match rw_RequiredAttributes r with None => RequiredAttributes m | Some l => cloneStringSlice (Some l) end;
     RemoteCollectionPath := if remoteCollectionPath == "" then RemoteCollectionPath m else remoteCollectionPath;
     Format := if rw_Format r == "" then Format m else rw_Format r;
     Defaults := match rw_Defaults r with None => Defaults m | Some d => defaultsSpecFromWire (Some d) end;
     Secret := match rw_Secret r with None => Secret m | Some b => cloneBoolPointer (Some b) end;
     SecretAttributes := match rw_SecretAttributes r with None => SecretAttributes m | Some l => cloneStringSlice (Some l) end;
     ExternalizedAttributes := match rw_ExternalizedAttributes r with
                               | None => ExternalizedAttributes m
                               | Some l => Some (externalizedAttributesFromWire l)
                               end;
     Operations := Operations m; Transforms := Transforms m |}.
Definition operations_from_wire (order : map_order) (info : operationsWire)
  : option (gmap string OperationSpec) * option (list TransformStep) :=
  let operations := match operationsToMap order (Some info) with None => None | Some m => Some (m ∪ ∅) end in
  let transforms := match osw_Defaults info with
                    | None => None
                    | Some defaults => match odw_Transforms defaults with None => None | Some l => Some (transformStepsFromWire l) end
                    end in
  let operations :=
    if negb (bool_decide (is_Some operations)) && negb (bool_decide (is_Some (osw_Defaults info)))
       && operationsIsExplicitEmpty (Some info)
    then Some ∅ else operations in
  (operations, transforms).
(** The error of the code is always nil. *)
Definition resourceMetadataFromWire (order : map_order) (wire : resourceMetadataWire) : ResourceMetadata :=
  let m := empty_metadata in
  let m := match mw_Resource wire with None => m | Some r => resource_from_wire r m end in
  let '(operations, transforms) :=
    match mw_Operations wire with None => (None, None) | Some info => operations_from_wire order info end in
  {| Selector := selectorSpecFromWire (mw_Selector wire); ID := ID m; Alias := Alias m;
     RequiredAttributes := RequiredAttributes m; RemoteCollectionPath := RemoteCollectionPath m; Format := Format m;
     Defaults := Defaults m; Secret := Secret m; SecretAttributes := SecretAttributes m;
     ExternalizedAttributes := ExternalizedAttributes m; Operations := operations; Transforms := transforms |}.
Definition EffectiveRemoteCollectionPath (md : ResourceMetadata) (fallback : string) : string :=
  let override := trim_space (RemoteCollectionPath md) in if negb (override == "") then override else fallback.

(** ** Documents that survive being stored *)
Definition settled_text (s : string) : Prop := s = "" \/ trim_space s <> "".
Definition free_of (name : string) (headers : gmap string string) : Prop :=
  map_Forall (fun key _ => header_is name key = false) headers.
Definition operation_storable (spec : OperationSpec) : Prop :=
  settled_text (Accept spec) /\ settled_text (ContentType spec) /\
  free_of "Accept" (default ∅ (Headers spec)) /\ free_of "Content-Type" (default ∅ (Headers spec)) /\
  (Headers spec = Some ∅ -> Accept spec = "" /\ ContentType spec = "") /\
  match Validate spec with
  | None => True
  | Some v => is_Some (v_RequiredAttributes v) \/ is_Some (Assertions v) \/ trim_space (SchemaRef v) <> ""
  end.
Definition operation_names : list string := ["get"; "create"; "update"; "delete"; "list"; "compare"].
Definition storable (m : ResourceMetadata) : Prop :=
  Selector m <> Some {| Descendants := None |} /\
  settled_text (ID m) /\ settled_text (Alias m) /\ settled_text (Format m) /\
  trim_space (RemoteCollectionPath m) = RemoteCollectionPath m /\
  (Defaults m = None \/ HasDefaultsSpecDirectives (Defaults m) = true) /\
  (Operations m = Some ∅ -> Transforms m = None) /\
  map_Forall (fun name spec => name ∈ operation_names /\ operation_storable spec) (default ∅ (Operations m)).
Definition order_ok (order : map_order) : Prop := forall m, order m ≡ₚ (map_to_list m).*1.

Section headers.
Context (order : map_order) (Horder : order_ok order).

Lemma elem_of_order m key : key ∈ order m <-> is_Some (m !! key).
Proof.
  rewrite (Horder m), list_elem_of_fmap. split.
  - intros ([k v] & -> & Hk%elem_of_map_to_list). by exists v.
  - intros [v Hv]. exists (key, v). split; [done|]. by apply elem_of_map_to_list.
Qed.
Lemma lookup_header_absent m name : free_of name m -> lookupHeaderCaseInsensitive order m name = None.
Proof.
  intros Hf. unfold lookupHeaderCaseInsensitive. destruct (list_find _ _) as [[i key]|] eqn:E; [|done].
  apply list_find_Some in E as (Hi & Hk & _). apply list_elem_of_lookup_2, elem_of_order in Hi as [v Hv].
  apply Hf in Hv. congruence.
Qed.
Lemma lookup_header_only m name v : free_of name m -> header_is name name = true ->
  lookupHeaderCaseInsensitive order (<[name := v]> m) name = Some (v, name).
Proof.
  intros Hf Hn. unfold lookupHeaderCaseInsensitive. destruct (list_find _ _) as [[i key]|] eqn:E.
  - apply list_find_Some in E as (Hi & Hk & _). apply list_elem_of_lookup_2, elem_of_order in Hi as [w Hw].
    apply lookup_insert_Some in Hw as [[<- <-]|[Hne Hw]].
    + cbn. by rewrite lookup_insert_eq.
    + apply Hf in Hw. congruence.
  - apply list_find_None in E. rewrite Forall_forall in E. specialize (E name). rewrite elem_of_order, lookup_insert_eq in E.
    by destruct E.
Qed.
Lemma promote_absent m name x : free_of name m -> promote_header order name (x, m) = (x, m).
Proof. intros Hf. unfold promote_header. cbn. by rewrite lookup_header_absent. Qed.
Lemma promote_only m name v : free_of name m -> header_is name name = true ->
  promote_header order name ("", <[name := v]> m) = (v, m).
Proof.
  intros Hf Hn. unfold promote_header. cbn -[lookupHeaderCaseInsensitive]. rewrite lookup_header_only by done. f_equal.
  apply delete_insert_id. destruct (m !! name) eqn:E; [|done]. apply Hf in E. congruence.
Qed.
End headers.

Lemma free_of_filter name m : free_of name m -> filter (fun '(key, _) => header_is name key = false) m = m.
Proof. intros Hf. apply map_filter_id. intros k v Hk. by apply (Hf k v). Qed.
Lemma free_of_insert name key v m : header_is name key = false -> free_of name m -> free_of name (<[key := v]> m).
Proof. intros Hk Hf. by apply map_Forall_insert_2. Qed.
Lemma set_header_free headers name v : free_of name (default ∅ headers) -> settled_text v ->
  setOrReplaceHeader headers name v = if v == "" then headers else Some (<[name := v]> (default ∅ headers)).
Proof.
  intros Hf Hv. unfold setOrReplaceHeader. rewrite (free_of_filter _ _ Hf). destruct Hv as [->|Hv]; [done|].
  rewrite (bool_decide_false (trim_space v = "")) by done. rewrite bool_decide_false; [done|]. intros ->. by apply Hv.
Qed.

Lemma accept_not_content_type : header_is "Content-Type" "Accept" = false. Proof. by vm_compute. Qed.
Lemma header_is_accept : header_is "Accept" "Accept" = true. Proof. by vm_compute. Qed.
Lemma header_is_content_type : header_is "Content-Type" "Content-Type" = true. Proof. by vm_compute. Qed.
Lemma content_type_not_accept : header_is "Accept" "Content-Type" = false. Proof. by vm_compute. Qed.
Create HintDb wire.
#[local] Hint Resolve accept_not_content_type header_is_accept header_is_content_type content_type_not_accept free_of_insert : wire.

Lemma kept_headers (oh : option (gmap string string)) : oh <> Some ∅ ->
  (if (default ∅ oh == ∅) && negb false then None else Some (default ∅ oh)) = oh.
Proof. destruct oh as [h|]; cbn; [|by rewrite bool_decide_true]. intros Hne. by rewrite bool_decide_false by congruence. Qed.
Lemma insert_not_empty (h : gmap string string) k v : (Some (<[k := v]> h) == Some ∅) = false.
Proof. apply bool_decide_false. intros [=E]. by apply insert_non_empty in E. Qed.

(** Moving the media headers of an operation into the header map and back. *)
Lemma media_headers_round_trip order m p q a c h b : order_ok order ->
  settled_text a -> settled_text c -> free_of "Accept" (default ∅ h) -> free_of "Content-Type" (default ∅ h) ->
  (h = Some ∅ -> a = "" /\ c = "") ->
  let spec h a c := {| Method := m; op_Path := p; Query := q; Headers := h; Accept := a; ContentType := c;
                       Body := b; op_Transforms := None; Validate := None |} in
  forall headers, headers = setOrReplaceHeader (setOrReplaceHeader h "Accept" a) "Content-Type" c ->
  promoteMediaHeadersFromOperationHeaders order (spec headers "" "") (headers == Some ∅) = spec h a c.
Proof.
  intros Ho Ha Hc Hfa Hfc He spec headers ->. rewrite (set_header_free _ "Accept" _ Hfa Ha). rewrite set_header_free;
    [|case_bool_decide; cbn; unfold Datatypes.id; eauto with wire|done].
  unfold promoteMediaHeadersFromOperationHeaders. destruct (decide (a = "")) as [->|Hna]; destruct (decide (c = "")) as [->|Hnc]; eqb.
  - destruct h as [h|]; cbn [Headers spec default from_option] in *; [|done]. cbn [Accept ContentType].
    rewrite !promote_absent by done. destruct (decide (h = ∅)) as [->|Hh]; [done|]. rewrite (bool_decide_false (h = ∅)) by done. done.
  - cbn [Headers Accept ContentType Body Method op_Path Query op_Transforms Validate spec]. rewrite insert_not_empty.
    rewrite promote_absent by eauto with wire. rewrite promote_only by eauto with wire. rewrite kept_headers; [done|]. intros E; destruct (He E); congruence.
  - cbn [Headers Accept ContentType Body Method op_Path Query op_Transforms Validate spec]. rewrite insert_not_empty.
    rewrite promote_only by eauto with wire. rewrite promote_absent by eauto with wire. rewrite kept_headers; [done|]. intros E; destruct (He E); congruence.
  - cbn [Headers Accept ContentType Body Method op_Path Query op_Transforms Validate spec default from_option].
    unfold Datatypes.id. rewrite insert_not_empty. rewrite insert_insert_ne by done.
    rewrite promote_only by eauto with wire. rewrite promote_only by eauto with wire. rewrite kept_headers; [done|]. intros E; destruct (He E); congruence.
Qed.

Lemma transform_steps_round_trip l : transformStepsFromWire (map transformStepToWire l) = l.
Proof.
  induction l as [|[s e j] l IH]; [done|]. cbn. f_equal; [|apply IH]. unfold transformStepFromWire. cbn.
  by destruct s, e.
Qed.
Lemma validation_round_trip v :
  match v with None => True | Some v => is_Some (v_RequiredAttributes v) \/ is_Some (Assertions v) \/ trim_space (SchemaRef v) <> "" end ->
  operationValidationFromWire (operationValidationToWire v) = v.
Proof.
  destruct v as [[r a s]|]; [|done]. intros Hv. cbn -[trim_space] in *.
  assert (cloneStringListWire (stringListWirePointer r) = r) as -> by (by destruct r).
  assert (match match a with None => None | Some l => Some (map validationAssertionToWire l) end with
          | None => None | Some l => Some (map validationAssertionFromWire l) end = a) as ->.
  { clear Hv. destruct a as [a|]; [|done]. f_equal. induction a as [|[x y] a IH]; [done|]. cbn. by rewrite IH. }
  destruct r; [done|]. destruct a; [done|]. cbn. rewrite bool_decide_false; [done|]. destruct Hv as [[]|[[]|]]; done.
Qed.
Lemma operation_round_trip order spec : order_ok order -> operation_storable spec ->
  operationSpecFromWire order (operationSpecToWire spec) = spec.
Proof.
  intros Ho (Ha & Hc & Hfa & Hfc & He & Hv). destruct spec as [m p q h a c b t v]. unfold operationSpecFromWire.
  cbn [Accept ContentType Headers Validate] in *.
  pose proof (media_headers_round_trip order m p q a c h b Ho Ha Hc Hfa Hfc He _ eq_refl) as E.
  cbn [operationSpecToWire ow_Method ow_Path ow_Query ow_Headers ow_Body ow_Transforms ow_Validate Method op_Path Query
       Body op_Transforms Validate].
  assert (match operationHeadersToWire {| Method := m; op_Path := p; Query := q; Headers := h; Accept := a; ContentType := c;
            Body := b; op_Transforms := t; Validate := v |} with None => None | Some headers => headerMapWirePointer (Some headers) end
          = setOrReplaceHeader (setOrReplaceHeader h "Accept" a) "Content-Type" c) as ->.
  { unfold operationHeadersToWire. cbn. by destruct (setOrReplaceHeader _ "Content-Type" _). }
  assert (stringMapPointer q = q) as -> by (by destruct q). rewrite E. rewrite validation_round_trip by done.
  cbn. f_equal. destruct t as [l|]; [|done]. cbn. by rewrite transform_steps_round_trip.
Qed.

Lemma selector_round_trip s : s <> Some {| Descendants := None |} ->
  selectorSpecFromWire (if hasSelectorInfo s then selectorSpecToWire s else None) = s.
Proof. destruct s as [[[b|]]|]; done. Qed.
Lemma defaults_round_trip d : d = None \/ HasDefaultsSpecDirectives d = true -> defaultsSpecFromWire (defaultsSpecToWire d) = d.
Proof.
  intros [->|Hd]; [done|]. destruct d as [[mo u v p]|]; [|done]. unfold defaultsSpecToWire. rewrite Hd. cbn [negb].
  assert (Some {| Mode := mo; UseProfiles := cloneStringSlice (stringSlicePointer u);
                  DefaultsValue := cloneDefaultsEntry (cloneDefaultsEntry v);
                  Profiles := match match p with None => None | Some p => Some (cloneDefaultsEntry <$> p) end with
                              | None => None | Some p => Some (cloneDefaultsEntry <$> p) end |}
          = Some {| Mode := mo; UseProfiles := u; DefaultsValue := v; Profiles := p |}) as E.
  { rewrite !cloneDefaultsEntry_id. assert (cloneStringSlice (stringSlicePointer u) = u) as -> by (by destruct u).
    destruct p as [p|]; [|done]. do 3 f_equal. rewrite <-map_fmap_compose. rewrite <-(map_fmap_id p) at 2.
    apply map_fmap_ext. intros k x _. cbn. by rewrite !cloneDefaultsEntry_id. }
  unfold defaultsSpecFromWire. cbn [dw_Mode dw_UseProfiles dw_Value dw_Profiles]. cbn [Mode UseProfiles DefaultsValue Profiles].
  rewrite E, Hd. done.
Qed.
Lemma externalized_round_trip l : externalizedAttributesFromWire (default [] (externalizedAttributeWirePointer (Some l))) = l.
Proof.
  cbn. unfold Datatypes.id. induction l as [|[] l IH]; [done|]. cbn. rewrite IH. by rewrite cloneBoolPointer_id, cloneBoolPointer_id.
Qed.

(** The [resource] block holds every field it is made of. *)
Lemma settled_blank s : settled_text s -> trim_space s = "" -> s = "".
Proof. intros [?|?]; congruence. Qed.
Lemma if_empty (s : string) : (if s == "" then "" else s) = s.
Proof. case_bool_decide; congruence. Qed.
Lemma resource_round_trip m : settled_text (ID m) -> settled_text (Alias m) -> settled_text (Format m) ->
  trim_space (RemoteCollectionPath m) = RemoteCollectionPath m -> (Defaults m = None \/ HasDefaultsSpecDirectives (Defaults m) = true) ->
  let r := match (if hasResourceInfo (resource_to_wire m) then Some (resource_to_wire m) else None) with
           | None => empty_metadata | Some r => resource_from_wire r empty_metadata end in
  ID r = ID m /\ Alias r = Alias m /\ RequiredAttributes r = RequiredAttributes m /\
  RemoteCollectionPath r = RemoteCollectionPath m /\ Format r = Format m /\ Defaults r = Defaults m /\ Secret r = Secret m /\
  SecretAttributes r = SecretAttributes m /\ ExternalizedAttributes r = ExternalizedAttributes m.
Proof.
  intros Hi Ha Hf Hr Hd. destruct m as [sel i a ra rc f d s sa xa ops tr]. cbn [ID Alias Format RemoteCollectionPath Defaults] in *.
  destruct (hasResourceInfo _) eqn:E; cbv zeta.
  - cbn -[trim_space defaultsSpecFromWire defaultsSpecToWire]. rewrite Hr, !if_empty. repeat split.
    + by destruct ra.
    + pose proof (defaults_round_trip d Hd) as E'. destruct (defaultsSpecToWire d); [done|]. by rewrite <-E'.
    + by destruct s.
    + by destruct sa.
    + destruct xa as [l|]; [|done]. f_equal. apply (externalized_round_trip l).
  - unfold hasResourceInfo in E. cbn -[trim_space defaultsSpecToWire] in E. rewrite !orb_false_iff, !negb_false_iff, !bool_decide_eq_true in E.
    destruct E as ((((((((E1 & E2) & E3) & E4) & E5) & E6) & E7) & E8) & E9).
    apply settled_blank in E1, E2, E5; [|done..]. rewrite Hr in E4. subst. cbn. repeat split.
    + destruct ra; [|done]. by apply bool_decide_eq_false in E3; destruct E3.
    + destruct Hd as [->|Hd]; [done|]. unfold defaultsSpecToWire in E6. rewrite Hd in E6. destruct d; done.
    + by destruct s.
    + by destruct sa.
    + by destruct xa.
Qed.

(** The six operations of a block, in order, rebuild the map. *)
Definition pick_operation (ops : gmap string OperationSpec) (acc : gmap string OperationSpec) (name : string) :=
  match ops !! name with None => acc | Some spec => <[name := spec]> acc end.
Lemma pick_operations_lookup ops names : forall acc key,
  foldl (pick_operation ops) acc names !! key =
  if bool_decide (key ∈ names) then (match ops !! key with None => acc !! key | s => s end) else acc !! key.
Proof.
  induction names as [|n names IH]; intros acc key; [done|]. cbn [foldl]. rewrite IH. unfold pick_operation.
  destruct (decide (key = n)) as [->|Hne].
  - rewrite (bool_decide_true (n ∈ n :: names)) by left. destruct (ops !! n) eqn:E.
    + rewrite lookup_insert_eq. by case_bool_decide.
    + by case_bool_decide.
  - assert (bool_decide (key ∈ n :: names) = bool_decide (key ∈ names)) as ->.
    { apply bool_decide_ext. rewrite elem_of_cons. naive_solver. }
    destruct (ops !! n); [|done]. by rewrite !lookup_insert_ne by done.
Qed.
Lemma pick_operations ops : map_Forall (fun name _ => name ∈ operation_names) ops ->
  foldl (pick_operation ops) ∅ operation_names = ops.
Proof.
  intros Hn. apply map_eq. intros key. rewrite pick_operations_lookup, lookup_empty. case_bool_decide as E.
  - by destruct (ops !! key).
  - destruct (ops !! key) eqn:El; [|done]. by apply Hn in El.
Qed.
Lemma operations_round_trip order m ops : order_ok order -> Operations m = Some ops ->
  map_Forall (fun name spec => name ∈ operation_names /\ operation_storable spec) ops ->
  operationsToMap order (Some (operations_to_wire m)) = if ops == ∅ then None else Some ops.
Proof.
  intros Ho Em Hall. assert (forall name acc, set_operation order name (operationSpecToWire <$> ops !! name) acc = pick_operation ops acc name) as Hset.
  { intros name acc. unfold set_operation, pick_operation. destruct (ops !! name) as [spec|] eqn:E; [|done]. cbn.
    rewrite operation_round_trip; [done|done|]. by apply Hall in E as [_ E]. }
  unfold operationsToMap, operations_to_wire. rewrite Em. cbn [Get Create Update Delete List Compare]. rewrite !Hset.
  pose proof (pick_operations ops) as Hp. cbn [operation_names foldl] in Hp. rewrite Hp; [done|].
  intros name spec E. by apply Hall in E as [E _].
Qed.
Lemma operations_to_wire_none m : Operations m = None -> operations_to_wire m =
  {| osw_Defaults := match Transforms m with None => None | Some _ => Some {| odw_Transforms := transformStepsWirePointer (Transforms m) |} end;
     Get := None; Create := None; Update := None; Delete := None; List := None; Compare := None |}.
Proof. intros E. unfold operations_to_wire. by rewrite E. Qed.
Lemma transforms_round_trip m :
  match osw_Defaults (operations_to_wire m) with
  | None => None
  | Some defaults => match odw_Transforms defaults with None => None | Some l => Some (transformStepsFromWire l) end
  end = Transforms m.
Proof. unfold operations_to_wire. cbn. destruct (Transforms m) as [l|]; [|done]. cbn. by rewrite transform_steps_round_trip. Qed.
Lemma operations_block_round_trip order m : order_ok order ->
  map_Forall (fun name spec => name ∈ operation_names /\ operation_storable spec) (default ∅ (Operations m)) ->
  (Operations m = Some ∅ -> Transforms m = None) ->
  match (if bool_decide (is_Some (Operations m)) || hasOperationsInfo (operations_to_wire m) then Some (operations_to_wire m) else None) with
  | None => (None, None)
  | Some info => operations_from_wire order info
  end = (Operations m, Transforms m).
Proof.
  intros Ho Hall He. destruct (Operations m) as [ops|] eqn:Em; cbn [default from_option] in Hall; unfold Datatypes.id in Hall.
  - rewrite bool_decide_true by eauto. cbn [orb]. unfold operations_from_wire.
    rewrite (operations_round_trip order m ops Ho Em Hall), transforms_round_trip. f_equal.
    destruct (decide (ops = ∅)) as [->|Hne].
    + rewrite (bool_decide_true (∅ = ∅)) by done. unfold operations_to_wire. rewrite Em. cbn [osw_Defaults]. rewrite (He eq_refl).
      cbn. rewrite !lookup_empty. done.
    + rewrite (bool_decide_false (ops = ∅)) by done. cbn. by rewrite (right_id_L ∅ (∪)).
  - rewrite operations_to_wire_none by done. rewrite bool_decide_false by (by intros []). cbn [orb].
    destruct (Transforms m) as [l|] eqn:Et; [|done]. set (info := {| osw_Defaults := _ |}). assert (hasOperationsInfo info = true) as -> by done.
    unfold operations_from_wire. cbn -[transformStepsFromWire]. rewrite transform_steps_round_trip. reflexivity.
Qed.

(** A metadata document that is storable is what is read after it is written: the
    document decoded from the wire form of its encoding is the document itself, whatever the
    order in which the header maps are visited. Storable means that its text fields are
    empty or not blank, its remote path is trimmed, its operations are the six known ones
    with their media headers in their own fields, and no part of it is an empty shell
    (a selector without descendants, defaults or a validation without content, an empty set
    of operations next to transforms). *)
Theorem document_round_trip order m : order_ok order -> storable m ->
  resourceMetadataFromWire order (resourceMetadataToWire m) = m.
Proof.
  intros Ho (Hs & Hi & Ha & Hf & Hr & Hd & He & Hall). unfold resourceMetadataFromWire, resourceMetadataToWire.
  cbn [mw_Selector mw_Resource mw_Operations]. rewrite (operations_block_round_trip order m Ho Hall He), (selector_round_trip _ Hs).
  pose proof (resource_round_trip m Hi Ha Hf Hr Hd) as E. cbv zeta in E.
  destruct E as (-> & -> & -> & -> & -> & -> & -> & -> & ->). by destruct m.
Qed.

(** What a document loses: an operation that clears the inherited headers and names a media
    type is read back without the clearing. *)
Definition clearing_operation : OperationSpec :=
  {| Method := ""; op_Path := ""; Query := None; Headers := Some ∅; Accept := "text/plain"; ContentType := "";
     Body := VNil; op_Transforms := None; Validate := None |}.
Lemma cleared_headers_lost order : order_ok order ->
  Headers (operationSpecFromWire order (operationSpecToWire clearing_operation)) = None.
Proof.
  intros Ho. unfold operationSpecFromWire.
  assert (ow_Headers (operationSpecToWire clearing_operation) = Some (<["Accept" := "text/plain"]> ∅)) as E by (by vm_compute).
  cbn [Headers]. rewrite E. rewrite insert_not_empty. unfold promoteMediaHeadersFromOperationHeaders. cbn [Headers Accept].
  rewrite (promote_only order Ho ∅ "Accept" "text/plain"); [|apply map_Forall_empty|apply header_is_accept].
  rewrite (promote_absent order Ho ∅ "Content-Type"); [|apply map_Forall_empty].
  reflexivity.
Qed.

Definition key_order : map_order := fun m => (map_to_list m).*1.
Definition stored_sample : ResourceMetadata :=
  {| Selector := Some {| Descendants := Some true |}; ID := "{{/id}}"; Alias := "{{/name}}"; RequiredAttributes := Some ["/name"];
     RemoteCollectionPath := "/api/users"; Format := "json"; Defaults := None; Secret := None; SecretAttributes := Some [];
     ExternalizedAttributes := None;
     Operations := Some {[ "get" := {| Method := "GET"; op_Path := "/api/users/{{/id}}"; Query := None; Headers := Some {[ "X-Trace" := "1" ]};
       Accept := "application/json"; ContentType := ""; Body := VNil; op_Transforms := Some []; Validate := None |} ]};
     Transforms := Some [{| SelectAttributes := Some ["/name"]; ExcludeAttributes := None; JQExpression := "" |}] |}.
Lemma document_round_trip_witness :
  order_ok key_order /\ storable stored_sample /\
  resourceMetadataFromWire key_order (resourceMetadataToWire stored_sample) = stored_sample.
Proof.
  assert (order_ok key_order) as Ho by (by intros m).
  assert (storable stored_sample) as Hs.
  { assert (forall s, trim_space s <> "" -> settled_text s) as Ht by (intros s; by right).
    split; [done|]. split; [apply Ht; by vm_compute|]. split; [apply Ht; by vm_compute|]. split; [apply Ht; by vm_compute|].
    split; [by vm_compute|]. split; [by left|]. split; [done|].
    apply map_Forall_singleton. split; [by left|]. split; [apply Ht; by vm_compute|]. split; [by left|].
    split; [by apply map_Forall_singleton|]. split; [by apply map_Forall_singleton|]. split; [done|exact I]. }
  split; [exact Ho|split; [exact Hs|]]. apply (document_round_trip key_order stored_sample Ho Hs).
Defined.
