(* ===== verification/TemplateSyntax.v ===== *)
(** * Metadata templates

    Models [src/metadata/template_syntax.go], [resource_format.go] and the rendering
    functions of [operation_spec.go]: the rewriting of the short actions ([{{id}}],
    [{{.id}}], [{{/a/b}}]) of a metadata template, the helper functions a template may call,
    and the rendering of one template. The engine is Go's [text/template], which the class
    [TemplateEngine] stands for; [TemplateEngineLaws] is the part of its documentation the
    theorems use. *)
From S2P Require Import Prelude GoText GoTextFacts GoFloat Faults Value Pointer Descriptor Codec Metadata.

Section syntax.
Context `{UnicodeTables}.

(** ** Rewriting *)
Definition reservedTemplateIdentifiers : list string :=
  ["and"; "block"; "call"; "define"; "else"; "end"; "eq"; "false"; "ge"; "gt"; "html"; "if"; "index"; "js"; "json_pointer";
   "le"; "len"; "lt"; "ne"; "nil"; "not"; "or"; "payload_extension"; "payload_media_type"; "payload_type"; "print"; "printf";
   "println"; "range"; "slice"; "template"; "true"; "urlquery"; "with"].
Definition templateExpressionPointer (expression : string) : option string :=
  let trimmed := trim_space expression in
  if trimmed == "" then None
  else if has_prefix trimmed "." then
    let key := trim_space (trim_prefix trimmed ".") in
    if is_identifier key then Some (JSONPointerForObjectKey key) else None
  else if has_prefix trimmed "/" then
    match ParseJSONPointer trimmed with Ok _ => Some trimmed | Err _ => None end
  else if negb (is_identifier trimmed) then None
  else if bool_decide (trimmed ∈ reservedTemplateIdentifiers) then None
  else Some (JSONPointerForObjectKey trimmed).
Definition pointer_action (pointer : string) : string := "{{json_pointer " +:+ quote pointer +:+ "}}".
(** What replaces the action whose text between the braces is [body]. *)
Definition rewrite_action (body : string) : string :=
  match templateExpressionPointer (trim_space body) with
  | Some pointer => pointer_action pointer
  | None => "{{" +:+ body +:+ "}}"
  end.
(** The loop over the rest of the template; each round consumes two bytes at least, so the
    length of the template is fuel enough ([rewrite_go_fuel]). *)
Fixpoint rewrite_go (fuel : nat) (rest : string) : string :=
  match fuel with
  | 0 => rest
  | S fuel =>
      match index_of rest "{{" with
      | None => rest
      | Some start =>
          let after := str_drop (start + 2) rest in
          match index_of after "}}" with
          | None => rest
          | Some stop => str_take start rest +:+ rewrite_action (str_take stop after) +:+ rewrite_go fuel (str_drop (stop + 2) after)
          end
      end
  end.
Definition rewriteMetadataTemplateSyntax (raw : string) : string :=
  if negb (contains raw "{{") then raw else rewrite_go (String.length raw) raw.

Definition templatePlaceholderPointer (segment : string) : option string :=
  let trimmed := trim_space segment in
  if negb (has_prefix trimmed "{{") || negb (has_suffix trimmed "}}") then None
  else templateExpressionPointer (trim_space (str_take (String.length trimmed - 4) (str_drop 2 trimmed))).
Definition TemplatePlaceholderKey (segment : string) : option string :=
  pointer ← templatePlaceholderPointer segment;
  match ParseJSONPointer pointer with Ok [token] => Some token | _ => None end.
Definition IsTemplatePlaceholderSegment (segment : string) : bool := bool_decide (is_Some (templatePlaceholderPointer segment)).

(** ** Resource formats *)
Definition ResourceFormatAny := "any".
Definition NormalizeResourceFormat (v : string) : string :=
  let trimmed := to_lower (trim_space v) in
  if trimmed == "" then "" else if trimmed == ResourceFormatAny then ResourceFormatAny else NormalizePayloadType trimmed.
Definition ValidateResourceFormat (v : string) : result error string :=
  let normalized := NormalizeResourceFormat v in
  if normalized == "" then Ok ""
  else if normalized == ResourceFormatAny then Ok normalized
  else ValidatePayloadType normalized.
Definition ValidateConcreteResourceFormat (v : string) : result error string :=
  format ← ValidateResourceFormat v;
  if format == ResourceFormatAny then Err (Invalid "resource format must be concrete" None) else Ok format.
Definition ResourceFormatMediaType (v : string) : result error string :=
  format ← ValidateConcreteResourceFormat v;
  if format == "" then Ok "" else PayloadMediaType format.
Definition ResourceFormatExtension (v : string) : result error string :=
  format ← ValidateConcreteResourceFormat v;
  if format == "" then Ok "" else PayloadExtension format.
Definition ResourceFormatAllowsMixedItems (v : string) : bool := NormalizeResourceFormat v == ResourceFormatAny.
Definition EffectivePayloadType (m : ResourceMetadata) (fallback : string) : result error string :=
  let format := NormalizeResourceFormat (Format m) in
  if negb (format == "") && negb (format == ResourceFormatAny) then ValidateConcreteResourceFormat format
  else ValidatePayloadType fallback.

(** A payload argument of type [any] is a payload or a [resource.Content] (by value or by
    a non-nil pointer). *)
Inductive payload_input := PayloadValue (v : value) | PayloadContent (c : Content).
Definition unwrapPayloadContentValue (p : payload_input) : value :=
  match p with PayloadContent c => content_Value c | PayloadValue v => v end.
Definition explicitDescriptorFromPayloadValue (p : payload_input) : PayloadDescriptor :=
  match p with PayloadContent c => content_Descriptor c | PayloadValue _ => empty_descriptor end.
Definition typed_descriptor (t : string) : PayloadDescriptor := {| PayloadType := t; MediaType := ""; Extension := "" |}.
(** The type switch on a value, then the one on its normal form. *)
Definition infer_normalized (v : value) : PayloadDescriptor :=
  match Normalize v with
  | Err _ => NormalizePayloadDescriptor (typed_descriptor PayloadTypeJSON)
  | Ok (VString _) => NormalizePayloadDescriptor (typed_descriptor PayloadTypeText)
  | Ok (VBinary _) => DefaultOctetStreamDescriptor
  | Ok _ => NormalizePayloadDescriptor (typed_descriptor PayloadTypeJSON)
  end.
Definition InferPayloadDescriptor (p : payload_input) : PayloadDescriptor :=
  if IsPayloadDescriptorExplicit (explicitDescriptorFromPayloadValue p)
  then NormalizePayloadDescriptor (explicitDescriptorFromPayloadValue p)
  else
    match unwrapPayloadContentValue p with
    | VNil => NormalizePayloadDescriptor (typed_descriptor PayloadTypeJSON)
    | VBinary _ | VBinaryPtr (Some _) => DefaultOctetStreamDescriptor
    | VString _ => NormalizePayloadDescriptor (typed_descriptor PayloadTypeText)
    | v => infer_normalized v
    end.
Definition ResolveTemplatePayloadDescriptor (m : ResourceMetadata) (payload : payload_input) (descriptor : PayloadDescriptor)
  : PayloadDescriptor :=
  let active := descriptor in
  let active := if negb (IsPayloadDescriptorExplicit active) then explicitDescriptorFromPayloadValue payload else active in
  let active :=
    if negb (IsPayloadDescriptorExplicit active) then
      let format := NormalizeResourceFormat (Format m) in
      if negb (format == "") && negb (format == ResourceFormatAny) then typed_descriptor format else active
    else active in
  let active := if negb (IsPayloadDescriptorExplicit active) then InferPayloadDescriptor payload else active in
  NormalizePayloadDescriptor active.
(** The entries the payload gives to a scope. *)
Definition ApplyPayloadTemplateScope (scope : object) (m : ResourceMetadata) (payload : payload_input)
  (descriptor : PayloadDescriptor) : object :=
  let active := ResolveTemplatePayloadDescriptor m payload descriptor in
  let scope := <["payloadType" := VString (PayloadType active)]> scope in
  let scope := <["payloadMediaType" := VString (MediaType active)]> scope in
  let scope := <["payloadExtension" := VString (Extension active)]> scope in
  if negb (bool_decide (is_Some (scope !! "contentType"))) && negb (trim_space (MediaType active) == "") then
    match scope !! "payload" with
    | Some (VMap _) => scope
    | _ => <["contentType" := VString (MediaType active)]> scope
    end
  else scope.

(** ** Functions of a template *)
Definition scopeValue (scope : object) (key : string) : value := default VNil (scope !! key).
Definition scopeString (v : value) : string := match v with VString s => s | _ => "" end.
Definition templateScalarString (v : value) : option string :=
  match v with
  | VString s => Some s
  | VNumber s | VOther _ (Some s) => Some s
  | VInt64 z | VIntK _ z | VUintK _ z => Some (itoa z)
  | VFloat32 f => Some (format_float32 f)
  | VFloat64 f => Some (format_float f)
  | VBool b => Some (if b then "true" else "false")
  | _ => None
  end.
Definition resolveJSONPointer (scope : object) (pointer : string) : result error string :=
  let trimmed := trim_space pointer in
  if trimmed == "" then Err (errorf "json_pointer template function expects a JSON pointer argument")
  else
    item ← LookupJSONPointer (VMap scope) trimmed;
    match item with
    | None | Some VNil => Err (errorf ("JSON pointer " +:+ quote trimmed +:+ " did not resolve to a value"))
    | Some v =>
        match templateScalarString v with
        | None => Err (errorf ("JSON pointer " +:+ quote trimmed +:+ " resolved to a non-scalar value"))
        | Some rendered => Ok rendered
        end
    end.
Definition resolveScopePayloadType (scope : object) (arg : value) : result error string :=
  if negb (is_nil arg) && negb (bool_decide (is_Some (as_object arg)))
  then Err (NewTypedError ValidationError "payload_type template function expects root scope argument (.)" None)
  else
    let candidate := scopeString (scopeValue scope "payloadType") in
    let candidate :=
      if trim_space candidate == "" then
        match PayloadDescriptorForContentType (scopeString (scopeValue scope "payloadMediaType")) with
        | Some descriptor => PayloadType descriptor | None => candidate end
      else candidate in
    let candidate :=
      if trim_space candidate == "" then
        match PayloadDescriptorForExtension (scopeString (scopeValue scope "payloadExtension")) with
        | Some descriptor => PayloadType descriptor | None => candidate end
      else candidate in
    ValidateConcreteResourceFormat candidate.
Record FuncMap := {
  json_pointer : string -> result error string;
  payload_type : value -> result error string;
  payload_media_type : value -> result error string;
  payload_extension : value -> result error string;
}.
Definition scope_or (scope : object) (key : string) (arg : value) (of_type : string -> result error string) : result error string :=
  let v := trim_space (scopeString (scopeValue scope key)) in
  if negb (v == "") then Ok v else payloadType ← resolveScopePayloadType scope arg; of_type payloadType.
Definition TemplateFuncMap (scope : object) : FuncMap :=
  {| json_pointer := resolveJSONPointer scope;
     payload_type := resolveScopePayloadType scope;
     payload_media_type := fun arg => scope_or scope "payloadMediaType" arg ResourceFormatMediaType;
     payload_extension := fun arg => scope_or scope "payloadExtension" arg ResourceFormatExtension |}.
End syntax.

(** ** The template engine *)
(** [template.New(name).Funcs(funcs).Parse(text)] and [Execute] with [missingkey=error]: the
    error of parsing, and the text written. *)
Class TemplateEngine := {
  tmpl_parse : string -> string -> option error;
  tmpl_execute : string -> string -> FuncMap -> object -> result error string;
}.

Section rendering.
Context `{UnicodeTables, TemplateEngine}.

Definition renderTemplateString (field raw : string) (scope : object) : result error string :=
  if negb (contains raw "{{") then Ok raw
  else
    let rewritten := rewriteMetadataTemplateSyntax raw in
    match tmpl_parse field rewritten with
    | Some err => Err (NewTypedError ValidationError ("invalid metadata template for " +:+ field) (Some err))
    | None =>
        match tmpl_execute field rewritten (TemplateFuncMap scope) scope with
        | Err err => Err (NewTypedError ValidationError ("failed to render metadata template for " +:+ field) (Some err))
        | Ok out => Ok out
        end
    end.
Definition RenderTemplateString := renderTemplateString.
Definition validate_template (label field raw : string) : result error unit :=
  if negb (contains raw "{{") then Ok tt
  else
    match tmpl_parse field (rewriteMetadataTemplateSyntax raw) with
    | Some err => Err (NewTypedError ValidationError ("invalid metadata template for " +:+ label +:+ " " +:+ field) (Some err))
    | None => Ok tt
    end.
End rendering.

(** ** Facts *)
Lemma rewrite_go_fuel `{UnicodeTables} n : forall m rest, (String.length rest <= n)%nat -> (String.length rest <= m)%nat ->
  rewrite_go n rest = rewrite_go m rest.
Proof.
  assert (forall k rest, String.length rest = 0%nat -> rewrite_go k rest = rest) as Hnil by (intros [|k] []; done).
  induction n as [|n IH]; intros m rest Hn Hm; [by rewrite !Hnil by lia|].
  destruct m as [|m]; [by rewrite !Hnil by lia|]. cbn [rewrite_go].
  destruct (index_of rest "{{") as [i|] eqn:Ei; [|done]. destruct (index_of _ "}}") as [j|] eqn:Ej; [|done].
  apply length_index_rest in Ei, Ej. cbn [String.length] in Ei, Ej. do 2 f_equal. apply IH; lia.
Qed.
(** The first occurrence of two equal bytes after a text without that byte. *)
Lemma index_of_pair c t rest : no_sep c t -> index_of (t +:+ String c (String c "") +:+ rest) (String c (String c "")) = Some (String.length t).
Proof.
  intros Ht. induction t as [|d t IH].
  - rewrite app_empty_l, !app_cons. cbn [index_of String.length]. rewrite !has_prefix_cons, !bool_decide_true by done.
    by rewrite app_empty_l, has_prefix_empty.
  - apply no_sep_cons in Ht as [Hd Ht]. rewrite app_cons. cbn [index_of]. rewrite has_prefix_cons. eqb. by rewrite IH.
Qed.
Lemma index_of_no_byte c t p : no_sep c t -> index_of t (String c p) = None.
Proof.
  intros Ht. induction t as [|d t IH]; [done|]. apply no_sep_cons in Ht as [Hd Ht]. cbn [index_of]. rewrite has_prefix_cons. eqb.
  by rewrite IH.
Qed.

(** A template whose actions are [calls]: a literal text and the text of an action, then a
    last literal. *)
Fixpoint actions_text (calls : list (string * string)) (last : string) : string :=
  match calls with
  | [] => last
  | (t, body) :: calls => t +:+ "{{" +:+ body +:+ "}}" +:+ actions_text calls last
  end.
Definition actions_ok (calls : list (string * string)) (last : string) : Prop :=
  Forall (fun '(t, body) => no_sep "{" t /\ no_sep "}" body) calls /\ no_sep "{" last.
Lemma actions_text_first t body calls last : no_sep "{" t -> no_sep "}" body ->
  let raw := actions_text ((t, body) :: calls) last in
  index_of raw "{{" = Some (String.length t) /\
  str_take (String.length t) raw = t /\
  index_of (str_drop (String.length t + 2) raw) "}}" = Some (String.length body) /\
  str_take (String.length body) (str_drop (String.length t + 2) raw) = body /\
  str_drop (String.length body + 2) (str_drop (String.length t + 2) raw) = actions_text calls last.
Proof.
  intros Ht Hb raw. unfold raw. cbn [actions_text].
  assert (str_drop (String.length t + 2) (t +:+ "{{" +:+ body +:+ "}}" +:+ actions_text calls last)
          = body +:+ "}}" +:+ actions_text calls last) as Ed.
  { rewrite <-(str_app_assoc t "{{"). replace (String.length t + 2) with (String.length (t +:+ "{{")); [apply str_drop_app|].
    rewrite length_str_app. done. }
  split; [by apply (index_of_pair "{")|]. split; [apply str_take_app|]. rewrite Ed.
  split; [by apply (index_of_pair "}")|]. split; [apply str_take_app|].
  rewrite <-(str_app_assoc body "}}"). replace (String.length body + 2) with (String.length (body +:+ "}}")); [apply str_drop_app|].
  rewrite length_str_app. done.
Qed.
Lemma contains_index s p : p <> "" -> contains s p = bool_decide (is_Some (index_of s p)).
Proof. intros Hp. unfold contains. destruct (index_of s p); by rewrite ?bool_decide_true, ?bool_decide_false by (done || by intros []). Qed.

Section rewriting.
Context `{UnicodeTables}.

(** The body that replaces a body. *)
Definition rewritten_body (body : string) : string :=
  match templateExpressionPointer (trim_space body) with
  | Some pointer => "json_pointer " +:+ quote pointer
  | None => body
  end.
Lemma rewrite_action_body body : rewrite_action body = "{{" +:+ rewritten_body body +:+ "}}".
Proof. unfold rewrite_action, rewritten_body. by destruct (templateExpressionPointer _). Qed.
Lemma rewrite_actions calls last : actions_ok calls last -> forall fuel, (String.length (actions_text calls last) <= fuel)%nat ->
  rewrite_go fuel (actions_text calls last) = actions_text (prod_map Datatypes.id rewritten_body <$> calls) last.
Proof.
  intros [Hc Hl]. induction Hc as [|[t body] calls [Ht Hb] Hc IH]; intros fuel Hf.
  - destruct fuel as [|fuel]; [done|]. cbn [rewrite_go actions_text]. by rewrite index_of_no_byte.
  - pose proof (actions_text_first t body calls last Ht Hb) as E. cbv zeta in E. destruct E as (E1 & E2 & E3 & E4 & E5).
    destruct fuel as [|fuel]; [cbn in Hf; rewrite !length_str_app in Hf; cbn in Hf; lia|].
    cbn [rewrite_go]. rewrite E1, E2, E3, E4, E5, rewrite_action_body, IH; [cbn; by rewrite !str_app_assoc|].
    cbn [actions_text] in Hf. rewrite !length_str_app in Hf. cbn in Hf. lia.
Qed.
Lemma rewrite_actions_text calls last : actions_ok calls last ->
  rewriteMetadataTemplateSyntax (actions_text calls last) = actions_text (prod_map Datatypes.id rewritten_body <$> calls) last.
Proof.
  intros Ho. unfold rewriteMetadataTemplateSyntax. destruct (contains _ "{{") eqn:E; cbn [negb]; [by apply rewrite_actions|].
  destruct calls as [|[t body] calls]; [done|]. destruct Ho as [[[Ht Hb] _]%Forall_cons _].
  rewrite contains_index in E by done. destruct (actions_text_first t body calls last Ht Hb) as (E1 & _). by rewrite E1 in E.
Qed.
Lemma contains_actions t body calls last : no_sep "{" t -> no_sep "}" body -> contains (actions_text ((t, body) :: calls) last) "{{" = true.
Proof. intros Ht Hb. rewrite contains_index by done. by destruct (actions_text_first t body calls last Ht Hb) as (-> & _). Qed.

(** ** The laws of the engine *)
(** The value of a call, and the text of a template of calls. *)
Fixpoint run_calls (call : string -> result error string) (calls : list (string * string)) (last : string) : result error string :=
  match calls with
  | [] => Ok last
  | (t, argument) :: calls => v ← call argument; rest ← run_calls call calls last; Ok (t +:+ v +:+ rest)
  end.
Definition call_body (literal : string) : string := "json_pointer " +:+ literal.
(** [literals] are the string literals of the calls and [calls] the strings they denote. *)
Definition denotes (literals calls : list (string * string)) : Prop :=
  Forall2 (fun l c => l.1 = c.1 /\ unquote l.2 = Some c.2) literals calls.
End rewriting.

(** A template of calls of [json_pointer] with a string literal parses; executing it writes
    the literal texts and the strings the function returns, and fails if it fails. *)
Class TemplateEngineLaws `{TemplateEngine} : Prop := {
  parse_calls : forall name literals calls last, denotes literals calls ->
    actions_ok (prod_map Datatypes.id call_body <$> literals) last ->
    tmpl_parse name (actions_text (prod_map Datatypes.id call_body <$> literals) last) = None;
  execute_calls : forall name literals calls last funcs scope, denotes literals calls ->
    actions_ok (prod_map Datatypes.id call_body <$> literals) last ->
    ok_opt (tmpl_execute name (actions_text (prod_map Datatypes.id call_body <$> literals) last) funcs scope)
    = ok_opt (run_calls (json_pointer funcs) calls last);
}.

(** ** Templates of short actions *)
(** A byte that a Go string literal holds as it is, other than the closing brace. *)
Definition plain_byte (c : ascii) : bool := in_range 32 126 (byte_Z c) && negb (bool_decide (c ∈ ["034"; "\"; "}"]%char)).
Section literals.
Context `{UnicodeTables}.

Lemma quote_go_plain s : all_bytes plain_byte s = true -> quote_go 0 s = s +:+ String "034" "".
Proof.
  induction s as [|c s IH]; [done|]. intros [Hc Hs]%andb_true_iff. rewrite app_cons, <-IH by done.
  destruct c as [[] [] [] [] [] [] [] []]; try discriminate Hc; reflexivity.
Qed.
Lemma unquote_plain s : all_bytes plain_byte s = true -> unquote (quote s) = Some s.
Proof.
  intros Hs. unfold quote. rewrite quote_go_plain by done. unfold unquote. cbn [String.length].
  assert (forall fuel, (String.length s < fuel)%nat -> unquote_go fuel (s +:+ String "034" "") = Some s) as E;
    [|apply E; rewrite length_str_app; cbn; lia].
  induction s as [|c s IH]; intros [|fuel] Hf; try (cbn in Hf; lia); [done|].
  apply andb_true_iff in Hs as [Hc Hs]. rewrite app_cons. specialize (IH Hs fuel). cbn in Hf.
  destruct c as [[] [] [] [] [] [] [] []]; try discriminate Hc; cbn -[String.app] in *; rewrite IH by lia; reflexivity.
Qed.
Lemma quote_no_brace s : all_bytes plain_byte s = true -> no_sep "}" (quote s).
Proof.
  intros Hs. unfold quote. rewrite quote_go_plain by done. apply no_sep_cons. split; [done|]. apply no_sep_app. split; [|done].
  clear -Hs. induction s as [|c s IH]; [done|]. apply andb_true_iff in Hs as [Hc Hs]. apply no_sep_cons. split; [|auto].
  intros ->. discriminate Hc.
Qed.
End literals.

Section short.
Context `{UnicodeTables} `{TemplateEngineLaws}.

(** The action [body] is short for looking up [pointer]. *)
Definition short_call (body pointer : string) : Prop :=
  templateExpressionPointer (trim_space body) = Some pointer /\ all_bytes plain_byte pointer = true.

(** Rendering short actions is looking their pointers up. *)
Lemma render_short_actions field calls pointers last scope :
  actions_ok calls last -> Forall2 (fun c p => c.1 = p.1 /\ short_call c.2 p.2) calls pointers ->
  ok_opt (renderTemplateString field (actions_text calls last) scope)
  = ok_opt (run_calls (resolveJSONPointer scope) pointers last).
Proof.
  intros Ho Hp. destruct calls as [|[t body] calls].
  { inversion Hp; subst. destruct Ho as [_ Hl]. unfold renderTemplateString. rewrite contains_index by done.
    cbn [actions_text]. by rewrite index_of_no_byte. }
  unfold renderTemplateString. destruct Ho as [Hc Hlast]. pose proof (proj1 (Forall_cons _ _ _) Hc) as [[Ht Hb] _].
  rewrite contains_actions by done. cbn [negb]. assert (actions_ok ((t, body) :: calls) last) as Ho by (by split).
  rewrite rewrite_actions_text by done. set (all := (t, body) :: calls) in *. clearbody all.
  set (literals := prod_map Datatypes.id quote <$> pointers).
  assert (prod_map Datatypes.id rewritten_body <$> all = prod_map Datatypes.id call_body <$> literals) as ->.
  { unfold literals. rewrite <-list_fmap_compose. clear -Hp. induction Hp as [|[u b] [u' p] cs ps [E [Hb _]] Hps IH]; [done|].
    cbn -[trim_space quote rewritten_body] in *. subst. rewrite IH. f_equal. unfold rewritten_body. cbn -[trim_space quote]. by rewrite Hb. }
  assert (denotes literals pointers) as Hd.
  { unfold literals. clear -Hp. induction Hp as [|[u b] [u' p] cs ps [E [_ Hb]] Hps IH]; [constructor|].
    constructor; [|done]. split; [done|]. by apply unquote_plain. }
  assert (actions_ok (prod_map Datatypes.id call_body <$> literals) last) as Hl.
  { destruct Ho as [Ho _]. split; [|done]. unfold literals. clear -Ho Hp. induction Hp as [|[u b] [u' p] cs ps [E [_ Hb]] Hps IH]; [constructor|].
    apply Forall_cons in Ho as [[Hu _] Ho]. cbn -[trim_space quote] in *. subst. constructor; [|auto]. split; [done|].
    unfold call_body. cbn -[quote]. apply no_sep_app. split; [done|]. by apply quote_no_brace. }
  rewrite (parse_calls _ _ _ _ Hd Hl). pose proof (execute_calls field literals pointers last (TemplateFuncMap scope) scope Hd Hl) as E.
  cbn [json_pointer TemplateFuncMap] in E. rewrite <-E. by destruct (tmpl_execute _ _ _ _).
Qed.

(** Rendering a template whose actions are all short ones ([{{id}}], [{{.id}}],
    [{{/a/b}}]) is looking each of them up in the scope: the rendered text is the literal
    texts of the template with, for each action, the scalar its JSON pointer leads to, and
    rendering fails exactly when one of the pointers leads to nothing, to nil or to something
    that is not a scalar. *)
Theorem short_template_renders field calls pointers last scope :
  actions_ok calls last -> Forall2 (fun c p => c.1 = p.1 /\ short_call c.2 p.2) calls pointers ->
  ok_opt (renderTemplateString field (actions_text calls last) scope)
  = ok_opt (run_calls (resolveJSONPointer scope) pointers last).
Proof. apply render_short_actions. Qed.
End short.

(** ** An engine *)
Definition engine_error : error := errorf "template: unexpected action".
Fixpoint run_template (call : string -> result error string) (fuel : nat) (rest : string) : result error string :=
  match fuel with
  | 0 => Ok rest
  | S fuel =>
      match index_of rest "{{" with
      | None => Ok rest
      | Some start =>
          let after := str_drop (start + 2) rest in
          match index_of after "}}" with
          | None => Err engine_error
          | Some stop =>
              match (if has_prefix (str_take stop after) "json_pointer " then unquote (str_drop 13 (str_take stop after)) else None) with
              | None => Err engine_error
              | Some argument =>
                  v ← call argument; r ← run_template call fuel (str_drop (stop + 2) after); Ok (str_take start rest +:+ v +:+ r)
              end
          end
      end
  end.
(** An engine that knows calls of [json_pointer] only. *)
#[local] Instance pointer_engine : TemplateEngine := {|
  tmpl_parse := fun _ text => match run_template (fun _ => Ok "") (String.length text) text with Ok _ => None | Err e => Some e end;
  tmpl_execute := fun _ text funcs _ => run_template (json_pointer funcs) (String.length text) text;
|}.
Lemma run_template_calls call literals calls last : denotes literals calls ->
  actions_ok (prod_map Datatypes.id call_body <$> literals) last ->
  forall fuel, (String.length (actions_text (prod_map Datatypes.id call_body <$> literals) last) <= fuel)%nat ->
  run_template call fuel (actions_text (prod_map Datatypes.id call_body <$> literals) last) = run_calls call calls last.
Proof.
  intros Hd [Hc Hl]. induction Hd as [|[t l] [t' p] ls ps [E Hu] Hd IH]; intros fuel Hf.
  - destruct fuel as [|fuel]; [done|]. cbn. by rewrite index_of_no_byte.
  - apply Forall_cons in Hc as [[Ht Hb] Hc]. cbn in E, Hu, Ht, Hb. subst t'. set (rest := prod_map Datatypes.id call_body <$> ls) in *.
    change (prod_map Datatypes.id call_body <$> (t, l) :: ls) with ((t, call_body l) :: rest) in *.
    destruct (actions_text_first t (call_body l) rest last Ht Hb) as (E1 & E2 & E3 & E4 & E5).
    destruct fuel as [|fuel]; [cbn in Hf; rewrite !length_str_app in Hf; cbn in Hf; lia|].
    cbn [run_template]. rewrite E1, E3, E4. unfold call_body at 1 2. rewrite has_prefix_app.
    change 13 with (String.length "json_pointer "). rewrite str_drop_app, Hu. rewrite E5, E2. cbn [run_calls]. rewrite IH; [done|done|].
    cbn [actions_text] in Hf. rewrite !length_str_app in Hf. cbn in Hf. lia.
Qed.
Lemma pointer_engine_laws : TemplateEngineLaws.
Proof.
  split.
  - intros name literals calls last Hd Ho. cbn. rewrite (run_template_calls _ _ _ _ Hd Ho) by done.
    assert (forall calls, is_ok (run_calls (fun _ => Ok "") calls last) = true) as E.
    { clear. induction calls as [|[t a] calls IH]; [done|]. cbn. by destruct (run_calls _ _ _). }
    specialize (E calls). by destruct (run_calls _ _ _).
  - intros name literals calls last funcs scope Hd Ho. cbn. by rewrite (run_template_calls _ _ _ _ Hd Ho).
Qed.
Lemma short_template_renders_witness (T : UnicodeTables := latin1_tables) :
  let scope : object := {[ "realm" := VString "corp"; "n" := VInt64 7 ]} in
  ok_opt (renderTemplateString "path" "/realms/{{ realm }}/items/{{/n}}/x" scope) = Some "/realms/corp/items/7/x".
Proof.
  intros scope. pose proof pointer_engine_laws as L.
  etransitivity; [apply (short_template_renders "path" [("/realms/", " realm "); ("/items/", "/n")] [("/realms/", "/realm"); ("/items/", "/n")] "/x" scope)|].
  - split; [|by vm_compute]. repeat constructor; by vm_compute.
  - repeat constructor; by vm_compute.
  - by vm_compute.
Defined.
