(* ===== verification/Externalize.v ===== *)
(** * Attributes kept in files of their own

    Models [src/internal/resourceexternalization/service.go]: taking the text of the
    externalized attributes of a payload out into artifacts, leaving placeholders
    ([Extract]), and reading it back ([Expand]). The code updates its clone of the payload
    in place; [assignPathValue] returns the payload as it is after the call.
    [fmt.Sprintf] with one text argument and the artifact reader are parameters. *)
From S2P Require Import Prelude GoText GoTextFacts Faults Value Pointer Metadata.

Record ResourceArtifact := { art_File : string; art_Content : string }.
Record ExtractResult := { e_Payload : value; Artifacts : list ResourceArtifact }.
Record externalizedTarget := { t_ConcretePath : list string; t_File : string; Placeholder : string; t_Value : value }.
Record pathMatch := { ConcretePath : list string; WildcardIndices : list nat; m_Value : value }.

Section externalize.
Context `{UnicodeTables}.

Fixpoint cloneValue (v : value) : result error value :=
  match v with
  | VMap m => r ← map_sequence (cloneValue <$> m); Ok (VMap r)
  | VList l => r ← sequence (map cloneValue l); Ok (VList r)
  | _ => Ok v
  end.
Definition parseArrayIndex (v : string) : option nat :=
  if v == "" then None
  else match parse_int64 v with
       | Some index => if (index <? 0)%Z then None else Some (Z.to_nat index)
       | None => None
       end.
Definition formatConcreteAttributePath (path : list string) : string := JSONPointerFromTokens path.
Definition wrapPathError (path action : string) (err : error) : error :=
  Invalid (action +:+ " at externalized attribute " +:+ path) (Some err).

Fixpoint collectPathMatches (path : list string) (current : value) (concretePath : list string) (wildcardIndices : list nat)
    : result error (list pathMatch) :=
  match path with
  | [] => Ok [{| ConcretePath := concretePath; WildcardIndices := wildcardIndices; m_Value := current |}]
  | segment :: path =>
      match current with
      | VMap typed =>
          match typed !! segment with
          | None => Ok []
          | Some child => collectPathMatches path child (concretePath ++ [segment]) wildcardIndices
          end
      | VList typed =>
          if segment == "*" then
            matches ← sequence (imap (fun idx item => collectPathMatches path item (concretePath ++ [itoa (Z.of_nat idx)])
                                                        (wildcardIndices ++ [idx])) typed);
            Ok (concat matches)
          else
            match parseArrayIndex segment with
            | None => Err (Invalid ("externalized attribute path " +:+ formatConcreteAttributePath concretePath +:+ " must use "
                                    +:+ quote "*" +:+ " or a numeric index before segment " +:+ quote segment) None)
            | Some index =>
                match typed !! index with
                | None => Ok []
                | Some item => collectPathMatches path item (concretePath ++ [itoa (Z.of_nat index)]) wildcardIndices
                end
            end
      | _ => Err (Invalid ("externalized attribute path " +:+ formatConcreteAttributePath concretePath
                           +:+ " crosses a non-traversable value before segment " +:+ quote segment) None)
      end
  end.
Definition resolvePathMatches (v : value) (pointer : string) : result error (list pathMatch) :=
  tokens ← ParseJSONPointer pointer;
  match tokens with [] => Ok [] | _ => collectPathMatches tokens v [] [] end.

(** [assignPathValue]; [walked] is the part of the path already followed. *)
Fixpoint assign_from (walked path : list string) (v replacement : value) : result error value :=
  match path with
  | [] => Err (Invalid "externalized attribute path must not be empty" None)
  | [lastSegment] =>
      match v with
      | VMap typed => Ok (VMap (<[lastSegment := replacement]> typed))
      | VList typed =>
          match parseArrayIndex lastSegment with
          | Some index =>
              if (length typed <=? index)%nat then
                Err (Invalid ("externalized attribute path " +:+ formatConcreteAttributePath (walked ++ [lastSegment]) +:+ " is missing") None)
              else Ok (VList (<[index := replacement]> typed))
          | None => Err (Invalid ("externalized attribute path " +:+ formatConcreteAttributePath (walked ++ [lastSegment]) +:+ " is missing") None)
          end
      | _ => Err (Invalid ("externalized attribute path " +:+ formatConcreteAttributePath walked +:+ " crosses a non-object value") None)
      end
  | segment :: path =>
      let here := walked ++ [segment] in
      match v with
      | VMap typed =>
          match typed !! segment with
          | None => Err (Invalid ("externalized attribute path " +:+ formatConcreteAttributePath here +:+ " is missing") None)
          | Some next => next ← assign_from here path next replacement; Ok (VMap (<[segment := next]> typed))
          end
      | VList typed =>
          match parseArrayIndex segment with
          | Some index =>
              match typed !! index with
              | None => Err (Invalid ("externalized attribute path " +:+ formatConcreteAttributePath here +:+ " is missing") None)
              | Some next => next ← assign_from here path next replacement; Ok (VList (<[index := next]> typed))
              end
          | None => Err (Invalid ("externalized attribute path " +:+ formatConcreteAttributePath here +:+ " is missing") None)
          end
      | _ => Err (Invalid ("externalized attribute path " +:+ formatConcreteAttributePath here +:+ " crosses a non-object value") None)
      end
  end.
Definition assignPathValue (v : value) (path : list string) (replacement : value) : result error value :=
  assign_from [] path v replacement.

Definition resolveArtifactFile (base : string) (wildcardIndices : list nat) : string :=
  match wildcardIndices with
  | [] => base
  | _ =>
      let dir := path_dir base in
      let name := path_base base in
      let ext := path_ext name in
      let stem := trim_suffix name ext in
      let '(stem, ext) := if stem == "" then (name, "") else (stem, ext) in
      let built := stem +:+ str_join "" (map (fun idx => "-" +:+ itoa (Z.of_nat idx)) wildcardIndices) +:+ ext in
      if dir == "." then built else path_join [dir; built]
  end.

Variable sprintf : string -> string -> string.

(** The loops of [resolveExternalizedTargets]: over the matches of an entry, then over
    the entries; the state is the two sets of what was seen. *)
Definition concrete_key (path : list string) : string := str_join (String "000" "") path.
Fixpoint target_matches (entry : ResolvedExternalizedAttribute) (matches : list pathMatch) (seen : gset string * gset string)
    : result error (list externalizedTarget * (gset string * gset string)) :=
  match matches with
  | [] => Ok ([], seen)
  | found :: matches =>
      let concreteKey := concrete_key (ConcretePath found) in
      if bool_decide (concreteKey ∈ fst seen) then
        Err (Invalid ("externalized attribute " +:+ r_Path entry +:+ " resolves duplicate concrete path "
                      +:+ formatConcreteAttributePath (ConcretePath found)) None)
      else
        let file := resolveArtifactFile (r_File entry) (WildcardIndices found) in
        if bool_decide (file ∈ snd seen) then
          Err (Invalid ("externalized attribute " +:+ r_Path entry +:+ " resolves duplicate artifact file " +:+ quote file) None)
        else
          '(targets, seen) ← target_matches entry matches ({[concreteKey]} ∪ fst seen, {[file]} ∪ snd seen);
          Ok ({| t_ConcretePath := ConcretePath found; t_File := file; Placeholder := sprintf (r_Template entry) file;
                 t_Value := m_Value found |} :: targets, seen)
  end.
Fixpoint target_entries (v : value) (entries : list ResolvedExternalizedAttribute) (seen : gset string * gset string)
    : result error (list externalizedTarget) :=
  match entries with
  | [] => Ok []
  | entry :: entries =>
      matches ← map_err (wrapPathError (r_Path entry) "resolve externalized attribute") (resolvePathMatches v (r_Path entry));
      '(targets, seen) ← target_matches entry matches seen;
      rest ← target_entries v entries seen;
      Ok (targets ++ rest)
  end.
Definition resolveExternalizedTargets (v : value) (entries : list ResolvedExternalizedAttribute) : result error (list externalizedTarget) :=
  target_entries v entries (∅, ∅).

Fixpoint extract_targets (cloned : value) (targets : list externalizedTarget) : result error (value * list ResourceArtifact) :=
  match targets with
  | [] => Ok (cloned, [])
  | target :: targets =>
      match t_Value target with
      | VString textValue =>
          cloned ← map_err (wrapPathError (formatConcreteAttributePath (t_ConcretePath target)) "replace externalized attribute placeholder")
                     (assignPathValue cloned (t_ConcretePath target) (VString (Placeholder target)));
          '(cloned, artifacts) ← extract_targets cloned targets;
          Ok (cloned, {| art_File := t_File target; art_Content := textValue |} :: artifacts)
      | _ => Err (Invalid ("externalized attribute " +:+ formatConcreteAttributePath (t_ConcretePath target) +:+ " must be a string value") None)
      end
  end.
Definition Extract (v : value) (entries : list ResolvedExternalizedAttribute) : result error ExtractResult :=
  normalized ← Normalize v;
  match entries with
  | [] => Ok {| e_Payload := normalized; Artifacts := [] |}
  | _ =>
      cloned ← cloneValue normalized;
      targets ← resolveExternalizedTargets cloned entries;
      '(cloned, artifacts) ← extract_targets cloned targets;
      payload ← Normalize cloned;
      Ok {| e_Payload := payload; Artifacts := artifacts |}
  end.

(** The reader is nil when the repository keeps no artifacts. *)
Definition read_artifact (reader : option (string -> string -> result error string)) (logicalPath : string)
    (target : externalizedTarget) : result error string :=
  let name := formatConcreteAttributePath (t_ConcretePath target) in
  match reader with
  | None => Err (Invalid ("externalized attribute " +:+ name +:+ " requires a configured repository artifact reader") None)
  | Some read =>
      match read logicalPath (t_File target) with
      | Ok content => Ok content
      | Err err =>
          if IsCategory (Some err) NotFoundError then
            Err (Invalid ("externalized attribute " +:+ name +:+ " references missing file " +:+ quote (t_File target)) (Some err))
          else Err err
      end
  end.
Fixpoint expand_targets (reader : option (string -> string -> result error string)) (logicalPath : string) (cloned : value)
    (targets : list externalizedTarget) : result error value :=
  match targets with
  | [] => Ok cloned
  | target :: targets =>
      match t_Value target with
      | VString textValue =>
          if negb (textValue == Placeholder target) then expand_targets reader logicalPath cloned targets
          else
            content ← read_artifact reader logicalPath target;
            cloned ← map_err (wrapPathError (formatConcreteAttributePath (t_ConcretePath target)) "expand externalized attribute")
                       (assignPathValue cloned (t_ConcretePath target) (VString content));
            expand_targets reader logicalPath cloned targets
      | _ => expand_targets reader logicalPath cloned targets
      end
  end.
Definition Expand (reader : option (string -> string -> result error string)) (logicalPath : string) (v : value)
    (entries : list ResolvedExternalizedAttribute) : result error value :=
  normalized ← Normalize v;
  match entries with
  | [] => Ok normalized
  | _ =>
      cloned ← cloneValue normalized;
      targets ← resolveExternalizedTargets cloned entries;
      cloned ← expand_targets reader logicalPath cloned targets;
      Normalize cloned
  end.
End externalize.

(** ** Places of a payload

    [at_path v p x]: following [p] in [v], list positions being written in decimal, leads
    to [x]. *)
Inductive at_path : value -> list string -> value -> Prop :=
| at_here v : at_path v [] v
| at_key m k v p x : m !! k = Some v -> at_path v p x -> at_path (VMap m) (k :: p) x
| at_index l i v p x : l !! i = Some v -> at_path v p x -> at_path (VList l) (itoa (Z.of_nat i) :: p) x.
(** Every slice has fewer elements than [int] has values. *)
Definition fits_memory (v : value) : Prop := (Z.of_nat (value_size v) <= max_int64)%Z.

Lemma fits_key m k v : fits_memory (VMap m) -> m !! k = Some v -> fits_memory v.
Proof. unfold fits_memory. cbn [value_size]. intros Hf Hv%map_fold_size_lookup. lia. Qed.
Lemma fits_index l i v : fits_memory (VList l) -> l !! i = Some v -> fits_memory v.
Proof. unfold fits_memory. cbn [value_size]. intros Hf Hv%list_elem_of_lookup_2%sum_list_size_elem. lia. Qed.
Lemma size_positive v : (1 <= value_size v)%nat.
Proof. destruct v; cbn; lia. Qed.
Lemma index_lt_size l i v : l !! i = Some v -> (i < sum_list_with value_size l)%nat.
Proof.
  revert i. induction l as [|w l IH]; intros i Hi; [done|]. cbn [sum_list_with]. pose proof (size_positive w).
  destruct i as [|i]; [lia|]. apply IH in Hi. lia.
Qed.
Lemma parseArrayIndex_itoa l i v : fits_memory (VList l) -> l !! i = Some v -> parseArrayIndex (itoa (Z.of_nat i)) = Some i.
Proof.
  unfold fits_memory. cbn [value_size]. intros Hf Hi. apply index_lt_size in Hi. unfold parseArrayIndex.
  rewrite parse_int64_itoa by lia. case_bool_decide as E.
  - unfold itoa, dec_fuel in E. assert ((Z.of_nat i <? 0)%Z = false) as Hn by lia. rewrite Hn in E.
    destruct (dec_digits_head (Z.to_nat (Z.log2 (Z.of_nat i))) (Z.of_nat i) "") as (? & ? & E' & _); [lia|]. by rewrite E' in E.
  - assert ((Z.of_nat i <? 0)%Z = false) as -> by lia. by rewrite Nat2Z.id.
Qed.

Lemma at_path_functional v p x : at_path v p x -> forall y, fits_memory v -> at_path v p y -> x = y.
Proof.
  induction 1 as [v|m k v p x Hk _ IH|l i v p x Hi _ IH]; intros y Hf Hy.
  - by inversion Hy.
  - inversion Hy as [|? ? w ? ? Hw Hy'|]; subst. assert (w = v) as -> by congruence. apply IH; [by eapply fits_key|done].
  - inversion Hy as [| |? j w ? ? Hw Hy' E]; subst. assert (i = j) as ->.
    { pose proof (parseArrayIndex_itoa _ _ _ Hf Hi). pose proof (parseArrayIndex_itoa _ _ _ Hf Hw). congruence. }
    assert (w = v) as -> by congruence. apply IH; [by eapply fits_index|done].
Qed.

(** The payload with the text of a place replaced. *)
Fixpoint set_text (p : list string) (s : string) (v : value) : value :=
  match p with
  | [] => VString s
  | k :: p =>
      match v with
      | VMap m => VMap (alter (set_text p s) k m)
      | VList l => match parseArrayIndex k with Some i => VList (alter (set_text p s) i l) | None => v end
      | _ => v
      end
  end.
Lemma set_key m k v p s : m !! k = Some v -> set_text (k :: p) s (VMap m) = VMap (<[k := set_text p s v]> m).
Proof.
  intros Hk. cbn [set_text]. f_equal. apply map_eq. intros j. destruct (decide (j = k)) as [->|].
  - by rewrite lookup_insert_eq, lookup_alter_eq, Hk.
  - by rewrite lookup_insert_ne, lookup_alter_ne.
Qed.
Lemma set_index l k i v p s : parseArrayIndex k = Some i -> l !! i = Some v ->
  set_text (k :: p) s (VList l) = VList (<[i := set_text p s v]> l).
Proof.
  intros Hx Hi. cbn [set_text]. rewrite Hx. f_equal. apply list_eq. intros j. destruct (decide (j = i)) as [->|].
  - rewrite list_lookup_alter_eq, Hi, list_lookup_insert_eq; [done|by eapply lookup_lt_Some].
  - by rewrite list_lookup_alter_ne, list_lookup_insert_ne.
Qed.
Lemma assign_set_text v p old : at_path v p old -> forall walked s, p <> [] -> fits_memory v ->
  assign_from walked p v (VString s) = Ok (set_text p s v).
Proof.
  induction 1 as [v|m k v p x Hk Hp IH|l i v p x Hi Hp IH]; intros walked s Hne Hf; [done| |].
  - rewrite (set_key _ _ v) by done. destruct p as [|k' p]; [done|].
    cbn [assign_from]. rewrite Hk. cbn [assign_from] in IH. rewrite IH by (done || by eapply fits_key). done.
  - assert (Hx := parseArrayIndex_itoa _ _ _ Hf Hi). rewrite (set_index _ _ i v) by done. destruct p as [|k' p].
    + cbn [assign_from]. rewrite Hx. assert ((length l <=? i)%nat = false) as ->; [|done].
      apply Nat.leb_gt. by eapply lookup_lt_Some.
    + cbn [assign_from]. rewrite Hx, Hi. cbn [assign_from] in IH. rewrite IH by (done || by eapply fits_index). done.
Qed.
Lemma set_text_same v p old s : at_path v p old -> fits_memory v -> at_path (set_text p s v) p (VString s).
Proof.
  induction 1 as [v|m k v p x Hk Hp IH|l i v p x Hi Hp IH]; intros Hf; [constructor| |].
  - rewrite (set_key _ _ v) by done. eapply at_key; [apply lookup_insert_eq|]. apply IH. by eapply fits_key.
  - rewrite (set_index _ _ i v) by (done || by eapply parseArrayIndex_itoa). eapply at_index.
    + apply list_lookup_insert_eq. by eapply lookup_lt_Some.
    + apply IH. by eapply fits_index.
Qed.
(** Two places that hold texts are apart, and replacing one leaves the other. *)
Lemma set_text_other v p a : at_path v p (VString a) -> forall q b s, at_path v q (VString b) -> p <> q -> fits_memory v ->
  at_path (set_text p s v) q (VString b).
Proof.
  remember (VString a) as x eqn:Ex. induction 1 as [v|m k v p x Hk Hp IH|l i v p x Hi Hp IH]; intros q b s Hq Hne Hf; subst.
  - by inversion Hq; subst.
  - rewrite (set_key _ _ v) by done. inversion Hq as [|? k' w q' ? Hw Hq'|]; subst. destruct (decide (k' = k)) as [->|].
    + assert (w = v) as -> by congruence. eapply at_key; [apply lookup_insert_eq|].
      apply IH; [done|done|congruence|by eapply fits_key].
    + eapply at_key; [by rewrite lookup_insert_ne|done].
  - rewrite (set_index _ _ i v) by (done || by eapply parseArrayIndex_itoa).
    inversion Hq as [| |? j w q' ? Hw Hq']; subst. destruct (decide (j = i)) as [->|].
    + assert (w = v) as -> by congruence. eapply at_index.
      * apply list_lookup_insert_eq. by eapply lookup_lt_Some.
      * apply IH; [done|done|congruence|by eapply fits_index].
    + eapply at_index; [by rewrite list_lookup_insert_ne|done].
Qed.
Lemma set_text_set p s t v : set_text p s (set_text p t v) = set_text p s v.
Proof.
  revert v. induction p as [|k p IH]; intros v; [done|]. destruct v; try done.
  - cbn [set_text]. destruct (parseArrayIndex k) as [i|] eqn:E; cbn [set_text]; rewrite ?E; [|done]. f_equal.
    apply list_eq. intros j. destruct (decide (i = j)) as [->|].
    + rewrite !list_lookup_alter_eq. destruct (l !! j); cbn; [by rewrite IH|done].
    + by rewrite !list_lookup_alter_ne.
  - cbn [set_text]. f_equal. apply map_eq. intros j. destruct (decide (k = j)) as [->|].
    + rewrite !lookup_alter_eq. destruct (m !! j); cbn; [by rewrite IH|done].
    + by rewrite !lookup_alter_ne.
Qed.
Lemma set_text_self v p a : at_path v p (VString a) -> fits_memory v -> set_text p a v = v.
Proof.
  remember (VString a) as x eqn:Ex. induction 1 as [v|m k v p x Hk Hp IH|l i v p x Hi Hp IH]; intros Hf; subst; [done| |].
  - rewrite (set_key _ _ v), IH by (done || by eapply fits_key). f_equal. by apply insert_id.
  - rewrite (set_index _ _ i v), IH by (done || (by eapply fits_index) || by eapply parseArrayIndex_itoa).
    f_equal. by apply list_insert_id.
Qed.
Lemma set_text_comm v p a : at_path v p (VString a) -> forall q b s t, at_path v q (VString b) -> p <> q -> fits_memory v ->
  set_text p s (set_text q t v) = set_text q t (set_text p s v).
Proof.
  remember (VString a) as x eqn:Ex. induction 1 as [v|m k v p x Hk Hp IH|l i v p x Hi Hp IH]; intros q b s t Hq Hne Hf; subst.
  - by inversion Hq; subst.
  - inversion Hq as [|? k' w q' ? Hw Hq'|]; subst. rewrite (set_key m k v), (set_key m k' w) by done.
    destruct (decide (k' = k)) as [->|].
    + assert (w = v) as -> by congruence. erewrite !set_key by apply lookup_insert_eq. rewrite !insert_insert_eq.
      do 2 f_equal. eapply IH; [done|done|congruence|by eapply fits_key].
    + rewrite (set_key (<[k' := _]> m) k v), (set_key (<[k := _]> m) k' w) by (by rewrite lookup_insert_ne). f_equal. by apply insert_insert_ne.
  - inversion Hq as [| |? j w q' ? Hw Hq']; subst. assert (Hx := parseArrayIndex_itoa _ _ _ Hf Hi).
    assert (Hy := parseArrayIndex_itoa _ _ _ Hf Hw). rewrite (set_index l (itoa (Z.of_nat i)) i v), (set_index l (itoa (Z.of_nat j)) j w) by done.
    destruct (decide (j = i)) as [->|].
    + assert (w = v) as -> by congruence.
      erewrite !set_index by (exact Hx || (apply list_lookup_insert_eq; by eapply lookup_lt_Some)). rewrite !list_insert_insert_eq.
      do 2 f_equal. eapply IH; [done|done|congruence|by eapply fits_index].
    + rewrite (set_index (<[j := _]> l) (itoa (Z.of_nat i)) i v), (set_index (<[i := _]> l) (itoa (Z.of_nat j)) j w) by (done || by rewrite list_lookup_insert_ne).
      f_equal. by apply list_insert_insert_ne.
Qed.

Lemma map_fold_size_insert (m : object) k v w : m !! k = Some v -> value_size w = value_size v ->
  map_fold (fun _ v n => value_size v + n)%nat 0%nat (<[k := w]> m) = map_fold (fun _ v n => value_size v + n)%nat 0%nat m.
Proof.
  intros Hk Hs. rewrite (map_fold_delete_L _ _ k w (<[k := w]> m)), (map_fold_delete_L _ _ k v m);
    [|intros; lia|done|intros; lia|apply lookup_insert_eq]. by rewrite delete_insert_eq, Hs.
Qed.
Lemma sum_size_insert l : forall i v w, l !! i = Some v -> value_size w = value_size v ->
  sum_list_with value_size (<[i := w]> l) = sum_list_with value_size l.
Proof.
  induction l as [|x l IH]; intros i v w Hi Hs; [done|]. destruct i as [|i].
  - injection Hi as ->. cbn. by rewrite Hs.
  - change (sum_list_with value_size (x :: <[i := w]> l) = sum_list_with value_size (x :: l)). cbn [sum_list_with].
    by rewrite (IH i v w Hi Hs).
Qed.
(** Replacing a text changes neither the size, nor the normal form, nor the shape. *)
Fixpoint shape (v : value) : value :=
  match v with
  | VString _ => VString ""
  | VMap m => VMap (shape <$> m)
  | VList l => VList (map shape l)
  | _ => v
  end.
Lemma set_text_keeps v p a s : at_path v p (VString a) -> fits_memory v ->
  value_size (set_text p s v) = value_size v /\ shape (set_text p s v) = shape v /\ (normal v -> normal (set_text p s v)).
Proof.
  remember (VString a) as x eqn:Ex. induction 1 as [v|m k v p x Hk Hp IH|l i v p x Hi Hp IH]; intros Hf; subst.
  - split_and!; [done|done|constructor].
  - destruct IH as (H1 & H2 & H3); [done|by eapply fits_key|]. rewrite (set_key _ _ v) by done. cbn [value_size shape]. split_and!.
    + f_equal. by apply (map_fold_size_insert _ _ v).
    + f_equal. rewrite fmap_insert, H2, <-fmap_insert. by rewrite insert_id.
    + intros Hn%normal_map_inv. constructor. apply map_Forall_insert_2; [|done]. apply H3. by eapply Hn.
  - destruct IH as (H1 & H2 & H3); [done|by eapply fits_index|]. rewrite (set_index _ _ i v) by (done || by eapply parseArrayIndex_itoa).
    cbn [value_size shape]. split_and!.
    + f_equal. by apply (sum_size_insert _ _ v).
    + f_equal. change (map shape) with (fmap shape : list value -> list value). rewrite list_fmap_insert, H2, <-list_fmap_insert.
      by rewrite list_insert_id.
    + intros Hn%normal_list_inv. constructor. apply Forall_insert; [done|]. apply H3. by eapply Forall_lookup in Hn.
Qed.
Lemma set_text_fits v p a s : at_path v p (VString a) -> fits_memory v -> fits_memory (set_text p s v).
Proof. intros Ha Hf. unfold fits_memory. by destruct (set_text_keeps v p a s Ha Hf) as [-> _]. Qed.

(** ** Matches *)
Definition shape_match (m : pathMatch) : pathMatch :=
  {| ConcretePath := ConcretePath m; WildcardIndices := WildcardIndices m; m_Value := shape (m_Value m) |}.
Lemma sequence_imap_shape l : forall f h : nat -> value -> result error (list pathMatch),
  (forall i x, f i (shape x) = map shape_match <$> h i x) ->
  sequence (imap f (map shape l)) = map (map shape_match) <$> sequence (imap h l).
Proof.
  induction l as [|x l IH]; intros f h Hf; [done|]. cbn. rewrite Hf. destruct (h 0%nat x) as [a|]; [|done]. cbn.
  rewrite (IH (f ∘ S) (h ∘ S)) by (intros; apply Hf). by destruct (sequence _).
Qed.
Section matches.
Context `{UnicodeTables}.

Lemma collect_shape p : forall v c wi, collectPathMatches p (shape v) c wi = map shape_match <$> collectPathMatches p v c wi.
Proof.
  induction p as [|segment p IH]; intros v c wi; [done|]. destruct v as [| | | | | | | | | | | |l|m| | | |]; try done.
  - cbn [shape collectPathMatches]. case_bool_decide.
    + rewrite (sequence_imap_shape l _ (fun i x => collectPathMatches p x (c ++ [itoa (Z.of_nat i)]) (wi ++ [i])))
        by (intros; apply IH).
      destruct (sequence _) as [mss|]; [|done]. cbn. by rewrite concat_map.
    + destruct (parseArrayIndex segment) as [i|]; [|done]. change (map shape l) with (shape <$> l). rewrite list_lookup_fmap.
      destruct (l !! i) as [v|]; [|done]. apply IH.
  - cbn [shape collectPathMatches]. rewrite lookup_fmap. destruct (m !! segment) as [v|]; [|done]. apply IH.
Qed.
Lemma collect_places p : forall v c wi ms found, collectPathMatches p v c wi = Ok ms -> found ∈ ms ->
  exists suffix, ConcretePath found = c ++ suffix /\ at_path v suffix (m_Value found) /\ (p <> [] -> suffix <> []).
Proof.
  induction p as [|segment p IH]; intros v c wi ms found Hc Hm.
  - injection Hc as <-. apply list_elem_of_singleton in Hm as ->. exists []. rewrite app_nil_r. split_and!; [done|constructor|done].
  - destruct v as [| | | | | | | | | | | |l|m| | | |]; try discriminate Hc; cbn [collectPathMatches] in Hc.
    + case_bool_decide.
      * apply bind_Ok in Hc as (mss & Hs & [= <-]). apply sequence_Ok in Hs.
        apply list_elem_of_In, in_concat in Hm as (k & Hk & Hm%list_elem_of_In). apply list_elem_of_In, list_elem_of_lookup in Hk as [i Hi].
        eapply Forall2_lookup_r in Hs as (r & Hr & ->); [|exact Hi]. rewrite list_lookup_imap in Hr.
        destruct (l !! i) as [v|] eqn:Ev; [|done]. injection Hr as Hr. eapply IH in Hr as (suffix & E & Ha & _); [|exact Hm].
        exists (itoa (Z.of_nat i) :: suffix). rewrite E, <-app_assoc. split_and!; [done|by eapply at_index|done].
      * destruct (parseArrayIndex segment) as [i|]; [|done]. destruct (l !! i) as [v|] eqn:Ev; [|injection Hc as <-; by apply not_elem_of_nil in Hm].
        eapply IH in Hc as (suffix & E & Ha & _); [|exact Hm].
        exists (itoa (Z.of_nat i) :: suffix). rewrite E, <-app_assoc. split_and!; [done|by eapply at_index|done].
    + destruct (m !! segment) as [v|] eqn:Ev; [|injection Hc as <-; by apply not_elem_of_nil in Hm].
      eapply IH in Hc as (suffix & E & Ha & _); [|exact Hm].
      exists (segment :: suffix). rewrite E, <-app_assoc. split_and!; [done|by eapply at_key|done].
Qed.

Variable sprintf : string -> string -> string.
Local Abbreviation target_entries := (target_entries sprintf).
Local Abbreviation target_matches := (target_matches sprintf).

(** ** Targets *)
Definition shape_target (t : externalizedTarget) : externalizedTarget :=
  {| t_ConcretePath := t_ConcretePath t; t_File := t_File t; Placeholder := Placeholder t; t_Value := shape (t_Value t) |}.
Lemma target_matches_shape entry ms : forall seen, target_matches entry (map shape_match ms) seen =
  (fun '(ts, seen) => (map shape_target ts, seen)) <$> target_matches entry ms seen.
Proof.
  induction ms as [|m ms IH]; intros seen; [done|]. cbn. destruct (bool_decide _); [done|]. destruct (bool_decide _); [done|].
  rewrite IH. by destruct (target_matches entry ms _) as [[ts seen']|].
Qed.
Lemma target_entries_shape v es : forall seen, target_entries (shape v) es seen = map shape_target <$> target_entries v es seen.
Proof.
  induction es as [|e es IH]; intros seen; [done|]. cbn.
  assert (resolvePathMatches (shape v) (r_Path e) = map shape_match <$> resolvePathMatches v (r_Path e)) as ->.
  { unfold resolvePathMatches. destruct (ParseJSONPointer _) as [[|t ts]|]; [done| |done]. apply collect_shape. }
  destruct (resolvePathMatches v (r_Path e)) as [ms|]; [|done]. cbn. rewrite target_matches_shape.
  destruct (target_matches e ms seen) as [[ts seen']|]; [|done]. cbn. rewrite IH.
  destruct (target_entries v es seen'); [|done]. cbn. by rewrite map_app.
Qed.

Definition target_keys (ts : list externalizedTarget) : list string := concrete_key ∘ t_ConcretePath <$> ts.
(** What is known of targets beyond those already seen. *)
Definition fresh_targets (seen : gset string * gset string) (ts : list externalizedTarget) : Prop :=
  NoDup (target_keys ts) /\ NoDup (t_File <$> ts)
  /\ forall t, t ∈ ts -> concrete_key (t_ConcretePath t) ∉ fst seen /\ t_File t ∉ snd seen.
Lemma fresh_targets_app seen seen' ts us :
  fresh_targets seen ts -> fresh_targets seen' us ->
  (forall x, x ∈ fst seen' <-> x ∈ fst seen \/ x ∈ target_keys ts) -> (forall x, x ∈ snd seen' <-> x ∈ snd seen \/ x ∈ t_File <$> ts) ->
  fresh_targets seen (ts ++ us).
Proof.
  intros (H1 & H2 & H3) (H4 & H5 & H6) Hk Hf. unfold fresh_targets, target_keys in *. rewrite !fmap_app. split_and!.
  - apply NoDup_app. split_and!; [done| |done]. intros x Hx (u & -> & Hu)%list_elem_of_fmap.
    apply H6 in Hu as [Hu _]. apply Hu, Hk. by right.
  - apply NoDup_app. split_and!; [done| |done]. intros x Hx (u & -> & Hu)%list_elem_of_fmap.
    apply H6 in Hu as [_ Hu]. apply Hu, Hf. by right.
  - intros t [Ht|Ht]%elem_of_app; [by apply H3|]. apply H6 in Ht as [Ha Hb].
    split; [intros Hx; apply Ha, Hk; by left|intros Hx; apply Hb, Hf; by left].
Qed.
Lemma target_matches_spec entry ms : forall seen ts seen', target_matches entry ms seen = Ok (ts, seen') ->
  fresh_targets seen ts
  /\ (forall x, x ∈ fst seen' <-> x ∈ fst seen \/ x ∈ target_keys ts) /\ (forall x, x ∈ snd seen' <-> x ∈ snd seen \/ x ∈ t_File <$> ts)
  /\ forall t, t ∈ ts -> exists m, m ∈ ms /\ t_ConcretePath t = ConcretePath m /\ t_Value t = m_Value m.
Proof.
  induction ms as [|m ms IH]; intros seen ts seen'; cbn.
  - intros [= <- <-]. split_and!; [split_and!; [constructor..|by intros ? ?%not_elem_of_nil]| | |by intros ? ?%not_elem_of_nil];
      intros x; split; [by left|intros [?|?%not_elem_of_nil]; done|by left|intros [?|?%not_elem_of_nil]; done].
  - case_bool_decide as Hk; [done|]. case_bool_decide as Hf; [done|].
    intros ([ts' seen''] & Hr & [= <- <-])%bind_Ok. apply IH in Hr as ((N1 & N2 & N3) & Hk' & Hf' & Hm). cbn [fst snd] in *.
    split_and!.
    + split_and!; cbn; [apply NoDup_cons|apply NoDup_cons|].
      * split; [|done]. intros (t & E & Ht)%list_elem_of_fmap. apply N3 in Ht as [Ht _]. apply Ht. cbn in E. rewrite <-E. set_solver.
      * split; [|done]. intros (t & E & Ht)%list_elem_of_fmap. apply N3 in Ht as [_ Ht]. apply Ht. rewrite <-E. set_solver.
      * intros t [->|Ht]%elem_of_cons; [done|]. apply N3 in Ht as [Ha Hb]. set_solver.
    + intros x. rewrite Hk'. cbn. rewrite elem_of_union, elem_of_singleton, elem_of_cons. cbn. tauto.
    + intros x. rewrite Hf'. cbn. rewrite elem_of_union, elem_of_singleton, elem_of_cons. cbn. tauto.
    + intros t [->|Ht]%elem_of_cons; [by exists m; split; [apply list_elem_of_here|]|].
      apply Hm in Ht as (m' & ? & ?). exists m'. split; [by apply list_elem_of_further|done].
Qed.
Lemma target_entries_spec v es : forall seen ts, target_entries v es seen = Ok ts ->
  fresh_targets seen ts /\ Forall (fun t => at_path v (t_ConcretePath t) (t_Value t) /\ t_ConcretePath t <> []) ts.
Proof.
  induction es as [|e es IH]; intros seen ts; cbn.
  - intros [= <-]. split; [split_and!; [constructor..|by intros ? ?%not_elem_of_nil]|constructor].
  - intros (ms & Hms%map_err_Ok & Hrest)%bind_Ok. apply bind_Ok in Hrest as ([ts1 seen'] & Ht & Hrest). apply bind_Ok in Hrest as (ts2 & Hr & [= <-]).
    apply target_matches_spec in Ht as (Hfresh & Hk & Hf & Hm). apply IH in Hr as [Hfresh' Hall].
    split; [by eapply fresh_targets_app|]. apply Forall_app. split; [|done]. apply Forall_forall.
    intros t Hin. apply Hm in Hin as (m & Hin & -> & ->). unfold resolvePathMatches in Hms.
    apply bind_Ok in Hms as ([|tok toks] & _ & Hms); [injection Hms as <-; by apply not_elem_of_nil in Hin|].
    eapply collect_places in Hms as (suffix & -> & Ha & Hne); [|exact Hin]. split; [exact Ha|by apply Hne].
Qed.

(** ** Filling places *)
Definition fill (v : value) (texts : list (list string * string)) : value := foldl (fun v '(p, s) => set_text p s v) v texts.
Definition text_places (v : value) (ps : list (list string)) : Prop :=
  fits_memory v /\ NoDup ps /\ Forall (fun p => p <> [] /\ exists a, at_path v p (VString a)) ps.

Lemma text_places_set v p ps s : text_places v (p :: ps) -> text_places (set_text p s v) (p :: ps).
Proof.
  intros (Hf & Hn & Hall). destruct (Forall_cons_1 _ _ _ Hall) as [[_ (a & Ha)] Hps].
  split; [by eapply set_text_fits|]. split; [done|]. constructor.
  - split; [by apply Forall_cons in Hall as [[? _] _]|]. exists s. by eapply set_text_same.
  - apply NoDup_cons in Hn as [Hn _]. rewrite Forall_forall in Hps |- *. intros q Hq.
    destruct (Hps q Hq) as [Hne (b & Hb)]. split; [done|]. exists b. eapply set_text_other; [exact Ha|exact Hb|by intros ->|done].
Qed.
Lemma text_places_tail v p ps : text_places v (p :: ps) -> text_places v ps.
Proof. intros (Hf & Hn & Hall). apply NoDup_cons in Hn as [_ Hn]. apply Forall_cons in Hall as [_ Hall]. by split_and!. Qed.
Lemma text_places_perm v ps qs : ps ≡ₚ qs -> text_places v ps -> text_places v qs.
Proof. intros Hp (Hf & Hn & Hall). split_and!; [done|by rewrite <-Hp|by rewrite <-Hp]. Qed.
Lemma text_places_set_second v p q ps s : text_places v (p :: q :: ps) -> text_places (set_text q s v) (p :: ps).
Proof.
  intros Hp. apply (text_places_perm _ _ (q :: p :: ps)) in Hp; [|apply Permutation_swap].
  by eapply text_places_tail, text_places_set.
Qed.
Lemma fill_other texts : forall v p a, text_places v (p :: texts.*1) -> at_path v p (VString a) -> at_path (fill v texts) p (VString a).
Proof.
  induction texts as [|[q t] texts IH]; intros v p a Hp Ha; [done|]. cbn [fill foldl fmap list_fmap fst] in *. apply IH.
  - by eapply text_places_set_second.
  - destruct Hp as (Hf & Hn & Hall). apply Forall_cons in Hall as [_ Hall]. apply Forall_cons in Hall as [[_ (b & Hb)] _].
    eapply set_text_other; [exact Hb|exact Ha| |done]. apply NoDup_cons in Hn as [Hn _]. intros ->. apply Hn, list_elem_of_here.
Qed.
Lemma fill_comm texts : forall v p s, text_places v (p :: texts.*1) -> set_text p s (fill v texts) = fill (set_text p s v) texts.
Proof.
  induction texts as [|[q t] texts IH]; intros v p s Hp; [done|]. cbn [fill foldl fmap list_fmap] in *.
  fold (fill (set_text q t v) texts). rewrite IH by (by eapply text_places_set_second). f_equal.
  destruct Hp as (Hf & Hn & Hall). assert (p <> q) as Hpq by (apply NoDup_cons in Hn as [Hn _]; cbn in Hn; set_solver).
  apply Forall_cons in Hall as [[_ (a & Ha)] Hall]. apply Forall_cons in Hall as [[_ (b & Hb)] _].
  by eapply set_text_comm.
Qed.
(** Writing back the texts that were replaced gives the payload back. *)
Lemma fill_undo (ts : list (list string * (string * string))) : forall v,
  text_places v ts.*1 -> Forall (fun t => at_path v (fst t) (VString (fst (snd t)))) ts ->
  fill (fill v ((fun t => (fst t, snd (snd t))) <$> ts)) ((fun t => (fst t, fst (snd t))) <$> ts) = v.
Proof.
  induction ts as [|[p [a s]] ts IH]; intros v Hp Hat; [done|]. cbn [fmap list_fmap fill foldl fst snd] in *.
  fold (fill (set_text p s v) ((fun t => (fst t, snd (snd t))) <$> ts)).
  assert (text_places (set_text p s v) (p :: ((fun t => (fst t, snd (snd t))) <$> ts).*1)) as Hps.
  { rewrite <-list_fmap_compose. by apply text_places_set. }
  rewrite fill_comm by exact Hps. rewrite set_text_set.
  apply Forall_cons in Hat as [Ha Hat]. cbn in Ha. rewrite (set_text_self v p a) by (done || by destruct Hp).
  apply IH; [by eapply text_places_tail|done].
Qed.
Lemma fill_keeps texts : forall v, text_places v texts.*1 ->
  text_places (fill v texts) texts.*1 /\ shape (fill v texts) = shape v /\ (normal v -> normal (fill v texts))
  /\ Forall (fun '(p, s) => at_path (fill v texts) p (VString s)) texts.
Proof.
  induction texts as [|[p s] texts IH]; intros v Hp; [by split_and!|]. cbn [fill foldl fmap list_fmap fst] in *.
  fold (fill (set_text p s v) texts). assert (Hps := text_places_set _ _ _ s Hp).
  destruct (IH _ (text_places_tail _ _ _ Hps)) as (H1 & H2 & H3 & H4).
  destruct Hp as (Hf & Hn & Hall). apply Forall_cons in Hall as [[Hne (a & Ha)] Hall].
  destruct (set_text_keeps v p a s Ha Hf) as (_ & H5 & H6).
  assert (at_path (fill (set_text p s v) texts) p (VString s)) as Hat by (apply fill_other; [done|by eapply set_text_same]).
  split_and!.
  - split_and!; [by destruct H1 as [? _]|done|]. constructor; [split; [done|by exists s]|by destruct H1 as (_ & _ & ?)].
  - by rewrite H2.
  - auto.
  - by constructor.
Qed.

(** ** Round trip *)
Lemma cloneValue_id v : cloneValue v = Ok v.
Proof.
  value_ind v; try done; cbn.
  - replace (sequence _) with (Ok (E := error) l); [done|]. symmetry. apply sequence_map_Ok. by apply Forall_Forall2_diag.
  - replace (map_sequence _) with (Ok (E := error) m); [done|]. symmetry. apply map_sequence_Ok.
    intros k. rewrite lookup_fmap. destruct (m !! k) as [v|] eqn:E; [|done]. cbn. f_equal. by eapply IH.
Qed.
Definition target_text (t : externalizedTarget) : string := match t_Value t with VString s => s | _ => "" end.
Lemma extract_targets_texts ts : forall v w arts, extract_targets v ts = Ok (w, arts) ->
  Forall (fun t => t_Value t = VString (target_text t)) ts
  /\ arts = map (fun t => {| art_File := t_File t; art_Content := target_text t |}) ts.
Proof.
  induction ts as [|t ts IH]; intros v w arts; cbn [extract_targets].
  - intros [= _ <-]. by split; [constructor|].
  - destruct (t_Value t) as [| | | | | | | |s| | | | | | | | |] eqn:E; try done.
    intros (v' & _ & ([w' arts'] & Hr & [= <- <-])%bind_Ok)%bind_Ok. apply IH in Hr as [Hall ->].
    assert (target_text t = s) as Ht by (unfold target_text; by rewrite E). split; [constructor; [by rewrite Ht|done]|]. cbn. by rewrite Ht.
Qed.
Lemma extract_targets_fill ts : forall v, text_places v (t_ConcretePath <$> ts) -> Forall (fun t => t_Value t = VString (target_text t)) ts ->
  exists arts, extract_targets v ts = Ok (fill v ((fun t => (t_ConcretePath t, Placeholder t)) <$> ts), arts).
Proof.
  induction ts as [|t ts IH]; intros v Hp Hall; [by exists []|]. apply Forall_cons in Hall as [Ht Hall].
  cbn [extract_targets]. rewrite Ht. destruct Hp as (Hf & Hn & Hpl). assert (Hpl' := Hpl). apply Forall_cons in Hpl' as [[Hne (a & Ha)] _].
  unfold assignPathValue. erewrite assign_set_text by done. cbn [map_err mbind result_bind].
  destruct (IH (set_text (t_ConcretePath t) (Placeholder t) v)) as [arts Harts].
  { eapply text_places_tail, text_places_set. by split_and!. }
  { done. }
  rewrite Harts. cbn [mbind result_bind]. by eexists.
Qed.
Lemma expand_targets_fill read logicalPath ts contents : forall v,
  text_places v (t_ConcretePath <$> ts) -> Forall (fun t => t_Value t = VString (Placeholder t)) ts ->
  Forall2 (fun t content => read logicalPath (t_File t) = Ok content) ts contents ->
  expand_targets (Some read) logicalPath v ts = Ok (fill v (zip (t_ConcretePath <$> ts) contents)).
Proof.
  revert contents. induction ts as [|t ts IH]; intros contents v Hp Hall Hr; [done|].
  apply Forall2_cons_inv_l in Hr as (content & contents' & Hrt & Hr & ->). apply Forall_cons in Hall as [Ht Hall].
  cbn [expand_targets]. rewrite Ht, bool_decide_true by done. cbn [negb]. unfold read_artifact. rewrite Hrt.
  destruct Hp as (Hf & Hn & Hpl). assert (Hpl' := Hpl). apply Forall_cons in Hpl' as [[Hne (a & Ha)] _].
  cbn [mbind result_bind]. unfold assignPathValue. erewrite assign_set_text by done. cbn [map_err mbind result_bind].
  rewrite (IH contents'); [done| |done|done]. eapply text_places_tail, text_places_set. by split_and!.
Qed.

(** The targets of the payload with the placeholders in place. *)
Lemma targets_after_extract v es ts ts' : fits_memory v -> normal v ->
  resolveExternalizedTargets sprintf v es = Ok ts -> Forall (fun t => t_Value t = VString (target_text t)) ts ->
  let w := fill v ((fun t => (t_ConcretePath t, Placeholder t)) <$> ts) in
  text_places v (t_ConcretePath <$> ts) -> resolveExternalizedTargets sprintf w es = Ok ts' ->
  ts' = (fun t => {| t_ConcretePath := t_ConcretePath t; t_File := t_File t; Placeholder := Placeholder t; t_Value := VString (Placeholder t) |}) <$> ts.
Proof.
  intros Hf Hn Hts Hall w Hp Hts'. assert (((fun t => (t_ConcretePath t, Placeholder t)) <$> ts).*1 = t_ConcretePath <$> ts) as E1.
  { rewrite <-list_fmap_compose. done. }
  destruct (fill_keeps ((fun t => (t_ConcretePath t, Placeholder t)) <$> ts) v) as (Hpw & Hsh & _ & Hat); [by rewrite E1|].
  fold w in Hpw, Hsh, Hat. assert (map shape_target ts' = map shape_target ts) as Em.
  { pose proof (target_entries_shape w es (∅, ∅)) as Hw. pose proof (target_entries_shape v es (∅, ∅)) as Hv.
    unfold resolveExternalizedTargets in Hts, Hts'. rewrite Hts' in Hw. rewrite Hts in Hv. rewrite Hsh, Hv in Hw.
    cbn in Hw. congruence. }
  apply target_entries_spec in Hts' as [_ Hat']. destruct Hpw as [Hfw _]. clear Hsh Hp E1. clearbody w. clear Hts.
  revert ts' Em Hat'. induction ts as [|t ts IH]; intros [|t' ts'] Em Hat'; try done.
  cbn [map] in Em. injection Em as E2 E3 E4 E5 Em.
  apply Forall_cons in Hat' as [[Ha' _] Hat'], Hall as [_ Hall]. cbn in Hat. apply Forall_cons in Hat as [Ha Hat].
  cbn. f_equal; [|by apply IH]. destruct t'; cbn in *; subst. f_equal.
  eapply at_path_functional; [exact Ha'|done|exact Ha].
Qed.

Lemma targets_places v es ts : fits_memory v -> resolveExternalizedTargets sprintf v es = Ok ts ->
  Forall (fun t => t_Value t = VString (target_text t)) ts ->
  text_places v (t_ConcretePath <$> ts) /\ NoDup (t_File <$> ts) /\ Forall (fun t => at_path v (t_ConcretePath t) (VString (target_text t))) ts.
Proof.
  intros Hf Ht Htext. apply target_entries_spec in Ht as [(Hk & Hfiles & _) Hat]. rewrite Forall_forall in Hat, Htext. split_and!.
  - split; [done|]. split.
    + unfold target_keys in Hk. rewrite list_fmap_compose in Hk. by eapply NoDup_fmap_1.
    + apply Forall_forall. intros p (t & -> & Hin)%list_elem_of_fmap. destruct (Hat t Hin) as [Ha Hne]. split; [done|].
      exists (target_text t). by rewrite <-Htext.
  - done.
  - apply Forall_forall. intros t Hin. destruct (Hat t Hin) as [Ha _]. by rewrite <-Htext.
Qed.

(** The placeholders and the artifacts determine the payload. *)
Lemma extract_expand v entries r logicalPath w :
  wf_value v -> Normalize v = Ok w -> fits_memory w -> Extract sprintf v entries = Ok r ->
  NoDup (art_File <$> Artifacts r) /\ normal (e_Payload r) /\
  (forall read, (forall a, a ∈ Artifacts r -> read logicalPath (art_File a) = Ok (art_Content a)) ->
    Expand sprintf (Some read) logicalPath (e_Payload r) entries = Ok w).
Proof.
  intros Hwf Hw Hfit He. assert (normal w) as Hn by (by eapply normalizeValue_normal).
  unfold Extract in He. rewrite Hw in He. cbn [mbind result_bind] in He. destruct entries as [|e es].
  { injection He as <-. split_and!; [constructor|done|]. intros read _. unfold Expand. cbn. unfold Normalize. by rewrite normalizeValue_id. }
  rewrite cloneValue_id in He. cbn [mbind result_bind] in He. apply bind_Ok in He as (ts & Hts & He).
  apply bind_Ok in He as ([w' arts] & Hx & (p & Hp & [= <-])%bind_Ok). cbn [e_Payload Artifacts] in *.
  destruct (extract_targets_texts _ _ _ _ Hx) as [Htext ->]. destruct (targets_places _ _ _ Hfit Hts Htext) as (Hpl & Hfiles & Hat).
  split; [by rewrite <-list_fmap_compose|].
  destruct (extract_targets_fill ts w Hpl Htext) as [arts' Hx']. rewrite Hx in Hx'. injection Hx' as -> _.
  destruct (fill_keeps ((fun t => (t_ConcretePath t, Placeholder t)) <$> ts) w) as (Hpw & Hsh & Hnw & _);
    [by rewrite <-list_fmap_compose|].
  set (x := fill w _) in *. assert (normal x) as Hnx by auto. unfold Normalize in Hp. rewrite normalizeValue_id in Hp by done. injection Hp as <-.
  split; [done|]. intros read Hread.
  unfold Expand, Normalize. rewrite normalizeValue_id by done. cbn [mbind result_bind]. rewrite cloneValue_id. cbn [mbind result_bind].
  destruct (resolveExternalizedTargets sprintf x (e :: es)) as [ts'|] eqn:Hts'.
  2: { pose proof (target_entries_shape x (e :: es) (∅, ∅)) as H1. pose proof (target_entries_shape w (e :: es) (∅, ∅)) as H2.
       unfold resolveExternalizedTargets in *. rewrite Hts' in H1. rewrite Hts in H2. rewrite Hsh, H2 in H1. done. }
  rewrite (targets_after_extract w (e :: es) ts ts' Hfit Hn Hts Htext Hpl Hts').
  rewrite <-list_fmap_compose in Hpw. cbn [mbind result_bind].
  rewrite (expand_targets_fill _ _ _ (target_text <$> ts)); [|by rewrite <-list_fmap_compose|by apply Forall_fmap, Forall_forall|].
  2: { apply Forall2_fmap_2, Forall_Forall2_diag, Forall_forall. intros t Hin. cbn.
       apply (Hread {| art_File := t_File t; art_Content := target_text t |}). apply list_elem_of_fmap. by exists t. }
  cbn [mbind result_bind]. rewrite <-list_fmap_compose, zip_with_fmap_l, zip_with_fmap_r, zip_with_diag.
  subst x. pose proof (fill_undo ((fun t => (t_ConcretePath t, (target_text t, Placeholder t))) <$> ts) w) as Hu.
  rewrite <-!list_fmap_compose in Hu.
  match goal with |- context [fill (fill w ?l) ?k] => replace (fill (fill w l) k) with w; [by apply normalizeValue_id|] end.
  symmetry. apply Hu; [exact Hpl|]. by apply Forall_fmap.
Qed.
(** [C29] Externalized attributes come back: when [Extract] has taken the texts of a payload
    into artifacts, each in a file of its own, [Expand] with a reader that finds those
    artifacts returns the payload that was extracted, whatever the wildcards of the
    attributes, and whatever the template of the placeholders. *)
Theorem extract_expand_round_trip v entries r read logicalPath w :
  wf_value v -> Normalize v = Ok w -> fits_memory w -> Extract sprintf v entries = Ok r ->
  (forall a, a ∈ Artifacts r -> read logicalPath (art_File a) = Ok (art_Content a)) ->
  NoDup (art_File <$> Artifacts r) /\ Expand sprintf (Some read) logicalPath (e_Payload r) entries = Ok w.
Proof. intros Hwf Hw Hfit He Hread. destruct (extract_expand v entries r logicalPath w) as (? & _ & Hx); auto. Qed.

End matches.

(** ** A payload with two scripts *)
Definition percent_s (template file : string) : string := replace_all template "%s" file.
Definition scripts_entry : ResolvedExternalizedAttribute :=
  {| r_Path := "/steps/*/script"; r_File := "script.sh"; r_Template := DefaultExternalizedAttributeTemplate; r_Mode := "text";
     r_SaveBehavior := "externalize"; r_RenderBehavior := "include"; r_Enabled := true |}.
Definition scripts_payload (a b : string) : value :=
  VMap {[ "steps" := VList [VMap {[ "script" := VString a ]}; VMap {[ "script" := VString b ]}] ]}.
Definition scripts_read (_ file : string) : result error string :=
  if file == "script-0.sh" then Ok "echo a" else if file == "script-1.sh" then Ok "echo b" else Err (NotFound "no artifact" None).
Lemma extract_expand_round_trip_witness (T : UnicodeTables := latin1_tables) :
  Extract percent_s (scripts_payload "echo a" "echo b") [scripts_entry]
  = Ok {| e_Payload := scripts_payload "{{include script-0.sh}}" "{{include script-1.sh}}";
          Artifacts := [{| art_File := "script-0.sh"; art_Content := "echo a" |}; {| art_File := "script-1.sh"; art_Content := "echo b" |}] |}
  /\ Expand percent_s (Some scripts_read) "/jobs/x" (scripts_payload "{{include script-0.sh}}" "{{include script-1.sh}}") [scripts_entry]
     = Ok (scripts_payload "echo a" "echo b").
Proof.
  assert (Extract percent_s (scripts_payload "echo a" "echo b") [scripts_entry]
    = Ok {| e_Payload := scripts_payload "{{include script-0.sh}}" "{{include script-1.sh}}";
            Artifacts := [{| art_File := "script-0.sh"; art_Content := "echo a" |}; {| art_File := "script-1.sh"; art_Content := "echo b" |}] |})
    as E by (vm_compute; reflexivity).
  split; [exact E|].
  refine (proj2 (extract_expand_round_trip percent_s (scripts_payload "echo a" "echo b") [scripts_entry] _ scripts_read "/jobs/x"
    (scripts_payload "echo a" "echo b") _ _ _ E _)).
  - apply normal_wf, normalb_normal. vm_compute. reflexivity.
  - vm_compute. reflexivity.
  - unfold fits_memory. vm_compute. discriminate.
  - intros a Ha. cbn [Artifacts] in Ha.
    apply list_elem_of_In in Ha. destruct Ha as [<-|[<-|[]]]; reflexivity.
Defined.
