(* ===== verification/IdentityTemplate.v ===== *)
(** * Identity templates

    Models [src/metadata/identitytemplate/template.go]: templates that compute the
    alias and the remote id of a resource from its payload. A template is text with
    expressions between braces: a JSON pointer, a quoted literal or a helper applied to
    pointers and literals. [compile] parses it, [eval] evaluates a node to its text and
    the [missing] flag, and [Compile] is [compile] behind the process-wide cache. *)
From S2P Require Import Prelude GoText GoTextFacts GoFloat Faults Value Pointer.
Local Open Scope Z_scope.

Inductive expressionNode :=
| literalNode (value : string)
| pointerNode (pointer : string)
| helperNode (name : string) (args : list expressionNode).
Inductive templatePart :=
| literalPart (text : string)
| expressionPart (raw : string) (node : expressionNode).
Record Template := { t_raw : string; parts : list templatePart; pointers : list string; simplePointer : string }.
Record token := { text : string; quoted : bool }.

Definition PointerTemplate (pointer : string) : string := "{{" +:+ trim_space pointer +:+ "}}".
Definition Pointers (t : Template) : list string := pointers t.
Definition TemplateSimplePointer (t : Template) : option string :=
  if trim_space (simplePointer t) == "" then None else Some (simplePointer t).

(** ** Parsing *)
(** The closure of the collector, on the list it appends to. *)
Definition orderedPointerCollector (target : list string) (pointer : string) : list string :=
  let trimmed := trim_space pointer in
  if trimmed == "" then target else add_fresh target trimmed.

(** The state of the scan; [t_quote] is the rune of the open quote, if any. *)
Record scan_state := { tokens : list token; current : string; t_quote : option Z; t_quoted : bool; t_escaped : bool }.
Definition flush (st : scan_state) : scan_state :=
  if current st == "" then st
  else {| tokens := tokens st ++ [{| text := current st; quoted := t_quoted st |}]; current := "";
          t_quote := t_quote st; t_quoted := false; t_escaped := t_escaped st |}.
Definition write_rune (st : scan_state) (r : Z) : scan_state :=
  {| tokens := tokens st; current := current st +:+ encode_rune r; t_quote := t_quote st; t_quoted := t_quoted st;
     t_escaped := false |}.
Definition scan_rune (st : scan_state) (r : Z) : scan_state :=
  match t_quote st with
  | Some q =>
      if t_escaped st then write_rune st r
      else if r =? 92 then
        {| tokens := tokens st; current := current st; t_quote := Some q; t_quoted := t_quoted st; t_escaped := true |}
      else if r =? q then
        {| tokens := tokens st; current := current st; t_quote := None; t_quoted := t_quoted st; t_escaped := false |}
      else write_rune st r
  | None =>
      if (r =? 34) || (r =? 39) then
        {| tokens := tokens st; current := current st; t_quote := Some r; t_quoted := true; t_escaped := t_escaped st |}
      else if (r =? 32) || (r =? 9) || (r =? 10) || (r =? 13) then flush st
      else write_rune st r
  end.
Definition scan_start : scan_state :=
  {| tokens := []; current := ""; t_quote := None; t_quoted := false; t_escaped := false |}.
Definition tokenize (raw : string) : result error (list token) :=
  let st := foldl scan_rune scan_start (runes raw) in
  if t_escaped st || bool_decide (is_Some (t_quote st)) then
    Err (errorf "identity template contains an unterminated quoted string")
  else Ok (tokens (flush st)).

Definition normalizeHelperName (name : string) : string :=
  let name := trim_space name in
  if (name == "uppercase") || (name == "to_uppercase") then "uppercase"
  else if (name == "lowercase") || (name == "to_lowercase") then "lowercase"
  else name.
Definition isSupportedHelper (name : string) : bool :=
  bool_decide (name ∈ ["uppercase"; "lowercase"; "trim"; "substring"; "default"]).

Section parse.
Context `{UnicodeTables}.

Definition normalizePointerShorthand (raw : string) : string :=
  let trimmed := trim_space raw in
  if (trimmed == "") || contains trimmed "{{" then raw
  else if is_ok (ParseJSONPointer trimmed) then PointerTemplate trimmed else raw.

Definition helper_error (name rest : string) : error :=
  errorf ("identity template helper " +:+ quote name +:+ rest).
Definition validateHelperArity (name : string) (count : nat) : result error unit :=
  if bool_decide (name ∈ ["uppercase"; "lowercase"; "trim"]) then
    guard_err (negb (count =? 1)%nat) (helper_error name " expects exactly 1 argument")
  else if name == "substring" then
    guard_err (negb (count =? 2)%nat && negb (count =? 3)%nat) (helper_error name " expects 2 or 3 arguments")
  else if name == "default" then
    guard_err (count <? 2)%nat (helper_error name " expects at least 2 arguments")
  else Ok tt.

(** The pointer and [true], or the error and [false]. *)
Definition singleTokenPointer (item : token) : result error (string * bool) :=
  if quoted item then Ok ("", false)
  else
    let trimmed := trim_space (text item) in
    if has_prefix trimmed "/" then _ ← ParseJSONPointer trimmed; Ok (trimmed, true)
    else if is_identifier trimmed then Ok (JSONPointerForObjectKey trimmed, true)
    else Ok ("", false).
(** An argument of a helper; the callers look at the error only when the flag is set. *)
Definition parse_arg (item : token) : expressionNode :=
  match singleTokenPointer item with
  | Ok (pointer, true) => pointerNode pointer
  | _ => literalNode (text item)
  end.
Definition parseExpression (raw : string) : result error expressionNode :=
  tokens ← tokenize raw;
  match tokens with
  | [] => Err (errorf "identity template expression must not be empty")
  | [item] =>
      match singleTokenPointer item with
      | Ok (pointer, true) => Ok (pointerNode pointer)
      | _ => if quoted item then Ok (literalNode (text item))
             else Err (errorf ("identity template expression " +:+ quote raw +:+ " is not supported"))
      end
  | head :: rest =>
      let name := normalizeHelperName (text head) in
      if negb (isSupportedHelper name) then
        Err (helper_error (text head) " is not supported")
      else
        let args := map parse_arg rest in
        _ ← validateHelperArity name (length args); Ok (helperNode name args)
  end.

(** The pointers of a node, in order; [collectPointers] passes each to the collector. *)
Fixpoint node_pointers (n : expressionNode) : list string :=
  match n with
  | literalNode _ => []
  | pointerNode pointer => [pointer]
  | helperNode _ args => concat (map node_pointers args)
  end.
Definition part_pointers (p : templatePart) : list string :=
  match p with literalPart _ => [] | expressionPart _ node => node_pointers node end.
Definition collectPointers (target : list string) (p : templatePart) : list string :=
  foldl orderedPointerCollector target (part_pointers p).

(** The rounds of the loop on the rest of the source; every round consumes an
    expression, so the length of the source is enough fuel. *)
Fixpoint compile_parts (fuel : nat) (source : string) : result error (list templatePart) :=
  match fuel with
  | O => Ok []
  | S fuel =>
      match index_of source "{{" with
      | None => Ok (if source == "" then [] else [literalPart source])
      | Some start =>
          let literal := if (0 <? start)%nat then [literalPart (str_take start source)] else [] in
          let rest := str_drop (start + 2) source in
          match index_of rest "}}" with
          | None => Err (errorf "identity template contains an unterminated expression")
          | Some end_ =>
              let rawExpression := trim_space (str_take end_ rest) in
              if rawExpression == "" then Err (errorf "identity template contains an empty expression")
              else
                node ← parseExpression rawExpression;
                parts ← compile_parts fuel (str_drop (end_ + 2) rest);
                Ok (literal ++ expressionPart rawExpression node :: parts)
          end
      end
  end.
Definition simple_pointer_of (parts : list templatePart) : string :=
  match parts with [expressionPart _ (pointerNode pointer)] => pointer | _ => "" end.
Definition compile (raw : string) : result error Template :=
  let source := normalizePointerShorthand raw in
  parts ← compile_parts (S (String.length source)) source;
  Ok {| t_raw := raw; parts := parts; pointers := foldl collectPointers [] parts;
        simplePointer := simple_pointer_of parts |}.

(** The cache holds what each template compiled to. *)
Definition cacheEntry : Type := result error Template.
Definition Compile (cache : gmap string cacheEntry) (raw : string) : cacheEntry * gmap string cacheEntry :=
  match cache !! raw with
  | Some entry => (entry, cache)
  | None => let compiled := compile raw in (compiled, <[raw := compiled]> cache)
  end.
End parse.

(** ** Evaluation *)
Definition scalarString (v : value) : option string :=
  match v with
  | VString s | VNumber s | VOther _ (Some s) => Some (trim_space s)
  | VInt64 z | VIntK _ z | VUintK _ z => Some (itoa z)
  | VFloat32 f => Some (format_float32 f)
  | VFloat64 f => Some (format_float f)
  | VBool b => Some (if b then "true" else "false")
  | _ => None
  end.
Definition eval_pointer `{UnicodeTables} (payload : value) (pointer : string) : outcome (string * bool) :=
  found ← lift (LookupJSONPointer payload pointer);
  match found with
  | None | Some VNil => Ok ("", true)
  | Some v =>
      match scalarString v with
      | None => Err (Failed (errorf ("JSON pointer " +:+ quote pointer +:+ " resolved to a non-scalar value")))
      | Some text => if trim_space text == "" then Ok ("", true) else Ok (text, false)
      end
  end.

Section eval.
Context `{UnicodeTables}.
Implicit Types (helper : string) (index : Z).

(** The helpers' arguments, given the outcome of evaluating them. *)
Definition evalRequiredStringArg helper index (arg : outcome (string * bool)) : outcome string :=
  '(value, missing) ← arg;
  if missing || (trim_space value == "") then
    Err (Failed (errorf ("helper " +:+ quote helper +:+ " argument " +:+ itoa (index + 1) +:+ " did not resolve to a value")))
  else Ok value.
Definition evalRequiredIntArg helper index (arg : outcome (string * bool)) : outcome Z :=
  value ← evalRequiredStringArg helper index arg;
  match parse_int64 value with
  | None => Err (Failed (errorf ("helper " +:+ quote helper +:+ " argument " +:+ itoa (index + 1) +:+ " must be an integer")))
  | Some parsed => Ok parsed
  end.
(** [n.args[i]]: out of range is a panic. *)
Definition nth_arg {A} (args : list (outcome A)) (i : nat) : outcome A := default (Err Panic) (args !! i).

(** The end of the slice: the length of the value, or [start + length]. *)
Definition substring_end (start : Z) (runes_len : Z) (args : list (outcome (string * bool))) : outcome Z :=
  match args with
  | [_; _; arg] =>
      length ← evalRequiredIntArg "substring" 2 arg;
      if length <? 0 then
        Err (Failed (errorf ("helper " +:+ quote "substring" +:+ " length " +:+ itoa length +:+ " must not be negative")))
      else
        let end_ := wrap64 (start + length) in
        if runes_len <? end_ then
          Err (Failed (errorf ("helper " +:+ quote "substring" +:+ " range [" +:+ itoa start +:+ ":" +:+ itoa end_ +:+ "] is out of bounds")))
        else Ok end_
  | _ => Ok runes_len
  end.
Definition eval_substring (args : list (outcome (string * bool))) : outcome (string * bool) :=
  value ← evalRequiredStringArg "substring" 0 (nth_arg args 0);
  start ← evalRequiredIntArg "substring" 1 (nth_arg args 1);
  let chars := runes value in
  let len := Z.of_nat (length chars) in
  if (start <? 0) || (len <? start) then
    Err (Failed (errorf ("helper " +:+ quote "substring" +:+ " start index " +:+ itoa start +:+ " is out of range")))
  else
    end_ ← substring_end start len args;
    if (end_ <? start) || (len <? end_) then Err Panic
    else
      let rendered := string_of_runes (take (Z.to_nat (end_ - start)) (drop (Z.to_nat start) chars)) in
      if trim_space rendered == "" then Ok ("", true) else Ok (rendered, false).
(** The first argument with a value; the arguments after it are not evaluated. *)
Fixpoint eval_default (args : list (outcome (string * bool))) : outcome (string * bool) :=
  match args with
  | [] => Ok ("", true)
  | arg :: args =>
      '(value, missing) ← arg;
      if missing || (trim_space value == "") then eval_default args else Ok (value, false)
  end.
Definition eval_helper (name : string) (args : list (outcome (string * bool))) : outcome (string * bool) :=
  if name == "uppercase" then
    value ← evalRequiredStringArg name 0 (nth_arg args 0); Ok (to_upper value, false)
  else if name == "lowercase" then
    value ← evalRequiredStringArg name 0 (nth_arg args 0); Ok (to_lower value, false)
  else if name == "trim" then
    value ← evalRequiredStringArg name 0 (nth_arg args 0);
    let trimmed := trim_space value in
    if trimmed == "" then Ok ("", true) else Ok (trimmed, false)
  else if name == "substring" then eval_substring args
  else if name == "default" then eval_default args
  else Err (Failed (helper_error name " is not supported")).

Fixpoint eval (payload : value) (n : expressionNode) : outcome (string * bool) :=
  match n with
  | literalNode value => Ok (value, trim_space value == "")
  | pointerNode pointer => eval_pointer payload pointer
  | helperNode name args => eval_helper name (map (eval payload) args)
  end.

Definition render (payload : value) (p : templatePart) : outcome string :=
  match p with
  | literalPart text => Ok text
  | expressionPart raw node =>
      match eval payload node with
      | Err (Failed err) => Err (Failed (errorf_w ("identity template expression " +:+ quote raw +:+ " failed: ") err))
      | Err Panic => Err Panic
      | Ok (value, missing) =>
          if missing then Err (Failed (errorf ("identity template expression " +:+ quote raw +:+ " did not resolve to a value")))
          else Ok value
      end
  end.
Definition TemplateRender (t : Template) (payload : value) : outcome string :=
  str_join "" <$> sequence (map (render payload) (parts t)).

(** The package's entry points; the cache changes no result ([Compile_transparent]). *)
Definition Render (raw : string) (payload : value) : outcome string :=
  compiled ← lift (compile raw); TemplateRender compiled payload.
Definition ExtractPointers (raw : string) : result error (list string) :=
  compiled ← compile raw; Ok (Pointers compiled).
Definition SimplePointer (raw : string) : result error (option string) :=
  compiled ← compile raw; Ok (TemplateSimplePointer compiled).
End eval.

(** ** Facts on the cutting of the source *)
Lemma str_concat_cons s l : str_join "" (s :: l) = s +:+ str_join "" l.
Proof. destruct l; [by rewrite app_empty_r|done]. Qed.
Lemma str_concat_app l k : str_join "" (l ++ k) = str_join "" l +:+ str_join "" k.
Proof. induction l as [|s l IH]; [done|]. rewrite <-app_comm_cons, !str_concat_cons, IH. by rewrite str_app_assoc. Qed.
Section compiled.
Context `{UnicodeTables}.

(** What a part of a template was written as: a literal without an opening brace, or
    an expression between its braces, ended by the first closing brace. *)
Inductive spells : templatePart -> string -> Prop :=
| spells_literal t : t <> "" -> index_of t "{{" = None -> spells (literalPart t) t
| spells_expression w n :
    index_of w "}}" = None -> trim_space w <> "" -> parseExpression (trim_space w) = Ok n ->
    spells (expressionPart (trim_space w) n) ("{{" +:+ w +:+ "}}").

Lemma compile_parts_tiles fuel : forall source ps, (String.length source < fuel)%nat ->
  compile_parts fuel source = Ok ps ->
  exists texts, Forall2 spells ps texts /\ source = str_join "" texts.
Proof.
  induction fuel as [|fuel IH]; intros source ps Hf; [lia|]. cbn [compile_parts].
  destruct (index_of source "{{") as [start|] eqn:Es.
  2:{ intros [= <-]. case_bool_decide as E; [by exists []; subst|]. exists [source].
      split; [|done]. constructor; [by constructor|constructor]. }
  destruct (index_of _ "}}") as [end_|] eqn:Ee; [|done]. case_bool_decide as Er; [done|].
  intros (n & Hn & Hp)%bind_Ok. apply bind_Ok in Hp as (ps' & Hp & [= <-]).
  apply IH in Hp as (texts & H2 & Ht).
  2:{ apply length_index_rest in Es, Ee. cbn in Es, Ee. lia. }
  assert (Hs := index_of_Some _ _ _ Es). assert (Hr := index_of_Some _ _ _ Ee). cbn [String.length] in Hs, Hr.
  rewrite Ht in Hr.
  exists ((if (0 <? start)%nat then [str_take start source] else []) ++
     ("{{" +:+ str_take end_ (str_drop (start + 2) source) +:+ "}}") :: texts). split.
  - apply Forall2_app.
    + destruct (Nat.ltb_spec 0 start); [|done]. repeat constructor; [|by apply index_of_take].
      destruct source; [by destruct start|]. by destruct start; [lia|].
    + constructor; [|done]. constructor; [|done|done]. by apply index_of_take.
  - rewrite str_concat_app, str_concat_cons, Hs at 1. rewrite Hr at 1. rewrite !str_app_assoc. f_equal.
    destruct start; [done|]. by destruct source.
Qed.

(** ** Parsed nodes: valid pointers, helpers applied to pointers and literals *)
Definition pointer_ok (p : string) : Prop := trim_space p = p /\ p <> "" /\ is_ok (ParseJSONPointer p) = true.
Definition leaf (n : expressionNode) : Prop :=
  match n with literalNode _ => True | pointerNode p => pointer_ok p | helperNode _ _ => False end.
Definition parsed_node (n : expressionNode) : Prop :=
  match n with
  | helperNode name args => Forall leaf args /\ validateHelperArity name (length args) = Ok tt
  | _ => leaf n
  end.
Definition parsed_part (p : templatePart) : Prop :=
  match p with literalPart _ => True | expressionPart _ n => parsed_node n end.

Lemma ident_solid s c : all_bytes is_ident_byte (s +:+ String c "") = true -> solid c = true.
Proof. rewrite all_bytes_app. intros [_ Hc]%andb_true_iff. cbn in Hc. rewrite andb_true_r in Hc. revert Hc. all_bytes_tac c. Qed.
Lemma ident_escape s : all_bytes is_ident_byte s = true -> EscapeJSONPointerToken s = s.
Proof.
  rewrite escape_map. induction s as [|c s IH]; [done|]. cbn [all_bytes str_map]. intros [Hc Hs]%andb_true_iff.
  rewrite IH by done. enough (escape_byte c = String c "") as -> by done. revert Hc. all_bytes_tac c.
Qed.
Lemma ident_pointer s : is_identifier s = true -> JSONPointerForObjectKey s = "/" +:+ s /\ pointer_ok ("/" +:+ s).
Proof.
  intros Hi. assert (all_bytes is_ident_byte s = true /\ s <> "") as [Ha Hne].
  { destruct s as [|c s]; [done|]. cbn in Hi |- *. apply andb_true_iff in Hi as [H1 H2]. split; [|done].
    rewrite H2, andb_true_r. unfold is_ident_byte. by rewrite H1. }
  assert (JSONPointerForObjectKey s = "/" +:+ s) as Hp.
  { unfold JSONPointerForObjectKey, JSONPointerFromTokens. cbn [foldr]. by rewrite ident_escape, app_empty_r. }
  split; [done|]. assert (trimmed ("/" +:+ s)) as Ht.
  { clear Hi Hp. revert Ha Hne. induction s as [|s c _] using str_snoc_ind; [done|]. intros Ha _.
    apply (trimmed_solid "/" s c); [done|by eapply ident_solid]. }
  split_and!; [by apply trim_space_id|done|]. rewrite <-Hp. unfold JSONPointerForObjectKey.
  rewrite ParseJSONPointer_tokens; [done|]. unfold JSONPointerForObjectKey in Hp. by rewrite Hp.
Qed.
Lemma singleTokenPointer_ok item p : singleTokenPointer item = Ok (p, true) -> pointer_ok p.
Proof.
  unfold singleTokenPointer. destruct (quoted item); [done|]. destruct (has_prefix _ _) eqn:Ep.
  - intros (ts & Ht & [= <-])%bind_Ok. split_and!; [apply trim_space_idemp| |by rewrite Ht].
    intros E. by rewrite E in Ep.
  - destruct (is_identifier _) eqn:Ei; [|done]. intros [= <-]. apply ident_pointer in Ei as [-> ?]. done.
Qed.
Lemma parse_arg_leaf item : leaf (parse_arg item).
Proof.
  unfold parse_arg. destruct (singleTokenPointer item) as [[p []]|] eqn:E; try done. cbn. by eapply singleTokenPointer_ok.
Qed.
Lemma parseExpression_parsed raw n : parseExpression raw = Ok n -> parsed_node n.
Proof.
  unfold parseExpression. intros (ts & _ & Ht)%bind_Ok. destruct ts as [|head [|item rest]]; [done| |].
  - destruct (singleTokenPointer head) as [[p []]|] eqn:E.
    1: injection Ht as <-; cbn; by eapply singleTokenPointer_ok.
    all: destruct (quoted head); [|done]; by injection Ht as <-.
  - destruct (negb _); [done|]. cbv zeta in Ht. apply bind_Ok in Ht as ([] & Ha & [= <-]). split; [|done].
    change (Forall leaf (parse_arg <$> item :: rest)). apply Forall_fmap, Forall_true. intros ?. apply parse_arg_leaf.
Qed.
Lemma compile_parts_parsed fuel : forall source ps, compile_parts fuel source = Ok ps -> Forall parsed_part ps.
Proof.
  induction fuel as [|fuel IH]; intros source ps; cbn [compile_parts]; [by intros [= <-]|].
  destruct (index_of source "{{") as [start|].
  2:{ intros [= <-]. case_bool_decide; by repeat constructor. }
  destruct (index_of _ "}}") as [end_|]; [|done]. case_bool_decide; [done|].
  intros (n & Hn & Hp)%bind_Ok. apply bind_Ok in Hp as (ps' & Hp & [= <-]).
  apply Forall_app. split; [destruct (0 <? start)%nat; by repeat constructor|].
  constructor; [by eapply parseExpression_parsed|by eapply IH].
Qed.
Lemma compile_Ok raw t : compile raw = Ok t ->
  compile_parts (S (String.length (normalizePointerShorthand raw))) (normalizePointerShorthand raw) = Ok (parts t)
  /\ pointers t = foldl collectPointers [] (parts t) /\ t_raw t = raw /\ simplePointer t = simple_pointer_of (parts t).
Proof. unfold compile. intros (ps & Hp & [= <-])%bind_Ok. done. Qed.
Lemma compile_parsed raw t : compile raw = Ok t -> Forall parsed_part (parts t).
Proof. intros (Hp & _)%compile_Ok. by eapply compile_parts_parsed. Qed.

(** ** Pointers of a template *)
Lemma leaf_pointers n : leaf n -> Forall pointer_ok (node_pointers n).
Proof. destruct n; cbn; [done|intros; constructor; [done|constructor]|done]. Qed.
Lemma parsed_pointers n : parsed_node n -> Forall pointer_ok (node_pointers n).
Proof.
  destruct n as [| |name args]; [by apply leaf_pointers..|]. intros [Hl _]. cbn [node_pointers].
  apply Forall_concat, Forall_fmap. eapply Forall_impl; [exact Hl|]. intros m. apply leaf_pointers.
Qed.
Lemma collect_keeps l : forall target p, p ∈ target -> p ∈ foldl orderedPointerCollector target l.
Proof.
  induction l as [|q l IH]; intros target p Hp; [done|]. cbn [foldl]. apply IH. unfold orderedPointerCollector.
  case_bool_decide; [done|]. rewrite elem_of_add_fresh. by left.
Qed.
Lemma collect_adds l : forall target p, p ∈ l -> pointer_ok p -> p ∈ foldl orderedPointerCollector target l.
Proof.
  induction l as [|q l IH]; intros target p Hp Hok; [by apply not_elem_of_nil in Hp|]. cbn [foldl].
  apply elem_of_cons in Hp as [<-|Hp]; [|by apply IH]. apply collect_keeps. unfold orderedPointerCollector.
  destruct Hok as (-> & Hne & _). rewrite bool_decide_false by done. rewrite elem_of_add_fresh. by right.
Qed.
Lemma collectPointers_all ps : forall target part p, Forall parsed_part ps -> part ∈ ps -> p ∈ part_pointers part ->
  p ∈ foldl collectPointers target ps.
Proof.
  assert (forall ps target p, p ∈ target -> p ∈ foldl collectPointers target ps) as Hkeep.
  { clear ps. intros ps. induction ps as [|q ps IH]; intros target p Hp; [done|]. cbn [foldl]. apply IH. by apply collect_keeps. }
  induction ps as [|q ps IH]; intros target part p Hall Hin Hp; [by apply not_elem_of_nil in Hin|].
  apply Forall_cons in Hall as [Hq Hall]. cbn [foldl]. apply elem_of_cons in Hin as [->|Hin]; [|by eapply IH].
  apply Hkeep, collect_adds; [done|]. destruct q as [|r n]; [by apply not_elem_of_nil in Hp|].
  eapply Forall_forall; [|exact Hp]. by apply parsed_pointers.
Qed.

Section agree.
Variables a b : value.

Lemma leaf_eval_agree n : leaf n ->
  (forall p, p ∈ node_pointers n -> LookupJSONPointer a p = LookupJSONPointer b p) -> eval a n = eval b n.
Proof.
  destruct n as [v|p|]; [done| |done]. intros _ Hp. cbn [eval]. unfold eval_pointer.
  rewrite Hp; [done|]. apply list_elem_of_here.
Qed.
Lemma parsed_eval_agree n : parsed_node n ->
  (forall p, p ∈ node_pointers n -> LookupJSONPointer a p = LookupJSONPointer b p) -> eval a n = eval b n.
Proof.
  destruct n as [v|p|name args]; [by apply leaf_eval_agree..|]. intros [Hl _] Hp. cbn [eval]. f_equal.
  apply map_ext_Forall. rewrite Forall_forall in Hl |- *. intros x Hx. apply leaf_eval_agree; [by apply Hl|].
  intros p Hp'. apply Hp. cbn [node_pointers]. apply list_elem_of_In, in_concat.
  exists (node_pointers x). split; [by apply in_map, list_elem_of_In|by apply list_elem_of_In].
Qed.
End agree.
End compiled.

(** ** The cache *)
Definition cache_ok `{UnicodeTables} (cache : gmap string cacheEntry) : Prop :=
  forall raw entry, cache !! raw = Some entry -> entry = compile raw.
(** [Compile] returns what [compile] does, whatever was compiled before. *)
Lemma Compile_transparent `{UnicodeTables} cache raw :
  cache_ok cache -> (Compile cache raw).1 = compile raw /\ cache_ok (Compile cache raw).2.
Proof.
  intros Hc. unfold Compile. destruct (cache !! raw) as [entry|] eqn:E; cbn [fst snd].
  - split; [by apply Hc|done].
  - split; [done|]. intros r e. rewrite lookup_insert_Some. intros [[<- <-]|[_ He]]; [done|by apply Hc].
Qed.

(** ** Panics *)
Section panics.
Context `{UnicodeTables}.
Implicit Types (payload : value).

Lemma required_panic h i arg : evalRequiredStringArg h i arg = Err Panic -> arg = Err Panic.
Proof. destruct arg as [[v []]|[]]; cbn; try done. by case_bool_decide. Qed.
Lemma required_int_panic h i arg : evalRequiredIntArg h i arg = Err Panic -> arg = Err Panic.
Proof.
  unfold evalRequiredIntArg. intros [?|(v & _ & Hv)]%bind_Err; [by eapply required_panic|]. by destruct (parse_int64 v).
Qed.
Lemma required_int_bounds h i arg z : evalRequiredIntArg h i arg = Ok z -> min_int64 <= z <= max_int64.
Proof.
  unfold evalRequiredIntArg. intros (v & _ & Hv)%bind_Ok. destruct (parse_int64 v) as [y|] eqn:E; [|done].
  injection Hv as ->. by eapply parse_int64_bounds.
Qed.
Lemma leaf_no_panic payload n : leaf n -> eval payload n <> Err Panic.
Proof.
  destruct n as [v|p|]; cbn [leaf eval]; [done| |done]. intros _. unfold eval_pointer.
  destruct (LookupJSONPointer payload p) as [[v|]|]; cbn; try done. destruct v; cbn; try done; try by case_bool_decide.
  destruct stringer; cbn; [by destruct (bool_decide _)|done].
Qed.

Definition safe_args (args : list (outcome (string * bool))) : Prop := Forall (fun arg => arg <> Err Panic) args.
Lemma nth_arg_safe args i : safe_args args -> (i < length args)%nat -> nth_arg args i <> Err Panic.
Proof.
  intros Ha Hi. unfold nth_arg. destruct (lookup_lt_is_Some_2 args i Hi) as [x Hx]. rewrite Hx. cbn.
  by eapply Forall_lookup_1 in Ha.
Qed.
Lemma eval_default_safe args : safe_args args -> eval_default args <> Err Panic.
Proof.
  induction 1 as [|arg args Ha _ IH]; [done|]. cbn [eval_default]. destruct arg as [[v m]|[]]; cbn; try done.
  by destruct (m || _).
Qed.
Lemma eval_substring_panic args : safe_args args -> (2 <= length args)%nat -> eval_substring args = Err Panic ->
  exists a1 a2 a3 start len, args = [a1; a2; a3] /\ evalRequiredIntArg "substring" 1 a2 = Ok start
    /\ evalRequiredIntArg "substring" 2 a3 = Ok len /\ 0 <= start /\ max_int64 < start + len.
Proof.
  intros Hs Hl. unfold eval_substring.
  intros [Hp%required_panic|(v & _ & Hr)]%bind_Err; [by destruct (nth_arg_safe args 0 Hs ltac:(lia))|].
  apply bind_Err in Hr as [Hp%required_int_panic|(start & Hstart & Hr)]; [by destruct (nth_arg_safe args 1 Hs ltac:(lia))|].
  cbv zeta in Hr. destruct (_ || _) eqn:Eb in Hr; [done|]. apply orb_false_iff in Eb as [E1 E2].
  set (n := Z.of_nat (length (runes v))) in *.
  assert (forall end_, start <= end_ <= n ->
    (if (end_ <? start) || (n <? end_) then Err Panic else
     if trim_space (string_of_runes (take (Z.to_nat (end_ - start)) (drop (Z.to_nat start) (runes v)))) == ""
     then Ok ("", true) else Ok (string_of_runes (take (Z.to_nat (end_ - start)) (drop (Z.to_nat start) (runes v))), false))
    <> Err Panic) as Hin.
  { intros end_ He. assert ((end_ <? start) || (n <? end_) = false) as -> by lia. by case_bool_decide. }
  destruct args as [|a1 [|a2 [|a3 [|]]]]; cbn [length] in Hl; try lia.
  1, 3: exfalso; cbn [substring_end mbind result_bind] in Hr; apply (Hin n); [lia|done].
  cbn [substring_end] in Hr. apply bind_Err in Hr as [Hp|(end_ & He & Hr)].
  { apply bind_Err in Hp as [Hp%required_int_panic|(len & _ & Hp)].
    - rewrite Hp in Hs. apply Forall_cons in Hs as [_ Hs]. apply Forall_cons in Hs as [_ Hs]. by apply Forall_cons in Hs as [].
    - destruct (len <? 0); [done|]. by destruct (n <? wrap64 (start + len)). }
  apply bind_Ok in He as (len & Hlen & He). destruct (Z.ltb_spec len 0); [done|]. cbv zeta in He.
  destruct (Z.ltb_spec n (wrap64 (start + len))); [done|]. injection He as <-.
  exists a1, a2, a3, start, len. split_and!; [done|exact Hstart|done|lia|].
  destruct (Z.le_gt_cases (start + len) max_int64) as [Hle|]; [|lia]. exfalso.
  rewrite wrap64_id in Hr, H1 by (unfold min_int64; lia). apply (Hin (start + len)); [lia|done].
Qed.
End panics.

Section properties.
Context `{UnicodeTables}.
Implicit Types (payload : value) (t : Template).

Lemma parsed_panic payload n : parsed_node n -> eval payload n = Err Panic ->
  exists a1 a2 a3 start len, n = helperNode "substring" [a1; a2; a3]
    /\ evalRequiredIntArg "substring" 1 (eval payload a2) = Ok start
    /\ evalRequiredIntArg "substring" 2 (eval payload a3) = Ok len /\ 0 <= start /\ max_int64 < start + len.
Proof.
  destruct n as [v|p|name args]; [by intros Hl ?%leaf_no_panic..|]. intros [Hl Ha] He. cbn [eval] in He.
  assert (safe_args (map (eval payload) args)) as Hs.
  { apply Forall_fmap. eapply Forall_impl; [exact Hl|]. intros n Hn. cbn. by apply leaf_no_panic. }
  unfold eval_helper in He. assert (forall h (f : string -> outcome (string * bool)) , (1 <= length args)%nat ->
    (forall v, f v <> Err Panic) ->
    mbind f (evalRequiredStringArg h 0 (nth_arg (map (eval payload) args) 0)) <> Err Panic) as Hone.
  { intros h f Hlen Hf [Hp%required_panic|(v & _ & Hp)]%bind_Err; [|by apply Hf in Hp].
    by apply nth_arg_safe in Hp; [|done|rewrite length_map]. }
  unfold validateHelperArity in Ha.
  case_bool_decide as E1; [subst; exfalso; rewrite bool_decide_true in Ha by (rewrite !elem_of_cons; tauto); apply guard_Ok, negb_false_iff, Nat.eqb_eq in Ha; apply Hone in He; [done|rewrite Ha; done|done]|].
  case_bool_decide as E2; [subst; exfalso; rewrite bool_decide_true in Ha by (rewrite !elem_of_cons; tauto); apply guard_Ok, negb_false_iff, Nat.eqb_eq in Ha; apply Hone in He; [done|rewrite Ha; done|done]|].
  case_bool_decide as E3; [subst; exfalso; rewrite bool_decide_true in Ha by (rewrite !elem_of_cons; tauto); apply guard_Ok, negb_false_iff, Nat.eqb_eq in Ha; apply Hone in He; [done|rewrite Ha; done|intros v; cbv zeta; by destruct (_ == _)]|].
  rewrite bool_decide_false in Ha by (rewrite !elem_of_cons; intros [?|[?|[?|?%not_elem_of_nil]]]; done).
  destruct (decide (name = "substring")) as [->|E4].
  - rewrite (bool_decide_true ("substring" = _)) in Ha, He by done.
    apply guard_Ok in Ha. rewrite andb_false_iff, !negb_false_iff, !Nat.eqb_eq in Ha.
    apply eval_substring_panic in He as (b1 & b2 & b3 & start & len & Hargs & H2 & H3 & H4 & H5);
      [|done|rewrite length_map; lia].
    destruct args as [|a1 [|a2 [|a3 [|]]]]; try done. injection Hargs as <- <- <-.
    by exists a1, a2, a3, start, len.
  - rewrite (bool_decide_false _ E4) in He. case_bool_decide; [by apply eval_default_safe in He|done].
Qed.

(** A compiled template accounts for every byte of its source, in order: the source
    (the raw template, or a bare pointer wrapped in braces) is the concatenation of the
    texts of the parts, a literal for itself, an expression as its text between braces,
    up to the first closing brace, with the spaces around it. *)
Theorem template_tiles_source raw t :
  compile raw = Ok t ->
  exists texts, Forall2 spells (parts t) texts /\ normalizePointerShorthand raw = str_join "" texts.
Proof. intros (Hp & _)%compile_Ok. eapply compile_parts_tiles; [|exact Hp]. lia. Qed.

Lemma Render_agree raw ps a b :
  ExtractPointers raw = Ok ps ->
  (forall p, p ∈ ps -> LookupJSONPointer a p = LookupJSONPointer b p) -> Render raw a = Render raw b.
Proof.
  unfold ExtractPointers, Render. intros (t & Ht & [= <-])%bind_Ok Hag. rewrite Ht. cbn [lift map_err mbind result_bind].
  assert (Hall := compile_parsed _ _ Ht). apply compile_Ok in Ht as (_ & Hp & _).
  unfold TemplateRender. do 2 f_equal. apply map_ext_Forall. rewrite Forall_forall in Hall |- *. intros part Hin.
  destruct part as [|r n]; [done|]. cbn [render]. rewrite (parsed_eval_agree a b); [done|by apply (Hall _ Hin)|].
  intros p Hp'. apply Hag. unfold Pointers. rewrite Hp.
  eapply collectPointers_all; [by apply Forall_forall|exact Hin|exact Hp'].
Qed.

(** A template reads nothing of the payload but its pointers: two payloads that
    agree on [ExtractPointers] render to the same text, or fail with the same error. *)
Theorem pointers_determine_render raw ps a b :
  ExtractPointers raw = Ok ps ->
  (forall p, p ∈ ps -> LookupJSONPointer a p = LookupJSONPointer b p) -> Render raw a = Render raw b.
Proof. apply Render_agree. Qed.

(** Rendering never panics, with one exception: a [substring] whose start and
    length, both accepted as integers, overflow when added; the bounds check then
    compares the wrapped sum, and the slice expression panics. *)
Theorem render_panics_only_on_overflow raw payload :
  Render raw payload = Err Panic ->
  exists t text a1 a2 a3 start len, compile raw = Ok t
    /\ expressionPart text (helperNode "substring" [a1; a2; a3]) ∈ parts t
    /\ evalRequiredIntArg "substring" 1 (eval payload a2) = Ok start
    /\ evalRequiredIntArg "substring" 2 (eval payload a3) = Ok len /\ 0 <= start /\ max_int64 < start + len.
Proof.
  unfold Render. intros [Hl|(t & Ht & He)]%bind_Err; [by destruct (compile raw)|].
  apply map_err_Ok in Ht. assert (Hall := compile_parsed _ _ Ht). unfold TemplateRender in He.
  destruct (sequence _) as [|e] eqn:Es; [done|]. injection He as ->. apply sequence_Err in Es.
  apply list_elem_of_fmap in Es as (part & Hr & Hin). destruct part as [|text n]; [done|]. cbn [render] in Hr.
  destruct (eval payload n) as [[v []]|[]] eqn:Ee; try done. rewrite Forall_forall in Hall.
  apply parsed_panic in Ee as (a1 & a2 & a3 & start & len & -> & H2 & H3 & H4 & H5); [|by apply (Hall _ Hin)].
  by exists t, text, a1, a2, a3, start, len.
Qed.

Lemma ExtractPointers_ok raw ps : ExtractPointers raw = Ok ps -> Forall pointer_ok ps.
Proof.
  unfold ExtractPointers. intros (t & Ht & [= <-])%bind_Ok. assert (Hall := compile_parsed _ _ Ht).
  apply compile_Ok in Ht as (_ & Hp & _). unfold Pointers. rewrite Hp. clear Hp.
  assert (forall l target, Forall pointer_ok l -> Forall pointer_ok target ->
    Forall pointer_ok (foldl orderedPointerCollector target l)) as Hfold.
  { intros l. induction l as [|q l IH]; intros target Hl Ht; [done|]. apply Forall_cons in Hl as [Hq Hl]. cbn [foldl].
    apply IH; [done|]. unfold orderedPointerCollector, add_fresh. assert (Hq' := Hq). destruct Hq' as (-> & Hne & _).
    rewrite bool_decide_false by done. case_decide; [done|]. apply Forall_app. split; [done|by constructor]. }
  enough (forall ps target, Forall parsed_part ps -> Forall pointer_ok target -> Forall pointer_ok (foldl collectPointers target ps))
    as Hc by (apply Hc; [done|constructor]).
  clear Hall t. intros ps. induction ps as [|p ps IH]; intros target Hall Ht; [done|]. apply Forall_cons in Hall as [Hp Hall].
  cbn [foldl]. apply IH; [done|]. apply Hfold; [|done]. destruct p as [|r n]; [constructor|by apply parsed_pointers].
Qed.
Lemma SimplePointer_in raw p ps : SimplePointer raw = Ok (Some p) -> ExtractPointers raw = Ok ps -> p ∈ ps.
Proof.
  unfold SimplePointer, ExtractPointers. intros (t & Ht & Hp)%bind_Ok. rewrite Ht. intros [= <-].
  assert (Hall := compile_parsed _ _ Ht). apply compile_Ok in Ht as (_ & Hps & _ & Hs). unfold Pointers. rewrite Hps.
  unfold TemplateSimplePointer in Hp. case_bool_decide as E; [done|]. injection Hp as <-. rewrite Hs in E |- *.
  unfold simple_pointer_of in *. destruct (parts t) as [|[|r [|q|]] [|]]; try (by rewrite ?E in E).
  eapply collectPointers_all; [exact Hall|apply list_elem_of_here|apply list_elem_of_here].
Qed.

(** After an empty quoted string, the flag that marks quoted tokens stays set: the next
    word is read as a quoted literal, so a pointer that follows it is never looked up. *)
Lemma empty_quote_marks_next : 
  tokenize (String "034" (String "034" " /name")) = Ok [{| text := "/name"; quoted := true |}]
  /\ parseExpression (String "034" (String "034" " /name")) = Ok (literalNode "/name").
Proof. split; vm_compute; reflexivity. Qed.
(** An argument of a helper that is an invalid pointer is taken as a literal. *)
Lemma invalid_pointer_argument :
  parseExpression "default /a~9 /b" = Ok (helperNode "default" [literalNode "/a~9"; pointerNode "/b"]).
Proof. vm_compute. reflexivity. Qed.
End properties.

Definition identity_sample : value :=
  VMap {[ "id" := VInt64 7; "name" := VString "Ann"; "extra" := VBool true ]}.
Lemma template_tiles_source_witness (T : UnicodeTables := latin1_tables) :
  exists texts, str_join "" texts = "u-{{ lowercase /name }}" /\ length texts = 2%nat.
Proof.
  destruct (compile "u-{{ lowercase /name }}") as [t|] eqn:E; [|vm_compute in E; discriminate].
  destruct (template_tiles_source "u-{{ lowercase /name }}" t E) as (texts & H2 & Hs).
  exists texts. split; [rewrite <-Hs; vm_compute; reflexivity|].
  apply Forall2_length in H2. rewrite <-H2. vm_compute in E. injection E as <-. reflexivity.
Defined.
Lemma pointers_determine_render_witness (T : UnicodeTables := latin1_tables) :
  ExtractPointers "u-{{ lowercase /name }}" = Ok ["/name"]
  /\ Render "u-{{ lowercase /name }}" identity_sample = Ok "u-ann"
  /\ Render "u-{{ lowercase /name }}" (VMap {[ "name" := VString "Ann" ]}) = Ok "u-ann".
Proof.
  split; [vm_compute; reflexivity|]. split; [vm_compute; reflexivity|].
  rewrite (pointers_determine_render "u-{{ lowercase /name }}" ["/name"] (VMap {[ "name" := VString "Ann" ]}) identity_sample);
    [vm_compute; reflexivity|vm_compute; reflexivity|].
  intros p ->%list_elem_of_singleton. vm_compute. reflexivity.
Defined.
Definition overflowing : string := "{{substring /name 1 9223372036854775807}}".
Lemma render_panics_only_on_overflow_witness (T : UnicodeTables := latin1_tables) :
  Render overflowing identity_sample = Err Panic
  /\ exists t text a1 a2 a3 start len, compile overflowing = Ok t
    /\ expressionPart text (helperNode "substring" [a1; a2; a3]) ∈ parts t
    /\ evalRequiredIntArg "substring" 1 (eval identity_sample a2) = Ok start
    /\ evalRequiredIntArg "substring" 2 (eval identity_sample a3) = Ok len /\ 0 <= start /\ max_int64 < start + len.
Proof.
  assert (Render overflowing identity_sample = Err Panic) as E by (vm_compute; reflexivity).
  split; [exact E|]. exact (render_panics_only_on_overflow overflowing identity_sample E).
Defined.
