(* ===== verification/Identity.v ===== *)
(** * Resource identity

    Models [src/resource/identity/resource_identity.go]: the alias (the local segment of
    a resource) and the remote id, resolved from the payload by the identity templates of
    the metadata; and [src/resource/skip_items.go]: leaving out items of a collection. *)
From S2P Require Import Prelude GoText GoTextFacts Faults Paths Value Pointer Descriptor IdentityTemplate Metadata.

Definition defaultIdentityPointer := "/id".
Definition set_if_found (target : string) (r : string * bool) : string := if r.2 then r.1 else target.

Section identity.
Context `{UnicodeTables}.

Definition LookupScalarAttribute (payload : object) (attribute : string) : string * bool :=
  let trimmed := trim_space attribute in
  if trimmed == "" then ("", false)
  else match LookupJSONPointerString (VMap payload) trimmed with Ok r => r | Err _ => ("", false) end.

Definition aliasForLogicalPath (logicalPath : string) : string :=
  let trimmed := trim_space logicalPath in
  if (trimmed == "") || (trimmed == "/") then "/" else path_base trimmed.
Definition renderIdentityTemplate (field raw : string) (payload : value) : outcome string :=
  match Render raw payload with
  | Err Panic => Err Panic
  | Err (Failed err) => Err (Failed (Invalid (field +:+ " must resolve from payload data") (Some err)))
  | Ok rendered =>
      let trimmed := trim_space rendered in
      if trimmed == "" then Err (Failed (Invalid (field +:+ " must not resolve to an empty value") None)) else Ok trimmed
  end.
Definition simpleIdentityPointer (field raw : string) : result error (option string) :=
  let template := trim_space raw in
  if template == "" then Ok None
  else map_err (fun err => Invalid (field +:+ " must be a valid identity template") (Some err)) (SimplePointer template).
Definition lookupSimplePointer (payload : value) (pointer : string) : result error (string * bool) :=
  '(v, found) ← LookupJSONPointerString payload pointer;
  if negb found then Ok ("", false)
  else
    let trimmed := trim_space v in
    if trimmed == "" then Ok ("", false) else Ok (trimmed, true).
Definition effectiveIdentityTemplate (raw : string) : string :=
  let trimmed := trim_space raw in if trimmed == "" then defaultIdentityPointer else trimmed.
Definition SimpleAliasPointer (md : ResourceMetadata) := simpleIdentityPointer "resource.alias" (Alias md).
Definition SimpleIDPointer (md : ResourceMetadata) := simpleIdentityPointer "resource.id" (ID md).

(** The value, and whether one was found. *)
Definition resolveIdentityField (field rawTemplate : string) (payload : value) : outcome (string * bool) :=
  let template := effectiveIdentityTemplate rawTemplate in
  simple ← lift (simpleIdentityPointer field template);
  match simple with
  | Some pointer =>
      lift (map_err (fun lookupErr => Invalid (field +:+ " must resolve from payload data") (Some lookupErr))
              (lookupSimplePointer payload pointer))
  | None => rendered ← renderIdentityTemplate field template payload; Ok (rendered, true)
  end.

Definition valid_segment (field v : string) : result error unit :=
  map_err (fun err => Invalid (field +:+ " rendered invalid logical path segment " +:+ quote v) (Some err)) (ValidateLogicalPathSegment v).
Definition ResolveAliasAndRemoteID (logicalPath : string) (md : ResourceMetadata) (payload : value) : outcome (string * string) :=
  let alias := aliasForLogicalPath logicalPath in
  let remoteID := alias in
  resolved ← resolveIdentityField "resource.alias" (Alias md) payload;
  let alias := set_if_found alias resolved in
  resolved ← resolveIdentityField "resource.id" (ID md) payload;
  let remoteID := set_if_found remoteID resolved in
  let alias := if trim_space alias == "" then aliasForLogicalPath logicalPath else alias in
  let remoteID := if trim_space remoteID == "" then alias else remoteID in
  _ ← lift (valid_segment "resource.alias" alias);
  _ ← lift (valid_segment "resource.id" remoteID);
  Ok (alias, remoteID).
Definition ResolveAliasAndRemoteIDForListItem (payload : object) (md : ResourceMetadata) : outcome (string * string) :=
  resolved ← resolveIdentityField "resource.alias" (Alias md) (VMap payload);
  let alias := set_if_found "" resolved in
  alias ← (if alias == "" then
             resolved ← resolveIdentityField "resource.id" (ID md) (VMap payload); Ok (set_if_found alias resolved)
           else Ok alias);
  if alias == "" then
    Err (Failed (NewTypedError ValidationError "list item alias could not be resolved from metadata alias/id templates" None))
  else
    resolved ← resolveIdentityField "resource.id" (ID md) (VMap payload);
    Ok (alias, set_if_found alias resolved).

(** The collector: the trimmed non-blank values of the target count as seen; what it
    appends is trimmed. *)
Definition seen_strings (target : list string) : list string := filter (fun s => s <> "") (map trim_space target).
Definition orderedStringCollector (target : list string) (v : string) : list string :=
  let trimmed := trim_space v in
  if trimmed == "" then target
  else if bool_decide (trimmed ∈ seen_strings target) then target else target ++ [trimmed].
Definition collect_template (field raw : string) (attributes : list string) : result error (list string) :=
  let template := trim_space raw in
  if template == "" then Ok attributes
  else
    pointers ← map_err (fun err => Invalid (field +:+ " must be a valid identity template") (Some err)) (ExtractPointers template);
    Ok (foldl orderedStringCollector attributes pointers).
Definition RequiredAttributesOf (md : ResourceMetadata) : result error (list string) :=
  attributes ← collect_template "resource.alias" (Alias md) (default [] (RequiredAttributes md));
  collect_template "resource.id" (ID md) attributes.
End identity.

(** ** Items to leave out *)
Record Resource := {
  LogicalPath : string; CollectionPath : string; LocalAlias : string; RemoteID : string;
  ResolvedRemotePath : string; Payload : value; Res_PayloadDescriptor : PayloadDescriptor;
}.
Definition skipItemSet (excluded : list string) : gset string :=
  list_to_set (filter (fun s => s <> "") (map trim_space excluded)).
Definition skipSetContains (set : gset string) (v : string) : bool :=
  let trimmed := trim_space v in if trimmed == "" then false else bool_decide (trimmed ∈ set).
Definition shouldSkipCollectionItem (collectionPath : string) (item : Resource) (set : gset string) : bool :=
  if set == ∅ then false
  else if skipSetContains set (LogicalPath item) || skipSetContains set (LocalAlias item) || skipSetContains set (RemoteID item) then true
  else if match ChildSegment collectionPath (LogicalPath item) with Some s => skipSetContains set s | None => false end then true
  else match NormalizeLogicalPath (LogicalPath item) with
       | Ok normalizedPath => skipSetContains set (path_base normalizedPath)
       | Err _ => false
       end.
Definition ShouldSkipCollectionItem (collectionPath : string) (item : Resource) (excluded : list string) : bool :=
  shouldSkipCollectionItem collectionPath item (skipItemSet excluded).
Definition FilterCollectionItems (collectionPath : string) (items : list Resource) (excluded : list string) : list Resource :=
  if (length items =? 0) || (length excluded =? 0) then items
  else
    let set := skipItemSet excluded in
    if set == ∅ then items
    else filter (fun item => shouldSkipCollectionItem collectionPath item set = false) items.

(** ** Facts *)
Section facts.
Context `{UnicodeTables}.

Lemma LookupJSONPointerString_agree a b p : LookupJSONPointer a p = LookupJSONPointer b p ->
  LookupJSONPointerString a p = LookupJSONPointerString b p.
Proof. unfold LookupJSONPointerString. by intros ->. Qed.
Lemma LookupJSONPointer_trim v p : is_ok (ParseJSONPointer (trim_space p)) = true ->
  LookupJSONPointer v (trim_space p) = LookupJSONPointer v p.
Proof.
  unfold LookupJSONPointer, ParseJSONPointer. rewrite trim_space_idemp. case_bool_decide; [done|].
  destruct (negb _); [done|]. by destruct (sequence _).
Qed.

Lemma default_pointer : SimplePointer defaultIdentityPointer = Ok (Some defaultIdentityPointer).
Proof. vm_compute. reflexivity. Qed.

(** ** Two payloads that agree on some pointers *)
Section agree.
Variables a b : value.
Implicit Types (p raw : string).

Lemma lookupSimplePointer_agree p : LookupJSONPointer a p = LookupJSONPointer b p ->
  lookupSimplePointer a p = lookupSimplePointer b p.
Proof. unfold lookupSimplePointer. intros Hp. by rewrite (LookupJSONPointerString_agree _ _ _ Hp). Qed.
Lemma resolve_agree field raw ps :
  trim_space raw <> "" -> ExtractPointers (trim_space raw) = Ok ps ->
  (forall p, p ∈ ps -> LookupJSONPointer a p = LookupJSONPointer b p) ->
  resolveIdentityField field raw a = resolveIdentityField field raw b.
Proof.
  intros Hraw Hps Hag. unfold resolveIdentityField, effectiveIdentityTemplate. rewrite bool_decide_false by done.
  unfold simpleIdentityPointer, renderIdentityTemplate. rewrite trim_space_idemp, bool_decide_false by done.
  rewrite (Render_agree _ _ _ _ Hps Hag).
  destruct (SimplePointer (trim_space raw)) as [[p|]|] eqn:Es; [|done..]. cbn [map_err lift mbind result_bind].
  rewrite (lookupSimplePointer_agree p); [done|]. apply Hag. by eapply SimplePointer_in.
Qed.
Lemma resolve_default_agree field raw : trim_space raw = "" ->
  LookupJSONPointer a defaultIdentityPointer = LookupJSONPointer b defaultIdentityPointer ->
  resolveIdentityField field raw a = resolveIdentityField field raw b.
Proof.
  intros Hraw Hag. unfold resolveIdentityField, effectiveIdentityTemplate. rewrite bool_decide_true by done.
  unfold simpleIdentityPointer. change (trim_space defaultIdentityPointer) with defaultIdentityPointer.
  rewrite default_pointer. rewrite (bool_decide_false (defaultIdentityPointer = "")) by done. cbn [map_err lift mbind result_bind].
  by rewrite (lookupSimplePointer_agree _ Hag).
Qed.

(** The collected attributes cover, up to spaces, every pointer that was added. *)
Definition covered (attributes : list string) p : Prop := exists q, q ∈ attributes /\ trim_space q = p.
Lemma collector_covers attributes p : pointer_ok p -> covered (orderedStringCollector attributes p) p.
Proof.
  intros (Ht & Hne & _). unfold orderedStringCollector. rewrite Ht, bool_decide_false by done.
  case_bool_decide as Hs; [|exists p; split; [apply elem_of_app; right; apply list_elem_of_here|done]].
  apply list_elem_of_filter in Hs as [_ (q & Hq & Hin)%list_elem_of_fmap]. by exists q.
Qed.
Lemma collector_keeps attributes v : attributes ⊆ orderedStringCollector attributes v.
Proof. unfold orderedStringCollector. repeat case_bool_decide; [done..|]. intros x Hx. apply elem_of_app. by left. Qed.
Lemma collect_covers ps : forall attributes, Forall pointer_ok ps ->
  attributes ⊆ foldl orderedStringCollector attributes ps /\ Forall (covered (foldl orderedStringCollector attributes ps)) ps.
Proof.
  induction ps as [|p ps IH]; intros attributes Hall; [by split|]. apply Forall_cons in Hall as [Hp Hall]. cbn [foldl].
  destruct (IH (orderedStringCollector attributes p) Hall) as [H1 H2]. split.
  - etrans; [apply collector_keeps|exact H1].
  - constructor; [|done]. destruct (collector_covers attributes p Hp) as (q & Hq & Ht). exists q. split; [by apply H1|done].
Qed.
Lemma collect_template_covers field raw attributes r : collect_template field raw attributes = Ok r ->
  attributes ⊆ r /\ (trim_space raw <> "" -> exists ps, ExtractPointers (trim_space raw) = Ok ps /\ Forall pointer_ok ps
    /\ Forall (covered r) ps).
Proof.
  unfold collect_template. case_bool_decide as Hr; [by intros [= <-]|].
  intros (ps & Hps & [= <-])%bind_Ok. apply map_err_Ok in Hps. assert (Hok := ExtractPointers_ok _ _ Hps).
  destruct (collect_covers ps attributes Hok) as [H1 H2]. split; [done|]. intros _. by exists ps.
Qed.
Lemma covered_agree attributes ps : Forall pointer_ok ps -> Forall (covered attributes) ps ->
  (forall q, q ∈ attributes -> LookupJSONPointer a q = LookupJSONPointer b q) ->
  forall p, p ∈ ps -> LookupJSONPointer a p = LookupJSONPointer b p.
Proof.
  rewrite !Forall_forall. intros Hok Hc Hag p Hp. destruct (Hok p Hp) as (_ & _ & Hpo).
  destruct (Hc p Hp) as (q & Hq & <-). rewrite !LookupJSONPointer_trim by done. by apply Hag.
Qed.
Lemma identity_agree field raw attributes r : collect_template field raw attributes = Ok r ->
  (forall q, q ∈ r -> LookupJSONPointer a q = LookupJSONPointer b q) ->
  LookupJSONPointer a defaultIdentityPointer = LookupJSONPointer b defaultIdentityPointer ->
  forall field', resolveIdentityField field' raw a = resolveIdentityField field' raw b.
Proof.
  intros [_ Hc]%collect_template_covers Hag Hid field'. destruct (decide (trim_space raw = "")) as [|Hr];
    [by apply resolve_default_agree|]. destruct (Hc Hr) as (ps & Hps & Hok & Hcov).
  eapply resolve_agree; [done|exact Hps|]. by eapply covered_agree.
Qed.
End agree.

(** ** Properties *)

(** [C33] [RequiredAttributes] lists all that identity depends on: two payloads that agree
    on the required attributes and on the pointer used by default, [/id], resolve to the
    same alias and remote id, or fail with the same error. *)
Theorem required_attributes_determine_identity logicalPath md attributes a b :
  RequiredAttributesOf md = Ok attributes ->
  (forall p, p ∈ attributes -> LookupJSONPointer a p = LookupJSONPointer b p) ->
  LookupJSONPointer a defaultIdentityPointer = LookupJSONPointer b defaultIdentityPointer ->
  ResolveAliasAndRemoteID logicalPath md a = ResolveAliasAndRemoteID logicalPath md b.
Proof.
  unfold RequiredAttributesOf. intros (r1 & H1 & H2)%bind_Ok Hag Hid. unfold ResolveAliasAndRemoteID.
  assert (Hsub := collect_template_covers _ _ _ _ H2). destruct Hsub as [Hsub _].
  rewrite (identity_agree a b _ _ _ _ H1); [|intros q Hq; by apply Hag, Hsub|done].
  by rewrite (identity_agree a b _ _ _ _ H2 Hag Hid).
Qed.

Lemma valid_segment_Ok field v u : lift (valid_segment field v) = Ok u -> normalizeLogicalPathSegment v = Ok (trim_space v).
Proof.
  unfold valid_segment, ValidateLogicalPathSegment. intros Hl. apply map_err_Ok in Hl. apply map_err_Ok in Hl.
  apply bind_Ok in Hl as (t & Ht & _). rewrite Ht. by apply normalizeLogicalPathSegment_Ok in Ht as [-> _].
Qed.

(** [C37] An alias or a remote id that is resolved is one path segment: joined to any
    collection path it names a direct child, never another collection or a parent. *)
Theorem resolved_identity_is_child logicalPath md payload alias remoteID l :
  ResolveAliasAndRemoteID logicalPath md payload = Ok (alias, remoteID) -> Forall clean_segment l ->
  (clean_segment (trim_space alias)
   /\ JoinLogicalPath (path_of l) alias = NormalizeLogicalPath (path_of (l ++ [trim_space alias])))
  /\ (clean_segment (trim_space remoteID)
      /\ JoinLogicalPath (path_of l) remoteID = NormalizeLogicalPath (path_of (l ++ [trim_space remoteID]))).
Proof.
  unfold ResolveAliasAndRemoteID. intros (r1 & _ & Hr)%bind_Ok Hl. apply bind_Ok in Hr as (r2 & _ & Hr).
  apply bind_Ok in Hr as (u & H1 & Hr). apply bind_Ok in Hr as (v & H2 & Hr). injection Hr as E1 E2.
  rewrite E1 in H1. rewrite E2 in H2.
  assert (forall field s w, lift (valid_segment field s) = Ok w -> clean_segment (trim_space s)
    /\ JoinLogicalPath (path_of l) s = NormalizeLogicalPath (path_of (l ++ [trim_space s]))) as Hseg.
  { intros field s w Hs%valid_segment_Ok. split; [by apply normalizeLogicalPathSegment_Ok in Hs as (_ & ? & _)|].
    by apply JoinLogicalPath_segment. }
  split; by eapply Hseg.
Qed.
End facts.

(** An item is named by a string when it is, spaces apart, its path, its alias, its remote
    id, its segment below the collection or the last segment of its path. *)
Definition named_by (collectionPath : string) (item : Resource) (name : string) : Prop :=
  name <> "" /\
  (trim_space (LogicalPath item) = name \/ trim_space (LocalAlias item) = name \/ trim_space (RemoteID item) = name
   \/ (exists s, ChildSegment collectionPath (LogicalPath item) = Some s /\ trim_space s = name)
   \/ (exists p, NormalizeLogicalPath (LogicalPath item) = Ok p /\ trim_space (path_base p) = name)).

Lemma elem_of_skipItemSet excluded name : name ∈ skipItemSet excluded <-> name <> "" /\ exists e, e ∈ excluded /\ trim_space e = name.
Proof.
  unfold skipItemSet. rewrite elem_of_list_to_set, list_elem_of_filter. change (map trim_space excluded) with (trim_space <$> excluded).
  rewrite list_elem_of_fmap. split; [intros (H1 & e & -> & He); split; [done|by exists e]|].
  intros (H1 & e & He & <-). split; [done|]. by exists e.
Qed.
Lemma skipSetContains_spec set v : skipSetContains set v = true <-> trim_space v <> "" /\ trim_space v ∈ set.
Proof.
  unfold skipSetContains. case_bool_decide; [split; [done|by intros []]|]. rewrite bool_decide_eq_true. by split; [|intros []].
Qed.
Lemma shouldSkip_spec collectionPath item excluded :
  shouldSkipCollectionItem collectionPath item (skipItemSet excluded) = true <->
  exists name, named_by collectionPath item name /\ name ∈ skipItemSet excluded.
Proof.
  assert (forall v, skipSetContains (skipItemSet excluded) v = true <-> trim_space v ∈ skipItemSet excluded) as Hc.
  { intros v. rewrite skipSetContains_spec. split; [by intros []|]. intros Hv. split; [|done].
    by apply elem_of_skipItemSet in Hv as []. }
  assert (forall name, name ∈ skipItemSet excluded -> name <> "") as Hne by by intros name []%elem_of_skipItemSet.
  unfold shouldSkipCollectionItem. case_bool_decide as He.
  { split; [done|]. intros (name & _ & Hin). rewrite He in Hin. by apply not_elem_of_empty in Hin. }
  destruct (_ || _ || _) eqn:E1.
  { split; [|done]. intros _. rewrite !orb_true_iff, !Hc in E1. destruct E1 as [[?|?]|?]; eexists; (split; [|eassumption]);
      (split; [by apply Hne|]); tauto. }
  destruct (match ChildSegment collectionPath (LogicalPath item) with Some s => skipSetContains _ s | None => false end) eqn:E2.
  { split; [|done]. intros _. destruct (ChildSegment _ _) as [s|] eqn:Ec; [|done]. apply Hc in E2.
    exists (trim_space s). split; [|done]. split; [by apply Hne|]. do 3 right. left. by exists s. }
  rewrite !orb_false_iff in E1. destruct E1 as [[N1 N2] N3]. split.
  - intros Hn. destruct (NormalizeLogicalPath _) as [p|] eqn:Ep; [|done]. apply Hc in Hn.
    exists (trim_space (path_base p)). split; [|done]. split; [by apply Hne|]. do 4 right. by exists p.
  - intros (name & (_ & Hcase) & Hin). destruct Hcase as [E|[E|[E|[(s & Es & E)|(p & Ep & E)]]]]; subst name; apply Hc in Hin.
    + congruence.
    + congruence.
    + congruence.
    + rewrite Es in E2. congruence.
    + by rewrite Ep.
Qed.

(** Filtering a collection keeps, in order, exactly the items that no excluded name
    names. *)
Theorem filter_items_exact collectionPath items excluded :
  exists keep : Resource -> bool,
    FilterCollectionItems collectionPath items excluded = filter (fun item => keep item = true) items
    /\ forall item, keep item = true <->
         ~ exists e, e ∈ excluded /\ named_by collectionPath item (trim_space e).
Proof.
  exists (fun item => negb (shouldSkipCollectionItem collectionPath item (skipItemSet excluded))).
  assert (forall item, shouldSkipCollectionItem collectionPath item (skipItemSet excluded) = true <->
    exists e, e ∈ excluded /\ named_by collectionPath item (trim_space e)) as Hs.
  { intros item. rewrite shouldSkip_spec. split.
    - intros (name & Hn & (_ & e & He & <-)%elem_of_skipItemSet). by exists e.
    - intros (e & He & Hn). exists (trim_space e). split; [done|]. apply elem_of_skipItemSet. split; [by destruct Hn|]. by exists e. }
  split.
  2:{ intros item. rewrite negb_true_iff, <-not_true_iff_false. by rewrite Hs. }
  assert (skipItemSet excluded = ∅ -> items = filter (fun item =>
    negb (shouldSkipCollectionItem collectionPath item (skipItemSet excluded)) = true) items) as Hall.
  { intros He. clear Hs. induction items as [|i items IH]; [done|].
    rewrite filter_cons_True; [by rewrite <-IH|]. unfold shouldSkipCollectionItem. by rewrite bool_decide_true. }
  unfold FilterCollectionItems. destruct (_ || _) eqn:E.
  - apply orb_true_iff in E as [E|E]; apply Nat.eqb_eq in E.
    + by destruct items.
    + apply Hall. by destruct excluded.
  - cbv zeta. case_bool_decide; [by apply Hall|]. apply list_filter_iff. intros item. by rewrite negb_true_iff.
Qed.

Definition identity_metadata : ResourceMetadata :=
  {| Selector := None; ID := "/uuid"; Alias := "{{lowercase /name}}"; RequiredAttributes := Some [" /uuid"]; RemoteCollectionPath := "";
     Format := ""; Defaults := None; Secret := None; SecretAttributes := None; ExternalizedAttributes := None;
     Operations := None; Transforms := None |}.
Definition user_payload (extra : value) : value :=
  VMap {[ "uuid" := VString "7f"; "name" := VString "Ann"; "extra" := extra ]}.
Lemma required_attributes_determine_identity_witness (T : UnicodeTables := latin1_tables) :
  RequiredAttributesOf identity_metadata = Ok [" /uuid"; "/name"]
  /\ ResolveAliasAndRemoteID "/users/x" identity_metadata (user_payload VNil) = Ok ("ann", "7f")
  /\ ResolveAliasAndRemoteID "/users/x" identity_metadata (user_payload (VInt64 3)) = Ok ("ann", "7f").
Proof.
  split; [vm_compute; reflexivity|]. split; [vm_compute; reflexivity|].
  rewrite (required_attributes_determine_identity "/users/x" identity_metadata [" /uuid"; "/name"]
    (user_payload (VInt64 3)) (user_payload VNil)).
  - vm_compute. reflexivity.
  - vm_compute. reflexivity.
  - intros p [->|[->|?%not_elem_of_nil]%elem_of_cons]%elem_of_cons; [vm_compute; reflexivity..|done].
  - vm_compute. reflexivity.
Defined.
Lemma resolved_identity_is_child_witness (T : UnicodeTables := latin1_tables) :
  JoinLogicalPath (path_of ["users"]) "ann" = Ok "/users/ann".
Proof.
  assert (Forall clean_segment ["users"]) as Hl by (by repeat constructor).
  destruct (resolved_identity_is_child "/users/x" identity_metadata (user_payload VNil) "ann" "7f" ["users"]
    ltac:(vm_compute; reflexivity) Hl) as [[_ Hj] _].
  rewrite Hj. vm_compute. reflexivity.
Defined.
