(* ===== verification/OperationSpec.v ===== *)
(** * Operations of a resource

    Models the operation part of [src/metadata/operation_spec.go] with [defaults.go],
    [normalize.go] and [operation_templates_shared.go]: the specification of the request of
    an operation, made of the metadata of the resource, rendered in a scope of template
    values, and the resolution of its path against the remote collection. *)
From S2P Require Import Prelude GoText GoTextFacts Faults Paths Value Pointer Metadata MetaWire TemplateSyntax.

(** [string(operation)]. *)
Definition operation_string (o : Operation) : string :=
  match o with
  | OperationGet => "get" | OperationCreate => "create" | OperationUpdate => "update" | OperationDelete => "delete"
  | OperationList => "list" | OperationCompare => "compare" | OperationOther name => name
  end.

(** ** Defaults *)
Definition defaultMetadataOperations : list Operation :=
  [OperationCreate; OperationList; OperationGet; OperationUpdate; OperationDelete; OperationCompare].
Definition defaultOperationPathTemplate (o : Operation) : string :=
  match o with OperationCreate | OperationList => "." | _ => "./{{/id}}" end.
Definition DefaultOperationMethod (o : Operation) : string :=
  match o with
  | OperationCreate => "POST" | OperationUpdate => "PUT" | OperationDelete => "DELETE" | _ => "GET"
  end.
Definition default_operation_spec (o : Operation) : OperationSpec :=
  {| Method := DefaultOperationMethod o; op_Path := defaultOperationPathTemplate o; Query := Some ∅; Headers := Some ∅;
     Accept := ""; ContentType := ""; Body := VNil; op_Transforms := None; Validate := None |}.
Definition DefaultResourceMetadata : ResourceMetadata :=
  {| Selector := None; ID := JSONPointerForObjectKey "id"; Alias := JSONPointerForObjectKey "id"; RequiredAttributes := None;
     RemoteCollectionPath := ""; Format := ""; Defaults := None; Secret := None; SecretAttributes := None;
     ExternalizedAttributes := None;
     Operations := Some (list_to_map ((fun o => (operation_string o, default_operation_spec o)) <$> defaultMetadataOperations));
     Transforms := None |}.

Section operations.
Context `{UnicodeTables, TemplateEngine}.

Definition NormalizeHTTPMethod (method : string) : string := to_lower (trim_space method).

(** ** Paths *)
Definition normalizeRenderedOperationPath (rawPath : string) : string :=
  let trimmed := trim_space rawPath in
  if trimmed == "" then ""
  else
    let normalized := path_clean trimmed in
    if has_prefix normalized "/" then normalized else "/" +:+ normalized.
Definition NormalizeRenderedOperationPath := normalizeRenderedOperationPath.
Definition resolveEffectiveRemoteCollectionPath (rawCollectionPath : string) (scope : object) : result error string :=
  let candidate := trim_space rawCollectionPath in
  let candidate := if candidate == "" then trim_space (scopeString (scopeValue scope "remoteCollectionPath")) else candidate in
  if candidate == "" then Ok ""
  else
    rendered ← renderTemplateString "remoteCollectionPath" candidate scope;
    Ok (normalizeRenderedOperationPath rendered).
Definition resolveRenderedOperationPath (rawPath collectionPath : string) : result error string :=
  let trimmedPath := trim_space rawPath in
  if trimmedPath == "" then Ok ""
  else if has_prefix trimmedPath "/" then Ok (normalizeRenderedOperationPath trimmedPath)
  else if negb (has_prefix trimmedPath ".") then Ok (normalizeRenderedOperationPath trimmedPath)
  else
    let normalizedCollectionPath := trim_space collectionPath in
    if normalizedCollectionPath == ""
    then Err (NewTypedError ValidationError "relative metadata path requires remote collection path context" None)
    else
      let joined := path_join [normalizedCollectionPath; trimmedPath] in
      let joined := if has_prefix joined "/" then joined else "/" +:+ joined in
      Ok (normalizeRenderedOperationPath joined).

(** ** Rendering *)
Definition render_entries (prefix : string) (entries : option (gmap string string)) (scope : object)
  : result error (option (gmap string string)) :=
  match entries with
  | None => Ok None
  | Some m =>
      rendered ← map_sequence (map_imap (fun key v => Some (renderTemplateString (prefix +:+ key) v scope)) m);
      Ok (Some rendered)
  end.
Fixpoint render_transforms (idx : Z) (steps : list TransformStep) (scope : object) : result error (list TransformStep) :=
  match steps with
  | [] => Ok []
  | step :: steps =>
      rendered ← (if trim_space (JQExpression step) == "" then Ok (JQExpression step)
                  else renderTemplateString ("transforms[" +:+ itoa idx +:+ "].jqExpression") (JQExpression step) scope);
      rest ← render_transforms (idx + 1) steps scope;
      Ok ({| SelectAttributes := SelectAttributes step; ExcludeAttributes := ExcludeAttributes step; JQExpression := rendered |} :: rest)
  end.
Definition renderOperationSpecTemplates (spec : OperationSpec) (scope : object) : result error OperationSpec :=
  method ← renderTemplateString "method" (Method spec) scope;
  path ← renderTemplateString "path" (op_Path spec) scope;
  accept ← renderTemplateString "accept" (Accept spec) scope;
  contentType ← renderTemplateString "contentType" (ContentType spec) scope;
  query ← render_entries "query." (Query spec) scope;
  headers ← render_entries "headers." (Headers spec) scope;
  transforms ← (match CloneTransformSteps (op_Transforms spec) with
                | None => Ok None
                | Some steps => rendered ← render_transforms 0 steps scope; Ok (Some rendered)
                end);
  Ok {| Method := method; op_Path := path; Query := query; Headers := headers; Accept := accept; ContentType := contentType;
        Body := DeepCopyValue (Body spec); op_Transforms := transforms;
        Validate := cloneOperationValidationSpec (Validate spec) |}.

Definition set_path (spec : OperationSpec) (path : string) : OperationSpec :=
  {| Method := Method spec; op_Path := path; Query := Query spec; Headers := Headers spec; Accept := Accept spec;
     ContentType := ContentType spec; Body := Body spec; op_Transforms := op_Transforms spec; Validate := Validate spec |}.
Definition set_transforms (spec : OperationSpec) (steps : option (list TransformStep)) : OperationSpec :=
  {| Method := Method spec; op_Path := op_Path spec; Query := Query spec; Headers := Headers spec; Accept := Accept spec;
     ContentType := ContentType spec; Body := Body spec; op_Transforms := steps; Validate := Validate spec |}.
(** The specification before it is rendered. *)
Definition unrendered_operation (m : ResourceMetadata) (o : Operation) : OperationSpec :=
  let spec := match Operations m ≫= (.!! operation_string o) with
              | Some operationSpec => MergeOperationSpec empty_operation operationSpec
              | None => empty_operation
              end in
  let spec := set_transforms spec (combineTransformSteps (Transforms m) (op_Transforms spec)) in
  if trim_space (op_Path spec) == "" then set_path spec (defaultOperationPathTemplate o) else spec.
Definition ResolveOperationSpecWithScope (m : ResourceMetadata) (o : Operation) (scope : object) : result error OperationSpec :=
  if negb (IsValid o)
  then Err (NewTypedError ValidationError ("unsupported metadata operation " +:+ quote (operation_string o)) None)
  else
    collectionPath ← resolveEffectiveRemoteCollectionPath (RemoteCollectionPath m) scope;
    let scope := <["remoteCollectionPath" := VString collectionPath]> scope in
    rendered ← renderOperationSpecTemplates (unrendered_operation m o) scope;
    resolvedPath ← resolveRenderedOperationPath (op_Path rendered) collectionPath;
    if trim_space resolvedPath == ""
    then Err (NewTypedError ValidationError ("metadata operation " +:+ quote (operation_string o) +:+ " path is required") None)
    else Ok (set_path rendered resolvedPath).
Definition buildTemplateScopeFromValue (v : value) : object :=
  match v with
  | VMap payload => <["value" := v]> (<["payload" := VMap payload]> payload)
  | _ => {[ "payload" := v; "value" := v ]}
  end.
Definition ResolveOperationSpec (m : ResourceMetadata) (o : Operation) (v : value) : result error OperationSpec :=
  ResolveOperationSpecWithScope m o (buildTemplateScopeFromValue v).

(** ** Validation of the templates of an operation *)
Fixpoint validate_entries (label prefix : string) (entries : gmap string string) (keys : list string) : result error unit :=
  match keys with
  | [] => Ok tt
  | key :: keys =>
      validate_template label (prefix +:+ key) (default "" (entries !! key));; validate_entries label prefix entries keys
  end.
Fixpoint validate_transforms (label : string) (idx : Z) (steps : list TransformStep) : result error unit :=
  match steps with
  | [] => Ok tt
  | step :: steps =>
      validate_template label ("transforms[" +:+ itoa idx +:+ "].jqExpression") (JQExpression step);;
      validate_transforms label (idx + 1) steps
  end.
Definition ValidateOperationSpecTemplates (order : map_order) (label : string) (spec : OperationSpec) : result error unit :=
  validate_template label "method" (Method spec);;
  validate_template label "path" (op_Path spec);;
  validate_template label "accept" (Accept spec);;
  validate_template label "contentType" (ContentType spec);;
  validate_entries label "query." (default ∅ (Query spec)) (order (default ∅ (Query spec)));;
  validate_entries label "headers." (default ∅ (Headers spec)) (order (default ∅ (Headers spec)));;
  validate_transforms label 0 (default [] (op_Transforms spec)).
End operations.

(** ** Facts *)
Section paths.
Context `{UnicodeTables} `{TemplateEngineLaws}.

Lemma path_of_trimmed l id : clean_segment id -> trails_space id = false -> trimmed (path_of (l ++ [id])).
Proof.
  intros Hid Ht. split; [by apply leads_space_solid|]. destruct l as [|s l].
  - cbn [app]. unfold path_of. cbn [str_join]. apply (trails_after_solid "" slash id); done.
  - rewrite path_of_snoc by done. by apply (trails_after_solid _ slash id).
Qed.
Lemma relative_trimmed id : trails_space id = false -> trimmed ("./" +:+ id).
Proof. intros Ht. split; [by apply leads_space_solid|]. by apply (trails_after_solid "." slash id). Qed.
Lemma normalize_path_of l : Forall clean_segment l -> trimmed (path_of l) -> normalizeRenderedOperationPath (path_of l) = path_of l.
Proof.
  intros Hl Ht. unfold normalizeRenderedOperationPath. rewrite (trim_space_id _ Ht), bool_decide_false by done.
  by rewrite path_clean_path_of, path_of_inj_prefix.
Qed.
(** A relative path below a collection: the text after [./] cut at its slashes. *)
Lemma resolve_relative l tail : Forall clean_segment l -> trimmed (path_of l) -> trails_space tail = false ->
  let segs := reverse (clean_segments true (reverse l) (split_on slash ("./" +:+ tail))) in
  Forall clean_segment segs -> trimmed (path_of segs) ->
  resolveRenderedOperationPath ("./" +:+ tail) (path_of l) = Ok (path_of segs).
Proof.
  intros Hl Htl Ht segs Hs Hts. unfold resolveRenderedOperationPath.
  rewrite (trim_space_id _ (relative_trimmed tail Ht)), (trim_space_id _ Htl).
  rewrite !bool_decide_false by done. assert (has_prefix ("./" +:+ tail) "/" = false) as -> by done.
  assert (has_prefix ("./" +:+ tail) "." = true) as -> by apply (has_prefix_app "." ("/" +:+ tail)). cbn [negb].
  rewrite path_join_path_of by done. fold segs. rewrite path_of_inj_prefix. by rewrite normalize_path_of.
Qed.
Lemma resolve_member l id : Forall clean_segment l -> trimmed (path_of l) -> clean_segment id -> trails_space id = false ->
  resolveRenderedOperationPath ("./" +:+ id) (path_of l) = Ok (path_of (l ++ [id])).
Proof.
  intros Hl Htl Hid Ht. assert (reverse (clean_segments true (reverse l) (split_on slash ("./" +:+ id))) = l ++ [id]) as E.
  { change ("./" +:+ id) with ("." +:+ String slash id). rewrite split_on_app_sep.
    rewrite (split_on_nosep slash id), (split_on_nosep slash ".") by (done || by apply clean_segment_no_sep).
    cbn. destruct Hid as (H1' & H2' & H3' & _). eqb. by rewrite reverse_cons, reverse_involutive. }
  pose proof (resolve_relative l id Hl Htl Ht) as R. cbv zeta in R. rewrite E in R. apply R; [|by apply path_of_trimmed].
  apply Forall_app. split; [done|by constructor].
Qed.
Lemma resolve_collection l : Forall clean_segment l -> trimmed (path_of l) ->
  resolveRenderedOperationPath "." (path_of l) = Ok (path_of l).
Proof.
  intros Hl Htl. unfold resolveRenderedOperationPath. rewrite (trim_space_id _ Htl). cbn -[path_join path_of normalizeRenderedOperationPath].
  rewrite path_join_path_of by done. rewrite bool_decide_false by done. assert (clean_segments true (reverse l) (split_on slash ".") = reverse l) as -> by done.
  rewrite reverse_involutive, path_of_inj_prefix. by rewrite normalize_path_of.
Qed.
(** An identifier that starts with a parent segment leaves the collection. *)
Lemma resolve_escape l s id : Forall clean_segment (l ++ [s]) -> trimmed (path_of (l ++ [s])) -> clean_segment id -> trails_space id = false ->
  resolveRenderedOperationPath ("./../" +:+ id) (path_of (l ++ [s])) = Ok (path_of (l ++ [id])).
Proof.
  intros Hl Htl Hid Ht.
  assert (reverse (clean_segments true (reverse (l ++ [s])) (split_on slash ("./" +:+ ("../" +:+ id)))) = l ++ [id]) as E.
  { change ("./" +:+ ("../" +:+ id)) with ("." +:+ String slash (".." +:+ String slash id)). rewrite !split_on_app_sep.
    rewrite (split_on_nosep slash id), (split_on_nosep slash "."), (split_on_nosep slash "..") by (done || by apply clean_segment_no_sep).
    apply Forall_app in Hl as [_ Hs]. rewrite Forall_singleton in Hs.
    destruct Hs as (Hs1 & Hs2 & Hs3 & _). destruct Hid as (H1' & H2' & H3' & _). rewrite reverse_snoc. cbn. eqb.
    by rewrite reverse_cons, reverse_involutive. }
  change ("./../" +:+ id) with ("./" +:+ ("../" +:+ id)).
  assert (trails_space ("../" +:+ id) = false) as Ht' by by apply (trails_after_solid ".." slash id).
  pose proof (resolve_relative (l ++ [s]) ("../" +:+ id) Hl Htl Ht') as R. cbv zeta in R. rewrite E in R.
  apply R; [|by apply path_of_trimmed]. apply Forall_app in Hl as [Hl _]. apply Forall_app. split; [done|by constructor].
Qed.

(** The rendering of the path is the rendering of one template. *)
Lemma rendered_path spec scope rendered : renderOperationSpecTemplates spec scope = Ok rendered ->
  renderTemplateString "path" (op_Path spec) scope = Ok (op_Path rendered).
Proof. unfold renderOperationSpecTemplates. intros Hr. inv_result. done. Qed.
Lemma render_plain field raw scope : contains raw "{{" = false -> renderTemplateString field raw scope = Ok raw.
Proof. unfold renderTemplateString. by intros ->. Qed.
Lemma render_member_path scope id r : scope !! "id" = Some (VString id) ->
  renderTemplateString "path" "./{{/id}}" scope = Ok r -> r = "./" +:+ id.
Proof.
  intros Hid Hr. pose proof (render_short_actions "path" [("./", "/id")] [("./", "/id")] "" scope) as E.
  change (actions_text [("./", "/id")] "") with "./{{/id}}" in E. rewrite Hr in E.
  assert (run_calls (resolveJSONPointer scope) [("./", "/id")] "" = Ok ("./" +:+ id +:+ "")) as Er.
  { cbn [run_calls]. unfold resolveJSONPointer. change (trim_space "/id") with "/id". rewrite bool_decide_false by done.
    unfold LookupJSONPointer. change (ParseJSONPointer "/id") with (Ok (E:=error) ["id"]). cbn [mbind result_bind lookup_tokens].
    rewrite Hid. done. }
  rewrite Er, app_empty_r in E. cbn [ok_opt] in E. apply Some_inj in E; [done| |].
  - split; [|by vm_compute]. repeat constructor; by vm_compute.
  - repeat constructor; by vm_compute.
Qed.

(** The operation has no path of its own. *)
Definition default_path (m : ResourceMetadata) (o : Operation) : Prop :=
  op_Path (unrendered_operation m o) = defaultOperationPathTemplate o.
Definition on_collection (o : Operation) : bool := match o with OperationCreate | OperationList => true | _ => false end.

(** An operation without a path of its own is sent to the remote collection when it
    creates or lists, and to the member of it named by the identifier in the scope otherwise;
    whatever else the specification holds. *)
Theorem default_operation_paths m o scope l id spec :
  default_path m o -> Forall clean_segment l -> trimmed (path_of l) ->
  resolveEffectiveRemoteCollectionPath (RemoteCollectionPath m) scope = Ok (path_of l) ->
  scope !! "id" = Some (VString id) -> clean_segment id -> trails_space id = false ->
  ResolveOperationSpecWithScope m o scope = Ok spec ->
  op_Path spec = path_of (if on_collection o then l else l ++ [id]).
Proof.
  intros Hd Hl Htl Hc Hid Hcid Ht Hr. unfold ResolveOperationSpecWithScope in Hr. destruct (IsValid o) eqn:Ev; [|done]. cbn [negb] in Hr.
  rewrite Hc in Hr. apply bind_Ok in Hr as (c & [= <-] & Hr). apply bind_Ok in Hr as (rendered & Hren & Hr).
  apply bind_Ok in Hr as (p & Hp & Hr). apply rendered_path in Hren. rewrite Hd in Hren.
  case_bool_decide; [done|]. injection Hr as <-. cbn [set_path op_Path].
  assert (forall r, renderTemplateString "path" "./{{/id}}" (<["remoteCollectionPath":=VString (path_of l)]> scope) = Ok r -> r = "./" +:+ id) as Hm.
  { intros r. apply render_member_path. by rewrite lookup_insert_ne. }
  destruct o; cbn [defaultOperationPathTemplate on_collection] in *; try done;
    try (apply Hm in Hren; rewrite Hren, resolve_member in Hp by done; by injection Hp).
  all: rewrite render_plain in Hren by done; injection Hren as Hren; rewrite <-Hren, resolve_collection in Hp by done; by injection Hp.
Qed.
End paths.

Definition users_metadata : ResourceMetadata :=
  {| Selector := None; ID := "{{/id}}"; Alias := "{{/name}}"; RequiredAttributes := None; RemoteCollectionPath := "/api/{{realm}}/users";
     Format := "json"; Defaults := None; Secret := None; SecretAttributes := None; ExternalizedAttributes := None;
     Operations := None; Transforms := None |}.
Lemma default_operation_paths_witness (T : UnicodeTables := latin1_tables) (E : TemplateEngine := pointer_engine) :
  let scope : object := {[ "realm" := VString "corp"; "id" := VString "u 7" ]} in
  exists spec, ResolveOperationSpecWithScope users_metadata OperationUpdate scope = Ok spec /\ op_Path spec = "/api/corp/users/u 7".
Proof.
  intros scope. pose proof pointer_engine_laws as L.
  assert (is_ok (ResolveOperationSpecWithScope users_metadata OperationUpdate scope) = true) as Hok by (by vm_compute).
  destruct (ResolveOperationSpecWithScope users_metadata OperationUpdate scope) as [spec|e] eqn:Er; [|discriminate Hok].
  exists spec. split; [reflexivity|].
  assert (clean_segment "u 7") as Hid by (repeat split; by vm_compute).
  assert (Forall clean_segment ["api"; "corp"; "users"]) as Hl by (repeat constructor; by vm_compute).
  assert (trimmed (path_of ["api"; "corp"; "users"])) as Ht by (split; by vm_compute).
  assert (default_path users_metadata OperationUpdate) as Hd by (by vm_compute).
  assert (resolveEffectiveRemoteCollectionPath (RemoteCollectionPath users_metadata) scope = Ok (path_of ["api"; "corp"; "users"])) as Hc
    by (vm_compute; reflexivity).
  assert (scope !! "id" = Some (VString "u 7")) as Hs by (vm_compute; reflexivity).
  assert (trails_space "u 7" = false) as Hsp by (by vm_compute).
  exact (default_operation_paths users_metadata OperationUpdate scope ["api"; "corp"; "users"] "u 7" spec Hd Hl Ht Hc Hs Hid Hsp Er).
Defined.
