(* ===== verification/TemplateScope.v ===== *)
(** * The scope of the templates of a resource

    Models [src/metadata/templatescope/operation_scope.go]: the values a template can name
    (the paths and identifiers of the resource, the attributes of its payload, and fields
    derived from its logical path and from its collection path). Ranging over a map has no
    order: the functions that do take the [order] of the keys. *)
From S2P Require Import Prelude GoText GoTextFacts Faults Paths Value Pointer Descriptor Metadata MetaWire TemplateSyntax Identity OperationSpec.

Section scope.
Context `{UnicodeTables}.

Definition scope_collectionPathForLogicalPath (logicalPath : string) : string :=
  let normalized := trim_space logicalPath in
  if (normalized == "") || (normalized == "/") then "/"
  else
    let parent := path_dir normalized in
    if (parent == ".") || (parent == "") then "/" else parent.
Definition scope_splitPathSegments := SplitRawPathSegments.
Definition joinTemplatePaths (collectionPath operationPath : string) : string :=
  let base := trim_space collectionPath in
  let base := if base == "" then "/" else base in
  let relative := trim_space operationPath in
  if relative == "" then base
  else
    let joined := path_join [base; relative] in
    if negb (has_prefix joined "/") then "/" +:+ joined else joined.

(** ** Fields of a path template *)
Abbreviation fields := (gmap string string).
(** The first source of a field wins. *)
Definition mergeTemplateFields (destination source : fields) : fields := destination ∪ source.
(** [None] when a placeholder stands for two segments that differ. *)
Fixpoint match_segments (templates segments : list string) (found : fields) : option fields :=
  match templates, segments with
  | templateSegment :: templates, logicalSegment :: segments =>
      match TemplatePlaceholderKey templateSegment with
      | Some key =>
          match found !! key with
          | Some existing => if existing == logicalSegment then match_segments templates segments found else None
          | None => match_segments templates segments (<[key := logicalSegment]> found)
          end
      | None => if templateSegment == logicalSegment then match_segments templates segments found else Some found
      end
  | _, _ => Some found
  end.
Definition deriveTemplateFieldsFromPathTemplate (pathTemplate logicalPath : string) : fields :=
  if negb (contains pathTemplate "{{") then ∅
  else
    let templateSegments := scope_splitPathSegments pathTemplate in
    let logicalSegments := scope_splitPathSegments logicalPath in
    match templateSegments, logicalSegments with
    | [], _ | _, [] => ∅
    | _, _ => default ∅ (match_segments templateSegments logicalSegments ∅)
    end.

(** ** Paths named in jq expressions *)
(** [jqResourcePathPattern]: after ["resource("], the text between its quotes and the rest
    after the closing parenthesis. *)
Definition is_regexp_space (c : ascii) : bool := bool_decide (c ∈ [" "; "009"; "010"; "012"; "013"]%char).
Fixpoint quoted_body (s : string) : option (string * string) :=
  match s with
  | EmptyString => None
  | String "034" s => Some (""%string, s)
  | String "\" s =>
      match s with
      | EmptyString => None
      | String c s => if c == "010"%char then None else '(b, r) ← quoted_body s; Some (String "\" (String c b), r)
      end
  | String c s => '(b, r) ← quoted_body s; Some (String c b, r)
  end%char.
Definition match_resource_call (s : string) : option (string * string) :=
  if negb (has_prefix s "resource(") then None
  else
    match trim_left_bytes is_regexp_space (str_drop 9 s) with
    | String "034" s =>
        '(b, r) ← quoted_body s;
        match trim_left_bytes is_regexp_space r with String ")" r => Some (b, r) | _ => None end
    | _ => None
    end.
(** [FindAllStringSubmatch]: the first groups of the matches, from left to right; each round
    consumes a byte, so the length of the text is fuel enough. *)
Fixpoint resource_calls (fuel : nat) (s : string) : list string :=
  match fuel, s with
  | S fuel, String _ rest =>
      match match_resource_call s with
      | Some (body, rest) => body :: resource_calls fuel rest
      | None => resource_calls fuel rest
      end
  | _, _ => []
  end.
Definition deriveTemplateFieldsFromJQExpression (jqExpression logicalPath : string) : fields :=
  let trimmedExpression := trim_space jqExpression in
  if (trimmedExpression == "") || negb (contains trimmedExpression "{{") || negb (contains trimmedExpression "resource(") then ∅
  else
    foldl (fun derived body =>
      match unquote (String "034" "" +:+ body +:+ String "034" "") with
      | None => derived
      | Some pathTemplate => mergeTemplateFields derived (deriveTemplateFieldsFromPathTemplate (trim_space pathTemplate) logicalPath)
      end) ∅ (resource_calls (String.length trimmedExpression) trimmedExpression).
Definition deriveTemplateFieldsFromTransforms (steps : option (list TransformStep)) (logicalPath : string) : fields :=
  foldl (fun derived step => mergeTemplateFields derived (deriveTemplateFieldsFromJQExpression (JQExpression step) logicalPath))
    ∅ (default [] steps).
(** The fields of one operation: those of its transforms, then those of its path. *)
Definition operation_fields (collectionTemplate logicalPath : string) (derived : fields) (spec : OperationSpec) : fields :=
  let derived := mergeTemplateFields derived (deriveTemplateFieldsFromTransforms (op_Transforms spec) logicalPath) in
  let templatePath := trim_space (op_Path spec) in
  if templatePath == "" then derived
  else
    let templatePath := if negb (has_prefix templatePath "/") then joinTemplatePaths collectionTemplate templatePath else templatePath in
    mergeTemplateFields derived (deriveTemplateFieldsFromPathTemplate templatePath logicalPath).
Definition DerivePathTemplateFields (logicalPath : string) (md : ResourceMetadata) : fields :=
  let collectionTemplate := trim_space (RemoteCollectionPath md) in
  let collectionTemplate := if collectionTemplate == "" then scope_collectionPathForLogicalPath logicalPath else collectionTemplate in
  let derived := mergeTemplateFields ∅ (deriveTemplateFieldsFromPathTemplate collectionTemplate logicalPath) in
  let derived := mergeTemplateFields derived (deriveTemplateFieldsFromTransforms (Transforms md) logicalPath) in
  let ops := default ∅ (Operations md) in
  foldl (fun derived name => operation_fields collectionTemplate logicalPath derived (default empty_operation (ops !! name)))
    derived (sorted_keys ops).

(** ** Fields of a collection path *)
Definition looksPluralCollectionSegment (segment : string) : bool :=
  let lower := to_lower (trim_space segment) in
  if lower == "" then false else has_suffix lower "s" || has_suffix lower "ies".
Definition singularizeCollectionToken (token : string) : string :=
  let trimmed := trim_space token in
  if trimmed == "" then ""
  else
    let separatorNormalized := replace_all (replace_all trimmed "-" "_") "." "_" in
    let parts := split_on "_" separatorNormalized in
    let last := trim_space (default "" (list.last parts)) in
    if last == "" then ""
    else
      let lower := to_lower last in
      if has_suffix lower "ies" && (3 <? String.length last) then str_take (String.length last - 3) last +:+ "y"
      else if has_suffix lower "s" && (1 <? String.length last) then str_take (String.length last - 1) last
      else last.
Fixpoint collection_fields (segments : list string) (derived : fields) : fields :=
  match segments with
  | [] => derived
  | segment :: segments =>
      match segments with
      | [] => derived
      | next :: _ =>
          let collectionSegment := trim_space segment in
          let key := singularizeCollectionToken collectionSegment in
          let v := trim_space next in
          collection_fields segments
            (if negb (looksPluralCollectionSegment collectionSegment) then derived
             else if (key == "") || (v == "") then derived
             else match derived !! key with Some _ => derived | None => <[key := v]> derived end)
      end
  end.
Definition deriveFieldsFromLogicalCollectionPath (collectionPath : string) : fields :=
  collection_fields (scope_splitPathSegments collectionPath) ∅.

(** ** The scope *)
Definition identity_scope (logicalPath collectionPath alias remoteID : string) (payload : value) : object :=
  let scope : object := list_to_map
    [("logicalPath", VString logicalPath); ("logicalCollectionPath", VString collectionPath);
     ("remoteCollectionPath", VString collectionPath); ("alias", VString alias); ("remoteID", VString remoteID);
     ("payload", payload); ("value", payload)] in
  if negb (trim_space remoteID == "") then <["id" := VString remoteID]> scope else scope.
Definition BuildOperationScope (logicalPath collectionPath alias remoteID : string) (payload : value) : result error object :=
  normalizedPayload ← Normalize payload;
  let scope := identity_scope logicalPath collectionPath alias remoteID normalizedPayload in
  match normalizedPayload with
  | VMap payloadMap =>
      let scope := payloadMap ∪ scope in
      Ok (<["value" := VMap payloadMap]> (<["payload" := VMap payloadMap]> scope))
  | _ => Ok scope
  end.
(** The loop over derived fields: the scope, and the payload object it shares with the
    [payload] and [value] entries, nil when the payload is not an object. *)
Fixpoint add_fields (derived : fields) (keys : list string) (st : object * option object) : object * option object :=
  match keys with
  | [] => st
  | key :: keys =>
      let trimmedKey := trim_space key in
      let trimmedValue := trim_space (default "" (derived !! key)) in
      let st :=
        if (trimmedKey == "") || (trimmedValue == "") then st
        else match st.1 !! trimmedKey with
             | Some _ => st
             | None => (<[trimmedKey := VString trimmedValue]> st.1, insert trimmedKey (VString trimmedValue) <$> st.2)
             end in
      add_fields derived keys st
  end.
(** The shared payload object seen through the scope. *)
Definition share_payload (st : object * option object) : object :=
  match st.2 with
  | Some payloadMap => <["value" := VMap payloadMap]> (<["payload" := VMap payloadMap]> st.1)
  | None => st.1
  end.
Definition BuildResourceScopeWithOptions (order : map_order) (r : Resource) (md : ResourceMetadata) (DerivedCollectionPath : string)
  : result error object :=
  let collectionPath := if trim_space (CollectionPath r) == "" then scope_collectionPathForLogicalPath (LogicalPath r) else CollectionPath r in
  let derivedCollectionPath := trim_space DerivedCollectionPath in
  let derivedCollectionPath := if derivedCollectionPath == "" then collectionPath else derivedCollectionPath in
  scope ← BuildOperationScope (LogicalPath r) collectionPath (LocalAlias r) (RemoteID r) (Payload r);
  let st := (scope, scope !! "payload" ≫= as_object) in
  let pathFields := DerivePathTemplateFields (LogicalPath r) md in
  let st := add_fields pathFields (order pathFields) st in
  let collectionFields := deriveFieldsFromLogicalCollectionPath derivedCollectionPath in
  let st := add_fields collectionFields (order collectionFields) st in
  Ok (share_payload st).
Definition BuildResourceScope (order : map_order) (r : Resource) (md : ResourceMetadata) : result error object :=
  BuildResourceScopeWithOptions order r md "".
End scope.

(** ** What a scope holds *)
Section facts.
Context `{UnicodeTables}.
Context (base p : object) (Hpb : dom p ⊆ dom base).

(** [derived] gives the field [k] the value [s], by one of the [keys]. *)
Definition gives_by (derived : gmap string string) (keys : list string) (k s : string) : Prop :=
  exists key, key ∈ keys /\ trim_space key = k /\ trim_space (default "" (derived !! key)) = s /\ k <> "" /\ s <> "".
Definition with_added (added : gmap string string) : object * option object :=
  (base ∪ (VString <$> added), Some (p ∪ (VString <$> added))).
Lemma with_added_fresh added k : (base ∪ (VString <$> added)) !! k = None -> base !! k = None /\ p !! k = None /\ added !! k = None.
Proof.
  intros [Hb Ha]%lookup_union_None. split; [done|]. rewrite lookup_fmap, fmap_None in Ha. split; [|done].
  apply not_elem_of_dom. intros Hk%Hpb. by apply not_elem_of_dom in Hb.
Qed.
Lemma add_fields_spec derived keys : forall added, dom added ## dom base ->
  exists added', add_fields derived keys (with_added added) = with_added added' /\ dom added' ## dom base /\ added ⊆ added' /\
    (forall k s, added' !! k = Some s -> added !! k = Some s \/ (added !! k = None /\ gives_by derived keys k s)) /\
    (forall k s, gives_by derived keys k s -> is_Some (base !! k) \/ is_Some (added' !! k)).
Proof.
  induction keys as [|key keys IH]; intros added Hd.
  { exists added. split_and!; [done|done|done|auto|]. intros k s (key & []%not_elem_of_nil & _). }
  cbn [add_fields]. set (k := trim_space key). set (s := trim_space (default "" (derived !! key))).
  destruct ((k == "") || (s == "")) eqn:Eb.
  - destruct (IH added Hd) as (added' & E & Hd' & Hsub & Hfrom & Hto). exists added'. split_and!; [exact E|done|done| |].
    + intros k' s' [?|(? & key' & ? & ?)]%Hfrom; [by left|right]. split; [done|]. exists key'. split; [by right|done].
    + intros k' s' (key' & [->|Hin]%elem_of_cons & <- & <- & Hk & Hs); [|apply (Hto _ (trim_space (default "" (derived !! key')))); by exists key'].
      fold k s in Hk, Hs. rewrite !bool_decide_false in Eb by done. done.
  - apply orb_false_iff in Eb as [Hk%bool_decide_eq_false Hs%bool_decide_eq_false].
    unfold with_added at 1. cbn [fst snd]. destruct ((base ∪ (VString <$> added)) !! k) as [v|] eqn:El.
    + destruct (IH added Hd) as (added' & E & Hd' & Hsub & Hfrom & Hto). exists added'. split_and!; [exact E|done|done| |].
      * intros k' s' [?|(? & key' & ? & ?)]%Hfrom; [by left|right]. split; [done|]. exists key'. split; [by right|done].
      * intros k' s' (key' & [->|Hin]%elem_of_cons & <- & <- & Hk' & Hs'); [|apply (Hto _ (trim_space (default "" (derived !! key')))); by exists key'].
        fold k. apply lookup_union_Some_raw in El as [El|[_ El]]; [eauto|]. rewrite lookup_fmap in El.
        apply fmap_Some in El as (w & El & _). right. exists w. by apply (lookup_weaken _ _ _ _ El Hsub).
    + apply with_added_fresh in El as (Hbk & Hpk & Hak).
      match goal with |- context [add_fields derived keys ?st] => assert (st = with_added (<[k := s]> added)) as -> end.
      { unfold with_added. rewrite fmap_insert, <-!insert_union_r by done. reflexivity. }
      destruct (IH (<[k := s]> added)) as (added' & E & Hd' & Hsub & Hfrom & Hto).
      { rewrite dom_insert. apply disjoint_union_l. split; [|done]. apply disjoint_singleton_l. by apply not_elem_of_dom. }
      exists added'. split_and!; [exact E|done|etransitivity; [by apply insert_subseteq|done]| |].
      * intros k' s' Hk'. destruct (Hfrom k' s' Hk') as [Hi|(Hi & key' & Hin & ?)].
        -- apply lookup_insert_Some in Hi as [[<- <-]|[_ Hi]]; [|by left]. right. split; [done|]. exists key.
           split; [by left|]. done.
        -- apply lookup_insert_None in Hi as [Hi _]. right. split; [done|]. exists key'. split; [by right|done].
      * intros k' s' (key' & [->|Hin]%elem_of_cons & <- & <- & Hk' & Hs'); [|apply (Hto _ (trim_space (default "" (derived !! key')))); by exists key'].
        right. exists s. apply (lookup_weaken _ _ _ _ (lookup_insert_eq added k s) Hsub).
Qed.
End facts.

Section precedence.
Context `{UnicodeTables}.
Definition gives (derived : gmap string string) (k s : string) : Prop :=
  exists key raw, derived !! key = Some raw /\ trim_space key = k /\ trim_space raw = s /\ k <> "" /\ s <> "".
Lemma gives_by_order order derived k s : order_ok order -> gives_by derived (order derived) k s <-> gives derived k s.
Proof.
  intros Ho. split.
  - intros (key & Hin & Hk & Hs & ?). apply elem_of_order in Hin as [raw Hr]; [|done]. exists key, raw. by rewrite Hr in Hs.
  - intros (key & raw & Hr & Hk & Hs & ?). exists key. rewrite (elem_of_order order Ho), Hr. split; [eauto|done].
Qed.
(** The values of the resource itself, before those of its payload. *)
Definition resource_scope (r : Resource) (payload : value) : object :=
  identity_scope (LogicalPath r) (if trim_space (CollectionPath r) == "" then scope_collectionPathForLogicalPath (LogicalPath r) else CollectionPath r)
    (LocalAlias r) (RemoteID r) payload.
Definition derived_collection (r : Resource) (path : string) : string :=
  if trim_space path == "" then
    (if trim_space (CollectionPath r) == "" then scope_collectionPathForLogicalPath (LogicalPath r) else CollectionPath r)
  else trim_space path.

(** The scope of a resource whose payload is an object gives a name the attribute of
    the payload, if it has one; otherwise the value of the resource itself ([id],
    [logicalPath], ...); otherwise a field derived from the path templates of the metadata,
    and otherwise one derived from the collection path. The derived fields, and no others,
    are also in the payload the scope holds under [payload] and [value]. *)
Theorem scope_precedence order r md path p scope :
  order_ok order -> Normalize (Payload r) = Ok (VMap p) ->
  BuildResourceScopeWithOptions order r md path = Ok scope ->
  exists added : gmap string string,
    scope = <["value" := VMap (p ∪ (VString <$> added))]> (<["payload" := VMap (p ∪ (VString <$> added))]>
              (p ∪ resource_scope r (VMap p) ∪ (VString <$> added))) /\
    forall k,
      (forall s, added !! k = Some s ->
        p !! k = None /\ resource_scope r (VMap p) !! k = None /\
        (gives (DerivePathTemplateFields (LogicalPath r) md) k s \/
         ((forall s', ~ gives (DerivePathTemplateFields (LogicalPath r) md) k s') /\
          gives (deriveFieldsFromLogicalCollectionPath (derived_collection r path)) k s))) /\
      (forall s, gives (DerivePathTemplateFields (LogicalPath r) md) k s \/
                 gives (deriveFieldsFromLogicalCollectionPath (derived_collection r path)) k s ->
        is_Some (p !! k) \/ is_Some (resource_scope r (VMap p) !! k) \/ is_Some (added !! k)).
Proof.
  intros Ho Hn Hb. unfold BuildResourceScopeWithOptions in Hb. apply bind_Ok in Hb as (sc & Hsc & Hb).
  unfold BuildOperationScope in Hsc. rewrite Hn in Hsc. cbn [mbind result_bind] in Hsc. injection Hsc as Hsc.
  fold (resource_scope r (VMap p)) in Hsc. set (res := resource_scope r (VMap p)) in *.
  assert (forall x, is_Some (sc !! x) <-> is_Some (p !! x) \/ is_Some (res !! x)) as Hdom.
  { intros x. subst sc. assert (is_Some (res !! "payload") /\ is_Some (res !! "value")) as [Hp Hv].
    { unfold res, resource_scope, identity_scope. by destruct (negb _). }
    destruct (decide (x = "value")) as [->|]; [rewrite lookup_insert_eq; naive_solver|]. rewrite lookup_insert_ne by done.
    destruct (decide (x = "payload")) as [->|]; [rewrite lookup_insert_eq; naive_solver|]. rewrite lookup_insert_ne by done.
    rewrite <-!elem_of_dom, dom_union_L, elem_of_union. done. }
  assert (dom p ⊆ dom sc) as Hps by (intros x; rewrite !elem_of_dom, Hdom; by left).
  assert (sc !! "payload" = Some (VMap p)) as Hpay by (by subst sc; rewrite lookup_insert_ne, lookup_insert_eq).
  rewrite Hpay in Hb. cbn [mbind option_bind as_object] in Hb.
  assert ((sc, Some p) = with_added sc p ∅) as E0 by (unfold with_added; by rewrite fmap_empty, !(right_id_L ∅ (∪))).
  rewrite E0 in Hb. cbv zeta in Hb.
  destruct (add_fields_spec sc p Hps (DerivePathTemplateFields (LogicalPath r) md) (order (DerivePathTemplateFields (LogicalPath r) md)) ∅)
    as (a1 & E1 & Hd1 & _ & Hf1 & Ht1); [by rewrite dom_empty_L|]. rewrite E1 in Hb.
  fold (derived_collection r path) in Hb. set (cf := deriveFieldsFromLogicalCollectionPath (derived_collection r path)) in *.
  destruct (add_fields_spec sc p Hps cf (order cf) a1 Hd1) as (a2 & E2 & Hd2 & Hs2 & Hf2 & Ht2).
  rewrite E2 in Hb. injection Hb as <-. exists a2. split.
  { unfold with_added, share_payload. cbn [fst snd]. rewrite <-Hsc. apply map_eq. intros x.
    rewrite !lookup_insert, !lookup_union, !lookup_insert. repeat case_decide; try congruence. by rewrite lookup_union. }
  intros k. assert (forall s, ~ gives_by ∅ [] k s) as Hnone by (intros s (? & []%not_elem_of_nil & _)). split.
  - intros s Hk. assert (sc !! k = None) as Hsk.
    { apply not_elem_of_dom. intros Hin. apply (Hd2 k); [by apply elem_of_dom|done]. }
    assert (p !! k = None /\ res !! k = None) as [Hpk Hrk].
    { split; apply eq_None_not_Some; intros Hsome; apply (eq_None_not_Some (sc !! k)); auto; apply Hdom; tauto. }
    split; [done|split; [done|]]. destruct (Hf2 k s Hk) as [Hk1|[Hk1 Hg]].
    + destruct (Hf1 k s Hk1) as [Hbad|[_ Hg]]; [by rewrite lookup_empty in Hbad|]. left. by apply (gives_by_order order).
    + right. split; [|by apply (gives_by_order order)]. intros s' Hg'. apply (gives_by_order order _ _ _ Ho) in Hg'.
      destruct (Ht1 k s' Hg') as [[]|[]]; congruence.
  - intros s Hg. assert (is_Some (sc !! k) \/ is_Some (a2 !! k)) as [Hs|Hs]; [|apply Hdom in Hs; tauto|auto].
    destruct Hg as [Hg|Hg]; apply (gives_by_order order _ _ _ Ho) in Hg.
    + destruct (Ht1 k s Hg) as [?|[w Hw]]; [by left|right]. exists w. by apply (lookup_weaken _ _ _ _ Hw Hs2).
    + apply (Ht2 k s Hg).
Qed.
End precedence.

Definition scope_resource (p : object) : Resource :=
  {| LogicalPath := "/realms/corp/users/ada"; CollectionPath := ""; LocalAlias := "ada"; RemoteID := "u-1";
     ResolvedRemotePath := ""; Payload := VMap p; Res_PayloadDescriptor := {| PayloadType := ""; MediaType := ""; Extension := "" |} |}.
Definition scope_payload : object := {[ "id" := VString "../x"; "name" := VString "Ada" ]}.
Lemma scope_precedence_witness (T : UnicodeTables := latin1_tables) :
  exists scope, BuildResourceScopeWithOptions key_order (scope_resource scope_payload) users_metadata "" = Ok scope /\
  exists added : gmap string string,
    scope = <["value" := VMap (scope_payload ∪ (VString <$> added))]> (<["payload" := VMap (scope_payload ∪ (VString <$> added))]>
              (scope_payload ∪ resource_scope (scope_resource scope_payload) (VMap scope_payload) ∪ (VString <$> added))).
Proof.
  assert (is_ok (BuildResourceScopeWithOptions key_order (scope_resource scope_payload) users_metadata "") = true) as Hok by (by vm_compute).
  destruct (BuildResourceScopeWithOptions _ _ _ _) as [scope|] eqn:E; [|discriminate Hok]. exists scope. split; [reflexivity|].
  assert (order_ok key_order) as Ho by (by intros m).
  assert (Normalize (Payload (scope_resource scope_payload)) = Ok (VMap scope_payload)) as Hn by (vm_compute; reflexivity).
  destruct (scope_precedence key_order (scope_resource scope_payload) users_metadata "" scope_payload scope Ho Hn E) as (added & Hs & _).
  exists added. exact Hs.
Defined.
(** An [id] attribute of the payload hides the remote identifier, whatever template the
    metadata gives for the identifier. *)
Lemma payload_id_hides_remote_id (T : UnicodeTables := latin1_tables) :
  match BuildResourceScope key_order (scope_resource scope_payload) users_metadata with
  | Ok scope => scope !! "id" = Some (VString "../x") /\ scope !! "remoteID" = Some (VString "u-1") /\ scope !! "realm" = Some (VString "corp")
  | Err _ => False
  end.
Proof. vm_compute. done. Qed.
