(* ===== verification/MetaValidate.v ===== *)
(** * Validation of metadata documents

    Models the [validate] functions of
    [src/internal/providers/metadata/fs/fs_metadata_service_merge.go]: what a document of a
    collection or of a resource must satisfy to be stored or read. *)
From S2P Require Import Prelude GoText GoTextFacts Faults Value Pointer Descriptor DefaultsSpec Metadata MetaWire TemplateSyntax IdentityTemplate OperationSpec.

(** Whether a document describes a resource or a collection
    ([metadataPathKind] of [fs_metadata_service.go]). *)
Inductive metadataPathKind := metadataPathResource | metadataPathCollection.
#[export] Instance metadataPathKind_eq_dec : EqDecision metadataPathKind.
Proof. solve_decision. Defined.

Section validation.
Context `{UnicodeTables, TemplateEngine}.

Definition indexed (field : string) (idx : Z) (rest : string) : string := field +:+ "[" +:+ itoa idx +:+ "]" +:+ rest.
Fixpoint validate_pointers (field : string) (idx : Z) (values : list string) : result error unit :=
  match values with
  | [] => Ok tt
  | v :: values =>
      let trimmed := trim_space v in
      if trimmed == "" then Err (Invalid (indexed field idx " must not be empty") None)
      else
        match ParseJSONPointer trimmed with
        | Err err => Err (Invalid (indexed field idx " must be a valid JSON pointer") (Some err))
        | Ok _ => validate_pointers field (idx + 1) values
        end
  end.
Definition validateAttributePointers (field : string) (values : option (list string)) : result error unit :=
  validate_pointers field 0 (default [] values).
Definition validateIdentityTemplate (field v : string) : result error unit :=
  let trimmed := trim_space v in
  if trimmed == "" then Ok tt
  else
    match compile trimmed with
    | Ok _ => Ok tt
    | Err err => Err (Invalid (field +:+ " must be a valid identity template or JSON pointer shorthand") (Some err))
    end.
Definition validateSelectorSpec (kind : metadataPathKind) (spec : option SelectorSpec) : result error unit :=
  match spec with
  | None | Some {| Descendants := None |} => Ok tt
  | Some _ =>
      if kind == metadataPathCollection then Ok tt
      else Err (Invalid "selector.descendants is only supported on collection metadata" None)
  end.
Definition structured_error (field payloadType : string) (hint : string) : error :=
  Invalid (field +:+ " requires structured payload type (json, yaml, ini, properties); got " +:+ quote payloadType +:+ hint) None.
Definition nonempty {A} (l : option (list A)) : bool := match l with Some (_ :: _) => true | _ => false end.
Definition validateStructuredOnlyMetadataFields (payloadType : string) (m : ResourceMetadata) : result error unit :=
  if (trim_space payloadType == "") || IsStructuredPayloadType payloadType then Ok tt
  else if negb (trim_space (ID m) == "") then Err (structured_error "resource.id" payloadType "")
  else if negb (trim_space (Alias m) == "") then Err (structured_error "resource.alias" payloadType "")
  else if nonempty (SecretAttributes m)
  then Err (structured_error "resource.secretAttributes" payloadType "; use resource.secret: true for whole-resource secrets")
  else if nonempty (RequiredAttributes m) then Err (structured_error "resource.requiredAttributes" payloadType "")
  else if nonempty (ExternalizedAttributes m) then Err (structured_error "resource.externalizedAttributes" payloadType "")
  else if HasDefaultsSpecDirectives (Defaults m) then Err (structured_error "resource.defaults" payloadType "")
  else Ok tt.
Fixpoint validate_steps (scope : string) (idx : Z) (mutations : list TransformStep) : result error unit :=
  match mutations with
  | [] => Ok tt
  | step :: mutations =>
      let stepType := transformStepType step in
      if stepType == "" then
        Err (Invalid (indexed (scope +:+ " transforms") idx
               " must define exactly one of selectAttributes, excludeAttributes, or jqExpression") None)
      else
        (if stepType == "selectAttributes"
         then validateAttributePointers (indexed (scope +:+ " transforms") idx ".selectAttributes") (SelectAttributes step)
         else if stepType == "excludeAttributes"
         then validateAttributePointers (indexed (scope +:+ " transforms") idx ".excludeAttributes") (ExcludeAttributes step)
         else Ok tt);;
        validate_steps scope (idx + 1) mutations
  end.
Definition validateStructuredPayloadDirectives (scope payloadType : string) (mutations : option (list TransformStep))
  (validate : option OperationValidationSpec) : result error unit :=
  validate_steps scope 0 (default [] mutations);;
  if (trim_space payloadType == "") || IsStructuredPayloadType payloadType then Ok tt
  else if negb (nonempty mutations) && negb (bool_decide (is_Some validate)) then Ok tt
  else Err (Invalid (scope +:+ " uses structured payload directives with non-structured payload type " +:+ quote payloadType) None).
Fixpoint validate_not_blank (field suffix : string) (idx : Z) (values : list string) : result error unit :=
  match values with
  | [] => Ok tt
  | v :: values =>
      if trim_space v == "" then Err (Invalid (indexed field idx suffix) None)
      else validate_not_blank field suffix (idx + 1) values
  end.
Definition validateOperationValidationSpec (operation : Operation) (spec : option OperationValidationSpec) : result error unit :=
  match spec with
  | None => Ok tt
  | Some spec =>
      let label := "operation " +:+ quote (operation_string operation) +:+ " validate." in
      validate_not_blank (label +:+ "requiredAttributes") " must not be empty" 0 (default [] (v_RequiredAttributes spec));;
      validateAttributePointers (label +:+ "requiredAttributes") (v_RequiredAttributes spec);;
      validate_not_blank (label +:+ "assertions") ".jq must not be empty" 0 (a_JQ <$> default [] (Assertions spec));;
      let schemaRef := trim_space (SchemaRef spec) in
      if (schemaRef == "") || (schemaRef == "openapi:request-body") || has_prefix schemaRef "openapi:#/" then Ok tt
      else Err (Invalid (label +:+ "schemaRef " +:+ quote schemaRef
                  +:+ " is not supported (expected openapi:request-body or openapi:#/...)") None)
  end.
(** The loop over the operations, in the order of their names. *)
Fixpoint validate_operations (order : map_order) (payloadType : string) (ops : gmap string OperationSpec) (keys : list string)
  : result error unit :=
  match keys with
  | [] => Ok tt
  | key :: keys =>
      if negb (IsValid (operation_of key)) then Err (Invalid ("unsupported metadata operation " +:+ quote key) None)
      else
        let spec := default empty_operation (ops !! key) in
        let label := "operation " +:+ quote key in
        validateStructuredPayloadDirectives label payloadType (op_Transforms spec) (Validate spec);;
        validateOperationValidationSpec (operation_of key) (Validate spec);;
        ValidateOperationSpecTemplates order label spec;;
        validate_operations order payloadType ops keys
  end.
Definition resolved_payload_type (m : ResourceMetadata) : result error string :=
  if trim_space (Format m) == "" then Ok ""
  else
    payloadType ← ValidateResourceFormat (Format m);
    if negb (ResourceFormatAllowsMixedItems payloadType) then Ok payloadType else Ok "".
Definition validateResourceMetadata (order : map_order) (kind : metadataPathKind) (m : ResourceMetadata) : result error unit :=
  resolvedPayloadType ← resolved_payload_type m;
  ValidateDefaultsSpec (Defaults m);;
  validateSelectorSpec kind (Selector m);;
  _ ← ResolveExternalizedAttributes m;
  validateIdentityTemplate "resource.id" (ID m);;
  validateIdentityTemplate "resource.alias" (Alias m);;
  validateAttributePointers "resource.requiredAttributes" (RequiredAttributes m);;
  validateAttributePointers "resource.secretAttributes" (SecretAttributes m);;
  validateStructuredOnlyMetadataFields resolvedPayloadType m;;
  guard_err (IsWholeResourceSecret m && nonempty (SecretAttributes m))
    (Invalid "resource.secret: true and resource.secretAttributes are mutually exclusive" None);;
  validateStructuredPayloadDirectives "metadata defaults" resolvedPayloadType (Transforms m) None;;
  let ops := default ∅ (Operations m) in
  validate_operations order resolvedPayloadType ops (sorted_keys ops).
End validation.
