(* ===== verification/OpenAPIMatch.v ===== *)
(** * The paths of an OpenAPI description

    Models [src/metadata/openapi_match.go] and the path helpers of
    [src/metadata/openapi_infer_identity.go]: the path templates of a description with their
    methods, the template that matches a selector best, the conversion of a template to a
    metadata template, and the comparison of operations. A description is a payload value, so
    its objects are [map[string]any]. *)
From S2P Require Import Prelude GoText GoTextFacts GoGlob Faults Paths PathDescriptor Value Pointer Metadata TemplateSyntax.

Record inferTarget := { it_Selector : string; it_Segments : list string; it_Collection : bool }.
Record openAPICandidate := { oc_path : string; oc_segments : list string; oc_methods : gset string; score : Z }.
Definition no_candidate : openAPICandidate := {| oc_path := ""; oc_segments := []; oc_methods := ∅; score := 0 |}.

Section paths.
Context `{UnicodeTables}.

Definition NormalizeHTTPMethod (method : string) : string := to_lower (trim_space method).
Definition splitPathSegments (v : string) : list string := SplitRawPathSegments v.
(** The regular expression [^\{([^{}]+)\}$] and the trimmed name it captures. *)
Definition openAPIPathParameterName (segment : string) : option string :=
  match trim_space segment with
  | String c rest =>
      let inner := trim_suffix rest "}" in
      if negb ((c == "{"%char) && has_suffix rest "}") || (inner == "") || contains_byte (fun c => (c == "{"%char) || (c == "}"%char)) inner then None
      else let parameterName := trim_space inner in if parameterName == "" then None else Some parameterName
  | EmptyString => None
  end.
Definition isTemplateIdentifier (v : string) : bool := is_identifier (trim_space v).
Definition templateVariableName (segment : string) : option string :=
  match openAPIPathParameterName segment with
  | Some parameterName => if isTemplateIdentifier parameterName then Some parameterName else None
  | None => None
  end.
Definition lastOpenAPIVariable (segments : list string) : option string := last segments ≫= templateVariableName.

(** ** The templates of a description *)
Definition openAPIPathMethods (v : value) : gset string :=
  match as_object v with
  | None => ∅
  | Some pathItem => list_to_set (filter (fun m => m ∈ ["get"; "post"; "put"; "patch"; "delete"]) (NormalizeHTTPMethod <$> sorted_keys pathItem))
  end.
Definition hasOpenAPIMethod (methods : gset string) (method : string) : bool := bool_decide (NormalizeHTTPMethod method ∈ methods).
Definition normalized_path (pathKey : string) : string := path_clean ("/" +:+ trim_bytes is_slash pathKey).
Definition description_paths (openAPISpec : value) : object := default ∅ ((as_object openAPISpec ≫= (.!! "paths")) ≫= as_object).
(** Keys with the same normal form: the greatest one stays. *)
Definition add_path (pathsMap : object) (acc : gmap string (gset string)) (pathKey : string) : gmap string (gset string) :=
  let methods := openAPIPathMethods (default VNil (pathsMap !! pathKey)) in
  if bool_decide (methods = ∅) then acc else <[normalized_path pathKey := methods]> acc.
Definition openAPIPathDefinitions (openAPISpec : value) : gmap string (gset string) :=
  let pathsMap := description_paths openAPISpec in foldl (add_path pathsMap) ∅ (sorted_keys pathsMap).

Fixpoint matchesExactSegmentPrefix (candidate prefix : list string) : bool :=
  match prefix, candidate with
  | [], _ => true
  | p :: prefix, c :: candidate => (c == p) && matchesExactSegmentPrefix candidate prefix
  | _ :: _, [] => false
  end.
Definition item_path_of (target : inferTarget) (pathDefinitions : gmap string (gset string)) (pathKey : string) : bool :=
  let segments := splitPathSegments pathKey in
  let childMethods := default ∅ (pathDefinitions !! pathKey) in
  (length segments =? S (length (it_Segments target)))%nat && matchesExactSegmentPrefix segments (it_Segments target)
  && bool_decide (is_Some (last segments ≫= templateVariableName))
  && (hasOpenAPIMethod childMethods "get" || hasOpenAPIMethod childMethods "put" || hasOpenAPIMethod childMethods "patch"
      || hasOpenAPIMethod childMethods "delete").
Definition promoteInferTargetFromOpenAPI (target : inferTarget) (openAPISpec : value) : inferTarget :=
  if it_Collection target then target
  else
    let pathDefinitions := openAPIPathDefinitions openAPISpec in
    match pathDefinitions !! it_Selector target with
    | None => target
    | Some exactMethods =>
        if negb (hasOpenAPIMethod exactMethods "get") && negb (hasOpenAPIMethod exactMethods "post") then target
        else if existsb (item_path_of target pathDefinitions) (sorted_keys pathDefinitions)
        then {| it_Selector := it_Selector target; it_Segments := it_Segments target; it_Collection := true |}
        else target
    end.

(** ** Matching *)
(** The score of a segment, [None] when it does not match. *)
Definition segment_score (selectorSegment templateSegment : string) : option Z :=
  let templateIsVariable := bool_decide (is_Some (openAPIPathParameterName templateSegment)) in
  if selectorSegment == "_" then Some (if templateIsVariable then 2 else 0)%Z
  else if hasWildcardPattern selectorSegment then
    if templateIsVariable then Some 1%Z
    else if bool_decide (path_match selectorSegment templateSegment = Some true) then Some 1%Z else None
  else if templateIsVariable then Some 1%Z
  else if negb (selectorSegment == templateSegment) then None
  else Some 3%Z. (* a template segment that is no variable names none *)
Fixpoint match_segments (selectorSegments templateSegments : list string) : option Z :=
  match selectorSegments, templateSegments with
  | [], _ => Some 0%Z
  | s :: selectorSegments, t :: templateSegments => x ← segment_score s t; y ← match_segments selectorSegments templateSegments; Some (x + y)%Z
  | _ :: _, [] => None
  end.
Definition matchOpenAPIPath (selectorSegments templateSegments : list string) : option Z :=
  if (length selectorSegments =? 0)%nat then Some 0%Z
  else if (length templateSegments <? length selectorSegments)%nat then None
  else match_segments selectorSegments templateSegments.
Definition better_candidate (selectorSegments : list string) (expectedSegments : nat) (pathDefinitions : gmap string (gset string))
  (best : openAPICandidate) (pathKey : string) : openAPICandidate :=
  let templateSegments := splitPathSegments pathKey in
  if negb (length templateSegments =? expectedSegments)%nat then best
  else match matchOpenAPIPath selectorSegments templateSegments with
       | None => best
       | Some s =>
           if (score best <? s)%Z || ((s =? score best)%Z && ((oc_path best == "") || negb (bool_decide (String.le (oc_path best) pathKey))))
           then {| oc_path := pathKey; oc_segments := templateSegments; oc_methods := default ∅ (pathDefinitions !! pathKey); score := s |}
           else best
       end.
Definition selectOpenAPICandidate (selectorSegments : list string) (expectedSegments : nat) (pathDefinitions : gmap string (gset string))
  : openAPICandidate :=
  let best := foldl (better_candidate selectorSegments expectedSegments pathDefinitions)
                {| oc_path := ""; oc_segments := []; oc_methods := ∅; score := -1 |} (sorted_keys pathDefinitions) in
  if (score best <? 0)%Z then no_candidate else best.

Definition segment_matches (selectorSegment templateSegment : string) : bool :=
  let templateIsVariable := bool_decide (is_Some (openAPIPathParameterName templateSegment)) in
  if selectorSegment == "_" then true
  else if hasWildcardPattern selectorSegment then templateIsVariable || bool_decide (path_match selectorSegment templateSegment = Some true)
  else templateIsVariable || (selectorSegment == templateSegment).
Fixpoint matchOpenAPIPathForExistence (selectorSegments templateSegments : list string) : bool :=
  match selectorSegments, templateSegments with
  | [], [] => true
  | s :: selectorSegments, t :: templateSegments => segment_matches s t && matchOpenAPIPathForExistence selectorSegments templateSegments
  | _, _ => false
  end.
Definition hasOpenAPIPathMatch (selectorSegments : list string) (expectedSegments : nat) (pathDefinitions : gmap string (gset string)) : bool :=
  existsb (fun pathKey =>
    let templateSegments := splitPathSegments pathKey in
    (length templateSegments =? expectedSegments)%nat && matchOpenAPIPathForExistence selectorSegments templateSegments)
    (sorted_keys pathDefinitions).

(** ** Metadata templates *)
Definition template_segment (fallbackSegments : list string) (idx : nat) (segment : string) : string :=
  match openAPIPathParameterName segment with
  | None => segment
  | Some variableName =>
      if isTemplateIdentifier variableName then "{{" +:+ JSONPointerForObjectKey variableName +:+ "}}"
      else match fallbackSegments !! idx with
           | Some fallback => if IsTemplatePlaceholderSegment fallback then fallback else "{{/id}}"
           | None => "{{/id}}"
           end
  end.
Definition openAPIPathToMetadataTemplate (pathTemplate fallbackTemplate : string) : string :=
  match splitPathSegments pathTemplate with
  | [] => "/"
  | segments => "/" +:+ str_join "/" (imap (template_segment (splitPathSegments fallbackTemplate)) segments)
  end.

(** ** Comparing operations *)
Definition nonempty_map {A} (m : option (gmap string A)) : option (gmap string A) :=
  match m with Some m => if bool_decide (size m = 0%nat) then None else Some m | None => None end.
Definition normalizeTransformStepsForComparison (values : option (list TransformStep)) : option (list TransformStep) :=
  match default [] values with
  | [] => None
  | values => Some ((fun v => {| SelectAttributes := DefaultsSpec.cloneStringSlice (SelectAttributes v);
                                 ExcludeAttributes := DefaultsSpec.cloneStringSlice (ExcludeAttributes v);
                                 JQExpression := trim_space (JQExpression v) |}) <$> values)
  end.
Definition normalizeOperationValidationSpecForComparison (v : option OperationValidationSpec) : option OperationValidationSpec :=
  match v with
  | None => None
  | Some v =>
      let required := match v_RequiredAttributes v with Some (_ :: _) => v_RequiredAttributes v | _ => None end in
      let assertions := match Assertions v with Some (_ :: _) => Assertions v | _ => None end in
      let schemaRef := trim_space (SchemaRef v) in
      if bool_decide (required = None) && bool_decide (length (default [] assertions) = 0%nat) && (schemaRef == "") then None
      else Some {| v_RequiredAttributes := required; Assertions := assertions; SchemaRef := schemaRef |}
  end.
Definition normalizeOperationSpecForComparison (spec : OperationSpec) : OperationSpec :=
  {| Method := trim_space (Method spec); op_Path := trim_space (op_Path spec); Query := nonempty_map (Query spec);
     Headers := nonempty_map (Headers spec); Accept := trim_space (Accept spec); ContentType := trim_space (ContentType spec);
     Body := DeepCopyValue (Body spec); op_Transforms := normalizeTransformStepsForComparison (op_Transforms spec);
     Validate := normalizeOperationValidationSpecForComparison (Validate spec) |}.
End paths.
#[export] Instance TransformStep_eq_dec : EqDecision TransformStep. Proof. solve_decision. Defined.
#[export] Instance ValidationAssertion_eq_dec : EqDecision ValidationAssertion. Proof. solve_decision. Defined.
#[export] Instance OperationValidationSpec_eq_dec : EqDecision OperationValidationSpec. Proof. solve_decision. Defined.
(** [reflect.DeepEqual]. *)
Definition specs_deep_equal (a b : OperationSpec) : bool :=
  bool_decide (Method a = Method b) && bool_decide (op_Path a = op_Path b) && bool_decide (Query a = Query b) && bool_decide (Headers a = Headers b)
  && bool_decide (Accept a = Accept b) && bool_decide (ContentType a = ContentType b) && deep_equal (Body a) (Body b)
  && bool_decide (op_Transforms a = op_Transforms b) && bool_decide (Validate a = Validate b).
Section compare.
Context `{UnicodeTables}.
Definition operationSpecsEquivalent (left right : OperationSpec) : bool :=
  specs_deep_equal (normalizeOperationSpecForComparison left) (normalizeOperationSpecForComparison right).
Definition removeDefaultOperationSpecs (operations defaults : option (gmap string OperationSpec)) : option (gmap string OperationSpec) :=
  let filtered := map_imap (fun key spec => match defaults ≫= (.!! key) with
                                            | Some defaultSpec => if operationSpecsEquivalent spec defaultSpec then None else Some spec
                                            | None => Some spec
                                            end) (default ∅ operations) in
  if bool_decide (size filtered = 0%nat) then None else Some filtered.
End compare.

(** ** The candidate that is selected *)
Section select.
Context `{UnicodeTables}.

Lemma segment_score_nonneg s t x : segment_score s t = Some x -> (0 <= x)%Z.
Proof.
  unfold segment_score. repeat case_match; intros; simplify_eq; lia.
Qed.
Lemma match_segments_nonneg ss : forall ts x, match_segments ss ts = Some x -> (0 <= x)%Z.
Proof.
  induction ss as [|s ss IH]; intros [|t ts] x; cbn [match_segments]; try (intros; simplify_eq; lia).
  destruct (segment_score s t) as [a|] eqn:Ea; [|done]. cbn. destruct (match_segments ss ts) as [b|] eqn:Eb; [|done]. cbn.
  intros [= <-]. apply segment_score_nonneg in Ea. apply IH in Eb. lia.
Qed.
Lemma matchOpenAPIPath_nonneg ss ts x : matchOpenAPIPath ss ts = Some x -> (0 <= x)%Z.
Proof.
  unfold matchOpenAPIPath. repeat case_match; try (intros; simplify_eq; lia). apply match_segments_nonneg.
Qed.
(** Both ways of matching agree on segments of the same number. *)
Lemma segment_matches_score s t : segment_matches s t = bool_decide (is_Some (segment_score s t)).
Proof.
  unfold segment_matches, segment_score. destruct (s == "_"); [by rewrite bool_decide_true by eauto|].
  destruct (hasWildcardPattern s), (bool_decide (is_Some (openAPIPathParameterName t))); cbn [orb].
  - by rewrite bool_decide_true by eauto.
  - case_bool_decide; [by rewrite bool_decide_true by eauto|by rewrite bool_decide_false by by intros []].
  - by rewrite bool_decide_true by eauto.
  - destruct (s == t); cbn [negb]; [by rewrite bool_decide_true by eauto|by rewrite bool_decide_false by by intros []].
Qed.
Lemma match_existence_score ss : forall ts, length ts = length ss ->
  matchOpenAPIPathForExistence ss ts = bool_decide (is_Some (matchOpenAPIPath ss ts)).
Proof.
  intros ts Hl. trans (bool_decide (is_Some (match_segments ss ts))).
  - revert ts Hl. induction ss as [|s ss IH]; intros [|t ts] Hl; try done; cbn [matchOpenAPIPathForExistence match_segments].
    rewrite segment_matches_score, IH by by injection Hl. destruct (segment_score s t); [|done].
    rewrite bool_decide_true by eauto. cbn. destruct (match_segments ss ts); [done|]. reflexivity.
  - unfold matchOpenAPIPath. destruct ss as [|s ss]; [done|]. cbn [length Nat.eqb]. rewrite (proj2 (Nat.ltb_ge _ _)); [done|]. rewrite Hl. cbn. lia.
Qed.
Lemma existence_length ss : forall ts, matchOpenAPIPathForExistence ss ts = true -> length ts = length ss.
Proof.
  induction ss as [|s ss IH]; intros [|t ts]; try done. cbn. intros [_ E]%andb_prop. by rewrite (IH _ E).
Qed.
(** So a collection is never found by its items: the second test of [HasOpenAPIPath] on a
    collection, for templates of one segment more, always fails. *)
Lemma item_match_never ss pathDefinitions : hasOpenAPIPathMatch ss (S (length ss)) pathDefinitions = false.
Proof.
  unfold hasOpenAPIPathMatch. apply not_true_iff_false. intros (k & _ & [El%Nat.eqb_eq Em]%andb_prop)%existsb_exists.
  apply existence_length in Em. lia.
Qed.

Context (ss : list string) (n : nat) (pathDefinitions : gmap string (gset string)).
(** A key of [n] segments that matches, with its score. *)
Definition matches_with (k : string) (x : Z) : Prop := length (splitPathSegments k) = n /\ matchOpenAPIPath ss (splitPathSegments k) = Some x.
Definition is_candidate (c : openAPICandidate) : Prop :=
  oc_segments c = splitPathSegments (oc_path c) /\ oc_methods c = default ∅ (pathDefinitions !! oc_path c) /\ matches_with (oc_path c) (score c).
(** The best candidate of the keys seen. *)
Definition best_of (seen : list string) (c : openAPICandidate) : Prop :=
  (score c = (-1)%Z /\ oc_path c = "" /\ forall k x, k ∈ seen -> ~ matches_with k x) \/
  (oc_path c ∈ seen /\ is_candidate c /\ forall k x, k ∈ seen -> matches_with k x -> (x < score c)%Z \/ (x = score c /\ String.le (oc_path c) k)).
Lemma better_candidate_best seen c k : "" ∉ seen -> k <> "" -> Forall (fun k' => String.le k' k) seen -> best_of seen c ->
  best_of (seen ++ [k]) (better_candidate ss n pathDefinitions c k).
Proof.
  intros Hne Hk Hle Hc. unfold better_candidate.
  assert ((forall x, ~ matches_with k x) -> best_of (seen ++ [k]) c) as Hskip.
  { intros Hno. destruct Hc as [(?&?&Hn)|(?&?&Hb)]; [left; split_and!; [done..|]|right; split_and!; [set_solver|done|]].
    - intros k' x [Hin| ->%list_elem_of_singleton]%elem_of_app; [by apply Hn|done].
    - intros k' x [Hin| ->%list_elem_of_singleton]%elem_of_app Hm; [by apply Hb|by apply Hno in Hm]. }
  destruct (length (splitPathSegments k) =? n)%nat eqn:El; cbn [negb].
  2: { apply Hskip. intros x [E _]. apply Nat.eqb_neq in El. done. }
  apply Nat.eqb_eq in El. destruct (matchOpenAPIPath ss (splitPathSegments k)) as [x|] eqn:Em.
  2: { apply Hskip. intros x [_ E]. congruence. }
  pose proof (matchOpenAPIPath_nonneg _ _ _ Em) as Hx.
  assert (matches_with k x) as Hkx by done.
  destruct ((score c <? x)%Z || ((x =? score c)%Z && ((oc_path c == "") || negb (bool_decide (String.le (oc_path c) k))))) eqn:Eb.
  - right. cbn. split_and!; [set_solver|done|]. intros k' y [Hin| ->%list_elem_of_singleton]%elem_of_app Hm.
    + destruct Hc as [(_&_&Hn)|(Hp&_&Hb)]; [by apply Hn in Hm|]. destruct (Hb k' y Hin Hm) as [Hlt|[-> Hle']].
      * apply orb_true_iff in Eb as [E%Z.ltb_lt|[E%Z.eqb_eq _]%andb_prop]; left; lia.
      * apply orb_true_iff in Eb as [E%Z.ltb_lt|[E%Z.eqb_eq E2]%andb_prop]; [left; lia|].
        apply orb_true_iff in E2 as [E2|E2].
        -- apply bool_decide_eq_true in E2. congruence.
        -- apply negb_true_iff, bool_decide_eq_false in E2. destruct E2. exact (proj1 (Forall_forall _ _) Hle _ Hp).
    + right. assert (y = x) as -> by (destruct Hm; congruence). split; [done|reflexivity].
  - apply orb_false_iff in Eb as [E1%Z.ltb_ge E2]. destruct Hc as [(Hs&Hp&_)|(Hp&Hcand&Hb)]; [lia|].
    right. split_and!; [set_solver|done|]. intros k' y [Hin| ->%list_elem_of_singleton]%elem_of_app Hm; [by apply Hb|].
    assert (y = x) as -> by (destruct Hm; congruence). destruct (decide (x < score c)%Z); [by left|right]. split; [lia|].
    apply andb_false_iff in E2 as [E2%Z.eqb_neq|E2]; [lia|]. apply orb_false_iff in E2 as [_ E2]. apply negb_false_iff, bool_decide_eq_true in E2. done.
Qed.
Lemma select_fold_best keys : forall seen c, "" ∉ seen ++ keys -> StronglySorted String.le (seen ++ keys) -> best_of seen c ->
  best_of (seen ++ keys) (foldl (better_candidate ss n pathDefinitions) c keys).
Proof.
  induction keys as [|k keys IH]; intros seen c Hne Hs Hc; cbn [foldl]; [by rewrite app_nil_r|].
  change (k :: keys) with ([k] ++ keys) in *. rewrite app_assoc in *. apply IH; [done|done|].
  assert (StronglySorted String.le (seen ++ [k])) as Hs' by (by eapply StronglySorted_app_1_l).
  apply better_candidate_best; [set_solver|set_solver| |done].
  apply Forall_forall. intros k' Hk'. by eapply (StronglySorted_app_1_elem_of _ _ _ _ _ Hs'), list_elem_of_singleton.
Qed.
(** What is selected: the matching template of [n] segments with the highest score, the
    least in order among those; or nothing, when none matches. *)
Lemma select_candidate : pathDefinitions !! "" = None -> let c := selectOpenAPICandidate ss n pathDefinitions in
  (c = no_candidate /\ forall k x, is_Some (pathDefinitions !! k) -> ~ matches_with k x) \/
  (is_Some (pathDefinitions !! oc_path c) /\ is_candidate c /\
   forall k x, is_Some (pathDefinitions !! k) -> matches_with k x -> (x < score c)%Z \/ (x = score c /\ String.le (oc_path c) k)).
Proof.
  intros Hne. cbv zeta. unfold selectOpenAPICandidate.
  pose proof (select_fold_best (sorted_keys pathDefinitions) [] {| oc_path := ""; oc_segments := []; oc_methods := ∅; score := -1 |}) as Hb.
  cbn [app] in Hb. destruct Hb as [(Hs & Hp & Hn)|(Hp & Hc & Hm)].
  - rewrite elem_of_sorted_keys. intros [? ?]. congruence.
  - apply sorted_keys_sorted.
  - left. split_and!; [done..|]. set_solver.
  - left. rewrite Hs. split; [done|]. intros k x Hk. apply Hn. by apply elem_of_sorted_keys.
  - right. pose proof (matchOpenAPIPath_nonneg _ _ _ (proj2 (proj2 (proj2 Hc)))) as Hx. rewrite (proj2 (Z.ltb_ge _ _)) by lia.
    split_and!; [by apply elem_of_sorted_keys|done|]. intros k x Hk. apply Hm. by apply elem_of_sorted_keys.
Qed.
End select.
(** A path is known exactly when a template of its length is selected for it. *)
Lemma match_iff_selected `{UnicodeTables} ss pathDefinitions : pathDefinitions !! "" = None ->
  hasOpenAPIPathMatch ss (length ss) pathDefinitions = negb (oc_path (selectOpenAPICandidate ss (length ss) pathDefinitions) == "").
Proof.
  intros Hne. apply eq_iff_eq_true. unfold hasOpenAPIPathMatch. rewrite existsb_exists, negb_true_iff, bool_decide_eq_false.
  destruct (select_candidate ss (length ss) pathDefinitions Hne) as [[-> Hno]|(Hk & (_ & _ & Hl & Hm) & _)].
  - split; [|done]. intros (k & Hk & [El%Nat.eqb_eq Em]%andb_prop). exfalso. rewrite match_existence_score in Em by done.
    apply bool_decide_eq_true in Em as [x Hx]. apply (Hno k x); [|done]. by apply elem_of_sorted_keys, list_elem_of_In.
  - split.
    + intros _ E. rewrite E in Hk. destruct Hk. congruence.
    + intros _. eexists. split; [apply list_elem_of_In, elem_of_sorted_keys; exact Hk|]. rewrite match_existence_score by done.
      rewrite Hl, Nat.eqb_refl. cbn. apply bool_decide_eq_true. eauto.
Qed.
