(* ===== verification/OpenAPIInfer.v ===== *)
(** * Metadata inferred from an OpenAPI description

    Models [src/metadata/openapi_infer_helpers.go], [openapi_infer_identity.go] and
    [openapi_infer_schema.go], and [InferFromOpenAPISpec], [HasOpenAPIPath] and
    [CompactInferredMetadataDefaults] of [src/metadata/operation_spec.go]. The walks over the
    schemas stop at depth 24, so the functions recurse on the depth that is left, [25 - depth];
    the references being followed are a set, as the code removes what it adds. *)
From S2P Require Import Prelude GoText GoTextFacts GoGlob Faults Paths PathDescriptor Value Pointer Descriptor Metadata MetaWire TemplateSyntax IdentityTemplate OpenAPIMatch.

Definition max_levels : nat := 25.
(** The first set that is not empty. *)
Fixpoint first_nonempty {A} (f : A -> gset string) (l : list A) : gset string :=
  match l with [] => ∅ | x :: l => let s := f x in if bool_decide (s = ∅) then first_nonempty f l else s end.
Fixpoint first_some {A B} (f : A -> option B) (l : list A) : option B :=
  match l with [] => None | x :: l => match f x with Some y => Some y | None => first_some f l end end.

Section schema.
Context `{UnicodeTables}.
Context (openAPISpec : value).

Definition add_path_item (pathsMap : object) (acc : gmap string object) (pathKey : string) : gmap string object :=
  match pathsMap !! pathKey ≫= as_object with
  | Some pathItem => <[normalized_path pathKey := pathItem]> acc
  | None => acc
  end.
Definition openAPIPathItems : gmap string object :=
  let pathsMap := description_paths openAPISpec in foldl (add_path_item pathsMap) ∅ (sorted_keys pathsMap).

(** ** References *)
Fixpoint follow_reference (current : value) (segments : list string) : option value :=
  match segments with
  | [] => Some current
  | rawSegment :: segments =>
      let segment := replace_all (replace_all rawSegment "~1" "/") "~0" "~" in
      match as_object current ≫= (.!! segment) with
      | Some next => follow_reference next segments
      | None => None
      end
  end.
Definition resolveOpenAPIRef (ref : string) : option value :=
  let trimmedRef := trim_space ref in
  if negb (has_prefix trimmedRef "#/") then None
  else
    let pointer := trim_prefix trimmedRef "#/" in
    if trim_space pointer == "" then Some openAPISpec else follow_reference openAPISpec (split_on slash pointer).
Fixpoint resolveOpenAPIValueRefForInference (levels : nat) (visitedRefs : gset string) (v : value) : option value :=
  match levels with
  | 0%nat => None
  | S levels =>
      match as_object v ≫= (.!! "$ref") with
      | None => Some v
      | Some (VString ref) =>
          let trimmedRef := trim_space ref in
          if trimmedRef == "" then None
          else if bool_decide (trimmedRef ∈ visitedRefs) then None
          else match resolveOpenAPIRef trimmedRef with
               | None => None
               | Some resolved => resolveOpenAPIValueRefForInference levels ({[ trimmedRef ]} ∪ visitedRefs) resolved
               end
      | Some _ => None
      end
  end.

(** ** Attributes of a schema *)
Definition entries_of (o : object) (key : string) : list value := match o !! key with Some (VList entries) => entries | _ => [] end.
Definition trimmed_keys (keys : list string) : gset string := list_to_set (filter (fun s => s <> "") (trim_space <$> keys)).
Fixpoint inferOpenAPISchemaAttributes (levels : nat) (visitedRefs : gset string) (schema : value) : gset string :=
  match levels with
  | 0%nat => ∅
  | S levels =>
      match as_object schema with
      | None => ∅
      | Some schemaMap =>
          let of_members :=
            let combined := ((fun entry => inferOpenAPISchemaAttributes levels visitedRefs entry) <$> entries_of schemaMap "allOf")
                         ++ ((fun entry => inferOpenAPISchemaAttributes levels visitedRefs entry) <$> entries_of schemaMap "oneOf")
                         ++ ((fun entry => inferOpenAPISchemaAttributes levels visitedRefs entry) <$> entries_of schemaMap "anyOf") in
            let properties := default ∅ (schemaMap !! "properties" ≫= as_object) in
            let merged := ⋃ combined ∪ trimmed_keys (sorted_keys properties) in
            if negb (bool_decide (merged = ∅)) then merged
            else match schemaMap !! "items" with
                 | Some itemsValue => inferOpenAPISchemaAttributes levels visitedRefs itemsValue
                 | None => ∅
                 end in
          match schemaMap !! "$ref" with
          | Some (VString ref) =>
              let ref := trim_space ref in
              if ref == "" then of_members
              else if bool_decide (ref ∈ visitedRefs) then ∅
              else match resolveOpenAPIRef ref with
                   | None => of_members
                   | Some resolved =>
                       let resolvedAttributes := inferOpenAPISchemaAttributes levels ({[ ref ]} ∪ visitedRefs) resolved in
                       if bool_decide (resolvedAttributes = ∅) then of_members else resolvedAttributes
                   end
          | _ => of_members
          end
      end
  end.
Definition inferOpenAPIResponseEntryAttributes (levels : nat) (visitedRefs : gset string) (entry : value) : gset string :=
  match levels with
  | 0%nat => ∅
  | S levels =>
      match (as_object entry ≫= (.!! "content")) ≫= as_object with
      | None => ∅
      | Some content =>
          first_nonempty (fun mediaType =>
            match (content !! mediaType ≫= as_object) ≫= (.!! "schema") with
            | Some schemaValue => inferOpenAPISchemaAttributes levels visitedRefs schemaValue
            | None => ∅
            end) (sorted_keys content)
      end
  end.
(** The entries of the responses: the usual statuses first, then the others in order. *)
Definition usual_statuses : list string := ["200"; "201"; "202"; "default"].
Definition response_entries (responses : object) : list value :=
  omap (responses !!.) (usual_statuses ++ filter (fun status => status ∉ usual_statuses) (sorted_keys responses)).
Definition inferOpenAPIOperationResponseAttributes (levels : nat) (visitedRefs : gset string) (operation : object) : gset string :=
  match levels with
  | 0%nat => ∅
  | S levels =>
      match operation !! "responses" ≫= as_object with
      | None => ∅
      | Some responses => first_nonempty (inferOpenAPIResponseEntryAttributes levels visitedRefs) (response_entries responses)
      end
  end.
Definition operation_of_method (candidate : openAPICandidate) (pathItems : gmap string object) (method : string) : option object :=
  if oc_path candidate == "" then None
  else (pathItems !! oc_path candidate ≫= (.!! method)) ≫= as_object.
Definition inferOpenAPIResponseAttributes (candidate : openAPICandidate) (pathItems : gmap string object) : gset string :=
  first_nonempty (fun method =>
    if negb (hasOpenAPIMethod (oc_methods candidate) method) then ∅
    else match operation_of_method candidate pathItems method with
         | Some operationItem => inferOpenAPIOperationResponseAttributes max_levels ∅ operationItem
         | None => ∅
         end) ["get"; "put"; "patch"; "post"].

(** ** Contents and payload types *)
Definition asString (v : value) : string := match v with VString s => s | _ => "" end.
Fixpoint isOpenAPIBinarySchema (levels : nat) (visitedRefs : gset string) (schema : value) : bool :=
  match levels with
  | 0%nat => false
  | S levels =>
      match resolveOpenAPIValueRefForInference levels visitedRefs schema ≫= as_object with
      | None => false
      | Some schemaMap =>
          let text (key : string) := trim_space (asString (default VNil (schemaMap !! key))) in
          if equal_fold (text "type") "string" && equal_fold (text "format") "binary" then true
          else if existsb (isOpenAPIBinarySchema levels visitedRefs) (entries_of schemaMap "allOf" ++ entries_of schemaMap "oneOf" ++ entries_of schemaMap "anyOf")
          then true
          else match schemaMap !! "items" with Some itemsValue => isOpenAPIBinarySchema levels visitedRefs itemsValue | None => false end
      end
  end.
Record openAPIContentCandidate := { cc_mediaType : string; cc_schema : value; cc_payloadType : string; cc_priority : nat }.
Definition inferOpenAPIContentPayloadType (mediaType : string) (schema : value) : option string :=
  if isOpenAPIBinarySchema max_levels ∅ schema then Some PayloadTypeOctetStream else PayloadTypeForMediaType mediaType.
Definition openAPIMediaTypePriority (mediaType : string) (schema : value) : nat :=
  match inferOpenAPIContentPayloadType mediaType schema with
  | None => 6
  | Some payloadType =>
      if payloadType == PayloadTypeJSON then 0
      else if payloadType == PayloadTypeYAML then 1
      else if payloadType == PayloadTypeXML then 2
      else if bool_decide (payloadType ∈ [PayloadTypeHCL; PayloadTypeINI; PayloadTypeProperties; PayloadTypeText]) then 3
      else if payloadType == PayloadTypeOctetStream then 4
      else 5
  end.
Definition candidate_le (a b : openAPIContentCandidate) : Prop :=
  if negb (cc_priority a =? cc_priority b)%nat then (cc_priority a < cc_priority b)%nat else String.le (cc_mediaType a) (cc_mediaType b).
#[local] Instance candidate_le_dec : RelDecision candidate_le.
Proof. intros a b. unfold candidate_le. destruct (negb _); apply _. Defined.
Definition content_candidate (content : object) (mediaType : string) : option openAPIContentCandidate :=
  mediaValue ← content !! mediaType ≫= as_object;
  let schemaValue := default VNil (mediaValue !! "schema") in
  Some {| cc_mediaType := mediaType; cc_schema := schemaValue;
          cc_payloadType := default "" (inferOpenAPIContentPayloadType mediaType schemaValue);
          cc_priority := openAPIMediaTypePriority mediaType schemaValue |}.
Definition selectOpenAPIContentCandidate (content : object) : option openAPIContentCandidate :=
  head (merge_sort candidate_le (omap (content_candidate content) (sorted_keys content))).
(** The content of a response or of a request body. *)
Definition content_of (v : value) : option object :=
  match (as_object v ≫= (.!! "content")) ≫= as_object with
  | Some content => if bool_decide (size content = 0%nat) then None else Some content
  | None => None
  end.
Definition request_body_content (operation : object) : option object :=
  requestBodyValue ← operation !! "requestBody";
  requestBody ← resolveOpenAPIValueRefForInference max_levels ∅ requestBodyValue;
  content_of requestBody.
Definition inferOpenAPIRequestBodySchema (operation : object) : option (value * string) :=
  candidate ← request_body_content operation ≫= selectOpenAPIContentCandidate;
  if is_nil (cc_schema candidate) then None else Some (cc_schema candidate, cc_payloadType candidate).
Definition named_payload_type (candidate : openAPIContentCandidate) : option string :=
  if trim_space (cc_payloadType candidate) == "" then None else Some (cc_payloadType candidate).
Definition inferOpenAPIRequestBodyPayloadType (operation : object) : option string :=
  (request_body_content operation ≫= selectOpenAPIContentCandidate) ≫= named_payload_type.
Definition inferOpenAPIResponseEntryPayloadType (entry : value) : option string :=
  response ← resolveOpenAPIValueRefForInference (max_levels - 1) ∅ entry;
  (content_of response ≫= selectOpenAPIContentCandidate) ≫= named_payload_type.
Definition inferOpenAPIResponsePayloadType (operation : object) : option string :=
  responses ← operation !! "responses" ≫= as_object;
  first_some inferOpenAPIResponseEntryPayloadType (response_entries responses).
Definition inferOpenAPIOperationPayloadTypes (operation : object) : gset string :=
  from_option singleton ∅ (inferOpenAPIRequestBodyPayloadType operation) ∪ from_option singleton ∅ (inferOpenAPIResponsePayloadType operation).

(** ** Required attributes *)
Fixpoint inferOpenAPISchemaRequiredAttributes (levels : nat) (visitedRefs : gset string) (schema : value) : gset string :=
  match levels with
  | 0%nat => ∅
  | S levels =>
      match resolveOpenAPIValueRefForInference levels visitedRefs schema ≫= as_object with
      | None => ∅
      | Some schemaMap =>
          trimmed_keys (omap (fun name => match name with VString s => Some s | _ => None end) (entries_of schemaMap "required"))
          ∪ ⋃ ((fun item => inferOpenAPISchemaRequiredAttributes levels visitedRefs item) <$> entries_of schemaMap "allOf")
      end
  end.
Definition inferOpenAPIOperationValidationSpec (candidate : openAPICandidate) (method : string) (pathItems : gmap string object)
  : option OperationValidationSpec :=
  operationItem ← operation_of_method candidate pathItems (NormalizeHTTPMethod method);
  '(requestBodySchema, payloadType) ← inferOpenAPIRequestBodySchema operationItem;
  if negb (IsStructuredPayloadType payloadType) then None
  else
    let required := inferOpenAPISchemaRequiredAttributes max_levels ∅ requestBodySchema in
    let names := sort_strings (JSONPointerForObjectKey <$> elements required) in
    Some {| v_RequiredAttributes := match names with [] => None | _ => Some names end; Assertions := None; SchemaRef := "openapi:request-body" |}.
End schema.

(** ** Names *)
Section names.
Context `{UnicodeTables}.
Definition is_wild (segment : string) : bool := (segment == "_") || hasWildcardPattern segment.
Definition singularizeToken (token : string) : string :=
  let trimmed := trim_space token in
  if trimmed == "" then ""
  else
    let last_part := trim_space (default "" (last (split_on "_"%char (replace_all (replace_all trimmed "-" "_") "." "_")))) in
    let n := String.length last_part in
    if last_part == "" then ""
    else if has_suffix (to_lower last_part) "ies" && (3 <? n)%nat then str_take (n - 3) last_part +:+ "y"
    else if has_suffix (to_lower last_part) "s" && (1 <? n)%nat then str_take (n - 1) last_part
    else last_part.
(** The segments, the nearest first, that name something. *)
Definition naming_segments (segments : list string) : list string :=
  filter (fun s => s <> "" /\ is_wild s = false) (trim_space <$> reverse segments).
Definition inferCollectionName (target : inferTarget) : string := default "" (head (naming_segments (it_Segments target))).
Definition shouldInferSecretAttribute (target : inferTarget) : bool :=
  let collectionName := to_lower (trim_space (inferCollectionName target)) in
  if collectionName == "" then false
  else (collectionName == "clients") || contains collectionName "secret" || contains collectionName "credential".
(** The name of the placeholder at an index, and the names used with it. *)
Definition inferPlaceholderName (segments : list string) (idx : nat) (used : gmap string nat) : string * gmap string nat :=
  let candidate := match head (naming_segments (take idx segments)) with Some segment => singularizeToken segment | None => "" end in
  let candidate := if candidate == "" then "segment" +:+ itoa (Z.of_nat (S idx)) else candidate in
  let counter := default 0%nat (used !! candidate) in
  (if (0 <? counter)%nat then candidate +:+ itoa (Z.of_nat (S counter)) else candidate, <[candidate := S counter]> used).
Definition add_segment (segments : list string) (acc : list string * gmap string nat) (step : nat * string) : list string * gmap string nat :=
  let '(idx, segment) := step in
  if is_wild segment then
    let '(placeholderName, used) := inferPlaceholderName segments idx acc.2 in
    (acc.1 ++ ["{{" +:+ JSONPointerForObjectKey placeholderName +:+ "}}"], used)
  else (acc.1 ++ [segment], acc.2).
Definition inferCollectionAndResourceTemplatePaths (target : inferTarget) (resourceIdentity : string) : string * string :=
  if negb (it_Collection target) then ("", "")
  else
    let placeholderSuffix := trim_space resourceIdentity in
    let placeholderSuffix := if placeholderSuffix == "" then "id" else placeholderSuffix in
    let segments := it_Segments target in
    let collectionSegments := (foldl (add_segment segments) ([], ∅) (imap pair segments)).1 in
    let collectionPath := match collectionSegments with [] => "/" | _ => "/" +:+ str_join "/" collectionSegments end in
    let item := "/{{" +:+ JSONPointerForObjectKey placeholderSuffix +:+ "}}" in
    (collectionPath, if trim_space collectionPath == "/" then item else collectionPath +:+ item).

Definition attributeSetContains (attributes : gset string) (v : string) : bool :=
  let trimmedValue := trim_space v in
  if trimmedValue == "" then false
  else bool_decide (trimmedValue ∈ attributes) || existsb (fun key => equal_fold (trim_space key) trimmedValue) (elements attributes).
Definition inferAliasFieldNameFromSchema (attributes : gset string) : string :=
  default "" (head (filter (fun candidate => attributeSetContains attributes candidate = true) ["clientId"; "alias"; "name"; "id"; "key"; "uuid"; "uid"])).
(** The fields of the id and of the alias. *)
Definition inferIdentityAttributes (target : inferTarget) (openAPIIdentityAttribute : string) (openAPIResourceAttributes : gset string) : string * string :=
  let openAPIAliasCandidate := trim_space openAPIIdentityAttribute in
  let aliasFromOpenAPIIdentity := negb (openAPIAliasCandidate == "")
    && (bool_decide (openAPIResourceAttributes = ∅) || attributeSetContains openAPIResourceAttributes openAPIAliasCandidate) in
  let aliasFieldName := if aliasFromOpenAPIIdentity then openAPIAliasCandidate else "" in
  let aliasFieldName := if aliasFieldName == "" then inferAliasFieldNameFromSchema openAPIResourceAttributes else aliasFieldName in
  let aliasFieldName :=
    if aliasFieldName == "" then
      let singularCollectionName := singularizeToken (inferCollectionName target) in
      if singularCollectionName == "" then "id" else if singularCollectionName == "client" then "clientId" else singularCollectionName
    else aliasFieldName in
  let idFieldName :=
    if negb aliasFromOpenAPIIdentity && attributeSetContains openAPIResourceAttributes "id" then "id"
    else if has_suffix (to_lower aliasFieldName) "id" && negb (to_lower aliasFieldName == "id") then "id"
    else aliasFieldName in
  (idFieldName, aliasFieldName).
End names.

(** ** Inference *)
Section infer.
Context `{UnicodeTables}.
Definition parseInferTarget (logicalPath : string) : result error inferTarget :=
  pathDescriptor ← ParsePathDescriptor logicalPath;
  if negb (pd_Collection pathDescriptor) && (pd_Selector pathDescriptor == "/")
  then Err (NewTypedError ValidationError "resource metadata path must not target root" None)
  else Ok {| it_Selector := pd_Selector pathDescriptor; it_Segments := pd_Segments pathDescriptor; it_Collection := pd_Collection pathDescriptor |}.
Definition inferred_operation (method path : string) (validate : option OperationValidationSpec) : OperationSpec :=
  {| Method := method; op_Path := path; Query := None; Headers := None; Accept := ""; ContentType := ""; Body := VNil;
     op_Transforms := None; Validate := validate |}.
Definition inferred_metadata (remoteCollectionPath format : string) (operations : gmap string OperationSpec) : ResourceMetadata :=
  {| Selector := None; ID := ""; Alias := ""; RequiredAttributes := None; RemoteCollectionPath := remoteCollectionPath; Format := format;
     Defaults := None; Secret := None; SecretAttributes := None; ExternalizedAttributes := None; Operations := Some operations; Transforms := None |}.
Definition inferFallbackMetadata (target : inferTarget) : ResourceMetadata :=
  let simple (method path : string) := inferred_operation method path None in
  if negb (it_Collection target) then
    let selector := it_Selector target in
    let collectionPath := path_dir selector in
    let collectionPath := if (collectionPath == ".") || (collectionPath == "") then "/" else collectionPath in
    inferred_metadata collectionPath "" (list_to_map
      [("get", simple "GET" selector); ("create", simple "POST" selector); ("update", simple "PUT" selector);
       ("delete", simple "DELETE" selector); ("list", simple "GET" collectionPath); ("compare", simple "GET" selector)])
  else
    let '(idFieldName, _) := inferIdentityAttributes target "" ∅ in
    let '(collectionPath, resourcePath) := inferCollectionAndResourceTemplatePaths target idFieldName in
    inferred_metadata collectionPath "" (list_to_map
      ((if collectionPath == "" then [] else [("list", simple "GET" collectionPath); ("create", simple "POST" collectionPath)])
       ++ (if resourcePath == "" then []
           else [("get", simple "GET" resourcePath); ("update", simple "PUT" resourcePath); ("delete", simple "DELETE" resourcePath);
                 ("compare", simple "GET" resourcePath)]))).
Definition default_path (defaults : ResourceMetadata) (operation : string) : string :=
  op_Path (default empty_operation (Operations defaults ≫= (.!! operation))).
Definition collection_operations (candidate : openAPICandidate) (path : string) (pathItems : gmap string object) (openAPISpec : value)
  : list (string * OperationSpec) :=
  (if hasOpenAPIMethod (oc_methods candidate) "get" then [("list", inferred_operation "GET" path None)] else [])
  ++ (if hasOpenAPIMethod (oc_methods candidate) "post"
      then [("create", inferred_operation "POST" path (inferOpenAPIOperationValidationSpec openAPISpec candidate "post" pathItems))] else []).
Definition resource_operations (candidate : openAPICandidate) (path : string) (pathItems : gmap string object) (openAPISpec : value)
  : list (string * OperationSpec) :=
  (if hasOpenAPIMethod (oc_methods candidate) "get" then [("get", inferred_operation "GET" path None); ("compare", inferred_operation "GET" path None)] else [])
  ++ (if hasOpenAPIMethod (oc_methods candidate) "put"
      then [("update", inferred_operation "PUT" path (inferOpenAPIOperationValidationSpec openAPISpec candidate "put" pathItems))]
      else if hasOpenAPIMethod (oc_methods candidate) "patch"
      then [("update", inferred_operation "PATCH" path (inferOpenAPIOperationValidationSpec openAPISpec candidate "patch" pathItems))] else [])
  ++ (if hasOpenAPIMethod (oc_methods candidate) "delete" then [("delete", inferred_operation "DELETE" path None)] else []).
Definition collectOpenAPICandidatePayloadTypes (candidate : openAPICandidate) (pathItems : gmap string object) (openAPISpec : value) : gset string :=
  ⋃ ((fun method => match operation_of_method candidate pathItems method with
                    | Some operationItem => inferOpenAPIOperationPayloadTypes openAPISpec operationItem
                    | None => ∅
                    end) <$> elements (oc_methods candidate)).
Definition inferOpenAPIMetadataPayloadTypes (collectionCandidate resourceCandidate : openAPICandidate) (pathItems : gmap string object) (openAPISpec : value)
  : list string :=
  sort_strings (elements (collectOpenAPICandidatePayloadTypes collectionCandidate pathItems openAPISpec
                          ∪ collectOpenAPICandidatePayloadTypes resourceCandidate pathItems openAPISpec)).
Definition inferredOpenAPIMetadataFormat (payloadTypes : list string) : string :=
  match payloadTypes with [] => "" | [payloadType] => payloadType | _ => ResourceFormatAny end.
(** The collection and the resource candidate of a target. *)
Definition candidates_of (target : inferTarget) (pathDefinitions : gmap string (gset string)) : openAPICandidate * openAPICandidate :=
  let n := length (it_Segments target) in
  if it_Collection target then
    (selectOpenAPICandidate (it_Segments target) n pathDefinitions, selectOpenAPICandidate (it_Segments target) (S n) pathDefinitions)
  else
    (match n with
     | 0%nat => no_candidate
     | S m => selectOpenAPICandidate (splitPathSegments (path_dir (it_Selector target))) m pathDefinitions
     end, selectOpenAPICandidate (it_Segments target) n pathDefinitions).
(** The metadata, the identity attribute of the resource path, and the attributes of its schema. *)
Definition inferMetadataFromOpenAPISpec (target : inferTarget) (openAPISpec : value) : ResourceMetadata * (string * gset string) :=
  let pathDefinitions := openAPIPathDefinitions openAPISpec in
  if bool_decide (size pathDefinitions = 0%nat) then (empty_metadata, ("", ∅))
  else
    let defaults := inferFallbackMetadata target in
    let pathItems := openAPIPathItems openAPISpec in
    let '(collectionCandidate, resourceCandidate) := candidates_of target pathDefinitions in
    let collectionPath := if oc_path collectionCandidate == "" then ""
                          else openAPIPathToMetadataTemplate (oc_path collectionCandidate) (default_path defaults "list") in
    let collectionOperations := if oc_path collectionCandidate == "" then []
                                else collection_operations collectionCandidate collectionPath pathItems openAPISpec in
    let attributes := inferOpenAPIResponseAttributes openAPISpec resourceCandidate pathItems in
    let attributes := if bool_decide (attributes = ∅) then inferOpenAPIResponseAttributes openAPISpec collectionCandidate pathItems else attributes in
    let identityAttribute := if oc_path resourceCandidate == "" then "" else default "" (lastOpenAPIVariable (oc_segments resourceCandidate)) in
    let resourceOperations :=
      if oc_path resourceCandidate == "" then []
      else resource_operations resourceCandidate
             (openAPIPathToMetadataTemplate (oc_path resourceCandidate) (default_path defaults "get")) pathItems openAPISpec in
    let operations : gmap string OperationSpec := list_to_map (collectionOperations ++ resourceOperations) in
    if bool_decide (size operations = 0%nat) then (empty_metadata, (identityAttribute, attributes))
    else
      (inferred_metadata collectionPath
         (inferredOpenAPIMetadataFormat (inferOpenAPIMetadataPayloadTypes collectionCandidate resourceCandidate pathItems openAPISpec)) operations,
       (identityAttribute, attributes)).

Record InferenceRequest := { ir_Apply : bool; ir_Recursive : bool }.
Definition no_request : InferenceRequest := {| ir_Apply := false; ir_Recursive := false |}.
Definition inferred_identity (target : inferTarget) (identityAttribute : string) (attributes : gset string) (inferred : ResourceMetadata) : ResourceMetadata :=
  let '(idFieldName, aliasFieldName) := inferIdentityAttributes target identityAttribute attributes in
  {| Selector := Selector inferred;
     ID := if trim_space idFieldName == "" then ID inferred else PointerTemplate (JSONPointerForObjectKey idFieldName);
     Alias := if trim_space aliasFieldName == "" then Alias inferred else PointerTemplate (JSONPointerForObjectKey aliasFieldName);
     RequiredAttributes := RequiredAttributes inferred; RemoteCollectionPath := RemoteCollectionPath inferred; Format := Format inferred;
     Defaults := Defaults inferred; Secret := Secret inferred;
     SecretAttributes := if shouldInferSecretAttribute target then Some [JSONPointerForObjectKey "secret"] else SecretAttributes inferred;
     ExternalizedAttributes := ExternalizedAttributes inferred; Operations := Operations inferred; Transforms := Transforms inferred |}.
Definition InferFromOpenAPISpec (logicalPath : string) (request : InferenceRequest) (openAPISpec : value) : result error ResourceMetadata :=
  if ir_Recursive request then Err (NewTypedError ValidationError "recursive metadata inference is not yet supported" None)
  else
    target ← parseInferTarget logicalPath;
    let target := promoteInferTargetFromOpenAPI target openAPISpec in
    let '(openAPIMetadata, (identityAttribute, attributes)) := inferMetadataFromOpenAPISpec target openAPISpec in
    let inferred := MergeResourceMetadata (inferFallbackMetadata target) openAPIMetadata in
    Ok (if it_Collection target then inferred_identity target identityAttribute attributes inferred else inferred).
Definition InferFromOpenAPI (logicalPath : string) (request : InferenceRequest) : result error ResourceMetadata :=
  InferFromOpenAPISpec logicalPath request VNil.
Definition HasOpenAPIPath (logicalPath : string) (openAPISpec : value) : result error bool :=
  target ← parseInferTarget logicalPath;
  let target := promoteInferTargetFromOpenAPI target openAPISpec in
  let pathDefinitions := openAPIPathDefinitions openAPISpec in
  let n := length (it_Segments target) in
  if bool_decide (size pathDefinitions = 0%nat) then Ok (false : bool)
  else if it_Collection target then
    if hasOpenAPIPathMatch (it_Segments target) n pathDefinitions then Ok true
    else Ok (hasOpenAPIPathMatch (it_Segments target) (S n) pathDefinitions)
  else Ok (hasOpenAPIPathMatch (it_Segments target) n pathDefinitions).
Definition CompactInferredMetadataDefaults (logicalPath : string) (inferred : ResourceMetadata) (openAPISpec : value) : result error ResourceMetadata :=
  target ← parseInferTarget logicalPath;
  let target := promoteInferTargetFromOpenAPI target openAPISpec in
  let defaults := MergeResourceMetadata (inferFallbackMetadata target) (inferMetadataFromOpenAPISpec target openAPISpec).1 in
  Ok {| Selector := None; ID := ID inferred; Alias := Alias inferred;
        RequiredAttributes := DefaultsSpec.cloneStringSlice (RequiredAttributes inferred);
        RemoteCollectionPath := if trim_space (RemoteCollectionPath inferred) == trim_space (RemoteCollectionPath defaults) then ""
                                else RemoteCollectionPath inferred;
        Format := if trim_space (Format inferred) == trim_space (Format defaults) then "" else Format inferred;
        Defaults := None; Secret := cloneBoolPointer (Secret inferred);
        SecretAttributes := DefaultsSpec.cloneStringSlice (SecretAttributes inferred);
        ExternalizedAttributes := cloneExternalizedAttributes (ExternalizedAttributes inferred);
        Operations := removeDefaultOperationSpecs (cloneOperationMap (Operations inferred)) (Operations defaults);
        Transforms := CloneTransformSteps (Transforms inferred) |}.
End infer.

(** ** A path is known exactly when a template is selected for it *)
Section facts.
Context `{UnicodeTables}.

Lemma normalized_path_nonempty k : normalized_path k <> "".
Proof. unfold normalized_path, path_clean. generalize (trim_bytes is_slash k). intros t. by destruct t. Qed.
Lemma definitions_no_empty openAPISpec : openAPIPathDefinitions openAPISpec !! "" = None.
Proof.
  unfold openAPIPathDefinitions. generalize (description_paths openAPISpec). intros o.
  assert (forall acc : gmap string (gset string), acc !! "" = None -> foldl (add_path o) acc (sorted_keys o) !! "" = None) as Hf; [|by apply Hf].
  induction (sorted_keys o) as [|k ks IH]; intros acc Hacc; cbn [foldl]; [done|]. apply IH. unfold add_path. case_bool_decide; [done|].
  rewrite lookup_insert_ne; [done|]. apply normalized_path_nonempty.
Qed.
(** Metadata of a collection path, a format and operations alone. *)
Definition bare (m : ResourceMetadata) : Prop :=
  m = {| Selector := None; ID := ""; Alias := ""; RequiredAttributes := None; RemoteCollectionPath := RemoteCollectionPath m; Format := Format m;
         Defaults := None; Secret := None; SecretAttributes := None; ExternalizedAttributes := None; Operations := Operations m; Transforms := None |}.
Lemma inferred_bare target openAPISpec : bare (inferFallbackMetadata target) /\ bare (inferMetadataFromOpenAPISpec target openAPISpec).1.
Proof.
  split.
  - unfold inferFallbackMetadata. destruct (negb _); [done|]. destruct (inferIdentityAttributes _ _ _), (inferCollectionAndResourceTemplatePaths _ _). done.
  - unfold inferMetadataFromOpenAPISpec. case_bool_decide; [done|]. destruct (candidates_of _ _). by case_bool_decide.
Qed.
Lemma merge_bare a b : bare a -> bare b -> bare (MergeResourceMetadata a b).
Proof. intros -> ->. done. Qed.

(** ** Operations without a body *)
Definition no_bodies (m : ResourceMetadata) : Prop := map_Forall (fun _ spec => Body spec = VNil) (default ∅ (Operations m)).
Lemma list_no_bodies (l : list (string * OperationSpec)) : Forall (fun p => Body p.2 = VNil) l ->
  map_Forall (fun _ spec => Body spec = VNil) (list_to_map l : gmap string OperationSpec).
Proof. induction 1 as [|[k x] l Hx Hl IH]; cbn; [apply map_Forall_empty|by apply map_Forall_insert_2]. Qed.
Lemma collection_operations_no_bodies c p items spec : Forall (fun p => Body p.2 = VNil) (collection_operations c p items spec).
Proof. unfold collection_operations. repeat case_match; cbn; repeat constructor. Qed.
Lemma resource_operations_no_bodies c p items spec : Forall (fun p => Body p.2 = VNil) (resource_operations c p items spec).
Proof. unfold resource_operations. repeat case_match; cbn; repeat constructor. Qed.
Lemma inferred_no_bodies target openAPISpec : no_bodies (inferFallbackMetadata target) /\ no_bodies (inferMetadataFromOpenAPISpec target openAPISpec).1.
Proof.
  split.
  - unfold inferFallbackMetadata. destruct (negb _); [apply list_no_bodies; repeat constructor|].
    destruct (inferIdentityAttributes _ _ _), (inferCollectionAndResourceTemplatePaths _ _). apply list_no_bodies.
    apply Forall_app. split; repeat case_match; repeat constructor.
  - unfold inferMetadataFromOpenAPISpec. case_bool_decide; [apply map_Forall_empty|]. destruct (candidates_of _ _) as [cc rc].
    case_bool_decide; [apply map_Forall_empty|]. apply list_no_bodies, Forall_app. split.
    + destruct (oc_path cc == ""); [constructor|apply collection_operations_no_bodies].
    + destruct (oc_path rc == ""); [constructor|apply resource_operations_no_bodies].
Qed.
Lemma merge_spec_body a b : Body a = VNil -> Body b = VNil -> Body (MergeOperationSpec a b) = VNil.
Proof. intros Ha Hb. cbn. rewrite Hb. cbn. by rewrite Ha. Qed.
Lemma merge_no_bodies a b : no_bodies a -> no_bodies b -> no_bodies (MergeResourceMetadata a b).
Proof.
  unfold no_bodies. intros Ha Hb. cbn [Operations MergeResourceMetadata]. rewrite cloneOperationMap_id.
  destruct (Operations b) as [o|]; [|done]. intros k spec.
  change (default ∅ (Some (merge merge_operation (default ∅ (Operations a)) o))) with (merge merge_operation (default ∅ (Operations a)) o).
  rewrite lookup_merge. unfold diag_None.
  destruct (default ∅ (Operations a) !! k) as [x|] eqn:Ea, (o !! k) as [y|] eqn:Eb; cbn [merge_operation]; try done; intros [= <-].
  - apply merge_spec_body; [by apply (Ha k)|by apply (Hb k)].
  - by apply (Ha k).
  - apply merge_spec_body; [done|by apply (Hb k)].
Qed.
Lemma equivalent_refl spec : Body spec = VNil -> operationSpecsEquivalent spec spec = true.
Proof. intros Hb. unfold operationSpecsEquivalent, specs_deep_equal. rewrite !bool_decide_true by done. cbn. by rewrite Hb. Qed.
Lemma remove_own_operations m : map_Forall (fun _ spec => Body spec = VNil) (default ∅ m) -> removeDefaultOperationSpecs m m = None.
Proof.
  intros Hm. unfold removeDefaultOperationSpecs. rewrite bool_decide_true; [done|]. apply map_size_empty_iff, map_empty. intros k.
  rewrite map_lookup_imap. destruct (default ∅ m !! k) as [spec|] eqn:E; [|done]. cbn. destruct m as [m|]; [|done]. cbn in *.
  rewrite E. by rewrite equivalent_refl by by apply (Hm k).
Qed.
End facts.

(** What a description is asked and what is inferred from it agree: [HasOpenAPIPath]
    answers yes exactly when inference selects a template for the target, with as many
    segments as the target has; then the template is one of the description, it matches the
    target, no other template of that length scores higher, and among those that score the
    same it is the least. The second test on a collection, for the templates of its items,
    never adds an answer. *)
Theorem known_path_is_selected `{UnicodeTables} logicalPath openAPISpec target : parseInferTarget logicalPath = Ok target ->
  let t := promoteInferTargetFromOpenAPI target openAPISpec in
  let n := length (it_Segments t) in
  let pathDefinitions := openAPIPathDefinitions openAPISpec in
  let c := selectOpenAPICandidate (it_Segments t) n pathDefinitions in
  exists known, HasOpenAPIPath logicalPath openAPISpec = Ok known /\
    if known : bool
    then is_Some (pathDefinitions !! oc_path c) /\ is_candidate (it_Segments t) n pathDefinitions c /\
         forall k x, is_Some (pathDefinitions !! k) -> matches_with (it_Segments t) n k x -> (x < score c)%Z \/ (x = score c /\ String.le (oc_path c) k)
    else c = no_candidate /\ forall k x, is_Some (pathDefinitions !! k) -> ~ matches_with (it_Segments t) n k x.
Proof.
  intros Ht. cbv zeta. set (t := promoteInferTargetFromOpenAPI target openAPISpec). set (n := length (it_Segments t)).
  pose proof (definitions_no_empty openAPISpec) as Hne. exists (hasOpenAPIPathMatch (it_Segments t) n (openAPIPathDefinitions openAPISpec)). split.
  - unfold HasOpenAPIPath. rewrite Ht. cbn [mbind result_bind]. fold t n. case_bool_decide as Hsize.
    + apply map_size_empty_iff in Hsize. by rewrite Hsize.
    + destruct (it_Collection t); [|done]. unfold n. rewrite item_match_never. by destruct (hasOpenAPIPathMatch _ _ _).
  - unfold n. rewrite match_iff_selected by done.
    destruct (select_candidate (it_Segments t) (length (it_Segments t)) _ Hne) as [[-> Hno]|(Hk & Hc & Hb)]; [done|].
    rewrite bool_decide_false; [done|]. intros E. rewrite E in Hk. destruct Hk. congruence.
Qed.

(** What inference starts from, before the identity is added. *)
Definition inferred_defaults `{UnicodeTables} (logicalPath : string) (openAPISpec : value) : result error ResourceMetadata :=
  target ← parseInferTarget logicalPath;
  let target := promoteInferTargetFromOpenAPI target openAPISpec in
  Ok (MergeResourceMetadata (inferFallbackMetadata target) (inferMetadataFromOpenAPISpec target openAPISpec).1).

(** Inferred metadata loses nothing when it is compacted: what is left are the
    templates of the id and of the alias and the secret attributes, and merged over what is
    inferred for the path without them it is the inferred metadata again. *)
Theorem inferred_metadata_compacts `{UnicodeTables} logicalPath openAPISpec apply_it md :
  InferFromOpenAPISpec logicalPath {| ir_Apply := apply_it; ir_Recursive := false |} openAPISpec = Ok md ->
  exists c base, CompactInferredMetadataDefaults logicalPath md openAPISpec = Ok c /\ inferred_defaults logicalPath openAPISpec = Ok base /\
    c = {| Selector := None; ID := ID md; Alias := Alias md; RequiredAttributes := None; RemoteCollectionPath := ""; Format := "";
           Defaults := None; Secret := None; SecretAttributes := SecretAttributes md; ExternalizedAttributes := None;
           Operations := None; Transforms := None |} /\
    MergeResourceMetadata base c = md.
Proof.
  unfold InferFromOpenAPISpec, CompactInferredMetadataDefaults, inferred_defaults. cbn [ir_Recursive].
  destruct (parseInferTarget logicalPath) as [target0|e]; [|done]. cbn [mbind result_bind].
  set (target := promoteInferTargetFromOpenAPI target0 openAPISpec).
  pose proof (inferred_no_bodies target openAPISpec) as [Ha Hb]. pose proof (inferred_bare target openAPISpec) as [Ba Bb].
  pose proof (merge_no_bodies _ _ Ha Hb) as Hm. pose proof (merge_bare _ _ Ba Bb) as Hbare.
  destruct (inferMetadataFromOpenAPISpec target openAPISpec) as [m [identity attrs]]. cbn [fst] in *.
  set (base := MergeResourceMetadata (inferFallbackMetadata target) m) in *. intros [= <-].
  assert (exists id alias secrets, (if it_Collection target then inferred_identity target identity attrs base else base)
    = {| Selector := None; ID := id; Alias := alias; RequiredAttributes := None; RemoteCollectionPath := RemoteCollectionPath base;
         Format := Format base; Defaults := None; Secret := None; SecretAttributes := secrets; ExternalizedAttributes := None;
         Operations := Operations base; Transforms := None |}) as (id & alias & secrets & ->).
  { destruct (it_Collection target); [|by eexists _, _, _]. unfold inferred_identity. destruct (inferIdentityAttributes _ _ _) as [i al].
    rewrite Hbare. cbn. by eexists _, _, _. }
  eexists _, base. split; [reflexivity|]. split; [reflexivity|]. cbn -[MergeResourceMetadata].
  rewrite !bool_decide_true by done. rewrite cloneOperationMap_id, remove_own_operations by done. rewrite !cloneStringSlice_id.
  split; [done|]. clearbody base. rewrite Hbare. unfold MergeResourceMetadata. cbn. autorewrite with clones. by rewrite !merge_text_nil.
Qed.

(** ** A description of users *)
Definition named (names : list (string * value)) : value := VMap (list_to_map names).
Definition users_description : value :=
  let schema := named [("type", VString "object"); ("required", VList [VString "name"]);
                       ("properties", named [("id", named []); ("name", named [])])] in
  let content := named [("content", named [("application/json", named [("schema", schema)])])] in
  named [("paths", named [
    ("/users", named [("get", named []); ("post", named [("requestBody", content)])]);
    ("/users/{id}", named [("get", named [("responses", named [("200", content)])]); ("put", named []); ("delete", named [])])])].
Definition inferred_users (T : UnicodeTables := latin1_tables) : ResourceMetadata :=
  match InferFromOpenAPISpec "/users/_" no_request users_description with Ok md => md | Err _ => empty_metadata end.
Example users_inferred (T : UnicodeTables := latin1_tables) :
  ID inferred_users = "{{/id}}" /\ Alias inferred_users = "{{/id}}" /\ RemoteCollectionPath inferred_users = "/users" /\ Format inferred_users = "json" /\
  (((Operations inferred_users ≫= (.!! "create")) ≫= Validate) ≫= v_RequiredAttributes) = Some ["/name"] /\
  (op_Path <$> (Operations inferred_users ≫= (.!! "update"))) = Some "/users/{{/id}}".
Proof. vm_compute. done. Qed.
(** A collection of which the description has only the items is not known, though its items
    are inferred. *)
Example items_alone_unknown (T : UnicodeTables := latin1_tables)
  (items := named [("paths", named [("/users/{id}", named [("get", named []); ("put", named [])])])]) :
  HasOpenAPIPath "/users/_" items = Ok false /\
  (Operations (inferMetadataFromOpenAPISpec {| it_Selector := "/users"; it_Segments := ["users"]; it_Collection := true |} items).1
     ≫= (.!! "update")) = Some (inferred_operation "PUT" "/users/{{/id}}" None).
Proof. split; vm_compute; reflexivity. Qed.
Lemma known_path_is_selected_witness (T : UnicodeTables := latin1_tables) :
  exists known, HasOpenAPIPath "/users/_" users_description = Ok known /\ known = true.
Proof.
  set (target := {| it_Selector := "/users"; it_Segments := ["users"]; it_Collection := true |}).
  assert (parseInferTarget "/users/_" = Ok target) as Ht by (vm_compute; reflexivity).
  destruct (known_path_is_selected "/users/_" users_description target Ht) as (known & Hk & _).
  exists known. split; [exact Hk|]. assert (HasOpenAPIPath "/users/_" users_description = Ok true) as E by (vm_compute; reflexivity). congruence.
Defined.
Lemma inferred_metadata_compacts_witness (T : UnicodeTables := latin1_tables) :
  exists c base, CompactInferredMetadataDefaults "/users/_" inferred_users users_description = Ok c /\
    inferred_defaults "/users/_" users_description = Ok base /\ MergeResourceMetadata base c = inferred_users.
Proof.
  assert (InferFromOpenAPISpec "/users/_" no_request users_description = Ok inferred_users) as Hi by (vm_compute; reflexivity).
  destruct (inferred_metadata_compacts "/users/_" users_description false inferred_users Hi) as (c & base & Hc & Hb & _ & Hm).
  exists c, base. split; [exact Hc|]. split; [exact Hb|exact Hm].
Defined.
