(* ===== verification/FsStore.v ===== *)
(** * Resources in files

    Models [src/internal/providers/repository/fsstore]: the repository that keeps the payload
    of a resource in the file [resource.<ext>] of the directory of its logical path, and the
    files that belong to it beside it. The file system is the interface [Disk]. *)
From S2P Require Import Prelude GoText GoTextFacts Faults Paths GoDisk Value Descriptor Codec Externalize Identity.

Record LocalResourceRepository := { baseDir : string; metadataBaseDir : string }.
Record payloadFileInfo := { pf_Path : string; pf_Name : string; pf_Descriptor : PayloadDescriptor; pf_Shared : bool }.
Record resourcePayloadFiles := { rp_Resource : option payloadFileInfo; rp_Defaults : option payloadFileInfo }.
Definition primary (f : resourcePayloadFiles) : option payloadFileInfo := rp_Resource f.
Record SyncReport := { sr_State : string; sr_Ahead : nat; sr_Behind : nat; sr_HasUncommitted : bool }.

Section store.
Context `{UnicodeTables, TextCodecs} {D : Type} `{Disk D}.

Fixpoint firstMetadataBaseDir (values : list string) : string :=
  match values with
  | [] => ""
  | v :: values => let trimmed := trim_space v in if trimmed == "" then firstMetadataBaseDir values else path_clean trimmed
  end.
Definition NewLocalResourceRepository (dir : string) (metadataBaseDir : list string) : LocalResourceRepository :=
  {| baseDir := path_clean dir; metadataBaseDir := firstMetadataBaseDir metadataBaseDir |}.

Context (r : LocalResourceRepository).

(** ** Paths *)
Definition defaultsBaseDir : string := if negb (trim_space (metadataBaseDir r) == "") then metadataBaseDir r else baseDir r.
Definition escapes_base : error := Invalid "logical path escapes repository base directory" None.
Definition empty_base : error := Invalid "repository base directory must not be empty" None.
Definition canonicalPayloadFilePath (disk : D) (logicalPath payloadType : string) : result error string :=
  if baseDir r == "" then Err empty_base
  else
    let extension := trim_space payloadType in
    let extension := if extension == "" then Extension DefaultOctetStreamDescriptor else extension in
    let extension := if negb (has_prefix extension ".") then "." +:+ extension else extension in
    let filePath := path_join [baseDir r; trim_prefix logicalPath "/"; "resource" +:+ extension] in
    if negb (IsPathUnderRoot disk (baseDir r) filePath) then Err escapes_base else Ok filePath.
Definition collectionDirPath (disk : D) (logicalPath : string) : result error string :=
  if baseDir r == "" then Err empty_base
  else if logicalPath == "/" then Ok (baseDir r)
  else
    let dirPath := path_join [baseDir r; trim_prefix logicalPath "/"] in
    if negb (IsPathUnderRoot disk (baseDir r) dirPath) then Err escapes_base else Ok dirPath.
Definition normalizeArtifactRelativePath (file : string) : result error string :=
  let trimmed := trim_space file in
  if trimmed == "" then Err (Invalid "resource artifact file must not be empty" None)
  else if has_prefix trimmed "/" then Err (Invalid "resource artifact file must stay within the resource directory" None)
  else
    let cleaned := path_clean trimmed in
    if (cleaned == ".") || (cleaned == "") then Err (Invalid "resource artifact file must not be empty" None)
    else if existsb (fun segment => segment == "..") (split_on slash cleaned)
    then Err (Invalid "resource artifact file must stay within the resource directory" None)
    else Ok cleaned.
Definition resourceArtifactFilePath (disk : D) (logicalPath file : string) : result error string :=
  resourceDir ← collectionDirPath disk logicalPath;
  relativeFile ← normalizeArtifactRelativePath file;
  let targetPath := path_join [resourceDir; relativeFile] in
  if negb (IsPathUnderRoot disk (baseDir r) targetPath) then Err escapes_base else Ok targetPath.
(** The path of a call that takes the path of a resource. *)
Definition resource_path (logicalPath : string) : result error string :=
  normalizedPath ← NormalizeLogicalPath logicalPath;
  if normalizedPath == "/" then Err (Invalid "logical path must target a resource, not root" None) else Ok normalizedPath.

(** ** The payload files of a directory *)
Definition payloadFileInfoFromCandidates (logicalPath dirPath baseName : string) (candidates : list string) : result error (option payloadFileInfo) :=
  match sort_strings candidates with
  | [] => Ok None
  | [name] => Ok (Some {| pf_Path := path_join [dirPath; name]; pf_Name := name;
                          pf_Descriptor := NormalizePayloadDescriptor (Build_PayloadDescriptor "" "" (path_ext name)); pf_Shared := false |})
  | sorted =>
      let label := if baseName == "defaults" then "defaults" else "payload" in
      Err (Conflict ("resource " +:+ quote logicalPath +:+ " has multiple " +:+ label +:+ " files: " +:+ str_join ", " sorted) None)
  end.
Definition resource_candidates (entries : list (string * bool)) : list string :=
  (filter (fun entry : string * bool => entry.2 = false /\ has_prefix entry.1 "resource." = true) entries).*1.
Definition payloadFilesInfoFromDir (disk : D) (logicalPath dirPath : string) : result error resourcePayloadFiles :=
  match ReadDir disk dirPath with
  | Err (ErrNotExist _) => Ok {| rp_Resource := None; rp_Defaults := None |}
  | Err err => Err (Internal "failed to inspect resource directory" (Some (disk_cause err)))
  | Ok entries =>
      resourceInfo ← payloadFileInfoFromCandidates logicalPath dirPath "resource" (resource_candidates entries);
      Ok {| rp_Resource := resourceInfo; rp_Defaults := None |}
  end.
Definition discoverPayloadFiles (disk : D) (logicalPath : string) : result error resourcePayloadFiles :=
  resourceDir ← collectionDirPath disk logicalPath;
  payloadFilesInfoFromDir disk logicalPath resourceDir.
Definition desiredPayloadDescriptor (content : Content) (existing : resourcePayloadFiles) : PayloadDescriptor :=
  if IsPayloadDescriptorExplicit (content_Descriptor content) then NormalizePayloadDescriptor (content_Descriptor content)
  else match rp_Resource existing with
       | Some info => pf_Descriptor info
       | None => if IsBinaryValue (content_Value content) then DefaultOctetStreamDescriptor
                 else NormalizePayloadDescriptor (Build_PayloadDescriptor PayloadTypeJSON "" "")
       end.
Definition resolvePayloadTarget (disk : D) (logicalPath : string) (content : Content) : result error (payloadFileInfo * resourcePayloadFiles) :=
  files ← discoverPayloadFiles disk logicalPath;
  let desired := desiredPayloadDescriptor content files in
  canonicalPath ← canonicalPayloadFilePath disk logicalPath (Extension desired);
  Ok ({| pf_Path := canonicalPath; pf_Name := "resource" +:+ Extension desired; pf_Descriptor := desired; pf_Shared := false |}, files).

(** ** Reading and writing *)
Definition writeFileAtomically (targetPath data tempPattern kind : string) (disk : D) : option error * D :=
  disk_step ("failed to create " +:+ kind +:+ " directory") (fun d => d) (MkdirAll (path_dir targetPath)) (fun disk =>
    match CreateTemp (path_dir targetPath) tempPattern disk with
    | (Err err, disk) => (Some (Internal ("failed to create temporary " +:+ kind +:+ " file") (Some (disk_cause err))), disk)
    | (Ok tempPath, disk) =>
        let removeTemp := fun d => (Remove tempPath d).2 in
        disk_step ("failed to write temporary " +:+ kind) (fun d => removeTemp (CloseOpen tempPath d).2) (WriteOpen tempPath data) (fun disk =>
          disk_step ("failed to finalize temporary " +:+ kind) removeTemp (CloseOpen tempPath) (fun disk =>
            disk_step ("failed to replace " +:+ kind +:+ " file") removeTemp (Rename tempPath targetPath) (fun disk => (None, disk)) disk) disk) disk
    end) disk.
Definition readPayloadFile (disk : D) (info : payloadFileInfo) : result error Content :=
  match ReadFile disk (pf_Path info) with
  | Err (ErrNotExist _) => Err (NotFound ("resource payload " +:+ quote (pf_Path info) +:+ " not found") None)
  | Err err => Err (Internal "failed to read resource payload" (Some (disk_cause err)))
  | Ok data => DecodeContent data (pf_Descriptor info)
  end.
Definition removePayloadFile (info : option payloadFileInfo) (disk : D) : option error * D :=
  match info with
  | None => (None, disk)
  | Some info =>
      match Remove (pf_Path info) disk with
      | (Some (ErrOther _ as err), disk) | (Some (ErrNotEmpty _ as err), disk) =>
          (Some (Internal "failed to remove resource payload" (Some (disk_cause err))), disk)
      | (_, disk) => (None, (CleanupEmptyParents (path_dir (pf_Path info)) (if pf_Shared info then defaultsBaseDir else baseDir r) disk).2)
      end
  end.

(** The payload, normalized, with the descriptor of the file it goes to; the file; and the
    one that is there. *)
Definition prepare_save (disk : D) (normalizedPath : string) (content : Content) : result error (payloadFileInfo * resourcePayloadFiles * Content) :=
  '(targetInfo, existingFiles) ← resolvePayloadTarget disk normalizedPath content;
  normalizedValue ← Normalize (content_Value content);
  Ok (targetInfo, existingFiles, {| content_Value := normalizedValue; content_Descriptor := pf_Descriptor targetInfo |}).
(** The payload is written, and a file of another extension removed; a nil payload removes
    the file. *)
Definition store_payload (targetInfo : payloadFileInfo) (existingFiles : resourcePayloadFiles) (content : Content) (disk : D) : option error * D :=
  if is_nil (content_Value content) then removePayloadFile (rp_Resource existingFiles) disk
  else match EncodeContentPretty content with
       | Err err => (Some (Internal "failed to encode payload" (Some err)), disk)
       | Ok encoded =>
           match writeFileAtomically (pf_Path targetInfo) encoded ".declarest-tmp-*" "resource" disk with
           | (Some err, disk) => (Some err, disk)
           | (None, disk) =>
               match rp_Resource existingFiles with
               | Some existing => if negb (pf_Path existing == pf_Path targetInfo) then removePayloadFile (Some existing) disk else (None, disk)
               | None => (None, disk)
               end
           end
       end.
Definition Save (logicalPath : string) (content : Content) (disk : D) : option error * D :=
  match (normalizedPath ← resource_path logicalPath; prepare_save disk normalizedPath content) with
  | Err err => (Some err, disk)
  | Ok (targetInfo, existingFiles, content) => store_payload targetInfo existingFiles content disk
  end.
Definition validateReservedSidecarArtifactName (file : string) : result error unit :=
  let base := to_lower (trim_space (path_base file)) in
  if has_prefix base "resource." then
    Err (Invalid ("resource artifacts cannot use the reserved prefix " +:+ quote "resource.") None)
  else if has_prefix base "defaults" then
    Err (Invalid ("resource artifacts cannot use the reserved prefix " +:+ quote "defaults") None)
  else Ok tt.
Fixpoint write_artifacts (normalizedPath targetPath : string) (artifacts : list ResourceArtifact) (disk : D) : option error * D :=
  match artifacts with
  | [] => (None, disk)
  | artifact :: artifacts =>
      match (validateReservedSidecarArtifactName (art_File artifact);;
             artifactPath ← resourceArtifactFilePath disk normalizedPath (art_File artifact);
             if artifactPath == targetPath
             then Err (Invalid ("resource artifact " +:+ quote (art_File artifact) +:+ " conflicts with the canonical resource payload file") None)
             else Ok artifactPath) with
      | Err err => (Some err, disk)
      | Ok artifactPath =>
          match writeFileAtomically artifactPath (art_Content artifact) ".declarest-artifact-*" "resource artifact" disk with
          | (Some err, disk) => (Some err, disk)
          | (None, disk) => write_artifacts normalizedPath targetPath artifacts disk
          end
      end
  end.
Definition SaveResourceWithArtifacts (logicalPath : string) (content : Content) (artifacts : list ResourceArtifact) (disk : D) : option error * D :=
  match (normalizedPath ← resource_path logicalPath; prepared ← prepare_save disk normalizedPath content; Ok (normalizedPath, prepared)) with
  | Err err => (Some err, disk)
  | Ok (normalizedPath, (targetInfo, existingFiles, content)) =>
      match write_artifacts normalizedPath (pf_Path targetInfo) artifacts disk with
      | (Some err, disk) => (Some err, disk)
      | (None, disk) => store_payload targetInfo existingFiles content disk
      end
  end.
Definition Get (disk : D) (logicalPath : string) : result error Content :=
  normalizedPath ← resource_path logicalPath;
  files ← discoverPayloadFiles disk normalizedPath;
  match rp_Resource files with
  | None => Err (NotFound ("resource " +:+ quote normalizedPath +:+ " not found") None)
  | Some info =>
      overrideValue ← readPayloadFile disk info;
      Ok {| content_Value := content_Value overrideValue;
            content_Descriptor := match primary files with Some primary => pf_Descriptor primary | None => empty_descriptor end |}
  end.
Definition ReadResourceArtifact (disk : D) (logicalPath file : string) : result error string :=
  normalizedPath ← resource_path logicalPath;
  targetPath ← resourceArtifactFilePath disk normalizedPath file;
  match ReadFile disk targetPath with
  | Ok data => Ok data
  | Err (ErrNotExist _) => Err (NotFound ("resource artifact " +:+ quote file +:+ " not found for " +:+ quote normalizedPath) None)
  | Err err => Err (Internal "failed to read resource artifact" (Some (disk_cause err)))
  end.

(** ** Listing *)
Definition buildListedResource (logicalPath : string) (info : option payloadFileInfo) : Resource :=
  let collectionPath := path_dir logicalPath in
  let collectionPath := if (collectionPath == ".") || (collectionPath == "") then "/" else collectionPath in
  {| LogicalPath := logicalPath; CollectionPath := collectionPath; LocalAlias := path_base logicalPath; RemoteID := "";
     ResolvedRemotePath := ""; Payload := VNil;
     Res_PayloadDescriptor := match info with Some info => pf_Descriptor info | None => empty_descriptor end |}.
Definition hasReservedSegment (v : string) : bool := existsb (fun segment => segment == "_") (split_on slash v).
Definition rooted (logicalPath : string) : string := if negb (has_prefix logicalPath "/") then "/" +:+ logicalPath else logicalPath.
Definition sorted_items (itemsByPath : gmap string Resource) : list Resource := omap (itemsByPath !!.) (sorted_keys itemsByPath).
(** The resource of a directory is added to the items. *)
Definition add_item (disk : D) (logicalPath : string) (itemsByPath : gmap string Resource) : result error (gmap string Resource) :=
  files ← discoverPayloadFiles disk logicalPath;
  Ok (match primary files with
      | Some info => <[logicalPath := buildListedResource logicalPath (Some info)]> itemsByPath
      | None => itemsByPath
      end).
Fixpoint direct_items (disk : D) (baseLogicalPath : string) (entries : list (string * bool)) (itemsByPath : gmap string Resource)
  : result error (gmap string Resource) :=
  match entries with
  | [] => Ok itemsByPath
  | (name, isDir) :: entries =>
      if negb isDir || (name == "_") then direct_items disk baseLogicalPath entries itemsByPath
      else
        itemsByPath ← add_item disk (rooted (path_join [baseLogicalPath; name])) itemsByPath;
        direct_items disk baseLogicalPath entries itemsByPath
  end.
Definition listDirect (disk : D) (baseLogicalPath collectionPath : string) : result error (list Resource) :=
  match ReadDir disk collectionPath with
  | Err (ErrNotExist _) => Ok []
  | Err err => Err (Internal "failed to list collection" (Some (disk_cause err)))
  | Ok entries => items ← direct_items disk baseLogicalPath entries ∅; Ok (sorted_items items)
  end.
Definition not_relative (base target : string) : disk_error := ErrOther (errorf ("Rel: can't make " +:+ target +:+ " relative to " +:+ base)).
Definition visit_listed (disk : D) (baseLogicalPath collectionPath filePath name : string) (isDir : bool) (itemsByPath : gmap string Resource)
  : walk_step * gmap string Resource :=
  if negb isDir then (Continue, itemsByPath)
  else if name == "_" then (SkipDir, itemsByPath)
  else match path_rel collectionPath filePath with
       | None => (Stop (not_relative collectionPath filePath), itemsByPath)
       | Some relPath =>
           if hasReservedSegment relPath then (Continue, itemsByPath)
           else match add_item disk (rooted (if relPath == "." then baseLogicalPath else path_join [baseLogicalPath; relPath])) itemsByPath with
                | Err err => (Stop (ErrOther err), itemsByPath)
                | Ok itemsByPath => (Continue, itemsByPath)
                end
       end.
Definition listRecursive (disk : D) (baseLogicalPath collectionPath : string) : result error (list Resource) :=
  match WalkDir (fun _ => disk) (visit_listed disk baseLogicalPath collectionPath) collectionPath ∅ with
  | (Some (ErrNotExist _), _) => Ok []
  | (Some err, _) => Err (Internal "failed to walk collection" (Some (disk_cause err)))
  | (None, items) => Ok (sorted_items items)
  end.
Definition List (disk : D) (logicalPath : string) (Recursive : bool) : result error (list Resource) :=
  normalizedPath ← NormalizeLogicalPath logicalPath;
  files ← discoverPayloadFiles disk normalizedPath;
  match primary files with
  | Some info => Ok [buildListedResource normalizedPath (Some info)]
  | None =>
      collectionPath ← collectionDirPath disk normalizedPath;
      if Recursive then listRecursive disk normalizedPath collectionPath else listDirect disk normalizedPath collectionPath
  end.
Definition Exists (disk : D) (logicalPath : string) : result error bool :=
  normalizedPath ← NormalizeLogicalPath logicalPath;
  files ← discoverPayloadFiles disk normalizedPath;
  match primary files with
  | Some _ => Ok true
  | None =>
      collectionPath ← collectionDirPath disk normalizedPath;
      match Stat disk collectionPath with
      | Ok _ => Ok true
      | Err (ErrNotExist _) => Ok (false : bool)
      | Err err => Err (Internal "failed to check collection path" (Some (disk_cause err)))
      end
  end.

(** ** Deleting *)
Definition removable (files : resourcePayloadFiles) : bool :=
  bool_decide (is_Some (rp_Resource files)) || bool_decide (is_Some (rp_Defaults files)).
(** The payload of a directory below the base is removed. *)
Definition delete_directory (relativeDir : string) (disk : D) : option error * D :=
  match discoverPayloadFiles disk ("/" +:+ trim_prefix relativeDir "/") with
  | Err err => (Some err, disk)
  | Ok files => if removable files then removePayloadFile (rp_Resource files) disk else (None, disk)
  end.
Fixpoint delete_entries (collectionPath : string) (entries : list (string * bool)) (disk : D) : option error * D :=
  match entries with
  | [] => (None, disk)
  | (name, isDir) :: entries =>
      if negb isDir || (name == "_") then delete_entries collectionPath entries disk
      else
        let resourceDir := path_join [collectionPath; name] in
        match path_rel (baseDir r) resourceDir with
        | None => (Some (Internal "failed to resolve collection resource path" (Some (disk_cause (not_relative (baseDir r) resourceDir)))), disk)
        | Some relativeDir =>
            match delete_directory relativeDir disk with
            | (Some err, disk) => (Some err, disk)
            | (None, disk) => delete_entries collectionPath entries disk
            end
        end
  end.
Definition deleteCollectionDirect (collectionPath : string) (disk : D) : option error * D :=
  match ReadDir disk collectionPath with
  | Err (ErrNotExist _) => (None, disk)
  | Err err => (Some (Internal "failed to list collection for delete" (Some (disk_cause err))), disk)
  | Ok entries => delete_entries collectionPath entries disk
  end.
Definition visit_deleted (filePath name : string) (isDir : bool) (disk : D) : walk_step * D :=
  if negb isDir then (Continue, disk)
  else if name == "_" then (SkipDir, disk)
  else match path_rel (baseDir r) filePath with
       | None => (Stop (not_relative (baseDir r) filePath), disk)
       | Some relativeDir =>
           match delete_directory relativeDir disk with
           | (Some err, disk) => (Stop (ErrOther err), disk)
           | (None, disk) => (Continue, disk)
           end
       end.
Definition deleteCollectionRecursive (collectionPath : string) (disk : D) : option error * D :=
  match WalkDir (fun disk => disk) visit_deleted collectionPath disk with
  | (Some (ErrNotExist _), disk) | (None, disk) => (None, disk)
  | (Some err, disk) => (Some (Internal "failed to recursively delete collection resources" (Some (disk_cause err))), disk)
  end.
Definition Delete (logicalPath : string) (Recursive : bool) (disk : D) : option error * D :=
  match (normalizedPath ← NormalizeLogicalPath logicalPath; files ← discoverPayloadFiles disk normalizedPath; Ok (normalizedPath, files)) with
  | Err err => (Some err, disk)
  | Ok (normalizedPath, files) =>
      if removable files then removePayloadFile (rp_Resource files) disk
      else match collectionDirPath disk normalizedPath with
           | Err err => (Some err, disk)
           | Ok collectionPath =>
               if Recursive then deleteCollectionRecursive collectionPath disk else deleteCollectionDirect collectionPath disk
           end
  end.

(** ** The repository as a whole *)
Definition Init (disk : D) : option error * D :=
  if baseDir r == "" then (Some empty_base, disk)
  else match MkdirAll (baseDir r) disk with
       | (Some err, disk) => (Some (Internal "failed to initialize repository directory" (Some (disk_cause err))), disk)
       | (None, disk) => (None, disk)
       end.
Definition Check_ (disk : D) : result error unit :=
  match Stat disk (baseDir r) with
  | Err (ErrNotExist _) => Err (NotFound "repository base directory does not exist" None)
  | Err err => Err (Internal "failed to inspect repository base directory" (Some (disk_cause err)))
  | Ok isDir => if negb isDir then Err (Invalid "repository base directory is not a directory" None) else Ok tt
  end.
Definition Refresh (disk : D) : option error * D := (None, disk).
Definition Clean (disk : D) : option error * D := (None, disk).
Definition Reset_ (disk : D) : option error * D := (None, disk).
Definition Push : result error unit := Err (Invalid "push requires git repository with remote configuration" None).
Definition SyncStatus : result error SyncReport := Ok {| sr_State := "no_remote"; sr_Ahead := 0; sr_Behind := 0; sr_HasUncommitted := false |}.
Definition visit_tree (root current name : string) (isDir : bool) (paths : list string) : walk_step * list string :=
  if negb isDir then (Continue, paths)
  else if current == root then (Continue, paths)
  else if (name == "_") || has_prefix name "." then (SkipDir, paths)
  else match path_rel root current with
       | None => (Stop (not_relative root current), paths)
       | Some relPath => (Continue, paths ++ [relPath])
       end.
Definition Tree (disk : D) : result error (list string) :=
  Check_ disk;;
  let root := path_clean (trim_space (baseDir r)) in
  if (root == "") || (root == ".") then Err (Invalid "repository base directory is not configured" None)
  else match WalkDir (fun _ => disk) (visit_tree root) root [] with
       | (Some err, _) => Err (Internal "failed to walk repository directory tree" (Some (disk_cause err)))
       | (None, paths) => Ok (sort_strings paths)
       end.
End store.
