(* ===== verification/FsStoreFacts.v ===== *)
(** * The repository in files is a map from paths to payloads

    On a disk that keeps the laws of [DiskLaws]: what a payload, once saved, reads back as; that
    saving or deleting one resource leaves every other as it is; and that the files stay in
    the directory of their resource. *)
From S2P Require Import Prelude GoText GoTextFacts Faults Paths GoDisk DiskLaws Value Descriptor Codec Externalize Identity FsStore.

(** The descriptor of the payload file of a name. *)
Definition descriptor_of `{UnicodeTables} (name : string) : PayloadDescriptor :=
  NormalizePayloadDescriptor (Build_PayloadDescriptor "" "" (path_ext name)).
(** The payload files of a directory. *)
Definition is_payload (t : tree) (dir : list string) (name data : string) : Prop :=
  clean_segment name /\ has_prefix name "resource." = true /\ t !! path_of (dir ++ [name]) = Some (FileNode data).
Definition no_payload (t : tree) (dir : list string) : Prop := forall name data, ~ is_payload t dir name data.
Definition only_payload (t : tree) (dir : list string) (name data : string) : Prop :=
  forall n s, is_payload t dir n s <-> n = name /\ s = data.
Definition same_payloads (t t' : tree) (dir : list string) : Prop := forall n s, is_payload t' dir n s <-> is_payload t dir n s.
(** An extension that names a file beside the others of the resource. *)
Definition plain_extension `{UnicodeTables} (ext : string) : Prop :=
  has_prefix ext "." = true /\ trim_space ext = ext /\ clean_segment ("resource" +:+ ext).

Section facts.
Context `{UnicodeTables, TextCodecs} {D : Type} `{DiskLaws D}.
Context (bs : list string) (m : string) (Hbs : Forall clean_segment bs).
Abbreviation repo := {| baseDir := path_of bs; metadataBaseDir := m |}.

(** ** Paths *)
Lemma resolve_parts_node d parts : forall done n, disk_ok d -> Forall clean_segment (done ++ parts) ->
  node_at (view d) (done ++ parts) = Some n -> resolve_parts d (path_of done) parts = Ok (path_of (done ++ parts)).
Proof.
  induction parts as [|part parts IH]; intros pre n Hd Hl Hn; cbn [resolve_parts].
  - rewrite app_nil_r in *. by rewrite path_clean_path_of.
  - replace (pre ++ part :: parts) with ((pre ++ [part]) ++ parts) in * by by rewrite <-app_assoc.
    apply Forall_app in Hl as Hl'. destruct Hl' as [Hpre _]. apply clean_snoc in Hpre as Hpre'. destruct Hpre' as [Hp1 Hp2].
    rewrite path_join_snoc by done. pose proof (reads_link d (pre ++ [part]) Hd Hpre) as Ha.
    assert (exists n', node_at (view d) (pre ++ [part]) = Some n') as [n' Hn'].
    { destruct parts as [|u parts]; [rewrite app_nil_r in Hn; eauto|]. eexists. eapply wf_ancestor; [by apply ok_tree|exact Hl|done|exact Hn]. }
    unfold tree_Lstat, tree_Stat in Ha. rewrite path_clean_path_of, is_dir_node in Ha by done.
    assert (Lstat d (path_of (pre ++ [part])) = Ok false) as E.
    { destruct (bool_decide _) eqn:Eb; cbn in Ha.
      - destruct (Lstat _ _); cbn in Ha; [by subst|done].
      - rewrite node_at_snoc in Hn'. rewrite Hn' in Ha. cbn in Ha. destruct (Lstat _ _); cbn in Ha; [by subst|done]. }
    rewrite E. by eapply IH.
Qed.
Lemma resolve_node d l n : disk_ok d -> Forall clean_segment l -> node_at (view d) l = Some n -> resolvePathWithSymlinks d (path_of l) = Ok (path_of l).
Proof.
  intros Hd Hl Hn. unfold resolvePathWithSymlinks. rewrite path_clean_path_of, bool_decide_false, path_of_inj_prefix by done.
  assert (filter (fun s => s <> "") (split_on slash (trim_prefix (path_of l) "/")) = l) as ->.
  { rewrite trim_prefix_path_of. destruct l as [|s l]; [done|]. change "/" with (String slash "").
    rewrite split_on_join by (done || by apply clean_segments_no_sep). by apply filter_all, clean_segments_nonempty. }
  destruct l as [|s l]; [done|]. by eapply (resolve_parts_node d (s :: l) []).
Qed.
Lemma under_root_node d l n : disk_ok d -> Forall clean_segment (bs ++ l) -> node_at (view d) (bs ++ l) = Some n ->
  IsPathUnderRoot d (path_of bs) (path_of (bs ++ l)) = true.
Proof.
  intros Hd Hl Hn. unfold IsPathUnderRoot. assert (exists n', node_at (view d) bs = Some n') as [n' Hn'].
  { destruct l as [|s l]; [rewrite app_nil_r in Hn; eauto|]. eexists. eapply wf_ancestor; [by apply ok_tree|exact Hl|done|exact Hn]. }
  rewrite (resolve_node _ _ _ Hd Hbs Hn'), (resolve_node _ _ _ Hd Hl Hn). apply under_root_is_segment_prefix; [done..|]. by apply prefix_app_r.
Qed.
Lemma collectionDirPath_Ok d qs dir : Forall clean_segment qs -> collectionDirPath repo d (path_of qs) = Ok dir -> dir = path_of (bs ++ qs).
Proof.
  intros Hq. unfold collectionDirPath. cbn [baseDir]. rewrite bool_decide_false by done. destruct (path_of qs == "/") eqn:E.
  - apply bool_decide_eq_true, path_of_root in E as ->; [|done]. rewrite app_nil_r. by intros [= <-].
  - apply bool_decide_eq_false in E. rewrite trim_prefix_path_of, path_join_segments by (done || by intros ->). by destruct (negb _); [|intros [= <-]].
Qed.
Lemma collectionDirPath_node d qs n : disk_ok d -> Forall clean_segment qs -> node_at (view d) (bs ++ qs) = Some n ->
  collectionDirPath repo d (path_of qs) = Ok (path_of (bs ++ qs)).
Proof.
  intros Hd Hq Hn. unfold collectionDirPath. cbn [baseDir]. rewrite bool_decide_false by done. destruct (path_of qs == "/") eqn:E.
  - apply bool_decide_eq_true, path_of_root in E as ->; [|done]. by rewrite app_nil_r.
  - apply bool_decide_eq_false in E. rewrite trim_prefix_path_of, path_join_segments by (done || by intros ->).
    erewrite under_root_node; [done|done|by apply Forall_app|done].
Qed.
Lemma canonicalPayloadFilePath_Ok d qs ext p : Forall clean_segment qs -> qs <> [] -> plain_extension ext ->
  canonicalPayloadFilePath repo d (path_of qs) ext = Ok p -> p = path_of ((bs ++ qs) ++ ["resource" +:+ ext]).
Proof.
  intros Hq Hne (Hdot & Htrim & Hc). unfold canonicalPayloadFilePath. cbn [baseDir]. rewrite bool_decide_false, Htrim by done.
  rewrite (bool_decide_false (ext = "")) by by intros ->. rewrite Hdot. cbn [negb]. rewrite trim_prefix_path_of.
  assert (path_join [path_of bs; str_join "/" qs; "resource" +:+ ext] = path_join [path_of bs; str_join "/" (qs ++ ["resource" +:+ ext])]) as ->.
  { assert (str_join "/" qs <> "") as Hj. { intros E. apply Hne. apply (path_of_root qs Hq). unfold path_of. by rewrite E. }
    rewrite str_join_snoc by done. unfold path_join. rewrite !filter_cons_True, !filter_nil by (done || by destruct (str_join "/" qs)).
    reflexivity. }
  rewrite path_join_segments by (done || (by destruct qs) || by apply clean_snoc). rewrite app_assoc. by destruct (negb _); [|intros [= <-]].
Qed.
Lemma resource_path_Ok p q : resource_path p = Ok q <-> NormalizeLogicalPath p = Ok q /\ q <> "/".
Proof.
  unfold resource_path. rewrite bind_Ok. split.
  - intros (x & Hx & E). destruct (x == "/") eqn:Eq; [done|]. injection E as <-. by apply bool_decide_eq_false in Eq.
  - intros [Hq Hne]. exists q. by rewrite bool_decide_false.
Qed.

(** ** The payload files of a directory *)
Lemma payload_candidates_spec d dir name : disk_ok d -> Forall clean_segment dir ->
  name ∈ resource_candidates (tree_children (view d) (path_of dir)) <-> exists data, is_payload (view d) dir name data.
Proof.
  intros Hd Hdir. unfold resource_candidates. rewrite list_elem_of_fmap. setoid_rewrite list_elem_of_filter. split.
  - intros ([n b] & -> & [Hb Hp] & Hin). cbn in *. apply children_spec in Hin as (Hc & nd & Hnd & ->); [|by apply ok_tree|done].
    destruct nd as [data|]; [|done]. by exists data.
  - intros (data & Hc & Hp & Hn). exists (name, false). split_and!; [done..|]. apply children_spec; [by apply ok_tree|done|]. split; [done|]. by eexists.
Qed.
Lemma candidates_NoDup d dir : disk_ok d -> Forall clean_segment dir -> NoDup (resource_candidates (tree_children (view d) (path_of dir))).
Proof.
  intros Hd Hdir. unfold resource_candidates. pose proof (children_NoDup (view d) dir (ok_tree d Hd) Hdir) as Hn.
  induction (tree_children (view d) (path_of dir)) as [|[n b] l IH]; [constructor|]. cbn in Hn. apply NoDup_cons in Hn as [Hni Hn].
  destruct (decide ((n, b).2 = false /\ has_prefix (n, b).1 "resource." = true)) as [Hc|Hc]; [rewrite filter_cons_True by done|rewrite filter_cons_False by done; by apply IH].
  cbn. constructor; [|by apply IH]. intros ([n' b'] & -> & [_ Hin]%list_elem_of_filter)%list_elem_of_fmap. apply Hni. apply list_elem_of_fmap. by exists (n', b').
Qed.
Lemma payload_dir d dir name data : disk_ok d -> Forall clean_segment dir -> is_payload (view d) dir name data -> node_at (view d) dir = Some DirNode.
Proof. intros Hd Hdir (Hc & _ & Hn). eapply wf_parent; [by apply ok_tree|by apply clean_snoc|exact Hn]. Qed.
Lemma payload_unique t dir n s s' : is_payload t dir n s -> is_payload t dir n s' -> s = s'.
Proof. intros (_ & _ & E) (_ & _ & E'). congruence. Qed.
(** What the entries of a directory say of its payload files. *)
Lemma files_of_entries d qs : disk_ok d -> Forall clean_segment qs ->
  match payloadFileInfoFromCandidates (path_of qs) (path_of (bs ++ qs)) "resource" (resource_candidates (tree_children (view d) (path_of (bs ++ qs)))) with
  | Ok None => no_payload (view d) (bs ++ qs)
  | Ok (Some info) => exists name data, only_payload (view d) (bs ++ qs) name data /\
      info = {| pf_Path := path_of ((bs ++ qs) ++ [name]); pf_Name := name; pf_Descriptor := descriptor_of name; pf_Shared := false |}
  | Err _ => exists n s n' s', n <> n' /\ is_payload (view d) (bs ++ qs) n s /\ is_payload (view d) (bs ++ qs) n' s'
  end.
Proof.
  intros Hd Hq. assert (Forall clean_segment (bs ++ qs)) as Hl by by apply Forall_app.
  pose proof (payload_candidates_spec d (bs ++ qs)) as Hspec. pose proof (candidates_NoDup d (bs ++ qs) Hd Hl) as Hn.
  set (c := resource_candidates _) in *. unfold payloadFileInfoFromCandidates.
  apply sort_strings_NoDup in Hn. assert (forall n, n ∈ sort_strings c <-> exists data, is_payload (view d) (bs ++ qs) n data) as Hin.
  { intros n. rewrite elem_of_sort_strings. by apply Hspec. }
  destruct (sort_strings c) as [|name [|name' names]].
  - intros n s Hp. assert (n ∈ []) as Hno by (apply Hin; by eexists). by apply not_elem_of_nil in Hno.
  - assert (exists data, is_payload (view d) (bs ++ qs) name data) as [data Hdata] by (apply Hin; set_solver). exists name, data. split.
    + intros n s. split; [|by intros [-> ->]]. intros Hp. assert (n ∈ [name]) as E by (apply Hin; by eexists).
      apply list_elem_of_singleton in E as ->. split; [done|]. by eapply payload_unique.
    + destruct Hdata as (Hc & _). by rewrite path_join_snoc.
  - assert (exists data, is_payload (view d) (bs ++ qs) name data) as [data Hdata] by (apply Hin; set_solver).
    assert (exists data, is_payload (view d) (bs ++ qs) name' data) as [data' Hdata'] by (apply Hin; set_solver).
    exists name, data, name', data'. split_and!; [|done..]. apply NoDup_cons in Hn as [Hn _]. set_solver.
Qed.
Definition files_of (t : tree) (dir : list string) (files : resourcePayloadFiles) : Prop :=
  match rp_Resource files with
  | None => no_payload t dir
  | Some info => exists name data, only_payload t dir name data /\
      info = {| pf_Path := path_of (dir ++ [name]); pf_Name := name; pf_Descriptor := descriptor_of name; pf_Shared := false |}
  end.
Lemma files_of_same t t' dir files : same_payloads t t' dir -> files_of t dir files -> files_of t' dir files.
Proof.
  unfold files_of. intros Hs. destruct (rp_Resource files) as [info|].
  - intros (n & s & Ho & ->). exists n, s. split; [|done]. intros n' s'. rewrite (Hs n' s'). apply Ho.
  - intros Hno n s Hp%Hs. by apply Hno in Hp.
Qed.
Lemma discover_spec d qs files : disk_ok d -> Forall clean_segment qs -> discoverPayloadFiles repo d (path_of qs) = Ok files ->
  rp_Defaults files = None /\ files_of (view d) (bs ++ qs) files.
Proof.
  intros Hd Hq Hf. unfold discoverPayloadFiles in Hf. apply bind_Ok in Hf as (dir & ->%collectionDirPath_Ok & Hf); [|done].
  assert (Forall clean_segment (bs ++ qs)) as Hl by by apply Forall_app.
  pose proof (reads_dir d (bs ++ qs) Hd Hl) as Ha. unfold tree_ReadDir in Ha. rewrite path_clean_path_of, is_dir_node in Ha by done.
  unfold payloadFilesInfoFromDir in Hf. pose proof (files_of_entries d qs Hd Hq) as Hs.
  destruct (ReadDir d (path_of (bs ++ qs))) as [entries|err].
  - destruct (bool_decide _); cbn in Ha; [subst entries|by destruct (view d !! _)]. apply bind_Ok in Hf as (info & Hi & [= <-]).
    rewrite Hi in Hs. cbn. by destruct info.
  - assert (is_not_exist err = true) as Hne by (by destruct err). destruct err; try done. injection Hf as <-. cbn. split; [done|].
    intros n s Hp%payload_dir; [|done..]. rewrite Hp, bool_decide_true in Ha by done. done.
Qed.
Lemma discover_payload d qs name data : disk_ok d -> Forall clean_segment qs -> only_payload (view d) (bs ++ qs) name data ->
  discoverPayloadFiles repo d (path_of qs) =
  Ok {| rp_Resource := Some {| pf_Path := path_of ((bs ++ qs) ++ [name]); pf_Name := name; pf_Descriptor := descriptor_of name; pf_Shared := false |};
        rp_Defaults := None |}.
Proof.
  intros Hd Hq Ho. assert (Forall clean_segment (bs ++ qs)) as Hl by by apply Forall_app.
  assert (is_payload (view d) (bs ++ qs) name data) as Hp by by apply Ho. pose proof (payload_dir _ _ _ _ Hd Hl Hp) as Hdir.
  unfold discoverPayloadFiles. erewrite collectionDirPath_node by done. cbn [mbind result_bind]. unfold payloadFilesInfoFromDir.
  pose proof (reads_dir d (bs ++ qs) Hd Hl) as Ha. unfold tree_ReadDir in Ha. rewrite path_clean_path_of, is_dir_node, bool_decide_true in Ha by done.
  destruct (ReadDir d (path_of (bs ++ qs))) as [entries|err]; cbn in Ha; [subst entries|done].
  pose proof (files_of_entries d qs Hd Hq) as Hs. destruct (payloadFileInfoFromCandidates _ _ _ _) as [[info|]|err]; cbn [mbind result_bind].
  - destruct Hs as (n & s & Hn & ->). by apply Hn in Hp as [-> ->].
  - by apply Hs in Hp.
  - destruct Hs as (n & s & n' & s' & Hne & [-> _]%Ho & [-> _]%Ho). done.
Qed.

(** ** Reading a payload *)
Lemma read_spec d dir name data desc : disk_ok d -> Forall clean_segment dir -> is_payload (view d) dir name data ->
  readPayloadFile d {| pf_Path := path_of (dir ++ [name]); pf_Name := name; pf_Descriptor := desc; pf_Shared := false |} = DecodeContent data desc.
Proof.
  intros Hd Hdir (Hc & _ & Hn). unfold readPayloadFile. cbn [pf_Path pf_Descriptor]. assert (Forall clean_segment (dir ++ [name])) as Hl by by apply clean_snoc.
  pose proof (reads_file d (dir ++ [name]) Hd Hl) as Ha. unfold tree_ReadFile in Ha. rewrite path_clean_path_of, is_dir_node, node_at_snoc, Hn in Ha by done.
  rewrite bool_decide_false in Ha by done. destruct (ReadFile _ _); cbn in Ha; [by subst|done].
Qed.
Lemma Get_spec d p qs c : disk_ok d -> Forall clean_segment qs -> qs <> [] -> NormalizeLogicalPath p = Ok (path_of qs) ->
  Get repo d p = Ok c <-> exists name data v, only_payload (view d) (bs ++ qs) name data /\
    DecodeContent data (descriptor_of name) = Ok v /\ c = {| content_Value := content_Value v; content_Descriptor := descriptor_of name |}.
Proof.
  intros Hd Hq Hne Hp. assert (Forall clean_segment (bs ++ qs)) as Hl by by apply Forall_app.
  assert (resource_path p = Ok (path_of qs)) as Hr by (apply resource_path_Ok; split; [done|by intros ?%path_of_root]).
  unfold Get. rewrite Hr. cbn [mbind result_bind]. split.
  - intros (files & Hf & Hc)%bind_Ok. apply discover_spec in Hf as [_ Hs]; [|done..]. unfold primary, files_of in *. destruct (rp_Resource files) as [info|]; [|done].
    destruct Hs as (name & data & Ho & ->). apply bind_Ok in Hc as (v & Hv & [= <-]). erewrite read_spec in Hv by (done || by apply Ho). by exists name, data, v.
  - intros (name & data & v & Ho & Hv & ->). erewrite discover_payload by done. cbn [mbind result_bind rp_Resource primary].
    erewrite read_spec by (done || by apply Ho). by rewrite Hv.
Qed.
(** The payload of a resource depends on the payload files of its directory alone. *)
Lemma Get_same d d' p qs c : disk_ok d -> disk_ok d' -> Forall clean_segment qs -> qs <> [] -> NormalizeLogicalPath p = Ok (path_of qs) ->
  same_payloads (view d) (view d') (bs ++ qs) -> Get repo d' p = Ok c <-> Get repo d p = Ok c.
Proof.
  intros Hd Hd' Hq Hne Hp Hs. rewrite !(Get_spec _ p qs) by done. unfold only_payload, same_payloads in *. by setoid_rewrite Hs.
Qed.

(** ** Writing and removing a file *)
(** The files are the same but for the one at [k]. *)
Definition files_but (k : string) (t t' : tree) : Prop := forall k' c, k' <> k -> t' !! k' = Some (FileNode c) <-> t !! k' = Some (FileNode c).
Lemma disk_step_inv message undo (call : D -> option disk_error * D) next d d' : disk_step message undo call next d = (None, d') ->
  exists d1, call d = (None, d1) /\ next d1 = (None, d').
Proof. unfold disk_step. destruct (call d) as [[e|] d1]; [done|]. eauto. Qed.
Lemma write_effect d d' l s data pattern kind : disk_ok d -> Forall clean_segment (l ++ [s]) ->
  writeFileAtomically (path_of (l ++ [s])) data pattern kind d = (None, d') ->
  disk_ok d' /\ view d' !! path_of (l ++ [s]) = Some (FileNode data) /\ files_but (path_of (l ++ [s])) (view d) (view d').
Proof.
  intros Hd Hl. assert (Forall clean_segment l) as Hl0 by by apply clean_snoc in Hl as []. unfold writeFileAtomically. rewrite path_dir_snoc by done.
  intros (d1 & E1 & Hw)%disk_step_inv. pose proof (does_MkdirAll d l Hd Hl0) as Hm. rewrite E1 in Hm. destruct Hm as [Hd1 Hm].
  specialize (Hm eq_refl). apply tree_MkdirAll_spec in Hm as (_ & Hdir & Hg); [|by apply ok_tree|done].
  pose proof (does_CreateTemp d1 l pattern Hd1 Hl0) as Hc. destruct (CreateTemp (path_of l) pattern d1) as [[tempPath|e] d2]; [|done].
  destruct Hc as [Hd2 Hc]. destruct (Hc _ eq_refl) as (name & Hname & -> & _ & Hfresh & Hv2). assert (Forall clean_segment (l ++ [name])) as Hln by by apply clean_snoc.
  apply disk_step_inv in Hw as (d3 & E3 & Hw). pose proof (does_WriteOpen d2 (l ++ [name]) data Hd2 Hln) as Hwo. rewrite E3 in Hwo.
  destruct Hwo as [Hd3 Hv3]. specialize (Hv3 eq_refl). apply disk_step_inv in Hw as (d4 & Ec & Hw).
  pose proof (does_CloseOpen d3 (l ++ [name]) Hd3 Hln) as Hcl. rewrite Ec in Hcl. destruct Hcl as [Hd4 Hv4].
  apply disk_step_inv in Hw as (d5 & E5 & [= <-]). pose proof (does_Rename d4 (l ++ [name]) (l ++ [s]) Hd4 Hln Hl) as Hr. rewrite E5 in Hr.
  destruct Hr as [Hd5 Hr]. specialize (Hr eq_refl). split; [done|].
  assert (view d4 = <[path_of (l ++ [name]) := FileNode data]> (view d1)) as E4 by by rewrite Hv4, Hv3, Hv2, insert_insert_eq.
  unfold tree_Rename in Hr. rewrite !path_clean_path_of, E4, lookup_insert_eq in Hr by done.
  destruct (is_dir _ (path_of (l ++ [s]))); [done|]. destruct (is_dir _ (path_dir _)); [|done]. injection Hr as Hr. symmetry in Hr.
  rewrite delete_insert_id in Hr by done. rewrite Hr. split; [by rewrite lookup_insert_eq|].
  intros k c Hk. rewrite lookup_insert_ne by done. by apply grows_file.
Qed.
Lemma cleanup_effect fuel root : forall l d, disk_ok d -> Forall clean_segment l -> (forall c, node_at (view d) l <> Some (FileNode c)) ->
  disk_ok (cleanup_loop fuel (path_of l) root d).2 /\
  forall k c, view (cleanup_loop fuel (path_of l) root d).2 !! k = Some (FileNode c) <-> view d !! k = Some (FileNode c).
Proof.
  induction fuel as [|fuel IH]; intros l d Hd Hl Hf; cbn [cleanup_loop]; [done|]. destruct (_ || _); [done|].
  pose proof (does_Remove d l Hd Hl) as Hr. destruct (Remove (path_of l) d) as [[e|] d1].
  - destruct Hr as (Hd1 & Hv & _). destruct e; cbn [snd]; by rewrite Hv.
  - destruct Hr as [Hd1 Hr]. unfold tree_Remove in Hr. rewrite path_clean_path_of in Hr by done.
    destruct (clean_cases l) as [->|(k & s & ->)]; [by rewrite root_not_listed in Hr by by apply ok_tree|].
    destruct (view d !! path_of (k ++ [s])) as [[c|]|] eqn:E; [|..|done].
    + exfalso. apply (Hf c). by rewrite node_at_snoc.
    + destruct (tree_children _ _); [|done]. injection Hr as Hr. symmetry in Hr. rewrite path_dir_snoc by done.
      assert (Forall clean_segment k) as Hk by by apply clean_snoc in Hl as [].
      assert (node_at (view d) k = Some DirNode) as Hp by (eapply wf_parent; [by apply ok_tree|exact Hl|exact E]).
      destruct (IH k d1 Hd1 Hk) as [Hd2 Hfiles].
      { intros c. rewrite Hr. destruct k as [|u k]; [done|]. cbn [node_at] in *. intros [_ E']%lookup_delete_Some. congruence. }
      split; [done|]. intros k' c. rewrite Hfiles, Hr, lookup_delete_Some. split; [by intros []|]. intros E'. split; [|done]. intros <-. congruence.
Qed.
Lemma CleanupEmptyParents_effect d l root : disk_ok d -> Forall clean_segment l -> (forall c, node_at (view d) l <> Some (FileNode c)) ->
  disk_ok (CleanupEmptyParents (path_of l) root d).2 /\
  forall k c, view (CleanupEmptyParents (path_of l) root d).2 !! k = Some (FileNode c) <-> view d !! k = Some (FileNode c).
Proof. intros Hd Hl Hf. unfold CleanupEmptyParents. rewrite path_clean_path_of by done. by apply cleanup_effect. Qed.
Lemma remove_effect d d' dir name data desc : disk_ok d -> Forall clean_segment dir -> is_payload (view d) dir name data ->
  removePayloadFile repo (Some {| pf_Path := path_of (dir ++ [name]); pf_Name := name; pf_Descriptor := desc; pf_Shared := false |}) d = (None, d') ->
  disk_ok d' /\ (forall c, view d' !! path_of (dir ++ [name]) <> Some (FileNode c)) /\ files_but (path_of (dir ++ [name])) (view d) (view d').
Proof.
  intros Hd Hdir Hp. pose proof (payload_dir _ _ _ _ Hd Hdir Hp) as Hdn. destruct Hp as (Hc & _ & Hn).
  assert (Forall clean_segment (dir ++ [name])) as Hl by by apply clean_snoc. unfold removePayloadFile. cbn [pf_Path pf_Shared baseDir].
  pose proof (does_Remove d (dir ++ [name]) Hd Hl) as Hr. destruct (Remove (path_of (dir ++ [name])) d) as [e d1]. rewrite path_dir_snoc by done.
  assert (e = None -> view d1 = delete (path_of (dir ++ [name])) (view d)) as Hv.
  { intros ->. destruct Hr as [_ Hr]. unfold tree_Remove in Hr. rewrite path_clean_path_of, Hn in Hr by done. by injection Hr. }
  destruct e as [e|].
  - destruct Hr as (_ & _ & Hno). destruct e; try done. by rewrite Hno in Hn.
  - destruct Hr as [Hd1 _]. specialize (Hv eq_refl). intros [= <-]. destruct (CleanupEmptyParents_effect d1 dir (path_of bs) Hd1 Hdir) as [Hd2 Hf].
    { intros c. rewrite Hv. destruct dir as [|u dir]; [done|]. cbn [node_at] in *. intros [_ E]%lookup_delete_Some. congruence. }
    split; [done|]. split.
    + intros c E%Hf. rewrite Hv in E. by apply lookup_delete_Some in E as [].
    + intros k c Hk. rewrite Hf, Hv, lookup_delete_ne; [done|]. congruence.
Qed.

(** ** Storing a payload *)
(** Files that are not payload files of the directory are the same. *)
Definition files_outside (dir : list string) (t t' : tree) : Prop :=
  forall k c, (forall n, clean_segment n -> has_prefix n "resource." = true -> k <> path_of (dir ++ [n])) ->
  t' !! k = Some (FileNode c) <-> t !! k = Some (FileNode c).
Lemma files_outside_trans dir t1 t2 t3 : files_outside dir t1 t2 -> files_outside dir t2 t3 -> files_outside dir t1 t3.
Proof. intros Ha Hb k c Hk. rewrite (Hb k c Hk). by apply Ha. Qed.
Lemma files_but_outside dir n t t' : clean_segment n -> has_prefix n "resource." = true -> files_but (path_of (dir ++ [n])) t t' -> files_outside dir t t'.
Proof. intros Hc Hp Hf k c Hk. apply Hf. by apply Hk. Qed.
Lemma outside_same dir dir' t t' : Forall clean_segment dir -> Forall clean_segment dir' -> dir' <> dir -> files_outside dir t t' -> same_payloads t t' dir'.
Proof.
  intros Hd Hd' Hne Ho n s. unfold is_payload. split; intros (Hc & Hp & Hn); (split_and!; [done..|]); apply (Ho _ _); try done;
    intros n' Hc' _ E; apply snoc_inj in E as [-> _]; try done; by apply clean_snoc.
Qed.
Lemma payload_name ext : plain_extension ext -> clean_segment ("resource" +:+ ext) /\ has_prefix ("resource" +:+ ext) "resource." = true.
Proof.
  intros (Hd & _ & Hc). split; [done|]. apply has_prefix_spec in Hd as [u ->]. apply (has_prefix_app "resource.").
Qed.
Lemma payload_but t t' dir n n' s : Forall clean_segment dir -> clean_segment n -> n' <> n -> files_but (path_of (dir ++ [n])) t t' ->
  is_payload t' dir n' s <-> is_payload t dir n' s.
Proof.
  intros Hdir Hc Hne Hf. unfold is_payload. split; intros (Hc' & Hp & E); (split_and!; [done..|]); (apply Hf; [|done]);
    intros E'; apply snoc_inj in E' as [_ ?]; try done; by apply clean_snoc.
Qed.
(** The one payload file of a directory is removed. *)
Lemma remove_only d d' dir n s desc : disk_ok d -> Forall clean_segment dir -> only_payload (view d) dir n s ->
  removePayloadFile repo (Some {| pf_Path := path_of (dir ++ [n]); pf_Name := n; pf_Descriptor := desc; pf_Shared := false |}) d = (None, d') ->
  disk_ok d' /\ files_outside dir (view d) (view d') /\ no_payload (view d') dir.
Proof.
  intros Hd Hdir Ho Hr. assert (is_payload (view d) dir n s) as Hn by by apply Ho.
  destruct (remove_effect _ _ _ _ _ _ Hd Hdir Hn Hr) as (Hd' & Hgone & Hbut). destruct Hn as (Hc & Hp & Hn).
  split_and!; [done|by eapply files_but_outside|]. intros n' s' Hp'. destruct (decide (n' = n)) as [->|Hne].
  - destruct Hp' as (_ & _ & E). by apply Hgone in E.
  - apply (payload_but _ _ _ _ _ _ Hdir Hc Hne Hbut), Ho in Hp' as [? _]. done.
Qed.
Lemma only_intro t dir name data : is_payload t dir name data -> (forall n s, is_payload t dir n s -> n = name) -> only_payload t dir name data.
Proof. intros Hp Hin n s. split; [|by intros [-> ->]]. intros Hn. pose proof (Hin _ _ Hn) as ->. split; [done|by eapply payload_unique]. Qed.
Lemma write_only t t' dir name data : Forall clean_segment dir -> is_payload t' dir name data -> files_but (path_of (dir ++ [name])) t t' ->
  (forall n s, is_payload t dir n s -> n = name) -> only_payload t' dir name data.
Proof.
  intros Hdir Hp Hf Hin. apply only_intro; [done|]. intros n s Hn. destruct (decide (n = name)) as [|Hne]; [done|].
  apply (payload_but _ _ _ _ _ _ Hdir (proj1 Hp) Hne Hf) in Hn. by apply Hin in Hn.
Qed.
(** A payload file is written, and the one there was, of another name, is removed. *)
Lemma replace_only d d1 d' dir name data n s desc : disk_ok d1 -> Forall clean_segment dir -> only_payload (view d) dir n s -> n <> name ->
  is_payload (view d1) dir name data -> files_but (path_of (dir ++ [name])) (view d) (view d1) ->
  removePayloadFile repo (Some {| pf_Path := path_of (dir ++ [n]); pf_Name := n; pf_Descriptor := desc; pf_Shared := false |}) d1 = (None, d') ->
  disk_ok d' /\ files_outside dir (view d) (view d') /\ only_payload (view d') dir name data.
Proof.
  intros Hd1 Hdir Ho Hne Hp Hbut1 Hr. assert (is_payload (view d) dir n s) as Hn by by apply Ho.
  assert (is_payload (view d1) dir n s) as Hn1 by by apply (payload_but _ _ _ _ _ _ Hdir (proj1 Hp) Hne Hbut1).
  destruct (remove_effect _ _ _ _ _ _ Hd1 Hdir Hn1 Hr) as (Hd' & Hgone & Hbut2). destruct Hn as (Hc & Hpre & _). split; [done|]. split.
  - eapply files_outside_trans; eapply files_but_outside; [| |exact Hbut1| | |exact Hbut2]; try done; by destruct Hp as (? & ? & ?).
  - apply only_intro; [by apply (payload_but _ _ _ _ _ _ Hdir Hc (not_eq_sym Hne) Hbut2)|]. intros n' s' Hp'.
    destruct (decide (n' = name)) as [|Hne']; [done|]. destruct (decide (n' = n)) as [->|Hne'']; [destruct Hp' as (_ & _ & E); by apply Hgone in E|].
    apply (payload_but _ _ _ _ _ _ Hdir Hc Hne'' Hbut2), (payload_but _ _ _ _ _ _ Hdir (proj1 Hp) Hne' Hbut1), Ho in Hp' as [? _]. done.
Qed.
Lemma store_payload_effect d d' qs files desired v : disk_ok d -> Forall clean_segment qs -> files_of (view d) (bs ++ qs) files ->
  plain_extension (Extension desired) ->
  store_payload repo {| pf_Path := path_of ((bs ++ qs) ++ ["resource" +:+ Extension desired]); pf_Name := "resource" +:+ Extension desired;
                        pf_Descriptor := desired; pf_Shared := false |} files {| content_Value := v; content_Descriptor := desired |} d = (None, d') ->
  disk_ok d' /\ files_outside (bs ++ qs) (view d) (view d') /\
  if is_nil v then no_payload (view d') (bs ++ qs)
  else exists encoded, EncodeContentPretty {| content_Value := v; content_Descriptor := desired |} = Ok encoded /\
       only_payload (view d') (bs ++ qs) ("resource" +:+ Extension desired) encoded.
Proof.
  intros Hd Hq Hf Hext Hs. unfold files_of in Hf. assert (Forall clean_segment (bs ++ qs)) as Hl by by apply Forall_app. destruct (payload_name _ Hext) as [Hc Hp]. set (name := "resource" +:+ Extension desired) in *.
  assert (Forall clean_segment ((bs ++ qs) ++ [name])) as Hln by by apply clean_snoc.
  unfold store_payload in Hs. cbn [content_Value pf_Path] in Hs. destruct (is_nil v).
  { destruct (rp_Resource files) as [info|]; [|injection Hs as <-; split_and!; [done|by intros k c|done]].
    destruct Hf as (n & s & Ho & ->). exact (remove_only d d' _ n s _ Hd Hl Ho Hs). }
  destruct (EncodeContentPretty _) as [encoded|err]; [|done]. destruct (writeFileAtomically _ _ _ _ d) as [[e|] d1] eqn:Hw; [done|].
  destruct (write_effect _ _ _ _ _ _ _ Hd Hln Hw) as (Hd1 & Hnew & Hbut). assert (is_payload (view d1) (bs ++ qs) name encoded) as Hpn by done.
  assert ((forall n s, is_payload (view d) (bs ++ qs) n s -> n = name) -> d' = d1 -> disk_ok d' /\ files_outside (bs ++ qs) (view d) (view d') /\
    exists encoded', (Ok encoded : result error string) = Ok encoded' /\ only_payload (view d') (bs ++ qs) name encoded') as Hkept.
  { intros Hin ->. split_and!; [done|by eapply files_but_outside|]. exists encoded. split; [done|]. by apply (write_only (view d)). }
  destruct (rp_Resource files) as [info|].
  - destruct Hf as (n & s & Ho & ->). cbn [pf_Path] in Hs. destruct (decide (n = name)) as [->|Hne].
    + rewrite bool_decide_true in Hs by done. injection Hs as <-. apply Hkept; [|done]. by intros n' s' [? _]%Ho.
    + assert (path_of ((bs ++ qs) ++ [n]) <> path_of ((bs ++ qs) ++ [name])) as Hk.
      { intros E. apply snoc_inj in E as [_ ?]; [done| |done]. apply clean_snoc. split; [done|]. by apply (Ho n s). }
      rewrite bool_decide_false in Hs by done. destruct (replace_only d d1 d' _ _ _ _ _ _ Hd1 Hl Ho Hne Hpn Hbut Hs) as (? & ? & ?). eauto.
  - injection Hs as <-. apply Hkept; [|done]. intros n s Hn. by apply Hf in Hn.
Qed.

(** ** The repository as a map *)
Definition resource_at (d : D) (p : string) : option Content := ok_opt (Get repo d p).
Lemma resource_at_Some d p c : resource_at d p = Some c <-> Get repo d p = Ok c.
Proof. unfold resource_at. destruct (Get repo d p); cbn; naive_solver. Qed.
Lemma resource_at_eq d d' p : (forall c, Get repo d' p = Ok c <-> Get repo d p = Ok c) -> resource_at d' p = resource_at d p.
Proof. intros E. apply option_eq. intros c. rewrite !resource_at_Some. apply E. Qed.
Lemma resource_at_none d p qs : disk_ok d -> Forall clean_segment qs -> NormalizeLogicalPath p = Ok (path_of qs) ->
  no_payload (view d) (bs ++ qs) -> resource_at d p = None.
Proof.
  intros Hd Hq Hp Hno. apply eq_None_not_Some. intros [c Hc%resource_at_Some]. destruct (decide (qs = [])) as [->|Hne].
  - unfold Get, resource_path in Hc. rewrite Hp in Hc. cbn [mbind result_bind] in Hc. by rewrite bool_decide_true in Hc by done.
  - apply (Get_spec d p qs) in Hc as (n & s & v & Ho & _); [|done..]. by apply (Hno n s), Ho.
Qed.
(** What happens in the directory of one resource leaves the others as they are. *)
Lemma others_same d d' qs p' q' : disk_ok d -> disk_ok d' -> Forall clean_segment qs -> files_outside (bs ++ qs) (view d) (view d') ->
  NormalizeLogicalPath p' = Ok q' -> q' <> path_of qs -> resource_at d' p' = resource_at d p'.
Proof.
  intros Hd Hd' Hq Ho Hp' Hne. destruct (NormalizeLogicalPath_canonical _ _ Hp') as (qs' & Hq' & ->). apply resource_at_eq. intros c.
  destruct (decide (qs' = [])) as [->|Hn].
  - unfold Get, resource_path. rewrite Hp'. cbn [mbind result_bind]. by rewrite bool_decide_true by done.
  - eapply Get_same; try done. apply (outside_same (bs ++ qs)); [by apply Forall_app..| |done]. intros E%app_inv_head. by subst.
Qed.
Lemma prepare_save_inv d qs c target files content : Forall clean_segment qs -> qs <> [] ->
  (forall files, discoverPayloadFiles repo d (path_of qs) = Ok files -> plain_extension (Extension (desiredPayloadDescriptor c files))) ->
  prepare_save repo d (path_of qs) c = Ok (target, files, content) ->
  exists v, let desired := desiredPayloadDescriptor c files in
  discoverPayloadFiles repo d (path_of qs) = Ok files /\ plain_extension (Extension desired) /\ Normalize (content_Value c) = Ok v /\
  content = {| content_Value := v; content_Descriptor := desired |} /\
  target = {| pf_Path := path_of ((bs ++ qs) ++ ["resource" +:+ Extension desired]); pf_Name := "resource" +:+ Extension desired;
              pf_Descriptor := desired; pf_Shared := false |}.
Proof.
  intros Hq Hne Hext ([target' files'] & Ht & Hv)%bind_Ok. unfold resolvePayloadTarget in Ht. apply bind_Ok in Ht as (fs & Hf & Ht).
  apply bind_Ok in Ht as (path & Hpath & [= <- <-]). apply canonicalPayloadFilePath_Ok in Hpath as ->; [|done|done|by apply Hext].
  apply bind_Ok in Hv as (v & Hv & [= <- <- <-]). exists v. split_and!; try done. by apply Hext.
Qed.

(** What a save does to the files. *)
Lemma Save_effect d d' p qs c : disk_ok d -> Forall clean_segment qs -> NormalizeLogicalPath p = Ok (path_of qs) ->
  (forall files, discoverPayloadFiles repo d (path_of qs) = Ok files -> plain_extension (Extension (desiredPayloadDescriptor c files))) ->
  Save repo p c d = (None, d') ->
  qs <> [] /\ disk_ok d' /\ files_outside (bs ++ qs) (view d) (view d') /\
  exists files v, let desired := desiredPayloadDescriptor c files in
    discoverPayloadFiles repo d (path_of qs) = Ok files /\ Normalize (content_Value c) = Ok v /\
    if is_nil v then no_payload (view d') (bs ++ qs)
    else exists encoded, EncodeContentPretty {| content_Value := v; content_Descriptor := desired |} = Ok encoded /\
      only_payload (view d') (bs ++ qs) ("resource" +:+ Extension desired) encoded.
Proof.
  intros Hd Hq Hp Hext Hs. unfold Save in Hs. destruct (_ ≫= _) as [[[target files] content]|e] eqn:E; [|done]. apply bind_Ok in E as (q & Hr & E).
  apply resource_path_Ok in Hr as [Hp2 Hroot]. assert (q = path_of qs) as -> by congruence. assert (qs <> []) as Hne by by intros ->.
  apply prepare_save_inv in E as (v & Hf & He & Hv & -> & ->); [|done..].
  destruct (store_payload_effect d d' qs files _ v Hd Hq (proj2 (discover_spec _ _ _ Hd Hq Hf)) He Hs) as (Hd' & Ho & Hpay).
  split_and!; [done..|]. by exists files, v.
Qed.
Lemma resource_at_only d p qs name data : disk_ok d -> Forall clean_segment qs -> qs <> [] -> NormalizeLogicalPath p = Ok (path_of qs) ->
  only_payload (view d) (bs ++ qs) name data ->
  resource_at d p = ok_opt (w ← DecodeContent data (descriptor_of name); Ok {| content_Value := content_Value w; content_Descriptor := descriptor_of name |}).
Proof.
  intros Hd Hq Hne Hp Ho. apply option_eq. intros c. rewrite resource_at_Some, (Get_spec d p qs) by done. split.
  - intros (n & s & w & Ho' & Hw & ->). assert (is_payload (view d) (bs ++ qs) n s) as [-> ->]%Ho by by apply Ho'. by rewrite Hw.
  - destruct (DecodeContent _ _) as [w|] eqn:Hw; [|done]. cbn. intros [= <-]. by eexists _, _, w.
Qed.

(** [C10] The repository in files is a map from logical paths to payloads: after a payload is
    saved on a path, under an extension that makes [resource<ext>] the name of one file (a dot
    first, no slash, no outer space), every other path has the payload it had, or none as
    before; the path has the payload written, read back with the descriptor of its file, or
    none when the payload is nil. The disk, without links, may fail; only a save that succeeds
    is spoken of. The code takes any extension, and one with a slash writes elsewhere:
    [extension_leaves_directory]. *)
Theorem save_updates_one_resource d d' p qs c : disk_ok d -> Forall clean_segment qs -> NormalizeLogicalPath p = Ok (path_of qs) ->
  (forall files, discoverPayloadFiles repo d (path_of qs) = Ok files -> plain_extension (Extension (desiredPayloadDescriptor c files))) ->
  Save repo p c d = (None, d') ->
  disk_ok d' /\
  (forall p' q', NormalizeLogicalPath p' = Ok q' -> q' <> path_of qs -> resource_at d' p' = resource_at d p') /\
  exists files v, let desired := desiredPayloadDescriptor c files in let file := descriptor_of ("resource" +:+ Extension desired) in
    discoverPayloadFiles repo d (path_of qs) = Ok files /\ Normalize (content_Value c) = Ok v /\
    if is_nil v then resource_at d' p = None
    else exists encoded, EncodeContentPretty {| content_Value := v; content_Descriptor := desired |} = Ok encoded /\
      resource_at d' p = ok_opt (w ← DecodeContent encoded file; Ok {| content_Value := content_Value w; content_Descriptor := file |}).
Proof.
  intros Hd Hq Hp Hext Hs. destruct (Save_effect d d' p qs c Hd Hq Hp Hext Hs) as (Hne & Hd' & Ho & files & v & Hf & Hv & Hpay).
  split_and!; [done|intros; by eapply (others_same d d' qs)|]. exists files, v. split_and!; [done..|]. destruct (is_nil v).
  - by apply (resource_at_none d' p qs).
  - destruct Hpay as (encoded & Henc & Honly). exists encoded. split; [done|]. by apply (resource_at_only d' p qs).
Qed.
(** [C40] Deleting a resource removes its payload, and every other path has the payload it
    had: the directories that are removed with it are empty. *)
Theorem delete_removes_one_resource d d' p qs c Recursive : disk_ok d -> Forall clean_segment qs -> NormalizeLogicalPath p = Ok (path_of qs) ->
  resource_at d p = Some c -> Delete repo p Recursive d = (None, d') ->
  disk_ok d' /\ resource_at d' p = None /\
  forall p' q', NormalizeLogicalPath p' = Ok q' -> q' <> path_of qs -> resource_at d' p' = resource_at d p'.
Proof.
  intros Hd Hq Hp Hc%resource_at_Some Hdel. assert (Forall clean_segment (bs ++ qs)) as Hl by by apply Forall_app.
  assert (qs <> []) as Hne. { intros ->. unfold Get, resource_path in Hc. rewrite Hp in Hc. cbn [mbind result_bind] in Hc. by rewrite bool_decide_true in Hc by done. }
  apply (Get_spec d p qs) in Hc as (n & s & _ & Ho & _); [|done..]. unfold Delete in Hdel. rewrite Hp in Hdel. cbn [mbind result_bind] in Hdel.
  erewrite discover_payload in Hdel by done. cbn [mbind result_bind rp_Resource] in Hdel.
  destruct (remove_only d d' _ _ _ _ Hd Hl Ho Hdel) as (Hd' & Hout & Hno). split_and!; [done|by apply (resource_at_none d' p qs)|].
  intros p' q' Hp' Hq'. by eapply (others_same d d' qs).
Qed.

(** ** Collections *)
Lemma path_rel_below l k : Forall clean_segment l -> Forall clean_segment k -> k <> [] -> path_rel (path_of l) (path_of (l ++ k)) = Some (str_join "/" k).
Proof.
  intros Hl Hk Hne. assert (Forall clean_segment (l ++ k)) as Hlk by by apply Forall_app. unfold path_rel. rewrite !path_clean_path_of by done.
  rewrite bool_decide_false. 2: { intros E%path_of_inj; [|done..]. apply (f_equal length) in E. rewrite length_app in E. destruct k; [done|cbn in E; lia]. }
  rewrite !path_of_inj_prefix, !path_segments_path_of by done. cbn [Bool.eqb negb]. rewrite drop_common_prefix.
  rewrite bool_decide_false by apply not_elem_of_nil. cbn [app length replicate]. by destruct k.
Qed.
Lemma relative_path k : Forall clean_segment k -> k <> [] -> "/" +:+ trim_prefix (str_join "/" k) "/" = path_of k.
Proof.
  intros Hk Hne. rewrite trim_prefix_id; [done|]. destruct k as [|s k]; [done|]. apply Forall_cons in Hk as [(Hs & _ & _ & Hsl & _) _].
  assert (exists u, str_join "/" (s :: k) = s +:+ u) as [u ->].
  { destruct k as [|t k]; [exists ""; by rewrite app_empty_r|]. eexists. apply str_join_cons2. }
  destruct s as [|c s]; [done|]. str. rewrite has_prefix_cons, has_prefix_empty, andb_true_r. apply bool_decide_eq_false. by intros ->.
Qed.
Lemma delete_directory_effect d d' k : disk_ok d -> Forall clean_segment k -> k <> [] -> delete_directory repo (str_join "/" k) d = (None, d') ->
  disk_ok d' /\ files_outside (bs ++ k) (view d) (view d') /\ no_payload (view d') (bs ++ k).
Proof.
  intros Hd Hk Hne. unfold delete_directory. rewrite relative_path by done. destruct (discoverPayloadFiles repo d (path_of k)) as [files|e] eqn:Hf; [|done].
  apply discover_spec in Hf as [Hdef Hf]; [|done..]. unfold removable, files_of in *. rewrite Hdef. destruct (rp_Resource files) as [info|]; cbn [orb].
  - rewrite bool_decide_true by eauto. destruct Hf as (n & s & Ho & ->). intros Hr. eapply remove_only; [done|by apply Forall_app|exact Ho|exact Hr].
  - rewrite !bool_decide_false by by intros []. intros [= <-]. split_and!; [done|by intros ? ?|done].
Qed.
(** The directories of the entries are emptied of their payloads, and nothing else is. *)
Lemma delete_entries_effect qs entries : Forall clean_segment qs -> Forall (fun e => clean_segment e.1) entries ->
  forall d d', disk_ok d -> delete_entries repo (path_of (bs ++ qs)) entries d = (None, d') ->
  disk_ok d' /\
  (forall name, (name, true) ∈ entries -> name <> "_" -> no_payload (view d') ((bs ++ qs) ++ [name])) /\
  forall dir, Forall clean_segment dir -> (forall name, (name, true) ∈ entries -> name <> "_" -> dir <> (bs ++ qs) ++ [name]) -> same_payloads (view d) (view d') dir.
Proof.
  intros Hq Hall. induction Hall as [|[name isDir] entries Hname Hall IH]; intros d d' Hd; cbn [delete_entries].
  { intros [= <-]. split_and!; [done|by intros ? ?%not_elem_of_nil|by intros ? ? ? ? ?]. }
  cbn in Hname. destruct (negb isDir || (name == "_")) eqn:Eskip.
  { intros Hr. destruct (IH d d' Hd Hr) as (Hd' & Hno & Hsame). split_and!; [done| |].
    - intros n [[= <- <-]|Hin]%elem_of_cons Hn; [by rewrite bool_decide_false in Eskip|by apply Hno].
    - intros dir Hdir Hn. apply Hsame; [done|]. intros n Hin. apply Hn. by right. }
  apply orb_false_iff in Eskip as [Ed%negb_false_iff En%bool_decide_eq_false]. subst isDir.
  assert (Forall clean_segment (qs ++ [name])) as Hqn by by apply clean_snoc.
  cbn [baseDir]. rewrite path_join_snoc, <-app_assoc, path_rel_below by (done || (by destruct qs) || by apply Forall_app).
  destruct (delete_directory repo _ d) as [[e|] d1] eqn:Hdel; [done|]. apply delete_directory_effect in Hdel as (Hd1 & Hout & Hno1); [|done|done|by destruct qs].
  intros Hr. destruct (IH d1 d' Hd1 Hr) as (Hd' & Hno & Hsame). assert (Forall clean_segment (bs ++ qs ++ [name])) as Hl by by apply Forall_app.
  split; [done|]. split.
  - intros n Hin Hn. destruct (decide ((n, true) ∈ entries)) as [Hin'|Hni]; [by apply Hno|]. apply elem_of_cons in Hin as [[= ->]|?]; [|done].
    rewrite <-app_assoc. intros n' s Hp. apply Hsame in Hp; [by apply Hno1 in Hp|done|].
    intros name' Hin' _ E. rewrite app_assoc in E. apply app_inj_tail in E as [_ <-]. done.
  - intros dir Hdir Hn n s. trans (is_payload (view d1) dir n s); [apply Hsame; [done|]; intros n' Hin; apply Hn; by right|].
    apply (outside_same (bs ++ qs ++ [name])); [done..| |done]. rewrite app_assoc. apply Hn; [by left|done].
Qed.
(** The entries of a collection name every directory below it with a payload. *)
Lemma payload_listed d l s n data : disk_ok d -> Forall clean_segment l -> clean_segment s -> is_payload (view d) (l ++ [s]) n data ->
  ReadDir d (path_of l) = Ok (tree_children (view d) (path_of l)) /\ (s, true) ∈ tree_children (view d) (path_of l).
Proof.
  intros Hd Hl Hs Hp. assert (Forall clean_segment (l ++ [s])) as Hls by by apply clean_snoc. apply payload_dir in Hp; [|done..]. rewrite node_at_snoc in Hp.
  assert (node_at (view d) l = Some DirNode) as Hdir by (eapply wf_parent; [by apply ok_tree|exact Hls|exact Hp]). split.
  - pose proof (reads_dir d l Hd Hl) as Ha. unfold tree_ReadDir in Ha. rewrite path_clean_path_of, is_dir_node, bool_decide_true in Ha by done.
    destruct (ReadDir _ _); cbn in Ha; [by subst|done].
  - apply children_spec; [by apply ok_tree|done|]. split; [done|]. by exists DirNode.
Qed.
Lemma entries_clean d l entries : disk_ok d -> Forall clean_segment l -> ReadDir d (path_of l) = Ok entries ->
  entries = tree_children (view d) (path_of l) /\ Forall (fun e => clean_segment e.1) entries.
Proof.
  intros Hd Hl Hr. pose proof (reads_dir d l Hd Hl) as Ha. unfold tree_ReadDir in Ha. rewrite Hr, path_clean_path_of in Ha by done.
  destruct (is_dir _ _); cbn in Ha; [|by destruct (view d !! _)]. split; [done|]. subst entries. apply Forall_forall. intros [s b] Hin.
  apply children_spec in Hin as [Hs _]; [done|by apply ok_tree|done].
Qed.
(** Deleting a collection, not recursively, removes the payloads of the resources
    directly below it, and of no others. *)
Theorem delete_empties_collection d d' p qs : disk_ok d -> Forall clean_segment qs -> NormalizeLogicalPath p = Ok (path_of qs) ->
  no_payload (view d) (bs ++ qs) -> Delete repo p false d = (None, d') ->
  disk_ok d' /\
  (forall s p', clean_segment s -> s <> "_" -> NormalizeLogicalPath p' = Ok (path_of (qs ++ [s])) -> resource_at d' p' = None) /\
  (forall p' q', NormalizeLogicalPath p' = Ok q' -> (forall s, s <> "_" -> q' <> path_of (qs ++ [s])) -> resource_at d' p' = resource_at d p').
Proof.
  intros Hd Hq Hp Hno Hdel. assert (Forall clean_segment (bs ++ qs)) as Hl by by apply Forall_app.
  unfold Delete in Hdel. rewrite Hp in Hdel. cbn [mbind result_bind] in Hdel.
  destruct (discoverPayloadFiles repo d (path_of qs)) as [files|e] eqn:Hf; [|done]. cbn [mbind result_bind] in Hdel.
  apply discover_spec in Hf as [Hdef Hf]; [|done..]. unfold removable, files_of in *. rewrite Hdef in Hdel.
  destruct (rp_Resource files) as [info|]; [destruct Hf as (n & s & Ho & _); exfalso; apply (Hno n s); by apply Ho|].
  rewrite !bool_decide_false in Hdel by by intros []. cbn [orb] in Hdel.
  destruct (collectionDirPath repo d (path_of qs)) as [dir|e] eqn:Hc; [|done]. apply collectionDirPath_Ok in Hc as ->; [|done].
  assert (exists entries, (forall s n data, clean_segment s -> is_payload (view d) ((bs ++ qs) ++ [s]) n data -> (s, true) ∈ entries) /\
    Forall (fun e => clean_segment e.1) entries /\ delete_entries repo (path_of (bs ++ qs)) entries d = (None, d')) as (entries & Hin & Hclean & Hrun).
  { unfold deleteCollectionDirect in Hdel. destruct (ReadDir d (path_of (bs ++ qs))) as [entries|err] eqn:Hr.
    - destruct (entries_clean _ _ _ Hd Hl Hr) as [He Hclean]. exists entries. split_and!; [|done..].
      intros s n data Hs Hp'. subst entries. by eapply payload_listed.
    - exists []. split_and!; [|done|by destruct err]. intros s n data Hs Hp'. exfalso. apply payload_listed in Hp' as [E _]; [|done..]. congruence. }
  destruct (delete_entries_effect qs entries Hq Hclean d d' Hd Hrun) as (Hd' & Hgone & Hsame). split; [done|]. split.
  - intros s p' Hs Hs_ Hp'. apply (resource_at_none d' p' (qs ++ [s])); [done|by apply clean_snoc|done|]. rewrite app_assoc.
    destruct (decide ((s, true) ∈ entries)) as [Hi|Hi]; [by apply Hgone|]. intros n data Hpay.
    apply Hsame in Hpay; [by apply Hin in Hpay|by apply clean_snoc|]. intros s' Hi' _ E. by apply app_inj_tail in E as [_ <-].
  - intros p' q' Hp' Hq'. destruct (NormalizeLogicalPath_canonical _ _ Hp') as (qs' & Hqs' & ->). apply resource_at_eq. intros c.
    destruct (decide (qs' = [])) as [->|Hne]; [unfold Get, resource_path; rewrite Hp'; cbn [mbind result_bind]; by rewrite bool_decide_true by done|].
    apply (Get_same d d' p' qs'); [done..|]. apply Hsame; [by apply Forall_app|]. intros s _ Hs E. rewrite <-app_assoc in E. apply app_inv_head in E. subst qs'.
    by apply (Hq' s Hs).
Qed.

(** ** Listing a collection *)
Definition listed_resource (qs : list string) (s : string) (descriptor : PayloadDescriptor) : Resource :=
  {| LogicalPath := path_of (qs ++ [s]); CollectionPath := path_of qs; LocalAlias := s; RemoteID := ""; ResolvedRemotePath := ""; Payload := VNil;
     Res_PayloadDescriptor := descriptor |}.
(** The child [s] of a collection has a payload, and is listed as [x] under the path [k]. *)
Definition listed_at (d : D) (qs : list string) (s k : string) (x : Resource) : Prop :=
  clean_segment s /\ s <> "_" /\ k = path_of (qs ++ [s]) /\
  exists n data, only_payload (view d) ((bs ++ qs) ++ [s]) n data /\ x = listed_resource qs s (descriptor_of n).
Lemma listed_at_fun d qs s s' k x x' : Forall clean_segment qs -> listed_at d qs s k x -> listed_at d qs s' k x' -> x = x'.
Proof.
  intros Hq (Hs & _ & -> & n & data & Ho & ->) (Hs' & _ & E & n' & data' & Ho' & ->). apply snoc_inj in E as [_ <-]; [|by apply clean_snoc..].
  assert (is_payload (view d) ((bs ++ qs) ++ [s]) n data) as [-> _]%Ho' by by apply Ho. done.
Qed.
Lemma buildListed_snoc qs s info : Forall clean_segment qs -> clean_segment s ->
  buildListedResource (path_of (qs ++ [s])) (Some info) = listed_resource qs s (pf_Descriptor info).
Proof.
  intros Hq Hs. assert (Forall clean_segment (qs ++ [s])) as Hl by by apply clean_snoc. unfold buildListedResource, listed_resource.
  by rewrite path_dir_snoc, path_base_snoc, !bool_decide_false by done.
Qed.
Lemma add_item_spec d qs s items items' : disk_ok d -> Forall clean_segment qs -> clean_segment s -> s <> "_" ->
  add_item repo d (rooted (path_join [path_of qs; s])) items = Ok items' ->
  forall k x, items' !! k = Some x <-> listed_at d qs s k x \/ (items !! k = Some x /\ forall y, ~ listed_at d qs s k y).
Proof.
  intros Hd Hq Hs Hs_. rewrite path_join_snoc by done. unfold rooted. rewrite path_of_inj_prefix. cbn [negb]. unfold add_item.
  assert (Forall clean_segment (qs ++ [s])) as Hl by by apply clean_snoc. destruct (discoverPayloadFiles repo d (path_of (qs ++ [s]))) as [files|e] eqn:Hf; [|done].
  apply discover_spec in Hf as [_ Hf]; [|done..]. cbn [mbind result_bind]. intros [= <-] k x. unfold primary, files_of in *. rewrite app_assoc in Hf.
  destruct (rp_Resource files) as [info|].
  - destruct Hf as (n & data & Ho & ->). rewrite buildListed_snoc by done. cbn [pf_Descriptor].
    assert (listed_at d qs s (path_of (qs ++ [s])) (listed_resource qs s (descriptor_of n))) as Hli by (split_and!; [done..|]; by exists n, data).
    rewrite lookup_insert_Some. split.
    + intros [[<- <-]|[Hne Hx]]; [by left|]. right. split; [done|]. intros y (_ & _ & -> & _). done.
    + intros [Hx|[Hx Hno]].
      * left. pose proof Hx as (_ & _ & -> & _). split; [done|]. by eapply (listed_at_fun d qs s s).
      * right. split; [|done]. intros <-. by apply Hno in Hli.
  - split; [intros Hx; right; split; [done|]|intros [(_ & _ & _ & n & data & Ho & _)|[Hx _]]; [exfalso; by apply (Hf n data), Ho|done]].
    intros y (_ & _ & _ & n & data & Ho & _). by apply (Hf n data), Ho.
Qed.
Lemma direct_items_spec d qs entries : disk_ok d -> Forall clean_segment qs -> Forall (fun e => clean_segment e.1) entries ->
  forall items items', direct_items repo d (path_of qs) entries items = Ok items' -> (forall k x, items !! k = Some x -> exists s, listed_at d qs s k x) ->
  forall k x, items' !! k = Some x <-> items !! k = Some x \/ exists s, (s, true) ∈ entries /\ listed_at d qs s k x.
Proof.
  intros Hd Hq. induction 1 as [|[name isDir] entries Hname Hall IH]; intros items items'; cbn [direct_items].
  { intros [= <-] _ k x. split; [by left|]. by intros [?|(s & ?%not_elem_of_nil & _)]. }
  cbn in Hname. destruct (negb isDir || (name == "_")) eqn:Eskip.
  { intros Hr Hsound k x. rewrite (IH _ _ Hr Hsound). apply or_iff_compat_l. split; intros (s & Hin & Hx); exists s; (split; [|done]); [by right|].
    apply elem_of_cons in Hin as [[= <- <-]|?]; [|done]. destruct Hx as (_ & Hs & _). by rewrite bool_decide_false in Eskip. }
  apply orb_false_iff in Eskip as [Ed%negb_false_iff En%bool_decide_eq_false]. subst isDir.
  intros (items1 & Hadd & Hr)%bind_Ok Hsound k x. pose proof (add_item_spec d qs name items items1 Hd Hq Hname En Hadd) as Hspec.
  rewrite (IH _ _ Hr). 2: { intros k' x' [?|[? _]]%Hspec; [by eexists|by apply Hsound]. }
  rewrite Hspec. split.
  - intros [[Hx|[Hx _]]|(s & Hin & Hx)]; [right; exists name; split; [by left|done]|by left|right; exists s; split; [by right|done]].
  - intros [Hx|(s & [[= ->]|Hin]%elem_of_cons & Hx)]; [|by left; left|by right; exists s].
    destruct (Hsound _ _ Hx) as [s Hs]. left. destruct (decide (s = name)) as [->|Hne]; [by left|]. right. split; [done|].
    intros y (Hc' & _ & E & _). destruct Hs as (Hc & _ & -> & _). apply snoc_inj in E as [_ ?]; [done|by apply clean_snoc..].
Qed.
Lemma sorted_items_spec (items : gmap string Resource) x : x ∈ sorted_items items <-> exists k, items !! k = Some x.
Proof.
  unfold sorted_items. rewrite list_elem_of_omap. split; [intros (k & _ & Hk); by exists k|]. intros [k Hk]. exists k. split; [|done].
  apply elem_of_sorted_keys. by eexists.
Qed.
Lemma sorted_items_paths (items : gmap string Resource) : map_Forall (fun k x => LogicalPath x = k) items -> LogicalPath <$> sorted_items items = sorted_keys items.
Proof.
  intros Hall. unfold sorted_items. assert (Forall (fun k => is_Some (items !! k)) (sorted_keys items)) as Hk by (apply Forall_forall; intros k; apply elem_of_sorted_keys).
  induction Hk as [|k ks [x Hx] Hk IH]; [done|]. cbn. rewrite Hx. cbn. by rewrite IH, (Hall k x Hx).
Qed.
(** A collection, listed directly, is exactly its children that have one payload file, in
    the order of their paths, each with the descriptor of its file; a child named [_] holds
    metadata and is not listed. *)
Theorem list_is_children d p qs items : disk_ok d -> Forall clean_segment qs -> NormalizeLogicalPath p = Ok (path_of qs) ->
  no_payload (view d) (bs ++ qs) -> FsStore.List repo d p false = Ok items ->
  (forall x, x ∈ items <-> exists s n data, clean_segment s /\ s <> "_" /\ only_payload (view d) ((bs ++ qs) ++ [s]) n data /\
     x = listed_resource qs s (descriptor_of n)) /\
  StronglySorted String.le (LogicalPath <$> items) /\ NoDup (LogicalPath <$> items).
Proof.
  intros Hd Hq Hp Hno. assert (Forall clean_segment (bs ++ qs)) as Hl by by apply Forall_app. unfold FsStore.List. rewrite Hp. cbn [mbind result_bind].
  intros (files & Hf & Hlist)%bind_Ok. apply discover_spec in Hf as [_ Hf]; [|done..]. unfold primary, files_of in *.
  destruct (rp_Resource files) as [info|]; [destruct Hf as (n & s & Ho & _); exfalso; apply (Hno n s); by apply Ho|].
  apply bind_Ok in Hlist as (dir & ->%collectionDirPath_Ok & Hlist); [|done]. unfold listDirect in Hlist.
  assert (exists m, items = sorted_items m /\ forall k x, m !! k = Some x <-> exists s, listed_at d qs s k x) as (mm & -> & Hm).
  { destruct (ReadDir d (path_of (bs ++ qs))) as [entries|err] eqn:Hr.
    - apply bind_Ok in Hlist as (mm & Hmm & [= <-]). destruct (entries_clean _ _ _ Hd Hl Hr) as [-> Hclean]. exists mm. split; [done|]. intros k x.
      rewrite (direct_items_spec d qs _ Hd Hq Hclean ∅ mm Hmm) by by intros ? ? ?%lookup_empty_Some.
      rewrite lookup_empty. split; [intros [?|(s & _ & Hx)]; [done|by exists s]|]. intros [s Hx]. right. exists s. split; [|done].
      destruct Hx as (Hs & _ & _ & n & data & Ho & _). eapply payload_listed; [done..|by apply Ho].
    - exists ∅. destruct err; [|done..]. injection Hlist as <-. split; [done|]. intros k x. rewrite lookup_empty. split; [done|].
      intros (s & Hs & _ & _ & n & data & Ho & _). exfalso. assert (is_payload (view d) ((bs ++ qs) ++ [s]) n data) as Hpay by by apply Ho.
      apply payload_listed in Hpay as [E _]; [|done..]. congruence. }
  split.
  - intros x. rewrite sorted_items_spec. setoid_rewrite Hm. split.
    + intros (k & s & Hs & Hs_ & _ & n & data & Ho & ->). by exists s, n, data.
    + intros (s & n & data & Hs & Hs_ & Ho & ->). exists (path_of (qs ++ [s])), s. split_and!; [done..|]. by exists n, data.
  - rewrite sorted_items_paths; [split; [apply sorted_keys_sorted|apply sorted_keys_NoDup]|].
    intros k x (s & _ & _ & -> & n & data & _ & ->)%Hm. done.
Qed.
End facts.

(** ** The files beside a payload *)
Section artifacts.
Context `{UnicodeTables, TextCodecs} {D : Type} `{DiskLaws D}.
Context (bs : list string) (m : string) (Hbs : Forall clean_segment bs).
Abbreviation repo := {| baseDir := path_of bs; metadataBaseDir := m |}.

(** A relative path, cleaned, whose name is not that of a payload file. *)
Definition artifact_at (file : string) (ks : list string) : Prop :=
  ks <> [] /\ Forall clean_segment ks /\ file = str_join "/" ks /\ trim_space file = file /\
  forall k s, ks = k ++ [s] -> has_prefix s "resource." = false.
Lemma relative_clean ks : Forall clean_segment ks -> ks <> [] -> path_clean (str_join "/" ks) = str_join "/" ks /\ has_prefix (str_join "/" ks) "/" = false.
Proof.
  intros Hk Hne. assert (has_prefix (str_join "/" ks) "/" = false) as Hp.
  { destruct ks as [|s ks]; [done|]. apply Forall_cons in Hk as [(Hs & _ & _ & Hsl & _) _].
    assert (exists u, str_join "/" (s :: ks) = s +:+ u) as [u ->].
    { destruct ks as [|t ks]; [exists ""; by rewrite app_empty_r|]. eexists. apply str_join_cons2. }
    destruct s as [|c s]; [done|]. str. rewrite has_prefix_cons, has_prefix_empty, andb_true_r. apply bool_decide_eq_false. intros ->. done. }
  split; [|done]. unfold path_clean. rewrite Hp. change "/" with (String slash ""). rewrite split_on_join by (done || by apply clean_segments_no_sep).
  rewrite clean_segments_kept by (eapply Forall_impl; [exact Hk|]; by intros t (_ & _ & ? & _)).
  rewrite app_nil_r, reverse_involutive, kept_clean by done. rewrite decide_False; [done|]. intros E. apply Hne, (path_of_root ks Hk). change (path_of ks) with ("/" +:+ str_join (String slash "") ks). by rewrite E.
Qed.
Lemma normalizeArtifact_at file ks : artifact_at file ks -> normalizeArtifactRelativePath file = Ok file.
Proof.
  intros (Hne & Hk & Hf & Ht & _). destruct (relative_clean ks Hk Hne) as [Hc Hp]. unfold normalizeArtifactRelativePath. rewrite Ht.
  assert (file <> "") as Hfe. { intros ->. apply Hne, (path_of_root ks Hk). unfold path_of. by rewrite <-Hf. }
  rewrite <-Hf in Hc, Hp. rewrite (bool_decide_false (file = "")), Hp, Hc by done.
  assert (file <> ".") as Hdot.
  { intros ->. assert (split_on slash "." = ks) as E; [|cbn in E; subst ks; apply Forall_cons in Hk as [(_ & ? & _) _]; done].
    rewrite Hf. apply split_on_join; [done|by apply clean_segments_no_sep]. }
  rewrite !bool_decide_false by done. cbn [orb].
  assert (existsb (fun segment => segment == "..") (split_on slash file) = false) as ->; [|done].
  apply existsb_dotdot. rewrite Hf. change "/" with (String slash ""). rewrite split_on_join by (done || by apply clean_segments_no_sep).
  eapply Forall_impl; [exact Hk|]. by intros t (_ & _ & ? & _).
Qed.
Lemma artifact_path_Ok d qs file ks p : Forall clean_segment qs -> artifact_at file ks ->
  resourceArtifactFilePath repo d (path_of qs) file = Ok p -> p = path_of ((bs ++ qs) ++ ks).
Proof.
  intros Hq Ha. unfold resourceArtifactFilePath. intros (dir & ->%collectionDirPath_Ok & Hp)%bind_Ok; [|done..].
  rewrite (normalizeArtifact_at _ _ Ha) in Hp. cbn [mbind result_bind] in Hp. destruct Ha as (Hne & Hk & -> & _).
  rewrite path_join_segments in Hp by (done || by apply Forall_app). by destruct (negb _); [|injection Hp as <-].
Qed.
Lemma artifact_path_node d qs file ks n : disk_ok d -> Forall clean_segment qs -> artifact_at file ks -> view d !! path_of ((bs ++ qs) ++ ks) = Some n ->
  resourceArtifactFilePath repo d (path_of qs) file = Ok (path_of ((bs ++ qs) ++ ks)).
Proof.
  intros Hd Hq Ha Hn. unfold resourceArtifactFilePath. rewrite (normalizeArtifact_at _ _ Ha). destruct Ha as (Hne & Hk & -> & _).
  assert (Forall clean_segment ((bs ++ qs) ++ ks)) as Hl by by rewrite !Forall_app.
  assert (node_at (view d) ((bs ++ qs) ++ ks) = Some n) as Hnode by (unfold node_at; by destruct ((bs ++ qs) ++ ks) eqn:E; [destruct (bs ++ qs), ks|]).
  erewrite collectionDirPath_node by (done || (eapply wf_ancestor; [by apply ok_tree|exact Hl|done|exact Hnode])).
  cbn [mbind result_bind]. rewrite path_join_segments by (done || by apply Forall_app). rewrite <-app_assoc in *.
  cbn [baseDir]. erewrite under_root_node by done. done.
Qed.
(** What is read of a file beside a payload. *)
Lemma ReadArtifact_spec d p qs file ks s : disk_ok d -> Forall clean_segment qs -> qs <> [] -> NormalizeLogicalPath p = Ok (path_of qs) ->
  artifact_at file ks -> view d !! path_of ((bs ++ qs) ++ ks) = Some (FileNode s) -> ReadResourceArtifact repo d p file = Ok s.
Proof.
  intros Hd Hq Hne Hp Ha Hn. unfold ReadResourceArtifact. assert (resource_path p = Ok (path_of qs)) as -> by (apply resource_path_Ok; split; [done|by intros ?%path_of_root]).
  cbn [mbind result_bind]. erewrite artifact_path_node by done. cbn [mbind result_bind]. destruct Ha as (Hk0 & Hk & _).
  assert (Forall clean_segment ((bs ++ qs) ++ ks)) as Hl by by rewrite !Forall_app.
  pose proof (reads_file d ((bs ++ qs) ++ ks) Hd Hl) as Ha. unfold tree_ReadFile in Ha. rewrite path_clean_path_of, is_dir_node in Ha by done.
  unfold node_at in Ha. destruct ((bs ++ qs) ++ ks) as [|u v] eqn:E; [by destruct (bs ++ qs), ks|]. rewrite Hn, bool_decide_false in Ha by done.
  destruct (ReadFile _ _); cbn in Ha; [by subst|done].
Qed.
(** Every file is where its name says, and no payload file is touched. *)
Definition artifact_names (artifacts : list ResourceArtifact) : Prop := Forall (fun a => exists ks, artifact_at (art_File a) ks) artifacts.
Lemma write_artifacts_effect qs target artifacts : Forall clean_segment qs -> artifact_names artifacts -> NoDup (art_File <$> artifacts) ->
  forall d d', disk_ok d -> write_artifacts repo (path_of qs) target artifacts d = (None, d') ->
  disk_ok d' /\ (forall a ks, a ∈ artifacts -> artifact_at (art_File a) ks -> view d' !! path_of ((bs ++ qs) ++ ks) = Some (FileNode (art_Content a))) /\
  forall k c, (forall a ks, a ∈ artifacts -> artifact_at (art_File a) ks -> k <> path_of ((bs ++ qs) ++ ks)) ->
    view d' !! k = Some (FileNode c) <-> view d !! k = Some (FileNode c).
Proof.
  intros Hq Hnames. induction Hnames as [|a artifacts (ks & Ha) Hnames IH]; intros Hnd d d' Hd; cbn [write_artifacts].
  { intros [= <-]. split_and!; [done|by intros a ks ?%not_elem_of_nil|done]. }
  rewrite fmap_cons in Hnd. apply NoDup_cons in Hnd as [Hni Hnd]. destruct (_ ≫= _) as [path|e] eqn:E; [|done].
  apply bind_Ok in E as ([] & _ & E). apply bind_Ok in E as (p & Hp & E). apply (artifact_path_Ok _ _ _ ks) in Hp; [|done|exact Ha]. subst p.
  destruct (_ == target); [done|]. injection E as <-. destruct (writeFileAtomically _ _ _ _ d) as [[e|] d1] eqn:Hw; [done|]. intros Hrest.
  assert (exists k s, ks = k ++ [s]) as (k & s & ->) by (destruct (clean_cases ks) as [->|?]; [by destruct Ha|done]).
  rewrite app_assoc in Hw. assert (Forall clean_segment ((((bs ++ qs) ++ k) ++ [s]))) as Hl.
  { destruct Ha as (_ & Hk & _). rewrite <-app_assoc. rewrite !Forall_app in *. naive_solver. }
  destruct (write_effect _ _ _ _ _ _ _ Hd Hl Hw) as (Hd1 & Hnew & Hbut). rewrite <-app_assoc in Hnew, Hbut.
  destruct (IH Hnd d1 d' Hd1 Hrest) as (Hd' & Hin & Hout).
  assert (forall b ks', b ∈ artifacts -> artifact_at (art_File b) ks' -> path_of ((bs ++ qs) ++ k ++ [s]) <> path_of ((bs ++ qs) ++ ks')) as Hdiff.
  { intros b ks' Hb (_ & Hk' & Hf' & _) E. apply path_of_inj in E; [|by rewrite <-app_assoc in Hl|by rewrite !Forall_app in *; naive_solver].
    apply app_inv_head in E. subst ks'. apply Hni. apply list_elem_of_fmap. exists b. split; [|done]. destruct Ha as (_ & _ & -> & _). by rewrite Hf'. }
  split_and!; [done| |].
  - intros b ks' [->|Hb]%elem_of_cons Hb'; [|by apply Hin]. assert (ks' = k ++ [s]) as ->.
    { destruct Ha as (Hn1 & Hk1 & Hf1 & _), Hb' as (Hn2 & Hk2 & Hf2 & _). apply (path_of_inj _ _ Hk2 Hk1). unfold path_of. congruence. }
    apply Hout; [|done]. exact Hdiff.
  - intros k' c Hk'. trans (view d1 !! k' = Some (FileNode c)); [|apply Hbut, (Hk' a); [by left|done]].
    apply Hout. intros b ks' Hb Hb'. apply (Hk' b); [by right|done].
Qed.
End artifacts.

(** ** A repository of users *)
Section sample.
#[local] Existing Instances latin1_tables line_codecs.
Definition users_repo : LocalResourceRepository := {| baseDir := path_of ["srv"; "repo"]; metadataBaseDir := "" |}.
Definition empty_repo : tree := <[path_of ["srv"; "repo"] := DirNode]> (<[path_of ["srv"] := DirNode]> ∅).
Lemma sample_clean l : forallb (fun s => bool_decide (s <> "") && bool_decide (s <> ".") && bool_decide (s <> "..")
  && negb (contains_byte (fun c => is_slash c || (c == "\"%char)) s)) l = true -> Forall clean_segment l.
Proof.
  induction l as [|s l IH]; [done|]. cbn. rewrite !andb_true_iff, negb_true_iff, !bool_decide_eq_true. intros ((((H1&H2)&H3)&H4)&Hl). constructor; [|by apply IH].
  split_and!; [done..| |]; revert H4; clear; (induction s as [|c s IHs]; [done|]); cbn; rewrite !orb_false_iff; naive_solver.
Qed.
Lemma empty_repo_wf : wf_tree empty_repo.
Proof.
  apply (wf_insert _ ["srv"] "repo"); [|by apply sample_clean|reflexivity|by left].
  apply (wf_insert _ [] "srv"); [|by apply sample_clean|done|by left]. apply map_Forall_empty.
Qed.
Definition text_content (s : string) : Content := {| content_Value := VString s; content_Descriptor := Build_PayloadDescriptor PayloadTypeText "" "" |}.
Definition one_user : tree := (Save users_repo "/users/a" (text_content "A") empty_repo).2.
Definition two_users : tree := (Save users_repo "/users/b" (text_content "B") one_user).2.
Lemma sample_extension p c d files : IsPayloadDescriptorExplicit (content_Descriptor c) = true -> Extension (NormalizePayloadDescriptor (content_Descriptor c)) = ".txt" ->
  discoverPayloadFiles users_repo d p = Ok files -> plain_extension (Extension (desiredPayloadDescriptor c files)).
Proof.
  intros He Hx _. unfold desiredPayloadDescriptor. rewrite He, Hx. split_and!; [done..|]. apply Forall_singleton. by apply sample_clean.
Qed.
Lemma save_updates_one_resource_witness :
  resource_at ["srv"; "repo"] "" one_user "/users/a" = Some {| content_Value := VString "A"; content_Descriptor := Build_PayloadDescriptor "text" "text/plain" ".txt" |}
  /\ resource_at ["srv"; "repo"] "" one_user "/users/b" = resource_at ["srv"; "repo"] "" empty_repo "/users/b".
Proof.
  assert (Save users_repo "/users/a" (text_content "A") empty_repo = (None, one_user)) as Hs by (vm_compute; reflexivity).
  destruct (save_updates_one_resource ["srv"; "repo"] "" ltac:(by apply sample_clean) empty_repo one_user "/users/a" ["users"; "a"] (text_content "A")
    empty_repo_wf ltac:(by apply sample_clean) ltac:(vm_compute; reflexivity)
    (fun files => sample_extension _ (text_content "A") empty_repo files eq_refl eq_refl) Hs) as (_ & Hother & files & v & _ & Hv & Hr).
  split.
  - vm_compute. reflexivity.
  - apply (Hother "/users/b" "/users/b"); [vm_compute; reflexivity|discriminate].
Defined.
Lemma sample_save d d' p qs s : wf_tree d -> forallb (fun s => bool_decide (s <> "") && bool_decide (s <> ".") && bool_decide (s <> "..")
    && negb (contains_byte (fun c => is_slash c || (c == "\"%char)) s)) qs = true -> NormalizeLogicalPath p = Ok (path_of qs) ->
  Save users_repo p (text_content s) d = (None, d') -> wf_tree d'.
Proof.
  intros Hd Hq Hp Hs. destruct (Save_effect ["srv"; "repo"] "" ltac:(by apply sample_clean) d d' p qs (text_content s) Hd (sample_clean _ Hq) Hp
    (fun files => sample_extension _ (text_content s) d files eq_refl eq_refl) Hs) as (_ & Hd' & _). exact Hd'.
Qed.
Lemma one_user_wf : wf_tree one_user.
Proof.
  apply (sample_save empty_repo one_user "/users/a" ["users"; "a"] "A"); [exact empty_repo_wf|reflexivity|vm_compute; reflexivity|vm_cast_no_check (eq_refl (None (A := error), one_user))].
Qed.
Lemma two_users_wf : wf_tree two_users.
Proof.
  apply (sample_save one_user two_users "/users/b" ["users"; "b"] "B"); [exact one_user_wf|reflexivity|vm_compute; reflexivity|vm_cast_no_check (eq_refl (None (A := error), two_users))].
Qed.
Lemma delete_removes_one_resource_witness : exists d', Delete users_repo "/users/a" false two_users = (None, d') /\
  resource_at ["srv"; "repo"] "" d' "/users/a" = None /\
  resource_at ["srv"; "repo"] "" d' "/users/b" = resource_at ["srv"; "repo"] "" two_users "/users/b".
Proof.
  exists (Delete users_repo "/users/a" false two_users).2. assert (Delete users_repo "/users/a" false two_users = (None, (Delete users_repo "/users/a" false two_users).2)) as Hs by (vm_compute; reflexivity).
  split; [exact Hs|].
  destruct (delete_removes_one_resource ["srv"; "repo"] "" ltac:(by apply sample_clean) two_users _ "/users/a" ["users"; "a"]
    {| content_Value := VString "A"; content_Descriptor := Build_PayloadDescriptor "text" "text/plain" ".txt" |} false
    two_users_wf ltac:(by apply sample_clean) ltac:(vm_compute; reflexivity) ltac:(vm_compute; reflexivity) Hs) as (_ & Hgone & Hother).
  split; [exact Hgone|]. apply (Hother "/users/b" "/users/b"); [vm_compute; reflexivity|discriminate].
Defined.
Lemma no_users_payload : no_payload two_users ["srv"; "repo"; "users"].
Proof.
  assert (discoverPayloadFiles users_repo two_users (path_of ["users"]) = Ok {| rp_Resource := None; rp_Defaults := None |}) as E by (vm_compute; reflexivity).
  by apply (discover_spec ["srv"; "repo"] "" ltac:(by apply sample_clean) two_users ["users"] _ two_users_wf ltac:(by apply sample_clean)) in E as [_ Hf].
Qed.
Lemma delete_empties_collection_witness : exists d', Delete users_repo "/users" false two_users = (None, d') /\
  resource_at ["srv"; "repo"] "" d' "/users/a" = None /\ resource_at ["srv"; "repo"] "" d' "/users/b" = None.
Proof.
  assert ((Delete users_repo "/users" false two_users).1 = None) as Hs by (vm_compute; reflexivity).
  destruct (Delete users_repo "/users" false two_users) as [e d'] eqn:Hd. cbn [fst] in Hs. subst e. exists d'. split; [reflexivity|].
  destruct (delete_empties_collection ["srv"; "repo"] "" ltac:(by apply sample_clean) two_users d' "/users" ["users"]
    two_users_wf ltac:(by apply sample_clean) ltac:(vm_compute; reflexivity) no_users_payload Hd) as (_ & Hgone & _).
  clear Hd. split.
  - apply (Hgone "a" "/users/a"); [by apply (Forall_inv (P := clean_segment) (l := [])), sample_clean|done|vm_compute; reflexivity].
  - apply (Hgone "b" "/users/b"); [by apply (Forall_inv (P := clean_segment) (l := [])), sample_clean|done|vm_compute; reflexivity].
Defined.
Lemma list_is_children_witness : exists items, FsStore.List users_repo two_users "/users" false = Ok items /\
  listed_resource ["users"] "a" (descriptor_of "resource.txt") ∈ items /\ NoDup (LogicalPath <$> items).
Proof.
  assert (FsStore.List users_repo two_users "/users" false =
    Ok [listed_resource ["users"] "a" (descriptor_of "resource.txt"); listed_resource ["users"] "b" (descriptor_of "resource.txt")]) as Hl by (vm_compute; reflexivity).
  eexists. split; [exact Hl|].
  destruct (list_is_children ["srv"; "repo"] "" ltac:(by apply sample_clean) two_users "/users" ["users"] _
    two_users_wf ltac:(by apply sample_clean) ltac:(vm_compute; reflexivity) no_users_payload Hl) as (_ & _ & Hn).
  split; [by left|exact Hn].
Defined.
(** A recursive deletion removes the first resource it meets with its directory; the walk
    then cannot read that directory, and ends, without an error, before the others. *)
Example recursive_delete_stops : (Delete users_repo "/users" true two_users).1 = None /\
  resource_at ["srv"; "repo"] "" (Delete users_repo "/users" true two_users).2 "/users/a" = None /\
  resource_at ["srv"; "repo"] "" (Delete users_repo "/users" true two_users).2 "/users/b" = resource_at ["srv"; "repo"] "" two_users "/users/b".
Proof. vm_compute. done. Qed.
(** The name of a file beside a payload is checked before it is cleaned: one that is the name
    of a payload file once cleaned is written, and the resource has two payloads. *)
Example reserved_name_accepted (saved := SaveResourceWithArtifacts users_repo "/users/a" (text_content "A")
    [{| art_File := "resource.yaml/."; art_Content := "B" |}] two_users) :
  saved.1 = None /\ Get users_repo saved.2 "/users/a" =
  Err (Conflict ("resource " +:+ quote "/users/a" +:+ " has multiple payload files: resource.txt, resource.yaml") None).
Proof. vm_compute. done. Qed.
(** An extension with a slash writes the payload of another resource. *)
Example extension_leaves_directory (saved := Save users_repo "/users/a"
    {| content_Value := VString "X"; content_Descriptor := Build_PayloadDescriptor "text" "text/plain" "/../../b/resource.txt" |} two_users) :
  saved.1 = None /\ (fun c => content_Value c) <$> resource_at ["srv"; "repo"] "" saved.2 "/users/b" = Some (VString "X").
Proof. vm_compute. done. Qed.
End sample.
