(* ===== verification/FsMetadata.v ===== *)
(** * Metadata kept in files

    Models the metadata service of [src/internal/providers/metadata/fs]: documents named
    [metadata.yaml] or [metadata.json] in a tree of selector directories, where ["_"] and
    glob names are wildcards; reading, writing and removing a document, the resolution of the
    metadata of a path from every document that selects it
    ([fs_metadata_service_resolve.go]), and the artifacts of defaults. Its renderings and the
    layered service are in [FsRender.v]. The debug log is left out. *)
From S2P Require Import Prelude GoText GoTextFacts GoGlob Faults Paths GoDisk PathDescriptor Value Descriptor Codec Overlay DefaultsSpec Metadata MetaWire TemplateSyntax IdentityTemplate OperationSpec MetaValidate.

(** The decoding of a document into its wire form and its encoding, by [encoding/json] and
    the YAML library. *)
Class WireCodec := {
  json_decode_wire : string -> result error resourceMetadataWire;
  json_encode_wire : resourceMetadataWire -> result error string;
  yaml_decode_wire : string -> result error resourceMetadataWire;
  yaml_encode_wire : resourceMetadataWire -> result error string;
}.

Record metadataFileCandidate := { mc_path : string; yaml : bool }.
Definition metadataFilePreferenceOrder : list (string * bool) := [(".yaml", true); (".json", false)].
Record selectorMatch := { selector : string; matchedCollection : string }.
Record resolvedPathTarget := { rt_path : string; collection : bool }.
(** The metadata, and the matched collection path of the descendant context. *)
Record resolvedMetadataResult := { metadata : ResourceMetadata; descendant : option string }.
Definition empty_result : resolvedMetadataResult := {| metadata := empty_metadata; descendant := None |}.

Definition splitPathSegments (v : string) : list string :=
  let trimmed := trim_bytes is_slash (trim_space v) in
  if trimmed == "" then [] else split_on slash trimmed.
Definition joinSelector (parent child : string) : string :=
  if parent == "/" then "/" +:+ child else parent +:+ "/" +:+ child.
Definition joinConcreteCollectionPath (parent segment : string) : string :=
  if parent == "/" then "/" +:+ segment else parent +:+ "/" +:+ segment.
Definition collectionPathForLogicalPath (logicalPath : string) : string :=
  if logicalPath == "/" then "/"
  else
    let collectionPath := path_dir logicalPath in
    if (collectionPath == ".") || (collectionPath == "") then "/" else collectionPath.
Definition selectorDepth (v : string) : nat := length (splitPathSegments v).
Definition preferDescendantContext (current next : option string) : option string :=
  match next, current with
  | None, _ => current
  | Some _, None => next
  | Some n, Some c => if (selectorDepth c <=? selectorDepth n)%nat then next else current
  end.
Definition isDescendantCollectionPath (ancestor candidate : string) : bool :=
  if ancestor == "/" then negb (candidate == "/") else has_prefix candidate (ancestor +:+ "/").
Definition collectionMetadataAppliesToTarget (target : resolvedPathTarget) (matched : string) (spec : option SelectorSpec) : bool :=
  if matched == "/" then true
  else if rt_path target == matched then true
  else
    let targetCollection := if negb (collection target) then collectionPathForLogicalPath (rt_path target) else rt_path target in
    if targetCollection == matched then true
    else if negb (AllowsDescendants spec) then false
    else isDescendantCollectionPath matched targetCollection.
Definition selectorMatchKey (v : selectorMatch) : string := selector v +:+ String "000" (matchedCollection v).
Definition sortedSelectorMatches (values : gmap string selectorMatch) : list selectorMatch :=
  omap (values !!.) (sorted_keys values).
Definition sortedSelectorKeys (values : gset string) : list string := sort_strings (elements values).
Definition metadataPathForSelector (sel : string) (kind : metadataPathKind) : string :=
  if kind == metadataPathCollection then (if sel == "/" then "/_" else sel +:+ "/_") else sel.
Definition ensureTrailingNewline (data : string) : string :=
  match last_byte data with None | Some "010"%char => data | _ => data +:+ String "010" "" end.
Definition normalizeResolvePath (logicalPath : string) : result error resolvedPathTarget :=
  descriptor ← ParsePathDescriptor logicalPath;
  Ok {| rt_path := pd_Selector descriptor; collection := pd_Collection descriptor |}.
Definition parseMetadataPath (logicalPath : string) : result error (string * metadataPathKind) :=
  pathDescriptor ← ParsePathDescriptor logicalPath;
  let kind := if pd_Collection pathDescriptor then metadataPathCollection else metadataPathResource in
  if (kind == metadataPathResource) && (pd_Selector pathDescriptor == "/")
  then Err (Invalid "resource metadata path must not target root" None)
  else Ok (pd_Selector pathDescriptor, kind).

Section service.
Context `{UnicodeTables, TemplateEngine, WireCodec, TextCodecs} {D : Type} `{Disk D}.
Context (order : map_order) (baseDir : string).

(** ** Paths of files *)
Section paths.
Context (disk : D).

Definition confined (message targetPath : string) : result error string :=
  if negb (IsPathUnderRoot disk baseDir targetPath) then Err (Invalid message None) else Ok targetPath.
Definition escape_message := "metadata path escapes metadata base directory".
Definition metadataFilePathForExtension (sel : string) (kind : metadataPathKind) (extension : string) : result error string :=
  if trim_space baseDir == "" then Err (Invalid "metadata base directory must not be empty" None)
  else
    let relativeSelector := trim_prefix sel "/" in
    let fileName := "metadata" +:+ extension in
    targetPath ← (match kind with
                  | metadataPathCollection =>
                      Ok (if relativeSelector == "" then path_join [baseDir; "_"; fileName]
                          else path_join [baseDir; relativeSelector; "_"; fileName])
                  | metadataPathResource =>
                      if relativeSelector == "" then Err (Invalid "resource metadata path must not target root" None)
                      else Ok (path_join [baseDir; relativeSelector; fileName])
                  end);
    confined escape_message targetPath.
Definition metadataFileCandidates (sel : string) (kind : metadataPathKind) : result error (list metadataFileCandidate) :=
  sequence (map (fun '(extension, y) =>
    targetPath ← metadataFilePathForExtension sel kind extension; Ok {| mc_path := targetPath; yaml := y |}) metadataFilePreferenceOrder).
Definition metadataFilePath (sel : string) (kind : metadataPathKind) : result error string :=
  candidates ← metadataFileCandidates sel kind;
  Ok (match candidates with c :: _ => mc_path c | [] => "" end).
Definition selectorDirPath (sel : string) : result error string :=
  if trim_space baseDir == "" then Err (Invalid "metadata base directory must not be empty" None)
  else
    let relativeSelector := trim_prefix sel "/" in
    confined escape_message (if relativeSelector == "" then baseDir else path_join [baseDir; relativeSelector]).
Definition metadataSelectorDirPath (sel : string) (kind : metadataPathKind) : result error string :=
  targetPath ← (match kind with
                | metadataPathCollection =>
                    Ok (if sel == "/" then path_join [baseDir; "_"] else path_join [baseDir; trim_prefix sel "/"; "_"])
                | metadataPathResource =>
                    if sel == "/" then Err (Invalid "resource metadata path must not target root" None)
                    else Ok (path_join [baseDir; trim_prefix sel "/"])
                end);
  confined escape_message targetPath.

(** ** Reading a document *)
Definition decodeMetadata (data : string) (y : bool) (kind : metadataPathKind) : result error ResourceMetadata :=
  decoded ← (if y then map_err (fun err => Invalid "invalid yaml metadata" (Some err)) (resourceMetadataFromWire order <$> yaml_decode_wire data)
             else map_err (fun err => Invalid "invalid json metadata" (Some err)) (resourceMetadataFromWire order <$> json_decode_wire data));
  validateResourceMetadata order kind decoded;; Ok decoded.
(** [None] when the file does not exist; any other failure to read it is the error. *)
Definition readMetadataFile (targetPath : string) (y : bool) (kind : metadataPathKind) : result error (option ResourceMetadata) :=
  match ReadFile disk targetPath with
  | Err (ErrNotExist _) => Ok None
  | Err err => Err (disk_cause err)
  | Ok data => item ← decodeMetadata data y kind; Ok (Some item)
  end.
Fixpoint read_candidates (candidates : list metadataFileCandidate) (kind : metadataPathKind) : result error (option ResourceMetadata) :=
  match candidates with
  | [] => Ok None
  | candidate :: candidates =>
      item ← readMetadataFile (mc_path candidate) (yaml candidate) kind;
      match item with None => read_candidates candidates kind | Some _ => Ok item end
  end.
Definition tryReadMetadata (sel : string) (kind : metadataPathKind) : result error (option ResourceMetadata) :=
  candidates ← metadataFileCandidates sel kind; read_candidates candidates kind.
Definition Get (logicalPath : string) : result error ResourceMetadata :=
  '(sel, kind) ← parseMetadataPath logicalPath;
  _ ← metadataFilePath sel kind;
  item ← tryReadMetadata sel kind;
  match item with
  | None => Err (NotFound ("metadata " +:+ quote logicalPath +:+ " not found") None)
  | Some item => Ok item
  end.

(** ** Artifacts of defaults *)
Definition defaultsArtifactPath (logicalPath file : string) : result error (string * PayloadDescriptor) :=
  '(sel, kind) ← parseMetadataPath logicalPath;
  dirPath ← metadataSelectorDirPath sel kind;
  let trimmedFile := trim_space file in
  guard_err ((trimmedFile == "") || negb (path_base trimmedFile == trimmedFile))
    (Invalid "resource defaults artifact file name is invalid" None);;
  let includeRef := DefaultsIncludePlaceholder trimmedFile in
  (if has_prefix trimmedFile "defaults-" then
     let profile := trim_prefix (trim_suffix trimmedFile (path_ext trimmedFile)) "defaults-" in
     ValidateDefaultsProfileName profile;;
     ValidateDefaultsSpec (Some {| Mode := ""; UseProfiles := None; DefaultsValue := VNil; Profiles := Some {[ profile := VString includeRef ]} |})
   else ValidateDefaultsSpec (Some {| Mode := ""; UseProfiles := None; DefaultsValue := VString includeRef; Profiles := None |}));;
  match PayloadDescriptorForFileName trimmedFile with
  | Some descriptor =>
      if negb (DefaultsSupportsFileBackedDescriptor descriptor)
      then Err (Invalid ("resource defaults artifact " +:+ quote trimmedFile +:+ " is not supported") None)
      else
        targetPath ← confined "defaults artifact path escapes metadata base directory" (path_join [dirPath; trimmedFile]);
        Ok (targetPath, descriptor)
  | None => Err (Invalid ("resource defaults artifact " +:+ quote trimmedFile +:+ " is not supported") None)
  end.
Definition ReadDefaultsArtifact (logicalPath file : string) : result error Content :=
  '(targetPath, descriptor) ← defaultsArtifactPath logicalPath file;
  match ReadFile disk targetPath with
  | Err (ErrNotExist _) => Err (NotFound ("resource defaults artifact " +:+ quote file +:+ " not found") None)
  | Err err => Err (Internal "failed to read resource defaults artifact" (Some (disk_cause err)))
  | Ok data =>
      decoded ← DecodeContent data descriptor;
      ValidateDefaultsSidecarValue (content_Value decoded);; Ok decoded
  end.
Definition resolveDefaultsEntry (sel : string) (kind : metadataPathKind) (field : string) (v : value) : result error value :=
  match v with
  | VNil => Ok VNil
  | VString includeFile =>
      match ParseDefaultsIncludeReference includeFile with
      | None => Err (Invalid (field +:+ " must be an exact {{include ...}} reference") None)
      | Some resolvedFile =>
          content ← map_err (fun err => Invalid (field +:+ " failed to resolve include " +:+ quote includeFile) (Some err))
                      (ReadDefaultsArtifact (metadataPathForSelector sel kind) resolvedFile);
          Ok (content_Value content)
      end
  | _ =>
      normalized ← Normalize v;
      match normalized with
      | VMap _ => Ok normalized
      | _ => Err (Invalid (field +:+ " must resolve to an object") None)
      end
  end.
Definition with_defaults (m : ResourceMetadata) (d : option DefaultsSpec) : ResourceMetadata :=
  {| Selector := Selector m; ID := ID m; Alias := Alias m; RequiredAttributes := RequiredAttributes m;
     RemoteCollectionPath := RemoteCollectionPath m; Format := Format m; Defaults := d; Secret := Secret m;
     SecretAttributes := SecretAttributes m; ExternalizedAttributes := ExternalizedAttributes m; Operations := Operations m;
     Transforms := Transforms m |}.
Definition resolveMetadataDefaults (sel : string) (kind : metadataPathKind) (item : ResourceMetadata) : result error ResourceMetadata :=
  match Defaults item with
  | None => Ok item
  | Some d =>
      v ← resolveDefaultsEntry sel kind "resource.defaults.value" (DefaultsValue d);
      profiles ← (match Profiles d with
                  | None => Ok None
                  | Some p =>
                      resolved ← map_sequence (map_imap (fun key entry =>
                        Some (resolveDefaultsEntry sel kind ("resource.defaults.profiles." +:+ key) entry)) p);
                      Ok (Some resolved)
                  end);
      Ok (with_defaults (CloneResourceMetadata item)
            (Some {| Mode := Mode d; UseProfiles := UseProfiles d; DefaultsValue := v; Profiles := profiles |}))
  end.

(** ** Resolution *)
Definition tree_error (message : string) (err : disk_error) : error := Internal message (Some (disk_cause err)).
(** The children of a selector that match a segment: wildcards and literals. *)
Fixpoint classify_children (parentSelector segment : string) (entries : list (string * bool)) : result error (list string * list string) :=
  match entries with
  | [] => Ok ([], [])
  | (childName, isDir) :: entries =>
      if negb isDir then classify_children parentSelector segment entries
      else
        let childSelector := joinSelector parentSelector childName in
        if childName == "_" then
          '(wildcards, literals) ← classify_children parentSelector segment entries; Ok (childSelector :: wildcards, literals)
        else if hasWildcardPattern childName then
          match path_match childName segment with
          | None => Err (Invalid ("invalid wildcard selector " +:+ quote childSelector) (Some bad_pattern))
          | Some matched =>
              '(wildcards, literals) ← classify_children parentSelector segment entries;
              Ok (if matched then childSelector :: wildcards else wildcards, literals)
          end
        else
          '(wildcards, literals) ← classify_children parentSelector segment entries;
          Ok (wildcards, if childName == segment then childSelector :: literals else literals)
  end.
(** [None] when the directory does not exist. *)
Definition selector_entries (message sel : string) : result error (option (list (string * bool))) :=
  dir ← selectorDirPath sel;
  match ReadDir disk dir with
  | Err (ErrNotExist _) => Ok None
  | Err err => Err (tree_error message err)
  | Ok entries => Ok (Some entries)
  end.
Definition matchingCollectionCandidates (parentSelector segment : string) : result error (list string * list string) :=
  entries ← selector_entries "failed to list metadata selectors" parentSelector;
  match entries with
  | None => Ok ([], [])
  | Some entries => classify_children parentSelector segment entries
  end.
(** The closure [apply]: one document merged over the result. *)
Definition apply_match (target : resolvedPathTarget) (kind : metadataPathKind) (m : selectorMatch) (result : resolvedMetadataResult)
  : Prelude.result error resolvedMetadataResult :=
  _ ← metadataFilePath (selector m) kind;
  item ← tryReadMetadata (selector m) kind;
  match item with
  | None => Ok result
  | Some item =>
      resolvedItem ← resolveMetadataDefaults (selector m) kind item;
      if (kind == metadataPathCollection) && negb (collectionMetadataAppliesToTarget target (matchedCollection m) (Selector resolvedItem))
      then Ok result
      else
        Ok {| metadata := MergeResourceMetadata (metadata result) resolvedItem;
              descendant := if (kind == metadataPathCollection) && AllowsDescendants (Selector resolvedItem)
                            then preferDescendantContext (descendant result) (Some (matchedCollection m))
                            else descendant result |}
  end.
Fixpoint apply_matches (target : resolvedPathTarget) (ms : list selectorMatch) (result : resolvedMetadataResult)
  : Prelude.result error resolvedMetadataResult :=
  match ms with
  | [] => Ok result
  | m :: ms => result ← apply_match target metadataPathCollection m result; apply_matches target ms result
  end.
(** The candidates of one segment over the parents: wildcards, literals, and both. *)
Definition add_match (segment : string) (parent : selectorMatch) (acc : gmap string selectorMatch) (sel : string) : gmap string selectorMatch :=
  let m := {| selector := sel; matchedCollection := joinConcreteCollectionPath (matchedCollection parent) segment |} in
  <[selectorMatchKey m := m]> acc.
Fixpoint level_candidates (segment : string) (parents : list selectorMatch)
  (wild lit next : gmap string selectorMatch)
  : Prelude.result error (gmap string selectorMatch * gmap string selectorMatch * gmap string selectorMatch) :=
  match parents with
  | [] => Ok (wild, lit, next)
  | parent :: parents =>
      '(wildcards, literals) ← matchingCollectionCandidates (selector parent) segment;
      level_candidates segment parents
        (foldl (add_match segment parent) wild wildcards)
        (foldl (add_match segment parent) lit literals)
        (foldl (add_match segment parent) (foldl (add_match segment parent) next wildcards) literals)
  end.
Fixpoint resolve_levels (target : resolvedPathTarget) (segments : list string) (parents : list selectorMatch) (result : resolvedMetadataResult)
  : Prelude.result error resolvedMetadataResult :=
  match segments with
  | [] => Ok result
  | segment :: segments =>
      '(wild, lit, next) ← level_candidates segment parents ∅ ∅ ∅;
      result ← apply_matches target (sortedSelectorMatches wild) result;
      result ← apply_matches target (sortedSelectorMatches lit) result;
      match sortedSelectorMatches next with
      | [] => Ok result
      | parents => resolve_levels target segments parents result
      end
  end.
Definition root_match : selectorMatch := {| selector := "/"; matchedCollection := "/" |}.
Definition resolveForPathWithContext (logicalPath : string) : Prelude.result error resolvedMetadataResult :=
  target ← normalizeResolvePath logicalPath;
  result ← apply_match target metadataPathCollection root_match empty_result;
  result ← resolve_levels target (splitPathSegments (rt_path target)) [root_match] result;
  result ← (if negb (collection target) && negb (rt_path target == "/") then
              apply_match target metadataPathResource
                {| selector := rt_path target; matchedCollection := collectionPathForLogicalPath (rt_path target) |} result
            else Ok result);
  _ ← ResolveEffectiveDefaults (Defaults (metadata result));
  Ok result.
Definition ResolveForPath (logicalPath : string) : Prelude.result error ResourceMetadata :=
  result ← resolveForPathWithContext logicalPath; Ok (metadata result).

(** ** Children of a path *)
Fixpoint parents_of_segment (segment : string) (parents : list string) (next : gset string) : Prelude.result error (gset string) :=
  match parents with
  | [] => Ok next
  | parent :: parents =>
      '(wildcards, literals) ← matchingCollectionCandidates parent segment;
      parents_of_segment segment parents (next ∪ list_to_set wildcards ∪ list_to_set literals)
  end.
Fixpoint parent_selectors (segments : list string) (parents : list string) : Prelude.result error (list string) :=
  match segments with
  | [] => Ok parents
  | segment :: segments =>
      next ← parents_of_segment segment parents ∅;
      match sortedSelectorKeys next with
      | [] => Ok []
      | parents => parent_selectors segments parents
      end
  end.
Definition matchingParentSelectors (logicalPath : string) : Prelude.result error (list string) :=
  parent_selectors (splitPathSegments logicalPath) ["/"].
(** [walkChildSelectors]: the visitor turns a state into the next one, and into the flag
    that stops the walk. *)
Fixpoint visit_children {St} (visitor : string -> string -> St -> St * bool) (parent : string) (entries : list (string * bool)) (st : St) : St * bool :=
  match entries with
  | [] => (st, false)
  | (name, isDir) :: entries =>
      let childName := trim_space name in
      if negb isDir || (childName == "") then visit_children visitor parent entries st
      else
        let '(st, stop) := visitor childName parent st in
        if stop then (st, true) else visit_children visitor parent entries st
  end.
Fixpoint visit_parents {St} (visitor : string -> string -> St -> St * bool) (parents : list string) (st : St) : Prelude.result error St :=
  match parents with
  | [] => Ok st
  | parent :: parents =>
      entries ← selector_entries "failed to list metadata selector children" parent;
      match entries with
      | None => visit_parents visitor parents st
      | Some entries =>
          let '(st, stop) := visit_children visitor parent entries st in
          if stop then Ok st else visit_parents visitor parents st
      end
  end.
Definition walkChildSelectors {St} (logicalPath : string) (visitor : string -> string -> St -> St * bool) (st : St) : Prelude.result error St :=
  target ← normalizeResolvePath logicalPath;
  parentSelectors ← matchingParentSelectors (rt_path target);
  visit_parents visitor parentSelectors st.
Definition ResolveCollectionChildren (logicalPath : string) : Prelude.result error (list string) :=
  children ← walkChildSelectors logicalPath (fun childName _ (children : gset string) =>
    (if is_selector_segment childName then children else {[ childName ]} ∪ children, false)) ∅;
  Ok (sortedSelectorKeys children).
Definition HasCollectionWildcardChild (logicalPath : string) : Prelude.result error bool :=
  walkChildSelectors logicalPath (fun childName _ found => if is_selector_segment childName then (true, true) else (found, false)) false.
End paths.

(** ** Writing a document *)
Definition encodeMetadata (m : ResourceMetadata) (y : bool) (kind : metadataPathKind) : result error string :=
  validateResourceMetadata order kind m;;
  encoded ← (if y then map_err (fun err => Internal "failed to encode yaml metadata" (Some err)) (yaml_encode_wire (resourceMetadataToWire m))
             else map_err (fun err => Internal "failed to encode json metadata" (Some err)) (json_encode_wire (resourceMetadataToWire m)));
  Ok (ensureTrailingNewline encoded).
Definition metadataPathUsesYAML (targetPath : string) : result error bool :=
  let extension := to_lower (trim_space (path_ext targetPath)) in
  if extension == ".yaml" then Ok true else if extension == ".json" then Ok false
  else Err (Internal "unsupported metadata file extension" None).
(** The file is written beside its place and renamed over it, then the file of the other
    extension is removed. *)
Definition replace_file (noun targetPath content : string) (after : D -> D) (pattern : string) (failed : string) (disk : D) : option error * D :=
  disk_step ("failed to create " +:+ noun +:+ " directory") (fun d => d) (MkdirAll (path_dir targetPath)) (fun disk =>
    match CreateTemp (path_dir targetPath) pattern disk with
    | (Err err, disk) => (Some (Internal ("failed to create temporary " +:+ failed) (Some (disk_cause err))), disk)
    | (Ok tempPath, disk) =>
        let removeTemp := fun d => (Remove tempPath d).2 in
        disk_step ("failed to write temporary " +:+ failed) (fun d => removeTemp (CloseOpen tempPath d).2) (WriteOpen tempPath content) (fun disk =>
          disk_step ("failed to close temporary " +:+ failed) removeTemp (CloseOpen tempPath) (fun disk =>
            disk_step ("failed to replace " +:+ failed) removeTemp (Rename tempPath targetPath) (fun disk => (None, after disk)) disk) disk) disk
    end) disk.
Definition remove_sibling (targetPath : string) (disk : D) : D :=
  if has_suffix targetPath ".yaml" then (Remove (trim_suffix targetPath ".yaml" +:+ ".json") disk).2
  else if has_suffix targetPath ".json" then (Remove (trim_suffix targetPath ".json" +:+ ".yaml") disk).2
  else disk.
Definition writeMetadataFile (targetPath : string) (kind : metadataPathKind) (m : ResourceMetadata) (disk : D) : option error * D :=
  match (y ← metadataPathUsesYAML targetPath; encodeMetadata m y kind) with
  | Err err => (Some err, disk)
  | Ok encoded => replace_file "metadata" targetPath encoded (remove_sibling targetPath) ".declarest-meta-*" "metadata file" disk
  end.
Definition Set_ (logicalPath : string) (m : ResourceMetadata) (disk : D) : option error * D :=
  match ('(sel, kind) ← parseMetadataPath logicalPath;
         validateResourceMetadata order kind m;;
         targetPath ← metadataFilePath disk sel kind;
         Ok (targetPath, kind)) with
  | Err err => (Some err, disk)
  | Ok (targetPath, kind) => writeMetadataFile targetPath kind m disk
  end.
Fixpoint remove_candidates (candidates : list metadataFileCandidate) (removedAny : bool) (disk : D) : result error bool * D :=
  match candidates with
  | [] => (Ok removedAny, disk)
  | candidate :: candidates =>
      match Remove (mc_path candidate) disk with
      | (None, disk) => remove_candidates candidates true disk
      | (Some (ErrNotExist _), disk) => remove_candidates candidates removedAny disk
      | (Some err, disk) => (Err (Internal "failed to remove metadata file" (Some (disk_cause err))), disk)
      end
  end.
Definition Unset (logicalPath : string) (disk : D) : option error * D :=
  match ('(sel, kind) ← parseMetadataPath logicalPath;
         targetPath ← metadataFilePath disk sel kind;
         candidates ← metadataFileCandidates disk sel kind;
         Ok (targetPath, candidates)) with
  | Err err => (Some err, disk)
  | Ok (targetPath, candidates) =>
      match remove_candidates candidates false disk with
      | (Err err, disk) => (Some err, disk)
      | (Ok false, disk) => (None, disk)
      | (Ok true, disk) => (None, (CleanupEmptyParents (path_dir targetPath) baseDir disk).2)
      end
  end.
Definition remove_other_artifacts (targetPath : string) (disk : D) : D :=
  let baseName := trim_suffix (path_base targetPath) (path_ext targetPath) in
  foldl (fun disk extension =>
    let candidate := path_join [path_dir targetPath; baseName +:+ extension] in
    if candidate == targetPath then disk else (Remove candidate disk).2) disk SupportedDefaultsArtifactExtensions.
Definition WriteDefaultsArtifact (logicalPath file : string) (content : Content) (disk : D) : option error * D :=
  match ('(targetPath, descriptor) ← defaultsArtifactPath disk logicalPath file;
         normalizedValue ← Normalize (content_Value content);
         ValidateDefaultsSidecarValue normalizedValue;;
         encoded ← map_err (fun err => Internal "failed to encode resource defaults artifact" (Some err))
                     (EncodeContentPretty {| content_Value := normalizedValue; content_Descriptor := descriptor |});
         Ok (targetPath, encoded)) with
  | Err err => (Some err, disk)
  | Ok (targetPath, encoded) =>
      replace_file "defaults artifact" targetPath encoded (remove_other_artifacts targetPath) ".declarest-defaults-*" "defaults artifact" disk
  end.
Definition DeleteDefaultsArtifact (logicalPath file : string) (disk : D) : option error * D :=
  match defaultsArtifactPath disk logicalPath file with
  | Err err => (Some err, disk)
  | Ok (targetPath, _) =>
      match Remove targetPath disk with
      | (Some (ErrOther _ as err), disk) | (Some (ErrNotEmpty _ as err), disk) =>
          (Some (Internal "failed to delete resource defaults artifact" (Some (disk_cause err))), disk)
      | (_, disk) => (None, (CleanupEmptyParents (path_dir targetPath) baseDir disk).2)
      end
  end.
End service.

(** ** Which documents make the metadata of a path *)
Lemma elem_of_sortedSelectorMatches values m : m ∈ sortedSelectorMatches values <-> exists k, values !! k = Some m.
Proof.
  unfold sortedSelectorMatches. rewrite list_elem_of_omap. split; [naive_solver|].
  intros [k Hk]. exists k. split; [by apply elem_of_sorted_keys|done].
Qed.
(** Maps from keys to the matches of one collection. *)
Definition keyed (mc : string) (values : gmap string selectorMatch) : Prop :=
  map_Forall (fun k m => k = selectorMatchKey m /\ matchedCollection m = mc) values.
Lemma selectorMatchKey_inj m m' : matchedCollection m = matchedCollection m' -> selectorMatchKey m = selectorMatchKey m' -> m = m'.
Proof.
  destruct m as [s c], m' as [s' c']. unfold selectorMatchKey. cbn. intros <- E. by rewrite (str_app_inv_tail _ _ _ E).
Qed.
Definition key_le (m m' : selectorMatch) : Prop := String.le (selectorMatchKey m) (selectorMatchKey m').
Lemma sorted_matches_sorted mc values : keyed mc values -> StronglySorted key_le (sortedSelectorMatches values).
Proof.
  intros Hk. unfold sortedSelectorMatches. pose proof (sorted_keys_sorted values) as Hs.
  induction Hs as [|k ks Hs IH Hf]; [constructor|]. cbn. destruct (values !! k) as [m|] eqn:E; [|done]. constructor; [done|].
  apply Forall_forall. intros m' (k' & Hin & E')%list_elem_of_omap. unfold key_le.
  destruct (Hk _ _ E) as [<- _]. destruct (Hk _ _ E') as [<- _]. by apply (Forall_forall _ ks).
Qed.
Lemma sorted_matches_NoDup mc values : keyed mc values -> NoDup (sortedSelectorMatches values).
Proof.
  intros Hk. unfold sortedSelectorMatches. pose proof (sorted_keys_NoDup values) as Hn.
  induction Hn as [|k ks Hin Hn IH]; [constructor|]. cbn. destruct (values !! k) as [m|] eqn:E; [|done]. constructor; [|done].
  intros (k' & Hin' & E')%list_elem_of_omap. destruct (Hk _ _ E) as [-> _]. destruct (Hk _ _ E') as [-> _]. done.
Qed.
Lemma add_match_elem seg parent mc acc sel m : joinConcreteCollectionPath (matchedCollection parent) seg = mc -> keyed mc acc ->
  keyed mc (add_match seg parent acc sel) /\
  ((exists k, add_match seg parent acc sel !! k = Some m) <-> (exists k, acc !! k = Some m) \/ m = {| selector := sel; matchedCollection := mc |}).
Proof.
  intros Hmc Hk. unfold add_match. rewrite Hmc. set (n := {| selector := sel; matchedCollection := mc |}). split.
  { apply map_Forall_insert_2; [done|done]. }
  split.
  - intros [k Hi]. apply lookup_insert_Some in Hi as [(_ & <-)|(_ & Hm)]; [by right|left; eauto].
  - intros [[k Hm]| ->]; [|exists (selectorMatchKey n); by rewrite lookup_insert_eq].
    destruct (decide (selectorMatchKey n = k)) as [<-|Hne]; [|exists k; by rewrite lookup_insert_ne].
    exists (selectorMatchKey n). rewrite lookup_insert_eq. f_equal. destruct (Hk _ _ Hm) as [E Hmc'].
    apply selectorMatchKey_inj; [by rewrite Hmc'|done].
Qed.
Lemma add_matches_elem seg parent mc sels m : joinConcreteCollectionPath (matchedCollection parent) seg = mc -> forall acc, keyed mc acc ->
  keyed mc (foldl (add_match seg parent) acc sels) /\
  ((exists k, foldl (add_match seg parent) acc sels !! k = Some m) <->
   (exists k, acc !! k = Some m) \/ exists sel, sel ∈ sels /\ m = {| selector := sel; matchedCollection := mc |}).
Proof.
  intros Hmc. induction sels as [|sel sels IH]; intros acc Hk; cbn [foldl].
  { split; [done|]. split; [by left|]. intros [?|(sel & []%not_elem_of_nil & _)]; done. }
  destruct (add_match_elem seg parent mc acc sel m Hmc Hk) as [Hk' E]. destruct (IH _ Hk') as [Hk'' E']. split; [done|].
  rewrite E', E. split.
  - intros [[?| ->]|(sel' & ? & ->)]; [by left|right; exists sel; by split; [left|]|right; exists sel'; by split; [right|]].
  - intros [?|(sel' & [->|?]%elem_of_cons & ->)]; [by left; left|by left; right|right; eauto].
Qed.

Section selection.
Context `{UnicodeTables} {D : Type} `{Disk D} (baseDir : string) (disk : D).

(** A directory is a wildcard that matches the segment, or the segment itself. *)
Definition wild_name (child seg : string) : Prop :=
  child = "_" \/ (child <> "_" /\ hasWildcardPattern child = true /\ path_match child seg = Some true).
Definition literal_name (child seg : string) : Prop := child <> "_" /\ hasWildcardPattern child = false /\ child = seg.
Definition names_segment (lit : bool) (child seg : string) : Prop := if lit then literal_name child seg else wild_name child seg.
Definition child_dir (sel child : string) : Prop :=
  exists entries, selector_entries baseDir disk "failed to list metadata selectors" sel = Ok (Some entries) /\ (child, true) ∈ entries.
(** The concrete collection of the first segments of a path. *)
Definition concrete (segs : list string) : string := foldl joinConcreteCollectionPath "/" segs.
(** [selects lit segs m]: the selector of [m] names the segments one by one, the last one by
    a literal directory if [lit]. *)
Inductive selects : bool -> list string -> selectorMatch -> Prop :=
| selects_root : selects false [] root_match
| selects_child lit lit' segs seg m child :
    selects lit segs m -> child_dir (selector m) child -> names_segment lit' child seg ->
    selects lit' (segs ++ [seg])
      {| selector := joinSelector (selector m) child; matchedCollection := joinConcreteCollectionPath (matchedCollection m) seg |}.
Lemma selects_concrete lit segs m : selects lit segs m -> matchedCollection m = concrete segs.
Proof. induction 1 as [|? ? segs seg m child Hs IH ? ?]; [done|]. cbn. rewrite IH. unfold concrete. by rewrite foldl_snoc. Qed.
Lemma selects_nil lit m : selects lit [] m -> lit = false /\ m = root_match.
Proof. intros Hs. remember [] as segs eqn:E. destruct Hs; [done|]. by destruct segs. Qed.
Lemma selects_snoc lit segs seg m : selects lit (segs ++ [seg]) m <->
  exists lit' parent child, selects lit' segs parent /\ child_dir (selector parent) child /\ names_segment lit child seg /\
    m = {| selector := joinSelector (selector parent) child; matchedCollection := joinConcreteCollectionPath (matchedCollection parent) seg |}.
Proof.
  split.
  - intros Hs. remember (segs ++ [seg]) as l eqn:E. destruct Hs as [|lit lit' segs' seg' p child ? ? ?]; [by destruct segs|].
    apply app_inj_tail in E as [-> ->]. by exists lit, p, child.
  - intros (lit' & p & child & ? & ? & ? & ->). by econstructor.
Qed.

Lemma classify_spec parent seg entries w l : classify_children parent seg entries = Ok (w, l) -> forall (lit : bool) sel,
  sel ∈ (if lit then l else w) <-> exists child, (child, true) ∈ entries /\ names_segment lit child seg /\ sel = joinSelector parent child.
Proof.
  revert w l. induction entries as [|[child dir] entries IH]; intros w l Hc lit sel; cbn [classify_children] in Hc.
  { injection Hc as <- <-. split; [destruct lit; by intros ?%not_elem_of_nil|]. intros (? & ?%not_elem_of_nil & _). done. }
  assert (forall w' l', classify_children parent seg entries = Ok (w', l') ->
    (dir = true -> forall sel, (sel ∈ (if lit then l else w)) <-> (names_segment lit child seg /\ sel = joinSelector parent child) \/ sel ∈ (if lit then l' else w')) ->
    (dir = false -> w = w' /\ l = l') ->
    sel ∈ (if lit then l else w) <-> exists c, (c, true) ∈ (child, dir) :: entries /\ names_segment lit c seg /\ sel = joinSelector parent c) as Hstep.
  { intros w' l' Hc' Htrue Hfalse. destruct dir.
    - rewrite Htrue by done. rewrite (IH _ _ Hc' lit sel). split.
      + intros [[? ?]|(c & ? & ? & ?)]; [exists child; split; [by left|done]|exists c; split; [by right|done]].
      + intros (c & Hin & ? & ?). apply elem_of_cons in Hin as [Hin|?]; [injection Hin as ->; by left|right; eauto].
    - destruct (Hfalse eq_refl) as [-> ->]. rewrite (IH _ _ Hc' lit sel). split.
      + intros (c & ? & ?). exists c. split; [by right|done].
      + intros (c & Hin & ?). apply elem_of_cons in Hin as [Hin|?]; [discriminate Hin|eauto]. }
  destruct dir; cbn [negb] in Hc; [|by apply (Hstep w l)].
  destruct (decide (child = "_")) as [Hu|Hu].
  - rewrite (bool_decide_true (child = "_")) in Hc by done. apply bind_Ok in Hc as ([w' l'] & Hc & [= <- <-]).
    apply (Hstep w' l' Hc); [|done]. intros _ sel'. destruct lit; cbn [names_segment].
    + split; [by right|]. by intros [[(? & _) _]|?].
    + rewrite elem_of_cons. split; (intros [?|?]; [left|by right]); [split; [by left|done]|tauto].
  - rewrite (bool_decide_false (child = "_")) in Hc by done. destruct (hasWildcardPattern child) eqn:Ew.
    + destruct (path_match child seg) as [matched|] eqn:Em; [|done]. apply bind_Ok in Hc as ([w' l'] & Hc & [= <- <-]).
      apply (Hstep w' l' Hc); [|done]. intros _ sel'. destruct lit; cbn [names_segment].
      * split; [by right|]. intros [[(_ & ? & _) _]|?]; [congruence|done].
      * destruct matched; [rewrite elem_of_cons|].
        -- split; (intros [?|?]; [left|by right]); [split; [by right|done]|tauto].
        -- split; [by right|]. intros [[[?|(_ & _ & ?)] _]|?]; [done|congruence|done].
    + apply bind_Ok in Hc as ([w' l'] & Hc & [= <- <-]). apply (Hstep w' l' Hc); [|done]. intros _ sel'.
      destruct lit; cbn [names_segment].
      * case_bool_decide as Es; [rewrite elem_of_cons|].
        -- split; (intros [?|?]; [left|by right]); [done|tauto].
        -- split; [by right|]. intros [[(_ & _ & ?) _]|?]; done.
      * split; [by right|]. intros [[[?|(_ & ? & _)] _]|?]; [done|congruence|done].
Qed.
Lemma candidates_spec parent seg w l : matchingCollectionCandidates baseDir disk parent seg = Ok (w, l) -> forall (lit : bool) sel,
  sel ∈ (if lit then l else w) <-> exists child, child_dir parent child /\ names_segment lit child seg /\ sel = joinSelector parent child.
Proof.
  unfold matchingCollectionCandidates. intros Hc lit sel. apply bind_Ok in Hc as (entries & He & Hc). destruct entries as [entries|].
  - rewrite (classify_spec _ _ _ _ _ Hc lit sel). split.
    + intros (child & ? & ?). exists child. split; [by exists entries|done].
    + intros (child & (entries' & He' & ?) & ?). rewrite He in He'. injection He' as <-. eauto.
  - injection Hc as <- <-. split; [destruct lit; by intros ?%not_elem_of_nil|]. intros (child & (entries' & He' & _) & _). congruence.
Qed.

Definition new_match (mc seg : string) (parents : list selectorMatch) (lit : bool) (m : selectorMatch) : Prop :=
  exists parent child, parent ∈ parents /\ child_dir (selector parent) child /\ names_segment lit child seg /\
    m = {| selector := joinSelector (selector parent) child; matchedCollection := mc |}.
Lemma new_match_cons mc seg p ps lit m (sels : list string) : (forall sel, sel ∈ sels <-> exists child, child_dir (selector p) child /\ names_segment lit child seg /\ sel = joinSelector (selector p) child) ->
  new_match mc seg (p :: ps) lit m <-> (exists sel, sel ∈ sels /\ m = {| selector := sel; matchedCollection := mc |}) \/ new_match mc seg ps lit m.
Proof.
  intros Hs. split.
  - intros (parent & child & [->|?]%elem_of_cons & ? & ? & ->); [|by right; exists parent, child]. left.
    exists (joinSelector (selector p) child). split; [|done]. apply Hs. eauto.
  - intros [(sel & (child & ? & ? & ->)%Hs & ->)|(parent & child & ? & ?)]; [exists p, child|exists parent, child];
      (split; [|done]); [by left|by right].
Qed.
Lemma level_spec seg mc parents : Forall (fun p => joinConcreteCollectionPath (matchedCollection p) seg = mc) parents ->
  forall w l n w' l' n', keyed mc w -> keyed mc l -> keyed mc n ->
  level_candidates baseDir disk seg parents w l n = Ok (w', l', n') ->
  (keyed mc w' /\ keyed mc l' /\ keyed mc n') /\ forall m,
    ((exists k, w' !! k = Some m) <-> (exists k, w !! k = Some m) \/ new_match mc seg parents false m) /\
    ((exists k, l' !! k = Some m) <-> (exists k, l !! k = Some m) \/ new_match mc seg parents true m) /\
    ((exists k, n' !! k = Some m) <-> (exists k, n !! k = Some m) \/ new_match mc seg parents false m \/ new_match mc seg parents true m).
Proof.
  induction 1 as [|p ps Hp Hps IH]; intros w l n w' l' n' Hw Hl Hn Hr; cbn [level_candidates] in Hr.
  { injection Hr as <- <- <-. split; [done|]. intros m. assert (forall lit, ~ new_match mc seg [] lit m) as Hno.
    { intros lit (? & ? & []%not_elem_of_nil & _). }
    pose proof (Hno false). pose proof (Hno true). tauto. }
  apply bind_Ok in Hr as ([wildcards literals] & Hc & Hr). pose proof (candidates_spec _ _ _ _ Hc) as Hs.
  pose proof (fun m => proj1 (add_matches_elem seg p mc wildcards m Hp w Hw)) as Hw1.
  pose proof (fun m => proj1 (add_matches_elem seg p mc literals m Hp l Hl)) as Hl1.
  pose proof (fun m => proj1 (add_matches_elem seg p mc wildcards m Hp n Hn)) as Hn1. specialize (Hw1 p). specialize (Hl1 p). specialize (Hn1 p).
  pose proof (proj1 (add_matches_elem seg p mc literals p Hp _ Hn1)) as Hn2.
  destruct (IH _ _ _ _ _ _ Hw1 Hl1 Hn2 Hr) as [Hk Hm]. split; [done|]. intros m. destruct (Hm m) as (E1 & E2 & E3).
  rewrite E1, E2, E3, !(new_match_cons mc seg p ps false m wildcards (Hs false)), !(new_match_cons mc seg p ps true m literals (Hs true)).
  destruct (add_matches_elem seg p mc wildcards m Hp w Hw) as [_ ->]. destruct (add_matches_elem seg p mc literals m Hp l Hl) as [_ ->].
  destruct (add_matches_elem seg p mc literals m Hp _ Hn1) as [_ ->]. destruct (add_matches_elem seg p mc wildcards m Hp n Hn) as [_ ->].
  tauto.
Qed.
Lemma selects_prefix lit segs rest m : selects lit (segs ++ rest) m -> exists lit' m', selects lit' segs m'.
Proof.
  revert lit m. induction rest as [|seg rest IH] using rev_ind; intros lit m Hs; [rewrite app_nil_r in Hs; eauto|].
  rewrite app_assoc in Hs. apply selects_snoc in Hs as (lit' & p & child & Hs & _). by apply (IH lit' p).
Qed.

End selection.

(** The order of application: the depth first, wildcards before literals, then the key. *)
Abbreviation ranked := (nat * bool * selectorMatch)%type.
Definition applied_before (x y : ranked) : Prop :=
  (x.1.1 < y.1.1)%nat \/ (x.1.1 = y.1.1 /\ ((x.1.2 = false /\ y.1.2 = true) \/ (x.1.2 = y.1.2 /\ key_le x.2 y.2))).
Definition rank (d : nat) (lit : bool) (m : selectorMatch) : ranked := (d, lit, m).
Lemma elem_of_rank d lit (ms : list selectorMatch) (x : ranked) : x ∈ rank d lit <$> ms <-> x.1.1 = d /\ x.1.2 = lit /\ x.2 ∈ ms.
Proof.
  rewrite list_elem_of_fmap. destruct x as [[d' lit'] m]. cbn. split; [intros (m' & [= -> -> ->] & ?); done|].
  intros (-> & -> & ?). by exists m.
Qed.
Lemma ranked_sorted d lit (ms : list selectorMatch) : StronglySorted key_le ms -> StronglySorted applied_before (rank d lit <$> ms).
Proof.
  induction 1 as [|m ms Hs IH Hf]; [constructor|]. cbn. constructor; [done|]. apply Forall_fmap. eapply Forall_impl; [done|].
  intros m' Hm. right. split; [done|]. right. done.
Qed.
Lemma ranked_NoDup d lit (ms : list selectorMatch) : NoDup ms -> NoDup (rank d lit <$> ms).
Proof. intros Hn. apply NoDup_fmap_2; [|done]. by intros x y [=]. Qed.
Lemma sorted_app {A} (R : A -> A -> Prop) l k : StronglySorted R l -> StronglySorted R k ->
  (forall x y, x ∈ l -> y ∈ k -> R x y) -> StronglySorted R (l ++ k).
Proof.
  intros Hl Hk. induction Hl as [|x l Hl IH Hf]; intros Hx; [done|]. cbn. constructor.
  - apply IH. intros a b Ha. apply Hx. by right.
  - apply Forall_app. split; [done|]. apply Forall_forall. intros y Hy. apply Hx; [by left|done].
Qed.

Section resolution.
Context `{UnicodeTables, TemplateEngine, WireCodec, TextCodecs} {D : Type} `{Disk D}.
Context (order : map_order) (baseDir : string) (disk : D).
#[local] Abbreviation selects := (selects baseDir disk).

(** What the document of a match adds to the metadata of the target: nothing when there is
    no document or it does not apply. *)
Definition contribution (target : resolvedPathTarget) (kind : metadataPathKind) (m : selectorMatch) : option ResourceMetadata :=
  match tryReadMetadata order baseDir disk (selector m) kind with
  | Ok (Some item) =>
      match resolveMetadataDefaults baseDir disk (selector m) kind item with
      | Ok resolvedItem =>
          if (kind == metadataPathCollection) && negb (collectionMetadataAppliesToTarget target (matchedCollection m) (Selector resolvedItem))
          then None else Some resolvedItem
      | Err _ => None
      end
  | _ => None
  end.
Definition merge_documents (base : ResourceMetadata) (docs : list ResourceMetadata) : ResourceMetadata := foldl MergeResourceMetadata base docs.
Lemma apply_match_spec target kind m r r' : apply_match order baseDir disk target kind m r = Ok r' ->
  metadata r' = merge_documents (metadata r) (option_list (contribution target kind m)).
Proof.
  unfold apply_match, contribution. intros Ha. apply bind_Ok in Ha as (p & _ & Ha). apply bind_Ok in Ha as (item & -> & Ha).
  destruct item as [item|]; [|by injection Ha as <-]. apply bind_Ok in Ha as (ri & -> & Ha).
  destruct ((kind == metadataPathCollection) && _); by injection Ha as <-.
Qed.
Lemma apply_matches_spec target ms : forall r r', apply_matches order baseDir disk target ms r = Ok r' ->
  metadata r' = merge_documents (metadata r) (omap (contribution target metadataPathCollection) ms).
Proof.
  induction ms as [|m ms IH]; intros r r' Ha; cbn [apply_matches] in Ha; [by injection Ha as <-|].
  apply bind_Ok in Ha as (r1 & H1' & Ha). rewrite (IH _ _ Ha), (apply_match_spec _ _ _ _ _ H1'). unfold merge_documents.
  cbn [omap list_omap]. by destruct (contribution _ _ m).
Qed.
Definition contributions (target : resolvedPathTarget) (L : list ranked) : list ResourceMetadata :=
  omap (contribution target metadataPathCollection) L.*2.
Lemma contributions_app target L K : contributions target (L ++ K) = contributions target L ++ contributions target K.
Proof. unfold contributions. by rewrite fmap_app, omap_app. Qed.
Lemma contributions_rank target d lit (ms : list selectorMatch) : contributions target (rank d lit <$> ms) = omap (contribution target metadataPathCollection) ms.
Proof. unfold contributions. rewrite <-list_fmap_compose. f_equal. induction ms as [|m ms IH]; [done|]. cbn. by f_equal. Qed.
Lemma merge_documents_app b l k : merge_documents b (l ++ k) = merge_documents (merge_documents b l) k.
Proof. apply foldl_app. Qed.

Lemma resolve_levels_spec target segs : forall done_ parents r r',
  (forall m, m ∈ parents <-> exists lit, selects lit done_ m) ->
  resolve_levels order baseDir disk target segs parents r = Ok r' ->
  exists L : list ranked,
    (forall x, x ∈ L <-> exists n, (0 < n <= length segs)%nat /\ x.1.1 = (length done_ + n)%nat /\ selects x.1.2 (done_ ++ take n segs) x.2) /\
    StronglySorted applied_before L /\ NoDup L /\ metadata r' = merge_documents (metadata r) (contributions target L).
Proof.
  induction segs as [|seg segs IH]; intros dn parents r r' Hp Hr; cbn [resolve_levels] in Hr.
  { injection Hr as <-. exists []. split_and!; [|constructor|constructor|done]. intros x. split; [by intros ?%not_elem_of_nil|].
    intros (n & Hn & _). cbn in Hn. lia. }
  apply bind_Ok in Hr as ([[w l] nx] & Hl & Hr). apply bind_Ok in Hr as (r1 & Hw & Hr). apply bind_Ok in Hr as (r2 & Hli & Hr).
  set (mc := joinConcreteCollectionPath (concrete dn) seg).
  destruct (level_spec baseDir disk seg mc parents) with (w := ∅ : gmap string selectorMatch) (l := ∅ : gmap string selectorMatch)
    (n := ∅ : gmap string selectorMatch) (w' := w) (l' := l) (n' := nx) as [(Kw & Kl & Kn) Hm]; [|apply map_Forall_empty..|exact Hl|].
  { apply Forall_forall. intros p [lit Hsel]%Hp. by rewrite (selects_concrete _ _ _ _ _ Hsel). }
  assert (forall lit m, new_match baseDir disk mc seg parents lit m <-> selects lit (dn ++ [seg]) m) as Hnew.
  { intros lit m. rewrite selects_snoc. split.
    - intros (p & child & [lit' Hsel]%Hp & ? & ? & ->). exists lit', p, child. by rewrite (selects_concrete _ _ _ _ _ Hsel).
    - intros (lit' & p & child & Hsel & ? & ? & ->). exists p, child. split; [apply Hp; eauto|].
      by rewrite (selects_concrete _ _ _ _ _ Hsel). }
  assert (forall (lit : bool) m, m ∈ sortedSelectorMatches (if lit then l else w) <-> selects lit (dn ++ [seg]) m) as Hlevel.
  { intros lit m. rewrite elem_of_sortedSelectorMatches, <-Hnew. destruct (Hm m) as (E1 & E2 & _). destruct lit; rewrite ?E1, ?E2.
    - split; [intros [[k Hk]|?]; [by rewrite lookup_empty in Hk|done]|by right].
    - split; [intros [[k Hk]|?]; [by rewrite lookup_empty in Hk|done]|by right]. }
  assert (forall m, m ∈ sortedSelectorMatches nx <-> exists lit, selects lit (dn ++ [seg]) m) as Hnext.
  { intros m. rewrite elem_of_sortedSelectorMatches. destruct (Hm m) as (_ & _ & ->). rewrite !Hnew. split.
    - intros [[k Hk]|[?|?]]; [by rewrite lookup_empty in Hk|eauto..].
    - intros [[] ?]; [by right; right|by right; left]. }
  set (d := S (length dn)).
  set (L0 := (rank d false <$> sortedSelectorMatches w) ++ (rank d true <$> sortedSelectorMatches l)).
  assert (forall x, x ∈ L0 <-> x.1.1 = d /\ selects x.1.2 (dn ++ [seg]) x.2) as HL0.
  { intros [[d' lit] m]. unfold L0. rewrite elem_of_app, !elem_of_rank. cbn [fst snd]. rewrite (Hlevel false), (Hlevel true).
    destruct lit; naive_solver. }
  assert (StronglySorted applied_before L0 /\ NoDup L0) as [Hs0 Hn0].
  { split.
    - apply sorted_app; [by apply ranked_sorted, (sorted_matches_sorted mc)|by apply ranked_sorted, (sorted_matches_sorted mc)|].
      intros x y (E1 & E2 & _)%elem_of_rank (E3 & E4 & _)%elem_of_rank. right. split; [congruence|]. left. done.
    - apply NoDup_app. split_and!; [by apply ranked_NoDup, (sorted_matches_NoDup mc)| |by apply ranked_NoDup, (sorted_matches_NoDup mc)].
      intros x (_ & E2 & _)%elem_of_rank (_ & E4 & _)%elem_of_rank. congruence. }
  assert (metadata r2 = merge_documents (metadata r) (contributions target L0)) as Hmeta0.
  { rewrite (apply_matches_spec _ _ _ _ Hli), (apply_matches_spec _ _ _ _ Hw). unfold L0.
    by rewrite contributions_app, !contributions_rank, merge_documents_app. }
  assert (exists L1 : list ranked, (forall x, x ∈ L1 <-> exists n, (0 < n <= length segs)%nat /\ x.1.1 = (length (dn ++ [seg]) + n)%nat /\ selects x.1.2 ((dn ++ [seg]) ++ take n segs) x.2) /\
    StronglySorted applied_before L1 /\ NoDup L1 /\ metadata r' = merge_documents (metadata r2) (contributions target L1)) as (L1 & HL1 & Hs1 & Hn1 & Hmeta1).
  { destruct (sortedSelectorMatches nx) as [|p ps] eqn:En; [|by apply (IH _ (p :: ps) r2 r')].
    injection Hr as <-. exists []. split_and!; [|constructor|constructor|done]. intros x. split; [by intros ?%not_elem_of_nil|].
    intros (n & _ & _ & (lit & m & Hsel)%selects_prefix). assert (m ∈ []) as []%not_elem_of_nil by (apply Hnext; eauto). }
  rewrite length_app in HL1. cbn [length] in HL1. exists (L0 ++ L1). split_and!.
  - intros x. rewrite elem_of_app, HL0, HL1. split.
    + intros [[E Hsel]|(n & Hn & E & Hsel)].
      * exists 1%nat. cbn. split; [lia|]. unfold d in E. split; [lia|done].
      * exists (S n). cbn. split; [lia|]. split; [lia|]. by rewrite <-app_assoc in Hsel.
    + intros ([|[|n]] & Hn & E & Hsel); [lia| |].
      * left. cbn in E, Hsel. unfold d. split; [lia|done].
      * right. exists (S n). cbn in Hn. split; [lia|]. split; [lia|]. by rewrite <-app_assoc.
  - apply sorted_app; [done|done|]. intros x y [E _]%HL0 (n & ? & E' & _)%HL1. left. rewrite E, E'. unfold d. lia.
  - apply NoDup_app. split_and!; [done| |done]. intros x [E _]%HL0 (n & ? & E' & _)%HL1. unfold d in E. lia.
  - by rewrite contributions_app, merge_documents_app, <-Hmeta0.
Qed.

(** [C8] The metadata of a path is the merging, over the empty metadata, of exactly the
    documents that select it: those of the selector directories whose names match the
    segments of the path one by one (a literal name, ["_"], or a glob), as deep as the path
    or less, each kept if it applies to the target; in the order of their depth, wildcards
    before literals, then selectors in order; and last the document of the resource itself. *)
Theorem metadata_resolution_exact logicalPath target r :
  normalizeResolvePath logicalPath = Ok target ->
  resolveForPathWithContext order baseDir disk logicalPath = Ok r ->
  exists L : list ranked,
    (forall d lit m, (d, lit, m) ∈ L <->
      (d <= length (splitPathSegments (rt_path target)))%nat /\ selects lit (take d (splitPathSegments (rt_path target))) m) /\
    StronglySorted applied_before L /\ NoDup L /\
    metadata r = merge_documents empty_metadata (contributions target L ++
      (if collection target || (rt_path target == "/") then []
       else option_list (contribution target metadataPathResource
              {| selector := rt_path target; matchedCollection := collectionPathForLogicalPath (rt_path target) |}))).
Proof.
  intros Ht Hr. unfold resolveForPathWithContext in Hr. rewrite Ht in Hr. cbn [mbind result_bind] in Hr.
  apply bind_Ok in Hr as (r0 & H0' & Hr). apply bind_Ok in Hr as (r1 & H1' & Hr). apply bind_Ok in Hr as (r2 & H2' & Hr).
  apply bind_Ok in Hr as (e & _ & Hr). injection Hr as <-. set (segs := splitPathSegments (rt_path target)) in *.
  destruct (resolve_levels_spec target segs [] [root_match] r0 r1) as (L & HL & Hs & Hn & Hm); [|exact H1'|].
  { intros m. rewrite list_elem_of_singleton. split; [intros ->; exists false; constructor|by intros [lit [_ ->]%selects_nil]]. }
  exists (rank 0 false root_match :: L). split_and!.
  - intros d lit m. rewrite elem_of_cons, HL. cbn. split.
    + intros [[= -> -> ->]|(n & Hn' & -> & Hsel)]; [split; [lia|constructor]|]. split; [lia|done].
    + intros [Hd Hsel]. destruct d as [|d]; [left|right; exists (S d); split; [lia|done]]. rewrite take_0 in Hsel.
      by apply selects_nil in Hsel as [-> ->].
  - constructor; [done|]. apply Forall_forall. intros x (n & ? & E & _)%HL. left. rewrite E. cbn. lia.
  - constructor; [|done]. intros (n & ? & E & _)%HL. cbn in E. lia.
  - assert (metadata r1 = merge_documents empty_metadata (contributions target (rank 0 false root_match :: L))) as E.
    { rewrite Hm, (apply_match_spec _ _ _ _ _ H0'). rewrite <-merge_documents_app. f_equal. unfold contributions. cbn.
      by destruct (contribution target _ root_match). }
    rewrite merge_documents_app, <-E. destruct (collection target), (rt_path target == "/"); cbn [negb andb orb] in *;
      try (by injection H2' as <-). apply (apply_match_spec _ _ _ _ _ H2').
Qed.
End resolution.

(** ** A store *)
(** A codec whose documents hold the identifier template of the resource. *)
Definition id_wire (s : string) : resourceMetadataWire :=
  {| mw_Selector := None;
     mw_Resource := Some {| rw_ID := s; rw_Alias := ""; rw_RequiredAttributes := None; rw_RemoteCollectionPath := ""; rw_Format := "";
       rw_Defaults := None; rw_Secret := None; rw_SecretAttributes := None; rw_ExternalizedAttributes := None |};
     mw_Operations := None |}.
Definition id_codec : WireCodec := {|
  json_decode_wire := fun s => Ok (id_wire s);
  json_encode_wire := fun w => Ok (match mw_Resource w with Some r => rw_ID r | None => "" end);
  yaml_decode_wire := fun s => Ok (id_wire s);
  yaml_encode_wire := fun w => Ok (match mw_Resource w with Some r => rw_ID r | None => "" end);
|}.
Definition sample_tree : tree :=
  {[ "/m" := DirNode; "/m/_" := DirNode; "/m/_/metadata.yaml" := FileNode "{{/id}}";
     "/m/_/_" := DirNode; "/m/_/_/metadata.json" := FileNode "{{/uuid}}";
     "/m/users" := DirNode; "/m/users/_" := DirNode; "/m/users/_/metadata.yaml" := FileNode "{{/name}}" ]}.
Lemma metadata_resolution_exact_witness
  (T : UnicodeTables := latin1_tables) (E : TemplateEngine := pointer_engine) (W : WireCodec := id_codec) (C : TextCodecs := line_codecs) :
  exists target r, normalizeResolvePath "/users/ada" = Ok target /\
    resolveForPathWithContext key_order "/m" sample_tree "/users/ada" = Ok r /\ ID (metadata r) = "{{/name}}" /\
    exists L : list (nat * bool * selectorMatch),
      (forall d lit m, (d, lit, m) ∈ L <->
        (d <= length (splitPathSegments (rt_path target)))%nat /\
        selects "/m" sample_tree lit (take d (splitPathSegments (rt_path target))) m).
Proof.
  set (target := {| rt_path := "/users/ada"; collection := false |}).
  assert (normalizeResolvePath "/users/ada" = Ok target) as Ht by (vm_compute; reflexivity).
  assert (ok_opt ((fun r => ID (metadata r)) <$> resolveForPathWithContext key_order "/m" sample_tree "/users/ada") = Some "{{/name}}") as Hr
    by (vm_compute; reflexivity).
  destruct (resolveForPathWithContext key_order "/m" sample_tree "/users/ada") as [r|] eqn:Er; [|discriminate Hr].
  exists target, r. split; [exact Ht|]. split; [reflexivity|]. split; [by injection Hr|].
  destruct (metadata_resolution_exact key_order "/m" sample_tree "/users/ada" target r Ht Er) as (L & HL & _). exists L. exact HL.
Defined.
