(* ===== verification/FsRender.v ===== *)
(** * Rendered operations and layered metadata

    Models [src/internal/providers/metadata/fs/fs_metadata_service_render.go], the rendering
    of an operation, and of all the operations, of the metadata a path resolves to, and
    [fs_metadata_service_layered.go], the service that reads a shared tree of documents below
    a local one and writes to one of them. The debug log is left out. *)
From S2P Require Import Prelude GoText GoTextFacts Faults Paths GoDisk Value Descriptor Codec DefaultsSpec Metadata MetaWire TemplateSyntax IdentityTemplate Identity OperationSpec TemplateScope FsMetadata.

(** ** The identity and the paths of a scope *)
Definition payloadCanResolveTemplateIdentity (v : value) : bool :=
  match v with VMap payloadMap => negb (bool_decide (payloadMap = ∅)) | _ => false end.
Definition operationNeedsFallbackIdentity (o : Operation) : bool :=
  match o with OperationGet | OperationUpdate | OperationDelete | OperationCompare => true | _ => false end.
Definition collectionPathForTarget (target : resolvedPathTarget) : string :=
  if collection target then rt_path target else collectionPathForLogicalPath (rt_path target).
Definition targetForOperation (target : resolvedPathTarget) (o : Operation) : resolvedPathTarget :=
  if collection target || negb (o == OperationList) then target else {| rt_path := rt_path target; collection := true |}.
Section scopes.
Context `{UnicodeTables}.
Definition aliasForTemplateScopeLogicalPath (logicalPath : string) : string :=
  let trimmed := trim_space logicalPath in if (trimmed == "") || (trimmed == "/") then "/" else path_base trimmed.
Definition resolveTemplateScopeIdentity (logicalPath : string) (m : ResourceMetadata) (normalizedPayload : value)
  (localAlias remoteID : string) (o : Operation) : outcome (string * string) :=
  let alias := trim_space localAlias in
  let id := trim_space remoteID in
  '(alias, id) ← (if ((alias == "") || (id == "")) && payloadCanResolveTemplateIdentity normalizedPayload then
                    '(derivedAlias, derivedRemoteID) ← ResolveAliasAndRemoteID logicalPath m normalizedPayload;
                    Ok (if alias == "" then derivedAlias else alias, if id == "" then derivedRemoteID else id)
                  else Ok (alias, id));
  if operationNeedsFallbackIdentity o then
    let alias := if alias == "" then aliasForTemplateScopeLogicalPath logicalPath else alias in
    Ok (alias, if id == "" then alias else id)
  else Ok (alias, id).
Definition scopeOptionsForResolvedTarget (descendant : option string) : string :=
  match descendant with
  | Some matchedCollectionPath => if trim_space matchedCollectionPath == "" then "" else matchedCollectionPath
  | None => ""
  end.
Definition descendantSuffix (root candidate : string) : string :=
  let trimmedRoot := trim_space root in
  let trimmedCandidate := trim_space candidate in
  if (trimmedRoot == "") || (trimmedCandidate == "") then ""
  else if trimmedRoot == trimmedCandidate then ""
  else if trimmedRoot == "/" then (if trimmedCandidate == "/" then "" else trimmedCandidate)
  else if negb (has_prefix trimmedCandidate (trimmedRoot +:+ "/")) then ""
  else trim_prefix trimmedCandidate trimmedRoot.
Definition applyDescendantScope (scope : object) (target : resolvedPathTarget) (descendant : option string) : object :=
  match descendant with
  | None => scope
  | Some matchedCollectionPath =>
      if bool_decide (scope = ∅) then scope
      else
        let scope := <["descendantCollectionPath" := VString (descendantSuffix matchedCollectionPath (collectionPathForTarget target))]> scope in
        <["descendantPath" := VString (descendantSuffix matchedCollectionPath (rt_path target))]> scope
  end.
End scopes.

(** The input of the optional capability [ResourceOperationSpecRenderer]. *)
Record ResourceOperationSpecInput := {
  in_LogicalPath : string; in_CollectionPath : string; in_LocalAlias : string; in_RemoteID : string;
  in_PayloadDescriptor : PayloadDescriptor; in_Metadata : ResourceMetadata; in_Payload : value;
}.

Section render.
Context `{UnicodeTables, TemplateEngine}.
Context (order : map_order).

Definition scope_resource_of (logicalPath collectionPath alias remoteID : string) (payload : value) : Resource :=
  {| LogicalPath := logicalPath; CollectionPath := collectionPath; LocalAlias := alias; RemoteID := remoteID;
     ResolvedRemotePath := ""; Payload := payload; Res_PayloadDescriptor := empty_descriptor |}.
Definition buildTemplateValue (target : resolvedPathTarget) (resolved : resolvedMetadataResult) (v : value) (o : Operation) : outcome object :=
  let effectiveTarget := targetForOperation target o in
  normalizedPayload ← lift (Normalize v);
  '(alias, remoteID) ← resolveTemplateScopeIdentity (rt_path target) (metadata resolved) normalizedPayload "" "" o;
  scope ← lift (BuildResourceScopeWithOptions order
    (scope_resource_of (rt_path target) (collectionPathForTarget effectiveTarget) alias remoteID normalizedPayload)
    (metadata resolved) (scopeOptionsForResolvedTarget (descendant resolved)));
  Ok (applyDescendantScope scope effectiveTarget (descendant resolved)).
Definition buildTemplateScopeForResource (target : resolvedPathTarget) (resolved : resolvedMetadataResult) (r : Resource) (o : Operation) : outcome object :=
  let effectiveTarget := targetForOperation target o in
  normalizedPayload ← lift (Normalize (Payload r));
  let collectionPath := trim_space (CollectionPath r) in
  collectionPath ← (if collectionPath == "" then Ok (collectionPathForTarget effectiveTarget)
                    else lift (NormalizeLogicalPath collectionPath));
  '(localAlias, remoteID) ← resolveTemplateScopeIdentity (rt_path target) (metadata resolved) normalizedPayload (LocalAlias r) (RemoteID r) o;
  scope ← lift (BuildResourceScopeWithOptions order
    (scope_resource_of (rt_path target) collectionPath localAlias remoteID normalizedPayload)
    (metadata resolved) (scopeOptionsForResolvedTarget (descendant resolved)));
  Ok (applyDescendantScope scope effectiveTarget (descendant resolved)).
Definition renderRemoteCollectionPath (raw : string) (scope : object) : result error string :=
  let candidate := trim_space raw in
  if candidate == "" then Ok ""
  else rendered ← renderTemplateString "remoteCollectionPath" candidate scope; Ok (normalizeRenderedOperationPath rendered).
Definition with_collection_and_operations (m : ResourceMetadata) (remoteCollectionPath : string) (ops : gmap string OperationSpec) : ResourceMetadata :=
  {| Selector := Selector m; ID := ID m; Alias := Alias m; RequiredAttributes := RequiredAttributes m;
     RemoteCollectionPath := remoteCollectionPath; Format := Format m; Defaults := Defaults m; Secret := Secret m;
     SecretAttributes := SecretAttributes m; ExternalizedAttributes := ExternalizedAttributes m; Operations := Some ops;
     Transforms := Transforms m |}.
(** The operations rendered in the order of their names. *)
Fixpoint render_operations (m : ResourceMetadata) (scope : object) (names : list string) : result error (gmap string OperationSpec) :=
  match names with
  | [] => Ok ∅
  | key :: names =>
      spec ← ResolveOperationSpecWithScope m (operation_of key) scope;
      rest ← render_operations m scope names;
      Ok (<[key := spec]> rest)
  end.
Definition renderMetadataSnapshotWithResolvedContext (target : resolvedPathTarget) (resolved : resolvedMetadataResult) (payload : value)
  (descriptor : PayloadDescriptor) : outcome ResourceMetadata :=
  scope ← buildTemplateScopeForResource target resolved
    {| LogicalPath := rt_path target; CollectionPath := collectionPathForTarget target; LocalAlias := ""; RemoteID := "";
       ResolvedRemotePath := ""; Payload := payload; Res_PayloadDescriptor := descriptor |} OperationGet;
  let scope := ApplyPayloadTemplateScope scope (metadata resolved) (PayloadValue payload) descriptor in
  let rendered := CloneResourceMetadata (metadata resolved) in
  lift (remoteCollectionPath ← renderRemoteCollectionPath (RemoteCollectionPath rendered) scope;
        ops ← render_operations (metadata resolved) scope (sorted_keys (default ∅ (Operations rendered)));
        Ok (with_collection_and_operations rendered remoteCollectionPath ops)).

(** The three renderings, on the resolution of a service. *)
Definition render_operation (resolve : string -> result error resolvedMetadataResult) (logicalPath : string) (o : Operation) (v : value)
  : outcome OperationSpec :=
  target ← lift (normalizeResolvePath logicalPath);
  resolved ← lift (resolve logicalPath);
  templateValue ← buildTemplateValue target resolved v o;
  let templateValue := ApplyPayloadTemplateScope templateValue (metadata resolved) (PayloadValue v) empty_descriptor in
  lift (ResolveOperationSpecWithScope (metadata resolved) o templateValue).
Definition with_metadata (resolved : resolvedMetadataResult) (m : ResourceMetadata) : resolvedMetadataResult :=
  {| metadata := m; descendant := descendant resolved |}.
Definition render_snapshot (resolve : string -> result error resolvedMetadataResult) (logicalPath : string) (payload : value)
  (descriptor : PayloadDescriptor) : outcome ResourceMetadata :=
  target ← lift (normalizeResolvePath logicalPath);
  resolved ← lift (resolve logicalPath);
  let resolved := with_metadata resolved (MergeResourceMetadata DefaultResourceMetadata (metadata resolved)) in
  renderMetadataSnapshotWithResolvedContext target resolved payload descriptor.
Definition render_resource_operation (resolve : string -> result error resolvedMetadataResult) (input : ResourceOperationSpecInput) (o : Operation)
  : outcome OperationSpec :=
  let r := {| LogicalPath := in_LogicalPath input; CollectionPath := in_CollectionPath input; LocalAlias := in_LocalAlias input;
              RemoteID := in_RemoteID input; ResolvedRemotePath := ""; Payload := in_Payload input;
              Res_PayloadDescriptor := in_PayloadDescriptor input |} in
  target ← lift (normalizeResolvePath (LogicalPath r));
  resolved ← lift (match resolve (LogicalPath r) with
                   | Err err => if IsCategory (Some err) NotFoundError then Ok empty_result else Err err
                   | Ok resolved => Ok resolved
                   end);
  let resolved := if HasResourceMetadataDirectives (in_Metadata input) then with_metadata resolved (CloneResourceMetadata (in_Metadata input)) else resolved in
  templateScope ← buildTemplateScopeForResource target resolved r o;
  let templateScope := ApplyPayloadTemplateScope templateScope (metadata resolved) (PayloadValue (Payload r)) (Res_PayloadDescriptor r) in
  lift (ResolveOperationSpecWithScope (metadata resolved) o templateScope).
End render.

Section services.
Context `{UnicodeTables, TemplateEngine, WireCodec, TextCodecs} {D : Type} `{Disk D}.
Context (order : map_order).

(** ** The service of one tree *)
Definition NewFSMetadataService (baseDir : string) : string := path_clean baseDir.
Definition RenderOperationSpec (baseDir : string) (disk : D) := render_operation order (resolveForPathWithContext order baseDir disk).
Definition RenderMetadataSnapshot (baseDir : string) (disk : D) := render_snapshot order (resolveForPathWithContext order baseDir disk).
Definition RenderOperationSpecForResource (baseDir : string) (disk : D) :=
  render_resource_operation order (resolveForPathWithContext order baseDir disk).

(** ** The layered service *)
Inductive LayeredMetadataWriteTarget := LayeredMetadataWriteShared | LayeredMetadataWriteLocal.
Record LayeredMetadataService := { shared : option string; local : option string; writable : option string }.
Definition service_at (baseDir : string) : option string :=
  if trim_space baseDir == "" then None else Some (NewFSMetadataService (trim_space baseDir)).
Definition NewLayeredFSMetadataService (sharedBaseDir localBaseDir : string) (writeTarget : LayeredMetadataWriteTarget) : LayeredMetadataService :=
  let shared := service_at sharedBaseDir in
  let local := service_at localBaseDir in
  {| shared := shared; local := local;
     writable := match writeTarget with
                 | LayeredMetadataWriteShared => match shared with Some _ => shared | None => local end
                 | LayeredMetadataWriteLocal => match local with Some _ => local | None => shared end
                 end |}.
Definition layered_Get (s : LayeredMetadataService) (logicalPath : string) (disk : D) : result error ResourceMetadata :=
  match writable s with
  | None => Err (NotFound "metadata service is not configured" None)
  | Some baseDir => FsMetadata.Get order baseDir disk logicalPath
  end.
Definition layered_Set (s : LayeredMetadataService) (logicalPath : string) (m : ResourceMetadata) (disk : D) : option error * D :=
  match writable s with
  | None => (Some (Invalid "metadata service is not configured" None), disk)
  | Some baseDir => Set_ order baseDir logicalPath m disk
  end.
Definition layered_Unset (s : LayeredMetadataService) (logicalPath : string) (disk : D) : option error * D :=
  match writable s with None => (None, disk) | Some baseDir => Unset baseDir logicalPath disk end.
Definition merge_layer (layer : option string) (disk : D) (logicalPath : string) (merged : resolvedMetadataResult)
  : Prelude.result error resolvedMetadataResult :=
  match layer with
  | None => Ok merged
  | Some baseDir =>
      resolved ← resolveForPathWithContext order baseDir disk logicalPath;
      Ok {| metadata := MergeResourceMetadata (metadata merged) (metadata resolved);
            descendant := preferDescendantContext (descendant merged) (descendant resolved) |}
  end.
Definition layered_resolveForPathWithContext (s : LayeredMetadataService) (disk : D) (logicalPath : string)
  : Prelude.result error resolvedMetadataResult :=
  merged ← merge_layer (shared s) disk logicalPath empty_result;
  merge_layer (local s) disk logicalPath merged.
Definition layered_ResolveForPath (s : LayeredMetadataService) (disk : D) (logicalPath : string) : Prelude.result error ResourceMetadata :=
  resolved ← layered_resolveForPathWithContext s disk logicalPath; Ok (metadata resolved).
Definition layered_RenderOperationSpec (s : LayeredMetadataService) (disk : D) := render_operation order (layered_resolveForPathWithContext s disk).
Definition layered_RenderMetadataSnapshot (s : LayeredMetadataService) (disk : D) := render_snapshot order (layered_resolveForPathWithContext s disk).
Definition layered_RenderOperationSpecForResource (s : LayeredMetadataService) (disk : D) :=
  render_resource_operation order (layered_resolveForPathWithContext s disk).
Definition artifacts_message := "resource defaults artifacts are not configured".
Definition layered_ReadDefaultsArtifact (s : LayeredMetadataService) (disk : D) (logicalPath file : string) : Prelude.result error Content :=
  match writable s with
  | None => Err (NotFound artifacts_message None)
  | Some baseDir => ReadDefaultsArtifact baseDir disk logicalPath file
  end.
Definition layered_WriteDefaultsArtifact (s : LayeredMetadataService) (logicalPath file : string) (content : Content) (disk : D) : option error * D :=
  match writable s with
  | None => (Some (Invalid artifacts_message None), disk)
  | Some baseDir => WriteDefaultsArtifact baseDir logicalPath file content disk
  end.
Definition layered_DeleteDefaultsArtifact (s : LayeredMetadataService) (logicalPath file : string) (disk : D) : option error * D :=
  match writable s with None => (None, disk) | Some baseDir => DeleteDefaultsArtifact baseDir logicalPath file disk end.
Definition layer_children (layer : option string) (disk : D) (logicalPath : string) (children : gset string) : Prelude.result error (gset string) :=
  match layer with
  | None => Ok children
  | Some baseDir => values ← ResolveCollectionChildren baseDir disk logicalPath; Ok (children ∪ list_to_set values)
  end.
Definition layered_ResolveCollectionChildren (s : LayeredMetadataService) (disk : D) (logicalPath : string) : Prelude.result error (list string) :=
  children ← layer_children (shared s) disk logicalPath ∅;
  children ← layer_children (local s) disk logicalPath children;
  Ok (sortedSelectorKeys children).
Definition layered_HasCollectionWildcardChild (s : LayeredMetadataService) (disk : D) (logicalPath : string) : Prelude.result error bool :=
  found ← (match local s with
           | Some baseDir => HasCollectionWildcardChild baseDir disk logicalPath
           | None => Ok false
           end : Prelude.result error bool);
  if (found : bool) then Ok true
  else match shared s with Some baseDir => HasCollectionWildcardChild baseDir disk logicalPath | None => Ok false end.
End services.
