(* ===== verification/RuntimeMetadata.v ===== *)
(** * Payloads under their metadata

    Models [src/metadata/validation/runtime.go], the required attributes of a payload and the
    fields a logical path gives to it, and [src/metadata/render/render.go], the rendering of
    a whole metadata document for a resource. *)
From S2P Require Import Prelude GoText GoTextFacts Faults Paths Value Pointer Descriptor Metadata MetaWire TemplateSyntax IdentityTemplate Identity OperationSpec TemplateScope FsRender.

Section attributes.
Context `{UnicodeTables}.

(** ** Required attributes *)
Fixpoint normalize_attributes (field : string) (pointers attributes : list string) : result error (list string) :=
  match attributes with
  | [] => Ok pointers
  | raw :: attributes =>
      let pointer := trim_space raw in
      if pointer == "" then Err (Invalid ("payload " +:+ field +:+ " contains an empty JSON pointer") None)
      else
        match ParseJSONPointer pointer with
        | Err err => Err (Invalid ("payload " +:+ field +:+ " contains an invalid JSON pointer") (Some err))
        | Ok _ => normalize_attributes field (add_fresh pointers pointer) attributes
        end
  end.
Definition NormalizeAttributePointers (field : string) (attributes : list string) : result error (list string) :=
  normalize_attributes field [] attributes.
Definition EffectiveResourceRequiredAttributes (md : ResourceMetadata) : list string :=
  match RequiredAttributesOf md with Err _ => default [] (RequiredAttributes md) | Ok attributes => attributes end.
Definition appendIdentityTemplatePointers (attributes : list string) (field template : string) : result error (list string) :=
  collect_template field template attributes.
Definition resourceRequiredAttributesForOperation (md : ResourceMetadata) (o : Operation) : result error (list string) :=
  attributes ← appendIdentityTemplatePointers (default [] (RequiredAttributes md)) "resource.alias" (Alias md);
  if negb (o == OperationCreate) then appendIdentityTemplatePointers attributes "resource.id" (ID md) else Ok attributes.
Definition EffectiveResourceRequiredAttributesForOperation (md : ResourceMetadata) (o : Operation) : list string :=
  match resourceRequiredAttributesForOperation md o with Err _ => default [] (RequiredAttributes md) | Ok attributes => attributes end.
Definition EffectiveCreatePayloadRequiredAttributes (md : ResourceMetadata) : result error (list string) :=
  match ((Operations md ≫= (.!! "create")) ≫= Validate) ≫= v_RequiredAttributes with
  | None => resourceRequiredAttributesForOperation md OperationCreate
  | Some attributes => appendIdentityTemplatePointers attributes "resource.alias" (Alias md)
  end.
(** The pointers whose value is absent or nil. *)
Fixpoint missing_attributes (payload : value) (pointers : list string) : result error (list string) :=
  match pointers with
  | [] => Ok []
  | pointer :: pointers =>
      found ← LookupJSONPointer payload pointer;
      missing ← missing_attributes payload pointers;
      Ok (match found with Some v => if is_nil v then pointer :: missing else missing | None => pointer :: missing end)
  end.
Definition ValidateRequiredAttributes (payload : value) (field : string) (attributes : list string) (scope : string) : result error unit :=
  pointers ← NormalizeAttributePointers field attributes;
  if (length pointers =? 0)%nat then Ok tt
  else
    normalizedPayload ← Normalize payload;
    missing ← missing_attributes normalizedPayload pointers;
    if (length missing =? 0)%nat then Ok tt
    else Err (Invalid (scope +:+ " failed: missing required attributes [" +:+ str_join ", " missing +:+ "]") None).
Definition ValidateResourceRequiredAttributes (payload : value) (md : ResourceMetadata) : result error unit :=
  required ← RequiredAttributesOf md;
  ValidateRequiredAttributes payload "resource.requiredAttributes" required "resource payload validation".
Definition ValidateResourceRequiredAttributesForOperation (payload : value) (md : ResourceMetadata) (o : Operation) : result error unit :=
  required ← resourceRequiredAttributesForOperation md o;
  ValidateRequiredAttributes payload "resource.requiredAttributes" required "resource payload validation".

(** ** Fields of a path *)
(** The fields of the path templates, with the keys of the map in the order [order]. *)
Definition path_field (derived : gmap string string) (acc : gmap string value) (key : string) : gmap string value :=
  let trimmedKey := trim_space key in
  let trimmedValue := trim_space (default "" (derived !! key)) in
  if (trimmedKey == "") || (trimmedValue == "") then acc else <[JSONPointerForObjectKey trimmedKey := VString trimmedValue]> acc.
Definition put_if_absent (k s : string) (m : gmap string value) : gmap string value :=
  if s == "" then m else match m !! k with Some _ => m | None => <[k := VString s]> m end.
Definition DerivePathFields (order : map_order) (r : Resource) (md : ResourceMetadata) : gmap string value :=
  let derived := DerivePathTemplateFields (LogicalPath r) md in
  let fields := foldl (path_field derived) ∅ (order derived) in
  let remoteID := trim_space (RemoteID r) in
  let localAlias := trim_space (LocalAlias r) in
  let alias := SimpleAliasPointer md in
  let id := SimpleIDPointer md in
  let separately :=
    let fields := match alias with Ok (Some aliasPointer) => put_if_absent aliasPointer localAlias fields | _ => fields end in
    match id with Ok (Some idPointer) => put_if_absent idPointer remoteID fields | _ => fields end in
  match alias, id with
  | Ok (Some aliasPointer), Ok (Some idPointer) =>
      if aliasPointer == idPointer
      then put_if_absent idPointer (if negb (remoteID == "") then remoteID else localAlias) fields
      else separately
  | _, _ => separately
  end.
Fixpoint merge_fields (derivedFields : gmap string value) (pointers : list string) (merged : value) : value :=
  match pointers with
  | [] => merged
  | pointer :: pointers =>
      merge_fields derivedFields pointers
        (match LookupJSONPointer merged pointer with
         | Ok (Some _) => merged
         | _ => match SetJSONPointerValue merged pointer (default VNil (derivedFields !! pointer)) with
                | Err _ => merged
                | Ok next => next
                end
         end)
  end.
Definition MergePayloadFields (payload : value) (derivedFields : gmap string value) : value :=
  if bool_decide (derivedFields = ∅) then payload
  else
    let baseObject := match payload with
                      | VMap o => o
                      | _ => if is_nil payload then ∅ else {[ "payload" := payload ]}
                      end in
    merge_fields derivedFields (sorted_keys derivedFields) (DeepCopyValue (VMap baseObject)).
End attributes.

(** ** Rendering a document *)
Section render.
Context `{UnicodeTables, TemplateEngine}.
Context (order : map_order).

Definition defaultCollectionPath (logicalPath : string) : string :=
  let trimmed := trim_space logicalPath in
  if (trimmed == "") || (trimmed == "/") then "/"
  else let parent := path_dir trimmed in if (parent == ".") || (parent == "") then "/" else parent.
Definition resolveCollectionPath (rawCollectionPath : string) (scope : object) : result error string :=
  let candidate := trim_space rawCollectionPath in
  let candidate := if candidate == "" then scopeString (scopeValue scope "remoteCollectionPath") else candidate in
  if candidate == "" then Ok ""
  else rendered ← renderTemplateString "remoteCollectionPath" candidate scope; Ok (normalizeRenderedOperationPath rendered).
Definition RenderResourceMetadataWithDescriptor (logicalPath : string) (m : ResourceMetadata) (payload : value) (descriptor : PayloadDescriptor)
  : outcome ResourceMetadata :=
  normalizedPath ← lift (NormalizeLogicalPath logicalPath);
  normalizedPayload ← lift (Normalize payload);
  '(alias, remoteID) ← ResolveAliasAndRemoteID normalizedPath m normalizedPayload;
  let resolvedResource :=
    {| LogicalPath := normalizedPath; CollectionPath := defaultCollectionPath normalizedPath; LocalAlias := alias; RemoteID := remoteID;
       ResolvedRemotePath := ""; Payload := normalizedPayload; Res_PayloadDescriptor := descriptor |} in
  lift (scope ← BuildResourceScope order resolvedResource m;
        let scope := ApplyPayloadTemplateScope scope m (PayloadValue normalizedPayload) descriptor in
        resolvedCollectionPath ← resolveCollectionPath (RemoteCollectionPath m) scope;
        let scope := <["remoteCollectionPath" := VString resolvedCollectionPath]> scope in
        renderedOperations ← render_operations m scope (sorted_keys (default ∅ (Operations m)));
        Ok (with_collection_and_operations m resolvedCollectionPath renderedOperations)).
Definition RenderResourceMetadata (logicalPath : string) (m : ResourceMetadata) (payload : value) : outcome ResourceMetadata :=
  RenderResourceMetadataWithDescriptor logicalPath m payload empty_descriptor.
Definition RenderResourceMetadataWithFormat (logicalPath : string) (m : ResourceMetadata) (payload : value) (payloadType : string)
  : outcome ResourceMetadata :=
  RenderResourceMetadataWithDescriptor logicalPath m payload {| PayloadType := payloadType; MediaType := ""; Extension := "" |}.
End render.
