(* ===== verification/Diff.v ===== *)
(** * Comparing resources

    Models [src/internal/orchestrator/diff.go] and [json_pointer.go]: the transforms
    applied to both sides of a comparison (selected and excluded attributes, jq) and the
    list of differences between the local and the remote payload. The jq engine is a
    parameter: from an expression and a payload, the error of its parsing or compilation
    or the items its iterator yields, errors among them. *)
From S2P Require Import Prelude GoText GoTextFacts GoFloat Faults Value Pointer Codec Metadata.

Class JqEngine := { jq_run : string -> value -> result error (list (result error value)) }.

Record DiffEntry := { ResourcePath : string; d_Path : string; d_Operation : string; Local : value; Remote : value }.

(** ** Pointers *)
Section pointers.
Context `{UnicodeTables}.

Fixpoint normalize_pointers_from (seen : list string) (pointers : list string) : result error (list string) :=
  match pointers with
  | [] => Ok seen
  | rawPointer :: pointers =>
      let pointer := trim_space rawPointer in
      if bool_decide (pointer ∈ seen) then normalize_pointers_from seen pointers
      else _ ← ParseJSONPointer pointer; normalize_pointers_from (seen ++ [pointer]) pointers
  end.
Definition normalizePointers (pointers : list string) : result error (list string) :=
  normalized ← normalize_pointers_from [] pointers; Ok (sort_strings normalized).

(** The loop of [applyFilterPointers]: [inl] when it returns the whole payload. *)
Fixpoint filter_pointers (v : value) (pointers : list string) (acc : value) : result error (value + value) :=
  match pointers with
  | [] => Ok (inr acc)
  | pointer :: pointers =>
      found ← LookupJSONPointer v pointer;
      match found with
      | None => filter_pointers v pointers acc
      | Some foundValue =>
          if pointer == "" then Ok (inl (DeepCopyValue v))
          else acc ← SetJSONPointerValue acc pointer foundValue; filter_pointers v pointers acc
      end
  end.
Definition applyFilterPointers (v : value) (pointers : list string) : result error value :=
  normalizedPointers ← normalizePointers pointers;
  found ← filter_pointers v normalizedPointers VNil;
  match found with
  | inl whole => Ok whole
  | inr acc =>
      if is_nil acc then
        match v with VList _ => Ok (VList []) | VMap _ => Ok (VMap ∅) | _ => Ok VNil end
      else Ok acc
  end.
Fixpoint suppress_pointers (working : value) (pointers : list string) : result error value :=
  match pointers with
  | [] => Ok working
  | pointer :: pointers =>
      if pointer == "" then Ok VNil
      else working ← DeleteJSONPointerValue working pointer; suppress_pointers working pointers
  end.
Definition applySuppressPointers (v : value) (pointers : list string) : result error value :=
  normalizedPointers ← normalizePointers pointers;
  suppress_pointers (DeepCopyValue v) normalizedPointers.
End pointers.

(** ** Transforms *)
Section transforms.
Context `{UnicodeTables, JqEngine}.

(** The items of the iterator up to the first error. *)
Fixpoint jq_results (items : list (result error value)) : result error (list value) :=
  match items with
  | [] => Ok []
  | Err itemErr :: _ => Err (Invalid "failed to evaluate compare jq expression" (Some itemErr))
  | Ok item :: items => rest ← jq_results items; Ok (item :: rest)
  end.
Definition applyCompareJQ (v : value) (expression : string) : result error value :=
  let trimmedExpression := trim_space expression in
  if trimmedExpression == "" then Ok v
  else
    items ← map_err (fun err => Invalid "invalid compare jq expression" (Some err)) (jq_run trimmedExpression v);
    results ← jq_results items;
    match results with
    | [] => Ok VNil
    | [item] => Normalize item
    | _ => Normalize (VList results)
    end.
Definition apply_step (current : value) (step : TransformStep) : result error value :=
  let kind := transformStepType step in
  if kind == transformSelect then applyFilterPointers current (default [] (SelectAttributes step))
  else if kind == transformExclude then applySuppressPointers current (default [] (ExcludeAttributes step))
  else if kind == transformJQ then applyCompareJQ current (JQExpression step)
  else Ok current.
Fixpoint apply_steps (current : value) (steps : list TransformStep) : result error value :=
  match steps with
  | [] => Ok current
  | step :: steps => current ← apply_step current step; apply_steps current steps
  end.
Definition applyCompareTransforms (v : value) (operationSpec : OperationSpec) : result error value :=
  let steps := default [] (OrderedTransformSteps operationSpec) in
  if length steps =? 0 then Normalize v
  else
    current ← Normalize v;
    current ← apply_steps current steps;
    Normalize current.
End transforms.

(** ** Differences *)
Definition scalarsNumericallyEqual (local remote : value) : bool :=
  match local, remote with
  | VInt64 z, VFloat64 f | VFloat64 f, VInt64 z => float_eq (float64_of_Z z) f
  | _, _ => false
  end.

Section diff.
Variable logicalPath : string.
Definition appendDiffEntry (pointer operation : string) (local remote : value) : list DiffEntry :=
  [{| ResourcePath := logicalPath; d_Path := pointer; d_Operation := operation; Local := local; Remote := remote |}].

(** The entries of a key and of an index; [l] is the local member with the function that
    compares it with the remote one at a pointer. *)
Definition diff_key (l : option (value * (string -> value -> list DiffEntry))) (r : option value) (pointer key : string) : list DiffEntry :=
  let nextPointer := pointer +:+ "/" +:+ EscapeJSONPointerToken key in
  match l, r with
  | None, None => []
  | None, Some remoteValue => appendDiffEntry nextPointer "add" VNil remoteValue
  | Some (localValue, _), None => appendDiffEntry nextPointer "remove" localValue VNil
  | Some (_, collect), Some remoteValue => collect nextPointer remoteValue
  end.
Definition diff_index (l : option (value * (string -> value -> list DiffEntry))) (r : option value) (pointer : string) (idx : nat) : list DiffEntry :=
  let nextPointer := pointer +:+ "/" +:+ itoa (Z.of_nat idx) in
  match l, r with
  | None, None => []
  | None, Some remoteValue => appendDiffEntry nextPointer "add" VNil remoteValue
  | Some (localValue, _), None => appendDiffEntry nextPointer "remove" localValue VNil
  | Some (_, collect), Some remoteValue => collect nextPointer remoteValue
  end.
Definition object_keys {A B} (l : gmap string A) (r : gmap string B) : list string :=
  sort_strings ((map_to_list l).*1 ++ filter (fun key => l !! key = None) (map_to_list r).*1).

Fixpoint collectDiffEntries (local : value) (pointer : string) (remote : value) : list DiffEntry :=
  if deep_equal local remote then []
  else if IsBinaryValue local || IsBinaryValue remote then appendDiffEntry "" "replace" local remote
  else
    match local, remote with
    | VMap localObject, VMap remoteObject =>
        let members := (fun v => (v, collectDiffEntries v)) <$> localObject in
        flat_map (fun key => diff_key (members !! key) (remoteObject !! key) pointer key)
          (object_keys localObject remoteObject)
    | VList localArray, VList remoteArray =>
        let members := map (fun v => (v, collectDiffEntries v)) localArray in
        flat_map (fun idx => diff_index (members !! idx) (remoteArray !! idx) pointer idx)
          (seq 0 (length localArray `max` length remoteArray))
    | _, _ =>
        if scalarsNumericallyEqual local remote then []
        else appendDiffEntry pointer "replace" local remote
    end.
End diff.
Definition buildDiffEntries (logicalPath : string) (local remote : value) : list DiffEntry :=
  collectDiffEntries logicalPath local "" remote.

(** ** Findings on concrete payloads *)
(** Excluding two elements of an array excludes the first and, the array having been
    shifted by its deletion, the one after the second. *)
Example suppress_shifts_indexes (T : UnicodeTables := latin1_tables) :
  applySuppressPointers (VMap {[ "items" := VList [VInt64 1; VInt64 2; VInt64 3] ]}) ["/items/0"; "/items/1"]
  = Ok (VMap {[ "items" := VList [VInt64 2] ]}).
Proof. vm_compute. reflexivity. Qed.
(** Integers beyond 2^53 are compared after rounding: 2^53 + 1 equals the float 2^53. *)
Example rounded_integers_equal :
  scalarsNumericallyEqual (VInt64 9007199254740993) (VFloat64 (float64_of_Z 9007199254740992)) = true
  /\ buildDiffEntries "/r" (VInt64 9007199254740993) (VFloat64 (float64_of_Z 9007199254740992)) = [].
Proof. split; vm_compute; reflexivity. Qed.

(** ** Equal payloads *)

(** Equality of payloads up to the integer or float representation of numbers. *)
Inductive same : value -> value -> Prop :=
| same_equal v w : deep_equal v w = true -> same v w
| same_number v w : scalarsNumericallyEqual v w = true -> same v w
| same_object l r : (forall k, option_Forall2 same (l !! k) (r !! k)) -> same (VMap l) (VMap r)
| same_array l r : Forall2 same l r -> same (VList l) (VList r).

Lemma flat_map_nil {A B} (f : A -> list B) l : flat_map f l = [] <-> forall a, a ∈ l -> f a = [].
Proof.
  induction l as [|a l IH]; cbn [flat_map].
  - split; [|done]. intros _ a Ha. by apply not_elem_of_nil in Ha.
  - rewrite app_nil, IH. split.
    + intros [H1 H2] b [->|Hb]%elem_of_cons; auto.
    + intros Hall. split; [apply Hall, list_elem_of_here|]. intros b Hb. by apply Hall, list_elem_of_further.
Qed.
Lemma elem_of_flat_map {A B} (f : A -> list B) l b : b ∈ flat_map f l <-> exists a, a ∈ l /\ b ∈ f a.
Proof. rewrite !list_elem_of_In, in_flat_map. setoid_rewrite list_elem_of_In. done. Qed.
Lemma elem_of_object_keys {A B} (l : gmap string A) (r : gmap string B) k :
  k ∈ object_keys l r <-> is_Some (l !! k) \/ is_Some (r !! k).
Proof.
  unfold object_keys. rewrite elem_of_sort_strings, elem_of_app, list_elem_of_filter.
  assert (forall C (m : gmap string C), k ∈ (map_to_list m).*1 <-> is_Some (m !! k)) as Hk.
  { intros C m. rewrite <-elem_of_sorted_keys. unfold sorted_keys. by rewrite elem_of_sort_strings. }
  rewrite !Hk. split; [tauto|]. intros [?|Hr]; [by left|]. destruct (l !! k) eqn:E; [left; by eexists|by right].
Qed.

Lemma collect_unfold logicalPath local pointer remote :
  collectDiffEntries logicalPath local pointer remote =
  if deep_equal local remote then []
  else if IsBinaryValue local || IsBinaryValue remote then appendDiffEntry logicalPath "" "replace" local remote
  else
    match local, remote with
    | VMap l, VMap r =>
        flat_map (fun key => diff_key logicalPath (((fun v => (v, collectDiffEntries logicalPath v)) <$> l) !! key) (r !! key) pointer key)
          (object_keys l r)
    | VList l, VList r =>
        flat_map (fun idx => diff_index logicalPath (map (fun v => (v, collectDiffEntries logicalPath v)) l !! idx) (r !! idx) pointer idx)
          (seq 0 (length l `max` length r))
    | _, _ => if scalarsNumericallyEqual local remote then [] else appendDiffEntry logicalPath pointer "replace" local remote
    end.
Proof. by destruct local. Qed.

#[local] Arguments collectDiffEntries : simpl never.

Section empty.
Variable logicalPath : string.
Local Abbreviation collect := (collectDiffEntries logicalPath).

Lemma collect_map_nil l r pointer :
  flat_map (fun key => diff_key logicalPath (((fun v => (v, collect v)) <$> l) !! key) (r !! key) pointer key) (object_keys l r) = []
  <-> forall k, option_Forall2 (fun v w => collect v (pointer +:+ "/" +:+ EscapeJSONPointerToken k) w = []) (l !! k) (r !! k).
Proof.
  rewrite flat_map_nil. split.
  - intros Hall k. specialize (Hall k). rewrite elem_of_object_keys, lookup_fmap in Hall.
    destruct (l !! k) as [v|], (r !! k) as [w|]; cbn in Hall; [constructor| | |constructor].
    + apply Hall. by left; eexists.
    + assert (is_Some (Some v) \/ is_Some (None (A := value))) as Hs by (left; by eexists). by apply Hall in Hs.
    + assert (is_Some (None (A := value)) \/ is_Some (Some w)) as Hs by (right; by eexists). by apply Hall in Hs.
  - intros Hall k _. specialize (Hall k). rewrite lookup_fmap. by destruct Hall.
Qed.
Lemma collect_list_nil l r pointer :
  flat_map (fun idx => diff_index logicalPath (map (fun v => (v, collect v)) l !! idx) (r !! idx) pointer idx)
    (seq 0 (length l `max` length r)) = []
  <-> forall i, option_Forall2 (fun v w => collect v (pointer +:+ "/" +:+ itoa (Z.of_nat i)) w = []) (l !! i) (r !! i).
Proof.
  rewrite flat_map_nil. change (map (fun v => (v, collect v)) l) with ((fun v => (v, collect v)) <$> l). split.
  - intros Hall i. specialize (Hall i). rewrite elem_of_seq, list_lookup_fmap in Hall.
    destruct (l !! i) as [v|] eqn:El, (r !! i) as [w|] eqn:Er; cbn in Hall; [constructor| | |constructor].
    + apply Hall. apply lookup_lt_Some in El. lia.
    + apply lookup_lt_Some in El. assert (0 <= i < 0 + (length l `max` length r)) as Hs by lia. by apply Hall in Hs.
    + apply lookup_lt_Some in Er. assert (0 <= i < 0 + (length l `max` length r)) as Hs by lia. by apply Hall in Hs.
  - intros Hall i _. specialize (Hall i). rewrite list_lookup_fmap. by destruct Hall.
Qed.

Lemma collect_nil local : forall pointer remote, collect local pointer remote = [] <-> same local remote.
Proof.
  assert (forall v w pointer, deep_equal v w = true -> collect v pointer w = []) as Heq.
  { intros v w pointer He. by rewrite collect_unfold, He. }
  assert (forall v w pointer, scalarsNumericallyEqual v w = true -> collect v pointer w = []) as Hnum.
  { intros v w pointer Hs. rewrite collect_unfold. destruct (deep_equal v w); [done|].
    destruct v, w; try done; cbn [IsBinaryValue orb]; by rewrite Hs. }
  assert (forall v w pointer, (forall l r, v = VMap l -> w <> VMap r) -> (forall l r, v = VList l -> w <> VList r) ->
    collect v pointer w = [] <-> same v w) as Hleaf.
  { intros v w pointer Hm Hl. split.
    - rewrite collect_unfold. destruct (deep_equal v w) eqn:E; [intros _; by apply same_equal|].
      destruct (_ || _); [done|].
      destruct v, w; try (destruct (scalarsNumericallyEqual _ _) eqn:Es; [intros _; by apply same_number|done]);
        try (by edestruct Hl); by edestruct Hm.
    - intros Hs. inversion Hs; subst; auto; [by edestruct Hm|by edestruct Hl]. }
  value_ind local; intros pointer remote; try (apply Hleaf; done).
  - destruct remote as [| | | | | | | | | | | |r| | | | |]; try (apply Hleaf; done). rewrite Forall_forall in IH.
    rewrite collect_unfold. destruct (deep_equal _ _) eqn:E; [split; [intros _; by apply same_equal|done]|].
    cbn [IsBinaryValue orb]. rewrite collect_list_nil. split.
    + intros Hall. apply same_array, Forall2_lookup.
      intros i. specialize (Hall i). destruct (l !! i) as [v|] eqn:El; inversion Hall as [? w Hc|]; subst; constructor.
      apply list_elem_of_lookup_2 in El. by eapply IH.
    + intros Hs. inversion Hs; subst; try (cbn in *; congruence).
      match goal with H : Forall2 same _ _ |- _ => rename H into Hall end.
      intros i. rewrite Forall2_lookup in Hall. specialize (Hall i).
      destruct (l !! i) as [v|] eqn:El; inversion Hall as [? w Hc|]; subst; constructor.
      apply list_elem_of_lookup_2 in El. by apply IH.
  - destruct remote as [| | | | | | | | | | | | |r| | | |]; try (apply Hleaf; done).
    rewrite collect_unfold. destruct (deep_equal _ _) eqn:E; [split; [intros _; by apply same_equal|done]|].
    cbn [IsBinaryValue orb]. rewrite collect_map_nil. split.
    + intros Hall. apply same_object.
      intros k. specialize (Hall k). destruct (m !! k) as [v|] eqn:El; inversion Hall as [? w Hc|]; subst; constructor.
      by eapply (IH k).
    + intros Hs. inversion Hs; subst; try (cbn in *; congruence).
      match goal with H : forall k, option_Forall2 same _ _ |- _ => rename H into Hall end.
      intros k. specialize (Hall k). destruct (m !! k) as [v|] eqn:El; inversion Hall as [? w Hc|]; subst; constructor.
      by apply (IH k).
Qed.
End empty.

(** ** Where differences are *)
Inductive step := Key (k : string) | Index (i : nat).
Definition step_text (s : step) : string :=
  match s with Key k => "/" +:+ EscapeJSONPointerToken k | Index i => "/" +:+ itoa (Z.of_nat i) end.
Definition steps_text (ts : list step) : string := foldr (fun s t => step_text s +:+ t) "" ts.
Fixpoint follow (v : value) (ts : list step) : option value :=
  match ts with
  | [] => Some v
  | Key k :: ts => match v with VMap m => w ← m !! k; follow w ts | _ => None end
  | Index i :: ts => match v with VList l => w ← l !! i; follow w ts | _ => None end
  end.
(** What an entry says of the two payloads at the steps [ts]. *)
Definition entry_at (local remote : value) (ts : list step) (e : DiffEntry) : Prop :=
  (d_Operation e = "add" /\ Local e = VNil /\ follow local ts = None /\ follow remote ts = Some (Remote e))
  \/ (d_Operation e = "remove" /\ Remote e = VNil /\ follow local ts = Some (Local e) /\ follow remote ts = None)
  \/ (d_Operation e = "replace" /\ follow local ts = Some (Local e) /\ follow remote ts = Some (Remote e)
      /\ ~ same (Local e) (Remote e)).
(** Entries that replace a binary value carry the root path. *)
Definition entry_path (ts : list step) (pointer : string) (e : DiffEntry) : string :=
  if (d_Operation e == "replace") && (IsBinaryValue (Local e) || IsBinaryValue (Remote e)) then "" else pointer +:+ steps_text ts.

Lemma entry_at_key l r k v w ts e : l !! k = Some v -> r !! k = Some w ->
  entry_at v w ts e -> entry_at (VMap l) (VMap r) (Key k :: ts) e.
Proof. intros Hl Hr. unfold entry_at. cbn [follow]. by rewrite Hl, Hr. Qed.
Lemma entry_at_index l r i v w ts e : l !! i = Some v -> r !! i = Some w ->
  entry_at v w ts e -> entry_at (VList l) (VList r) (Index i :: ts) e.
Proof. intros Hl Hr. unfold entry_at. cbn [follow]. by rewrite Hl, Hr. Qed.
Lemma entry_path_step s ts pointer e : entry_path ts (pointer +:+ step_text s) e = entry_path (s :: ts) pointer e.
Proof. unfold entry_path. cbn [steps_text foldr]. by rewrite str_app_assoc. Qed.

Section located.
Variable logicalPath : string.
Local Abbreviation collect := (collectDiffEntries logicalPath).

Definition located_in (local remote : value) (pointer : string) (e : DiffEntry) : Prop :=
  ResourcePath e = logicalPath /\ exists ts, entry_at local remote ts e /\ d_Path e = entry_path ts pointer e.
Lemma located_leaf v w pointer e :
  (forall l r, v = VMap l -> w <> VMap r) -> (forall l r, v = VList l -> w <> VList r) ->
  e ∈ collect v pointer w -> located_in v w pointer e.
Proof.
  intros Hm Hl. rewrite collect_unfold. destruct (deep_equal v w) eqn:E; [by intros ?%not_elem_of_nil|].
  assert (scalarsNumericallyEqual v w = false -> ~ same v w) as Hns.
  { intros Hn Hs. inversion Hs; subst; try congruence; [by edestruct Hm|by edestruct Hl]. }
  destruct (_ || _) eqn:Eb.
  - intros ->%list_elem_of_singleton. split; [done|]. exists []. split.
    + right. right. split_and!; try done. apply Hns. by destruct v, w.
    + unfold entry_path. cbn. by rewrite Eb.
  - assert (e ∈ (if scalarsNumericallyEqual v w then [] else appendDiffEntry logicalPath pointer "replace" v w) ->
      located_in v w pointer e) as Hs.
    { destruct (scalarsNumericallyEqual v w) eqn:En; [by intros ?%not_elem_of_nil|].
      intros ->%list_elem_of_singleton. split; [done|]. exists []. split.
      - right. right. split_and!; try done. by apply Hns.
      - unfold entry_path. cbn. rewrite Eb. by rewrite app_empty_r. }
    destruct v, w; try exact Hs; intros _; first [by edestruct Hm|by edestruct Hl].
Qed.
Lemma collect_located local : forall pointer remote e, e ∈ collect local pointer remote -> located_in local remote pointer e.
Proof.
  value_ind local; intros pointer remote e; try (apply located_leaf; done).
  - destruct remote as [| | | | | | | | | | | |r| | | | |]; try (apply located_leaf; done). rewrite Forall_forall in IH.
    rewrite collect_unfold. destruct (deep_equal _ _); [by intros ?%not_elem_of_nil|]. cbn [IsBinaryValue orb].
    intros (i & _ & He)%elem_of_flat_map. change (map (fun v => (v, collect v)) l) with ((fun v => (v, collect v)) <$> l) in He.
    rewrite list_lookup_fmap in He. unfold diff_index in He.
    change (pointer +:+ "/" +:+ itoa (Z.of_nat i)) with (pointer +:+ step_text (Index i)) in He.
    destruct (l !! i) as [v|] eqn:El, (r !! i) as [w|] eqn:Er; cbn [fmap option_fmap option_map] in He.
    + apply IH in He as [Hp (ts & Hat & Hpath)]; [|by apply list_elem_of_lookup_2 in El]. split; [done|].
      exists (Index i :: ts). split; [by eapply entry_at_index|]. by rewrite Hpath, entry_path_step.
    + apply list_elem_of_singleton in He as ->. split; [done|]. exists [Index i]. split.
      * right. left. cbn [follow d_Operation Local Remote]. by rewrite El, Er.
      * unfold entry_path. cbn [steps_text foldr]. eqb. by rewrite app_empty_r.
    + apply list_elem_of_singleton in He as ->. split; [done|]. exists [Index i]. split.
      * left. cbn [follow d_Operation Local Remote]. by rewrite El, Er.
      * unfold entry_path. cbn [steps_text foldr]. eqb. by rewrite app_empty_r.
    + by apply not_elem_of_nil in He.
  - destruct remote as [| | | | | | | | | | | | |r| | | |]; try (apply located_leaf; done).
    rewrite collect_unfold. destruct (deep_equal _ _); [by intros ?%not_elem_of_nil|]. cbn [IsBinaryValue orb].
    intros (k & _ & He)%elem_of_flat_map. rewrite lookup_fmap in He. unfold diff_key in He.
    change (pointer +:+ "/" +:+ EscapeJSONPointerToken k) with (pointer +:+ step_text (Key k)) in He.
    destruct (m !! k) as [v|] eqn:El, (r !! k) as [w|] eqn:Er; cbn [fmap option_fmap option_map] in He.
    + apply (IH k v El) in He as [Hp (ts & Hat & Hpath)]. split; [done|].
      exists (Key k :: ts). split; [by eapply entry_at_key|]. by rewrite Hpath, entry_path_step.
    + apply list_elem_of_singleton in He as ->. split; [done|]. exists [Key k]. split.
      * right. left. cbn [follow d_Operation Local Remote]. by rewrite El, Er.
      * unfold entry_path. cbn [steps_text foldr]. eqb. by rewrite app_empty_r.
    + apply list_elem_of_singleton in He as ->. split; [done|]. exists [Key k]. split.
      * left. cbn [follow d_Operation Local Remote]. by rewrite El, Er.
      * unfold entry_path. cbn [steps_text foldr]. eqb. by rewrite app_empty_r.
    + by apply not_elem_of_nil in He.
Qed.
End located.

(** [C30] A comparison reports no difference exactly when the two payloads are the same: equal
    scalars, or an integer and the float it is rounded to (so that beyond 2^53 an integer is
    taken for the same as a float of another value: see [rounded_integers_equal]), and objects
    and arrays with the same members, recursively. *)
Theorem diff_empty_iff_same logicalPath local remote :
  buildDiffEntries logicalPath local remote = [] <-> same local remote.
Proof. apply collect_nil. Qed.

(** Every difference that is reported is there: an entry leads, by keys and indexes,
    to a member that only the remote payload has (add), that only the local one has
    (remove), or that is not the same in the two (replace), and its path spells those
    steps as a JSON pointer, but for the replacement of binary values, whose path is
    always that of the whole payload. *)
Theorem diff_entries_located logicalPath local remote e :
  e ∈ buildDiffEntries logicalPath local remote ->
  ResourcePath e = logicalPath /\ exists ts, entry_at local remote ts e /\ d_Path e = entry_path ts "" e.
Proof. apply collect_located. Qed.

Definition diff_local : value := VMap {[ "a/b" := VList [VInt64 1; VInt64 2]; "c" := VBool true ]}.
Definition diff_remote : value := VMap {[ "a/b" := VList [VInt64 1; VInt64 3]; "c" := VBool true ]}.
Lemma diff_entries_located_witness :
  exists e ts, buildDiffEntries "/r" diff_local diff_remote = [e] /\ d_Path e = "/a~1b/1"
  /\ entry_at diff_local diff_remote ts e.
Proof.
  destruct (buildDiffEntries "/r" diff_local diff_remote) as [|e rest] eqn:E; [vm_compute in E; discriminate|].
  assert (e ∈ buildDiffEntries "/r" diff_local diff_remote) as He by (rewrite E; apply list_elem_of_here).
  destruct (diff_entries_located "/r" diff_local diff_remote e He) as (_ & ts & Hat & _).
  exists e, ts. split; [vm_compute in E; injection E as <- <-; reflexivity|]. split; [|exact Hat].
  vm_compute in E. injection E as <- _. reflexivity.
Defined.
(** A nested binary value that changes is reported at the root of the payload. *)
Example binary_path_lost :
  d_Path <$> buildDiffEntries "/r" (VMap {[ "cert" := VBinary "a" ]}) (VMap {[ "cert" := VBinary "b" ]}) = [""].
Proof. vm_compute. reflexivity. Qed.
