(* ===== verification/SyncPlan.v ===== *)
(** * Sync plans

    Models [src/internal/operator/controllers/syncpolicy_plan.go]: what a reconciliation
    of a sync policy applies and prunes, from the files changed in the repository since
    the revision last applied. The changes between two revisions come from the git
    library and are a parameter. The paths of the scopes come first: the functions of
    [src/api/v1alpha1/common_types.go] and their wrappers in [util.go] that normalize a path
    leniently, tell whether two scopes overlap and whether a path is below another. *)
From S2P Require Import Prelude GoText GoTextFacts Faults Paths.

(** ** Paths of the scopes *)
Definition normalizePath (raw : string) : result error string :=
  match ParseRawPathWithOptions true raw with
  | Err err => if trim_space raw == "" then Err (errorf "path is required") else Err err
  | Ok parsedPath => NormalizeLogicalPath (Normalized parsedPath)
  end.
Definition NormalizeOverlapPath (raw : string) : string :=
  match normalizePath raw with Ok normalized => normalized | Err _ => "" end.
Definition HasPathOverlap (a b : string) : bool :=
  let left_ := NormalizeOverlapPath a in
  let right_ := NormalizeOverlapPath b in
  if (left_ == "") || (right_ == "") then false
  else match HasLogicalPathOverlap left_ right_ with Ok overlap => overlap | Err _ => false end.
Definition normalizeOverlapPath : string -> string := NormalizeOverlapPath.
Definition hasPathOverlap : string -> string -> bool := HasPathOverlap.
Definition stringSet (values : list string) : list string :=
  sort_strings (remove_dups (filter (fun s => s <> "") (map trim_space values))).

Lemma elem_of_stringSet values s : s ∈ stringSet values <-> s <> "" /\ exists v, v ∈ values /\ trim_space v = s.
Proof.
  unfold stringSet. rewrite elem_of_sort_strings, elem_of_remove_dups, list_elem_of_filter.
  change (map trim_space values) with (trim_space <$> values). rewrite list_elem_of_fmap.
  split; [intros (? & v & -> & ?); split; [done|by exists v]|intros (? & v & ? & <-); split; [done|by exists v]].
Qed.
Lemma stringSet_NoDup values : NoDup (stringSet values).
Proof. apply sort_strings_NoDup, NoDup_remove_dups. Qed.

Definition pathHasPrefix (path prefix : string) : bool :=
  let normalizedPath := normalizeOverlapPath path in
  let normalizedPrefix := normalizeOverlapPath prefix in
  if normalizedPrefix == "/" then true
  else if normalizedPath == normalizedPrefix then true
  else has_prefix normalizedPath (normalizedPrefix +:+ "/").

(** A path that normalization leaves alone. *)
Definition settled (p : string) : Prop := normalizeOverlapPath p = p /\ p <> "".
Lemma NormalizeOverlapPath_canonical p q : NormalizeOverlapPath p = q -> q <> "" ->
  exists l, Forall clean_segment l /\ q = path_of l.
Proof.
  unfold NormalizeOverlapPath, normalizePath. intros <-.
  destruct (ParseRawPathWithOptions true p) as [parsed|]; [|by destruct (trim_space p == "")].
  destruct (NormalizeLogicalPath _) as [n|] eqn:E; [|done]. intros _. by eapply NormalizeLogicalPath_canonical.
Qed.
Lemma settled_canonical p : settled p -> exists l, Forall clean_segment l /\ p = path_of l.
Proof. intros [Hp Hne]. by eapply NormalizeOverlapPath_canonical. Qed.
Lemma pathHasPrefix_settled p q : settled p -> settled q ->
  pathHasPrefix p q = true <-> q = "/" \/ p = q \/ exists t, p = q +:+ "/" +:+ t.
Proof.
  intros [Hp _] [Hq _]. unfold pathHasPrefix. rewrite Hp, Hq. case_bool_decide; [tauto|]. case_bool_decide; [tauto|].
  rewrite has_prefix_spec. split; [intros [t ->]; right; right; exists t; by rewrite str_app_assoc|].
  intros [?|[?|[t ->]]]; [done|done|]. exists t. by rewrite str_app_assoc.
Qed.
(** A path below another, and different from it, is longer. *)
Lemma pathHasPrefix_longer p q : settled p -> settled q -> pathHasPrefix p q = true -> p <> q ->
  (String.length q < String.length p)%nat.
Proof.
  intros Hp Hq Hpre Hne. rewrite (pathHasPrefix_settled p q Hp Hq) in Hpre. destruct Hpre as [->|[?|[t ->]]]; [|done|].
  - apply settled_canonical in Hp as (l & Hl & ->). unfold path_of in *. rewrite length_str_app. cbn [String.length].
    destruct (str_join "/" l) as [|c s] eqn:E; [by rewrite app_empty_r in Hne|]. cbn. lia.
  - rewrite !length_str_app. cbn. lia.
Qed.

(** ** Plans *)
Inductive syncMode := syncModeFull | syncModeIncremental.
Record syncApplyTarget := { Path : string; Recursive : bool }.
#[export] Instance syncApplyTarget_eq_dec : EqDecision syncApplyTarget.
Proof. solve_decision. Defined.
Record syncExecutionPlan := { p_Mode : syncMode; ApplyTargets : list syncApplyTarget; PruneTargets : list string }.
Record incrementalSyncPlan := { applyTargets : list syncApplyTarget; pruneTargets : list string; requiresFull : bool }.
Inductive repositoryPathKind :=
| repositoryPathKindNone | repositoryPathKindPayload | repositoryPathKindResourceMetadata
| repositoryPathKindCollectionMetadata | repositoryPathKindUnknownConfig.

(** The changes of the git library: what [change.Action()] returns, and the two names. *)
Inductive action := Insert | Delete | Modify | OtherAction.
Record change := { Action : result error action; From : string; To : string }.

Section plan.
Context `{UnicodeTables}.

Definition supportsDefaultsArtifactExtension (ext : string) : bool :=
  bool_decide (to_lower (trim_space ext) ∈ [".json"; ".yaml"; ".yml"; ".properties"]).
(** The collection whose [_] directory is [dir]. *)
Definition collection_of (dir : string) : string :=
  let collectionDir := trim_bytes is_slash (path_dir dir) in
  if (collectionDir == ".") || (collectionDir == "") then "/" else "/" +:+ collectionDir.
(** A metadata or defaults file: of the collection in its [_] directory, else of the resource. *)
Definition metadata_kind (dir : string) : string * repositoryPathKind :=
  if path_base dir == "_" then (collection_of dir, repositoryPathKindCollectionMetadata)
  else if dir == "" then ("", repositoryPathKindUnknownConfig)
  else ("/" +:+ dir, repositoryPathKindResourceMetadata).
Definition defaults_kind (ext dir : string) : string * repositoryPathKind :=
  if negb (supportsDefaultsArtifactExtension ext) then ("", repositoryPathKindUnknownConfig)
  else if dir == "" then ("", repositoryPathKindUnknownConfig)
  else if path_base dir == "_" then (collection_of dir, repositoryPathKindCollectionMetadata)
  else ("/" +:+ dir, repositoryPathKindResourceMetadata).
Definition classifyRepositoryPath (raw : string) : string * repositoryPathKind :=
  let v := trim_bytes is_slash (trim_space raw) in
  if v == "" then ("", repositoryPathKindNone)
  else
    let ext := to_lower (path_ext v) in
    if negb (bool_decide (ext ∈ [".json"; ".yaml"; ".yml"; ".properties"; ".ini"])) then ("", repositoryPathKindNone)
    else
      let base := trim_suffix (path_base v) ext in
      let dir := trim_bytes is_slash (path_dir v) in
      let dir := if dir == "." then "" else dir in
      if contains ("/" +:+ v) "/_/" && negb (base == "metadata") && negb (base == "defaults") && negb (has_prefix base "defaults-")
      then ("", repositoryPathKindUnknownConfig)
      else if base == "resource" then
        if dir == "" then ("", repositoryPathKindUnknownConfig) else ("/" +:+ dir, repositoryPathKindPayload)
      else if base == "defaults" then defaults_kind ext dir
      else if base == "metadata" then metadata_kind dir
      else if has_prefix base "defaults-" then defaults_kind ext dir
      else if path_base dir == "_" then (collection_of dir, repositoryPathKindCollectionMetadata)
      else if dir == "" then ("", repositoryPathKindUnknownConfig)
      else ("/" +:+ trim_bytes is_slash (trim_suffix v ext), repositoryPathKindPayload).

Definition scopedCollectionMetadataTarget (collectionPath sourcePath : string) : option string :=
  if negb (hasPathOverlap collectionPath sourcePath) then None
  else
    let normalizedCollection := normalizeOverlapPath collectionPath in
    let normalizedSource := normalizeOverlapPath sourcePath in
    if pathHasPrefix normalizedSource normalizedCollection then Some normalizedSource else Some normalizedCollection.
Definition isPathRelevantToScope (logicalPath rawRepositoryPath sourcePath : string) : bool :=
  if negb (logicalPath == "") then hasPathOverlap logicalPath sourcePath
  else
    let sourcePrefix := trim_bytes is_slash (trim_prefix (normalizeOverlapPath sourcePath) "/") in
    let repoPath := trim_bytes is_slash (trim_space rawRepositoryPath) in
    if sourcePrefix == "" then negb (repoPath == "")
    else if repoPath == sourcePrefix then true
    else has_prefix repoPath (sourcePrefix +:+ "/").

Definition add_apply (plan : incrementalSyncPlan) (t : syncApplyTarget) : incrementalSyncPlan :=
  {| applyTargets := applyTargets plan ++ [t]; pruneTargets := pruneTargets plan; requiresFull := requiresFull plan |}.
Definition add_prune (plan : incrementalSyncPlan) (p : string) : incrementalSyncPlan :=
  {| applyTargets := applyTargets plan; pruneTargets := pruneTargets plan ++ [p]; requiresFull := requiresFull plan |}.
Definition set_full (plan : incrementalSyncPlan) : incrementalSyncPlan :=
  {| applyTargets := applyTargets plan; pruneTargets := pruneTargets plan; requiresFull := true |}.
Definition accumulateAddedPath (plan : incrementalSyncPlan) (changedPath sourcePath : string) : incrementalSyncPlan :=
  let '(logicalPath, kind) := classifyRepositoryPath changedPath in
  match kind with
  | repositoryPathKindNone => plan
  | repositoryPathKindUnknownConfig =>
      if isPathRelevantToScope logicalPath changedPath sourcePath then set_full plan else plan
  | repositoryPathKindPayload | repositoryPathKindResourceMetadata =>
      if negb (hasPathOverlap logicalPath sourcePath) then plan
      else add_apply plan {| Path := logicalPath; Recursive := false |}
  | repositoryPathKindCollectionMetadata =>
      match scopedCollectionMetadataTarget logicalPath sourcePath with
      | None => plan
      | Some targetPath => add_apply plan {| Path := targetPath; Recursive := true |}
      end
  end.
Definition accumulateRemovedPath (plan : incrementalSyncPlan) (changedPath sourcePath : string) : incrementalSyncPlan :=
  let '(logicalPath, kind) := classifyRepositoryPath changedPath in
  match kind with
  | repositoryPathKindNone => plan
  | repositoryPathKindUnknownConfig =>
      if isPathRelevantToScope logicalPath changedPath sourcePath then set_full plan else plan
  | repositoryPathKindPayload => if hasPathOverlap logicalPath sourcePath then add_prune plan logicalPath else plan
  | repositoryPathKindResourceMetadata | repositoryPathKindCollectionMetadata => accumulateAddedPath plan changedPath sourcePath
  end.

Definition accumulate (plan : incrementalSyncPlan) (act : action) (c : change) (source : string) : incrementalSyncPlan :=
  match act with
  | Insert => accumulateAddedPath plan (To c) source
  | Delete => accumulateRemovedPath plan (From c) source
  | Modify =>
      let plan := accumulateAddedPath plan (To c) source in
      if negb (From c == To c) then accumulateRemovedPath plan (From c) source else plan
  | OtherAction => set_full plan
  end.
Fixpoint accumulate_changes (plan : incrementalSyncPlan) (changes : list change) (source : string) : result error incrementalSyncPlan :=
  match changes with
  | [] => Ok plan
  | c :: changes =>
      act ← Action c;
      let plan := accumulate plan act c source in
      if requiresFull plan then Ok plan else accumulate_changes plan changes source
  end.

Definition target_le (t u : syncApplyTarget) : Prop :=
  (String.length (Path t) < String.length (Path u))%nat
  \/ (String.length (Path t) = String.length (Path u)
      /\ ((Recursive t = Recursive u /\ String.le (Path t) (Path u)) \/ (Recursive t = true /\ Recursive u = false))).
#[local] Instance target_le_dec : RelDecision target_le.
Proof. intros t u. unfold target_le. apply _. Defined.

(** [pathToRecursive]: the paths of the targets, recursive when one of them is. *)
Definition add_target (m : gmap string bool) (t : syncApplyTarget) : gmap string bool :=
  let path := normalizeOverlapPath (Path t) in
  <[path := default false (m !! path) || Recursive t]> m.
Fixpoint keep_uncovered (filtered candidates : list syncApplyTarget) : list syncApplyTarget :=
  match candidates with
  | [] => filtered
  | candidate :: candidates =>
      if existsb (fun kept => Recursive kept && pathHasPrefix (Path candidate) (Path kept)) filtered
      then keep_uncovered filtered candidates
      else keep_uncovered (filtered ++ [candidate]) candidates
  end.
Definition normalized_targets (targets : list syncApplyTarget) : list syncApplyTarget :=
  merge_sort target_le ((fun '(path, recursive) => {| Path := path; Recursive := recursive |}) <$> map_to_list (foldl add_target ∅ targets)).
Definition normalizeSyncApplyTargets (targets : list syncApplyTarget) : list syncApplyTarget :=
  match targets with
  | [] => []
  | _ => keep_uncovered [] (normalized_targets targets)
  end.
Definition filterPrunedApplyTargets (targets : list syncApplyTarget) (pruneTargets : list string) : list syncApplyTarget :=
  if (length targets =? 0)%nat || (length pruneTargets =? 0)%nat then targets
  else filter (fun t => ~ (normalizeOverlapPath (Path t) ∈ map normalizeOverlapPath pruneTargets /\ Recursive t = false)) targets.

(** The fields of the policy that are read. *)
Record sync_policy := {
  SourcePath : string; SourceRecursive : option bool;
  Generation : Z; ObservedGeneration : Z; LastAppliedRepoRevision : string;
}.
Definition fullSyncExecutionPlan (path : string) (recursive : bool) : syncExecutionPlan :=
  {| p_Mode := syncModeFull; ApplyTargets := [{| Path := path; Recursive := recursive |}]; PruneTargets := [] |}.

Variable repositoryFileChangesBetweenRevisions : string -> string -> string -> result error (list change).

Definition buildIncrementalPlanFromRepositoryDiff (repositoryPath baseRevision targetRevision sourcePath : string)
    : result error incrementalSyncPlan :=
  changes ← repositoryFileChangesBetweenRevisions repositoryPath baseRevision targetRevision;
  accumulate_changes {| applyTargets := []; pruneTargets := []; requiresFull := false |} changes (normalizeOverlapPath sourcePath).
Definition buildSyncExecutionPlan (syncPolicy : sync_policy) (repositoryPath targetRevision : string)
    (secretHashChanged fullResyncDue : bool) : result error syncExecutionPlan :=
  let recursive := default true (SourceRecursive syncPolicy) in
  let fullPlan := fullSyncExecutionPlan (SourcePath syncPolicy) recursive in
  if fullResyncDue || secretHashChanged then Ok fullPlan
  else if negb (ObservedGeneration syncPolicy =? Generation syncPolicy)%Z then Ok fullPlan
  else
    let baseRevision := trim_space (LastAppliedRepoRevision syncPolicy) in
    let newRevision := trim_space targetRevision in
    if (baseRevision == "") || (newRevision == "") then Ok fullPlan
    else if baseRevision == newRevision then Ok {| p_Mode := syncModeIncremental; ApplyTargets := []; PruneTargets := [] |}
    else if negb recursive then Ok fullPlan
    else
      incremental ← buildIncrementalPlanFromRepositoryDiff repositoryPath baseRevision newRevision (SourcePath syncPolicy);
      if requiresFull incremental then Ok fullPlan
      else
        let targets := normalizeSyncApplyTargets (applyTargets incremental) in
        let pruned := stringSet (pruneTargets incremental) in
        Ok {| p_Mode := syncModeIncremental; ApplyTargets := filterPrunedApplyTargets targets pruned; PruneTargets := pruned |}.
End plan.

(** ** Targets *)
#[local] Instance target_le_trans : Transitive target_le.
Proof.
  intros [p r] [q s] [t u] H1 H2. unfold target_le in *. cbn in *.
  destruct H1 as [H1|[L1 H1]], H2 as [H2|[L2 H2]]; [left; lia..|]. right. split; [lia|].
  destruct H1 as [[-> H1]|[-> ->]], H2 as [[-> H2]|[H3 ->]]; [left; split; [done|]; by etrans|by right..|done].
Qed.
#[local] Instance target_le_total : Total target_le.
Proof.
  intros [p r] [q s]. unfold target_le. cbn.
  destruct (Nat.lt_trichotomy (String.length p) (String.length q)) as [?|[E|?]]; [by left; left| |by right; left].
  destruct r, s; [|left; right; split; [done|by right]|right; right; split; [done|by right]|];
    destruct (total String.le p q); (left; right; split; [done|left; done]) || (right; right; split; [done|left; done]).
Qed.

(** A path is applied when it is a target or below a recursive one. *)
Definition covered_by (targets : list syncApplyTarget) (p : string) (recursive : bool) : Prop :=
  exists k, k ∈ targets /\ ((Path k = p /\ (recursive = true -> Recursive k = true))
                            \/ (Recursive k = true /\ pathHasPrefix p (Path k) = true)).

Lemma keep_covers candidates : forall filtered,
  filtered ⊆ keep_uncovered filtered candidates /\ keep_uncovered filtered candidates ⊆ filtered ++ candidates
  /\ forall c, c ∈ candidates -> c ∈ keep_uncovered filtered candidates
       \/ exists k, k ∈ keep_uncovered filtered candidates /\ Recursive k = true /\ pathHasPrefix (Path c) (Path k) = true.
Proof.
  induction candidates as [|c candidates IH]; intros filtered; cbn [keep_uncovered].
  - split; [done|]. split; [by rewrite app_nil_r|]. intros c Hc. by apply not_elem_of_nil in Hc.
  - destruct (existsb _ filtered) eqn:Ee.
    + destruct (IH filtered) as (H1 & H2 & H3). split; [done|]. split.
      * intros x Hx. apply H2, elem_of_app in Hx as [?|?]; apply elem_of_app; [by left|right; by apply list_elem_of_further].
      * intros x [->|Hx]%elem_of_cons; [|by apply H3]. right. apply existsb_exists in Ee as (k & Hk & E).
        apply andb_true_iff in E as [E1 E2]. exists k. split; [by apply H1, list_elem_of_In|done].
    + destruct (IH (filtered ++ [c])) as (H1 & H2 & H3). split; [|split].
      * intros x Hx. apply H1, elem_of_app. by left.
      * intros x Hx. apply H2 in Hx. by rewrite <-app_assoc in Hx.
      * intros x [->|Hx]%elem_of_cons; [|by apply H3]. left. apply H1, elem_of_app. right. apply list_elem_of_here.
Qed.
Definition independent (k c : syncApplyTarget) : Prop :=
  target_le k c /\ ~ (Recursive k = true /\ pathHasPrefix (Path c) (Path k) = true).
Lemma keep_independent candidates : forall filtered,
  StronglySorted independent filtered -> StronglySorted target_le candidates ->
  (forall f c, f ∈ filtered -> c ∈ candidates -> target_le f c) ->
  StronglySorted independent (keep_uncovered filtered candidates).
Proof.
  induction candidates as [|c candidates IH]; intros filtered Hf Hc Hfc; [done|]. cbn [keep_uncovered].
  apply StronglySorted_inv in Hc as [Hc Hcs]. rewrite Forall_forall in Hcs.
  destruct (existsb _ filtered) eqn:Ee.
  - apply IH; [done..|]. intros f x Hf' Hx. apply Hfc; [done|]. by apply list_elem_of_further.
  - apply IH; [|done|].
    + apply StronglySorted_app. split_and!; [|done|by repeat constructor].
      intros f x Hf' ->%list_elem_of_singleton. split; [apply Hfc; [done|apply list_elem_of_here]|].
      intros [H1 H2]. apply not_true_iff_false in Ee. apply Ee. apply existsb_exists. exists f.
      split; [by apply list_elem_of_In|by rewrite H1, H2].
    + intros f x [Hf'| ->%list_elem_of_singleton]%elem_of_app Hx; [apply Hfc; [done|by apply list_elem_of_further]|by apply Hcs].
Qed.

(** The table of the paths. *)
Lemma add_targets_lookup targets : forall m p, foldl add_target m targets !! p =
  if bool_decide (is_Some (m !! p) \/ Exists (fun t => normalizeOverlapPath (Path t) = p) targets)
  then Some (default false (m !! p) || existsb (fun t => (normalizeOverlapPath (Path t) == p) && Recursive t) targets)
  else None.
Proof.
  induction targets as [|t targets IH]; intros m p; cbn [foldl existsb].
  - rewrite orb_false_r. case_bool_decide as H.
    + destruct H as [[r ->]|H]; [done|by apply Exists_nil in H].
    + destruct (m !! p) as [r|] eqn:E; [|done]. destruct H. left. by eexists.
  - rewrite IH. unfold add_target. remember (normalizeOverlapPath (Path t)) as q eqn:Eq. destruct (decide (q = p)) as [Hq|Hq].
    + subst p. rewrite lookup_insert_eq. rewrite (bool_decide_true (is_Some (Some _) \/ _)) by (left; by eexists).
      rewrite (bool_decide_true (is_Some (m !! q) \/ _)) by (right; by apply Exists_cons_hd). eqb.
      cbn [default]. by rewrite orb_assoc.
    + rewrite lookup_insert_ne by done. rewrite (bool_decide_false (q = p)) by done. cbn [andb orb].
      erewrite bool_decide_ext; [reflexivity|]. rewrite Exists_cons. rewrite <-Eq. tauto.
Qed.
Lemma elem_of_normalized_targets targets t : t ∈ normalized_targets targets <->
  (exists u, u ∈ targets /\ normalizeOverlapPath (Path u) = Path t)
  /\ Recursive t = existsb (fun u => (normalizeOverlapPath (Path u) == Path t) && Recursive u) targets.
Proof.
  unfold normalized_targets. rewrite merge_sort_Permutation, list_elem_of_fmap. split.
  - intros ([p r] & -> & Hin). apply elem_of_map_to_list in Hin. rewrite add_targets_lookup in Hin.
    case_bool_decide as H; [|done]. rewrite lookup_empty in Hin, H. injection Hin as <-. cbn [Path Recursive]. split; [|done].
    destruct H as [[? ?]|H]; [done|]. apply Exists_exists in H as (u & Hu & E). by exists u.
  - destruct t as [p r]. cbn [Path Recursive]. intros [(u & Hu & E) ->]. eexists (p, _). split; [reflexivity|].
    apply elem_of_map_to_list. rewrite add_targets_lookup, bool_decide_true, lookup_empty; [done|].
    right. apply Exists_exists. by exists u.
Qed.
Lemma normalized_targets_paths targets : NoDup (Path <$> normalized_targets targets).
Proof.
  unfold normalized_targets. rewrite merge_sort_Permutation, <-list_fmap_compose.
  replace (_ <$> map_to_list (foldl add_target ∅ targets)) with ((map_to_list (foldl add_target ∅ targets)).*1)
    by (apply list_fmap_ext; by intros ? [] _).
  apply NoDup_fst_map_to_list.
Qed.

Lemma StronglySorted_compare {A} (R : A -> A -> Prop) l x y : StronglySorted R l -> x ∈ l -> y ∈ l -> x = y \/ R x y \/ R y x.
Proof.
  induction 1 as [|z l _ IH Hz]; intros Hx Hy; [by apply not_elem_of_nil in Hx|]. rewrite Forall_forall in Hz.
  apply elem_of_cons in Hx as [->|Hx], Hy as [->|Hy]; [by left|right; left; by apply Hz|right; right; by apply Hz|by apply IH].
Qed.
Lemma normalize_targets_eq targets : normalizeSyncApplyTargets targets = keep_uncovered [] (normalized_targets targets).
Proof. by destruct targets. Qed.
Lemma targets_covered targets t : t ∈ targets ->
  covered_by (normalizeSyncApplyTargets targets) (normalizeOverlapPath (Path t)) (Recursive t).
Proof.
  intros Ht. rewrite normalize_targets_eq. set (p := normalizeOverlapPath (Path t)).
  set (c := {| Path := p; Recursive := existsb (fun u => (normalizeOverlapPath (Path u) == p) && Recursive u) targets |}).
  assert (c ∈ normalized_targets targets) as Hc by (apply elem_of_normalized_targets; split; [by exists t|done]).
  destruct (keep_covers (normalized_targets targets) []) as (_ & _ & Hk).
  destruct (Hk c Hc) as [Hin|(k & Hin & Hr & Hp)]; [exists c|exists k; split; [done|by right]].
  split; [done|left]. split; [done|]. intros Hrec. apply existsb_exists. exists t. split; [by apply list_elem_of_In|].
  by rewrite Hrec, bool_decide_true.
Qed.

(** The targets a plan applies are exactly those asked for, without redundancy: each
    requested path is a target, recursive when one of its requests is, or is below a
    recursive target; each target was requested; and when the paths are settled no
    target is below another that is recursive. *)
Theorem sync_targets_exact targets :
  (forall t, t ∈ targets -> covered_by (normalizeSyncApplyTargets targets) (normalizeOverlapPath (Path t)) (Recursive t))
  /\ (forall k, k ∈ normalizeSyncApplyTargets targets ->
        exists t, t ∈ targets /\ normalizeOverlapPath (Path t) = Path k /\ (Recursive k = true -> Recursive t = true))
  /\ (Forall (fun t => settled (normalizeOverlapPath (Path t))) targets ->
        forall k c, k ∈ normalizeSyncApplyTargets targets -> c ∈ normalizeSyncApplyTargets targets ->
          Recursive k = true -> pathHasPrefix (Path c) (Path k) = true -> c = k).
Proof.
  split; [apply targets_covered|]. rewrite normalize_targets_eq.
  destruct (keep_covers (normalized_targets targets) []) as (_ & Hsub & _). cbn [app] in Hsub. split.
  - intros k Hk%Hsub. apply elem_of_normalized_targets in Hk as [(u & Hu & E) Hr].
    destruct (Recursive k) eqn:Ek; [|by exists u]. symmetry in Hr. apply existsb_exists in Hr as (t & Ht & Eb).
    apply andb_true_iff in Eb as [Et%bool_decide_eq_true Er]. exists t. split; [by apply list_elem_of_In|done].
  - intros Hall k c Hk Hc Hrec Hpre.
    assert (StronglySorted independent (keep_uncovered [] (normalized_targets targets))) as Hs.
    { apply keep_independent; [constructor|apply StronglySorted_merge_sort; apply _|by intros f ? ?%not_elem_of_nil]. }
    destruct (StronglySorted_compare _ _ k c Hs Hk Hc) as [?|[[_ Hn]|[Hle _]]]; [done|by destruct Hn|].
    apply Hsub in Hk, Hc. apply elem_of_normalized_targets in Hk as [(u & Hu & Eu) Hrk], Hc as [(w & Hw & Ew) Hrc].
    destruct (decide (Path c = Path k)) as [Epath|Hne].
    { rewrite Epath in Hrc. destruct c, k. cbn in *. congruence. }
    rewrite Forall_forall in Hall. exfalso. apply pathHasPrefix_longer in Hpre; [|rewrite <-Ew; by apply Hall|rewrite <-Eu; by apply Hall|done].
    destruct Hle as [?|[? _]]; lia.
Qed.

(** ** Changes *)
Section changes.
Context `{UnicodeTables}.
Implicit Types (plan : incrementalSyncPlan) (c : change) (source : string).

Definition grows plan plan' : Prop :=
  applyTargets plan ⊆ applyTargets plan' /\ pruneTargets plan ⊆ pruneTargets plan'
  /\ (requiresFull plan = true -> requiresFull plan' = true).
#[local] Instance grows_refl : Reflexive grows.
Proof. intros plan. by split_and!. Qed.
#[local] Instance grows_trans : Transitive grows.
Proof. intros a b d (H1 & H2 & H3) (H4 & H5 & H6). split_and!; [by etrans..|auto]. Qed.
Lemma add_apply_grows plan t : grows plan (add_apply plan t).
Proof. split_and!; [intros x Hx; apply elem_of_app; by left|done|done]. Qed.
Lemma add_prune_grows plan p : grows plan (add_prune plan p).
Proof. split_and!; [done|intros x Hx; apply elem_of_app; by left|done]. Qed.
Lemma set_full_grows plan : grows plan (set_full plan).
Proof. by split_and!. Qed.
Lemma added_grows plan name source : grows plan (accumulateAddedPath plan name source).
Proof.
  unfold accumulateAddedPath. destruct (classifyRepositoryPath name) as [lp []]; try done.
  - destruct (negb _); [done|apply add_apply_grows].
  - destruct (negb _); [done|apply add_apply_grows].
  - destruct (scopedCollectionMetadataTarget _ _); [apply add_apply_grows|done].
  - destruct (isPathRelevantToScope _ _ _); [apply set_full_grows|done].
Qed.
Lemma removed_grows plan name source : grows plan (accumulateRemovedPath plan name source).
Proof.
  unfold accumulateRemovedPath. destruct (classifyRepositoryPath name) as [lp []]; try done; try apply added_grows.
  - destruct (hasPathOverlap _ _); [apply add_prune_grows|done].
  - destruct (isPathRelevantToScope _ _ _); [apply set_full_grows|done].
Qed.
Lemma accumulate_grows plan act c source : grows plan (accumulate plan act c source).
Proof.
  destruct act; cbn [accumulate]; [apply added_grows|apply removed_grows| |apply set_full_grows].
  etrans; [apply added_grows|]. destruct (negb _); [apply removed_grows|done].
Qed.
Lemma accumulate_changes_Ok changes : forall plan r source, accumulate_changes plan changes source = Ok r ->
  grows plan r /\ (requiresFull r = false -> forall c, c ∈ changes ->
    exists act plan', Action c = Ok act /\ grows (accumulate plan' act c source) r).
Proof.
  induction changes as [|c changes IH]; intros plan r source; cbn [accumulate_changes].
  - intros [= <-]. split; [done|]. intros _ c Hc. by apply not_elem_of_nil in Hc.
  - intros (act & Hact & Hr)%bind_Ok. cbv zeta in Hr. destruct (requiresFull (accumulate plan act c source)) eqn:Ef.
    + injection Hr as <-. split; [apply accumulate_grows|]. congruence.
    + apply IH in Hr as [Hg Hrest]. split; [etrans; [apply accumulate_grows|done]|].
      intros Hfull x [->|Hx]%elem_of_cons; [by exists act, plan|]. by apply Hrest.
Qed.

(** The files that a change adds or rewrites, and those that it takes away. *)
Inductive writes : change -> string -> Prop :=
| writes_insert c : Action c = Ok Insert -> writes c (To c)
| writes_modify c : Action c = Ok Modify -> writes c (To c).
Inductive removes : change -> string -> Prop :=
| removes_delete c : Action c = Ok Delete -> removes c (From c)
| removes_rename c : Action c = Ok Modify -> From c <> To c -> removes c (From c).

Lemma writes_grows c name act plan r source : writes c name -> Action c = Ok act -> grows (accumulate plan act c source) r ->
  grows (accumulateAddedPath plan name source) r.
Proof.
  intros Hw Ha Hg. destruct Hw as [c Hc|c Hc]; rewrite Hc in Ha; injection Ha as <-; cbn [accumulate] in Hg; [done|].
  etrans; [|exact Hg]. destruct (negb _); [apply removed_grows|done].
Qed.
Lemma removes_grows c name act plan r source : removes c name -> Action c = Ok act -> grows (accumulate plan act c source) r ->
  exists plan', grows (accumulateRemovedPath plan' name source) r.
Proof.
  intros Hw Ha Hg. destruct Hw as [c Hc|c Hc Hn]; rewrite Hc in Ha; injection Ha as <-; cbn [accumulate] in Hg; [eexists; exact Hg|].
  rewrite bool_decide_false in Hg by done. cbn [negb] in Hg. eexists. exact Hg.
Qed.

Lemma filter_pruned_covers targets prune p recursive : covered_by targets p recursive ->
  covered_by (filterPrunedApplyTargets targets prune) p recursive
  \/ (recursive = false /\ normalizeOverlapPath p ∈ map normalizeOverlapPath prune).
Proof.
  intros (k & Hk & Hcase). unfold filterPrunedApplyTargets. destruct (_ || _); [left; by exists k|].
  destruct (decide (normalizeOverlapPath (Path k) ∈ map normalizeOverlapPath prune /\ Recursive k = false)) as [[Hin Hr]|Hkeep].
  - right. destruct Hcase as [[E Himp]|[E _]]; [|congruence]. split; [|by rewrite <-E].
    destruct recursive; [|done]. rewrite Himp in Hr by done. done.
  - left. exists k. split; [apply list_elem_of_filter; split; [exact Hkeep|exact Hk]|exact Hcase].
Qed.

(** The names of files the planning passes over: those without one of five extensions. *)
Definition unplanned_name (name : string) : Prop :=
  let v := trim_bytes is_slash (trim_space name) in v = "" \/ to_lower (path_ext v) ∉ [".json"; ".yaml"; ".yml"; ".properties"; ".ini"].
Lemma metadata_kind_some dir : (metadata_kind dir).2 <> repositoryPathKindNone.
Proof. unfold metadata_kind. by repeat case_bool_decide. Qed.
Lemma defaults_kind_some ext dir : (defaults_kind ext dir).2 <> repositoryPathKindNone.
Proof. unfold defaults_kind. destruct (negb _); [done|]. by repeat case_bool_decide. Qed.
Lemma none_unplanned name lp : classifyRepositoryPath name = (lp, repositoryPathKindNone) -> unplanned_name name.
Proof.
  unfold classifyRepositoryPath, unplanned_name. set (v := trim_bytes is_slash (trim_space name)). case_bool_decide; [by left|].
  case_bool_decide as Hext; cbn [negb]; [|by right]. intros E. exfalso. apply (f_equal snd) in E. cbn [snd] in E. revert E.
  repeat (let c := fresh in match goal with |- (if ?b then _ else _).2 = _ -> _ => destruct b eqn:c end); try done; first [apply defaults_kind_some|apply metadata_kind_some].
Qed.
(** What the final plan holds of a change, given the scope of the policy. *)
Definition written_ok (plan : syncExecutionPlan) (source name : string) : Prop :=
  let '(lp, kind) := classifyRepositoryPath name in
  match kind with
  | repositoryPathKindNone => unplanned_name name
  | repositoryPathKindUnknownConfig => isPathRelevantToScope lp name source = false
  | repositoryPathKindPayload | repositoryPathKindResourceMetadata =>
      hasPathOverlap lp source = true ->
      covered_by (ApplyTargets plan) (normalizeOverlapPath lp) false
      \/ normalizeOverlapPath (normalizeOverlapPath lp) ∈ map normalizeOverlapPath (PruneTargets plan)
  | repositoryPathKindCollectionMetadata =>
      forall target, scopedCollectionMetadataTarget lp source = Some target ->
      covered_by (ApplyTargets plan) (normalizeOverlapPath target) true
  end.
Definition removed_ok (plan : syncExecutionPlan) (source name : string) : Prop :=
  let '(lp, kind) := classifyRepositoryPath name in
  match kind with
  | repositoryPathKindPayload => hasPathOverlap lp source = true -> trim_space lp ∈ PruneTargets plan
  | _ => written_ok plan source name
  end.
Definition final_plan (r : incrementalSyncPlan) : syncExecutionPlan :=
  {| p_Mode := syncModeIncremental;
     ApplyTargets := filterPrunedApplyTargets (normalizeSyncApplyTargets (applyTargets r)) (stringSet (pruneTargets r));
     PruneTargets := stringSet (pruneTargets r) |}.

Lemma applied_covered r t : t ∈ applyTargets r ->
  covered_by (ApplyTargets (final_plan r)) (normalizeOverlapPath (Path t)) (Recursive t)
  \/ (Recursive t = false /\ normalizeOverlapPath (normalizeOverlapPath (Path t)) ∈ map normalizeOverlapPath (PruneTargets (final_plan r))).
Proof. intros Ht. by apply filter_pruned_covers, targets_covered. Qed.
Lemma written_final r plan source name : requiresFull r = false -> grows (accumulateAddedPath plan name source) r ->
  written_ok (final_plan r) source name.
Proof.
  unfold written_ok, accumulateAddedPath. destruct (classifyRepositoryPath name) as [lp []] eqn:Ec; intros Hf (Ha & _ & Hfull).
  1: by eapply none_unplanned.
  1, 2: intros Ho; rewrite Ho in Ha; cbn [negb] in Ha;
    destruct (applied_covered r {| Path := lp; Recursive := false |}) as [?|[_ ?]];
    [apply Ha, elem_of_app; right; apply list_elem_of_here|by left|by right].
  - intros target Ht. rewrite Ht in Ha.
    destruct (applied_covered r {| Path := target; Recursive := true |}) as [?|[? _]];
      [apply Ha, elem_of_app; right; apply list_elem_of_here|done|done].
  - destruct (isPathRelevantToScope _ _ _); [|done]. by rewrite Hfull in Hf.
Qed.
Lemma overlap_nonblank lp source : hasPathOverlap lp source = true -> trim_space lp <> "".
Proof.
  unfold hasPathOverlap, HasPathOverlap, NormalizeOverlapPath, normalizePath, ParseRawPathWithOptions. intros Ho Hb.
  rewrite Hb in Ho. rewrite decide_True in Ho by done. by rewrite bool_decide_true in Ho.
Qed.
Lemma removed_final r plan source name : requiresFull r = false -> grows (accumulateRemovedPath plan name source) r ->
  removed_ok (final_plan r) source name.
Proof.
  unfold removed_ok. intros Hf Hg. assert (Hgo := Hg). unfold accumulateRemovedPath in Hgo.
  destruct (classifyRepositoryPath name) as [lp kind] eqn:Ec.
  assert (Hw := written_final r plan source name Hf). unfold written_ok, accumulateAddedPath in Hw. rewrite Ec in Hw.
  destruct kind; unfold written_ok; rewrite ?Ec; cbn [PruneTargets final_plan] in *.
  - by eapply none_unplanned.
  - intros Ho. rewrite Ho in Hgo. destruct Hgo as (_ & Hp & _). apply elem_of_stringSet.
    split; [by eapply overlap_nonblank|]. exists lp. split; [|done]. apply Hp, elem_of_app. right. apply list_elem_of_here.
  - apply Hw. unfold accumulateAddedPath in Hgo. by rewrite Ec in Hgo.
  - apply Hw. unfold accumulateAddedPath in Hgo. by rewrite Ec in Hgo.
  - by apply Hw.
Qed.

Variable repository_changes : string -> string -> string -> result error (list change).

(** [C26] What an incremental plan makes of every change: a file written between the two
    revisions that bears on the policy's scope has its resource, or the collection it
    configures, among what is applied, unless the same resource is pruned; a payload file
    removed has its resource pruned; no changed file of the scope was of an unknown kind of
    configuration, for which the plan is a full one. Passed over are only files without one of
    the extensions .json, .yaml, .yml, .properties and .ini: a payload of another extension is a
    change the plan does not see (see [other_payloads_are_passed_over]). *)
Theorem incremental_plan_accounts_for_changes policy repository target (plan : syncExecutionPlan) changes c :
  buildSyncExecutionPlan repository_changes policy repository target false false = Ok plan ->
  p_Mode plan = syncModeIncremental ->
  trim_space (LastAppliedRepoRevision policy) <> trim_space target ->
  repository_changes repository (trim_space (LastAppliedRepoRevision policy)) (trim_space target) = Ok changes -> c ∈ changes ->
  (forall name, writes c name -> written_ok plan (normalizeOverlapPath (SourcePath policy)) name)
  /\ (forall name, removes c name -> removed_ok plan (normalizeOverlapPath (SourcePath policy)) name).
Proof.
  unfold buildSyncExecutionPlan. cbn [orb]. intros Hb Hmode Hne Hch Hc.
  destruct (negb (ObservedGeneration policy =? Generation policy)%Z); [by injection Hb as <-|].
  cbv zeta in Hb. destruct (_ || _); [by injection Hb as <-|]. rewrite bool_decide_false in Hb by done.
  destruct (negb _); [by injection Hb as <-|]. apply bind_Ok in Hb as (r & Hr & Hb).
  unfold buildIncrementalPlanFromRepositoryDiff in Hr. rewrite Hch in Hr. cbn [mbind result_bind] in Hr.
  destruct (requiresFull r) eqn:Ef; [by injection Hb as <-|]. injection Hb as <-. fold (final_plan r).
  apply accumulate_changes_Ok in Hr as [_ Hr]. destruct (Hr Ef c Hc) as (act & plan' & Ha & Hg). split.
  - intros name Hw. eapply written_final; [done|]. by eapply writes_grows.
  - intros name Hw. destruct (removes_grows _ _ _ _ _ _ Hw Ha Hg) as (plan'' & Hg'). by eapply removed_final.
Qed.
End changes.

(** ** A run *)
Definition sample_changes (_ _ _ : string) : result error (list change) :=
  Ok [ {| Action := Ok Modify; From := "users/ann/resource.json"; To := "users/ann/resource.json" |};
       {| Action := Ok Delete; From := "users/bob/resource.json"; To := "" |} ].
Definition sample_policy : sync_policy :=
  {| SourcePath := "/users"; SourceRecursive := None; Generation := 3; ObservedGeneration := 3; LastAppliedRepoRevision := "r1" |}.
Definition sample_plan : syncExecutionPlan :=
  {| p_Mode := syncModeIncremental; ApplyTargets := [{| Path := "/users/ann"; Recursive := false |}]; PruneTargets := ["/users/bob"] |}.
Lemma incremental_plan_accounts_for_changes_witness (T : UnicodeTables := latin1_tables) :
  buildSyncExecutionPlan sample_changes sample_policy "/repo" "r2" false false = Ok sample_plan
  /\ removed_ok sample_plan "/users" "users/bob/resource.json".
Proof.
  assert (buildSyncExecutionPlan sample_changes sample_policy "/repo" "r2" false false = Ok sample_plan) as E by (vm_compute; reflexivity).
  split; [exact E|].
  destruct (incremental_plan_accounts_for_changes sample_changes sample_policy "/repo" "r2" sample_plan
    [ {| Action := Ok Modify; From := "users/ann/resource.json"; To := "users/ann/resource.json" |};
      {| Action := Ok Delete; From := "users/bob/resource.json"; To := "" |} ]
    {| Action := Ok Delete; From := "users/bob/resource.json"; To := "" |}
    E eq_refl ltac:(vm_compute; discriminate) eq_refl ltac:(apply list_elem_of_further, list_elem_of_here)) as [_ Hr].
  exact (Hr "users/bob/resource.json" (removes_delete {| Action := Ok Delete; From := "users/bob/resource.json"; To := "" |} eq_refl)).
Defined.

(** Changed payloads of other extensions, which a repository can hold, lead neither to a target
    nor to a full plan. *)
Example other_payloads_are_passed_over (T : UnicodeTables := latin1_tables) :
  buildSyncExecutionPlan (fun _ _ _ => Ok [
    {| Action := Ok Modify; From := "users/ann/resource.txt"; To := "users/ann/resource.txt" |};
    {| Action := Ok Delete; From := "users/bob/resource.key"; To := "" |};
    {| Action := Ok Insert; From := ""; To := "users/eve/script.sh" |} ]) sample_policy "/repo" "r2" false false
  = Ok {| p_Mode := syncModeIncremental; ApplyTargets := []; PruneTargets := [] |}.
Proof. vm_compute. reflexivity. Qed.
(** A resource whose payload is rewritten in another format, its old file removed and a
    new one added, is pruned from the remote service and not applied. *)
Example reformatted_resource_is_pruned (T : UnicodeTables := latin1_tables) :
  buildSyncExecutionPlan (fun _ _ _ => Ok [
    {| Action := Ok Delete; From := "users/ann/resource.json"; To := "" |};
    {| Action := Ok Insert; From := ""; To := "users/ann/resource.yaml" |} ]) sample_policy "/repo" "r2" false false
  = Ok {| p_Mode := syncModeIncremental; ApplyTargets := []; PruneTargets := ["/users/ann"] |}.
Proof. vm_compute. reflexivity. Qed.
(** The extension is compared in lower case but stripped as it is written: the payload
    file of a resource in upper case is taken for another resource. *)
Example uppercase_extension (T : UnicodeTables := latin1_tables) :
  classifyRepositoryPath "users/ann/resource.JSON" = ("/users/ann/resource.JSON", repositoryPathKindPayload).
Proof. vm_compute. reflexivity. Qed.
