(* ===== verification/ConflictIndex.v ===== *)
(** * Ownership of remote resources

    Models [src/internal/operator/controllers/conflict_index.go], the index of the
    resources that a generator owns, with the functions that consult and maintain it:
    [lookupConflict] of [syncpolicy_controller.go] and the registrations of
    [generated_resource_reconciler.go]. Each operation holds the lock of the index from
    beginning to end and is one step of a history; a nil index is [None]. The iteration
    order of a map is a parameter where the result shows it. *)
From S2P Require Import Prelude GoText GoTextFacts Faults Paths SyncPlan.

Record ConflictSource := {
  CRDGeneratorNamespace : string; CRDGeneratorName : string; GeneratedKind : string;
  LogicalPath : string; RemoteID : string;
}.
Record conflictKey := {
  ManagedServiceNamespace : string; ManagedServiceName : string; CollectionPath : string; Identifier : string;
}.
#[export] Instance conflictKey_eq_dec : EqDecision conflictKey.
Proof. solve_decision. Defined.
#[export] Instance conflictKey_countable : Countable conflictKey.
Proof.
  refine (inj_countable' (fun k => (ManagedServiceNamespace k, ManagedServiceName k, CollectionPath k, Identifier k))
    (fun '(a, b, c, d) => Build_conflictKey a b c d) _). by intros [].
Defined.
Record ConflictIndex := { tier1 : gmap conflictKey ConflictSource; tier2 : gmap conflictKey ConflictSource }.
Inductive ConflictTier := ConflictTierName | ConflictTierRemoteID.

Section index.
Context `{UnicodeTables}.

Definition NewConflictIndex : option ConflictIndex := Some {| tier1 := ∅; tier2 := ∅ |}.
Definition normalizeCollectionPath (raw : string) : string :=
  let value := trim_space raw in
  if value == "" then ""
  else
    let value := if negb (has_prefix value "/") then "/" +:+ value else value in
    path_clean value.
Definition normalizeLogicalPath (raw : string) : string :=
  let value := trim_space raw in
  if value == "" then ""
  else
    let normalized := NormalizeOverlapPath value in
    if negb (normalized == "") then normalized
    else
      let value := if negb (has_prefix value "/") then "/" +:+ value else value in
      path_clean value.
Definition key_of (managedServiceNamespace managedServiceName collectionPath identifier : string) : conflictKey :=
  {| ManagedServiceNamespace := trim_space managedServiceNamespace; ManagedServiceName := trim_space managedServiceName;
     CollectionPath := normalizeCollectionPath collectionPath; Identifier := identifier |}.

Definition Register (managedServiceNamespace managedServiceName collectionPath logicalPath remoteID : string)
    (source : ConflictSource) (c : option ConflictIndex) : option ConflictIndex :=
  match c with
  | None => None
  | Some c =>
      let tier1Key := key_of managedServiceNamespace managedServiceName collectionPath (normalizeLogicalPath logicalPath) in
      let c := {| tier1 := <[tier1Key := source]> (tier1 c); tier2 := tier2 c |} in
      let remoteID := trim_space remoteID in
      if negb (remoteID == "") then
        let tier2Key := key_of managedServiceNamespace managedServiceName collectionPath remoteID in
        Some {| tier1 := tier1 c; tier2 := <[tier2Key := source]> (tier2 c) |}
      else Some c
  end.
(** Whether [purge] deletes an entry. *)
Definition purged (namespace name normalizedPath : string) (source : ConflictSource) : bool :=
  if negb (CRDGeneratorNamespace source == namespace) || negb (CRDGeneratorName source == name) then false
  else if negb (normalizedPath == "") && negb (LogicalPath source == normalizedPath) then false
  else true.
Definition purge (namespace name normalizedPath : string) (bucket : gmap conflictKey ConflictSource)
    : gmap conflictKey ConflictSource :=
  filter (fun entry => purged namespace name normalizedPath (snd entry) = false) bucket.
Definition Unregister (crdGeneratorNamespace crdGeneratorName logicalPath : string) (c : option ConflictIndex) : option ConflictIndex :=
  match c with
  | None => None
  | Some c =>
      let normalizedPath := normalizeLogicalPath logicalPath in
      Some {| tier1 := purge crdGeneratorNamespace crdGeneratorName normalizedPath (tier1 c);
              tier2 := purge crdGeneratorNamespace crdGeneratorName normalizedPath (tier2 c) |}
  end.
Definition Lookup (managedServiceNamespace managedServiceName collectionPath identifier : string) (tier : ConflictTier)
    (c : option ConflictIndex) : option ConflictSource :=
  match c with
  | None => None
  | Some c =>
      match tier with
      | ConflictTierName => tier1 c !! key_of managedServiceNamespace managedServiceName collectionPath (normalizeLogicalPath identifier)
      | ConflictTierRemoteID => tier2 c !! key_of managedServiceNamespace managedServiceName collectionPath (trim_space identifier)
      end
  end.

(** The collections of a generator, in the order [order] of the iteration over [tier1]. *)
Definition visit_entry (namespace name : string) (acc : gset string * list string) (entry : conflictKey * ConflictSource)
    : gset string * list string :=
  let '(seen, out) := acc in
  let '(key, source) := entry in
  if negb (CRDGeneratorNamespace source == namespace) || negb (CRDGeneratorName source == name) then (seen, out)
  else if bool_decide (CollectionPath key ∈ seen) then (seen, out)
  else ({[CollectionPath key]} ∪ seen, out ++ [CollectionPath key]).
Definition CollectionPathsForGenerator (order : gmap conflictKey ConflictSource -> list (conflictKey * ConflictSource))
    (namespace name : string) (c : option ConflictIndex) : list string :=
  match c with
  | None => []
  | Some c => snd (foldl (visit_entry namespace name) (∅, []) (order (tier1 c)))
  end.

(** What a sync policy asks before it applies or prunes a resource. *)
Definition lookupConflict (c : option ConflictIndex) (policyNamespace managedServiceRef collectionPath logicalPath remoteID : string)
    : option (ConflictSource * ConflictTier) :=
  match c with
  | None => None
  | Some _ =>
      match (if negb (trim_space logicalPath == "")
             then Lookup policyNamespace managedServiceRef collectionPath logicalPath ConflictTierName c else None) with
      | Some source => Some (source, ConflictTierName)
      | None =>
          match (if negb (trim_space remoteID == "")
                 then Lookup policyNamespace managedServiceRef collectionPath remoteID ConflictTierRemoteID c else None) with
          | Some source => Some (source, ConflictTierRemoteID)
          | None => None
          end
      end
  end.
End index.

(** ** Histories of the index *)
Section histories.
Context `{UnicodeTables}.

Inductive event :=
| Registered (managedServiceNamespace managedServiceName collectionPath logicalPath remoteID : string) (source : ConflictSource)
| Unregistered (namespace name logicalPath : string).
Definition apply_event (c : option ConflictIndex) (e : event) : option ConflictIndex :=
  match e with
  | Registered ns n coll lp id source => Register ns n coll lp id source c
  | Unregistered ns n lp => Unregister ns n lp c
  end.
Definition run_events (events : list event) : option ConflictIndex := foldl apply_event NewConflictIndex events.

(** The key that a registration writes in the table of a tier. *)
Inductive registers : event -> ConflictTier -> conflictKey -> ConflictSource -> Prop :=
| registers_name ns n coll lp id source :
    registers (Registered ns n coll lp id source) ConflictTierName (key_of ns n coll (normalizeLogicalPath lp)) source
| registers_id ns n coll lp id source : trim_space id <> "" ->
    registers (Registered ns n coll lp id source) ConflictTierRemoteID (key_of ns n coll (trim_space id)) source.
Inductive clears : event -> ConflictSource -> Prop :=
| clears_generator ns n lp source : CRDGeneratorNamespace source = ns -> CRDGeneratorName source = n ->
    normalizeLogicalPath lp = "" \/ LogicalPath source = normalizeLogicalPath lp -> clears (Unregistered ns n lp) source.
(** The registration of the key that is in force after a history: the last one, when
    nothing has cleared it since. *)
Definition in_force (events : list event) (tier : ConflictTier) (k : conflictKey) (source : ConflictSource) : Prop :=
  exists before e after, events = before ++ e :: after /\ registers e tier k source
    /\ (forall e' source', e' ∈ after -> ~ registers e' tier k source') /\ (forall e', e' ∈ after -> ~ clears e' source).

Definition bucket (tier : ConflictTier) (c : ConflictIndex) : gmap conflictKey ConflictSource :=
  match tier with ConflictTierName => tier1 c | ConflictTierRemoteID => tier2 c end.
Definition lookup_key (tier : ConflictTier) (managedServiceNamespace managedServiceName collectionPath identifier : string) : conflictKey :=
  key_of managedServiceNamespace managedServiceName collectionPath
    (match tier with ConflictTierName => normalizeLogicalPath identifier | ConflictTierRemoteID => trim_space identifier end).

Lemma purged_clears ns n lp source : purged ns n (normalizeLogicalPath lp) source = true <-> clears (Unregistered ns n lp) source.
Proof.
  unfold purged. split.
  - case_bool_decide as H1; [|done]. case_bool_decide as H2; [|done]. cbn [negb orb].
    case_bool_decide as H3; [intros _; by constructor; [..|left]|]. case_bool_decide as H4; [|done].
    intros _. constructor; [done..|by right].
  - inversion 1 as [? ? ? ? H1 H2 H3]; subst. rewrite !bool_decide_true by done. cbn [negb orb].
    destruct H3 as [->|H3]; [by rewrite bool_decide_true|]. rewrite (bool_decide_true (LogicalPath _ = _)) by done. by rewrite andb_false_r.
Qed.
Lemma purge_lookup ns n lp m k source : purge ns n (normalizeLogicalPath lp) m !! k = Some source <->
  m !! k = Some source /\ ~ clears (Unregistered ns n lp) source.
Proof. unfold purge. rewrite map_lookup_filter_Some, <-purged_clears. cbn. by rewrite not_true_iff_false. Qed.

(** One step: the entries written by the event, and the others that it leaves. *)
Lemma apply_event_step c e : exists c', apply_event (Some c) e = Some c'
  /\ forall tier k source, bucket tier c' !! k = Some source <->
       registers e tier k source
       \/ (bucket tier c !! k = Some source /\ (forall source', ~ registers e tier k source') /\ ~ clears e source).
Proof.
  destruct e as [ns n coll lp id s|ns n lp]; cbn [apply_event Register Unregister].
  - assert (forall x, ~ clears (Registered ns n coll lp id s) x) as Hnc by (intros x; inversion 1).
    assert (forall k x, registers (Registered ns n coll lp id s) ConflictTierName k x <-> k = key_of ns n coll (normalizeLogicalPath lp) /\ x = s) as Hn.
    { intros k x. split; [by inversion 1|intros [-> ->]; constructor]. }
    assert (forall k x, registers (Registered ns n coll lp id s) ConflictTierRemoteID k x <-> trim_space id <> "" /\ k = key_of ns n coll (trim_space id) /\ x = s) as Hi.
    { intros k x. split; [by inversion 1|intros (? & -> & ->); by constructor]. }
    destruct (decide (trim_space id = "")) as [Hid|Hid].
    + rewrite bool_decide_true by done. eexists. split; [reflexivity|]. intros [] k x; cbn [bucket tier1 tier2].
      * rewrite Hn, lookup_insert_Some. setoid_rewrite Hn. naive_solver.
      * rewrite Hi. setoid_rewrite Hi. naive_solver.
    + rewrite bool_decide_false by done. eexists. split; [reflexivity|]. intros [] k x; cbn [bucket tier1 tier2].
      * rewrite Hn, lookup_insert_Some. setoid_rewrite Hn. naive_solver.
      * rewrite Hi, lookup_insert_Some. setoid_rewrite Hi. naive_solver.
  - eexists. split; [reflexivity|]. intros tier k x.
    assert (forall y, ~ registers (Unregistered ns n lp) tier k y) as Hnr by (intros y; inversion 1).
    transitivity (bucket tier c !! k = Some x /\ ~ clears (Unregistered ns n lp) x); [|naive_solver].
    destruct tier; cbn [bucket tier1 tier2]; apply purge_lookup.
Qed.
Lemma in_force_snoc events e tier k source : in_force (events ++ [e]) tier k source <->
  registers e tier k source \/ (in_force events tier k source /\ (forall source', ~ registers e tier k source') /\ ~ clears e source).
Proof.
  split.
  - intros (before & e0 & after & E & Hr & Hn & Hc). destruct after as [|a after _] using rev_ind.
    + apply app_inj_tail in E as [_ ->]. by left.
    + right. change (before ++ e0 :: after ++ [a]) with (before ++ (e0 :: after) ++ [a]) in E. rewrite app_assoc in E.
      apply app_inj_tail in E as [-> ->].
      assert (a ∈ after ++ [a]) as Ha by (apply elem_of_app; right; apply list_elem_of_here).
      split; [|split; [intros s'; by apply Hn|by apply Hc]].
      exists before, e0, after. split_and!; [done|done| |]; intros e' **; [apply Hn|apply Hc]; apply elem_of_app; by left.
  - intros [Hr|((before & e0 & after & -> & Hr & Hn & Hc) & Hn' & Hc')].
    + exists events, e, []. split_and!; [done|done| |]; [intros e' s' He'|intros e' He']; by apply not_elem_of_nil in He'.
    + exists before, e0, (after ++ [e]). rewrite <-app_assoc. split_and!; [done|done| |].
      * intros e' s' [?| ->%list_elem_of_singleton]%elem_of_app; [by apply Hn|apply Hn'].
      * intros e' [?| ->%list_elem_of_singleton]%elem_of_app; [by apply Hc|apply Hc'].
Qed.
Lemma run_events_index events : exists c, run_events events = Some c
  /\ forall tier k source, bucket tier c !! k = Some source <-> in_force events tier k source.
Proof.
  induction events as [|e events (c & Hc & Hspec)] using rev_ind.
  - exists {| tier1 := ∅; tier2 := ∅ |}. split; [done|]. intros tier k source.
    assert (bucket tier {| tier1 := ∅; tier2 := ∅ |} !! k = None) as -> by (destruct tier; apply lookup_empty).
    split; [done|]. intros (before & e0 & after & E & _). by destruct before.
  - unfold run_events in *. rewrite foldl_app, Hc. cbn [foldl].
    destruct (apply_event_step c e) as (c' & -> & Hstep). exists c'. split; [done|]. intros tier k source.
    by rewrite Hstep, in_force_snoc, Hspec.
Qed.
Lemma Lookup_bucket ns n coll ident tier c :
  Lookup ns n coll ident tier (Some c) = bucket tier c !! lookup_key tier ns n coll ident.
Proof. by destruct tier. Qed.

(** [C28] The index answers from its history: a resource is owned by the source of the last
    registration of its name, or of its remote id, that no unregistration of that source
    has cleared since; a sync policy is stopped by the owner of the name when there is
    one and else by the owner of the remote id. *)
Theorem conflicts_answer_history events ns n coll lp id source :
  (forall ident tier, Lookup ns n coll ident tier (run_events events) = Some source
     <-> in_force events tier (lookup_key tier ns n coll ident) source)
  /\ (forall tier, lookupConflict (run_events events) ns n coll lp id = Some (source, tier)
     <-> (tier = ConflictTierName /\ trim_space lp <> "" /\ in_force events tier (lookup_key tier ns n coll lp) source)
         \/ (tier = ConflictTierRemoteID /\ trim_space id <> "" /\ in_force events tier (lookup_key tier ns n coll id) source
             /\ (trim_space lp <> "" -> forall s, ~ in_force events ConflictTierName (lookup_key ConflictTierName ns n coll lp) s))).
Proof.
  destruct (run_events_index events) as (c & Hc & Hspec). rewrite Hc. split; [intros ident tier; by rewrite Lookup_bucket|].
  intros tier. unfold lookupConflict. rewrite !Lookup_bucket.
  setoid_rewrite <-Hspec. set (kn := lookup_key ConflictTierName ns n coll lp). set (ki := lookup_key ConflictTierRemoteID ns n coll id).
  destruct (decide (trim_space lp = "")) as [El|El]; [rewrite (bool_decide_true (_ lp = "")) by done|rewrite (bool_decide_false (_ lp = "")) by done];
  (destruct (decide (trim_space id = "")) as [Ei|Ei]; [rewrite (bool_decide_true (_ id = "")) by done|rewrite (bool_decide_false (_ id = "")) by done]);
  cbn [negb]; destruct tier; fold kn ki;
  destruct (bucket ConflictTierName c !! kn) eqn:E1; destruct (bucket ConflictTierRemoteID c !! ki) eqn:E2; naive_solver.
Qed.
End histories.

(** ** The collections of a generator *)
Section collections.
Variable order : gmap conflictKey ConflictSource -> list (conflictKey * ConflictSource).
Hypothesis order_visits : forall m, Permutation (order m) (map_to_list m).

Lemma visit_entries_spec namespace name entries : forall seen out,
  (forall p, p ∈ seen <-> p ∈ out) -> NoDup out ->
  let r := foldl (visit_entry namespace name) (seen, out) entries in
  NoDup (snd r) /\ forall p, p ∈ snd r <-> p ∈ out \/ exists k source, (k, source) ∈ entries /\ CollectionPath k = p
    /\ CRDGeneratorNamespace source = namespace /\ CRDGeneratorName source = name.
Proof.
  induction entries as [|[k s] entries IH]; intros seen out Hs Hn r; subst r; cbn [foldl].
  - split; [done|]. intros p. cbn [snd]. split; [by left|]. intros [?|(k & s & Hk & _)]; [done|by apply not_elem_of_nil in Hk].
  - cbn [visit_entry]. case_bool_decide as H1; [case_bool_decide as H2|]; cbn [negb orb].
    + case_bool_decide as H3.
      * destruct (IH seen out Hs Hn) as [Hn' Hi]. split; [done|]. intros p. rewrite Hi. apply Hs in H3. set_solver.
      * destruct (IH ({[CollectionPath k]} ∪ seen) (out ++ [CollectionPath k])) as [Hn' Hi].
        { intros p. rewrite elem_of_union, elem_of_app, Hs, list_elem_of_singleton, elem_of_singleton. tauto. }
        { apply NoDup_app. split_and!; [done| |apply NoDup_singleton]. intros p Hp ->%list_elem_of_singleton. apply H3. by apply Hs. }
        split; [done|]. intros p. rewrite Hi. set_solver.
    + destruct (IH seen out Hs Hn) as [Hn' Hi]. split; [done|]. intros p. rewrite Hi. set_solver.
    + destruct (IH seen out Hs Hn) as [Hn' Hi]. split; [done|]. intros p. rewrite Hi. set_solver.
Qed.
(** Each collection of the generator, once, whatever the order of the iteration. *)
Lemma collections_exact namespace name c p :
  NoDup (CollectionPathsForGenerator order namespace name (Some c))
  /\ (p ∈ CollectionPathsForGenerator order namespace name (Some c) <->
      exists k source, tier1 c !! k = Some source /\ CollectionPath k = p
        /\ CRDGeneratorNamespace source = namespace /\ CRDGeneratorName source = name).
Proof.
  destruct (visit_entries_spec namespace name (order (tier1 c)) ∅ []) as [Hn Hi]; [set_solver|constructor|].
  split; [exact Hn|]. unfold CollectionPathsForGenerator. rewrite Hi. setoid_rewrite order_visits. setoid_rewrite elem_of_map_to_list.
  split; [|by right]. intros [Hp|?]; [by apply not_elem_of_nil in Hp|done].
Qed.
End collections.

(** ** A history *)
Definition generator_source : ConflictSource :=
  {| CRDGeneratorNamespace := "ops"; CRDGeneratorName := "gen"; GeneratedKind := "User"; LogicalPath := "/users/ann"; RemoteID := "" |}.
(** An unregistration without a path clears all that the generator owns. *)
Example history_run (T : UnicodeTables := latin1_tables) :
  let owned := [Registered "ops" "idp" "/users" "users/ann " " 42" generator_source] in
  lookupConflict (run_events owned) "ops" "idp" "users/" "/users/bob" "42" = Some (generator_source, ConflictTierRemoteID)
  /\ lookupConflict (run_events (owned ++ [Unregistered "ops" "gen" ""])) "ops" "idp" "/users" "/users/ann" "42" = None
  /\ lookupConflict (run_events (owned ++ [Unregistered "ops" "gen" "/users/bob"])) "ops" "idp" "/users" "/users/ann" "42"
     = Some (generator_source, ConflictTierName).
Proof. vm_compute. auto. Qed.
