(* ===== verification/Dedupe.v ===== *)
(** * Duplicate webhook deliveries

    Models [src/internal/operator/webhookreceiver/dedupe.go]: the cache of the
    deliveries seen. A call holds the lock of the cache and
    is one step, with the instant that [time.Now] gives it in nanoseconds; the order in
    which the eviction visits the map is a parameter. *)
From S2P Require Import Prelude GoText GoTextFacts GoLib.

Definition maxDuration : Z := 2 ^ 63 - 1.
Definition minDuration : Z := - 2 ^ 63.
(** Method [Sub] of [time.Time], which saturates. *)
Definition time_sub (t u : Z) : Z := Z.max minDuration (Z.min maxDuration (t - u)).

Record DedupeCache := { entries : gmap string Z; ttl : Z; maxEntries : Z }.
Definition defaultDedupeMaxEntries : Z := 4096.
Definition NewDedupeCache (d : Z) : DedupeCache :=
  {| entries := ∅; ttl := d; maxEntries := defaultDedupeMaxEntries |}.

Section cache.
Variable order : gmap string Z -> list (string * Z).

Definition older (acc entry : string * Z) : string * Z :=
  let '(oldestKey, oldestTime) := acc in
  let '(key, value) := entry in
  if (oldestKey == "") || (value <? oldestTime)%Z then (key, value) else (oldestKey, oldestTime).
Definition evictOldest (m : gmap string Z) : gmap string Z :=
  let '(oldestKey, _) := foldl older ("", 0%Z) (order m) in
  if negb (oldestKey == "") then delete oldestKey m else m.
Definition evict_expired (now d : Z) (m : gmap string Z) : gmap string Z :=
  filter (fun entry => ~ (d < time_sub now (snd entry))%Z) m.
Definition IsDuplicate (c : DedupeCache) (deliveryID : string) (now : Z) : bool * DedupeCache :=
  if deliveryID == "" then (false, c)
  else
    let m := evict_expired now (ttl c) (entries c) in
    match m !! deliveryID with
    | Some _ => (true, {| entries := <[deliveryID := now]> m; ttl := ttl c; maxEntries := maxEntries c |})
    | None =>
        let limit := if (maxEntries c <? 1)%Z then defaultDedupeMaxEntries else maxEntries c in
        let m := if (limit <=? Z.of_nat (size m))%Z then evictOldest m else m in
        (false, {| entries := <[deliveryID := now]> m; ttl := ttl c; maxEntries := limit |})
    end.

(** The cache after a sequence of calls. *)
Definition run_calls (c : DedupeCache) (calls : list (Z * string)) : DedupeCache :=
  foldl (fun c '(now, id) => snd (IsDuplicate c id now)) c calls.

(** The instant of the last call for a delivery, and the other deliveries since an instant. *)
Definition last_seen (calls : list (Z * string)) (id : string) (t : Z) : Prop :=
  exists before after, calls = before ++ (t, id) :: after /\ forall u, (u, id) ∉ after.
Definition others_since (calls : list (Z * string)) (t : Z) (id : string) : gset string :=
  list_to_set (snd <$> filter (fun call => (t <= fst call)%Z /\ snd call <> id /\ snd call <> "") calls).
Hypothesis order_visits : forall m, Permutation (order m) (map_to_list m).

Lemma last_seen_snoc calls call id t : last_seen (calls ++ [call]) id t <->
  call = (t, id) \/ (snd call <> id /\ last_seen calls id t).
Proof.
  split.
  - intros (before & after & E & Hn). destruct after as [|a after _] using rev_ind.
    + apply app_inj_tail in E as [_ ->]. by left.
    + right. change (before ++ (t, id) :: after ++ [a]) with (before ++ ((t, id) :: after) ++ [a]) in E. rewrite app_assoc in E.
      apply app_inj_tail in E as [-> ->]. split.
      * destruct a as [u i]. cbn. intros ->. apply (Hn u), elem_of_app. right. apply list_elem_of_here.
      * exists before, after. split; [done|]. intros u Hu. apply (Hn u), elem_of_app. by left.
  - intros [->|[Hne (before & after & -> & Hn)]].
    + exists calls, []. split; [done|]. intros u Hu. by apply not_elem_of_nil in Hu.
    + exists before, (after ++ [call]). rewrite <-app_assoc. split; [done|].
      intros u [Hu|Hu%list_elem_of_singleton]%elem_of_app; [by apply (Hn u)|]. by subst call.
Qed.
Lemma elem_of_others calls t id k : k ∈ others_since calls t id <-> exists u, (u, k) ∈ calls /\ (t <= u)%Z /\ k <> id /\ k <> "".
Proof.
  unfold others_since. rewrite elem_of_list_to_set, list_elem_of_fmap. split.
  - intros ([u k'] & -> & Hin%list_elem_of_filter). cbn in *. exists u. tauto.
  - intros (u & Hin & Hrest). exists (u, k). split; [done|]. apply list_elem_of_filter. by cbn.
Qed.
Lemma others_since_mono calls call t id : others_since calls t id ⊆ others_since (calls ++ [call]) t id.
Proof. intros k (u & Hu & ?)%elem_of_others. apply elem_of_others. exists u. split; [apply elem_of_app; by left|done]. Qed.
Lemma last_seen_elem calls id t : last_seen calls id t -> (t, id) ∈ calls.
Proof. intros (before & after & -> & _). apply elem_of_app. right. apply list_elem_of_here. Qed.

(** The entry evicted is one of the oldest. *)
Lemma foldl_older l : forall k t, k <> "" -> Forall (fun e => fst e <> "") l ->
  let r := foldl older (k, t) l in
  (r = (k, t) \/ r ∈ l) /\ (snd r <= t)%Z /\ Forall (fun e => (snd r <= snd e)%Z) l /\ fst r <> "".
Proof.
  induction l as [|[k' t'] l IH]; intros k t Hk Hl r; subst r; cbn [foldl].
  - split_and!; [by left|cbn; lia|constructor|done].
  - apply Forall_cons in Hl as [Hk' Hl]. cbn [older]. rewrite bool_decide_false by done. cbn [orb].
    destruct (Z.ltb_spec t' t) as [Hlt|Hge].
    + destruct (IH k' t' Hk' Hl) as (H1 & H2 & H3 & H4). split_and!; [|lia|by constructor|done].
      right. destruct H1 as [->|?]; [apply list_elem_of_here|by apply list_elem_of_further].
    + destruct (IH k t Hk Hl) as (H1 & H2 & H3 & H4). split_and!; [|lia|constructor; [cbn; lia|done]|done].
      destruct H1 as [?|?]; [by left|right; by apply list_elem_of_further].
Qed.
Lemma evictOldest_spec m : m <> ∅ -> m !! "" = None ->
  exists k t, m !! k = Some t /\ evictOldest m = delete k m /\ forall k' t', m !! k' = Some t' -> (t <= t')%Z.
Proof.
  intros Hm He. unfold evictOldest.
  assert (forall k t, (k, t) ∈ order m <-> m !! k = Some t) as Hin by (intros k t; by rewrite order_visits, elem_of_map_to_list).
  destruct (order m) as [|[k t] l] eqn:El.
  { destruct Hm. apply map_empty. intros k. destruct (m !! k) as [t|] eqn:E; [|done]. apply Hin in E. by apply not_elem_of_nil in E. }
  assert (Forall (fun e => fst e <> "") ((k, t) :: l)) as Hall.
  { apply Forall_forall. intros [k' t'] Hx%Hin. cbn. intros ->. congruence. }
  apply Forall_cons in Hall as [Hk Hl]. cbn [foldl older]. rewrite bool_decide_true by done. cbn [orb].
  destruct (foldl_older l k t Hk Hl) as (H1 & H2 & H3 & H4). destruct (foldl older (k, t) l) as [ko to]. cbn [fst snd] in *.
  rewrite bool_decide_false by done. exists ko, to. split_and!; [|done|].
  - apply Hin. destruct H1 as [[= -> ->]|?]; [apply list_elem_of_here|by apply list_elem_of_further].
  - intros k' t' [[= -> ->]|Hx]%Hin%elem_of_cons; [done|]. rewrite Forall_forall in H3. by apply (H3 (k', t')).
Qed.

Lemma time_sub_within d now t : (minDuration <= d < maxDuration)%Z -> ~ (d < time_sub now t)%Z <-> (now - t <= d)%Z.
Proof. unfold time_sub. lia. Qed.

(** What the cache holds after the calls. *)
Record dedupe_inv (calls : list (Z * string)) (c : DedupeCache) : Prop := {
  inv_seen : forall k t, entries c !! k = Some t -> k <> "" /\ last_seen calls k t;
  inv_size : (Z.of_nat (size (entries c)) <= defaultDedupeMaxEntries)%Z;
  inv_limit : maxEntries c = defaultDedupeMaxEntries;
  inv_kept : forall k t, k <> "" -> last_seen calls k t -> (forall call, call ∈ calls -> fst call - t <= ttl c)%Z ->
    (Z.of_nat (size (others_since calls t k)) < defaultDedupeMaxEntries)%Z -> entries c !! k = Some t;
}.

Section step.
Context (calls : list (Z * string)) (c : DedupeCache) (now : Z) (id : string).
Hypothesis Hinv : dedupe_inv calls c.
Hypothesis Hid : id <> "".
Hypothesis Hnow : forall call, call ∈ calls -> (fst call <= now)%Z.
Hypothesis Httl : (minDuration <= ttl c < maxDuration)%Z.
Let m := evict_expired now (ttl c) (entries c).

Lemma live_lookup k t : m !! k = Some t <-> entries c !! k = Some t /\ (now - t <= ttl c)%Z.
Proof. unfold m, evict_expired. by rewrite map_lookup_filter_Some, time_sub_within. Qed.
Lemma live_size : (size m <= size (entries c))%nat.
Proof. apply map_size_filter. Qed.
(** Writing the delivery into entries that keep what they must. *)
Lemma insert_inv m' limit : m' ⊆ m -> limit = defaultDedupeMaxEntries -> (Z.of_nat (size (<[id := now]> m')) <= defaultDedupeMaxEntries)%Z ->
  (forall k t, k <> id -> m !! k = Some t -> (Z.of_nat (size (others_since (calls ++ [(now, id)]) t k)) < defaultDedupeMaxEntries)%Z -> m' !! k = Some t) ->
  dedupe_inv (calls ++ [(now, id)]) {| entries := <[id := now]> m'; ttl := ttl c; maxEntries := limit |}.
Proof.
  intros Hsub Hlim Hsize Hkeep. constructor; cbn [entries ttl maxEntries]; [|done|done|].
  - intros k t [[<- <-]|[Hne Hk]]%lookup_insert_Some; [split; [done|]; apply last_seen_snoc; by left|].
    apply (lookup_weaken _ _ _ _ Hk) in Hsub. apply live_lookup in Hsub as [Hsub _].
    apply (inv_seen _ _ Hinv) in Hsub as [? ?]. split; [done|]. apply last_seen_snoc. right. cbn. split; congruence.
  - intros k t Hk Hl Hall Hn. apply last_seen_snoc in Hl as [[= <- <-]|[Hne Hl]]; [by rewrite lookup_insert_eq|]. cbn in Hne.
    rewrite lookup_insert_ne by done. apply Hkeep; [congruence| |done]. apply live_lookup. split.
    + apply (inv_kept _ _ Hinv k t Hk Hl); [intros call ?; apply Hall, elem_of_app; by left|].
      eapply Z.le_lt_trans; [|exact Hn]. apply Nat2Z.inj_le, subseteq_size, others_since_mono.
    + apply (Hall (now, id)), elem_of_app. right. apply list_elem_of_here.
Qed.
(** An entry with fewer than the limit of others since its instant is not the one evicted. *)
Lemma evicted_has_others k t : m !! k = Some t -> m !! id = None -> k <> id ->
  (forall k' t', m !! k' = Some t' -> (t <= t')%Z) -> (size m <= size (others_since (calls ++ [(now, id)]) t k))%nat.
Proof.
  intros Hk Hn Hne Hold. transitivity (size (({[id]} ∪ dom m) ∖ {[k]} : gset string)).
  - rewrite <-(size_dom (D := gset string)). assert (id ∉ dom m) as Hi by (by apply not_elem_of_dom).
    rewrite size_difference by (apply elem_of_dom_2 in Hk; set_solver).
    rewrite size_union by set_solver. rewrite !size_singleton. lia.
  - apply subseteq_size. intros k' [[->%elem_of_singleton|[t' Ht']%elem_of_dom]%elem_of_union Hkn]%elem_of_difference; apply elem_of_others.
    + exists now. split; [apply elem_of_app; right; apply list_elem_of_here|]. split; [|split; congruence].
      apply live_lookup in Hk as [[_ Hl%last_seen_elem]%(inv_seen _ _ Hinv) _]. by apply Hnow in Hl.
    + rewrite elem_of_singleton in Hkn. assert (t <= t')%Z by eauto. apply live_lookup in Ht' as [[? Hl%last_seen_elem]%(inv_seen _ _ Hinv) _].
      exists t'. split; [apply elem_of_app; by left|done].
Qed.
Lemma IsDuplicate_inv : dedupe_inv (calls ++ [(now, id)]) (snd (IsDuplicate c id now)) /\ ttl (snd (IsDuplicate c id now)) = ttl c.
Proof.
  unfold IsDuplicate. rewrite bool_decide_false by done. fold m. pose proof live_size as Hls. pose proof (inv_size _ _ Hinv) as Hs.
  pose proof (inv_limit _ _ Hinv) as Hl. rewrite Hl. change (defaultDedupeMaxEntries <? 1)%Z with false. cbv iota.
  destruct (m !! id) as [t0|] eqn:Eid; cbn [snd].
  { split; [|done]. apply insert_inv; [done|done| |done]. rewrite map_size_insert, Eid. unfold Datatypes.id. lia. }
  destruct (Z.leb_spec defaultDedupeMaxEntries (Z.of_nat (size m))) as [Hfull|Hroom]; (split; [|done]).
  - destruct (evictOldest_spec m) as (ko & to & Hko & -> & Hold).
    { intros ->. rewrite map_size_empty in Hfull. done. }
    { destruct (m !! "") eqn:E; [|done]. apply live_lookup in E as [E _]. by apply (inv_seen _ _ Hinv) in E as [? _]. }
    apply insert_inv; [apply delete_subseteq|done| |].
    + rewrite map_size_insert, lookup_delete_ne, Eid, map_size_delete, Hko by congruence. unfold defaultDedupeMaxEntries in *. lia.
    + intros k t Hne Hk Hn. rewrite lookup_delete_ne; [done|]. intros ->. rewrite Hk in Hko. injection Hko as ->.
      pose proof (evicted_has_others _ _ Hk Eid Hne Hold). lia.
  - apply insert_inv; [done|done| |done]. rewrite map_size_insert, Eid. lia.
Qed.
End step.

(** The calls come in the order of their instants. *)
Definition in_order (calls : list (Z * string)) : Prop := StronglySorted Z.le (fst <$> calls).
Lemma in_order_snoc calls call : in_order (calls ++ [call]) ->
  in_order calls /\ forall c, c ∈ calls -> (fst c <= fst call)%Z.
Proof.
  unfold in_order. rewrite fmap_app. intros (Hl & Hs & _)%StronglySorted_app. split; [done|].
  intros c Hc. apply Hl; [by apply list_elem_of_fmap_2|apply list_elem_of_here].
Qed.
Lemma dedupe_inv_blank calls c now : dedupe_inv calls c -> dedupe_inv (calls ++ [(now, "")]) c.
Proof.
  intros [Hs Hz Hl Hk]. constructor; [|done..|].
  - intros k t H. apply Hs in H as [? ?]. split; [done|]. apply last_seen_snoc. right. cbn. split; congruence.
  - intros k t Hne [[= <- ?]|[_ H]]%last_seen_snoc Hall Hn; [done|]. apply Hk; [done|done| |].
    + intros call ?. apply Hall, elem_of_app. by left.
    + eapply Z.le_lt_trans; [|exact Hn]. apply Nat2Z.inj_le, subseteq_size, others_since_mono.
Qed.
Lemma run_calls_inv d calls : (minDuration <= d < maxDuration)%Z -> in_order calls ->
  dedupe_inv calls (run_calls (NewDedupeCache d) calls) /\ ttl (run_calls (NewDedupeCache d) calls) = d.
Proof.
  intros Hd. induction calls as [|[now id] calls IH] using rev_ind; intros Hord.
  - split; [|done]. constructor; cbn; [by intros ? ? ?|rewrite map_size_empty; done|done|].
    intros k t _ (before & after & E & _). by destruct before.
  - apply in_order_snoc in Hord as [Hord Hnow]. destruct (IH Hord) as [Hinv Ht].
    unfold run_calls in *. rewrite foldl_app. cbn [foldl].
    set (c := foldl _ (NewDedupeCache d) calls) in *. destruct (decide (id = "")) as [->|Hid].
    + split; [|done]. by apply dedupe_inv_blank.
    + rewrite <-Ht. apply IsDuplicate_inv; [done..|by rewrite Ht].
Qed.

(** [C31] A delivery is dropped only as a duplicate: the cache answers yes only for an
    identifier it was last asked about within its time to live, so no fresh delivery is
    lost; it answers yes whenever that is so and fewer than the 4096 other identifiers
    it keeps came since; and it never holds more than those, however many arrive. *)
Theorem duplicates_within_ttl d calls now id :
  (minDuration <= d < maxDuration)%Z -> in_order (calls ++ [(now, id)]) ->
  let c := run_calls (NewDedupeCache d) calls in
  (fst (IsDuplicate c id now) = true -> id <> "" /\ exists t, last_seen calls id t /\ (now - t <= d)%Z)
  /\ (forall t, id <> "" -> last_seen calls id t -> (now - t <= d)%Z ->
        (Z.of_nat (size (others_since calls t id)) < defaultDedupeMaxEntries)%Z -> fst (IsDuplicate c id now) = true)
  /\ (Z.of_nat (size (entries (snd (IsDuplicate c id now)))) <= defaultDedupeMaxEntries)%Z.
Proof.
  intros Hd Hord c. assert (Hall := run_calls_inv d (calls ++ [(now, id)]) Hd Hord). apply in_order_snoc in Hord as [Hord Hnow].
  destruct (run_calls_inv d calls Hd Hord) as [Hinv Ht]. fold c in Hinv, Ht. split_and!.
  - unfold IsDuplicate. case_bool_decide as Hid; [done|]. destruct (evict_expired _ _ _ !! id) as [t|] eqn:E; [|by cbn].
    intros _. split; [done|]. exists t. apply live_lookup in E as [E ?]; [|by rewrite Ht]. rewrite Ht in *.
    split; [|done]. by apply (inv_seen _ _ Hinv) in E as [_ ?].
  - intros t Hid Hl Hw Hn. unfold IsDuplicate. rewrite bool_decide_false by done.
    assert (evict_expired now (ttl c) (entries c) !! id = Some t) as ->; [|done].
    apply live_lookup; [by rewrite Ht|]. rewrite Ht. split; [|done]. apply (inv_kept _ _ Hinv id t Hid Hl); [|done].
    intros call Hc. apply Hnow in Hc. cbn in Hc. rewrite Ht. lia.
  - destruct Hall as [Hall _]. unfold run_calls in Hall. rewrite foldl_app in Hall. cbn [foldl] in Hall. apply (inv_size _ _ Hall).
Qed.
End cache.

(** ** A run *)
Definition sample_calls : list (Z * string) := [(0, "a"); (5 * minute, "b"); (6 * minute, "")]%Z.
Lemma duplicates_within_ttl_witness :
  fst (IsDuplicate map_to_list (run_calls map_to_list (NewDedupeCache (10 * minute)) sample_calls) "a" (10 * minute)) = true
  /\ fst (IsDuplicate map_to_list (run_calls map_to_list (NewDedupeCache (10 * minute)) sample_calls) "a" (11 * minute)) = false.
Proof.
  split; [|vm_compute; reflexivity].
  refine (proj1 (proj2 (duplicates_within_ttl map_to_list _ (10 * minute) sample_calls (10 * minute) "a" _ _)) 0%Z _ _ _ _).
  - intros m. reflexivity.
  - unfold minDuration, maxDuration. vm_compute. split; [discriminate|reflexivity].
  - repeat constructor; vm_compute; discriminate.
  - discriminate.
  - exists [], [(5 * minute, "b"); (6 * minute, "")]%Z. split; [reflexivity|]. intros u Hu.
    repeat (apply elem_of_cons in Hu as [Hu|Hu]; [discriminate|]). by apply not_elem_of_nil in Hu.
  - vm_compute. discriminate.
  - vm_compute. reflexivity.
Defined.
