(* ===== verification/Secrets.v ===== *)
(** * Secret placeholders, keys and detection

    Models [src/secrets/normalize.go], the placeholder syntax of
    [src/secrets/secret_placeholders.go] and the detection of
    [src/secrets/secret_detection.go]. The walkers over payloads bound their depth; as
    functions they recurse on the depth that is left, [max_depth] at the root, and
    having none left is the error of the code, so no fuel is made up. *)
From S2P Require Import Prelude GoText GoTextFacts Faults Value Pointer.
Local Open Scope nat_scope.

(** ** Keys *)
Definition NormalizeKey (key : string) : result error string :=
  let trimmed := trim_bytes is_slash (trim_space key) in
  if trimmed == "" then Err (Invalid "secret key must not be empty" None)
  else
    let parts := split_on slash trimmed in
    if existsb (fun part => (part == "") || (part == ".") || (part == "..")) parts
    then Err (Invalid "secret key contains invalid path segment" None)
    else Ok (str_join "/" parts).

(** ** Walking a payload

    [maxPayloadDepth] is 256: a value at depth 257 is refused. *)
Definition max_depth : nat := 257.
Definition depth_error : error := Invalid "secret payload exceeds maximum nesting depth" None.

Section walk.
Context {St : Type} (f : string -> value -> St -> result error (value * St)).

(** The loop over the sorted keys of a map, and over the indices of a slice; [f] gets
    the key, or the index in decimal, and threads the state. *)
Fixpoint each_key (m : object) (keys : list string) (st : St) : result error (object * St) :=
  match keys with
  | [] => Ok (∅, st)
  | key :: keys =>
      match m !! key with
      | None => each_key m keys st
      | Some field =>
          '(child, st) ← f key field st;
          '(r, st) ← each_key m keys st;
          Ok (<[key := child]> r, st)
      end
  end.
Fixpoint each_index (idx : Z) (items : list value) (st : St) : result error (list value * St) :=
  match items with
  | [] => Ok ([], st)
  | item :: items =>
      '(child, st) ← f (itoa idx) item st;
      '(r, st) ← each_index (idx + 1) items st;
      Ok (child :: r, st)
  end.
End walk.

(** ** Placeholders *)
Definition joinAttributePath (prefix key : string) : string :=
  let trimmedKey := trim_space key in
  if trimmedKey == "" then ""
  else
    let escapedKey := EscapeJSONPointerToken trimmedKey in
    if trim_space prefix == "" then "/" +:+ escapedKey else prefix +:+ "/" +:+ escapedKey.

(** [unicode.IsSpace(rune(b))] for one byte. *)
Definition is_space_byte (c : ascii) : bool :=
  is_ascii_space c || (byte_Z c =? 133)%Z || (byte_Z c =? 160)%Z.
Definition is_quoted (s : string) : bool := has_prefix s (String "034" "").

Inductive placeholder := NotPlaceholder | CurrentScope | SecretKey (key : string).

Section placeholders.
Context `{UnicodeTables}.

Definition unquote_error : error := errorf "invalid syntax".
Definition parseSecretPlaceholder (v : string) : result error placeholder :=
  let trimmed := trim_space v in
  if negb (has_prefix trimmed "{{") || negb (has_suffix trimmed "}}") then Ok NotPlaceholder
  else
    let inner := trim_space (trim_suffix (trim_prefix trimmed "{{") "}}") in
    if negb (has_prefix inner "secret") then Ok NotPlaceholder
    else if match byte_at inner 6 with Some next => negb (is_space_byte next) | None => false end
    then Ok NotPlaceholder
    else
      let argument := trim_space (trim_prefix inner "secret") in
      if argument == "" then Err (Invalid "secret placeholder argument is required" None)
      else if argument == "." then Ok CurrentScope
      else if is_quoted argument then
        match unquote argument with
        | None => Err (Invalid "secret placeholder key is invalid" (Some unquote_error))
        | Some parsed =>
            let parsed := trim_space parsed in
            if parsed == "" then Err (Invalid "secret placeholder key must not be empty" None)
            else Ok (SecretKey parsed)
        end
      else if contains_byte (fun c => (c == " "%char) || (c == "009"%char) || (c == "013"%char) || (c == "010"%char)) argument
      then Err (Invalid "secret placeholder key with spaces must be quoted" None)
      else Ok (SecretKey argument).

Definition resolvePlaceholderAttribute (p : placeholder) (currentPath : string) : result error string :=
  match p with
  | CurrentScope =>
      let resolved := trim_space currentPath in
      if resolved == "" then Err (Invalid "secret placeholder {{secret .}} requires map field scope" None)
      else Ok resolved
  | _ =>
      let resolved := trim_space (match p with SecretKey key => key | _ => "" end) in
      if resolved == "" then Err (Invalid "secret placeholder key must not be empty" None)
      else if has_prefix resolved "/" then
        Err (Invalid "secret placeholder key must be relative to the resource path" None)
      else Ok resolved
  end.
Definition resolvePlaceholderStoreKey (p : placeholder) (currentPath resourcePath : string) : result error string :=
  resolvedAttribute ← resolvePlaceholderAttribute p currentPath;
  if trim_space resourcePath == "" then Ok resolvedAttribute
  else Ok (trim_space resourcePath +:+ ":" +:+ resolvedAttribute).

Definition currentScopeSecretPlaceholder : string := "{{secret .}}".
Definition explicitSecretPlaceholder (key : string) : string := "{{secret " +:+ quote key +:+ "}}".

Fixpoint normalizePlaceholdersValue (depth_left : nat) (v : value) (currentPath : string) : result error value :=
  match depth_left with
  | O => Err depth_error
  | S depth_left =>
      let child key item (st : unit) :=
        c ← normalizePlaceholdersValue depth_left item (joinAttributePath currentPath key); Ok (c, st) in
      match v with
      | VMap m => '(r, _) ← each_key child m (sorted_keys m) tt; Ok (VMap r)
      | VList l => '(r, _) ← each_index child 0 l tt; Ok (VList r)
      | VString s =>
          p ← parseSecretPlaceholder s;
          match p with
          | NotPlaceholder => Ok v
          | _ =>
              resolvedKey ← resolvePlaceholderAttribute p currentPath;
              if resolvedKey == currentPath then Ok (VString currentScopeSecretPlaceholder)
              else Ok (VString (explicitSecretPlaceholder resolvedKey))
          end
      | _ => Ok v
      end
  end.
Definition NormalizePlaceholders (v : value) : result error value :=
  normalized ← Normalize v; normalizePlaceholdersValue max_depth normalized "".
End placeholders.

(** ** Detection *)
Section detection.
Context `{UnicodeTables}.
Abbreviation one_of s l := (existsb (fun x => s == x) l).

(** [current] is kept last rune first. *)
Definition flush_token (current : list Z) (tokens : list string) : list string :=
  match current with
  | [] => tokens
  | _ => tokens ++ [to_lower (string_of_runes (reverse current))]
  end.
Definition token_rune (st : list string * list Z) (symbol : Z) : list string * list Z :=
  let '(tokens, current) := st in
  if negb (is_letter symbol) && negb (is_digit symbol) then (flush_token current tokens, [])
  else
    let boundary := is_upper symbol &&
      match current with previous :: _ => is_lower previous || is_digit previous | [] => false end in
    if boundary then (flush_token current tokens, [symbol]) else (tokens, symbol :: current).
Definition splitIdentifierTokens (v : string) : list string :=
  let '(tokens, current) := foldl token_rune ([], []) (runes v) in flush_token current tokens.

Definition isSecretCoreToken (token : string) : bool :=
  one_of token ["password"; "passwd"; "pwd"; "passphrase"; "secret"; "token"].
Definition isSecretPairPrefixToken (token : string) : bool :=
  one_of token ["api"; "client"; "access"; "private"; "bearer"; "refresh"].
Definition isNonSecretQualifierToken (token : string) : bool :=
  one_of token
    ["mode"; "type"; "policy"; "method"; "strategy"; "preference"; "delivery"; "conveyance";
     "endpoint"; "url"; "uri"; "path"; "lifetime"; "lifespan"; "ttl"; "timeout"; "duration";
     "expiry"; "expires"; "expiration"; "validity"; "issuer"; "name"; "id"; "length";
     "size"; "count"; "min"; "max"; "enabled"; "enable"; "required"; "supported"; "allowed";
     "algorithm"; "alg"; "version"; "scheme"; "file"; "ref"; "reference"; "claim"; "claims";
     "header"; "response"; "exchange"; "creation"; "created"; "time"; "timestamp"; "requested";
     "request"; "use"; "lower"; "upper"; "case"; "format"].
(** [tokens[i]] satisfies [f]; false when there is no such token. *)
Definition token_is (f : string -> bool) (tokens : list string) (i : nat) : bool :=
  default false (f <$> tokens !! i).
Definition token_before_is (f : string -> bool) (tokens : list string) (i : nat) : bool :=
  match i with O => false | S j => token_is f tokens j end.

Definition strong_pair_at (tokens : list string) (idx : nat) : bool :=
  let pair := default "" (tokens !! idx) +:+ "_" +:+ default "" (tokens !! S idx) in
  if negb (one_of pair ["api_key"; "client_secret"; "access_key"; "access_token"; "private_key"; "bearer_token"; "refresh_token"])
  then false
  else if token_before_is isNonSecretQualifierToken tokens idx then false
  else if S idx == length tokens - 1 then true
  else negb (token_is isNonSecretQualifierToken tokens (idx + 2)).
Definition hasStrongSecretPair (tokens : list string) : bool :=
  existsb (strong_pair_at tokens) (seq 0 (length tokens - 1)).

(** The last loop of [isStandaloneSecretToken]. *)
Fixpoint scan_following (tokens : list string) : bool :=
  match tokens with
  | [] => true
  | next :: tokens =>
      if isSecretCoreToken next then true
      else if isNonSecretQualifierToken next then false
      else scan_following tokens
  end.
Definition isStandaloneSecretToken (tokens : list string) (idx : nat) : bool :=
  if length tokens <=? idx then false
  else if token_before_is isNonSecretQualifierToken tokens idx then false
  else if idx == length tokens - 1 then
    negb ((2 <=? idx) && token_is isNonSecretQualifierToken tokens (idx - 2)
          && (token_is isSecretCoreToken tokens (idx - 1) || token_is isSecretPairPrefixToken tokens (idx - 1)))
  else if token_is isNonSecretQualifierToken tokens (idx + 1) then false
  else scan_following (drop (idx + 2) tokens).

Definition isLikelySecretKey (key : string) : bool :=
  let tokens := splitIdentifierTokens key in
  if length tokens == 0 then false
  else if hasStrongSecretPair tokens then true
  else if one_of (str_join "" tokens)
    ["apikey"; "clientsecret"; "accesskey"; "accesstoken"; "privatekey"; "bearertoken"; "refreshtoken"]
  then true
  else existsb (fun idx => token_is isSecretCoreToken tokens idx && isStandaloneSecretToken tokens idx)
         (seq 0 (length tokens)).

Definition isLikelySecretValue (v : string) : bool :=
  let trimmed := trim_space v in
  if trimmed == "" then false
  else if one_of (to_lower trimmed) ["true"; "false"; "yes"; "no"; "on"; "off"; "enabled"; "disabled"] then false
  else negb (forallb (fun symbol => (48 <=? symbol)%Z && (symbol <=? 57)%Z) (runes trimmed)).

(** The candidates are a set: the state of the walk. *)
Fixpoint collectDetectedCandidates (depth_left : nat) (v : value) (currentPath : string)
    (candidates : gset string) : result error (gset string) :=
  match depth_left with
  | O => Err depth_error
  | S depth_left =>
      match v with
      | VMap m =>
          let visit key field candidates :=
            let attributePath := joinAttributePath currentPath key in
            candidates ←
              match isLikelySecretKey key, field with
              | true, VString s =>
                  p ← parseSecretPlaceholder s;
                  match p with
                  | NotPlaceholder => Ok (if isLikelySecretValue s then {[ attributePath ]} ∪ candidates else candidates)
                  | _ => Ok candidates
                  end
              | _, _ => Ok candidates
              end;
            candidates ← collectDetectedCandidates depth_left field attributePath candidates;
            Ok (VNil, candidates) in
          '(_, candidates) ← each_key visit m (sorted_keys m) candidates; Ok candidates
      | VList l =>
          let visit idx item candidates :=
            candidates ← collectDetectedCandidates depth_left item (joinAttributePath currentPath idx) candidates;
            Ok (VNil, candidates) in
          '(_, candidates) ← each_index visit 0 l candidates; Ok candidates
      | _ => Ok candidates
      end
  end.
Definition DetectSecretCandidates (v : value) : result error (list string) :=
  normalized ← Normalize v;
  candidates ← collectDetectedCandidates max_depth normalized "" ∅;
  Ok (sort_strings (elements candidates)).
End detection.

(** ** Facts about the loops *)
Section loops.
Context {St : Type} (f : string -> value -> St -> result error (value * St)).

Lemma each_key_result m keys : forall st r st',
  NoDup keys -> each_key f m keys st = Ok (r, st') ->
  forall k, is_Some (r !! k) <-> k ∈ keys /\ is_Some (m !! k).
Proof.
  induction keys as [|k0 keys IH]; intros st r st' Hd He k; cbn [each_key] in He.
  { injection He as <- <-. rewrite lookup_empty. split; [by intros []|]. intros [H _]. by apply not_elem_of_nil in H. }
  apply NoDup_cons in Hd as [Hn Hd]. destruct (m !! k0) as [v|] eqn:Hv.
  - apply bind_Ok in He as ([c st1] & Hc & He). apply bind_Ok in He as ([r' st2] & He & [= <- <-]).
    rewrite lookup_insert_is_Some, (IH _ _ _ Hd He), elem_of_cons. destruct (decide (k0 = k)) as [->|]; naive_solver.
  - rewrite (IH _ _ _ Hd He), elem_of_cons. split; [tauto|]. intros [[->|?] [w Hw]]; [congruence|eauto].
Qed.
End loops.

(** A loop that adds to a set: [A k v] is what the visit of [v] under [k] adds. *)
Section collecting.
Context (f : string -> value -> gset string -> result error (value * gset string)).
Context (A : string -> value -> string -> Prop).

Lemma each_key_collect m keys st r st' :
  (forall k v c st st', m !! k = Some v -> f k v st = Ok (c, st') -> forall p, p ∈ st' <-> p ∈ st \/ A k v p) ->
  each_key f m keys st = Ok (r, st') ->
  forall p, p ∈ st' <-> p ∈ st \/ exists k v, k ∈ keys /\ m !! k = Some v /\ A k v p.
Proof.
  intros Hf. revert st r st'. induction keys as [|k keys IH]; intros st r st' He p; cbn [each_key] in He.
  { injection He as <- <-. set_solver. }
  destruct (m !! k) as [v|] eqn:Hv.
  - apply bind_Ok in He as ([c st1] & Hc & He). apply bind_Ok in He as ([r' st2] & He & [= <- <-]).
    rewrite (IH _ _ _ He), (Hf _ _ _ _ _ Hv Hc). set_solver.
  - rewrite (IH _ _ _ He). set_solver.
Qed.
Lemma each_index_collect items : forall idx st r st',
  (forall k v c st st', v ∈ items -> f k v st = Ok (c, st') -> forall p, p ∈ st' <-> p ∈ st \/ A k v p) ->
  each_index f idx items st = Ok (r, st') ->
  forall p, p ∈ st' <-> p ∈ st \/ exists (i : nat) v, items !! i = Some v /\ A (itoa (idx + Z.of_nat i)) v p.
Proof.
  induction items as [|v items IH]; intros idx st r st' Hf He p; cbn [each_index] in He.
  { injection He as <- <-. set_solver. }
  apply bind_Ok in He as ([c st1] & Hc & He). apply bind_Ok in He as ([r' st2] & He & [= <- <-]).
  rewrite (IH _ _ _ _ (fun k v c st st' Hin => Hf k v c st st' (proj2 (elem_of_cons _ _ _) (or_intror Hin))) He).
  rewrite (Hf _ _ _ _ _ (list_elem_of_here _ _) Hc). split.
  - intros [[H|H]|(i & w & Hi & Hw)]; [by left|right; exists 0, v; split; [done|by rewrite Z.add_0_r]|].
    right. exists (S i), w. split; [done|]. by replace (idx + Z.of_nat (S i))%Z with (idx + 1 + Z.of_nat i)%Z by lia.
  - intros [H|(i & w & Hi & Hw)]; [by left; left|]. destruct i as [|i].
    + injection Hi as ->. left. right. by rewrite Z.add_0_r in Hw.
    + right. exists i, w. split; [done|]. by replace (idx + 1 + Z.of_nat i)%Z with (idx + Z.of_nat (S i))%Z by lia.
Qed.
End collecting.

(** ** What is detected *)
Section detected.
Context `{UnicodeTables}.

(** [string_field v prefix key path s]: below [v], reached by the attribute path
    [prefix], an object has the string [s] under [key], at the attribute path [path]. *)
Inductive string_field : value -> string -> string -> string -> string -> Prop :=
| field_here m prefix key s :
    m !! key = Some (VString s) -> string_field (VMap m) prefix key (joinAttributePath prefix key) s
| field_key m prefix k v key path s :
    m !! k = Some v -> string_field v (joinAttributePath prefix k) key path s -> string_field (VMap m) prefix key path s
| field_index l prefix (i : nat) v key path s :
    l !! i = Some v -> string_field v (joinAttributePath prefix (itoa (Z.of_nat i))) key path s ->
    string_field (VList l) prefix key path s.

Definition secret_candidate (key s : string) : Prop :=
  isLikelySecretKey key = true /\ parseSecretPlaceholder s = Ok NotPlaceholder /\ isLikelySecretValue s = true.
Definition detected (v : value) (prefix path : string) : Prop :=
  exists key s, string_field v prefix key path s /\ secret_candidate key s.

Lemma detected_map m prefix path : detected (VMap m) prefix path <->
  exists k v, k ∈ sorted_keys m /\ m !! k = Some v /\
    ((exists s, v = VString s /\ secret_candidate k s /\ path = joinAttributePath prefix k)
     \/ detected v (joinAttributePath prefix k) path).
Proof.
  split.
  - intros (key & s & Hf & Hc). inversion Hf; subst.
    + exists key, (VString s). rewrite elem_of_sorted_keys. split_and!; eauto.
    + exists k, v. rewrite elem_of_sorted_keys. split_and!; [eauto|done|right; by exists key, s].
  - intros (k & v & _ & Hk & [(s & -> & Hc & ->)|(key & s & Hf & Hc)]).
    + exists k, s. split; [by apply field_here|done].
    + exists key, s. split; [by eapply field_key|done].
Qed.
Lemma detected_list l prefix path : detected (VList l) prefix path <->
  exists (i : nat) v, l !! i = Some v /\ detected v (joinAttributePath prefix (itoa (Z.of_nat i))) path.
Proof.
  split.
  - intros (key & s & Hf & Hc). inversion Hf; subst. eexists _, _. split; [done|by exists key, s].
  - intros (i & v & Hi & key & s & Hf & Hc). exists key, s. split; [by eapply field_index|done].
Qed.
Lemma detected_leaf v prefix path : as_object v = None -> as_list v = None -> ~ detected v prefix path.
Proof. intros H1 H2 (key & s & Hf & _). by inversion Hf; subst. Qed.

Lemma collectDetectedCandidates_spec depth : forall v prefix st st',
  collectDetectedCandidates depth v prefix st = Ok st' ->
  forall p, p ∈ st' <-> p ∈ st \/ detected v prefix p.
Proof.
  induction depth as [|depth IH]; intros v prefix st st' Hc p; [done|]. cbn [collectDetectedCandidates] in Hc.
  destruct v; try (injection Hc as <-; split; [by left|intros [?|Hd]; [done|by apply detected_leaf in Hd]]).
  - apply bind_Ok in Hc as ([r st1] & He & [= <-]). rewrite detected_list.
    apply (each_index_collect _ (fun k v p => detected v (joinAttributePath prefix k) p)) with (p := p) in He.
    + rewrite He. by setoid_rewrite Z.add_0_l.
    + intros k v c s1 s2 _ Hf q. apply bind_Ok in Hf as (s3 & Hf & [= _ <-]). by apply (IH _ _ _ _ Hf).
  - apply bind_Ok in Hc as ([r st1] & He & [= <-]). rewrite detected_map.
    apply (each_key_collect _ (fun k v p =>
      (exists s, v = VString s /\ secret_candidate k s /\ p = joinAttributePath prefix k)
      \/ detected v (joinAttributePath prefix k) p)) with (p := p) in He; [done|].
    intros k v c s1 s2 Hk Hf q. apply bind_Ok in Hf as (s3 & Hs3 & Hf). apply bind_Ok in Hf as (s4 & Hf & [= _ <-]).
    rewrite (IH _ _ _ _ Hf). enough (q ∈ s3 <-> q ∈ s1 \/ exists s, v = VString s /\ secret_candidate k s
      /\ q = joinAttributePath prefix k) as -> by tauto.
    unfold secret_candidate. destruct (isLikelySecretKey k) eqn:Ek; [|injection Hs3 as <-; naive_solver].
    destruct v; try (injection Hs3 as <-; naive_solver). apply bind_Ok in Hs3 as (pl & Hp & Hs3).
    destruct pl; injection Hs3 as <-; [destruct (isLikelySecretValue s) eqn:Ev|..];
      try (split; [by left|]; intros [?|(s' & [= <-] & (_ & E1 & E2) & _)]; [done|congruence]).
    rewrite elem_of_union, elem_of_singleton. split; [intros [->|?]; [right; by exists s|by left]|].
    intros [?|(s' & [= <-] & _ & ->)]; auto.
Qed.

(** [DetectSecretCandidates] reports exactly the attribute paths of the string
    fields, at any depth of the normalized payload, whose key names a secret and whose
    value is neither a placeholder nor a flag nor a number; each path once, in byte
    order. *)
Theorem detection_exact v w paths :
  Normalize v = Ok w -> DetectSecretCandidates v = Ok paths ->
  (forall p, p ∈ paths <-> detected w "" p) /\ NoDup paths /\ StronglySorted String.le paths.
Proof.
  unfold DetectSecretCandidates. intros Hv Hd. apply bind_Ok in Hd as (w' & Hw & Hd).
  rewrite Hv in Hw. injection Hw as <-. apply bind_Ok in Hd as (st & Hc & Hd). injection Hd as <-. split_and!.
  - intros p. rewrite elem_of_sort_strings, elem_of_elements, (collectDetectedCandidates_spec _ _ _ _ _ Hc), elem_of_empty. tauto.
  - apply sort_strings_NoDup, NoDup_elements.
  - apply sort_strings_sorted.
Qed.
End detected.

Section witnesses.
#[local] Existing Instance latin1_tables.
Definition detect_sample : value := VMap {[ "user" := VString "x"; "db" := VMap {[ "password" := VString "s3" ]} ]}.
Lemma detection_exact_witness :
  (forall p, p ∈ ["/db/password"] <-> detected detect_sample "" p) /\ NoDup ["/db/password"]
  /\ StronglySorted String.le ["/db/password"].
Proof.
  apply (detection_exact detect_sample detect_sample ["/db/password"]).
  - vm_compute. reflexivity.
  - vm_compute. reflexivity.
Defined.
End witnesses.
