(* ===== verification/SecretsPayload.v ===== *)
(** * Masking and resolving the secrets of a payload

    Models [src/secrets/secret_masking.go], [src/secrets/secret_resolution.go] and
    [src/secrets/whole_resource_secret.go]. The callbacks are the operations of a
    secret store, the class [SecretStore]; [SecretStoreLaws] states what a store
    promises, and the round trip of masking and resolving is proved from it. *)
From S2P Require Import Prelude GoText GoTextFacts GoLib Faults Paths Value Pointer Descriptor Codec Secrets.
Local Open Scope nat_scope.

(** ** The store *)
Class SecretStore (S : Type) := {
  store_set : string -> string -> S -> S * option error;
  store_get : S -> string -> result error string;
}.
Class SecretStoreLaws (S : Type) `{SecretStore S} := {
  set_valid_key : forall k v s s', store_set k v s = (s', None) -> is_ok (NormalizeKey k) = true;
  get_after_set : forall k v s s' k', store_set k v s = (s', None) ->
    store_get s' k' = if NormalizeKey k' == NormalizeKey k then Ok v else store_get s k';
}.

(** ** Masking *)
Record mask_state := { candidates : gmap string string; scopeByKey : gmap string string }.
Definition ambiguous_error : error := Invalid "secret masking key scope is ambiguous" None.

Section masking.
Context `{UnicodeTables}.

(** The candidate test of one field of an object. *)
Definition mask_field (key : string) (field : value) (attributePath : string) (st : mask_state) : result error mask_state :=
  if isLikelySecretKey key then
    match field with
    | VString stringValue =>
        p ← parseSecretPlaceholder stringValue;
        match p with
        | NotPlaceholder =>
            match scopeByKey st !! key with
            | Some existingPath =>
                if negb (existingPath == attributePath) then Err ambiguous_error
                else match candidates st !! attributePath with
                     | Some _ => Err ambiguous_error
                     | None => Ok {| candidates := <[attributePath := stringValue]> (candidates st);
                                     scopeByKey := <[key := attributePath]> (scopeByKey st) |}
                     end
            | None =>
                match candidates st !! attributePath with
                | Some _ => Err ambiguous_error
                | None => Ok {| candidates := <[attributePath := stringValue]> (candidates st);
                                scopeByKey := <[key := attributePath]> (scopeByKey st) |}
                end
            end
        | _ => Ok st
        end
    | VNil => Ok st
    | _ => Err (Invalid "secret masking supports only string values for detected keys" None)
    end
  else Ok st.
Fixpoint collectMaskCandidates (depth_left : nat) (v : value) (currentPath : string) (st : mask_state)
    : result error mask_state :=
  match depth_left with
  | O => Err depth_error
  | S depth_left =>
      match v with
      | VMap m =>
          let visit key field st :=
            let attributePath := joinAttributePath currentPath key in
            st ← mask_field key field attributePath st;
            st ← collectMaskCandidates depth_left field attributePath st; Ok (VNil, st) in
          '(_, st) ← each_key visit m (sorted_keys m) st; Ok st
      | VList l =>
          let visit idx item st :=
            st ← collectMaskCandidates depth_left item (joinAttributePath currentPath idx) st; Ok (VNil, st) in
          '(_, st) ← each_index visit 0 l st; Ok st
      | _ => Ok st
      end
  end.
Definition is_masked (field : value) (attributePath : string) (cands : gmap string string) : result error bool :=
  match cands !! attributePath, field with
  | Some _, VString stringValue =>
      p ← parseSecretPlaceholder stringValue; Ok (match p with NotPlaceholder => true | _ => false end)
  | _, _ => Ok false
  end.
Fixpoint applyMask (depth_left : nat) (v : value) (currentPath : string) (cands : gmap string string) : result error value :=
  match depth_left with
  | O => Err depth_error
  | S depth_left =>
      match v with
      | VMap m =>
          let visit key field (_ : unit) :=
            let attributePath := joinAttributePath currentPath key in
            masked ← is_masked field attributePath cands;
            if masked : bool then Ok (VString currentScopeSecretPlaceholder, tt)
            else c ← applyMask depth_left field attributePath cands; Ok (c, tt) in
          '(r, _) ← each_key visit m (sorted_keys m) tt; Ok (VMap r)
      | VList l =>
          let visit idx item (_ : unit) :=
            c ← applyMask depth_left item (joinAttributePath currentPath idx) cands; Ok (c, tt) in
          '(r, _) ← each_index visit 0 l tt; Ok (VList r)
      | _ => Ok v
      end
  end.

Context {St : Type}.
(** The loop that hands the candidates to the store: what was stored before an error
    stays stored. *)
Fixpoint store_candidates (storeFn : string -> string -> St -> St * option error) (cands : gmap string string)
    (keys : list string) (s : St) : St * option error :=
  match keys with
  | [] => (s, None)
  | key :: keys =>
      match storeFn key (default "" (cands !! key)) s with
      | (s, Some err) => (s, Some err)
      | (s, None) => store_candidates storeFn cands keys s
      end
  end.
Definition MaskPayload (v : value) (storeFn : option (string -> string -> St -> St * option error)) (s : St)
    : St * result error value :=
  match storeFn with
  | None => (s, Err (Invalid "secret store function must not be nil" None))
  | Some storeFn =>
      match Normalize v with
      | Err err => (s, Err err)
      | Ok normalized =>
          match collectMaskCandidates max_depth normalized "" {| candidates := ∅; scopeByKey := ∅ |} with
          | Err err => (s, Err err)
          | Ok st =>
              match store_candidates storeFn (candidates st) (sorted_keys (candidates st)) s with
              | (s, Some err) => (s, Err err)
              | (s, None) => (s, applyMask max_depth normalized "" (candidates st))
              end
          end
      end
  end.
End masking.

(** ** Resolving *)
Section resolving.
Context `{UnicodeTables}.

Fixpoint resolvePayloadValue (depth_left : nat) (v : value) (currentPath resourcePath : string)
    (getFn : string -> result error string) (cache : gmap string string) : result error (value * gmap string string) :=
  match depth_left with
  | O => Err depth_error
  | S depth_left =>
      let child key item cache :=
        resolvePayloadValue depth_left item (joinAttributePath currentPath key) resourcePath getFn cache in
      match v with
      | VMap m => '(r, cache) ← each_key child m (sorted_keys m) cache; Ok (VMap r, cache)
      | VList l => '(r, cache) ← each_index child 0 l cache; Ok (VList r, cache)
      | VString s =>
          p ← parseSecretPlaceholder s;
          match p with
          | NotPlaceholder => Ok (v, cache)
          | _ =>
              resolvedKey ← resolvePlaceholderStoreKey p currentPath resourcePath;
              match cache !! resolvedKey with
              | Some cached => Ok (VString cached, cache)
              | None =>
                  resolved ← getFn resolvedKey;
                  Ok (VString resolved, <[resolvedKey := resolved]> cache)
              end
          end
      | _ => Ok (v, cache)
      end
  end.
Definition resolvePayloadWithResourceScope (v : value) (logicalPath : string)
    (getFn : option (string -> result error string)) : result error value :=
  match getFn with
  | None => Err (Invalid "secret get function must not be nil" None)
  | Some getFn =>
      normalized ← Normalize v;
      '(output, _) ← resolvePayloadValue max_depth normalized "" (trim_space logicalPath) getFn ∅;
      Ok output
  end.
Definition ResolvePayload (v : value) (getFn : option (string -> result error string)) : result error value :=
  resolvePayloadWithResourceScope v "" getFn.
Definition ResolvePayloadForResource (v : value) (logicalPath : string)
    (getFn : option (string -> result error string)) : result error value :=
  resolvePayloadWithResourceScope v logicalPath getFn.

(** *** Descriptor directives *)
Definition directive_name (inner : string) : option string :=
  if has_prefix inner "payload_type" then Some "payload_type"
  else if has_prefix inner "payload_media_type" then Some "payload_media_type"
  else if has_prefix inner "payload_extension" then Some "payload_extension"
  else None.
(** [None] is a string that is not a directive. *)
Definition resolvePayloadDescriptorPlaceholder (v : string) (descriptor : PayloadDescriptor) : result error (option string) :=
  let trimmed := trim_space v in
  if negb (has_prefix trimmed "{{") || negb (has_suffix trimmed "}}") then Ok None
  else
    let inner := trim_space (trim_suffix (trim_prefix trimmed "{{") "}}") in
    match directive_name inner with
    | None => Ok None
    | Some name =>
        if match byte_at inner (String.length name) with Some next => negb (is_space_byte next) | None => false end
        then Ok None
        else
          let argument := trim_space (trim_prefix inner name) in
          if argument == "" then Err (Invalid (name +:+ " placeholder argument is required") None)
          else if negb (argument == ".") then
            Err (Invalid (name +:+ " placeholder supports only {{" +:+ name +:+ " .}}") None)
          else if name == "payload_type" then Ok (Some (PayloadType descriptor))
          else if name == "payload_media_type" then Ok (Some (MediaType descriptor))
          else Ok (Some (Extension descriptor))
    end.
Fixpoint resolvePayloadDescriptorDirectivesValue (depth_left : nat) (v : value) (descriptor : PayloadDescriptor)
    : result error value :=
  match depth_left with
  | O => Err depth_error
  | S depth_left =>
      let child (_ : string) item (_ : unit) :=
        c ← resolvePayloadDescriptorDirectivesValue depth_left item descriptor; Ok (c, tt) in
      match v with
      | VMap m => '(r, _) ← each_key child m (sorted_keys m) tt; Ok (VMap r)
      | VList l => '(r, _) ← each_index child 0 l tt; Ok (VList r)
      | VString s =>
          resolvedValue ← resolvePayloadDescriptorPlaceholder s descriptor;
          match resolvedValue with Some t => Ok (VString t) | None => Ok v end
      | _ => Ok v
      end
  end.

(** *** Whole-resource secrets *)
Context `{TextCodecs}.
Definition wholeResourceSecretEncodingPrefix : string := "declarest:whole-resource:v1:base64:".
Definition EncodeWholeResourceSecret (content : Content) : result error string :=
  encoded ← EncodeContentPretty content;
  if valid_utf8 encoded && negb (has_prefix encoded wholeResourceSecretEncodingPrefix) then Ok encoded
  else Ok (wholeResourceSecretEncodingPrefix +:+ base64_encode encoded).
(** The cause is the library's error, without the offset of its text. *)
Definition base64_error : error := errorf "illegal base64 data".
Definition DecodeWholeResourceSecret (v : string) (descriptor : PayloadDescriptor) : result error value :=
  data ←
    if has_prefix v wholeResourceSecretEncodingPrefix then
      match base64_decode (trim_prefix v wholeResourceSecretEncodingPrefix) with
      | None => Err (Invalid "stored whole-resource secret payload is invalid" (Some base64_error))
      | Some decoded => Ok decoded
      end
    else Ok v;
  content ← DecodeContent data descriptor;
  Ok (content_Value content).

Definition wholeResourcePlaceholderString (v : value) : option string :=
  match v with
  | VString s | VBinary s | VBinaryPtr (Some s) => Some s
  | _ => None
  end.
Definition resolveWholeResourceSecretKey (logicalPath : string) (p : placeholder) : result error string :=
  match p with
  | CurrentScope => Ok (trim_space logicalPath +:+ ":.")
  | _ =>
      let resolved := trim_space (match p with SecretKey key => key | _ => "" end) in
      if resolved == "" then Err (Invalid "secret placeholder key must not be empty" None)
      else if has_prefix resolved "/" then
        Err (Invalid "secret placeholder key must be relative to the resource path" None)
      else Ok (trim_space logicalPath +:+ ":" +:+ resolved)
  end.
(** [Ok None] is a payload that is not handled; every error is a handled one. *)
Definition ResolveWholeResourcePlaceholderForResource (v : value) (logicalPath : string)
    (descriptor : PayloadDescriptor) (getFn : option (string -> result error string)) : result error (option value) :=
  match getFn, wholeResourcePlaceholderString v with
  | Some getFn, Some text =>
      p ← parseSecretPlaceholder text;
      match p with
      | NotPlaceholder => Ok None
      | _ =>
          resolvedPath ← NormalizeLogicalPath logicalPath;
          secretKey ← resolveWholeResourceSecretKey resolvedPath p;
          secretValue ← getFn secretKey;
          decoded ← DecodeWholeResourceSecret secretValue descriptor;
          Ok (Some decoded)
      end
  | _, _ => Ok None
  end.
Definition ResolvePayloadDirectivesForResource (v : value) (logicalPath : string) (descriptor : PayloadDescriptor)
    (getFn : option (string -> result error string)) : result error value :=
  normalized ← Normalize v;
  let resolvedDescriptor := NormalizePayloadDescriptor descriptor in
  withDescriptor ← resolvePayloadDescriptorDirectivesValue max_depth normalized resolvedDescriptor;
  match getFn with
  | None => Ok withDescriptor
  | Some get =>
      whole ← ResolveWholeResourcePlaceholderForResource withDescriptor logicalPath resolvedDescriptor getFn;
      match whole with
      | Some resolved => Ok resolved
      | None =>
          '(output, _) ← resolvePayloadValue max_depth withDescriptor "" (trim_space logicalPath) get ∅;
          Ok output
      end
  end.
End resolving.

(** ** What a successful loop did to each member *)
Section visits.
Context {St : Type} (f : string -> value -> St -> result error (value * St)).
Context (R : St -> St -> Prop) `{!PreOrder R}.

Lemma each_key_visit (m : object) keys : forall st r st',
  NoDup keys ->
  (forall k v c s s', m !! k = Some v -> f k v s = Ok (c, s') -> R s s') ->
  each_key f m keys st = Ok (r, st') ->
  R st st' /\ (forall k v, k ∈ keys -> m !! k = Some v ->
    exists c s s', f k v s = Ok (c, s') /\ R st s /\ R s' st' /\ r !! k = Some c)
  /\ (forall k c, r !! k = Some c -> exists v, k ∈ keys /\ m !! k = Some v).
Proof.
  induction keys as [|k keys IH]; intros st r st' Hd HR He; cbn [each_key] in He.
  { injection He as <- <-. split_and!; [done|intros k v Hk; by apply not_elem_of_nil in Hk|].
    intros k c Hk. by rewrite lookup_empty in Hk. }
  apply NoDup_cons in Hd as [Hn Hd]. destruct (m !! k) as [v|] eqn:Hv.
  - apply bind_Ok in He as ([c st1] & Hc & He). apply bind_Ok in He as ([r' st2] & He & [= <- <-]).
    destruct (IH _ _ _ Hd HR He) as (H1 & H2 & H3). assert (R st st1) as H0 by by eapply HR. split_and!.
    + by transitivity st1.
    + intros k' v' [->|Hk']%elem_of_cons Hv'.
      * simplify_eq. exists c, st, st1. split_and!; [done..|apply lookup_insert_eq].
      * destruct (H2 _ _ Hk' Hv') as (c' & s & s' & ? & ? & ? & ?). exists c', s, s'. split_and!; [done|by transitivity st1|done|].
        rewrite lookup_insert_ne by (intros ->; done). done.
    + intros k' c' Hk'. destruct (decide (k = k')) as [->|]; [exists v; split; [by left|done]|].
      rewrite lookup_insert_ne in Hk' by done. destruct (H3 _ _ Hk') as (v' & ? & ?). exists v'. split; [by right|done].
  - destruct (IH _ _ _ Hd HR He) as (H1 & H2 & H3). split_and!; [done| |].
    + intros k' v' [->|Hk']%elem_of_cons Hv'; [by simplify_eq|eauto].
    + intros k' c' Hk'. destruct (H3 _ _ Hk') as (v' & ? & ?). exists v'. split; [by right|done].
Qed.

Lemma each_index_visit (items : list value) : forall idx st r st',
  (forall (i : nat) v c s s', items !! i = Some v -> f (itoa (idx + Z.of_nat i)) v s = Ok (c, s') -> R s s') ->
  each_index f idx items st = Ok (r, st') ->
  R st st' /\ length r = length items /\ forall i v, items !! i = Some v ->
    exists c s s', f (itoa (idx + Z.of_nat i)) v s = Ok (c, s') /\ R st s /\ R s' st' /\ r !! i = Some c.
Proof.
  induction items as [|v items IH]; intros idx st r st' HR He; cbn [each_index] in He.
  { injection He as <- <-. split_and!; done. }
  apply bind_Ok in He as ([c st1] & Hc & He). apply bind_Ok in He as ([r' st2] & He & [= <- <-]).
  assert (forall i : nat, (idx + Z.of_nat (S i))%Z = (idx + 1 + Z.of_nat i)%Z) as Es by lia.
  destruct (IH (idx + 1)%Z st1 r' st2) as (H1 & H2 & H3); [|done|].
  { intros i w c' s s' Hw Hf. apply (HR (S i) w c' s s' Hw). by rewrite Es. }
  assert (R st st1) as H0 by (apply (HR 0 v c st st1); [done|by rewrite Z.add_0_r]). split_and!.
  - by transitivity st1.
  - cbn. by rewrite H2.
  - intros [|i] w Hw.
    + injection Hw as ->. exists c, st, st1. rewrite Z.add_0_r. split_and!; done.
    + destruct (H3 i w Hw) as (c' & s & s' & Hc' & ? & ? & ?). exists c', s, s'.
      rewrite Es. split_and!; [done|by transitivity st1|done|done].
Qed.
End visits.

(** A loop all of whose visits succeed, from states satisfying [I]. *)
Section total.
Context {St : Type} (f : string -> value -> St -> result error (value * St)) (I : St -> Prop).

Lemma each_key_total (m g : object) keys : forall st,
  NoDup keys -> I st ->
  (forall k v s, k ∈ keys -> m !! k = Some v -> I s -> exists c s', g !! k = Some c /\ f k v s = Ok (c, s') /\ I s') ->
  exists r st', each_key f m keys st = Ok (r, st') /\ I st'
    /\ forall k, r !! k = if decide (k ∈ keys /\ is_Some (m !! k)) then g !! k else None.
Proof.
  induction keys as [|k keys IH]; intros st Hd Hi Hf; cbn [each_key].
  { eexists _, _. split_and!; [done|done|]. intros k. rewrite lookup_empty, decide_False; [done|].
    intros [Hk _]. by apply not_elem_of_nil in Hk. }
  apply NoDup_cons in Hd as [Hn Hd]. destruct (m !! k) as [v|] eqn:Hv.
  - destruct (Hf k v st) as (c & s' & Hg & -> & Hi'); [by left|done|done|]. cbn [mbind result_bind].
    destruct (IH s' Hd Hi') as (r & st' & -> & Hist & Hr); [intros; apply Hf; [by right|done..]|].
    cbn [mbind result_bind]. eexists _, _. split_and!; [done|done|]. intros k'. destruct (decide (k = k')) as [->|Hk].
    + rewrite lookup_insert_eq, decide_True; [done|]. split; [by left|eauto].
    + rewrite lookup_insert_ne, Hr by done. apply decide_ext. rewrite elem_of_cons. naive_solver.
  - destruct (IH st Hd Hi) as (r & st' & He & Hist & Hr); [intros; apply Hf; [by right|done..]|].
    rewrite He. eexists _, _. split_and!; [done|done|]. intros k'. rewrite Hr. apply decide_ext. rewrite elem_of_cons.
    split; [tauto|]. intros [[->|?] [w Hw]]; [congruence|eauto].
Qed.
Lemma each_key_total_sorted (m g : object) st :
  (forall k, is_Some (m !! k) <-> is_Some (g !! k)) -> I st ->
  (forall k v s, m !! k = Some v -> I s -> exists c s', g !! k = Some c /\ f k v s = Ok (c, s') /\ I s') ->
  exists st', each_key f m (sorted_keys m) st = Ok (g, st') /\ I st'.
Proof.
  intros Hdom Hi Hf. destruct (each_key_total m g (sorted_keys m) st) as (r & st' & He & Hi' & Hr);
    [apply sorted_keys_NoDup|done|eauto|].
  exists st'. split; [|done]. rewrite He. do 2 f_equal. apply map_eq. intros k. rewrite Hr.
  case_decide as Hk; [done|]. destruct (g !! k) eqn:E; [|done]. destruct Hk.
  assert (is_Some (m !! k)) by (apply Hdom; eauto). split; [by apply elem_of_sorted_keys|done].
Qed.
Lemma each_index_total (items g : list value) : forall idx st,
  length g = length items -> I st ->
  (forall i v s, items !! i = Some v -> I s ->
     exists c s', g !! i = Some c /\ f (itoa (idx + Z.of_nat i)) v s = Ok (c, s') /\ I s') ->
  exists st', each_index f idx items st = Ok (g, st') /\ I st'.
Proof.
  revert g. induction items as [|v items IH]; intros [|x g] idx st Hl Hi Hf; try done; cbn [each_index]; [by exists st|].
  destruct (Hf 0 v st) as (c & s' & [= <-] & Hc & Hi'); [done..|]. rewrite Z.add_0_r in Hc. rewrite Hc. cbn [mbind result_bind].
  destruct (IH g (idx + 1)%Z s') as (st' & -> & ?); [by injection Hl|done| |by exists st'].
  intros i w s Hw Hs. destruct (Hf (S i) w s) as (c' & s'' & ? & Hc' & ?); [done..|].
  exists c', s''. replace (idx + 1 + Z.of_nat i)%Z with (idx + Z.of_nat (S i))%Z by lia. done.
Qed.
End total.

(** ** Attribute paths

    With keys that are trimmed, ASCII and not empty, the attribute path of a field is
    the JSON pointer of the keys and indices that lead to it. *)
Section attribute_paths.
Implicit Types (ks : list string) (k : string).

Definition plain_key k : Prop := k <> "" /\ trimmed k /\ ascii_text k.

Lemma pointer_snoc ks k :
  JSONPointerFromTokens (ks ++ [k]) = JSONPointerFromTokens ks +:+ "/" +:+ EscapeJSONPointerToken k.
Proof.
  unfold JSONPointerFromTokens. induction ks as [|x ks IH]; cbn; [by str|]. rewrite IH. by str.
Qed.
Lemma pointer_inj ks ks' : JSONPointerFromTokens ks = JSONPointerFromTokens ks' -> ks = ks'.
Proof.
  assert (forall t ts, JSONPointerFromTokens (t :: ts) <> "") as Hne by (intros; by rewrite pointer_join).
  destruct ks as [|t ts], ks' as [|t' ts']; [done|intros E; by destruct (Hne t' ts')|intros E; by destruct (Hne t ts)|].
  intros E. apply (f_equal (fun s => split_on slash (str_drop 1 s))) in E. rewrite !pointer_split in E.
  assert (Inj (=) (=) EscapeJSONPointerToken) as Hinj.
  { intros x y Exy. assert (Ok (E := error) x = Ok y) as [= ->]; [|done]. by rewrite <-!unescape_escape, Exy. }
  exact (inj (fmap (M := list) EscapeJSONPointerToken) _ _ E).
Qed.
Lemma escape_last k c : ascii_text (k +:+ String c "") ->
  exists s d, EscapeJSONPointerToken (k +:+ String c "") = s +:+ String d "" /\ is_ascii d = true
    /\ (is_ascii_space d = true -> is_ascii_space c = true).
Proof.
  rewrite escape_map, str_map_app, all_bytes_app. cbn [all_bytes str_map]. rewrite app_empty_r.
  intros [_ Hc]%andb_true_iff. rewrite andb_true_r in Hc. unfold escape_byte.
  case_eqb c "~"%char; [exists (str_map escape_byte k +:+ "~"), "0"%char; by str|].
  case_eqb c "/"%char; [exists (str_map escape_byte k +:+ "~"), "1"%char; by str|].
  exists (str_map escape_byte k), c. done.
Qed.
Lemma plain_key_last k : plain_key k -> exists s c, k = s +:+ String c "" /\ is_ascii_space c = false.
Proof.
  intros (Hn & [_ Ht] & Ha). revert Hn Ht Ha. pattern k. apply str_snoc_ind; [done|]. intros s c _ _ Ht Ha.
  exists s, c. split; [done|]. rewrite all_bytes_app in Ha. cbn in Ha. apply andb_true_iff in Ha as [_ Ha].
  rewrite andb_true_r in Ha. by rewrite trails_space_ascii in Ht.
Qed.
Lemma pointer_trimmed ks : Forall plain_key ks -> trimmed (JSONPointerFromTokens ks).
Proof.
  induction ks as [|k ks _] using rev_ind; [by intros _|]. intros [_ Hk]%Forall_app. rewrite Forall_singleton in Hk. split.
  - rewrite pointer_snoc. destruct ks; [by apply leads_space_solid|]. rewrite pointer_join, str_app_assoc. by apply leads_space_solid.
  - rewrite pointer_snoc. destruct (plain_key_last k Hk) as (s & c & -> & Hc).
    destruct Hk as (_ & _ & Ha). destruct (escape_last s c Ha) as (u & d & -> & Hd & Hs).
    rewrite <-!str_app_assoc, trails_space_ascii by done. destruct (is_ascii_space d); [|done]. by rewrite Hs in Hc.
Qed.
Lemma joinAttributePath_pointer ks k : Forall plain_key ks -> plain_key k ->
  joinAttributePath (JSONPointerFromTokens ks) k = JSONPointerFromTokens (ks ++ [k]).
Proof.
  intros Hks Hk. unfold joinAttributePath. destruct Hk as (Hn & Ht & Ha).
  rewrite (trim_space_id k), (bool_decide_false _ Hn), pointer_snoc by done.
  destruct ks as [|t ts]; [by rewrite bool_decide_true|]. rewrite bool_decide_false; [done|].
  rewrite trim_space_id by by apply pointer_trimmed. by rewrite pointer_join.
Qed.

(** Indices are plain keys. *)
Lemma digit_byte_solid n : (0 <= n)%Z -> solid (digit_byte (n mod 10)) = true /\ is_ascii (digit_byte (n mod 10)) = true.
Proof.
  intros Hn. assert (exists i : nat, (n mod 10)%Z = Z.of_nat i /\ i < 10) as (i & -> & Hi).
  { exists (Z.to_nat (n mod 10)). assert (H := Z.mod_pos_bound n 10 ltac:(lia)). rewrite Z2Nat.id by lia. lia. }
  do 10 (destruct i as [|i]; [done|]). lia.
Qed.
Lemma dec_digits_solid fuel : forall n acc, (0 <= n)%Z ->
  all_bytes (fun c => solid c && is_ascii c) acc = true ->
  all_bytes (fun c => solid c && is_ascii c) (dec_digits fuel n acc) = true.
Proof.
  induction fuel as [|fuel IH]; intros n acc Hn Ha; cbn [dec_digits]; [done|].
  assert (all_bytes (fun c => solid c && is_ascii c) (String (digit_byte (n mod 10)) acc) = true) as Hd.
  { cbn [all_bytes]. destruct (digit_byte_solid n Hn) as [-> ->]. done. }
  destruct (n <? 10)%Z; [done|]. apply IH; [|done]. apply Z.div_pos; lia.
Qed.
Lemma dec_digits_nonempty fuel n acc : dec_digits (S fuel) n acc <> "".
Proof.
  assert (forall fuel n c acc, dec_digits fuel n (String c acc) <> "") as E.
  { induction fuel0 as [|f IH]; intros; cbn [dec_digits]; [done|]. destruct (_ <? _)%Z; [done|]. apply IH. }
  cbn [dec_digits]. destruct (_ <? _)%Z; [done|]. apply E.
Qed.
Lemma solid_text_trimmed s : all_bytes (fun c => solid c && is_ascii c) s = true -> trimmed s.
Proof.
  intros Hs. split.
  - destruct s as [|c s]; [done|]. cbn in Hs. apply leads_space_solid. by apply andb_true_iff in Hs as [[? _]%andb_true_iff _].
  - revert Hs. pattern s. apply str_snoc_ind; [done|]. intros t c _. rewrite all_bytes_app. cbn [all_bytes].
    intros [_ [Hc _]%andb_true_iff]%andb_true_iff. apply trails_space_solid. by apply andb_true_iff in Hc as [? _].
Qed.
Lemma index_plain (i : nat) : plain_key (itoa (Z.of_nat i)).
Proof.
  unfold itoa, dec_fuel. assert ((Z.of_nat i <? 0)%Z = false) as -> by (apply Z.ltb_ge, Nat2Z.is_nonneg).
  assert (H := dec_digits_solid (S (Z.to_nat (Z.log2 (Z.of_nat i)))) (Z.of_nat i) "" ltac:(lia) eq_refl).
  split_and!; [apply dec_digits_nonempty|by apply solid_text_trimmed|].
  revert H. generalize (dec_digits (S (Z.to_nat (Z.log2 (Z.of_nat i)))) (Z.of_nat i) "") as s. clear.
  induction s as [|c s IH]; [done|]. cbn. intros [[_ Hc]%andb_true_iff Hs]%andb_true_iff. by rewrite Hc, IH.
Qed.

(** *** Store keys of attribute paths *)
Lemma escape_nonempty k : k <> "" -> EscapeJSONPointerToken k <> "".
Proof.
  destruct k as [|c k]; [done|]. intros _. rewrite escape_cons. unfold escape_byte.
  destruct (c == "~"%char); [done|]. by destruct (c == "/"%char).
Qed.
Lemma NormalizeKey_pointer ks n : Forall plain_key ks ->
  NormalizeKey (JSONPointerFromTokens ks) = Ok n -> n = str_join "/" (map EscapeJSONPointerToken ks).
Proof.
  intros Hks. destruct ks as [|k ks]; [done|]. unfold NormalizeKey. rewrite trim_space_id by by apply pointer_trimmed.
  assert (trim_bytes is_slash (JSONPointerFromTokens (k :: ks)) = str_join "/" (map EscapeJSONPointerToken (k :: ks))) as ->.
  { rewrite pointer_join. apply trim_slashes_join; [done| |apply Forall_fmap, Forall_true; intros; apply escape_no_slash].
    apply Forall_fmap. eapply Forall_impl; [done|]. intros x (Hn & _). by apply escape_nonempty. }
  rewrite split_on_join; [|done|apply Forall_fmap, Forall_true; intros; apply escape_no_slash].
  destruct (_ == ""); [done|]. destruct (existsb _ _); [done|]. by intros [= <-].
Qed.
Lemma NormalizeKey_inj ks ks' : Forall plain_key ks -> Forall plain_key ks' ->
  is_ok (NormalizeKey (JSONPointerFromTokens ks)) = true ->
  NormalizeKey (JSONPointerFromTokens ks) = NormalizeKey (JSONPointerFromTokens ks') -> ks = ks'.
Proof.
  intros H1 H2 Hv E. destruct (NormalizeKey (JSONPointerFromTokens ks)) as [n|] eqn:E1; [|done].
  symmetry in E. assert (ks <> [] /\ ks' <> []) as [N1 N2] by (split; intros ->; done).
  apply NormalizeKey_pointer in E1, E; [|done..]. subst n. apply pointer_inj.
  destruct ks, ks'; try done. by rewrite !pointer_join, E.
Qed.
End attribute_paths.

(** ** Masking: what is collected and what is replaced *)
Section mask_lemmas.
Context `{UnicodeTables}.

Definition plain_secret (key s : string) : Prop :=
  isLikelySecretKey key = true /\ parseSecretPlaceholder s = Ok NotPlaceholder.

Lemma mask_field_spec key field p st st' : mask_field key field p st = Ok st' ->
  candidates st ⊆ candidates st'
  /\ (forall s, field = VString s -> plain_secret key s -> candidates st' !! p = Some s)
  /\ (forall q t, candidates st' !! q = Some t -> candidates st !! q = Some t \/
        q = p /\ isLikelySecretKey key = true).
Proof.
  unfold mask_field, plain_secret. destruct (isLikelySecretKey key) eqn:Ek.
  2: { intros [= <-]. split_and!; [done|intros s _ [? _]; done|auto]. }
  destruct field; try done.
  { intros [= <-]. split_and!; [done|done|auto]. }
  intros (pl & Hp & Hm)%bind_Ok.
  assert (pl = NotPlaceholder /\ candidates st !! p = None /\
    st' = {| candidates := <[p := s]> (candidates st); scopeByKey := <[key := p]> (scopeByKey st) |}
    \/ pl <> NotPlaceholder /\ st' = st) as [(-> & Hn & ->)|[Hpl ->]].
  { destruct pl; [left|(right; split; [discriminate|congruence])..].
    destruct (scopeByKey st !! key) as [ep|]; [destruct (negb _); [done|]|];
      (destruct (candidates st !! p) eqn:Ec; [done|]; by injection Hm as <-). }
  - cbn. split_and!; [by apply insert_subseteq|intros s' [= <-] _; apply lookup_insert_eq|].
    intros q t [[<- <-]|[_ Hq]]%lookup_insert_Some; auto.
  - split_and!; [done| |auto]. intros s' [= <-] [_ E]. congruence.
Qed.

Lemma string_field_leaf v prefix key p s :
  string_field v prefix key p s -> as_object v = None -> as_list v = None -> False.
Proof. by inversion 1. Qed.

(** Everything collected, and only fields whose key names a secret. *)
Lemma collectMaskCandidates_spec depth : forall v prefix st st',
  collectMaskCandidates depth v prefix st = Ok st' ->
  candidates st ⊆ candidates st'
  /\ forall key p s, string_field v prefix key p s -> plain_secret key s -> candidates st' !! p = Some s.
Proof.
  set (R := fun a b : mask_state => candidates a ⊆ candidates b).
  assert (PreOrder R) as HR by (split; [intros a; unfold R; done|intros a b c; unfold R; intros Hab Hbc; by trans (candidates b)]).
  induction depth as [|depth IH]; intros v prefix st st' Hc; [done|]. cbn [collectMaskCandidates] in Hc.
  destruct v; try (injection Hc as <-; split; [done|]; intros key p t Hf _; by apply string_field_leaf in Hf).
  - apply bind_Ok in Hc as ([r st1] & He & [= <-]).
    apply (each_index_visit _ R) in He as (V1 & _ & V3).
    2: { intros k v c s s' _ Hf. apply bind_Ok in Hf as (s1 & Hs1 & [= _ <-]). by apply IH in Hs1 as [? _]. }
    split; [done|]. intros key p t Hf Hp. inversion Hf; subst. match goal with Hi : _ !! _ = Some _ |- _ =>
      destruct (V3 _ _ Hi) as (c & s1 & s2 & Hv & _ & V4 & _) end.
    apply bind_Ok in Hv as (s3 & Hs3 & [= _ <-]). rewrite Z.add_0_l in Hs3. apply IH in Hs3 as [_ Hs3].
    eapply lookup_weaken; [|exact V4]. by eapply Hs3.
  - apply bind_Ok in Hc as ([r st1] & He & [= <-]).
    apply (each_key_visit _ R) in He as (V1 & V2 & _); [|apply sorted_keys_NoDup|].
    2: { intros k v c s s' _ Hf. apply bind_Ok in Hf as (s1 & Hs1 & Hf). apply bind_Ok in Hf as (s2 & Hs2 & [= _ <-]).
         apply mask_field_spec in Hs1 as [? _]. apply IH in Hs2 as [? _]. unfold R. by trans (candidates s1). }
    split; [done|]. intros key p t Hf Hp. inversion Hf; subst; match goal with Hk : m !! _ = Some _ |- _ =>
      destruct (V2 _ _ (proj2 (elem_of_sorted_keys _ _) (ex_intro _ _ Hk)) Hk) as (c & s1 & s2 & Hv & _ & V4 & _) end;
      apply bind_Ok in Hv as (s3 & Hs3 & Hv); apply bind_Ok in Hv as (s4 & Hs4 & [= _ <-]).
    + apply mask_field_spec in Hs3 as (_ & Hs3 & _). apply IH in Hs4 as [Hs4 _].
      eapply lookup_weaken; [|exact V4]. eapply lookup_weaken; [|exact Hs4]. by apply Hs3.
    + apply IH in Hs4 as [_ Hs4]. eapply lookup_weaken; [|exact V4]. by eapply Hs4.
Qed.

(** What [applyMask] leaves: no plain secret under a key that names one. *)
Lemma applyMask_no_secret depth : forall v prefix cands w,
  applyMask depth v prefix cands = Ok w ->
  (forall key p s, string_field v prefix key p s -> plain_secret key s -> is_Some (cands !! p)) ->
  forall key p s, string_field w prefix key p s -> ~ plain_secret key s.
Proof.
  induction depth as [|depth IH]; intros v prefix cands w Ha Hc; [done|]. cbn [applyMask] in Ha.
  assert (PreOrder (fun _ _ : unit => True)) as HR by done.
  destruct v; try (injection Ha as <-; intros key p t Hf; by apply string_field_leaf in Hf).
  - apply bind_Ok in Ha as ([r u] & He & [= <-]).
    apply (each_index_visit _ (fun _ _ => True)) in He as (_ & Hl & V3); [|done].
    intros key p t Hf Hp. inversion Hf; subst. match goal with Hi : r !! i = Some _ |- _ => rename Hi into Hri end.
    destruct (l !! i) as [x|] eqn:Hx.
    2: { apply lookup_ge_None in Hx. apply lookup_lt_Some in Hri. lia. }
    destruct (V3 _ _ Hx) as (c & ? & ? & Hv & _ & _ & Hrc). simplify_eq. rewrite Z.add_0_l in Hv.
    apply bind_Ok in Hv as (c' & Hc' & [= -> _]).
    eapply (IH _ _ _ _ Hc'); [|done|done]. intros k q t' Hq. apply (Hc k q t'). by eapply field_index.
  - apply bind_Ok in Ha as ([r u] & He & [= <-]).
    apply (each_key_visit _ (fun _ _ => True)) in He as (_ & V2 & V3); [|apply sorted_keys_NoDup|done].
    assert (forall k x, r !! k = Some x -> exists y, m !! k = Some y /\
      (is_masked y (joinAttributePath prefix k) cands = Ok true /\ x = VString currentScopeSecretPlaceholder
       \/ is_masked y (joinAttributePath prefix k) cands = Ok false
          /\ applyMask depth y (joinAttributePath prefix k) cands = Ok x)) as Hr.
    { intros k x Hx. destruct (V3 _ _ Hx) as (y & Hk & Hy). exists y. split; [done|].
      destruct (V2 _ _ Hk Hy) as (c & ? & ? & Hv & _ & _ & Hc'). simplify_eq.
      apply bind_Ok in Hv as ([] & Hm & Hv); [injection Hv as <- _; by left|].
      apply bind_Ok in Hv as (c' & Hc'' & [= -> _]). by right. }
    intros key p t Hf [Hk Hp].
    inversion Hf as [? ? ? ? Hrk|? ? k x ? ? ? Hrk Hsf|]; subst; destruct (Hr _ _ Hrk) as (y & Hy & Hcase).
    + destruct Hcase as [[_ [= ->]]|[Hm Ha]]; [by vm_compute in Hp|].
      destruct depth; [done|]. cbn [applyMask] in Ha. destruct y; try discriminate Ha;
        try (apply bind_Ok in Ha as ([? ?] & _ & ?); done).
      injection Ha as ->. unfold is_masked in Hm.
      destruct (Hc key (joinAttributePath prefix key) t) as [x Hx]; [by apply field_here|done|].
      rewrite Hx, Hp in Hm. done.
    + destruct Hcase as [[_ ->]|[Hm Ha]]; [by apply string_field_leaf in Hsf|].
      eapply (IH _ _ _ _ Ha); [|exact Hsf|done]. intros k' q t' Hq. apply (Hc k' q t'). by eapply field_key.
Qed.
End mask_lemmas.

(** ** Resolving what was masked *)
Section round_trip.
Context `{UnicodeTables}.

(** Payloads without placeholders whose keys are their own attribute names. *)
Record plain_payload (v : value) : Prop := {
  plain_keys : forall m k x, subvalue (VMap m) v -> m !! k = Some x -> plain_key k;
  plain_strings : forall s, subvalue (VString s) v -> parseSecretPlaceholder s = Ok NotPlaceholder;
}.
Lemma plain_payload_key m k v : plain_payload (VMap m) -> m !! k = Some v -> plain_key k /\ plain_payload v.
Proof.
  intros [Hk Hs] Hm. split; [eapply Hk; [apply sub_refl|done]|].
  split; intros; [eapply Hk; [by eapply sub_map|done]|eapply Hs; by eapply sub_map].
Qed.
Lemma plain_payload_index l i v : plain_payload (VList l) -> l !! i = Some v -> plain_payload v.
Proof.
  intros [Hk Hs] Hl%list_elem_of_lookup_2. split; intros; [eapply Hk; [by eapply sub_list|done]|eapply Hs; by eapply sub_list].
Qed.

(** The nesting fits in the depth that is left. *)
Fixpoint fits (depth : nat) (v : value) : Prop :=
  match depth with
  | O => False
  | S depth =>
      match v with
      | VMap m => map_Forall (fun _ => fits depth) m
      | VList l => Forall (fits depth) l
      | _ => True
      end
  end.
(** Every candidate is the pointer of a path whose last key names a secret. *)
Definition secret_paths (cands : gmap string string) : Prop :=
  forall p t, cands !! p = Some t ->
  exists ks k, p = JSONPointerFromTokens (ks ++ [k]) /\ Forall plain_key (ks ++ [k]) /\ isLikelySecretKey k = true.

Lemma collectMaskCandidates_paths depth : forall v ks st st', plain_payload v -> Forall plain_key ks ->
  collectMaskCandidates depth v (JSONPointerFromTokens ks) st = Ok st' ->
  fits depth v /\ (secret_paths (candidates st) -> secret_paths (candidates st')).
Proof.
  set (R := fun a b : mask_state => secret_paths (candidates a) -> secret_paths (candidates b)).
  assert (PreOrder R) as HR by (split; [intros ? ?; done|intros a b c ? ? ?; auto]).
  induction depth as [|depth IH]; intros v ks st st' Hp Hks Hc; [done|]. cbn [collectMaskCandidates] in Hc.
  destruct v; try (injection Hc as <-; by split).
  - apply bind_Ok in Hc as ([r st1] & He & [= <-]).
    assert (forall (i : nat) x c s s', l !! i = Some x ->
      (st ← collectMaskCandidates depth x (joinAttributePath (JSONPointerFromTokens ks) (itoa (0 + Z.of_nat i))) s;
       Ok (VNil, st)) = Ok (c, s') -> fits depth x /\ R s s') as Hv.
    { intros i x c s s' Hx Hf. apply bind_Ok in Hf as (s1 & Hs1 & [= _ <-]). rewrite Z.add_0_l in Hs1.
      rewrite joinAttributePath_pointer in Hs1 by (done || apply index_plain).
      eapply IH; [by eapply plain_payload_index| |exact Hs1]. apply Forall_app. split; [done|].
      apply Forall_singleton, index_plain. }
    apply (each_index_visit _ R) in He as (V1 & _ & V3); [|intros; by eapply Hv].
    split; [|done]. apply Forall_lookup. intros i x Hx. destruct (V3 _ _ Hx) as (c & s1 & s2 & Hf & _). by eapply Hv.
  - apply bind_Ok in Hc as ([r st1] & He & [= <-]).
    assert (forall k x c s s', m !! k = Some x ->
      (st ← mask_field k x (joinAttributePath (JSONPointerFromTokens ks) k) s;
       st ← collectMaskCandidates depth x (joinAttributePath (JSONPointerFromTokens ks) k) st;
       Ok (VNil, st)) = Ok (c, s') -> fits depth x /\ R s s') as Hv.
    { intros k x c s s' Hx Hf. destruct (plain_payload_key _ _ _ Hp Hx) as [Hk Hpx].
      apply bind_Ok in Hf as (s1 & Hs1 & Hf). apply bind_Ok in Hf as (s2 & Hs2 & [= _ <-]).
      rewrite joinAttributePath_pointer in Hs1, Hs2 by done.
      assert (Forall plain_key (ks ++ [k])) as Hks' by (apply Forall_app; split; [done|by apply Forall_singleton]).
      destruct (IH _ _ _ _ Hpx Hks' Hs2) as [Hfx Hr]. split; [done|]. intros Hsp. apply Hr. intros p t Ht.
      apply mask_field_spec in Hs1 as (_ & _ & Hs1). destruct (Hs1 _ _ Ht) as [Hold|[-> Hl]]; [by eapply Hsp|].
      by exists ks, k. }
    apply (each_key_visit _ R) in He as (V1 & V2 & _); [|apply sorted_keys_NoDup|intros; by eapply Hv].
    split; [|done]. intros k x Hx.
    destruct (V2 _ _ (proj2 (elem_of_sorted_keys _ _) (ex_intro _ _ Hx)) Hx) as (c & s1 & s2 & Hf & _). by eapply Hv.
Qed.

(** The placeholder stands for the value stored under the path of its field. *)
Lemma parse_current : parseSecretPlaceholder currentScopeSecretPlaceholder = Ok CurrentScope.
Proof. vm_compute. reflexivity. Qed.
Lemma resolve_current depth ks get (cache : gmap string string) s :
  ks <> [] -> Forall plain_key ks ->
  cache !! JSONPointerFromTokens ks = Some s \/ cache !! JSONPointerFromTokens ks = None /\ get (JSONPointerFromTokens ks) = Ok s ->
  exists cache', resolvePayloadValue (S depth) (VString currentScopeSecretPlaceholder) (JSONPointerFromTokens ks) "" get cache
    = Ok (VString s, cache')
  /\ (cache' = cache \/ cache' = <[JSONPointerFromTokens ks := s]> cache).
Proof.
  intros Hn Hks Hc. cbn [resolvePayloadValue]. rewrite parse_current. cbn [mbind result_bind].
  unfold resolvePlaceholderStoreKey, resolvePlaceholderAttribute.
  rewrite (trim_space_id (JSONPointerFromTokens ks)) by by apply pointer_trimmed.
  rewrite (bool_decide_false (JSONPointerFromTokens ks = "")) by (destruct ks; [done|by rewrite pointer_join]). cbn [mbind result_bind].
  change (trim_space "" == "") with true. cbn [mbind result_bind].
  destruct Hc as [->|[-> ->]]; cbn [mbind result_bind]; eauto.
Qed.

Lemma resolve_masked cands get : secret_paths cands -> (forall p s, cands !! p = Some s -> get p = Ok s) ->
  forall depth v ks w cache, plain_payload v -> Forall plain_key ks -> fits depth v ->
  applyMask depth v (JSONPointerFromTokens ks) cands = Ok w ->
  (forall key p s, string_field v (JSONPointerFromTokens ks) key p s -> plain_secret key s -> cands !! p = Some s) ->
  cache ⊆ cands ->
  exists cache', resolvePayloadValue depth w (JSONPointerFromTokens ks) "" get cache = Ok (v, cache') /\ cache' ⊆ cands.
Proof.
  intros Hsp Hget. assert (PreOrder (fun _ _ : unit => True)) as HR by done.
  induction depth as [|depth IH]; intros v ks w cache Hp Hks Hfit Ha Hc Hcache; [done|]. cbn [applyMask] in Ha.
  destruct v; try (injection Ha as <-; by exists cache).
  - injection Ha as <-. exists cache. split; [|done]. cbn [resolvePayloadValue].
    rewrite (plain_strings _ Hp) by apply sub_refl. done.
  - apply bind_Ok in Ha as ([r u] & He & [= <-]).
    apply (each_index_visit _ (fun _ _ => True)) in He as (_ & Hl & V3); [|done].
    cbn [resolvePayloadValue].
    edestruct (each_index_total (fun key item cache =>
      resolvePayloadValue depth item (joinAttributePath (JSONPointerFromTokens ks) key) "" get cache)
      (fun c => c ⊆ cands) r l 0 cache) as (cache' & E & Hc'); [done|done| |].
    2: { rewrite E. cbn [mbind result_bind]. eauto. }
    intros i x c Hx Hcs. destruct (l !! i) as [y|] eqn:Hy.
    2: { apply lookup_ge_None in Hy. apply lookup_lt_Some in Hx. lia. }
    destruct (V3 _ _ Hy) as (x' & ? & ? & Hv & _ & _ & Hx'). simplify_eq. rewrite Z.add_0_l in *.
    apply bind_Ok in Hv as (x' & Hv & [= -> _]). rewrite joinAttributePath_pointer in Hv |- * by (done || apply index_plain).
    destruct (IH y (ks ++ [itoa (Z.of_nat i)]) x c) as (c' & Hr & Hcs').
    + by eapply plain_payload_index.
    + apply Forall_app. split; [done|]. apply Forall_singleton, index_plain.
    + eapply Forall_lookup_1; [exact Hfit|done].
    + done.
    + intros key p s Hf. apply Hc. eapply field_index; [done|]. by rewrite joinAttributePath_pointer by (done || apply index_plain).
    + done.
    + exists y, c'. done.
  - apply bind_Ok in Ha as ([r u] & He & [= <-]).
    apply (each_key_visit _ (fun _ _ => True)) in He as (_ & V2 & V3); [|apply sorted_keys_NoDup|done].
    cbn [resolvePayloadValue].
    edestruct (each_key_total_sorted (fun key item cache =>
      resolvePayloadValue depth item (joinAttributePath (JSONPointerFromTokens ks) key) "" get cache)
      (fun c => c ⊆ cands) r m cache) as (cache' & E & Hc').
    + intros k. split; intros [x Hx].
      * destruct (V3 _ _ Hx) as (y & _ & Hy). eauto.
      * destruct (V2 _ _ (proj2 (elem_of_sorted_keys _ _) (ex_intro _ _ Hx)) Hx) as (c & ? & ? & _ & _ & _ & ?). eauto.
    + done.
    + intros k x c Hx Hcs. destruct (V3 _ _ Hx) as (y & Hk & Hy).
      destruct (V2 _ _ Hk Hy) as (x' & ? & ? & Hv & _ & _ & Hx'). simplify_eq.
      destruct (plain_payload_key _ _ _ Hp Hy) as [Hpk Hpy]. rewrite joinAttributePath_pointer in Hv |- * by done.
      assert (Forall plain_key (ks ++ [k])) as Hks' by (apply Forall_app; split; [done|by apply Forall_singleton]).
      apply bind_Ok in Hv as (masked & Hm & Hv). destruct masked.
      * injection Hv as <- _. exists y. unfold is_masked in Hm.
        destruct (cands !! _) as [t|] eqn:Et; [|done]. destruct y; try done.
        destruct depth as [|depth]; [by specialize (Hfit _ _ Hy)|].
        assert (t = s) as ->.
        { destruct (Hsp _ _ Et) as (ks' & k' & Ep & _ & Hl). apply pointer_inj in Ep.
          apply app_inj_2 in Ep as [_ [= <-]]; [|done].
          enough (cands !! JSONPointerFromTokens (ks ++ [k]) = Some s) by congruence.
          apply (Hc k). { rewrite <-joinAttributePath_pointer by done. by apply field_here. }
          split; [done|]. apply (plain_strings _ Hpy), sub_refl. }
        destruct (resolve_current depth (ks ++ [k]) get c s) as (c' & Hr & Hc'); [by destruct ks|done| |].
        { destruct (c !! _) as [t'|] eqn:Ec; [left|right; split; [done|by apply Hget]].
          eapply lookup_weaken in Ec; [|exact Hcs]. congruence. }
        exists c'. split_and!; [done|exact Hr|]. destruct Hc' as [->| ->]; [done|]. by apply insert_subseteq_l.
      * apply bind_Ok in Hv as (x' & Hv & [= -> _]).
        destruct (IH y (ks ++ [k]) x c) as (c' & Hr & Hcs'); [done|done|by eapply Hfit|done| |done|].
        { intros key p s Hf. apply Hc. eapply field_key; [done|]. by rewrite joinAttributePath_pointer. }
        exists y, c'. done.
    + rewrite E. cbn [mbind result_bind]. eauto.
Qed.
End round_trip.

Lemma applyMask_normal `{UnicodeTables} depth : forall v prefix cands w,
  normal v -> applyMask depth v prefix cands = Ok w -> normal w.
Proof.
  assert (PreOrder (fun _ _ : unit => True)) as HR by done.
  induction depth as [|depth IH]; intros v prefix cands w Hn Ha; [done|]. cbn [applyMask] in Ha.
  destruct v; try (by injection Ha as <-).
  - apply bind_Ok in Ha as ([r u] & He & [= <-]). apply normal_list_inv in Hn.
    apply (each_index_visit _ (fun _ _ => True)) in He as (_ & Hl & V3); [|done].
    constructor. apply Forall_lookup. intros i x Hx. destruct (l !! i) as [y|] eqn:Hy.
    2: { apply lookup_ge_None in Hy. apply lookup_lt_Some in Hx. lia. }
    destruct (V3 _ _ Hy) as (x' & ? & ? & Hv & _ & _ & Hx'). simplify_eq.
    apply bind_Ok in Hv as (x' & Hv & [= -> _]). eapply IH; [|exact Hv]. by eapply Forall_lookup_1.
  - apply bind_Ok in Ha as ([r u] & He & [= <-]). apply normal_map_inv in Hn.
    apply (each_key_visit _ (fun _ _ => True)) in He as (_ & V2 & V3); [|apply sorted_keys_NoDup|done].
    constructor. intros k x Hx. destruct (V3 _ _ Hx) as (y & Hk & Hy).
    destruct (V2 _ _ Hk Hy) as (x' & ? & ? & Hv & _ & _ & Hx'). simplify_eq.
    apply bind_Ok in Hv as ([] & _ & Hv); [injection Hv as <- _; constructor|].
    apply bind_Ok in Hv as (x' & Hv & [= -> _]). eapply IH; [|exact Hv]. by eapply Hn.
Qed.

(** ** Properties *)
Section store.
Context `{UnicodeTables} {St : Type} `{SecretStoreLaws St}.

Lemma store_candidates_get cands keys : forall (s s' : St),
  secret_paths cands -> NoDup keys -> (forall k, k ∈ keys -> is_Some (cands !! k)) ->
  store_candidates store_set cands keys s = (s', None) ->
  (forall k v, k ∈ keys -> cands !! k = Some v -> store_get s' k = Ok v)
  /\ (forall k, (forall k', k' ∈ keys -> NormalizeKey k <> NormalizeKey k') -> store_get s' k = store_get s k).
Proof.
  induction keys as [|k keys IH]; intros s s' Hsp Hd Hk Hs; cbn [store_candidates] in Hs.
  { injection Hs as <-. split; [intros ? ? Hin; by apply not_elem_of_nil in Hin|done]. }
  apply NoDup_cons in Hd as [Hn Hd]. destruct (Hk k) as [v Hv]; [by left|]. rewrite Hv in Hs.
  change (default "" (Some v)) with v in Hs. destruct (store_set k v s) as [s1 [e|]] eqn:E; [done|].
  destruct (IH s1 s' Hsp Hd) as [G1 G2]; [intros; apply Hk; by right|done|]. split.
  - intros k' v' [->|Hk']%elem_of_cons Hv'; [|by apply G1]. simplify_eq. rewrite G2.
    + rewrite (get_after_set _ _ _ _ _ E). by rewrite bool_decide_true.
    + intros k' Hk' En. destruct (Hk k') as [t' Ht']; [by right|].
      destruct (Hsp _ _ Hv) as (ks1 & x1 & -> & P1 & _). destruct (Hsp _ _ Ht') as (ks2 & x2 & -> & P2 & _).
      apply NormalizeKey_inj in En; [|done|done|by eapply set_valid_key]. by rewrite En in Hn.
  - intros k' Hk'. rewrite G2; [|intros; apply Hk'; by right]. rewrite (get_after_set _ _ _ _ _ E).
    rewrite bool_decide_false; [done|]. apply Hk'. by left.
Qed.

(** [C32] Masking hides nothing halfway: when [MaskPayload] succeeds, no string of the
    result that is not itself a placeholder sits under a key that names a secret, at
    any depth. *)
Theorem mask_leaves_no_secret v (s s' : St) masked key p t :
  MaskPayload v (Some store_set) s = (s', Ok masked) ->
  string_field masked "" key p t -> isLikelySecretKey key = true ->
  parseSecretPlaceholder t <> Ok NotPlaceholder.
Proof.
  unfold MaskPayload. generalize max_depth as depth. intros depth. destruct (Normalize v) as [w|]; [|done].
  destruct (collectMaskCandidates depth w "" _) as [st|] eqn:Ec; [|done].
  destruct (store_candidates _ _ _ _) as [s1 [e|]]; [done|]. intros [= <- Ha] Hf Hk Hp.
  apply collectMaskCandidates_spec in Ec as [_ Ec].
  eapply applyMask_no_secret; [exact Ha| |exact Hf|split; [exact Hk|exact Hp]].
  intros k q u Hq Hu. exists u. by eapply Ec.
Qed.

(** A store that keeps what it is given resolves what was masked into it. *)
Lemma mask_resolve v w (s s' : St) masked :
  wf_value v -> Normalize v = Ok w -> plain_payload w ->
  MaskPayload v (Some store_set) s = (s', Ok masked) ->
  ResolvePayload masked (Some (store_get s')) = Ok w.
Proof.
  unfold MaskPayload, ResolvePayload, resolvePayloadWithResourceScope. generalize max_depth as depth.
  intros depth Hwf Hw Hp. assert (normal w) as Hn by eauto using normalizeValue_normal. rewrite Hw. destruct (collectMaskCandidates depth w "" _) as [st|] eqn:Ec; [|done].
  destruct (store_candidates _ _ _ _) as [s1 [e|]] eqn:Es; [done|]. intros [= <- Ha].
  assert (Normalize masked = Ok masked) as Hm by (eapply normalizeValue_id, applyMask_normal; eauto).
  destruct (collectMaskCandidates_spec _ _ _ _ _ Ec) as [_ Hc].
  apply (collectMaskCandidates_paths _ _ []) in Ec as [Hfit Hsp]; [|done|constructor].
  assert (secret_paths (candidates st)) as Hpaths by (apply Hsp; intros q u Hq; cbn in Hq; by rewrite lookup_empty in Hq).
  apply store_candidates_get in Es as [Hg _]; [|done|apply sorted_keys_NoDup|intros k; apply elem_of_sorted_keys].
  destruct (resolve_masked (candidates st) (store_get s1) Hpaths) with (depth := depth) (v := w) (ks := @nil string)
    (w := masked) (cache := ∅ : gmap string string) as (cache' & Hr & _).
  - intros q u Hq. apply Hg; [apply elem_of_sorted_keys; eauto|done].
  - done.
  - constructor.
  - exact Hfit.
  - exact Ha.
  - intros key q u Hq. by apply Hc with (key := key).
  - apply map_empty_subseteq.
  - rewrite Hm. change (trim_space "") with "". apply bind_Ok. exists masked. split; [done|].
    apply bind_Ok. exists (w, cache'). split; [exact Hr|done].
Qed.
(** [C5] Masking loses nothing: for any store that keeps what it is given, and any
    payload without placeholders whose keys are trimmed ASCII names, when [MaskPayload]
    succeeds then resolving the masked payload against the store gives the
    (normalized) payload back. *)
Theorem mask_resolve_round_trip v w (s s' : St) masked :
  wf_value v -> Normalize v = Ok w -> plain_payload w ->
  MaskPayload v (Some store_set) s = (s', Ok masked) ->
  ResolvePayload masked (Some (store_get s')) = Ok w.
Proof. apply mask_resolve. Qed.
End store.

Section whole_resource.
Context `{UnicodeTables, TextCodecs}.

(** A whole resource stored as one secret comes back: decoding what
    [EncodeWholeResourceSecret] wrote is decoding the content as it was encoded, byte
    for byte, whatever these bytes are (binary payloads and texts that happen to start
    with the encoding prefix included). *)
Theorem whole_resource_secret_round_trip content encoded text descriptor :
  EncodeContentPretty content = Ok encoded -> EncodeWholeResourceSecret content = Ok text ->
  DecodeWholeResourceSecret text descriptor = content_Value <$> DecodeContent encoded descriptor.
Proof.
  unfold EncodeWholeResourceSecret, DecodeWholeResourceSecret. intros -> Ht. cbn [mbind result_bind] in Ht.
  destruct (valid_utf8 encoded && negb (has_prefix encoded wholeResourceSecretEncodingPrefix)) eqn:E;
    injection Ht as <-.
  - apply andb_true_iff in E as [_ E]. apply negb_true_iff in E. rewrite E. cbn [mbind result_bind].
    by destruct (DecodeContent encoded descriptor).
  - rewrite has_prefix_app, trim_prefix_app, base64_round_trip. cbn [mbind result_bind].
    by destruct (DecodeContent encoded descriptor).
Qed.
End whole_resource.

(** A store for the witnesses: a map from normalized keys. *)
Section witnesses.
#[local] Existing Instance latin1_tables.
#[local] Existing Instance line_codecs.
Definition map_store_set (k v : string) (s : gmap string string) : gmap string string * option error :=
  match NormalizeKey k with Ok n => (<[n := v]> s, None) | Err e => (s, Some e) end.
Definition map_store_get (s : gmap string string) (k : string) : result error string :=
  n ← NormalizeKey k;
  match s !! n with Some v => Ok v | None => Err (NotFound "secret not found" None) end.
Definition map_store : SecretStore (gmap string string) := {| store_set := map_store_set; store_get := map_store_get |}.
#[local] Existing Instance map_store.
Lemma map_store_laws : SecretStoreLaws (gmap string string).
Proof.
  split.
  - intros k v s s' E. cbn in E. unfold map_store_set in E. by destruct (NormalizeKey k).
  - intros k v s s' k' E. cbn in *. unfold map_store_set, map_store_get in *.
    destruct (NormalizeKey k) as [n|e]; [|done]. injection E as <-.
    destruct (NormalizeKey k') as [n'|e']; cbn; [|by rewrite bool_decide_false].
    destruct (decide (n' = n)) as [->|Hn]; [by rewrite lookup_insert_eq, bool_decide_true|].
    rewrite lookup_insert_ne by done. rewrite bool_decide_false; [done|congruence].
Qed.
#[local] Existing Instance map_store_laws.
Definition secret_sample : value := VMap {[ "user" := VString "x"; "password" := VString "s3" ]}.
Definition masked_sample : value := VMap {[ "user" := VString "x"; "password" := VString "{{secret .}}" ]}.
Definition stored_sample : gmap string string := {[ "password" := "s3" ]}.
Lemma masked_sample_ok : MaskPayload secret_sample (Some store_set) (∅ : gmap string string) = (stored_sample, Ok masked_sample).
Proof. vm_compute. reflexivity. Qed.
Lemma mask_leaves_no_secret_witness : parseSecretPlaceholder "{{secret .}}" <> Ok NotPlaceholder.
Proof.
  apply (mask_leaves_no_secret secret_sample (∅ : gmap string string) stored_sample masked_sample "password" "/password").
  - exact masked_sample_ok.
  - apply (field_here _ "" "password"). reflexivity.
  - vm_compute. reflexivity.
Defined.
Lemma secret_sample_plain : plain_payload secret_sample.
Proof.
  split.
  - intros m k x Hs Hx. inversion Hs as [|? ? ? Hs'|? j y Hy Hs'| |]; subst.
    + apply lookup_insert_Some in Hx as [[<- _]|[_ Hx]]; [repeat split; done|].
      apply lookup_singleton_Some in Hx as [<- _]. repeat split; done.
    + apply lookup_insert_Some in Hy as [[<- <-]|[_ Hy]]; [inversion Hs'|].
      apply lookup_singleton_Some in Hy as [<- <-]. inversion Hs'.
  - intros s Hs. inversion Hs as [|? ? ? Hs'|? j y Hy Hs'| |]; subst.
    apply lookup_insert_Some in Hy as [[<- <-]|[_ Hy]]; [inversion Hs'; subst; vm_compute; reflexivity|].
    apply lookup_singleton_Some in Hy as [<- <-]. inversion Hs'; subst; vm_compute; reflexivity.
Qed.
Lemma mask_resolve_round_trip_witness : ResolvePayload masked_sample (Some (store_get stored_sample)) = Ok secret_sample.
Proof.
  apply (mask_resolve_round_trip secret_sample secret_sample (∅ : gmap string string) stored_sample).
  - apply normal_wf, normalb_normal. vm_compute. reflexivity.
  - vm_compute. reflexivity.
  - exact secret_sample_plain.
  - exact masked_sample_ok.
Defined.
Lemma whole_resource_secret_round_trip_witness :
  DecodeWholeResourceSecret ("declarest:whole-resource:v1:base64:" +:+ base64_encode (String "255" "")) (Build_PayloadDescriptor "binary" "" "")
  = content_Value <$> DecodeContent (String "255" "") (Build_PayloadDescriptor "binary" "" "").
Proof.
  apply (whole_resource_secret_round_trip
    {| content_Value := VBinary (String "255" ""); content_Descriptor := Build_PayloadDescriptor "binary" "" "" |});
    vm_compute; reflexivity.
Defined.
End witnesses.
