(* ===== verification/Services.v ===== *)
(** * Services of the orchestrator

    Models the interfaces the orchestrator is built on: the repository
    ([src/repository/resource_repository.go]), the metadata service
    ([src/metadata/metadata_service.go]), the managed service
    ([src/managedservice/managed_service_client.go]) and the secret provider, as records of
    operations over a state [W] of what is outside the program; the values a call context
    carries ([http_method_override_context.go], [request_validation_context.go]), and the
    resolver of [resource()] calls inside list expressions
    ([src/managedservice/list_jq_resource_resolver.go]). Reads of the repository, of the
    metadata and of the secrets leave [W] as it is; a call of the managed service may change
    it, whatever the call. *)
From S2P Require Import Prelude GoText GoTextFacts Faults Paths Value Descriptor Codec Metadata FsRender Identity Externalize.

(** ** Actions

    An action takes a state to its outcome and the next state; it is [None] when the fuel
    its loops were given runs out. *)
Definition action (W A : Type) : Type := W -> option (outcome A * W).
#[export] Instance action_ret {W} : MRet (action W) := fun A a w => Some (Ok a, w).
#[export] Instance action_bind {W} : MBind (action W) := fun A B f m w =>
  match m w with
  | Some (Ok a, w) => f a w
  | Some (Err e, w) => Some (Err e, w)
  | None => None
  end.
Definition of_outcome {W A} (r : outcome A) : action W A := fun w => Some (r, w).
Definition of_result {W A} (r : result error A) : action W A := of_outcome (lift r).
Definition fail {W A} (e : error) : action W A := of_result (Err e).
Definition read {W A} (f : W -> outcome A) : action W A := fun w => Some (f w, w).
Definition read_result {W A} (f : W -> result error A) : action W A := read (fun w => lift (f w)).
(** The error as a value, for the calls whose error the caller looks at; a panic goes on. *)
Definition catch {W A} (m : action W A) : action W (result error A) := fun w =>
  match m w with
  | Some (Ok a, w) => Some (Ok (Ok a), w)
  | Some (Err (Failed e), w) => Some (Ok (Err e), w)
  | Some (Err Panic, w) => Some (Err Panic, w)
  | None => None
  end.
Definition is_category (e : error) (c : ErrorCategory) : bool := IsCategory (Some e) c.

(** ** Resources in order *)
Definition path_le (a b : Resource) : Prop := String.le (LogicalPath a) (LogicalPath b).
#[export] Instance path_le_dec : RelDecision path_le.
Proof. intros a b. unfold path_le. apply _. Defined.
(** [sort.Slice] of resources by logical path: the order of equal paths is left open. *)
Class ResourceSort := {
  sort_resources : list Resource -> list Resource;
  sorted_permutation : forall items, sort_resources items ≡ₚ items;
  sorted_by_path : forall items, StronglySorted path_le (sort_resources items);
}.
(** One such sort, which leaves equal paths as they are. *)
Definition stable_sort : ResourceSort.
Proof.
  refine {| sort_resources := merge_sort path_le |}; intros items; [apply merge_sort_Permutation|].
  apply StronglySorted_merge_sort; [intros a b c; unfold path_le; intros Hab Hbc; by etrans|intros a b; unfold path_le; apply (total String.le)].
Defined.

(** ** The resolver of [resource()] calls *)
Record listJQResolverState := { cache : gmap string value; inFlight : gset string }.
Definition fresh_resolver : listJQResolverState := {| cache := ∅; inFlight := ∅ |}.
Definition stateMarkInFlight (st : listJQResolverState) (p : string) : listJQResolverState :=
  {| cache := cache st; inFlight := {[ p ]} ∪ inFlight st |}.
Definition stateUnmarkInFlight (st : listJQResolverState) (p : string) : listJQResolverState :=
  {| cache := cache st; inFlight := inFlight st ∖ {[ p ]} |}.
Definition stateStoreValue (st : listJQResolverState) (p : string) (v : value) : listJQResolverState :=
  {| cache := <[p := v]> (cache st); inFlight := inFlight st |}.
(** What is outside, with the resolver state of the context in use. *)
Abbreviation world W := (W * listJQResolverState)%type.
Definition outside {W A} (m : action W A) : action (world W) A := fun '(w, st) =>
  match m w with Some (r, w) => Some (r, (w, st)) | None => None end.
Definition read_outside {W A} (f : W -> result error A) : action (world W) A := outside (read_result f).

(** What a context carries: whether a resolver is installed, the overridden methods, and
    the validation of a request. *)
Record context := {
  resolver_installed : bool;
  method_overrides : gmap string string;
  request_validation : option (Operation * ResourceOperationSpecInput * OperationValidationSpec);
}.
Definition background : context := {| resolver_installed := false; method_overrides := ∅; request_validation := None |}.
Section contexts.
Context `{UnicodeTables}.
Definition WithOperationHTTPMethodOverride (ctx : context) (o : Operation) (method : string) : context :=
  if negb (IsValid o) then ctx
  else
    let normalized := to_upper (trim_space method) in
    if normalized == "" then ctx
    else {| resolver_installed := resolver_installed ctx;
            method_overrides := <[OperationSpec.operation_string o := normalized]> (method_overrides ctx);
            request_validation := request_validation ctx |}.
Definition OperationHTTPMethodOverride (ctx : context) (o : Operation) : option string :=
  if negb (IsValid o) then None
  else
    let v := to_upper (trim_space (default "" (method_overrides ctx !! OperationSpec.operation_string o))) in
    if v == "" then None else Some v.
Definition requestOperationSpecInputClone (v : ResourceOperationSpecInput) : ResourceOperationSpecInput :=
  {| in_LogicalPath := in_LogicalPath v; in_CollectionPath := in_CollectionPath v; in_LocalAlias := in_LocalAlias v;
     in_RemoteID := in_RemoteID v; in_PayloadDescriptor := empty_descriptor;
     in_Metadata := CloneResourceMetadata (in_Metadata v); in_Payload := in_Payload v |}.
Definition WithRequestOperationValidation (ctx : context) (o : Operation) (input : ResourceOperationSpecInput)
  (validate : option OperationValidationSpec) : context :=
  match validate, cloneOperationValidationSpec validate with
  | Some _, Some v =>
      if negb (IsValid o) then ctx
      else {| resolver_installed := resolver_installed ctx; method_overrides := method_overrides ctx;
              request_validation := Some (o, requestOperationSpecInputClone input, v) |}
  | _, _ => ctx
  end.
Definition RequestOperationValidation (ctx : context) : option (Operation * ResourceOperationSpecInput * OperationValidationSpec) :=
  match request_validation ctx with
  | Some (o, input, v) => if IsValid o then Some (o, requestOperationSpecInputClone input, v) else None
  | None => None
  end.

(** [WithListJQResourceResolver], around the calls made with the new context: its state is
    fresh, and is dropped with the context. *)
Definition WithListJQResourceResolver {W A} (ctx : context) (body : context -> action (world W) A) : action (world W) A :=
  if resolver_installed ctx then body ctx
  else fun '(w, st) =>
    match body {| resolver_installed := true; method_overrides := method_overrides ctx; request_validation := request_validation ctx |}
            (w, fresh_resolver) with
    | Some (r, (w, _)) => Some (r, (w, st))
    | None => None
    end.
(** The resolution of a normalized path: from the cache, or by the resolver, with the path
    in flight meanwhile. *)
Definition resolve_normalized {W} (ctx : context) (resolver : context -> string -> action (world W) value) (normalizedPath : string)
  : action (world W) (option value) := fun '(w, st) =>
  match cache st !! normalizedPath with
  | Some cached => Some (Ok (Some cached), (w, st))
  | None =>
      if bool_decide (normalizedPath ∈ inFlight st)
      then Some (Err (Failed (errorf ("resource() path " +:+ quote normalizedPath +:+ " creates a cyclic dependency"))), (w, st))
      else
        match resolver ctx normalizedPath (w, stateMarkInFlight st normalizedPath) with
        | Some (Ok v, (w, st)) => Some (Ok (Some v), (w, stateUnmarkInFlight (stateStoreValue st normalizedPath v) normalizedPath))
        | Some (Err e, (w, st)) => Some (Err e, (w, stateUnmarkInFlight st normalizedPath))
        | None => None
        end
  end.
(** [None] when no resolver is installed. *)
Definition ResolveListJQResource {W} (ctx : context) (resolver : context -> string -> action (world W) value) (logicalPath : string)
  : action (world W) (option value) :=
  if negb (resolver_installed ctx) then mret None
  else normalizedPath ← of_result (NormalizeLogicalPath logicalPath); resolve_normalized ctx resolver normalizedPath.
End contexts.

(** ** Interfaces *)
Record RequestSpec := {
  rs_Method : string; rs_Path : string; rs_Query : option (gmap string string); rs_Headers : option (gmap string string);
  rs_Accept : string; rs_ContentType : string; rs_Body : Content;
}.
Section interfaces.
Context (W : Type).
Record ResourceArtifactStore := {
  SaveResourceWithArtifacts : string -> Content -> list ResourceArtifact -> action W unit;
  ReadResourceArtifact : W -> string -> string -> result error string;
}.
Record ResourceStore := {
  store_Save : string -> Content -> action W unit;
  store_Get : W -> string -> result error Content;
  store_List : W -> string -> bool -> result error (list Resource);
  store_Exists : W -> string -> result error bool;
  store_artifacts : option ResourceArtifactStore;
}.
Record MetadataService := {
  service_ResolveForPath : W -> string -> result error ResourceMetadata;
  service_renderer : option (W -> ResourceOperationSpecInput -> Operation -> outcome OperationSpec);
}.
Record ManagedServiceClient := {
  client_Get : context -> Resource -> ResourceMetadata -> action W Content;
  client_Create : context -> Resource -> ResourceMetadata -> action W Content;
  client_Update : context -> Resource -> ResourceMetadata -> action W Content;
  client_Delete : context -> Resource -> ResourceMetadata -> action W unit;
  client_List : context -> (string -> action (world W) (option value)) -> string -> ResourceMetadata -> action (world W) (list Resource);
  client_Request : context -> RequestSpec -> action W Content;
  client_GetOpenAPISpec : context -> action W Content;
}.
Definition SecretProvider : Type := W -> string -> result error string.
Record Orchestrator := {
  repository : option ResourceStore;
  metadata_service : option MetadataService;
  server : option ManagedServiceClient;
  secrets : option SecretProvider;
}.
End interfaces.
Arguments SaveResourceWithArtifacts {W}. Arguments ReadResourceArtifact {W}.
Arguments store_Save {W}. Arguments store_Get {W}. Arguments store_List {W}. Arguments store_Exists {W}. Arguments store_artifacts {W}.
Arguments service_ResolveForPath {W}. Arguments service_renderer {W}.
Arguments client_Get {W}. Arguments client_Create {W}. Arguments client_Update {W}. Arguments client_Delete {W}.
Arguments client_List {W}. Arguments client_Request {W}. Arguments client_GetOpenAPISpec {W}.
Arguments repository {W}. Arguments metadata_service {W}. Arguments server {W}. Arguments secrets {W}.

Definition NormalizeRequestPath (v : string) : string :=
  let trimmed := trim_space v in
  if trimmed == "" then ""
  else
    let trimmed := if has_prefix trimmed "/" then trimmed else "/" +:+ trimmed in
    if negb (trimmed == "/") then trim_suffix trimmed "/" else trimmed.

(** ** What a repository promises

    In the states [repo_ok] describes, it gives back what was saved, normalized, and the files
    saved with it, for the payloads and the files it can store. *)
Record RepositoryLaws {U : UnicodeTables} {W} (store : ResourceStore W) := {
  repo_ok : W -> Prop;
  storable : Content -> Prop;
  artifact_file : string -> Prop;
  saved_content : forall p q c w w', repo_ok w -> NormalizeLogicalPath p = Ok q -> storable c -> store_Save store p c w = Some (Ok tt, w') ->
    repo_ok w' /\ exists v, Normalize (content_Value c) = Ok v /\
    store_Get store w' p = Ok {| content_Value := v; content_Descriptor := content_Descriptor c |};
  saved_artifacts : forall a p q c arts w w', store_artifacts store = Some a -> repo_ok w -> NormalizeLogicalPath p = Ok q -> storable c ->
    NoDup (art_File <$> arts) -> Forall (fun x => artifact_file (art_File x)) arts ->
    SaveResourceWithArtifacts a p c arts w = Some (Ok tt, w') ->
    repo_ok w' /\ (exists v, Normalize (content_Value c) = Ok v /\
      store_Get store w' p = Ok {| content_Value := v; content_Descriptor := content_Descriptor c |}) /\
    forall x, x ∈ arts -> ReadResourceArtifact a w' p (art_File x) = Ok (art_Content x);
}.
Arguments repo_ok {U W store}. Arguments storable {U W store}. Arguments artifact_file {U W store}.
Arguments saved_content {U W store}. Arguments saved_artifacts {U W store}.
