(* ===== verification/FsRepository.v ===== *)
(** * The repository in files, as the orchestrator sees it

    The repository of [FsStore] as a [ResourceStore] of the orchestrator, and the promise of
    [RepositoryLaws] kept by it on every disk that keeps [DiskLaws]. *)
From S2P Require Import Prelude GoText GoTextFacts Faults Paths GoDisk DiskLaws Value Descriptor Codec Overlay Externalize Identity Services FsStore FsStoreFacts.

Definition as_action {D} (run : D -> option error * D) : action D unit := fun d =>
  match run d with (None, d') => Some (Ok tt, d') | (Some err, d') => Some (Err (Failed err), d') end.
Lemma as_action_Ok {D} (run : D -> option error * D) d d' : as_action run d = Some (Ok tt, d') <-> run d = (None, d').
Proof. unfold as_action. destruct (run d) as [[e|] d1]; naive_solver. Qed.

Section store.
Context `{UnicodeTables, TextCodecs} {D : Type} `{Disk D}.
Definition fs_artifacts (r : LocalResourceRepository) : ResourceArtifactStore D := {|
  Services.SaveResourceWithArtifacts := fun p c artifacts => as_action (FsStore.SaveResourceWithArtifacts r p c artifacts);
  Services.ReadResourceArtifact := fun d p file => FsStore.ReadResourceArtifact r d p file;
|}.
Definition fs_store (r : LocalResourceRepository) : ResourceStore D := {|
  store_Save := fun p c => as_action (Save r p c);
  store_Get := fun d p => Get r d p;
  store_List := fun d p Recursive => FsStore.List r d p Recursive;
  store_Exists := fun d p => Exists r d p;
  store_artifacts := Some (fs_artifacts r);
|}.
End store.

Section laws.
Context `{UnicodeTables, TextCodecs} {D : Type} `{DiskLaws D}.
Context (bs : list string) (m : string) (Hbs : Forall clean_segment bs).
Abbreviation repo := {| baseDir := path_of bs; metadataBaseDir := m |}.

(** The payloads that come back as they are: the descriptor is explicit and that of the file
    it names, and what is encoded is decoded to the same value. *)
Definition fs_storable (c : Content) : Prop :=
  let d := content_Descriptor c in
  IsPayloadDescriptorExplicit d = true /\ NormalizePayloadDescriptor d = d /\ plain_extension (Extension d) /\
  descriptor_of ("resource" +:+ Extension d) = d /\
  forall v, Normalize (content_Value c) = Ok v -> is_nil v = false /\
    forall s, EncodeContentPretty {| content_Value := v; content_Descriptor := d |} = Ok s ->
    DecodeContent s d = Ok {| content_Value := v; content_Descriptor := d |}.
Lemma storable_desired c files : fs_storable c -> desiredPayloadDescriptor c files = content_Descriptor c.
Proof. intros (He & Hn & _). unfold desiredPayloadDescriptor. by rewrite He. Qed.
(** What a directory with the payload of a storable content reads as. *)
Lemma storable_Get d p qs c v encoded : disk_ok d -> Forall clean_segment qs -> qs <> [] -> NormalizeLogicalPath p = Ok (path_of qs) ->
  fs_storable c -> Normalize (content_Value c) = Ok v ->
  EncodeContentPretty {| content_Value := v; content_Descriptor := content_Descriptor c |} = Ok encoded ->
  only_payload (view d) (bs ++ qs) ("resource" +:+ Extension (content_Descriptor c)) encoded ->
  Get repo d p = Ok {| content_Value := v; content_Descriptor := content_Descriptor c |}.
Proof.
  intros Hd Hq Hne Hp (_ & _ & _ & Hfile & Hback) Hv Henc Ho. apply (Get_spec bs m Hbs d p qs); [done..|].
  exists ("resource" +:+ Extension (content_Descriptor c)), encoded, {| content_Value := v; content_Descriptor := content_Descriptor c |}.
  rewrite Hfile. split_and!; [done| |done]. destruct (Hback v Hv) as [_ Hb]. by apply Hb.
Qed.
Lemma fs_saved_content p q c d d' : disk_ok d -> NormalizeLogicalPath p = Ok q -> fs_storable c ->
  as_action (Save repo p c) d = Some (Ok tt, d') ->
  disk_ok d' /\ exists v, Normalize (content_Value c) = Ok v /\ Get repo d' p = Ok {| content_Value := v; content_Descriptor := content_Descriptor c |}.
Proof.
  intros Hd Hp Hst Hs%as_action_Ok. destruct (NormalizeLogicalPath_canonical _ _ Hp) as (qs & Hq & ->).
  destruct (Save_effect bs m Hbs d d' p qs c Hd Hq Hp) as (Hne & Hd' & _ & files & v & _ & Hv & Hpay).
  { intros files _. rewrite storable_desired by done. by destruct Hst as (_ & _ & ? & _). }
  { done. }
  rewrite storable_desired in Hpay by done. pose proof Hst as (_ & _ & _ & _ & Hback). destruct (Hback v Hv) as [Hnil _]. rewrite Hnil in Hpay.
  destruct Hpay as (encoded & Henc & Ho). split; [done|]. exists v. split; [done|]. by eapply storable_Get.
Qed.
(** Saving with files: the payload and every file come back. *)
Lemma fs_saved_artifacts p q c artifacts d d' : disk_ok d -> NormalizeLogicalPath p = Ok q -> fs_storable c ->
  NoDup (art_File <$> artifacts) -> artifact_names artifacts ->
  as_action (FsStore.SaveResourceWithArtifacts repo p c artifacts) d = Some (Ok tt, d') ->
  disk_ok d' /\ (exists v, Normalize (content_Value c) = Ok v /\ Get repo d' p = Ok {| content_Value := v; content_Descriptor := content_Descriptor c |}) /\
  forall x, x ∈ artifacts -> FsStore.ReadResourceArtifact repo d' p (art_File x) = Ok (art_Content x).
Proof.
  intros Hd Hp Hst Hnd Hnames Hs%as_action_Ok. destruct (NormalizeLogicalPath_canonical _ _ Hp) as (qs & Hq & ->).
  unfold FsStore.SaveResourceWithArtifacts in Hs. destruct (_ ≫= _) as [[q [[target files] content]]|e] eqn:E; [|done].
  apply bind_Ok in E as (q' & Hr & E). apply bind_Ok in E as (prepared & E & [= -> ->]). apply resource_path_Ok in Hr as [Hp2 Hroot].
  assert (q = path_of qs) as -> by congruence. assert (qs <> []) as Hne by by intros ->.
  apply (prepare_save_inv bs m Hbs) in E as (v & Hf & He & Hv & -> & ->); [|done..|intros; rewrite storable_desired by done; by destruct Hst as (_ & _ & ? & _)].
  rewrite storable_desired in He, Hs by done. destruct (write_artifacts _ _ _ _ _) as [[e|] d1] eqn:Hw; [done|].
  destruct (write_artifacts_effect bs m Hbs qs _ artifacts Hq Hnames Hnd d d1 Hd Hw) as (Hd1 & Hin & Hout).
  apply discover_spec in Hf as [_ Hf]; [|done..]. assert (same_payloads (view d) (view d1) (bs ++ qs)) as Hsame.
  { intros n s. unfold is_payload. assert (forall k, has_prefix n "resource." = true -> clean_segment n -> k = path_of ((bs ++ qs) ++ [n]) ->
      forall a ks, a ∈ artifacts -> artifact_at (art_File a) ks -> k <> path_of ((bs ++ qs) ++ ks)) as Hk.
    { intros k Hpre Hc -> a ks _ (Hn0 & Hk & _ & _ & Hno) E. apply path_of_inj in E; [|by rewrite !Forall_app, Forall_singleton|by rewrite !Forall_app].
      apply app_inv_head in E. subst ks. by rewrite (Hno [] n) in Hpre. }
    split; intros (Hc & Hpre & E); (split_and!; [done..|]); apply (Hout _ _ (Hk _ Hpre Hc eq_refl)); done. }
  assert (files_of (view d1) (bs ++ qs) files) as Hf1 by by eapply files_of_same.
  destruct (store_payload_effect bs m Hbs d1 d' qs files _ v Hd1 Hq Hf1 He Hs) as (Hd' & Ho & Hpay).
  pose proof Hst as (_ & _ & _ & _ & Hback). destruct (Hback v Hv) as [Hnil _]. rewrite Hnil in Hpay. destruct Hpay as (encoded & Henc & Honly).
  split_and!; [done|exists v; split; [done|by eapply storable_Get]|]. intros x Hx'. destruct (proj1 (Forall_forall _ _) Hnames x Hx') as [ks Hks].
  eapply (ReadArtifact_spec bs m Hbs d' p qs _ ks); try done. apply Ho; [|by apply (Hin x)].
  intros n Hc Hpre E. destruct Hks as (Hn0 & Hk & _ & _ & Hno). apply path_of_inj in E; [|by rewrite !Forall_app|by rewrite !Forall_app, Forall_singleton].
  apply app_inv_head in E. subst ks. by rewrite (Hno [] n) in Hpre.
Qed.
(** The repository in files keeps the promise. *)
Definition fs_laws : RepositoryLaws (fs_store (D := D) repo).
Proof.
  refine {| repo_ok := disk_ok; storable := fs_storable; artifact_file := fun file => exists ks, artifact_at file ks |}.
  - apply fs_saved_content.
  - intros a p q c arts d d' [= <-]. apply fs_saved_artifacts.
Defined.
End laws.
