(* ===== verification/ActionFacts.v ===== *)
(** * Reasoning about actions

    Two judgements on the actions of [Services.v], with a lemma for every way of building
    an action, so that a proof about a command follows its code: [keeps], what an action
    that returns leaves true of the state, and [returns], that an action returns, keeps an
    invariant of the state and gives a value of a kind. *)
From S2P Require Import Prelude GoText Faults Value Services.

Create HintDb actions.

Section judgements.
Context {S : Type} (I : S -> Prop).

Definition keeps {A} (m : action S A) : Prop := forall s o s', I s -> m s = Some (o, s') -> I s'.
Definition returns {A} (m : action S A) (Q : A -> Prop) : Prop := forall s, I s ->
  exists o s', m s = Some (o, s') /\ I s' /\ (forall a, o = Ok a -> Q a).

(** ** [keeps] *)
Lemma keeps_ret {A} (a : A) : keeps (mret a).
Proof. intros s o s' HI [= <- <-]. done. Qed.
Lemma keeps_of_outcome {A} (o : outcome A) : keeps (of_outcome o).
Proof. intros s o' s' HI [= <- <-]. done. Qed.
Lemma keeps_of_result {A} (o : result error A) : keeps (of_result o).
Proof. apply keeps_of_outcome. Qed.
Lemma keeps_fail {A} e : keeps (fail (A := A) e).
Proof. apply keeps_of_outcome. Qed.
Lemma keeps_read {A} (f : S -> outcome A) : keeps (read f).
Proof. intros s o s' HI [= <- <-]. done. Qed.
Lemma keeps_bind {A B} (m : action S A) (f : A -> action S B) :
  keeps m -> (forall a, keeps (f a)) -> keeps (mbind f m).
Proof.
  intros Hm Hf s o s' HI. unfold mbind, action_bind. destruct (m s) as [[[a|e] s1]|] eqn:E; [| |done].
  - apply Hf. by eapply Hm.
  - intros [= <- <-]. by eapply Hm.
Qed.
Lemma keeps_catch {A} (m : action S A) : keeps m -> keeps (catch m).
Proof.
  intros Hm s o s' HI. unfold catch. destruct (m s) as [[[a|[e|]] s1]|] eqn:E; [| | |done]; intros [= <- <-]; by eapply Hm.
Qed.
(** The runs of an action that keeps the state itself: reading it is a function of the state. *)
Lemma keeps_none {A} : keeps (A := A) (fun _ => None).
Proof. done. Qed.

(** ** [returns] *)
Lemma returns_weaken {A} (m : action S A) (Q Q' : A -> Prop) : returns m Q -> (forall a, Q a -> Q' a) -> returns m Q'.
Proof. intros Hm HQ s HI. destruct (Hm s HI) as (o & s' & ? & ? & ?). exists o, s'. eauto. Qed.
Lemma returns_ret {A} (a : A) (Q : A -> Prop) : Q a -> returns (mret a) Q.
Proof. intros HQ s HI. exists (Ok a), s. split_and!; [done..|]. by intros ? [= <-]. Qed.
Lemma returns_of_outcome {A} (o : outcome A) (Q : A -> Prop) : (forall a, o = Ok a -> Q a) -> returns (of_outcome o) Q.
Proof. intros HQ s HI. exists o, s. done. Qed.
Lemma returns_of_result {A} (o : result error A) (Q : A -> Prop) : (forall a, o = Ok a -> Q a) -> returns (of_result o) Q.
Proof. intros HQ. apply returns_of_outcome. intros a. destruct o; [|done]. intros [= <-]. by apply HQ. Qed.
Lemma returns_fail {A} e (Q : A -> Prop) : returns (fail e) Q.
Proof. by apply returns_of_result. Qed.
Lemma returns_read {A} (f : S -> outcome A) (Q : A -> Prop) : (forall s a, I s -> f s = Ok a -> Q a) -> returns (read f) Q.
Proof. intros HQ s HI. exists (f s), s. split_and!; [done..|]. intros a. by apply HQ. Qed.
Lemma returns_bind {A B} (m : action S A) (f : A -> action S B) (Q : A -> Prop) (Q' : B -> Prop) :
  returns m Q -> (forall a, Q a -> returns (f a) Q') -> returns (mbind f m) Q'.
Proof.
  intros Hm Hf s HI. unfold mbind, action_bind. destruct (Hm s HI) as ([a|e] & s1 & -> & HI1 & HQ).
  - apply Hf; [by apply HQ|done].
  - by exists (Err e), s1.
Qed.
Lemma returns_catch {A} (m : action S A) (Q : A -> Prop) :
  returns m Q -> returns (catch m) (fun r => match r with Ok a => Q a | Err _ => True end).
Proof.
  intros Hm s HI. unfold catch. destruct (Hm s HI) as ([a|[e|]] & s1 & -> & HI1 & HQ).
  - exists (Ok (Ok a)), s1. split_and!; [done..|]. intros ? [= <-]. by apply HQ.
  - exists (Ok (Err e)), s1. split_and!; [done..|]. by intros ? [= <-].
  - by exists (Err Panic), s1.
Qed.
End judgements.

(** ** Calls outside *)
Section worlds.
Context {W : Type}.
Lemma keeps_outside {A} (I : world W -> Prop) (m : action W A) :
  (forall w st o w', I (w, st) -> m w = Some (o, w') -> I (w', st)) -> keeps I (outside m).
Proof.
  intros Hm [w st] o s' HI. unfold outside. destruct (m w) as [[o1 w1]|] eqn:E; [|done]. intros [= <- <-]. by eapply Hm.
Qed.
Lemma keeps_read_outside {A} (I : world W -> Prop) (f : W -> result error A) : keeps I (read_outside f).
Proof. apply keeps_outside. intros w st o w' HI [= <- <-]. done. Qed.
Lemma returns_outside {A} (I : world W -> Prop) (m : action W A) (Q : A -> Prop) :
  (forall w st, I (w, st) -> exists o w', m w = Some (o, w') /\ I (w', st) /\ (forall a, o = Ok a -> Q a)) -> returns I (outside m) Q.
Proof.
  intros Hm [w st] HI. unfold outside. destruct (Hm w st HI) as (o & w' & -> & HI' & HQ). exists o, (w', st). done.
Qed.
Lemma returns_read_outside {A} (I : world W -> Prop) (f : W -> result error A) (Q : A -> Prop) :
  (forall w a, f w = Ok a -> Q a) -> returns I (read_outside f) Q.
Proof.
  intros HQ. apply returns_outside. intros w st HI. exists (lift (f w)), w. split_and!; [done..|].
  intros a. destruct (f w) eqn:E; [|done]. intros [= <-]. by eapply HQ.
Qed.
End worlds.
(** ** Actions that return, whatever they return *)
Definition ends {S A} (I : S -> Prop) (m : action S A) : Prop := returns I m (fun _ => True).
Section ending.
Context {S : Type} (I : S -> Prop).
Lemma ends_ret {A} (a : A) : ends I (mret a).
Proof. by apply returns_ret. Qed.
Lemma ends_of_outcome {A} (o : outcome A) : ends I (of_outcome o).
Proof. by apply returns_of_outcome. Qed.
Lemma ends_of_result {A} (o : result error A) : ends I (of_result o).
Proof. by apply returns_of_result. Qed.
Lemma ends_fail {A} e : ends I (fail (A := A) e).
Proof. apply returns_fail. Qed.
Lemma ends_bind {A B} (m : action S A) (f : A -> action S B) : ends I m -> (forall a, ends I (f a)) -> ends I (mbind f m).
Proof. intros Hm Hf. eapply returns_bind; [exact Hm|]. intros a _. apply Hf. Qed.
Lemma ends_catch {A} (m : action S A) : ends I m -> ends I (catch m).
Proof. intros Hm. eapply returns_weaken; [by apply returns_catch|done]. Qed.
Lemma returns_ends {A} (m : action S A) Q : returns I m Q -> ends I m.
Proof. intros Hm. by eapply returns_weaken. Qed.
Lemma returns_outcome_bind {A B} (o : outcome A) (f : A -> action S B) Q :
  (forall a, o = Ok a -> returns I (f a) Q) -> returns I (mbind f (of_outcome o)) Q.
Proof. intros Hf. eapply returns_bind; [by apply (returns_of_outcome I o (fun a => o = Ok a))|]. by intros a; apply Hf. Qed.
Lemma returns_result_bind {A B} (o : result error A) (f : A -> action S B) Q :
  (forall a, o = Ok a -> returns I (f a) Q) -> returns I (mbind f (of_result o)) Q.
Proof. intros Hf. eapply returns_bind; [by apply (returns_of_result I o (fun a => o = Ok a))|]. by intros a; apply Hf. Qed.
End ending.
Lemma ends_read_outside {W A} (I : world W -> Prop) (f : W -> result error A) : ends I (read_outside f).
Proof. by apply returns_read_outside. Qed.
Lemma ends_outside_read {W A} (I : world W -> Prop) (f : W -> outcome A) : ends I (outside (read f)).
Proof. apply returns_outside. intros w st HI. exists (f w), w. done. Qed.
Lemma keeps_outside_read {W A} (I : world W -> Prop) (f : W -> outcome A) : keeps I (outside (read f)).
Proof. apply keeps_outside. intros w st o w' HI [= <- <-]. done. Qed.

(** ** Runs of actions *)
Lemma bind_run {S A B} (m : action S A) (f : A -> action S B) s a s' : m s = Some (Ok a, s') -> mbind f m s = f a s'.
Proof. unfold mbind, action_bind. by intros ->. Qed.
Lemma bind_inv {S A B} (m : action S A) (f : A -> action S B) s b s' : mbind f m s = Some (Ok b, s') ->
  exists a s1, m s = Some (Ok a, s1) /\ f a s1 = Some (Ok b, s').
Proof. unfold mbind, action_bind. destruct (m s) as [[[a|e] s1]|]; [|done..]. eauto. Qed.
Lemma of_result_inv {S A} (o : result error A) (s : S) a s' : of_result o s = Some (Ok a, s') -> o = Ok a /\ s' = s.
Proof. unfold of_result, of_outcome. destruct o; cbn; [|done]. by intros [= <- <-]. Qed.
Lemma of_result_run {S A} (o : result error A) (s : S) a : o = Ok a -> of_result o s = Some (Ok a, s).
Proof. by intros ->. Qed.
Lemma outside_inv {W A} (m : action W A) s a s' : outside m s = Some (Ok a, s') ->
  exists w', m s.1 = Some (Ok a, w') /\ s' = (w', s.2).
Proof.
  destruct s as [w st]. unfold outside. cbn. destruct (m w) as [[o w']|]; [|done]. intros [= -> <-]. eauto.
Qed.
Lemma read_outside_run {W A} (f : W -> result error A) s a : f s.1 = Ok a -> read_outside f s = Some (Ok a, s).
Proof. destruct s as [w st]. unfold read_outside, outside, read_result, read. cbn. by intros ->. Qed.

(** An action that is a function of what is outside. *)
Definition reads {W A} (m : action (world W) A) (f : W -> outcome A) : Prop := forall s, m s = Some (f s.1, s).
Lemma reads_of_outcome {W A} (o : outcome A) : reads (W := W) (of_outcome o) (fun _ => o).
Proof. done. Qed.
Lemma reads_of_result {W A} (o : result error A) : reads (W := W) (of_result o) (fun _ => lift o).
Proof. done. Qed.
Lemma reads_ret {W A} (a : A) : reads (W := W) (mret a) (fun _ => Ok a).
Proof. done. Qed.
Lemma reads_read_outside {W A} (f : W -> result error A) : reads (read_outside f) (fun w => lift (f w)).
Proof. by intros [w st]. Qed.
Lemma reads_outside {W A} (f : W -> outcome A) : reads (outside (read f)) f.
Proof. by intros [w st]. Qed.
Lemma reads_bind {W A B} (m : action (world W) A) (k : A -> action (world W) B) f g :
  reads m f -> (forall a, reads (k a) (g a)) -> reads (mbind k m) (fun w => a ← f w; g a w).
Proof.
  intros Hm Hk s. unfold mbind, action_bind, result_bind. rewrite Hm. destruct (f s.1) as [a|e]; [apply Hk|done].
Qed.
Lemma reads_eq {W A} (m : action (world W) A) f g : reads m f -> (forall w, f w = g w) -> reads m g.
Proof. intros Hm E s. by rewrite Hm, E. Qed.

(** ** Judgements that follow the code

    A judgement on actions that holds of the actions without a call of the managed service
    and goes through binds and caught errors holds of every command built from calls for
    which it holds. *)
Definition holds {S} (J : forall A, action S A -> Prop) {A} (m : action S A) : Prop := J A m.
Class Closed {W} (J : forall A, action (world W) A -> Prop) : Prop := {
  closed_ret : forall A (a : A), holds J (mret a);
  closed_of_outcome : forall A (o : outcome A), holds J (of_outcome o);
  closed_read : forall A (f : W -> outcome A), holds J (outside (read f));
  closed_bind : forall A B (m : action (world W) A) (f : A -> action (world W) B), holds J m -> (forall a, holds J (f a)) -> holds J (mbind f m);
  closed_catch : forall A (m : action (world W) A), holds J m -> holds J (catch m);
}.
Arguments closed_bind {W J _ A B} _ _ _ _. Arguments closed_catch {W J _ A} _ _.
Section closed.
Context {W} (J : forall A, action (world W) A -> Prop) `{!Closed J}.
Lemma closed_of_result {A} (o : result error A) : holds J (of_result o).
Proof. apply closed_of_outcome. Qed.
Lemma closed_fail {A} e : holds J (fail (A := A) e).
Proof. apply closed_of_outcome. Qed.
Lemma closed_read_outside {A} (f : W -> result error A) : holds J (read_outside f).
Proof. apply closed_read. Qed.
End closed.
#[export] Hint Resolve closed_ret closed_of_outcome closed_of_result closed_fail closed_read closed_read_outside closed_catch : actions.
#[export] Instance keeps_closed {W} (I : world W -> Prop) : Closed (fun A => keeps (A := A) I).
Proof.
  split; intros; [apply keeps_ret|apply keeps_of_outcome|apply keeps_outside_read|by apply keeps_bind|by apply keeps_catch].
Qed.
#[export] Instance ends_closed {W} (I : world W -> Prop) : Closed (fun A => ends (A := A) I).
Proof.
  split; intros; [apply ends_ret|apply ends_of_outcome|apply ends_outside_read|by apply ends_bind|by apply ends_catch].
Qed.
(** Follow the code: binds, matches and conditionals, then the lemmas of the database. *)
Ltac closed_step :=
  lazymatch goal with
  | |- holds _ (mbind _ _) => apply closed_bind; [|intros ?]
  | |- holds _ (if ?b then _ else _) => destruct b
  | |- holds _ (match ?x with _ => _ end) => destruct x
  | |- _ => progress eauto 4 with actions
  end.
Ltac closed := repeat closed_step.
