(* ===== verification/Orchestrator.v ===== *)
(** * The orchestrator

    Models [src/internal/orchestrator]: what is known of a resource before a call
    ([resource_info.go]), reading it from the managed service with every fallback
    ([remote_read.go], [path_resolution.go], [remote_fallback.go], [remote_collection.go]),
    reading and writing it in the repository ([local.go], [externalized.go], [defaults.go]),
    and the commands over both ([commands.go], [remote_mutation.go], [request.go]). The
    debug log is left out; [Resource] values are compared and copied as Go structs. *)
From S2P Require Import Prelude GoText GoTextFacts Faults Paths Value Pointer Descriptor Codec Overlay DefaultsSpec Metadata MetaWire TemplateSyntax Externalize IdentityTemplate Identity OperationSpec TemplateScope OpenAPIMatch OpenAPIInfer FsRender RuntimeMetadata Diff Secrets SecretsPayload Services.

(** ** Paths and resources *)
Definition collectionPathFor (normalizedPath : string) : string :=
  if normalizedPath == "/" then "/"
  else let collectionPath := path_dir normalizedPath in if (collectionPath == ".") || (collectionPath == "") then "/" else collectionPath.
Definition contentFromResource (r : Resource) : Content := {| content_Value := Payload r; content_Descriptor := Res_PayloadDescriptor r |}.
Definition requestBodyPresent (body : Content) : bool := negb (is_nil (content_Value body)).
Definition empty_content : Content := {| content_Value := VNil; content_Descriptor := empty_descriptor |}.
Definition with_payload (r : Resource) (payload : value) (descriptor : PayloadDescriptor) : Resource :=
  {| LogicalPath := LogicalPath r; CollectionPath := CollectionPath r; LocalAlias := LocalAlias r; RemoteID := RemoteID r;
     ResolvedRemotePath := ResolvedRemotePath r; Payload := payload; Res_PayloadDescriptor := descriptor |}.
Definition with_identity (r : Resource) (alias remoteID : string) : Resource :=
  {| LogicalPath := LogicalPath r; CollectionPath := CollectionPath r; LocalAlias := alias; RemoteID := remoteID;
     ResolvedRemotePath := ResolvedRemotePath r; Payload := Payload r; Res_PayloadDescriptor := Res_PayloadDescriptor r |}.
Definition with_collection (r : Resource) (collectionPath : string) : Resource :=
  {| LogicalPath := LogicalPath r; CollectionPath := collectionPath; LocalAlias := LocalAlias r; RemoteID := RemoteID r;
     ResolvedRemotePath := ResolvedRemotePath r; Payload := Payload r; Res_PayloadDescriptor := Res_PayloadDescriptor r |}.
Section identity.
Context `{by_path : ResourceSort, UnicodeTables}.

Definition logicalPathAlias (logicalPath : string) : string :=
  if trim_space logicalPath == "/" then "/" else path_base logicalPath.
Definition identityAttributeCandidates : list string :=
  collect_fresh [] (filter (fun s => s <> "") (map (trim_space ∘ JSONPointerForObjectKey) ["id"; "clientId"; "name"; "alias"; "key"; "uuid"; "uid"])).
Definition resolveResourceIdentity (logicalPath : string) (md : ResourceMetadata) (v : value) : outcome (string * string) :=
  '(alias, remoteID) ← ResolveAliasAndRemoteID logicalPath md v;
  let alias := trim_space alias in
  let alias := if alias == "" then logicalPathAlias logicalPath else alias in
  let remoteID := trim_space remoteID in
  Ok (alias, if remoteID == "" then alias else remoteID).
(** [None] when there is no remote id; an error of the resolution is dropped. *)
Definition resolvedRemoteIDFromPayload (md : ResourceMetadata) (v : value) : outcome (option string) :=
  if trim_space (ID md) == "" then Ok None
  else
    match ResolveAliasAndRemoteID "/" md v with
    | Err (Failed _) => Ok None
    | Err Panic => Err Panic
    | Ok (_, remoteID) => let remoteID := trim_space remoteID in Ok (if remoteID == "" then None else Some remoteID)
    end.

(** *** Candidates of a fallback *)
Definition listedResourceAlias (item : Resource) : string :=
  let alias := trim_space (LocalAlias item) in
  if negb (alias == "") && negb (alias == "/") then alias else logicalPathAlias (LogicalPath item).
Definition requestedFallbackSegment (requestedInfo : Resource) : string :=
  let requestedSegment := trim_space (RemoteID requestedInfo) in
  if requestedSegment == "" then logicalPathAlias (LogicalPath requestedInfo) else requestedSegment.
(** The scalar values of the candidate attributes of a payload, trimmed, the blank ones
    left out. *)
Definition identity_values (payload : value) : list string :=
  match payload with
  | VMap payloadMap =>
      filter (fun s => s <> "")
        (omap (fun attribute => let '(v, found) := LookupScalarAttribute payloadMap attribute in
                                if found then Some (trim_space v) else None) identityAttributeCandidates)
  | _ => []
  end.
Definition matchesFallbackIdentity (requestedInfo : Resource) (candidateAlias candidateRemoteID : string) (candidatePayload : value) : bool :=
  let requestedSegment := requestedFallbackSegment requestedInfo in
  if requestedSegment == "" then false
  else if (trim_space candidateRemoteID == requestedSegment) || (trim_space candidateAlias == requestedSegment) then true
  else bool_decide (requestedSegment ∈ identity_values candidatePayload).
Definition matchesFallbackCandidate (requestedInfo candidate : Resource) : bool :=
  matchesFallbackIdentity requestedInfo (LocalAlias candidate) (RemoteID candidate) (Payload candidate).
Definition matchesResolvedIdentityCandidate (resolvedResource candidate : Resource) : bool :=
  (LocalAlias candidate == LocalAlias resolvedResource)
  || (negb (trim_space (RemoteID resolvedResource) == "") && (RemoteID candidate == RemoteID resolvedResource)).
Definition fallbackSegmentValue (candidate : Resource) : string :=
  let v := trim_space (RemoteID candidate) in
  if negb (v == "") then v
  else match identity_values (Payload candidate) with
       | s :: _ => s
       | [] => trim_space (LocalAlias candidate)
       end.
Definition remoteReadResourceFromFallbackCandidate (requested candidate : Resource) : Resource :=
  let alias := trim_space (LocalAlias candidate) in
  let alias := if alias == "" then logicalPathAlias (LogicalPath requested) else alias in
  let remoteID := trim_space (RemoteID candidate) in
  let remoteID := if remoteID == "" then fallbackSegmentValue candidate else remoteID in
  let resolved := with_identity requested alias remoteID in
  with_payload resolved (if negb (is_nil (Payload candidate)) then DeepCopyValue (Payload candidate) else Payload resolved)
    (if IsPayloadDescriptorExplicit (Res_PayloadDescriptor candidate) then Res_PayloadDescriptor candidate else Res_PayloadDescriptor resolved).
Definition ambiguous_fallback (noun path : string) : error :=
  NewTypedError ConflictError (noun +:+ " fallback for " +:+ quote path +:+ " is ambiguous") None.
Definition remoteFallbackCandidates (requested : Resource) (candidates : list Resource) : result error (list Resource) :=
  let matched := filter (fun candidate => matchesFallbackCandidate requested candidate = true) candidates in
  if (length matched <=? 1)%nat then Ok matched else Err (ambiguous_fallback "remote" (LogicalPath requested)).
Definition canUseRemoteCollectionCandidateFallback (err : error) : bool := is_category err NotFoundError || is_category err ValidationError.
Definition hasRemoteFallbackIdentityMetadata (md : ResourceMetadata) : bool := negb (trim_space (ID md) == "") || negb (trim_space (Alias md) == "").
Definition shouldCheckRemoteIdentityAmbiguity (r : Resource) (md : ResourceMetadata) : bool :=
  if trim_space (ID md) == "" then false
  else if trim_space (Alias md) == "" then false
  else
    let alias := trim_space (LocalAlias r) in
    let remoteID := trim_space (RemoteID r) in
    if (alias == "") || (remoteID == "") then false else negb (alias == remoteID).
Definition singletonFallbackWithinSelectorDepth (logicalPath : string) (md : ResourceMetadata) : bool :=
  let trimmedTemplate := trim_space (RemoteCollectionPath md) in
  if trimmedTemplate == "" then true
  else
    let templateDepth := length (SplitRawPathSegments trimmedTemplate) in
    if (templateDepth =? 0)%nat then true
    else
      let logicalDepth := length (SplitRawPathSegments logicalPath) in
      if (logicalDepth =? 0)%nat then true else (logicalDepth <=? templateDepth)%nat.
Definition allowsSingletonListIdentityFallback (logicalPath : string) (md : ResourceMetadata) (candidates : list Resource) : bool :=
  if negb (length candidates =? 1)%nat then false
  else if negb (singletonFallbackWithinSelectorDepth logicalPath md) then false
  else if HasTransformJQ (default [] (Transforms md)) then true
  else match Operations md ≫= (.!! "list") with
       | Some listSpec => HasTransformJQ (default [] (op_Transforms listSpec))
       | None => false
       end.
(** [None] when the segment is not replaced. *)
Definition replaceLogicalPathSegment (segments : list string) (segmentIndex : nat) (replacement : string) : result error (option string) :=
  let trimmedReplacement := trim_space replacement in
  if (trimmedReplacement == "") || bool_decide (segments !! segmentIndex = Some trimmedReplacement) then Ok None
  else
    nextPath ← NormalizeLogicalPath ("/" +:+ str_join "/" (<[segmentIndex := trimmedReplacement]> segments));
    Ok (Some nextPath).
Definition isCollectionItemPath (collectionPath resourcePath : string) : bool :=
  if collectionPath == "/"
  then negb (resourcePath == "/") && negb (contains_byte is_slash (trim_bytes is_slash resourcePath))
  else has_prefix resourcePath (trim_suffix collectionPath "/" +:+ "/").
Definition listPayloadFromResources (items : list Resource) : value := VList (Payload <$> sort_resources items).
End identity.

Section orchestrator.
Context `{by_path : ResourceSort, UnicodeTables, TextCodecs, TemplateEngine, JqEngine}.
Context (sprintf : string -> string -> string) (order : map_order).
Context {W : Type} (r : Orchestrator W).
Abbreviation M := (action (world W)).

(** ** Dependencies *)
Definition requireRepository : M (ResourceStore W) :=
  match repository r with None => fail (Invalid "repository store is not configured" None) | Some store => mret store end.
Definition requireServer : M (ManagedServiceClient W) :=
  match server r with None => fail (Invalid "managed service is not configured" None) | Some client => mret client end.
Definition resolveMetadataForPath (normalizedPath : string) (allowMissing : bool) : M ResourceMetadata :=
  match metadata_service r with
  | None => if allowMissing then mret empty_metadata else fail (Invalid "metadata service is not configured" None)
  | Some service =>
      read_outside (fun w =>
        match service_ResolveForPath service w normalizedPath with
        | Err err => if allowMissing && is_category err NotFoundError then Ok empty_metadata else Err err
        | Ok md => Ok md
        end)
  end.

(** ** Defaults and formats *)
Definition concrete_format (md : ResourceMetadata) : option string :=
  let format := NormalizeResourceFormat (Format md) in
  if negb (format == "") && negb (ResourceFormatAllowsMixedItems format) then Some format else None.
Definition descriptor_of_type (payloadType : string) : PayloadDescriptor :=
  NormalizePayloadDescriptor {| PayloadType := payloadType; MediaType := ""; Extension := "" |}.
Definition applyDefaultFormat (content : Content) (md : ResourceMetadata) : Content :=
  if IsPayloadDescriptorExplicit (content_Descriptor content) then content
  else match concrete_format md with
       | None => content
       | Some format => {| content_Value := content_Value content; content_Descriptor := descriptor_of_type format |}
       end.
(** [None] when the metadata has no defaults. *)
Definition effectiveMetadataDefaults (md : ResourceMetadata) (fallback : PayloadDescriptor) : result error (option Content) :=
  if negb (HasDefaultsSpecDirectives (Defaults md)) then Ok None
  else
    v ← ResolveEffectiveDefaults (Defaults md);
    let descriptor := if IsPayloadDescriptorExplicit fallback then fallback
                      else match concrete_format md with Some format => descriptor_of_type format | None => fallback end in
    let descriptor := if IsPayloadDescriptorExplicit descriptor then descriptor else descriptor_of_type PayloadTypeJSON in
    Ok (Some {| content_Value := v; content_Descriptor := descriptor |}).
Definition mergeContentWithMetadataDefaults (content : Content) (md : ResourceMetadata) : result error Content :=
  found ← effectiveMetadataDefaults md (content_Descriptor content);
  match found with
  | None => Ok content
  | Some defaultsContent =>
      mergedValue ← MergeWithDefaults (content_Value defaultsContent) (content_Value content);
      Ok {| content_Value := mergedValue; content_Descriptor := content_Descriptor content |}
  end.
Definition compactContentWithMetadataDefaults (content : Content) (md : ResourceMetadata) (preservePresence : bool) : result error Content :=
  found ← effectiveMetadataDefaults md (content_Descriptor content);
  match found with
  | None => Ok content
  | Some defaultsContent =>
      compactedValue ← CompactAgainstDefaults (content_Value content) (content_Value defaultsContent);
      Ok {| content_Value := if is_nil compactedValue && preservePresence then VMap ∅ else compactedValue;
            content_Descriptor := content_Descriptor content |}
  end.

(** ** Externalized attributes *)
Definition saveLocalResource (manager : ResourceStore W) (logicalPath : string) (content : Content) : M unit :=
  normalizedPath ← of_result (NormalizeLogicalPath logicalPath);
  resolvedMetadata ← resolveMetadataForPath normalizedPath true;
  let content := applyDefaultFormat content resolvedMetadata in
  entries ← of_result (ResolveExternalizedAttributes resolvedMetadata);
  match entries with
  | [] =>
      content ← of_result (compactContentWithMetadataDefaults content resolvedMetadata true);
      outside (store_Save manager normalizedPath content)
  | _ =>
      match store_artifacts manager with
      | None => fail (NewTypedError InternalError "repository store does not support resource artifacts" None)
      | Some artifactStore =>
          extracted ← of_result (Extract sprintf (content_Value content) entries);
          compactedContent ← of_result (compactContentWithMetadataDefaults
            {| content_Value := e_Payload extracted; content_Descriptor := content_Descriptor content |} resolvedMetadata true);
          outside (SaveResourceWithArtifacts artifactStore normalizedPath compactedContent (Artifacts extracted))
      end
  end.
Definition expandExternalizedPayload (logicalPath : string) (md : ResourceMetadata) (content : Content) : M Content :=
  entries ← of_result (ResolveExternalizedAttributes md);
  match entries with
  | [] => v ← of_result (Normalize (content_Value content)); mret {| content_Value := v; content_Descriptor := content_Descriptor content |}
  | _ =>
      read_outside (fun w =>
        let artifactStore := repository r ≫= store_artifacts in
        expanded ← Expand sprintf ((fun store => ReadResourceArtifact store w) <$> artifactStore) logicalPath (content_Value content) entries;
        Ok {| content_Value := expanded; content_Descriptor := content_Descriptor content |})
  end.

(** ** What is known of a resource *)
Definition resource_info (normalizedPath alias remoteID : string) (payload : value) (descriptor : PayloadDescriptor) : Resource :=
  {| LogicalPath := normalizedPath; CollectionPath := collectionPathFor normalizedPath; LocalAlias := alias; RemoteID := remoteID;
     ResolvedRemotePath := ""; Payload := payload; Res_PayloadDescriptor := descriptor |}.
Definition buildResourceInfo (logicalPath : string) (content : Content) : M (Resource * ResourceMetadata) :=
  normalizedPath ← of_result (NormalizeLogicalPath logicalPath);
  resolvedMetadata ← resolveMetadataForPath normalizedPath true;
  expandedContent ← expandExternalizedPayload normalizedPath resolvedMetadata content;
  normalizedPayload ← of_result (Normalize (content_Value expandedContent));
  '(localAlias, remoteID) ← of_outcome (ResolveAliasAndRemoteID normalizedPath resolvedMetadata normalizedPayload);
  mret (resource_info normalizedPath localAlias remoteID normalizedPayload (content_Descriptor expandedContent), resolvedMetadata).
(** The fields of the path templates that the payload does not have. *)
Definition add_path_field (derived : gmap string string) (payload : object) (key : string) : object :=
  let v := default "" (derived !! key) in
  if (trim_space key == "") || (trim_space v == "") then payload
  else match payload !! key with Some _ => payload | None => <[key := VString v]> payload end.
Definition remote_read_payload (normalizedPath alias : string) (md : ResourceMetadata) : result error object :=
  match MergePayloadFields (VMap ∅) (DerivePathFields order (resource_info normalizedPath alias alias VNil empty_descriptor) md) with
  | VMap merged =>
      let derived := DerivePathTemplateFields normalizedPath md in
      Ok (foldl (add_path_field derived) merged (order derived))
  | _ => Err (Invalid "failed to merge payload fields into map for remote read" None)
  end.
Definition buildResourceInfoForRemoteRead (logicalPath : string) : M (Resource * ResourceMetadata) :=
  normalizedPath ← of_result (NormalizeLogicalPath logicalPath);
  resolvedMetadata ← resolveMetadataForPath normalizedPath true;
  let localAlias := if normalizedPath == "/" then "/" else path_base normalizedPath in
  payload ← of_result (remote_read_payload normalizedPath localAlias resolvedMetadata);
  normalizedPayload ← of_result (Normalize (VMap payload));
  let descriptor := match concrete_format resolvedMetadata with Some format => descriptor_of_type format | None => empty_descriptor end in
  mret (resource_info normalizedPath localAlias localAlias normalizedPayload descriptor, resolvedMetadata).

(** ** Rendered operations *)
Definition override_method (ctx : context) (o : Operation) (spec : OperationSpec) : OperationSpec :=
  match OperationHTTPMethodOverride ctx o with
  | None => spec
  | Some method =>
      {| Method := method; op_Path := op_Path spec; Query := Query spec; Headers := Headers spec; Accept := Accept spec;
         ContentType := ContentType spec; Body := Body spec; op_Transforms := op_Transforms spec; Validate := Validate spec |}
  end.
Definition resource_input (t : Resource) (md : ResourceMetadata) : ResourceOperationSpecInput :=
  {| in_LogicalPath := LogicalPath t; in_CollectionPath := CollectionPath t; in_LocalAlias := LocalAlias t; in_RemoteID := RemoteID t;
     in_PayloadDescriptor := Res_PayloadDescriptor t; in_Metadata := md; in_Payload := Payload t |}.
(** The rendering of the orchestrator itself, for a metadata service without a renderer. *)
Definition own_operation_spec (t : Resource) (md : ResourceMetadata) (o : Operation) : result error OperationSpec :=
  scope ← BuildResourceScope order t md;
  ResolveOperationSpecWithScope md o (ApplyPayloadTemplateScope scope md (PayloadValue (Payload t)) (Res_PayloadDescriptor t)).
Definition renderOperationSpec (ctx : context) (resolvedResource : Resource) (md : ResourceMetadata) (o : Operation) (v : value) : M OperationSpec :=
  let metadataCopy := CloneResourceMetadata md in
  let templateResource := with_payload resolvedResource v (Res_PayloadDescriptor resolvedResource) in
  spec ← (match metadata_service r ≫= service_renderer with
          | Some renderer => outside (read (fun w => renderer w (resource_input templateResource metadataCopy) o))
          | None => of_result (own_operation_spec templateResource metadataCopy o)
          end);
  mret (override_method ctx o spec).

(** ** Reading from the managed service *)
Section reading.
(** [resolveListJQ] is [resolveListJQResource], the read a [resource()] call of a list
    expression makes; [fuel] bounds the rounds of the fallback over paths. *)
Context (resolveListJQ : context -> string -> M value) (fuel : nat) (ctx : context).

Definition listRemoteResources (serverManager : ManagedServiceClient W) (collectionPath : string) (md : ResourceMetadata) : M (list Resource) :=
  WithListJQResourceResolver ctx (fun ctx =>
    client_List serverManager ctx (ResolveListJQResource ctx resolveListJQ) collectionPath md).

(** *** Hints that a path is a collection *)
Definition renderedOperationPath (resolvedResource : Resource) (md : ResourceMetadata) (o : Operation) : M (option string) :=
  spec ← catch (renderOperationSpec ctx resolvedResource md o (Payload resolvedResource));
  mret (match spec with
        | Err _ => None
        | Ok spec => ok_opt (NormalizeLogicalPath (op_Path spec))
        end).
Definition listOperationTargetsLogicalPath (resolvedResource : Resource) (md : ResourceMetadata) : M bool :=
  normalizedPath ← renderedOperationPath resolvedResource md OperationList;
  mret (normalizedPath == Some (LogicalPath resolvedResource)).
Definition buildCollectionHintPayload (basePayload : value) (logicalPath : string) (inferred : ResourceMetadata) : value :=
  let payload := default ∅ (as_object basePayload) in
  let derived := DerivePathTemplateFields logicalPath inferred in
  let scope := foldl (add_path_field derived) payload (order derived) in
  if bool_decide (scope = ∅) then basePayload else VMap scope.
Definition openAPIInferenceHintsCollection (resolvedResource : Resource) (logicalPath : string) (openAPISpec : value) : M bool :=
  match InferFromOpenAPISpec logicalPath no_request openAPISpec with
  | Err _ => mret false
  | Ok inferred =>
      let hintInfo := with_payload resolvedResource
        (buildCollectionHintPayload (Payload resolvedResource) (LogicalPath resolvedResource) inferred) (Res_PayloadDescriptor resolvedResource) in
      targets ← listOperationTargetsLogicalPath hintInfo inferred;
      if negb targets then mret false
      else
        createPath ← renderedOperationPath hintInfo inferred OperationCreate;
        if createPath == Some (LogicalPath hintInfo) then mret true
        else
          getPath ← renderedOperationPath hintInfo inferred OperationGet;
          mret (match getPath with Some getPath => isCollectionItemPath (LogicalPath hintInfo) getPath | None => false end)
  end.
Fixpoint matchesOpenAPIPathSegments (candidate target : list string) : bool :=
  match candidate, target with
  | [], [] => true
  | c :: candidate, t :: target =>
      let candidateSegment := trim_space c in
      let targetSegment := trim_space t in
      if candidateSegment == targetSegment then matchesOpenAPIPathSegments candidate target
      else if has_prefix candidateSegment "{" && has_suffix candidateSegment "}"
      then (if targetSegment == "" then false else matchesOpenAPIPathSegments candidate target)
      else false
  | _, _ => false
  end.
(** The first path, in the order of the map, that has the shape of the target decides. *)
Fixpoint exact_path_looks_like_resource (paths : object) (keys targetSegments : list string) : bool :=
  match keys with
  | [] => false
  | rawPath :: keys =>
      if negb (matchesOpenAPIPathSegments (SplitRawPathSegments rawPath) targetSegments)
      then exact_path_looks_like_resource paths keys targetSegments
      else match paths !! rawPath ≫= as_object with
           | None => false
           | Some pathItem =>
               let methods := NormalizeHTTPMethod <$> (map_to_list pathItem).*1 in
               let has (m : string) := bool_decide (m ∈ methods) in
               has "get" && (has "put" || has "patch" || has "delete") && negb (has "post")
           end
  end.
Definition openAPIExactPathLooksLikeResource (openAPISpec : value) (logicalPath : string) : bool :=
  match (as_object openAPISpec ≫= (.!! "paths")) ≫= as_object with
  | None => false
  | Some paths =>
      let targetSegments := SplitRawPathSegments logicalPath in
      if (length targetSegments =? 0)%nat then false else exact_path_looks_like_resource paths (order ((fun _ => "") <$> paths)) targetSegments
  end.
Definition collectionHintFromRepository (logicalPath : string) : M bool :=
  match repository r with
  | None => mret false
  | Some store =>
      read_outside (fun w =>
        match store_Exists store w logicalPath with
        | Ok true => match store_Get store w logicalPath with Ok _ => Ok false | Err err => Ok (is_category err NotFoundError) end
        | _ => Ok false
        end)
  end.
Definition collectionHintFromOpenAPI (serverManager : ManagedServiceClient W) (resolvedResource : Resource) : M bool :=
  openAPISpec ← catch (outside (client_GetOpenAPISpec serverManager ctx));
  match openAPISpec with
  | Err _ => mret false
  | Ok openAPISpec =>
      let spec := content_Value openAPISpec in
      match HasOpenAPIPath (LogicalPath resolvedResource) spec with
      | Ok true =>
          hinted ← openAPIInferenceHintsCollection resolvedResource (LogicalPath resolvedResource) spec;
          if (hinted : bool) then mret true
          else if openAPIExactPathLooksLikeResource spec (LogicalPath resolvedResource) then mret false
          else if LogicalPath resolvedResource == "/" then mret false
          else openAPIInferenceHintsCollection resolvedResource (trim_suffix (LogicalPath resolvedResource) "/" +:+ "/") spec
      | _ => mret false
      end
  end.
Definition shouldTreatRemotePathAsCollection (serverManager : ManagedServiceClient W) (resolvedResource : Resource) : M bool :=
  hinted ← collectionHintFromRepository (LogicalPath resolvedResource);
  if (hinted : bool) then mret true else collectionHintFromOpenAPI serverManager resolvedResource.
Definition isMissingParentForCollectionNotFound (serverManager : ManagedServiceClient W) (resolvedResource : Resource) : M bool :=
  let parentPath := path_dir (trim_suffix (LogicalPath resolvedResource) "/") in
  if (parentPath == ".") || (parentPath == "") || (parentPath == "/") then mret false
  else
    info ← catch (buildResourceInfoForRemoteRead parentPath);
    match info with
    | Err _ => mret false
    | Ok (parentInfo, parentMd) =>
        found ← catch (outside (client_Get serverManager ctx parentInfo parentMd));
        mret (match found with Ok _ => false | Err err => is_category err NotFoundError end)
    end.

(** *** Fallbacks
    [None] is the answer of a fallback that does not handle the call. *)
Definition fetchRemoteCollectionValue (serverManager : ManagedServiceClient W) (resolvedResource : Resource) (md : ResourceMetadata) : M (option Content) :=
  treat ← shouldTreatRemotePathAsCollection serverManager resolvedResource;
  if negb treat then mret None
  else
    items ← catch (listRemoteResources serverManager (LogicalPath resolvedResource) md);
    match items with
    | Err err =>
        if is_category err NotFoundError then
          missing ← isMissingParentForCollectionNotFound serverManager resolvedResource;
          if (missing : bool) then fail err
          else mret (Some {| content_Value := VList []; content_Descriptor := Res_PayloadDescriptor resolvedResource |})
        else if IsListPayloadShapeError err then mret None
        else fail err
    | Ok items =>
        let descriptor := match items with
                          | item :: _ => if IsPayloadDescriptorExplicit (Res_PayloadDescriptor item) then Res_PayloadDescriptor item
                                         else Res_PayloadDescriptor resolvedResource
                          | [] => Res_PayloadDescriptor resolvedResource
                          end in
        mret (Some {| content_Value := listPayloadFromResources items; content_Descriptor := descriptor |})
    end.
Definition detectRemoteIdentityAmbiguityAfterDirectGet (serverManager : ManagedServiceClient W) (resolvedResource : Resource) (md : ResourceMetadata) : M unit :=
  if negb (shouldCheckRemoteIdentityAmbiguity resolvedResource md) then mret tt
  else
    candidates ← catch (listRemoteResources serverManager (CollectionPath resolvedResource) md);
    match candidates with
    | Err listErr => if is_category listErr ConflictError then fail listErr else mret tt
    | Ok candidates =>
        if (1 <? length (filter (fun c => matchesResolvedIdentityCandidate resolvedResource c = true) candidates))%nat
        then fail (ambiguous_fallback "remote" (LogicalPath resolvedResource))
        else mret tt
    end.
(** The candidate, [None] when there is none. [Err] of the pair is an error of the list,
    which the caller sees as not handled; a conflict among the candidates is an error of
    the action. *)
Definition resolveRemoteCollectionCandidate (serverManager : ManagedServiceClient W) (requested : Resource) (md : ResourceMetadata)
  : M (result error (option Resource)) :=
  candidates ← catch (listRemoteResources serverManager (CollectionPath requested) md);
  match candidates with
  | Err listErr => mret (Err listErr)
  | Ok candidates => matched ← of_result (remoteFallbackCandidates requested candidates); mret (Ok (head matched))
  end.
Definition fetchRemoteValueForCandidate (serverManager : ManagedServiceClient W) (requested : Resource) (md : ResourceMetadata) (candidate : Resource) : M Content :=
  let resolvedCandidate := remoteReadResourceFromFallbackCandidate requested candidate in
  v ← catch (outside (client_Get serverManager ctx resolvedCandidate md));
  match v with
  | Ok v => _ ← detectRemoteIdentityAmbiguityAfterDirectGet serverManager resolvedCandidate md; mret v
  | Err getErr =>
      if is_category getErr NotFoundError || is_category getErr ValidationError then mret (contentFromResource candidate) else fail getErr
  end.
Definition fetchRemoteValueFromCollectionCandidate (serverManager : ManagedServiceClient W) (requested : Resource) (md : ResourceMetadata) : M (option Content) :=
  candidate ← resolveRemoteCollectionCandidate serverManager requested md;
  match candidate with
  | Ok (Some candidate) => v ← fetchRemoteValueForCandidate serverManager requested md candidate; mret (Some v)
  | _ => mret None
  end.

(** *** Other paths of the resource
    The loop over the segments from the last one; [indexes] are those left. *)
Fixpoint next_fallback_paths (serverManager : ManagedServiceClient W) (logicalPath : string) (segments : list string) (indexes : list nat) : M (list string) :=
  match indexes with
  | [] => mret []
  | segmentIndex :: indexes =>
      let segmentPath := "/" +:+ str_join "/" (take (S segmentIndex) segments) in
      '(segmentInfo, segmentMd) ← buildResourceInfoForRemoteRead segmentPath;
      if negb (hasRemoteFallbackIdentityMetadata segmentMd) then next_fallback_paths serverManager logicalPath segments indexes
      else
        candidates ← catch (listRemoteResources serverManager (CollectionPath segmentInfo) segmentMd);
        match candidates with
        | Err listErr => if is_category listErr ConflictError then fail listErr else next_fallback_paths serverManager logicalPath segments indexes
        | Ok candidates =>
            match filter (fun candidate => matchesFallbackCandidate segmentInfo candidate = true) candidates with
            | [] =>
                match candidates with
                | candidate :: _ =>
                    if allowsSingletonListIdentityFallback segmentPath segmentMd candidates then
                      nextPath ← of_result (replaceLogicalPathSegment segments segmentIndex (fallbackSegmentValue candidate));
                      match nextPath with
                      | Some nextPath => mret [nextPath]
                      | None => next_fallback_paths serverManager logicalPath segments indexes
                      end
                    else next_fallback_paths serverManager logicalPath segments indexes
                | [] => next_fallback_paths serverManager logicalPath segments indexes
                end
            | [matched] =>
                nextPath ← of_result (replaceLogicalPathSegment segments segmentIndex (fallbackSegmentValue matched));
                match nextPath with
                | Some nextPath => mret [nextPath]
                | None => next_fallback_paths serverManager logicalPath segments indexes
                end
            | _ => fail (ambiguous_fallback "remote" logicalPath)
            end
        end
  end.
Definition resolveNextRemoteMetadataFallbackPaths (serverManager : ManagedServiceClient W) (logicalPath : string) : M (list string) :=
  let segments := SplitRawPathSegments logicalPath in
  next_fallback_paths serverManager logicalPath segments (reverse (seq 0 (length segments))).
(** The visit of one path: a value, an error, or nothing, and then its next paths. *)
Definition visit_fallback_path (serverManager : ManagedServiceClient W) (start currentPath : string) : M (option Content + list string) :=
  if negb (currentPath == start) then
    info ← catch (buildResourceInfoForRemoteRead currentPath);
    match info with
    | Err infoErr => if is_category infoErr ConflictError then fail infoErr else mret (inr [])
    | Ok (currentInfo, currentMd) =>
        current ← catch (outside (client_Get serverManager ctx currentInfo currentMd));
        match current with
        | Ok v => mret (inl (Some v))
        | Err currentErr =>
            if is_category currentErr ConflictError then fail currentErr
            else nextPaths ← resolveNextRemoteMetadataFallbackPaths serverManager currentPath; mret (inr nextPaths)
        end
    end
  else nextPaths ← resolveNextRemoteMetadataFallbackPaths serverManager currentPath; mret (inr nextPaths).
Definition enqueue (st : gset string * list string) (nextPath : string) : gset string * list string :=
  if bool_decide (nextPath ∈ st.1) then st else ({[ nextPath ]} ∪ st.1, st.2 ++ [nextPath]).
Fixpoint fallback_rounds (fuel : nat) (serverManager : ManagedServiceClient W) (start : string) (visited : gset string) (queue : list string)
  : M (option Content) :=
  match queue with
  | [] => mret None
  | currentPath :: queue =>
      match fuel with
      | 0%nat => fun _ => None
      | S fuel =>
          answer ← visit_fallback_path serverManager start currentPath;
          match answer with
          | inl v => mret v
          | inr nextPaths =>
              let '(visited, queue) := foldl enqueue (visited, queue) nextPaths in
              fallback_rounds fuel serverManager start visited queue
          end
      end
  end.
Definition fetchRemoteMetadataPathFallbackValue (serverManager : ManagedServiceClient W) (resolvedResource : Resource) : M (option Content) :=
  let start := LogicalPath resolvedResource in
  fallback_rounds fuel serverManager start {[ start ]} [start].

(** *** The read *)
Definition fetchRemoteValue (resolvedResource : Resource) (md : ResourceMetadata) : M Content :=
  serverManager ← requireServer;
  remoteValue ← catch (outside (client_Get serverManager ctx resolvedResource md));
  match remoteValue with
  | Ok remoteValue => _ ← detectRemoteIdentityAmbiguityAfterDirectGet serverManager resolvedResource md; mret remoteValue
  | Err err =>
      if negb (canUseRemoteCollectionCandidateFallback err) then fail err
      else if is_category err ValidationError then
        candidateValue ← fetchRemoteValueFromCollectionCandidate serverManager resolvedResource md;
        match candidateValue with Some v => mret v | None => fail err end
      else
        metadataFallback ← fetchRemoteMetadataPathFallbackValue serverManager resolvedResource;
        match metadataFallback with
        | Some v => mret v
        | None =>
            collectionValue ← fetchRemoteCollectionValue serverManager resolvedResource md;
            match collectionValue with
            | Some v => mret v
            | None =>
                candidates ← catch (listRemoteResources serverManager (CollectionPath resolvedResource) md);
                match candidates with
                | Err listErr => if is_category listErr NotFoundError || IsListPayloadShapeError listErr then fail err else fail listErr
                | Ok candidates =>
                    matched ← of_result (remoteFallbackCandidates resolvedResource candidates);
                    match matched, candidates with
                    | [candidate], _ => fetchRemoteValueForCandidate serverManager resolvedResource md candidate
                    | _, candidate :: _ =>
                        if allowsSingletonListIdentityFallback (LogicalPath resolvedResource) md candidates
                        then mret (contentFromResource candidate) else fail err
                    | _, [] => fail err
                    end
                end
            end
        end
  end.
Definition GetRemote (logicalPath : string) : M Content :=
  '(resolvedResource, resourceMd) ← buildResourceInfoForRemoteRead logicalPath;
  fetchRemoteValue resolvedResource resourceMd.
End reading.

(** The read of a [resource()] call; [depth] bounds the nesting of such calls. *)
Fixpoint resolveListJQResource (fuel depth : nat) (ctx : context) (logicalPath : string) : M value :=
  match depth with
  | 0%nat => fun _ => None
  | S depth =>
      content ← GetRemote (resolveListJQResource fuel depth) fuel ctx logicalPath;
      mret (content_Value content)
  end.

Section commands.
Context (fuel depth : nat) (ctx : context).
Abbreviation fetch_remote := (fetchRemoteValue (resolveListJQResource fuel depth) fuel ctx).
Abbreviation remote_candidate := (resolveRemoteCollectionCandidate (resolveListJQResource fuel depth) ctx).

(** ** Mutations of the managed service *)
Definition executeRemoteMutation (resolvedResource : Resource) (md : ResourceMetadata) (o : Operation) : M Resource :=
  serverManager ← requireServer;
  remotePayload ← (match o with
                   | OperationCreate => outside (client_Create serverManager ctx resolvedResource md)
                   | OperationUpdate => outside (client_Update serverManager ctx resolvedResource md)
                   | _ => fail (NewTypedError ValidationError ("unsupported remote mutation operation " +:+ quote (operation_string o)) None)
                   end);
  let '(payload, descriptor) := if negb (is_nil (content_Value remotePayload))
                                then (content_Value remotePayload, content_Descriptor remotePayload)
                                else (Payload resolvedResource, Res_PayloadDescriptor resolvedResource) in
  normalizedPayload ← of_result (Normalize payload);
  mret (with_payload resolvedResource normalizedPayload descriptor).
Definition resolvePayloadForRemote (logicalPath : string) (content : Content) : M Content :=
  if is_nil (content_Value content) then mret content
  else
    normalizedPath ← of_result (NormalizeLogicalPath logicalPath);
    read_outside (fun w =>
      resolved ← ResolvePayloadDirectivesForResource (content_Value content) normalizedPath (content_Descriptor content)
        ((fun getSecret => getSecret w) <$> secrets r);
      Ok {| content_Value := resolved; content_Descriptor := content_Descriptor content |}).
Definition prepareResourceForRemote (logicalPath : string) (content : Content) : M (Resource * ResourceMetadata) :=
  '(resolvedResource, resourceMd) ← buildResourceInfo logicalPath content;
  resolvedPayload ← resolvePayloadForRemote (LogicalPath resolvedResource) (contentFromResource resolvedResource);
  mret (with_payload resolvedResource (content_Value resolvedPayload) (content_Descriptor resolvedPayload), resourceMd).

(** ** The payloads a comparison sees *)
Definition put_text (k s : string) (o : object) : object := if s == "" then o else <[k := VString s]> o.
Definition compareInputForWholeResourceOpaquePayload (resolvedResource : Resource) (md : ResourceMetadata) (descriptor : PayloadDescriptor) : value :=
  let resolved := if IsPayloadDescriptorExplicit descriptor then descriptor
                  else match concrete_format md with
                       | Some format => {| PayloadType := format; MediaType := ""; Extension := "" |}
                       | None => descriptor
                       end in
  let resolved := NormalizePayloadDescriptor resolved in
  let alias := trim_space (LocalAlias resolvedResource) in
  VMap (put_text "payloadExtension" (trim_space (Extension resolved))
         (put_text "contentType" (trim_space (MediaType resolved))
           (put_text "payloadType" (trim_space (PayloadType resolved))
             (put_text "name" alias (put_text "alias" alias (put_text "id" (trim_space (RemoteID resolvedResource)) ∅)))))).
Definition isStructuredCompareValue (v : value) : bool := match v with VMap _ | VList _ => true | _ => false end.
Definition first_text (texts : list string) : string := default "" (head (filter (fun s => s <> "") texts)).
Definition compared_payload_type (resolvedResource : Resource) (md : ResourceMetadata) (localContent : Content) : string :=
  first_text [trim_space (PayloadType (content_Descriptor localContent)); trim_space (PayloadType (Res_PayloadDescriptor resolvedResource));
              default "" (concrete_format md); PayloadTypeJSON].
Definition compare_payloads (resolvedResource : Resource) (md : ResourceMetadata) (compareSpec : OperationSpec) (localContent remoteContent : Content)
  : result error (value * value) :=
  payloadType ← ValidateConcreteResourceFormat (compared_payload_type resolvedResource md localContent);
  if negb (IsStructuredPayloadType payloadType) then
    if (0 <? length (default [] (op_Transforms compareSpec)))%nat then
      if negb (IsWholeResourceSecret md)
      then Err (Invalid ("compare transforms require structured payloads, got " +:+ quote payloadType) None)
      else
        localTransformed ← applyCompareTransforms
          (compareInputForWholeResourceOpaquePayload resolvedResource md (content_Descriptor localContent)) compareSpec;
        if is_nil (content_Value remoteContent) then Ok (localTransformed, VNil)
        else
          let remoteInput := if isStructuredCompareValue (content_Value remoteContent) then content_Value remoteContent
                             else compareInputForWholeResourceOpaquePayload resolvedResource md (content_Descriptor remoteContent) in
          remoteTransformed ← applyCompareTransforms remoteInput compareSpec;
          Ok (localTransformed, remoteTransformed)
    else
      normalizedLocal ← Normalize (content_Value localContent);
      normalizedRemote ← Normalize (content_Value remoteContent);
      Ok (normalizedLocal, normalizedRemote)
  else
    localTransformed ← applyCompareTransforms (content_Value localContent) compareSpec;
    remoteTransformed ← applyCompareTransforms (content_Value remoteContent) compareSpec;
    Ok (localTransformed, remoteTransformed).
Definition resolveComparedPayloads (resolvedResource : Resource) (md : ResourceMetadata) (localContent remoteContent : Content) : M (value * value) :=
  compareSpec ← renderOperationSpec ctx resolvedResource md OperationCompare (content_Value localContent);
  of_result (compare_payloads resolvedResource md compareSpec localContent remoteContent).

(** ** Reading from the repository *)
Definition hydrateLocalFallbackCandidate (manager : ResourceStore W) (md : ResourceMetadata) (candidate : Resource) : M Resource :=
  candidateContent ← read_outside (fun w => store_Get manager w (LogicalPath candidate));
  candidateContent ← of_result (mergeContentWithMetadataDefaults candidateContent md);
  candidateContent ← expandExternalizedPayload (LogicalPath candidate) md candidateContent;
  candidatePayload ← of_result (Normalize (content_Value candidateContent));
  '(candidateAlias, resolvedRemoteID) ← of_outcome (resolveResourceIdentity (LogicalPath candidate) md candidatePayload);
  mret (resource_info (LogicalPath candidate) candidateAlias resolvedRemoteID candidatePayload (content_Descriptor candidateContent)).
(** The candidates, hydrated, whose identity is the requested one. *)
Fixpoint local_matches (manager : ResourceStore W) (requestedInfo : Resource) (md : ResourceMetadata) (candidates : list Resource) : M (list Resource) :=
  match candidates with
  | [] => mret []
  | candidate :: candidates =>
      hydrated ← hydrateLocalFallbackCandidate manager md candidate;
      rest ← local_matches manager requestedInfo md candidates;
      mret (if matchesFallbackIdentity requestedInfo (LocalAlias hydrated) (RemoteID hydrated) (Payload hydrated) then hydrated :: rest else rest)
  end.
Definition local_fallback (manager : ResourceStore W) (normalizedPath : string) (err : error) : M Resource :=
  '(requestedInfo, requestedMd) ← buildResourceInfoForRemoteRead normalizedPath;
  if (trim_space (ID requestedMd) == "") && (trim_space (Alias requestedMd) == "") then fail err
  else
    candidates ← read_outside (fun w => store_List manager w (CollectionPath requestedInfo) false);
    let requestedSegment := requestedFallbackSegment requestedInfo in
    let aliasMatches := if negb (requestedSegment == "")
                        then filter (fun candidate => listedResourceAlias candidate = requestedSegment) candidates else [] in
    match aliasMatches with
    | [candidate] => hydrateLocalFallbackCandidate manager requestedMd candidate
    | _ =>
        matches ← local_matches manager requestedInfo requestedMd candidates;
        match matches with
        | [] => fail err
        | [found] => mret found
        | _ => fail (ambiguous_fallback "local" normalizedPath)
        end
    end.
Definition resolveLocalResourceForRead (logicalPath : string) : M Resource :=
  manager ← requireRepository;
  normalizedPath ← of_result (NormalizeLogicalPath logicalPath);
  content ← catch (read_outside (fun w => store_Get manager w normalizedPath));
  match content with
  | Ok content =>
      resolvedMetadata ← resolveMetadataForPath normalizedPath true;
      content ← of_result (mergeContentWithMetadataDefaults content resolvedMetadata);
      normalizedValue ← of_result (Normalize (content_Value content));
      mret (resource_info normalizedPath (logicalPathAlias normalizedPath) (logicalPathAlias normalizedPath) normalizedValue (content_Descriptor content))
  | Err err => if negb (is_category err NotFoundError) then fail err else local_fallback manager normalizedPath err
  end.
Definition GetLocal (logicalPath : string) : M Content :=
  localResource ← resolveLocalResourceForRead logicalPath; mret (contentFromResource localResource).
Fixpoint fill_local_payloads (manager : ResourceStore W) (items : list Resource) : M (list Resource) :=
  match items with
  | [] => mret []
  | item :: items =>
      item ← (if negb (is_nil (Payload item)) then mret item
              else
                content ← read_outside (fun w => store_Get manager w (LogicalPath item));
                resolvedMetadata ← resolveMetadataForPath (LogicalPath item) true;
                content ← of_result (mergeContentWithMetadataDefaults content resolvedMetadata);
                mret (with_payload item (content_Value content) (content_Descriptor content)));
      items ← fill_local_payloads manager items;
      mret (item :: items)
  end.
Definition ListLocal (logicalPath : string) (recursive : bool) : M (list Resource) :=
  manager ← requireRepository;
  items ← read_outside (fun w => store_List manager w logicalPath recursive);
  fill_local_payloads manager items.
Definition Save (logicalPath : string) (content : Content) : M unit :=
  manager ← requireRepository; saveLocalResource manager logicalPath content.

(** ** Applying *)
Record ConflictCheck := { check_LogicalPath : string; check_CollectionPath : string; check_RemoteID : string }.
Record ApplyPolicy := { Force : bool; Conflict_checker : option (ConflictCheck -> action W (bool * string)) }.
Definition mutation_vetoed (policy : ApplyPolicy) (resolvedResource : Resource) : M bool :=
  match Conflict_checker policy with
  | None => mret false
  | Some conflict =>
      '(skip, _) ← outside (conflict {| check_LogicalPath := LogicalPath resolvedResource; check_CollectionPath := CollectionPath resolvedResource;
                                        check_RemoteID := RemoteID resolvedResource |});
      mret skip
  end.
Definition applyDesiredState (logicalPath : string) (content : Content) (policy : ApplyPolicy) : M Resource :=
  '(resolvedResource, resourceMd) ← prepareResourceForRemote logicalPath content;
  vetoed ← mutation_vetoed policy resolvedResource;
  if (vetoed : bool) then mret resolvedResource
  else
    remoteValue ← catch (fetch_remote resolvedResource resourceMd);
    match remoteValue with
    | Err err =>
        if negb (is_category err NotFoundError) then fail err
        else
          created ← catch (executeRemoteMutation resolvedResource resourceMd OperationCreate);
          match created with
          | Ok item => mret item
          | Err mutationErr =>
              if is_category mutationErr ConflictError then executeRemoteMutation resolvedResource resourceMd OperationUpdate
              else fail mutationErr
          end
    | Ok remoteValue =>
        '(localForCompare, remoteForCompare) ← resolveComparedPayloads resolvedResource resourceMd (contentFromResource resolvedResource) remoteValue;
        resolvedRemoteID ← of_outcome (resolvedRemoteIDFromPayload resourceMd (content_Value remoteValue));
        let resolvedResource := match resolvedRemoteID with
                                | Some remoteID => with_identity resolvedResource (LocalAlias resolvedResource) remoteID
                                | None => resolvedResource
                                end in
        if deep_equal localForCompare remoteForCompare && negb (Force policy) then
          normalizedRemote ← of_result (Normalize (content_Value remoteValue));
          mret (with_payload resolvedResource normalizedRemote (content_Descriptor remoteValue))
        else executeRemoteMutation resolvedResource resourceMd OperationUpdate
    end.
Definition Apply (logicalPath : string) (policy : ApplyPolicy) : M Resource :=
  localResource ← resolveLocalResourceForRead logicalPath;
  applyDesiredState (LogicalPath localResource) (contentFromResource localResource) policy.
Definition ApplyWithContent (logicalPath : string) (content : Content) (policy : ApplyPolicy) : M Resource :=
  applyDesiredState logicalPath content policy.
Definition Create (logicalPath : string) (content : Content) : M Resource :=
  '(resolvedResource, resourceMd) ← prepareResourceForRemote logicalPath content;
  executeRemoteMutation resolvedResource resourceMd OperationCreate.
Definition Update (logicalPath : string) (content : Content) : M Resource :=
  '(resolvedResource, resourceMd) ← prepareResourceForRemote logicalPath content;
  executeRemoteMutation resolvedResource resourceMd OperationUpdate.

(** ** Deleting *)
(** The resource as the managed service knows it: its payload, and the identity in it. *)
Definition with_remote_identity (resolvedResource : Resource) (md : ResourceMetadata) (remoteValue : Content) : M Resource :=
  normalizedPayload ← of_result (Normalize (content_Value remoteValue));
  let resolvedResource := with_payload resolvedResource normalizedPayload (content_Descriptor remoteValue) in
  '(localAlias, remoteID) ← of_outcome (resolveResourceIdentity (LogicalPath resolvedResource) md normalizedPayload);
  mret (with_identity resolvedResource localAlias remoteID).
Definition Delete (logicalPath : string) : M unit :=
  serverManager ← requireServer;
  '(resolvedResource, resourceMd) ← buildResourceInfoForRemoteRead logicalPath;
  deleted ← catch (outside (client_Delete serverManager ctx resolvedResource resourceMd));
  '(resolvedResource, deleted) ←
    (match deleted with
     | Err deleteErr =>
         if is_category deleteErr ValidationError then
           candidate ← remote_candidate serverManager resolvedResource resourceMd;
           match candidate with
           | Err candidateErr => fail candidateErr
           | Ok None => mret (resolvedResource, deleted)
           | Ok (Some candidate) =>
               let resolvedResource := remoteReadResourceFromFallbackCandidate resolvedResource candidate in
               deleted ← catch (outside (client_Delete serverManager ctx resolvedResource resourceMd));
               mret (resolvedResource, deleted)
           end
         else mret (resolvedResource, deleted)
     | Ok _ => mret (resolvedResource, deleted)
     end);
  match deleted with
  | Ok _ => mret tt
  | Err deleteErr =>
      if negb (is_category deleteErr NotFoundError) then fail deleteErr
      else
        remoteValue ← fetch_remote resolvedResource resourceMd;
        resolvedResource ← with_remote_identity resolvedResource resourceMd remoteValue;
        outside (client_Delete serverManager ctx resolvedResource resourceMd)
  end.

(** ** Lists, differences, templates *)
Definition ListRemote (logicalPath : string) (recursive : bool) : M (list Resource) :=
  normalizedPath ← of_result (NormalizeLogicalPath logicalPath);
  serverManager ← requireServer;
  resolvedMetadata ← resolveMetadataForPath normalizedPath true;
  items ← listRemoteResources (resolveListJQResource fuel depth) ctx serverManager normalizedPath resolvedMetadata;
  let items := sort_resources items in
  if (recursive : bool) then mret items
  else mret (filter (fun item => is_Some (ChildSegment normalizedPath (LogicalPath item))) items).
Record Document := { doc_ResourcePath : string; doc_Local : Content; doc_Remote : Content; doc_Entries : list DiffEntry }.
Definition entry_key (e : DiffEntry) : string * (string * string) := (ResourcePath e, (d_Path e, d_Operation e)).
Definition key_pair_le {A} (le : A -> A -> Prop) (x y : string * A) : Prop :=
  if x.1 == y.1 then le x.2 y.2 else String.le x.1 y.1.
Definition entry_le (a b : DiffEntry) : Prop := key_pair_le (key_pair_le String.le) (entry_key a) (entry_key b).
#[export] Instance key_pair_le_dec {A} (le : A -> A -> Prop) `{!RelDecision le} : RelDecision (key_pair_le le).
Proof. intros x y. unfold key_pair_le. destruct (bool_decide (x.1 = y.1)); apply _. Defined.
#[export] Instance entry_le_dec : RelDecision entry_le.
Proof. intros a b. unfold entry_le. apply key_pair_le_dec. apply _. Defined.
Definition sort_entries (entries : list DiffEntry) : list DiffEntry := merge_sort entry_le entries.
Definition DiffDocument (logicalPath : string) : M Document :=
  localResource ← resolveLocalResourceForRead logicalPath;
  '(resolvedResource, resourceMd) ← buildResourceInfo (LogicalPath localResource) (contentFromResource localResource);
  localForCompare ← resolvePayloadForRemote (LogicalPath resolvedResource) (contentFromResource resolvedResource);
  let resolvedResource := with_payload resolvedResource (content_Value localForCompare) (content_Descriptor localForCompare) in
  remoteValue ← catch (fetch_remote resolvedResource resourceMd);
  remoteValue ← (match remoteValue with
                 | Ok remoteValue => mret remoteValue
                 | Err err => if is_category err NotFoundError then mret empty_content else fail err
                 end);
  '(localTransformed, remoteTransformed) ← resolveComparedPayloads resolvedResource resourceMd localForCompare remoteValue;
  mret {| doc_ResourcePath := LogicalPath resolvedResource;
          doc_Local := {| content_Value := localTransformed; content_Descriptor := content_Descriptor localForCompare |};
          doc_Remote := {| content_Value := remoteTransformed; content_Descriptor := content_Descriptor remoteValue |};
          doc_Entries := sort_entries (buildDiffEntries (LogicalPath resolvedResource) localTransformed remoteTransformed) |}.
Definition Diff (logicalPath : string) : M (list DiffEntry) :=
  document ← DiffDocument logicalPath; mret (doc_Entries document).
Definition Template (logicalPath : string) (content : Content) : M Content :=
  '(resolvedResource, resourceMd) ← buildResourceInfo logicalPath content;
  spec ← renderOperationSpec ctx resolvedResource resourceMd OperationUpdate (Payload resolvedResource);
  let descriptor := Res_PayloadDescriptor resolvedResource in
  if negb (is_nil (Body spec)) then
    normalizedBody ← of_result (Normalize (Body spec));
    mret {| content_Value := normalizedBody; content_Descriptor := descriptor |}
  else
    resolvedPayload ← of_result (ResolvePayloadDirectivesForResource (Payload resolvedResource) (LogicalPath resolvedResource) descriptor None);
    normalizedPayload ← of_result (Normalize resolvedPayload);
    mret {| content_Value := normalizedPayload; content_Descriptor := descriptor |}.

(** ** Requests *)
Definition cloneRequestSpec (v : RequestSpec) (method path : string) : RequestSpec :=
  {| rs_Method := method; rs_Path := path; rs_Query := rs_Query v; rs_Headers := rs_Headers v; rs_Accept := rs_Accept v;
     rs_ContentType := rs_ContentType v; rs_Body := rs_Body v |}.
Definition requestBodyContent (v : value) (contentType : string) : Content :=
  if is_nil v then empty_content
  else {| content_Value := v;
          content_Descriptor := if negb (trim_space contentType == "")
                                then NormalizePayloadDescriptor {| PayloadType := ""; MediaType := contentType; Extension := "" |}
                                else empty_descriptor |}.
(** The entries of the request over those of the operation. *)
Definition overlay_entries (base resolved : option (gmap string string)) : option (gmap string string) :=
  match base with
  | Some entries => if bool_decide (entries = ∅) then resolved else Some (entries ∪ default ∅ resolved)
  | None => resolved
  end.
Definition requestSpecFromOperationSpec (base : RequestSpec) (spec : OperationSpec) : RequestSpec :=
  let method := to_upper (trim_space (Method spec)) in
  let body := requestBodyContent (Body spec) (ContentType spec) in
  {| rs_Method := if method == "" then to_upper (trim_space (rs_Method base)) else method;
     rs_Path := op_Path spec;
     rs_Query := overlay_entries (rs_Query base) (Query spec);
     rs_Headers := overlay_entries (rs_Headers base) (Headers spec);
     rs_Accept := if negb (trim_space (rs_Accept base) == "") then rs_Accept base else Accept spec;
     rs_ContentType := if negb (trim_space (rs_ContentType base) == "") then rs_ContentType base else ContentType spec;
     rs_Body := if requestBodyPresent (rs_Body base) && negb (requestBodyPresent body) then rs_Body base else body |}.
Definition sameNormalizedRequestPath (first second : string) : bool :=
  match NormalizeLogicalPath first, NormalizeLogicalPath second with
  | Ok normalizedFirst, Ok normalizedSecond => normalizedFirst == normalizedSecond
  | _, _ => NormalizeRequestPath first == NormalizeRequestPath second
  end.
Definition shouldResolveRequestGetAsList (resolvedResource : Resource) (md : ResourceMetadata) : bool :=
  if trim_space (RemoteCollectionPath md) == "" then false
  else if match Operations md ≫= (.!! "get") with Some getSpec => negb (trim_space (op_Path getSpec) == "") | None => false end then false
  else
    let templateDepth := length (SplitRawPathSegments (RemoteCollectionPath md)) in
    if (templateDepth =? 0)%nat then false
    else
      let logicalDepth := length (SplitRawPathSegments (LogicalPath resolvedResource)) in
      if (logicalDepth =? 0)%nat then false else (logicalDepth <=? templateDepth)%nat.
Definition requestMetadataOperation (method : string) : option Operation :=
  if method == "GET" then Some OperationGet
  else if method == "POST" then Some OperationCreate
  else if (method == "PUT") || (method == "PATCH") then Some OperationUpdate
  else if method == "DELETE" then Some OperationDelete
  else None.
Definition requestOperationAllowsCollectionCandidateFallback (o : Operation) : bool := (o == OperationGet) || (o == OperationDelete).
Definition resolveRequestSpec (requestSpec : RequestSpec) : M (RequestSpec * context) :=
  let normalizedMethod := to_upper (trim_space (rs_Method requestSpec)) in
  match requestMetadataOperation normalizedMethod with
  | None => mret (cloneRequestSpec requestSpec normalizedMethod (NormalizeRequestPath (rs_Path requestSpec)), ctx)
  | Some operation =>
      '(resolvedResource, resourceMd) ← buildResourceInfoForRemoteRead (rs_Path requestSpec);
      let operation := if (normalizedMethod == "GET") && shouldResolveRequestGetAsList resolvedResource resourceMd then OperationList else operation in
      let resolvedResource := if (operation == OperationCreate) || (operation == OperationList)
                              then with_collection resolvedResource (LogicalPath resolvedResource) else resolvedResource in
      resolvedResource ← (if requestBodyPresent (rs_Body requestSpec) then
                            normalizedBody ← of_result (Normalize (content_Value (rs_Body requestSpec)));
                            mret (with_payload resolvedResource normalizedBody (content_Descriptor (rs_Body requestSpec)))
                          else mret resolvedResource);
      rendered ← catch (renderOperationSpec ctx resolvedResource resourceMd operation (Payload resolvedResource));
      '(resolvedResource, spec) ←
        (match rendered with
         | Ok spec => mret (resolvedResource, spec)
         | Err err =>
             if is_category err ValidationError && requestOperationAllowsCollectionCandidateFallback operation then
               serverManager ← requireServer;
               candidate ← remote_candidate serverManager resolvedResource resourceMd;
               match candidate with
               | Err candidateErr => fail candidateErr
               | Ok None => fail err
               | Ok (Some candidate) =>
                   let resolvedResource := remoteReadResourceFromFallbackCandidate resolvedResource candidate in
                   spec ← renderOperationSpec ctx resolvedResource resourceMd operation (Payload resolvedResource);
                   mret (resolvedResource, spec)
               end
             else fail err
         end);
      let input := {| in_LogicalPath := LogicalPath resolvedResource; in_CollectionPath := CollectionPath resolvedResource;
                      in_LocalAlias := LocalAlias resolvedResource; in_RemoteID := RemoteID resolvedResource;
                      in_PayloadDescriptor := empty_descriptor; in_Metadata := resourceMd; in_Payload := Payload resolvedResource |} in
      mret (requestSpecFromOperationSpec requestSpec spec, WithRequestOperationValidation ctx operation input (Validate spec))
  end.
End commands.

Section requests.
Context (fuel depth : nat) (ctx : context).
(** [None] when the error is not one that the literal path may cure. *)
Definition retryRequestResolvedMutationWithLiteralPath (requestCtx : context) (serverManager : ManagedServiceClient W)
  (original resolved : RequestSpec) (requestErr : error) : M (option Content) :=
  let normalizedMethod := to_upper (trim_space (rs_Method original)) in
  if negb (normalizedMethod == "PUT") && negb (normalizedMethod == "PATCH") then mret None
  else if negb (is_category requestErr NotFoundError) then mret None
  else if sameNormalizedRequestPath (rs_Path original) (rs_Path resolved) then mret None
  else
    v ← outside (client_Request serverManager requestCtx (cloneRequestSpec resolved (rs_Method resolved) (rs_Path original)));
    mret (Some v).
Definition retryRequestNotFoundWithMetadata (requestCtx : context) (serverManager : ManagedServiceClient W) (requestSpec : RequestSpec) : M (option Content) :=
  let normalizedMethod := to_upper (trim_space (rs_Method requestSpec)) in
  if normalizedMethod == "GET" then
    v ← GetRemote (resolveListJQResource fuel depth) fuel requestCtx (rs_Path requestSpec); mret (Some v)
  else if normalizedMethod == "DELETE" then
    '(resolvedResource, resourceMd) ← buildResourceInfoForRemoteRead (rs_Path requestSpec);
    remoteValue ← fetchRemoteValue (resolveListJQResource fuel depth) fuel requestCtx resolvedResource resourceMd;
    resolvedResource ← with_remote_identity resolvedResource resourceMd remoteValue;
    spec ← renderOperationSpec requestCtx resolvedResource resourceMd OperationDelete (Payload resolvedResource);
    v ← outside (client_Request serverManager requestCtx (requestSpecFromOperationSpec requestSpec spec));
    mret (Some v)
  else mret None.
Definition Request (requestSpec : RequestSpec) : M Content :=
  serverManager ← requireServer;
  '(resolvedRequest, requestCtx) ← resolveRequestSpec fuel depth ctx requestSpec;
  v ← catch (outside (client_Request serverManager requestCtx resolvedRequest));
  match v with
  | Ok v => mret v
  | Err err =>
      literal ← retryRequestResolvedMutationWithLiteralPath requestCtx serverManager requestSpec resolvedRequest err;
      match literal with
      | Some fallbackValue => mret fallbackValue
      | None =>
          if is_category err NotFoundError then
            retried ← retryRequestNotFoundWithMetadata requestCtx serverManager requestSpec;
            match retried with Some fallbackValue => mret fallbackValue | None => fail err end
          else fail err
      end
  end.
Definition GetOpenAPISpec : M Content :=
  serverManager ← requireServer; outside (client_GetOpenAPISpec serverManager ctx).
End requests.
End orchestrator.
