(* ===== verification/OrchestratorFacts.v ===== *)
(** * Commands follow their calls

    The judgements of [ActionFacts.v] on the commands of the orchestrator: what holds of the
    calls of the managed service, and goes through binds, holds of every read; what is known
    of a resource before a call is known from reads of the repository, the metadata and the
    secrets alone. *)
From S2P Require Import Prelude GoText Faults Paths Value Descriptor Codec Metadata MetaWire TemplateSyntax OperationSpec Externalize Identity FsRender RuntimeMetadata Diff SecretsPayload Services ActionFacts Orchestrator.

(** ** What is known locally
    The reads of the repository, the metadata and the secrets before a call are functions of
    what is outside. *)
Section local.
Context `{by_path : ResourceSort, UnicodeTables, TextCodecs, TemplateEngine, JqEngine}.
Context (sprintf : string -> string -> string) (order : map_order) {W : Type} (r : Orchestrator W).
(** The metadata of a path, in a state. *)
Definition metadata_at (w : W) (p : string) : result error ResourceMetadata :=
  match metadata_service r with
  | None => Ok empty_metadata
  | Some service =>
      match service_ResolveForPath service w p with
      | Err err => if is_category err NotFoundError then Ok empty_metadata else Err err
      | Ok md => Ok md
      end
  end.
Lemma metadata_reads p : reads (resolveMetadataForPath r p true) (fun w => lift (metadata_at w p)).
Proof. intros [w st]. unfold resolveMetadataForPath, metadata_at. by destruct (metadata_service r). Qed.
Lemma resolveMetadata_at p s md : metadata_at s.1 p = Ok md -> resolveMetadataForPath r p true s = Some (Ok md, s).
Proof. rewrite (metadata_reads p s). by intros ->. Qed.
Definition expanded_at (w : W) (p : string) (md : ResourceMetadata) (content : Content) : result error Content :=
  entries ← ResolveExternalizedAttributes md;
  match entries with
  | [] => v ← Normalize (content_Value content); Ok {| content_Value := v; content_Descriptor := content_Descriptor content |}
  | _ =>
      expanded ← Expand sprintf ((fun a => ReadResourceArtifact a w) <$> (repository r ≫= store_artifacts)) p (content_Value content) entries;
      Ok {| content_Value := expanded; content_Descriptor := content_Descriptor content |}
  end.
Lemma expand_reads p md content : reads (expandExternalizedPayload sprintf r p md content) (fun w => lift (expanded_at w p md content)).
Proof.
  intros [w st]. unfold expandExternalizedPayload, expanded_at. destruct (ResolveExternalizedAttributes md) as [[|e es]|err]; [|done..].
  by destruct (Normalize (content_Value content)).
Qed.
Definition sent_at (w : W) (res : Resource) : result error Content :=
  if is_nil (Payload res) then Ok (contentFromResource res)
  else
    q ← NormalizeLogicalPath (LogicalPath res);
    v ← ResolvePayloadDirectivesForResource (Payload res) q (Res_PayloadDescriptor res) ((fun get => get w) <$> secrets r);
    Ok {| content_Value := v; content_Descriptor := Res_PayloadDescriptor res |}.
Lemma sent_reads res : reads (resolvePayloadForRemote r (LogicalPath res) (contentFromResource res)) (fun w => lift (sent_at w res)).
Proof.
  intros [w st]. unfold resolvePayloadForRemote, sent_at. cbn [content_Value contentFromResource]. destruct (is_nil (Payload res)); [done|].
  by destruct (NormalizeLogicalPath (LogicalPath res)).
Qed.
(** The resource that an application builds, the one it sends, and their metadata. *)
Definition built_at (w : W) (p : string) (content : Content) : outcome (Resource * ResourceMetadata) :=
  q ← lift (NormalizeLogicalPath p);
  md ← lift (metadata_at w q);
  c ← lift (expanded_at w q md content);
  x ← lift (Normalize (content_Value c));
  '(alias, remoteID) ← ResolveAliasAndRemoteID q md x;
  Ok (resource_info q alias remoteID x (content_Descriptor c), md).
Definition prepared_at (w : W) (p : string) (content : Content) : outcome (Resource * ResourceMetadata) :=
  '(res, md) ← built_at w p content;
  sent ← lift (sent_at w res);
  Ok (with_payload res (content_Value sent) (content_Descriptor sent), md).
Lemma built_reads p content : reads (buildResourceInfo sprintf r p content) (fun w => built_at w p content).
Proof.
  unfold buildResourceInfo, built_at. eapply reads_bind; [apply reads_of_result|intros q]. eapply reads_bind; [apply metadata_reads|intros md].
  eapply reads_bind; [apply expand_reads|intros c]. eapply reads_bind; [apply reads_of_result|intros x].
  intros s. by destruct (ResolveAliasAndRemoteID q md x) as [[alias remoteID]|e].
Qed.
Lemma prepare_reads p content : reads (prepareResourceForRemote sprintf r p content) (fun w => prepared_at w p content).
Proof.
  intros s. unfold prepareResourceForRemote, prepared_at. pose proof (built_reads p content s) as Hb.
  destruct (built_at s.1 p content) as [[res md]|e].
  - rewrite (bind_run _ _ _ _ _ Hb). revert s Hb. refine (fun s _ => reads_bind _ _ _ (fun sent _ => Ok (with_payload res (content_Value sent) (content_Descriptor sent), md)) (sent_reads res) _ s).
    intros sent. apply reads_ret.
  - unfold mbind, action_bind. by rewrite Hb.
Qed.
(** The operation that is rendered. *)
Definition rendered_at (w : W) (ctx : context) (res : Resource) (md : ResourceMetadata) (o : Operation) (v : value) : outcome OperationSpec :=
  let copy := CloneResourceMetadata md in
  let t := with_payload res v (Res_PayloadDescriptor res) in
  spec ← match (fun render => render w) <$> (metadata_service r ≫= service_renderer) with
         | Some render => render (resource_input t copy) o
         | None => lift (own_operation_spec order t copy o)
         end;
  Ok (override_method ctx o spec).
Lemma render_reads ctx res md o v : reads (renderOperationSpec order r ctx res md o v) (fun w => rendered_at w ctx res md o v).
Proof.
  unfold renderOperationSpec, rendered_at. destruct (metadata_service r ≫= service_renderer) as [render|].
  - eapply reads_bind; [apply reads_outside|]. intros spec. apply reads_ret.
  - eapply reads_bind; [apply reads_of_result|]. intros spec. apply reads_ret.
Qed.
End local.

Section facts.
Context `{by_path : ResourceSort, UnicodeTables, TextCodecs, TemplateEngine, JqEngine}.
Context (sprintf : string -> string -> string) (order : map_order) {W : Type} (r : Orchestrator W).
Context (J : forall A, action (world W) A -> Prop) `{!Closed J}.

(** ** Reads of the repository, the metadata and the secrets *)
Lemma resolveMetadataForPath_closed p b : holds J (resolveMetadataForPath r p b).
Proof. unfold resolveMetadataForPath. closed. Qed.
Hint Resolve resolveMetadataForPath_closed : actions.
Lemma buildResourceInfoForRemoteRead_closed p : holds J (buildResourceInfoForRemoteRead order r p).
Proof. unfold buildResourceInfoForRemoteRead. closed. Qed.
Lemma expandExternalizedPayload_closed p md content : holds J (expandExternalizedPayload sprintf r p md content).
Proof. unfold expandExternalizedPayload. closed. Qed.
Hint Resolve buildResourceInfoForRemoteRead_closed expandExternalizedPayload_closed : actions.
Lemma buildResourceInfo_closed p content : holds J (buildResourceInfo sprintf r p content).
Proof. unfold buildResourceInfo. closed. Qed.
Lemma resolvePayloadForRemote_closed p content : holds J (resolvePayloadForRemote r p content).
Proof. unfold resolvePayloadForRemote. closed. Qed.
Hint Resolve buildResourceInfo_closed resolvePayloadForRemote_closed : actions.
Lemma prepareResourceForRemote_closed p content : holds J (prepareResourceForRemote sprintf r p content).
Proof. unfold prepareResourceForRemote. closed. Qed.
Lemma renderOperationSpec_closed ctx info md o v : holds J (renderOperationSpec order r ctx info md o v).
Proof. unfold renderOperationSpec. closed. Qed.
Hint Resolve renderOperationSpec_closed : actions.
Lemma resolveComparedPayloads_closed ctx info md a b : holds J (resolveComparedPayloads order r ctx info md a b).
Proof. unfold resolveComparedPayloads. closed. Qed.
Lemma hydrateLocalFallbackCandidate_closed store md c : holds J (hydrateLocalFallbackCandidate sprintf r store md c).
Proof. unfold hydrateLocalFallbackCandidate. closed. Qed.
Hint Resolve hydrateLocalFallbackCandidate_closed : actions.
Lemma local_matches_closed store info md cs : holds J (local_matches sprintf r store info md cs).
Proof. induction cs as [|c cs IH]; cbn [local_matches]; closed. Qed.
Hint Resolve local_matches_closed : actions.
Lemma resolveLocalResourceForRead_closed p : holds J (resolveLocalResourceForRead sprintf order r p).
Proof. unfold resolveLocalResourceForRead, requireRepository, local_fallback. closed. Qed.

(** ** Reads of the managed service *)
Context (resolve : context -> string -> action (world W) value) (ctx : context) (client : ManagedServiceClient W).
Context (get_J : forall info md, holds J (outside (client_Get client ctx info md))).
Context (spec_J : holds J (outside (client_GetOpenAPISpec client ctx))).
Context (list_J : forall cp md, holds J (listRemoteResources resolve ctx client cp md)).
Hint Resolve get_J spec_J list_J : actions.
Lemma renderedOperationPath_closed info md o : holds J (renderedOperationPath order r ctx info md o).
Proof. unfold renderedOperationPath. closed. Qed.
Hint Resolve renderedOperationPath_closed : actions.
Lemma openAPIInferenceHintsCollection_closed info p spec : holds J (openAPIInferenceHintsCollection order r ctx info p spec).
Proof. unfold openAPIInferenceHintsCollection, listOperationTargetsLogicalPath. closed. Qed.
Hint Resolve openAPIInferenceHintsCollection_closed : actions.
Lemma shouldTreatRemotePathAsCollection_closed info : holds J (shouldTreatRemotePathAsCollection order r ctx client info).
Proof. unfold shouldTreatRemotePathAsCollection, collectionHintFromRepository, collectionHintFromOpenAPI. closed. Qed.
Hint Resolve shouldTreatRemotePathAsCollection_closed : actions.
Lemma fetchRemoteCollectionValue_closed info md : holds J (fetchRemoteCollectionValue order r resolve ctx client info md).
Proof. unfold fetchRemoteCollectionValue, isMissingParentForCollectionNotFound. closed. Qed.
Lemma detectRemoteIdentityAmbiguity_closed info md : holds J (detectRemoteIdentityAmbiguityAfterDirectGet resolve ctx client info md).
Proof. unfold detectRemoteIdentityAmbiguityAfterDirectGet. closed. Qed.
Hint Resolve fetchRemoteCollectionValue_closed detectRemoteIdentityAmbiguity_closed : actions.
Lemma fetchRemoteValueForCandidate_closed info md c : holds J (fetchRemoteValueForCandidate resolve ctx client info md c).
Proof. unfold fetchRemoteValueForCandidate. closed. Qed.
Hint Resolve fetchRemoteValueForCandidate_closed : actions.
Lemma fetchRemoteValueFromCollectionCandidate_closed info md : holds J (fetchRemoteValueFromCollectionCandidate resolve ctx client info md).
Proof. unfold fetchRemoteValueFromCollectionCandidate, resolveRemoteCollectionCandidate. closed. Qed.
Hint Resolve fetchRemoteValueFromCollectionCandidate_closed : actions.
Lemma fetchRemoteValue_closed fuel info md : server r = Some client ->
  holds J (fetchRemoteMetadataPathFallbackValue order r resolve fuel ctx client info) ->
  holds J (fetchRemoteValue order r resolve fuel ctx info md).
Proof.
  intros Hr Hfallback. unfold fetchRemoteValue, requireServer. rewrite Hr. change (mbind ?f (mret client)) with (f client). cbv beta. closed.
Qed.

(** *** The fallback over paths, when its fuel runs out as well *)
Context (none_J : forall A, holds J (fun _ => None : option (outcome A * world W))).
Lemma next_fallback_paths_closed p segments indexes : holds J (next_fallback_paths order r resolve ctx client p segments indexes).
Proof.
  induction indexes as [|i indexes IH]; cbn [next_fallback_paths]; [closed|]. pose proof IH. closed; auto with actions.
Qed.
Hint Resolve next_fallback_paths_closed : actions.
Lemma visit_fallback_path_closed start p : holds J (visit_fallback_path order r resolve ctx client start p).
Proof. unfold visit_fallback_path, resolveNextRemoteMetadataFallbackPaths. closed. Qed.
Lemma fallback_rounds_closed fuel start visited queue : holds J (fallback_rounds order r resolve ctx fuel client start visited queue).
Proof.
  revert visited queue. induction fuel as [|fuel IH]; intros visited [|p queue]; cbn [fallback_rounds]; [closed|apply none_J|closed|].
  apply closed_bind; [apply visit_fallback_path_closed|]. intros [v|paths]; [closed|]. destruct (foldl enqueue _ _). apply IH.
Qed.
End facts.
