(* ===== verification/ApplyConvergence.v ===== *)
(** * One application is enough

    [applyDesiredState] of [src/internal/orchestrator/commands.go] on a service that keeps
    what it is sent: whatever the first application did, a second one finds the service in
    the desired state and changes nothing. *)
From S2P Require Import Prelude GoText Faults Paths Value Descriptor Codec Metadata MetaWire TemplateSyntax OperationSpec Externalize Identity FsRender RuntimeMetadata Diff Services ActionFacts Orchestrator OrchestratorFacts.

(** What is read of the repository, the metadata and the secrets is the same. *)
Record same_local {W} (r : Orchestrator W) (w w' : W) : Prop := {
  same_metadata : metadata_at r w = metadata_at r w';
  same_artifacts : (fun a => ReadResourceArtifact a w) <$> (repository r ≫= store_artifacts)
                 = (fun a => ReadResourceArtifact a w') <$> (repository r ≫= store_artifacts);
  same_secrets : (fun get => get w) <$> secrets r = (fun get => get w') <$> secrets r;
  same_renderer : (fun render => render w) <$> (metadata_service r ≫= service_renderer)
                = (fun render => render w') <$> (metadata_service r ≫= service_renderer);
}.
(** The state of what is outside, whatever that of the resolver. *)
Definition in_state {W} (w : W) (P : listJQResolverState -> Prop) : world W -> Prop := fun s => s.1 = w /\ P s.2.
(** A service whose reads change nothing, whose changes leave the local side alone, and that
    answers with the payload it was last sent for a path. *)
Record steady_service {W} (r : Orchestrator W) (client : ManagedServiceClient W) : Prop := {
  get_reads : forall ctx info md w o w', client_Get client ctx info md w = Some (o, w') -> w' = w;
  openapi_reads : forall ctx w o w', client_GetOpenAPISpec client ctx w = Some (o, w') -> w' = w;
  list_reads : forall w ctx jq cp md, (forall p, keeps (in_state w (fun _ => True)) (jq p)) -> keeps (in_state w (fun _ => True)) (client_List client ctx jq cp md);
  create_local : forall ctx info md w o w', client_Create client ctx info md w = Some (o, w') -> same_local r w w';
  update_local : forall ctx info md w o w', client_Update client ctx info md w = Some (o, w') -> same_local r w w';
  create_stored : forall ctx info md w v w' info', client_Create client ctx info md w = Some (Ok v, w') -> LogicalPath info' = LogicalPath info ->
    exists d, client_Get client ctx info' md w' = Some (Ok {| content_Value := Payload info; content_Descriptor := d |}, w');
  update_stored : forall ctx info md w v w' info', client_Update client ctx info md w = Some (Ok v, w') -> LogicalPath info' = LogicalPath info ->
    exists d, client_Get client ctx info' md w' = Some (Ok {| content_Value := Payload info; content_Descriptor := d |}, w');
}.

Section converge.
Context `{by_path : ResourceSort, UnicodeTables, TextCodecs, TemplateEngine, JqEngine}.
Context (sprintf : string -> string -> string) (order : map_order) {W : Type} (r : Orchestrator W).
Context (fuel depth : nat) (ctx : context).

Lemma same_prepared w w' p content : same_local r w w' -> prepared_at sprintf r w p content = prepared_at sprintf r w' p content.
Proof. intros [Hm Ha Hs _]. unfold prepared_at, built_at, expanded_at, sent_at. by rewrite Hm, Ha, Hs. Qed.
Lemma same_rendered w w' res md o v : same_local r w w' -> rendered_at order r w ctx res md o v = rendered_at order r w' ctx res md o v.
Proof. intros [_ _ _ Hr]. unfold rendered_at. by rewrite Hr. Qed.
Lemma same_local_trans w1 w2 w3 : same_local r w1 w2 -> same_local r w2 w3 -> same_local r w1 w3.
Proof. intros [] []. split; by etransitivity. Qed.

(** ** Reads change nothing *)
Context (client : ManagedServiceClient W) (Hserver : server r = Some client) (Hsteady : steady_service r client).
Lemma keeps_get w P info md ctx' : keeps (in_state w P) (outside (client_Get client ctx' info md)).
Proof. apply keeps_outside. intros w0 st o w' [<- HP] E. split; [by eapply get_reads|done]. Qed.
Lemma keeps_spec w P ctx' : keeps (in_state w P) (outside (client_GetOpenAPISpec client ctx')).
Proof. apply keeps_outside. intros w0 st o w' [<- HP] E. split; [by eapply openapi_reads|done]. Qed.
Lemma keeps_fetch w P resolve ctx' info md : (forall cp md', keeps (in_state w P) (listRemoteResources resolve ctx' client cp md')) ->
  keeps (in_state w P) (fetchRemoteValue order r resolve fuel ctx' info md).
Proof.
  intros Hlist. apply (fetchRemoteValue_closed order r (fun A => keeps (A := A) (in_state w P)) resolve ctx' client); try done.
  - intros. apply keeps_get.
  - apply keeps_spec.
  - unfold fetchRemoteMetadataPathFallbackValue.
    apply (fallback_rounds_closed order r (fun A => keeps (A := A) (in_state w P)) resolve ctx' client); try done.
    intros. apply keeps_get.
Qed.
Abbreviation unchanged w := (in_state w (fun _ => True)).
Lemma keeps_list w resolve ctx' cp md : (forall c p, keeps (unchanged w) (resolve c p)) ->
  keeps (unchanged w) (client_List client ctx' (ResolveListJQResource ctx' resolve) cp md).
Proof.
  intros Hresolve. apply (list_reads _ _ Hsteady). intros p. unfold ResolveListJQResource. destruct (resolver_installed ctx'); cbn [negb]; [|apply keeps_ret].
  apply keeps_bind; [apply keeps_of_result|]. intros q [w0 st] o [w' st'] [Hw _]. unfold resolve_normalized.
  destruct (cache st !! q); [intros [= <- <- <-]; by split|]. case_bool_decide; [intros [= <- <- <-]; by split|].
  destruct (resolve ctx' q _) as [[o' [w1 st1]]|] eqn:E; [|done].
  destruct (Hresolve ctx' q (w0, stateMarkInFlight st q) o' (w1, st1) (conj Hw I) E) as [Hw1 _].
  destruct o'; intros [= <- <- <-]; by split.
Qed.
Lemma keeps_list_installed w resolve ctx' cp md : resolver_installed ctx' = true -> (forall c p, keeps (unchanged w) (resolve c p)) ->
  keeps (unchanged w) (listRemoteResources resolve ctx' client cp md).
Proof. intros Hc Hresolve. unfold listRemoteResources, WithListJQResourceResolver. rewrite Hc. by apply keeps_list. Qed.
Lemma keeps_list_fresh w P resolve ctx' cp md : resolver_installed ctx' = false -> (forall c p, keeps (unchanged w) (resolve c p)) ->
  keeps (in_state w P) (listRemoteResources resolve ctx' client cp md).
Proof.
  intros Hc Hresolve. unfold listRemoteResources, WithListJQResourceResolver. rewrite Hc. intros [w0 st] o [w' st'] [Hw HP].
  destruct (client_List client _ _ _ _ _) as [[o' [w1 st1]]|] eqn:El; [|done]. intros [= <- <- <-].
  destruct (keeps_list w _ _ _ _ Hresolve (w0, fresh_resolver) _ _ (conj Hw I) El) as [Hw1 _]. by split.
Qed.
Lemma keeps_resolver w d c p : keeps (unchanged w) (resolveListJQResource order r fuel d c p).
Proof.
  revert c p. induction d as [|d IH]; intros c p; cbn [resolveListJQResource]; [done|].
  apply keeps_bind; [|intros; apply keeps_ret]. unfold GetRemote. apply keeps_bind.
  - apply (buildResourceInfoForRemoteRead_closed order r (fun A => keeps (A := A) (unchanged w))).
  - intros [info md]. apply keeps_fetch. intros cp md'. destruct (resolver_installed c) eqn:Hc; [by apply keeps_list_installed|by apply keeps_list_fresh].
Qed.
(** A read with a context of its own leaves the whole state as it was. *)
Lemma fetch_unchanged info md s o s' : resolver_installed ctx = false ->
  fetchRemoteValue order r (resolveListJQResource order r fuel depth) fuel ctx info md s = Some (o, s') -> s' = s.
Proof.
  intros Hc Hrun. destruct s as [w st], s' as [w' st'].
  assert (keeps (in_state w (fun x => x = st)) (fetchRemoteValue order r (resolveListJQResource order r fuel depth) fuel ctx info md)) as Hk.
  { apply keeps_fetch. intros cp md'. apply keeps_list_fresh; [done|]. intros. apply keeps_resolver. }
  destruct (Hk (w, st) o (w', st') (conj eq_refl eq_refl) Hrun) as [Hw Hst]. cbn in Hw, Hst. by subst.
Qed.

(** ** What an application finds the second time *)
Lemma fetch_direct info md s c : resolver_installed ctx = false -> shouldCheckRemoteIdentityAmbiguity info md = false ->
  client_Get client ctx info md s.1 = Some (Ok c, s.1) ->
  fetchRemoteValue order r (resolveListJQResource order r fuel depth) fuel ctx info md s = Some (Ok c, s).
Proof.
  intros Hc Hshould Hget. destruct s as [w st]. cbn in Hget. unfold fetchRemoteValue, requireServer. rewrite Hserver. erewrite bind_run by done.
  assert (catch (outside (client_Get client ctx info md)) (w, st) = Some (Ok (Ok c), (w, st))) as E by (unfold catch, outside; by rewrite Hget).
  erewrite bind_run by exact E. cbv beta iota. unfold detectRemoteIdentityAmbiguityAfterDirectGet. rewrite Hshould. by erewrite bind_run.
Qed.
(** A payload compares equal to itself, whatever its descriptor. *)
Lemma compare_self res md spec ty y d : ValidateConcreteResourceFormat (compared_payload_type res md (contentFromResource res)) = Ok ty ->
  IsStructuredPayloadType ty = true -> applyCompareTransforms (Payload res) spec = Ok y -> normal y ->
  compare_payloads res md spec (contentFromResource res) {| content_Value := Payload res; content_Descriptor := d |} = Ok (y, y) /\ deep_equal y y = true.
Proof.
  intros Hty Hs Hy Hn. unfold compare_payloads. rewrite Hty. cbn [mbind result_bind]. rewrite Hs. cbn [negb contentFromResource content_Value].
  rewrite Hy. cbn [mbind result_bind]. split; [done|]. by apply deep_equal_refl.
Qed.
Lemma compared_normalizes v spec y : applyCompareTransforms v spec = Ok y -> exists x, Normalize v = Ok x.
Proof. unfold applyCompareTransforms. destruct (_ =? _)%nat; [eauto|]. intros (x & Hx & _)%bind_Ok. eauto. Qed.

(** What a change leaves: the local side as it was, and the payload where a read finds it. *)
Definition desired (info : Resource) (md : ResourceMetadata) (w : W) : Prop :=
  forall info', LogicalPath info' = LogicalPath info ->
    exists d, client_Get client ctx info' md w = Some (Ok {| content_Value := Payload info; content_Descriptor := d |}, w).
Lemma mutation_desired o info md s v s' : o = OperationCreate \/ o = OperationUpdate -> executeRemoteMutation r ctx info md o s = Some (v, s') ->
  same_local r s.1 s'.1 /\ s'.2 = s.2 /\ (forall item, v = Ok item -> desired info md s'.1).
Proof.
  intros Ho. unfold executeRemoteMutation, requireServer. rewrite Hserver. erewrite bind_run by done. destruct s as [w st].
  assert (forall call : action W Content, (forall o w', call w = Some (o, w') -> same_local r w w') ->
    (forall v w', call w = Some (Ok v, w') -> desired info md w') -> forall s',
    (remotePayload ← outside call;
     let '(payload, descriptor) := if negb (is_nil (content_Value remotePayload)) then (content_Value remotePayload, content_Descriptor remotePayload)
                                   else (Payload info, Res_PayloadDescriptor info) in
     normalizedPayload ← of_result (Normalize payload); mret (with_payload info normalizedPayload descriptor)) (w, st) = Some (v, s') ->
    same_local r w s'.1 /\ s'.2 = st /\ (forall item, v = Ok item -> desired info md s'.1)) as Hcall.
  { intros call Hlocal Hstored s1. unfold mbind at 1, action_bind, outside. destruct (call w) as [[[c|e] w']|] eqn:E; [| |done].
    - destruct (if negb (is_nil (content_Value c)) then _ else _) as [payload descriptor]. unfold mbind, action_bind, of_result, of_outcome.
      destruct (Normalize payload); intros [= <- <-]; cbn; eauto.
    - intros [= <- <-]. cbn. split_and!; [by eapply Hlocal|done|done]. }
  destruct Ho as [-> | ->]; apply Hcall; intros;
    [by eapply create_local|intros ??; by eapply create_stored|by eapply update_local|intros ??; by eapply update_stored].
Qed.
Lemma desired_with_payload info info' md w : LogicalPath info' = LogicalPath info -> Payload info' = Payload info -> desired info' md w -> desired info md w.
Proof. intros Hp Hv Hd i Hi. rewrite <-Hv. apply Hd. by rewrite Hp. Qed.

Lemma render_run res md o s spec : rendered_at order r s.1 ctx res md o (Payload res) = Ok spec ->
  renderOperationSpec order r ctx res md o (content_Value (contentFromResource res)) s = Some (Ok spec, s).
Proof. intros Hspec. rewrite (render_reads order r ctx res md o _ s). cbn [content_Value contentFromResource]. by rewrite Hspec. Qed.

(** The second application, of a desired state. *)
Lemma apply_desired p content policy s res md spec ty y rid :
  resolver_installed ctx = false -> Conflict_checker policy = None -> Force policy = false ->
  prepared_at sprintf r s.1 p content = Ok (res, md) -> rendered_at order r s.1 ctx res md OperationCompare (Payload res) = Ok spec ->
  ValidateConcreteResourceFormat (compared_payload_type res md (contentFromResource res)) = Ok ty -> IsStructuredPayloadType ty = true ->
  applyCompareTransforms (Payload res) spec = Ok y -> normal y -> resolvedRemoteIDFromPayload md (Payload res) = Ok rid ->
  shouldCheckRemoteIdentityAmbiguity res md = false -> desired res md s.1 ->
  exists out d, applyDesiredState sprintf order r fuel depth ctx p content policy s = Some (Ok out, s) /\
    fetchRemoteValue order r (resolveListJQResource order r fuel depth) fuel ctx res md s =
    Some (Ok {| content_Value := Payload res; content_Descriptor := d |}, s).
Proof.
  intros Hc Hpolicy Hforce Hprep Hspec Hty Hs Hy Hn Hrid Hshould Hd. destruct (Hd res eq_refl) as (d & Hget).
  pose proof (fetch_direct res md s _ Hc Hshould Hget) as Hfetch. destruct (compare_self res md spec ty y d Hty Hs Hy Hn) as [Hcmp Heq].
  destruct (compared_normalizes _ _ _ Hy) as (x & Hx).
  assert (resolveComparedPayloads order r ctx res md (contentFromResource res) {| content_Value := Payload res; content_Descriptor := d |} s = Some (Ok (y, y), s)) as Hcompared.
  { unfold resolveComparedPayloads. erewrite bind_run by by apply render_run. by rewrite Hcmp. }
  eexists _, d. split; [|exact Hfetch]. unfold applyDesiredState.
  erewrite bind_run by (rewrite (prepare_reads sprintf r p content s), Hprep; done). cbv beta iota.
  unfold mutation_vetoed. rewrite Hpolicy. erewrite bind_run by done. cbv beta iota.
  assert (catch (fetchRemoteValue order r (resolveListJQResource order r fuel depth) fuel ctx res md) s
    = Some (Ok (Ok {| content_Value := Payload res; content_Descriptor := d |}), s)) as E by (unfold catch; by rewrite Hfetch).
  erewrite bind_run by exact E. cbv beta iota. erewrite bind_run by exact Hcompared. cbv beta iota. cbn [content_Value content_Descriptor].
  erewrite bind_run by by rewrite Hrid. cbv beta iota zeta. rewrite Heq, Hforce. cbn [andb negb content_Value].
  by erewrite bind_run by (rewrite Hx; done).
Qed.

(** The first application, that leaves the desired state or finds it. *)
Lemma apply_leaves p content policy s out s1 res md spec :
  resolver_installed ctx = false -> Conflict_checker policy = None -> Force policy = false ->
  prepared_at sprintf r s.1 p content = Ok (res, md) -> rendered_at order r s.1 ctx res md OperationCompare (Payload res) = Ok spec ->
  applyDesiredState sprintf order r fuel depth ctx p content policy s = Some (Ok out, s1) ->
  (s1 = s /\ exists c a b, fetchRemoteValue order r (resolveListJQResource order r fuel depth) fuel ctx res md s = Some (Ok c, s) /\
     compare_payloads res md spec (contentFromResource res) c = Ok (a, b) /\ deep_equal a b = true) \/
  (same_local r s.1 s1.1 /\ desired res md s1.1).
Proof.
  intros Hc Hpolicy Hforce Hprep Hspec. unfold applyDesiredState.
  erewrite bind_run by (rewrite (prepare_reads sprintf r p content s), Hprep; done). cbv beta iota.
  unfold mutation_vetoed. rewrite Hpolicy. erewrite bind_run by done. cbv beta iota.
  intros (fetched & s' & Hcatch & Hrest)%bind_inv.
  unfold catch in Hcatch. destruct (fetchRemoteValue _ _ _ _ _ _ _ s) as [[[c|[e|]] s2]|] eqn:Hfetch; [| |done..]; injection Hcatch as <- <-;
    pose proof (fetch_unchanged _ _ _ _ _ Hc Hfetch) as ->.
  - apply bind_inv in Hrest as ([a b] & s3 & Hcmp & Hrest). unfold resolveComparedPayloads in Hcmp.
    erewrite bind_run in Hcmp by by apply render_run.
    apply of_result_inv in Hcmp as [Hcmp ->]. apply bind_inv in Hrest as (rid & s3 & Hrid & Hrest).
    injection Hrid as Hrid ->. destruct (deep_equal a b) eqn:Heq; cbn [andb negb] in Hrest; rewrite ?Hforce in Hrest; cbn [negb] in Hrest.
    + apply bind_inv in Hrest as (x & s4 & [_ ->]%of_result_inv & [= _ <-]). left. split; [done|]. by exists c, a, b.
    + right. apply mutation_desired in Hrest as (Hl & _ & Hd); [|by right]. split; [done|].
      eapply desired_with_payload, Hd; [by destruct rid..|done].
  - destruct (negb (is_category e NotFoundError)); [done|]. right.
    apply bind_inv in Hrest as (created & s3 & Hcreated & Hrest). unfold catch in Hcreated.
    destruct (executeRemoteMutation r ctx res md OperationCreate s) as [[o s4]|] eqn:Hm; [|done].
    apply mutation_desired in Hm as (Hl & _ & Hd); [|by left]. destruct o as [item|[e'|]]; [| |done]; injection Hcreated as <- <-.
    + injection Hrest as _ <-. split; [done|by eapply Hd].
    + destruct (is_category e' ConflictError); [|done]. apply mutation_desired in Hrest as (Hl' & _ & Hd'); [|by right].
      split; [by eapply same_local_trans|by eapply Hd'].
Qed.
End converge.

(** [C1] One application is enough: after [applyDesiredState] of a payload has returned a
    resource, on a service whose reads change nothing and that answers with the payload it was
    last sent for a path, reading the service gives a content that the comparison of the
    metadata takes for the desired one, and applying the same payload again returns a resource
    and leaves everything as it is, however the first application went: whether it found the
    resource equal, updated it, created it, or updated it after a conflicting creation. The
    policy neither forces nor vetoes, the payload is structured, its compare transforms apply
    to it, and its remote id is its alias or has no template. *)
Theorem apply_settles `{by_path : ResourceSort, UnicodeTables, TextCodecs, TemplateEngine, JqEngine} (sprintf : string -> string -> string)
  (order : map_order) {W : Type} (r : Orchestrator W) client fuel depth ctx p content policy s out s1 res md spec ty y rid :
  server r = Some client -> steady_service r client -> resolver_installed ctx = false -> Conflict_checker policy = None -> Force policy = false ->
  prepared_at sprintf r s.1 p content = Ok (res, md) -> rendered_at order r s.1 ctx res md OperationCompare (Payload res) = Ok spec ->
  ValidateConcreteResourceFormat (compared_payload_type res md (contentFromResource res)) = Ok ty -> IsStructuredPayloadType ty = true ->
  applyCompareTransforms (Payload res) spec = Ok y -> normal y -> resolvedRemoteIDFromPayload md (Payload res) = Ok rid ->
  shouldCheckRemoteIdentityAmbiguity res md = false ->
  applyDesiredState sprintf order r fuel depth ctx p content policy s = Some (Ok out, s1) ->
  exists out' found a b, applyDesiredState sprintf order r fuel depth ctx p content policy s1 = Some (Ok out', s1) /\
    fetchRemoteValue order r (resolveListJQResource order r fuel depth) fuel ctx res md s1 = Some (Ok found, s1) /\
    compare_payloads res md spec (contentFromResource res) found = Ok (a, b) /\ deep_equal a b = true.
Proof.
  intros Hr Hsteady Hc Hpolicy Hforce Hprep Hspec Hty Hs Hy Hn Hrid Hshould Hrun.
  destruct (apply_leaves sprintf order r fuel depth ctx client Hr Hsteady p content policy s out s1 res md spec) as [(-> & c & a & b & Hf & Hcmp & Heq)|[Hl Hd]]; try done.
  - exists out, c, a, b. done.
  - rewrite (same_prepared sprintf r _ _ p content Hl) in Hprep. rewrite (same_rendered order r ctx _ _ res md _ _ Hl) in Hspec.
    destruct (apply_desired sprintf order r fuel depth ctx client Hr p content policy s1 res md spec ty y rid) as (out' & d & Hrun' & Hf); try done.
    destruct (compare_self res md spec ty y d Hty Hs Hy Hn) as [Hcmp Heq]. by eexists _, _, y, y.
Qed.

(** ** A service in memory
    It stores what it is sent, and refuses to create a resource that it has. *)
#[local] Instance identity_jq : JqEngine := {| jq_run := fun _ v => Ok [Ok v] |}.
#[local] Existing Instances stable_sort latin1_tables line_codecs pointer_engine.
Abbreviation stored_resources := (gmap string value).
Definition keep_payload (info : Resource) (w : stored_resources) : option (outcome Content * stored_resources) :=
  Some (Ok (contentFromResource info), <[LogicalPath info := Payload info]> w).
Definition storing_service : ManagedServiceClient stored_resources := {|
  client_Get := fun _ info _ w => Some (match w !! LogicalPath info with
                                        | Some v => Ok {| content_Value := v; content_Descriptor := empty_descriptor |}
                                        | None => Err (Failed (NotFound "no such resource" None))
                                        end, w);
  client_Create := fun _ info _ w => match w !! LogicalPath info with
                                     | Some _ => Some (Err (Failed (Conflict "exists" None)), w)
                                     | None => keep_payload info w
                                     end;
  client_Update := fun _ info _ w => keep_payload info w;
  client_Delete := fun _ info _ w => Some (Ok tt, delete (LogicalPath info) w);
  client_List := fun _ _ _ _ => mret [];
  client_Request := fun _ _ => fail (errorf "not allowed");
  client_GetOpenAPISpec := fun _ => fail (errorf "no description");
|}.
Definition realm_metadata : ResourceMetadata :=
  {| Selector := None; ID := "{{/id}}"; Alias := ""; RequiredAttributes := None; RemoteCollectionPath := ""; Format := "";
     Defaults := None; Secret := None; SecretAttributes := None; ExternalizedAttributes := None; Operations := None; Transforms := None |}.
Definition realms_orchestrator : Orchestrator stored_resources :=
  {| repository := None; metadata_service := Some {| service_ResolveForPath := fun _ _ => Ok realm_metadata; service_renderer := None |};
     server := Some storing_service; secrets := None |}.
Lemma storing_service_steady : steady_service realms_orchestrator storing_service.
Proof.
  split.
  - by intros ctx info md w o w' [= _ <-].
  - by intros ctx w o w' [= _ <-].
  - intros w ctx jq cp md _. apply keeps_ret.
  - by split.
  - by split.
  - intros ctx info md w v w' info'. cbn. destruct (w !! LogicalPath info); [done|]. intros [= _ <-] ->. exists empty_descriptor. cbn. by rewrite lookup_insert_eq.
  - intros ctx info md w v w' info'. cbn. intros [= _ <-] ->. exists empty_descriptor. cbn. by rewrite lookup_insert_eq.
Qed.
Definition realm (enabled : bool) : value := VMap {[ "id" := VString "master"; "enabled" := VBool enabled ]}.
Definition plain_policy : ApplyPolicy (W := stored_resources) := {| Force := false; Conflict_checker := None |}.
Definition wanted_realm : Content := {| content_Value := realm true; content_Descriptor := empty_descriptor |}.
Definition sent_realm : Resource := resource_info "/realms/master" "master" "master" (realm true) empty_descriptor.
Definition realm_spec : OperationSpec :=
  match rendered_at key_order realms_orchestrator ∅ background sent_realm realm_metadata OperationCompare (realm true) with Ok spec => spec | Err _ => empty_operation end.
Abbreviation apply_realm := (applyDesiredState percent_s key_order realms_orchestrator 3 1 background "/realms/master" wanted_realm plain_policy).
Lemma apply_settles_witness :
  apply_realm ({[ "/realms/master" := realm false ]}, fresh_resolver) = Some (Ok sent_realm, ({[ "/realms/master" := realm true ]}, fresh_resolver)) /\
  exists out' found a b, apply_realm ({[ "/realms/master" := realm true ]}, fresh_resolver) = Some (Ok out', ({[ "/realms/master" := realm true ]}, fresh_resolver)) /\
    fetchRemoteValue key_order realms_orchestrator (resolveListJQResource key_order realms_orchestrator 3 1) 3 background sent_realm realm_metadata
      ({[ "/realms/master" := realm true ]}, fresh_resolver) = Some (Ok found, ({[ "/realms/master" := realm true ]}, fresh_resolver)) /\
    compare_payloads sent_realm realm_metadata realm_spec (contentFromResource sent_realm) found = Ok (a, b) /\ deep_equal a b = true.
Proof.
  assert (apply_realm ({[ "/realms/master" := realm false ]}, fresh_resolver) = Some (Ok sent_realm, ({[ "/realms/master" := realm true ]}, fresh_resolver)))
    as Hrun by (vm_compute; reflexivity).
  split; [exact Hrun|].
  apply (apply_settles percent_s key_order realms_orchestrator storing_service 3 1 background "/realms/master" wanted_realm plain_policy
    ({[ "/realms/master" := realm false ]}, fresh_resolver) sent_realm ({[ "/realms/master" := realm true ]}, fresh_resolver)
    sent_realm realm_metadata realm_spec "json" (realm true) (Some "master")).
  - reflexivity.
  - exact storing_service_steady.
  - reflexivity.
  - reflexivity.
  - reflexivity.
  - vm_compute. reflexivity.
  - vm_compute. reflexivity.
  - vm_compute. reflexivity.
  - vm_compute. reflexivity.
  - vm_compute. reflexivity.
  - apply normalb_normal. vm_compute. reflexivity.
  - vm_compute. reflexivity.
  - vm_compute. reflexivity.
  - exact Hrun.
Defined.
