(* ===== verification/FallbackTermination.v ===== *)
(** * Reads of the managed service end

    The fallback over other paths of a resource ([fetchRemoteMetadataPathFallbackValue] of
    [src/internal/orchestrator/path_resolution.go]) visits every path once, and a
    [resource()] call of a list expression cannot enter a path in flight
    ([src/managedservice/list_jq_resource_resolver.go]). When the identities a service lists
    are finitely many, both bound the read. *)
From S2P Require Import Prelude GoText GoTextFacts Faults Paths Value Descriptor Codec Metadata MetaWire TemplateSyntax OperationSpec Identity FsRender RuntimeMetadata Diff Services ActionFacts Orchestrator OrchestratorFacts.

(** ** Plain paths
    A segment that a path shows as it is: no separator, no template, no outer space, not
    the reserved one. *)
Definition plain_segment (s : string) : Prop :=
  clean_segment s /\ s <> "_" /\ no_sep "{" s /\ trimmed s.
Definition plain_path (p : string) : Prop := exists l, Forall plain_segment l /\ p = path_of l.

Lemma plain_clean l : Forall plain_segment l -> Forall clean_segment l.
Proof. intros Hl. eapply Forall_impl; [done|]. by intros s [? _]. Qed.

Lemma split_raw_segment s : forall cur t, contains_byte is_slash s = false -> no_sep "{" s ->
  split_raw_go 0 cur (s +:+ t) = split_raw_go 0 (String.rev s +:+ cur) t.
Proof.
  induction s as [|c s IH]; intros cur t Hs Hb; [done|]. apply no_sep_cons in Hb as [Hc Hb].
  cbn [contains_byte] in Hs. apply orb_false_iff in Hs as [Hslash Hs]. unfold is_slash in Hslash.
  assert (split_raw_go 0 (String c cur) (s +:+ t) = split_raw_go 0 (String.rev (String c s) +:+ cur) t) as E.
  { rewrite IH by done. rewrite str_rev_cons. by rewrite str_app_assoc. }
  rewrite <-E, app_cons. destruct (s +:+ t) as [|d u].
  - cbn [split_raw_go]. apply bool_decide_eq_false in Hslash. by rewrite (bool_decide_false (c = slash)).
  - cbn [split_raw_go]. unfold template_open. apply bool_decide_eq_false in Hslash.
    rewrite (bool_decide_false (c = "{"%char)) by done. cbn [andb]. rewrite andb_false_r.
    by rewrite (bool_decide_false (c = slash)).
Qed.
Lemma split_raw_slash cur t : split_raw_go 0 cur (String slash t) = String.rev cur :: split_raw_go 0 "" t.
Proof. destruct t; done. Qed.
Lemma split_raw_join l : Forall plain_segment l -> forall s, plain_segment s -> split_raw_go 0 "" (str_join "/" (s :: l)) = s :: l.
Proof.
  induction 1 as [|u l Hu Hl IH]; intros s Hs; pose proof Hs as ((Hne & _ & _ & Hslash & _) & _ & Hb & _).
  - cbn [str_join]. rewrite <-(app_empty_r s) at 1. rewrite split_raw_segment by done. cbn [split_raw_go].
    rewrite app_empty_r, decide_False by (rewrite str_rev_empty; done). by rewrite str_rev_involutive.
  - rewrite str_join_cons2, split_raw_segment by done. change ("/" +:+ ?t) with (String slash t).
    rewrite split_raw_slash, app_empty_r, str_rev_involutive. by rewrite IH.
Qed.
Lemma plain_path_trimmed l : Forall plain_segment l -> trimmed (path_of l).
Proof.
  intros Hl. destruct (decide (l = [])) as [->|Hne]; [by vm_compute|].
  destruct (exists_last Hne) as (k & s & ->). apply Forall_app in Hl as [_ Hs]. rewrite Forall_singleton in Hs.
  apply path_of_trimmed; [apply Hs|]. apply Hs.
Qed.
Lemma SplitRaw_plain l : Forall plain_segment l -> SplitRawPathSegments (path_of l) = l.
Proof.
  intros Hl. unfold SplitRawPathSegments. rewrite trim_space_id by by apply plain_path_trimmed.
  destruct l as [|s l]; [done|]. pose proof (plain_clean _ Hl) as Hc. unfold path_of.
  rewrite trim_slashes_join; [|done|by apply clean_segments_nonempty|by apply clean_segments_no_sep].
  rewrite decide_False.
  - by apply split_raw_join; inversion Hl.
  - intros E. apply str_join_empty_iff in E; [done|by apply clean_segments_nonempty].
Qed.
Lemma Normalize_plain l : Forall plain_segment l -> NormalizeLogicalPath (path_of l) = Ok (path_of l).
Proof.
  intros Hl. apply NormalizeLogicalPath_Ok. split; [by apply CleanRawPath_path_of, plain_clean|].
  rewrite SplitRaw_plain by done. apply not_true_iff_false. intros (s & Hs & E%bool_decide_eq_true)%existsb_exists.
  subst. rewrite Forall_forall in Hl. destruct (Hl "_") as (_ & ? & _); [by apply list_elem_of_In|done].
Qed.

(** ** Words over an alphabet *)
Fixpoint words (A : list string) (n : nat) : list (list string) :=
  match n with 0%nat => [[]] | S n => a ← A; (a ::.) <$> words A n end.
Lemma elem_of_words A n l : l ∈ words A n <-> length l = n /\ Forall (.∈ A) l.
Proof.
  revert l. induction n as [|n IH]; intros l; cbn [words].
  - rewrite list_elem_of_singleton. split; [by intros ->|]. intros [Hl _]. by destruct l.
  - rewrite list_elem_of_bind. setoid_rewrite list_elem_of_fmap. split.
    + intros (a & (k & -> & Hk) & Ha). apply IH in Hk as [<- Hk]. split; [done|by constructor].
    + intros [Hl Hf]. destruct l as [|a l]; [done|]. inversion Hf; subst. exists a. split; [|done].
      exists l. split; [done|]. apply IH. split; [by injection Hl|done].
Qed.
Lemma length_words A n : length (words A n) = (length A ^ n)%nat.
Proof.
  induction n as [|n IH]; [done|]. cbn [words Nat.pow]. rewrite <-IH. generalize (words A n). intros w. clear IH.
  induction A as [|a A IHA]; [done|]. cbn [mbind list_bind]. rewrite length_app, length_fmap, IHA. done.
Qed.
Definition paths_over (A : list string) (n : nat) : gset string := list_to_set (path_of <$> words A n).
Lemma elem_of_paths_over A n p : p ∈ paths_over A n <-> exists l, length l = n /\ Forall (.∈ A) l /\ p = path_of l.
Proof.
  unfold paths_over. rewrite elem_of_list_to_set, list_elem_of_fmap. setoid_rewrite elem_of_words. naive_solver.
Qed.
Lemma size_paths_over A n : (size (paths_over A n) <= length A ^ n)%nat.
Proof.
  rewrite <-length_words. unfold paths_over. rewrite <-(length_fmap path_of).
  generalize (path_of <$> words A n). intros l. induction l as [|x l IH]; cbn [list_to_set].
  - by rewrite size_empty.
  - pose proof (size_union_alt {[ x ]} (list_to_set l : gset string)). pose proof (subseteq_size (list_to_set l ∖ {[ x ]}) (list_to_set l : gset string)).
    rewrite size_singleton in H. cbn. specialize (H0 ltac:(set_solver)). lia.
Qed.

Section reads.
Context `{by_path : ResourceSort, UnicodeTables, TemplateEngine}.
Context (order : map_order) {W : Type} (r : Orchestrator W).

(** ** The rounds of the fallback
    A round takes one path from the queue, so the paths not yet visited and those in the
    queue lose one. *)
Lemma enqueue_spec paths : forall visited queue (P : gset string),
  visited ⊆ P -> (forall q, q ∈ paths -> q ∈ P) ->
  let '(visited', queue') := foldl enqueue (visited, queue) paths in
  visited' ⊆ P /\ (size P - size visited' + length queue' <= size P - size visited + length queue)%nat /\
  (forall q, q ∈ queue' -> q ∈ queue \/ q ∈ paths).
Proof.
  induction paths as [|x paths IH]; intros visited queue P Hv Hp; cbn [foldl]; [naive_solver|].
  unfold enqueue at 2. cbn [fst snd]. destruct (bool_decide_reflect (x ∈ visited)) as [Hin|Hin].
  - specialize (IH visited queue P Hv). destruct (foldl enqueue (visited, queue) paths) as [visited' queue'].
    destruct IH as (? & ? & Hq); [intros; apply Hp; by right|]. split_and!; [done..|]. intros q [|]%Hq; [by left|right; by right].
  - assert ({[ x ]} ∪ visited ⊆ P) as Hv'. { apply union_subseteq. split; [|done]. apply singleton_subseteq_l, Hp. by left. }
    specialize (IH ({[ x ]} ∪ visited) (queue ++ [x]) P Hv').
    destruct (foldl enqueue ({[ x ]} ∪ visited, queue ++ [x]) paths) as [visited' queue'].
    destruct IH as (? & Hn & Hq); [intros; apply Hp; by right|]. split_and!; [done| |].
    + assert (size ({[ x ]} ∪ visited) = S (size visited)) as Hs by (rewrite size_union, size_singleton by set_solver; done).
      pose proof (subseteq_size _ _ Hv'). rewrite Hs, length_app in *. cbn in Hn. lia.
    + intros q [[|Hx%list_elem_of_singleton]%elem_of_app|]%Hq; [by left|subst; right; by left|right; by right].
Qed.

Context (resolve : context -> string -> action (world W) value) (ctx : context) (I : world W -> Prop).
Context (serverManager : ManagedServiceClient W).

Lemma fallback_rounds_end (P : gset string) start :
  (forall p, p ∈ P -> returns I (visit_fallback_path order r resolve ctx serverManager start p)
                        (fun a => match a with inl _ => True | inr paths => forall q, q ∈ paths -> q ∈ P end)) ->
  forall fuel visited queue, visited ⊆ P -> (forall q, q ∈ queue -> q ∈ P) -> (size P - size visited + length queue <= fuel)%nat ->
  ends I (fallback_rounds order r resolve ctx fuel serverManager start visited queue).
Proof.
  intros Hvisit. induction fuel as [|fuel IH]; intros visited [|p queue] Hv Hq Hf; cbn [fallback_rounds]; try apply ends_ret; cbn in Hf; [lia|].
  eapply returns_bind; [apply Hvisit, Hq; by left|]. intros [v|paths] Ha; [apply ends_ret|].
  pose proof (enqueue_spec paths visited queue P Hv Ha) as He. destruct (foldl enqueue (visited, queue) paths) as [visited' queue'].
  destruct He as (Hv' & Hn & Hq'). apply IH; [done| |lia].
  intros q [|]%Hq'; [apply Hq; by right|by apply Ha].
Qed.

(** ** One round *)
Lemma buildResourceInfoForRemoteRead_path p : returns I (buildResourceInfoForRemoteRead order r p)
  (fun info => NormalizeLogicalPath p = Ok (LogicalPath info.1)).
Proof.
  unfold buildResourceInfoForRemoteRead. apply returns_result_bind. intros q Hq.
  eapply returns_bind; [by apply (resolveMetadataForPath_closed r (fun B => ends (A := B) I))|]. intros md _.
  apply returns_result_bind. intros payload _. apply returns_result_bind. intros v _. by apply returns_ret.
Qed.
Lemma buildResourceInfoForRemoteRead_ends p : ends I (buildResourceInfoForRemoteRead order r p).
Proof. eapply returns_ends, buildResourceInfoForRemoteRead_path. Qed.

(** The identities the listed resources have, blank ones aside. *)
Definition identified_by (A : list string) (items : list Resource) : Prop :=
  forall c, c ∈ items -> fallbackSegmentValue c = "" \/ fallbackSegmentValue c ∈ A.
Context (A : list string) (Hplain : Forall plain_segment A).
Context (get_ends : forall info md, ends I (outside (client_Get serverManager ctx info md))).
Context (list_returns : forall cp md, returns I (listRemoteResources resolve ctx serverManager cp md) (identified_by A)).

Lemma replaced_path l i v q : Forall plain_segment l -> v = "" \/ v ∈ A -> replaceLogicalPathSegment l i v = Ok (Some q) ->
  exists l', q = path_of l' /\ length l' = length l /\ Forall (.∈ A ++ l) l'.
Proof.
  intros Hl Hv. unfold replaceLogicalPathSegment. destruct Hv as [->|Hv]; [done|].
  assert (plain_segment v) as Hpv by exact (proj1 (Forall_forall _ _) Hplain v Hv). rewrite (trim_space_id v) by apply Hpv.
  case_match; [done|]. change ("/" +:+ str_join "/" (<[i:=v]> l)) with (path_of (<[i:=v]> l)).
  rewrite Normalize_plain by by apply Forall_insert. intros [= <-]. exists (<[i:=v]> l).
  split_and!; [done|apply length_insert|]. apply Forall_insert; [apply Forall_forall; set_solver|set_solver].
Qed.
Definition step_path (l : list string) (q : string) : Prop := exists l', q = path_of l' /\ length l' = length l /\ Forall (.∈ A ++ l) l'.
Lemma next_fallback_paths_spec l start : Forall plain_segment l -> forall indexes,
  returns I (next_fallback_paths order r resolve ctx serverManager start l indexes) (fun paths => forall q, q ∈ paths -> step_path l q).
Proof.
  intros Hl. induction indexes as [|i indexes IH]; cbn [next_fallback_paths]; [apply returns_ret; set_solver|].
  eapply returns_bind; [apply buildResourceInfoForRemoteRead_ends|]. intros [info md] _. cbn [fst snd].
  destruct (negb _); [apply IH|].
  eapply returns_bind; [apply returns_catch, list_returns|]. intros [candidates|err] Hc; [|destruct (is_category _ _); [apply returns_fail|apply IH]].
  assert (forall c, c ∈ candidates -> returns I
    (nextPath ← of_result (replaceLogicalPathSegment l i (fallbackSegmentValue c));
     match nextPath with
     | Some nextPath => mret [nextPath]
     | None => next_fallback_paths order r resolve ctx serverManager start l indexes
     end) (fun paths => forall q, q ∈ paths -> step_path l q)) as Hrep.
  { intros c Hin. apply returns_result_bind. intros [q|] Hq; [|apply IH]. apply returns_ret. intros q' ->%list_elem_of_singleton.
    eapply replaced_path; [done|by apply Hc|done]. }
  destruct (filter _ candidates) as [|m [|? ?]] eqn:Ef.
  - destruct candidates as [|c cs]; [apply IH|]. destruct (allowsSingletonListIdentityFallback _ _ _); [|apply IH]. apply Hrep. by left.
  - apply Hrep. assert (m ∈ filter (fun candidate => matchesFallbackCandidate info candidate = true) candidates) as Hm by (rewrite Ef; by left).
    by apply list_elem_of_filter in Hm as [_ ?].
  - apply returns_fail.
Qed.
Lemma visit_spec l start : Forall plain_segment l ->
  returns I (visit_fallback_path order r resolve ctx serverManager start (path_of l))
    (fun a => match a with inl _ => True | inr paths => forall q, q ∈ paths -> step_path l q end).
Proof.
  intros Hl.
  assert (returns I (nextPaths ← resolveNextRemoteMetadataFallbackPaths order r resolve ctx serverManager (path_of l); mret (inr nextPaths))
    (fun a : option Content + list string => match a with inl _ => True | inr paths => forall q, q ∈ paths -> step_path l q end)) as Hnext.
  { unfold resolveNextRemoteMetadataFallbackPaths. rewrite SplitRaw_plain by done.
    eapply returns_bind; [by apply next_fallback_paths_spec|]. intros paths Hp. by apply returns_ret. }
  unfold visit_fallback_path. destruct (negb _); [|done].
  eapply returns_bind; [apply returns_catch, buildResourceInfoForRemoteRead_ends|].
  intros [[info md]|err] _; [|destruct (is_category _ _); [apply returns_fail|apply returns_ret; set_solver]].
  eapply returns_bind; [apply returns_catch, get_ends|]. intros [v|err] _; [by apply returns_ret|].
  destruct (is_category _ _); [apply returns_fail|done].
Qed.
Lemma metadata_fallback_ends fuel info l : Forall plain_segment l -> LogicalPath info = path_of l -> ((length A + length l) ^ length l <= fuel)%nat ->
  ends I (fetchRemoteMetadataPathFallbackValue order r resolve fuel ctx serverManager info).
Proof.
  intros Hl Hp Hfuel. unfold fetchRemoteMetadataPathFallbackValue. rewrite Hp.
  pose proof (size_paths_over (A ++ l) (length l)) as Hsize. rewrite length_app in Hsize.
  assert (path_of l ∈ paths_over (A ++ l) (length l)) as Hstart.
  { apply elem_of_paths_over. exists l. split_and!; [done| |done]. apply Forall_forall. set_solver. }
  apply (fallback_rounds_end (paths_over (A ++ l) (length l))).
  - intros p (l' & Hlen & Hf & ->)%elem_of_paths_over.
    assert (Forall plain_segment l') as Hl'.
    { eapply Forall_impl; [exact Hf|]. intros s [Hs|Hs]%elem_of_app;
      [exact (proj1 (Forall_forall _ _) Hplain s Hs)|exact (proj1 (Forall_forall _ _) Hl s Hs)]. }
    eapply returns_weaken; [by apply visit_spec|]. intros [v|paths]; [done|]. intros Hq q Hin.
    destruct (Hq q Hin) as (k & -> & Hk & Hfk). apply elem_of_paths_over. exists k. split_and!; [lia| |done].
    eapply Forall_impl; [exact Hfk|]. intros s [Hs|Hs]%elem_of_app; [set_solver|]. exact (proj1 (Forall_forall _ _) Hf s Hs).
  - by apply singleton_subseteq_l.
  - by intros q ->%list_elem_of_singleton.
  - rewrite size_singleton. cbn [length]. assert (1 <= size (paths_over (A ++ l) (length l)))%nat; [|lia].
    assert (size (paths_over (A ++ l) (length l)) <> 0%nat); [|lia]. intros E%size_empty_inv. set_solver.
Qed.

(** ** The whole read *)
Context (spec_ends : ends I (outside (client_GetOpenAPISpec serverManager ctx))).
Lemma fetchRemoteValue_ends fuel info md l : server r = Some serverManager ->
  Forall plain_segment l -> LogicalPath info = path_of l -> ((length A + length l) ^ length l <= fuel)%nat ->
  ends I (fetchRemoteValue order r resolve fuel ctx info md).
Proof.
  intros Hr Hl Hp Hfuel. apply (fetchRemoteValue_closed order r (fun B => ends (A := B) I) resolve ctx serverManager); try done.
  - intros cp md'. eapply returns_ends, list_returns.
  - by eapply metadata_fallback_ends.
Qed.
End reads.

(** ** Nested reads *)
Definition in_flight {W} (F : gset string) : world W -> Prop := fun s => inFlight s.2 = F.
(** A service of finitely many identities: the identities it lists are among [A], and its
    list expressions ask for paths of [Q], of at most [n] segments. Its lists end when the
    reads they ask for do. *)
Record finite_service `{by_path : ResourceSort, UnicodeTables} {W} (client : ManagedServiceClient W) (A : list string) (Q : gset string) (n : nat) : Prop := {
  finite_identities : Forall plain_segment A;
  finite_paths : forall q, q ∈ Q -> exists l, Forall plain_segment l /\ (length l <= n)%nat /\ q = path_of l;
  finite_get : forall ctx info md w, client_Get client ctx info md w <> None;
  finite_openapi : forall ctx w, client_GetOpenAPISpec client ctx w <> None;
  finite_list : forall F ctx jq cp md,
    (forall p, (forall q, NormalizeLogicalPath p = Ok q -> q ∈ Q) -> ends (in_flight F) (jq p)) ->
    returns (in_flight F) (client_List client ctx jq cp md) (identified_by A);
}.

Section nested.
Context `{by_path : ResourceSort, UnicodeTables, TemplateEngine}.
Context (order : map_order) {W : Type} (r : Orchestrator W).
Context (client : ManagedServiceClient W) (A : list string) (Q : gset string) (n : nat).
Context (Hserver : server r = Some client) (Hfinite : finite_service client A Q n) (fuel : nat).
Context (Hfuel : ((length A + n) ^ n <= fuel)%nat).

Lemma outside_ends {B} (F : gset string) (m : action W B) : (forall w, m w <> None) -> ends (in_flight F) (outside m).
Proof.
  intros Hm. apply returns_outside. intros w st HI. destruct (m w) as [[o w']|] eqn:E; [|by apply Hm in E]. by exists o, w'.
Qed.
(** The paths that may still be entered. *)
Definition room (ctx : context) (F : gset string) : nat := if resolver_installed ctx then size (Q ∖ F) else size Q.
Definition resolver_ends (depth : nat) : Prop := forall ctx F q,
  resolver_installed ctx = true -> q ∈ Q -> (size (Q ∖ F) < depth)%nat -> ends (in_flight F) (resolveListJQResource order r fuel depth ctx q).

Lemma resolve_normalized_ends depth ctx F q : resolver_ends depth -> resolver_installed ctx = true -> q ∈ Q -> (size (Q ∖ F) <= depth)%nat ->
  ends (in_flight F) (resolve_normalized ctx (resolveListJQResource order r fuel depth) q).
Proof.
  intros Hd Hctx Hq Hroom [w st] HF. unfold in_flight in HF. cbn [snd] in HF. unfold resolve_normalized.
  destruct (cache st !! q) as [v|]; [by exists (Ok (Some v)), (w, st)|]. rewrite HF. case_bool_decide as Hin; [by eexists _, _|].
  destruct (Hd ctx ({[ q ]} ∪ F) q Hctx Hq) with (s := (w, stateMarkInFlight st q)) as (o & [w' st'] & -> & Hst & _).
  - assert (size (Q ∖ ({[ q ]} ∪ F)) < size (Q ∖ F))%nat; [|lia]. apply subset_size. set_solver.
  - unfold in_flight. cbn. by rewrite HF.
  - unfold in_flight in Hst. cbn [snd] in Hst. assert (({[ q ]} ∪ F) ∖ {[ q ]} = F) as E by set_solver.
    destruct o as [v|e]; eexists _, _; split_and!; try done; unfold in_flight; cbn; by rewrite Hst.
Qed.
Lemma list_returns_nested depth ctx F cp md : resolver_ends depth -> (room ctx F <= depth)%nat ->
  returns (in_flight F) (listRemoteResources (resolveListJQResource order r fuel depth) ctx client cp md) (identified_by A).
Proof.
  intros Hd Hroom.
  assert (forall ctx F, resolver_installed ctx = true -> (size (Q ∖ F) <= depth)%nat ->
    returns (in_flight F) (client_List client ctx (ResolveListJQResource ctx (resolveListJQResource order r fuel depth)) cp md) (identified_by A)) as Hl.
  { intros ctx' F' Hctx Hsz. apply (finite_list _ _ _ _ Hfinite). intros p Hp. unfold ResolveListJQResource. rewrite Hctx. cbn [negb].
    apply returns_result_bind. intros q Hq. by apply resolve_normalized_ends; [..|apply Hp|]. }
  unfold listRemoteResources, WithListJQResourceResolver. unfold room in Hroom. destruct (resolver_installed ctx) eqn:Hctx; [by apply Hl|].
  set (ctx' := {| resolver_installed := true; method_overrides := method_overrides ctx; request_validation := request_validation ctx |}).
  intros [w st] HF. destruct (Hl ctx' ∅) with (s := (w, fresh_resolver)) as (o & [w' st'] & -> & Hst & Hi); [done| |done|].
  - by rewrite difference_empty_L.
  - by exists o, (w', st).
Qed.
Lemma GetRemote_ends depth ctx F p l : resolver_ends depth -> (room ctx F <= depth)%nat ->
  NormalizeLogicalPath p = Ok (path_of l) -> Forall plain_segment l -> (length l <= n)%nat ->
  ends (in_flight F) (GetRemote order r (resolveListJQResource order r fuel depth) fuel ctx p).
Proof.
  intros Hd Hroom Hp Hl Hn. unfold GetRemote. eapply returns_bind; [apply buildResourceInfoForRemoteRead_path|].
  intros [info md] Hpath. cbn [fst] in Hpath. assert (LogicalPath info = path_of l) as Hinfo by congruence.
  apply (fetchRemoteValue_ends order r _ ctx (in_flight F) client A) with (l := l); try done.
  - apply (finite_identities _ _ _ _ Hfinite).
  - intros info' md'. apply outside_ends, (finite_get _ _ _ _ Hfinite).
  - intros cp md'. by apply list_returns_nested.
  - apply outside_ends, (finite_openapi _ _ _ _ Hfinite).
  - etransitivity; [|exact Hfuel]. destruct (decide (length l = 0)%nat) as [->|Hne].
    + cbn. destruct n as [|m]; [done|]. rewrite <-(Nat.pow_1_l (S m)). apply Nat.pow_le_mono_l. lia.
    + etransitivity; [apply Nat.pow_le_mono_l with (b := (length A + n)%nat); lia|]. apply Nat.pow_le_mono_r; lia.
Qed.
Lemma resolver_always_ends depth : resolver_ends depth.
Proof.
  induction depth as [|depth IH]; intros ctx F q Hctx Hq Hsz; [lia|]. cbn [resolveListJQResource].
  destruct (finite_paths _ _ _ _ Hfinite q Hq) as (l & Hl & Hn & ->).
  apply ends_bind; [|intros; apply ends_ret]. eapply GetRemote_ends; [done| |by apply Normalize_plain|done|done].
  unfold room. rewrite Hctx. lia.
Qed.
End nested.

(** [C11] A read of the managed service ends when identities are path segments: when the
    identities the service lists, blank ones aside, are among finitely many [A], each one plain
    segment of a path (without slash, opening brace and outer space, and not [_]), and its list
    expressions name finitely many paths [Q] of at most [n] such segments, and its own calls
    return, [GetRemote] of a path of at most [n] such
    segments gives an answer or an error, with one round for every path that can be written
    with the identities of [A] and the segments of the path asked for, and with as many nested
    [resource()] reads as [Q] has paths: no path is visited twice, and a path in flight is
    refused. A service that lists an identity with a slash is asked for ever longer paths:
    [slash_identity_goes_on]. *)
Theorem remote_read_ends `{by_path : ResourceSort, UnicodeTables, TemplateEngine} (order : map_order)
  {W : Type} (r : Orchestrator W) client A Q n fuel depth ctx p l (w : world W) :
  server r = Some client -> finite_service client A Q n -> resolver_installed ctx = false ->
  NormalizeLogicalPath p = Ok (path_of l) -> Forall plain_segment l -> (length l <= n)%nat ->
  (size Q <= depth)%nat -> ((length A + n) ^ n <= fuel)%nat ->
  exists o w', GetRemote order r (resolveListJQResource order r fuel depth) fuel ctx p w = Some (o, w').
Proof.
  intros Hr Hf Hctx Hp Hl Hn Hd Hfuel. destruct w as [w st].
  destruct (GetRemote_ends order r client A Q n Hr Hf fuel Hfuel depth ctx (inFlight st) p l) with (s := (w, st)) as (o & w' & E & _); try done.
  - by apply resolver_always_ends with (client := client) (A := A) (n := n).
  - unfold room. by rewrite Hctx.
  - by exists o, w'.
Qed.

(** ** A service
    It knows no resource by its path; the list of users asks for the realm, which is being
    read, and names one user. *)
#[local] Existing Instances stable_sort latin1_tables pointer_engine.
Definition listed_user : Resource :=
  {| LogicalPath := "/users/ada"; CollectionPath := "/users"; LocalAlias := "ada"; RemoteID := "42"; ResolvedRemotePath := "";
     Payload := VMap {[ "name" := VString "ada" ]}; Res_PayloadDescriptor := empty_descriptor |}.
Definition users_service : ManagedServiceClient unit := {|
  client_Get := fun _ _ _ w => Some (Err (Failed (NotFound "no such resource" None)), w);
  client_Create := fun _ _ _ => fail (errorf "not allowed");
  client_Update := fun _ _ _ => fail (errorf "not allowed");
  client_Delete := fun _ _ _ => fail (errorf "not allowed");
  client_List := fun _ jq _ _ => _ ← catch (jq "/users"); mret [listed_user];
  client_Request := fun _ _ => fail (errorf "not allowed");
  client_GetOpenAPISpec := fun _ => fail (errorf "no description");
|}.
Definition users_metadata_service : MetadataService unit := {|
  service_ResolveForPath := fun _ _ => Ok {| Selector := None; ID := "{{/id}}"; Alias := "{{/name}}"; RequiredAttributes := None;
    RemoteCollectionPath := ""; Format := ""; Defaults := None; Secret := None; SecretAttributes := None; ExternalizedAttributes := None;
    Operations := None; Transforms := None |};
  service_renderer := None;
|}.
Definition users_orchestrator : Orchestrator unit :=
  {| repository := None; metadata_service := Some users_metadata_service; server := Some users_service; secrets := None |}.
Lemma users_service_finite : finite_service users_service ["42"] {[ "/users" ]} 2.
Proof.
  split.
  - repeat constructor; try done; by vm_compute.
  - intros q ->%elem_of_singleton. exists ["users"]. split_and!; [|cbn; lia|by vm_compute]. repeat constructor; try done; by vm_compute.
  - done.
  - done.
  - intros F ctx jq cp md Hjq. unfold users_service. cbn [client_List]. eapply returns_bind.
    + apply returns_catch, (Hjq "/users"). intros q. assert (NormalizeLogicalPath "/users" = Ok "/users") as -> by (vm_compute; reflexivity).
      intros [= <-]. by apply elem_of_singleton.
    + intros _ _. apply returns_ret. intros c ->%list_elem_of_singleton. right. apply list_elem_of_singleton. by vm_compute.
Qed.
Lemma remote_read_ends_witness :
  NormalizeLogicalPath "/users/ada" = Ok (path_of ["users"; "ada"]) /\
  exists o w', GetRemote key_order users_orchestrator (resolveListJQResource key_order users_orchestrator 9 1) 9 background "/users/ada"
                 (tt, fresh_resolver) = Some (o, w').
Proof.
  assert (NormalizeLogicalPath "/users/ada" = Ok (path_of ["users"; "ada"])) as Hp by (vm_compute; reflexivity).
  split; [exact Hp|]. apply (remote_read_ends key_order users_orchestrator users_service ["42"] {[ "/users" ]} 2 9 1 background "/users/ada" ["users"; "ada"]).
  - reflexivity.
  - exact users_service_finite.
  - reflexivity.
  - exact Hp.
  - repeat constructor; try done; by vm_compute.
  - reflexivity.
  - rewrite size_singleton. reflexivity.
  - vm_compute. lia.
Defined.
(** One user whose identity has a slash, in every collection. *)
Definition slash_user : Resource :=
  {| LogicalPath := "/users/ada"; CollectionPath := "/users"; LocalAlias := "ada"; RemoteID := "x/ada"; ResolvedRemotePath := "";
     Payload := VMap {[ "name" := VString "ada" ]}; Res_PayloadDescriptor := empty_descriptor |}.
Definition slash_service : ManagedServiceClient unit := {|
  client_Get := fun _ _ _ w => Some (Err (Failed (NotFound "no such resource" None)), w);
  client_Create := fun _ _ _ => fail (errorf "not allowed");
  client_Update := fun _ _ _ => fail (errorf "not allowed");
  client_Delete := fun _ _ _ => fail (errorf "not allowed");
  client_List := fun _ _ _ _ => mret [slash_user];
  client_Request := fun _ _ => fail (errorf "not allowed");
  client_GetOpenAPISpec := fun _ => fail (errorf "no description");
|}.
Definition slash_orchestrator : Orchestrator unit :=
  {| repository := None; metadata_service := Some users_metadata_service; server := Some slash_service; secrets := None |}.
(** Fifty rounds do not end the read of [/users/ada], nine do for the service above. *)
Example slash_identity_goes_on : GetRemote key_order slash_orchestrator (resolveListJQResource key_order slash_orchestrator 50 1) 50 background
  "/users/ada" (tt, fresh_resolver) = None.
Proof. vm_compute. reflexivity. Qed.
