(* ===== verification/LocalRoundTrip.v ===== *)
(** * What is saved is what is applied

    The repository side of the orchestrator: [Save] takes the externalized texts of a payload
    out, stores what differs from the defaults of its metadata, and a later [Apply] reads the
    stored part, lays it over the defaults and puts the texts back. *)
From S2P Require Import Prelude GoText Faults Paths Value Descriptor Codec Overlay DefaultsSpec Metadata MetaWire TemplateSyntax Externalize IdentityTemplate Identity OperationSpec GoDisk DiskLaws FsStore FsStoreFacts FsRepository FsRender Diff Services ActionFacts Orchestrator OrchestratorFacts.

Section local.
Context `{by_path : ResourceSort, UnicodeTables, TextCodecs, TemplateEngine, JqEngine}.
Context (sprintf : string -> string -> string) (order : map_order).
Context {W : Type} (r : Orchestrator W).

(** The defaults of the metadata lose nothing of a payload: there are none, or the payload
    has every key they have. Deep equality takes a negative zero for zero, so neither may
    have one. *)
Definition defaults_lossless (md : ResourceMetadata) (x : value) : Prop :=
  HasDefaultsSpecDirectives (Defaults md) = false \/
  exists d m, ResolveEffectiveDefaults (Defaults md) = Ok (VMap d) /\ normal (VMap d) /\ x = VMap m /\
    covers (VMap d) (VMap m) /\ unsigned_zeros (VMap d) /\ unsigned_zeros (VMap m).
Lemma compact_then_merge md descriptor v x stored n : Normalize v = Ok x -> normal x -> defaults_lossless md x ->
  compactContentWithMetadataDefaults {| content_Value := v; content_Descriptor := descriptor |} md true = Ok stored ->
  Normalize (content_Value stored) = Ok n ->
  content_Descriptor stored = descriptor /\
  exists v', mergeContentWithMetadataDefaults {| content_Value := n; content_Descriptor := descriptor |} md
             = Ok {| content_Value := v'; content_Descriptor := descriptor |} /\ Normalize v' = Ok x.
Proof.
  intros Hv Hx Hd. unfold compactContentWithMetadataDefaults, mergeContentWithMetadataDefaults, effectiveMetadataDefaults. cbn [content_Descriptor content_Value].
  assert (HasDefaultsSpecDirectives (Defaults md) = false -> (Ok {| content_Value := v; content_Descriptor := descriptor |} : result error Content) = Ok stored ->
    Normalize (content_Value stored) = Ok n -> content_Descriptor stored = descriptor /\
    exists v', (Ok {| content_Value := n; content_Descriptor := descriptor |} : result error Content)
      = Ok {| content_Value := v'; content_Descriptor := descriptor |} /\ Normalize v' = Ok x) as Hnone.
  { intros _ [= <-]. cbn [content_Value content_Descriptor]. intros Hn. assert (n = x) as -> by congruence. split; [done|]. exists x. split; [done|by apply Normalize_normal]. }
  destruct (HasDefaultsSpecDirectives (Defaults md)) eqn:Ed; cbn [negb mbind result_bind]; [|by apply Hnone].
  destruct Hd as [Hno|(d & m & Hd & Hnd & -> & Hc & Zd & Zm)]; [by rewrite Ed in Hno|]. rewrite Hd. cbn [mbind result_bind content_Value].
  rewrite (CompactAgainstDefaults_objects v m d) by done. cbn [mbind result_bind]. intros [= <-]. cbn [content_Descriptor content_Value].
  intros Hn. split; [done|]. pose proof (merge_compact_exact d m Hnd Hx Hc Zd Zm) as E. exists (VMap m).
  split; [|by apply Normalize_normal]. case_bool_decide as Hcd; cbn [is_nil andb] in Hn.
  - rewrite Normalize_normal in Hn by by constructor. injection Hn as <-.
    rewrite MergeWithDefaults_objects by (done || by constructor). cbn [mbind result_bind]. rewrite Hcd in E. by rewrite E.
  - rewrite Normalize_normal in Hn by by apply compact_normal. injection Hn as <-.
    rewrite MergeWithDefaults_objects by (done || by apply compact_normal). cbn [mbind result_bind]. by rewrite E.
Qed.

(** What [Save] stores, and the artifacts beside it. *)
Lemma save_stores store (laws : RepositoryLaws store) p q md v descriptor ext x s s' : repository r = Some store ->
  NormalizeLogicalPath p = Ok q -> metadata_at r s.1 q = Ok md -> wf_value v -> Normalize v = Ok x -> fits_memory x ->
  (entries ← ResolveExternalizedAttributes md; Extract sprintf v entries) = Ok ext ->
  let d := content_Descriptor (applyDefaultFormat {| content_Value := v; content_Descriptor := descriptor |} md) in
  repo_ok laws s.1 -> Forall (fun y => artifact_file laws (art_File y)) (Artifacts ext) ->
  (forall v' stored, Normalize v' = Ok (e_Payload ext) ->
     compactContentWithMetadataDefaults {| content_Value := v'; content_Descriptor := d |} md true = Ok stored -> storable laws stored) ->
  Save sprintf r p {| content_Value := v; content_Descriptor := descriptor |} s = Some (Ok tt, s') ->
  exists v' stored n entries, ResolveExternalizedAttributes md = Ok entries /\ Normalize v' = Ok (e_Payload ext) /\ normal (e_Payload ext) /\
    compactContentWithMetadataDefaults {| content_Value := v'; content_Descriptor := d |} md true = Ok stored /\
    Normalize (content_Value stored) = Ok n /\
    store_Get store s'.1 q = Ok {| content_Value := n; content_Descriptor := content_Descriptor stored |} /\
    (forall w, expandExternalizedPayload sprintf r q md {| content_Value := w; content_Descriptor := d |} s' =
       if (length entries =? 0)%nat then Some (lift (n ← Normalize w; Ok {| content_Value := n; content_Descriptor := d |}), s')
       else Some (lift (n ← Expand sprintf ((fun a => ReadResourceArtifact a s'.1) <$> store_artifacts store) q w entries;
                        Ok {| content_Value := n; content_Descriptor := d |}), s')) /\
    (entries = [] \/ exists a, store_artifacts store = Some a /\
       forall y, y ∈ Artifacts ext -> ReadResourceArtifact a s'.1 q (art_File y) = Ok (art_Content y)).
Proof.
  intros Hr Hp Hmd Hwf Hx Hfit Hext. set (d := content_Descriptor _). cbv zeta. intros Hok Hfn Hst Hsave.
  assert (NormalizeLogicalPath q = Ok q) as Hq by by eapply NormalizeLogicalPath_idemp.
  assert (applyDefaultFormat {| content_Value := v; content_Descriptor := descriptor |} md = {| content_Value := v; content_Descriptor := d |}) as Ed.
  { subst d. unfold applyDefaultFormat. destruct (IsPayloadDescriptorExplicit _); [done|]. by destruct (concrete_format md). }
  apply bind_Ok in Hext as (entries & Hent & Hext). destruct (extract_expand sprintf v entries ext q x Hwf Hx Hfit Hext) as (Hfiles & Hn & _).
  assert (forall w, expandExternalizedPayload sprintf r q md {| content_Value := w; content_Descriptor := d |} s' =
    if (length entries =? 0)%nat then Some (lift (n ← Normalize w; Ok {| content_Value := n; content_Descriptor := d |}), s')
    else Some (lift (n ← Expand sprintf ((fun a => ReadResourceArtifact a s'.1) <$> store_artifacts store) q w entries;
                     Ok {| content_Value := n; content_Descriptor := d |}), s')) as Hexp.
  { intros w. unfold expandExternalizedPayload. erewrite bind_run by by apply of_result_run. cbn [content_Value content_Descriptor].
    destruct entries as [|e es]; cbn [length Nat.eqb].
    - destruct (Normalize w); [by erewrite bind_run|done].
    - rewrite Hr. by destruct s'. }
  unfold Save, requireRepository in Hsave. rewrite Hr in Hsave. erewrite bind_run in Hsave by reflexivity.
  unfold saveLocalResource in Hsave. erewrite bind_run in Hsave by by apply of_result_run.
  erewrite bind_run in Hsave by by apply resolveMetadata_at. rewrite Ed in Hsave.
  erewrite bind_run in Hsave by by apply of_result_run. destruct entries as [|e es].
  - apply bind_inv in Hsave as (stored & s1 & [Hc ->]%of_result_inv & (w' & Hs & ->)%outside_inv).
    assert (e_Payload ext = x) as Ex.
    { unfold Extract in Hext. rewrite Hx in Hext. by injection Hext as <-. }
    assert (storable laws stored) as Hstored by (eapply Hst; [by rewrite Ex|exact Hc]).
    destruct (saved_content laws _ _ _ _ _ Hok Hq Hstored Hs) as (_ & n & Hnorm & Hget).
    exists v, stored, n, []. rewrite Ex in *. split_and!; try done. by left.
  - destruct (store_artifacts store) as [a|] eqn:Ea; [|done]. cbn [content_Value content_Descriptor] in Hsave.
    erewrite bind_run in Hsave by by apply of_result_run.
    apply bind_inv in Hsave as (stored & s1 & [Hc ->]%of_result_inv & (w' & Hs & ->)%outside_inv).
    assert (storable laws stored) as Hstored by (eapply Hst; [by apply Normalize_normal|exact Hc]).
    destruct (saved_artifacts laws _ _ _ _ _ _ _ Ea Hok Hq Hstored Hfiles Hfn Hs) as (_ & (n & Hnorm & Hget) & Hart).
    exists (e_Payload ext), stored, n, (e :: es). split_and!; try done; [by apply Normalize_normal|]. right. by exists a.
Qed.

(** The descriptor a payload is saved with. *)
Definition saved_descriptor (md : ResourceMetadata) (v : value) (descriptor : PayloadDescriptor) : PayloadDescriptor :=
  content_Descriptor (applyDefaultFormat {| content_Value := v; content_Descriptor := descriptor |} md).

(** [C9] What is saved is what is applied: after [Save] of a payload, on a repository that
    gives back what was saved, [Apply] reads a resource of that path, and what it builds from
    it to send to the managed service has as its payload the normalized payload that was
    saved, with its descriptor: the texts taken out into artifacts are back in place and the
    defaults left out of the stored part are back, when they lose nothing. The identity is
    resolved from that payload. *)
Theorem saved_resource_is_applied store (laws : RepositoryLaws store) p q md v descriptor ext x s s' : repository r = Some store ->
  NormalizeLogicalPath p = Ok q -> metadata_at r s.1 q = Ok md -> metadata_at r s'.1 q = Ok md ->
  wf_value v -> Normalize v = Ok x -> fits_memory x ->
  (entries ← ResolveExternalizedAttributes md; Extract sprintf v entries) = Ok ext -> defaults_lossless md (e_Payload ext) ->
  repo_ok laws s.1 -> Forall (fun y => artifact_file laws (art_File y)) (Artifacts ext) ->
  (forall v' stored, Normalize v' = Ok (e_Payload ext) ->
     compactContentWithMetadataDefaults {| content_Value := v'; content_Descriptor := saved_descriptor md v descriptor |} md true = Ok stored ->
     storable laws stored) ->
  Save sprintf r p {| content_Value := v; content_Descriptor := descriptor |} s = Some (Ok tt, s') ->
  exists local, resolveLocalResourceForRead sprintf order r p s' = Some (Ok local, s') /\ LogicalPath local = q /\
    buildResourceInfo sprintf r (LogicalPath local) (contentFromResource local) s' =
    Some ('(alias, remoteID) ← ResolveAliasAndRemoteID q md x; Ok (resource_info q alias remoteID x (saved_descriptor md v descriptor), md), s').
Proof.
  intros Hr Hp Hmd Hmd' Hwf Hx Hfit Hext Hdef Hok Hfn Hst Hsave.
  destruct (save_stores store laws p q md v descriptor ext x s s' Hr Hp Hmd Hwf Hx Hfit Hext Hok Hfn Hst Hsave)
    as (v' & stored & n & entries & Hent & Hv' & Hn & Hc & Hstored & Hget & Hexp & Hart).
  assert (NormalizeLogicalPath q = Ok q) as Hq by by eapply NormalizeLogicalPath_idemp.
  destruct (compact_then_merge md _ v' _ stored n Hv' Hn Hdef Hc Hstored) as (Hdesc & m & Hmerge & Hm). rewrite Hdesc in Hget.
  fold (saved_descriptor md v descriptor) in *. set (d := saved_descriptor md v descriptor) in *.
  exists (resource_info q (logicalPathAlias q) (logicalPathAlias q) (e_Payload ext) d). split_and!; [| done |].
  - unfold resolveLocalResourceForRead, requireRepository. rewrite Hr. erewrite bind_run by reflexivity.
    erewrite bind_run by by apply of_result_run.
    assert (catch (read_outside (fun w => store_Get store w q)) s' = Some (Ok (Ok {| content_Value := n; content_Descriptor := d |}), s')) as E.
    { unfold catch. by rewrite (read_outside_run _ _ _ Hget). }
    erewrite bind_run by exact E. cbv beta iota. erewrite bind_run by by apply resolveMetadata_at.
    erewrite bind_run by by apply of_result_run. cbn [content_Value content_Descriptor]. by erewrite bind_run by by apply of_result_run.
  - unfold buildResourceInfo. cbn [LogicalPath resource_info]. erewrite bind_run by by apply of_result_run.
    erewrite bind_run by by apply resolveMetadata_at.
    assert (expandExternalizedPayload sprintf r q md (contentFromResource (resource_info q (logicalPathAlias q) (logicalPathAlias q) (e_Payload ext) d)) s'
      = Some (Ok {| content_Value := x; content_Descriptor := d |}, s')) as E.
    { unfold contentFromResource. cbn [Payload Res_PayloadDescriptor resource_info]. rewrite Hexp.
      rewrite Hent in Hext. cbn [mbind result_bind] in Hext. destruct (extract_expand sprintf v entries ext q x Hwf Hx Hfit Hext) as (_ & _ & Hback).
      destruct Hart as [->|(a & Ha & Hart)].
      - cbn [length Nat.eqb]. specialize (Hback (fun _ _ => Err (errorf ""))). cbn [Expand] in Hback. unfold Expand in Hback.
        assert (Artifacts ext = []) as Hnil by (unfold Extract in Hext; rewrite Hx in Hext; by injection Hext as <-).
        rewrite Hnil in Hback. rewrite (Normalize_normal _ Hn) in *. cbn [mbind result_bind] in *. injection Hback as ->; [done|]. set_solver.
      - destruct entries as [|e es].
        + assert (e_Payload ext = x) as -> by (unfold Extract in Hext; rewrite Hx in Hext; by injection Hext as <-).
          cbn [length Nat.eqb]. rewrite Normalize_normal by by eapply normalizeValue_normal. done.
        + cbn [length Nat.eqb]. rewrite Ha. cbn [fmap option_fmap option_map]. rewrite Hback by done. done. }
    erewrite bind_run by exact E. cbn [content_Value content_Descriptor].
    erewrite bind_run by (apply of_result_run, Normalize_normal; by eapply normalizeValue_normal).
    unfold mbind at 1, action_bind, of_outcome. by destruct (ResolveAliasAndRemoteID q md x) as [[alias id]|e].
Qed.
End local.

(** ** A job whose script is kept in a file, in a repository on disk *)
Definition job_metadata : ResourceMetadata :=
  {| Selector := None; ID := ""; Alias := ""; RequiredAttributes := None; RemoteCollectionPath := ""; Format := "";
     Defaults := Some {| Mode := ""; UseProfiles := None; DefaultsValue := VMap {[ "retries" := VInt64 3 ]}; Profiles := None |};
     Secret := None; SecretAttributes := None;
     ExternalizedAttributes := Some [{| x_Path := "/script"; File := "script.sh"; x_Template := ""; x_Mode := ""; SaveBehavior := "";
                                        RenderBehavior := ""; Enabled := None |}];
     Operations := None; Transforms := None |}.
#[local] Existing Instances stable_sort latin1_tables line_codecs pointer_engine.
Definition job_orchestrator : Orchestrator tree :=
  {| repository := Some (fs_store users_repo);
     metadata_service := Some {| service_ResolveForPath := fun _ _ => Ok job_metadata; service_renderer := None |};
     server := None; secrets := None |}.
Definition job (script : string) : object := {[ "id" := VString "7"; "retries" := VInt64 3; "script" := VString script ]}.
Definition properties : PayloadDescriptor := Build_PayloadDescriptor "properties" "text/x-java-properties" ".properties".
Definition stored_job : object := {[ "id" := VString "7"; "script" := VString "{{include script.sh}}" ]}.
Definition saved_tree : tree :=
  <[path_of ["srv"; "repo"; "jobs"] := DirNode]> (<[path_of ["srv"; "repo"; "jobs"; "build"] := DirNode]>
  (<[path_of ["srv"; "repo"; "jobs"; "build"; "script.sh"] := FileNode "echo a"]>
  (<[path_of ["srv"; "repo"; "jobs"; "build"; "resource.properties"] :=
      FileNode ("id=7" +:+ String "010" ("script={{include script.sh}}" +:+ String "010" ""))]> empty_repo))).
Definition saved_world : world tree := (saved_tree, fresh_resolver).
Lemma job_compact : compactObjectAgainstDefaults (job "{{include script.sh}}") {[ "retries" := VInt64 3 ]} = stored_job.
Proof. vm_compute. reflexivity. Qed.
Lemma job_stored v stored : Normalize v = Ok (VMap (job "{{include script.sh}}")) ->
  compactContentWithMetadataDefaults {| content_Value := v; content_Descriptor := properties |} job_metadata true = Ok stored ->
  stored = {| content_Value := VMap stored_job; content_Descriptor := properties |}.
Proof.
  intros Hv. unfold compactContentWithMetadataDefaults. cbn [content_Value content_Descriptor].
  assert (effectiveMetadataDefaults job_metadata properties =
    Ok (Some {| content_Value := VMap {[ "retries" := VInt64 3 ]}; content_Descriptor := properties |})) as -> by (vm_compute; reflexivity).
  cbn [mbind result_bind content_Value]. erewrite CompactAgainstDefaults_objects;
    [|exact Hv|apply normalb_normal; vm_compute; reflexivity|apply normalb_normal; vm_compute; reflexivity].
  rewrite job_compact, bool_decide_false by done. cbn [mbind result_bind is_nil andb]. by intros [= <-].
Qed.
Lemma stored_job_storable : fs_storable {| content_Value := VMap stored_job; content_Descriptor := properties |}.
Proof.
  unfold fs_storable. cbn [content_Value content_Descriptor]. split_and!; [reflexivity|vm_compute; reflexivity| |vm_compute; reflexivity|].
  - split_and!; [done..|]. apply Forall_singleton. by apply sample_clean.
  - intros v Hv. assert (v = VMap stored_job) as -> by (rewrite Normalize_normal in Hv by (apply normalb_normal; vm_compute; reflexivity); by injection Hv).
    split; [done|]. intros s.
    assert (EncodeContentPretty {| content_Value := VMap stored_job; content_Descriptor := properties |} =
      Ok ("id=7" +:+ String "010" ("script={{include script.sh}}" +:+ String "010" ""))) as -> by (vm_compute; reflexivity).
    intros [= <-]. vm_compute. reflexivity.
Qed.
Lemma script_artifact : artifact_at "script.sh" ["script.sh"].
Proof.
  split_and!; [done|by apply sample_clean|reflexivity|vm_compute; reflexivity|]. intros k s E.
  assert (last ["script.sh"] = Some s) as Hs by by rewrite E, last_snoc. injection Hs as <-. reflexivity.
Qed.
Lemma saved_resource_is_applied_witness :
  Save percent_s job_orchestrator "/jobs/build" {| content_Value := VMap (job "echo a"); content_Descriptor := properties |}
    (empty_repo, fresh_resolver) = Some (Ok tt, saved_world) /\
  exists local, resolveLocalResourceForRead percent_s key_order job_orchestrator "/jobs/build" saved_world = Some (Ok local, saved_world) /\
    buildResourceInfo percent_s job_orchestrator (LogicalPath local) (contentFromResource local) saved_world =
    Some (Ok (resource_info "/jobs/build" "7" "7" (VMap (job "echo a")) properties, job_metadata), saved_world).
Proof.
  assert (Save percent_s job_orchestrator "/jobs/build" {| content_Value := VMap (job "echo a"); content_Descriptor := properties |}
    (empty_repo, fresh_resolver) = Some (Ok tt, saved_world)) as Hsave by (vm_compute; reflexivity).
  split; [exact Hsave|].
  destruct (saved_resource_is_applied percent_s key_order job_orchestrator (fs_store users_repo)
    (fs_laws ["srv"; "repo"] "" ltac:(by apply sample_clean)) "/jobs/build" "/jobs/build" job_metadata (VMap (job "echo a"))
    properties {| e_Payload := VMap (job "{{include script.sh}}"); Artifacts := [{| art_File := "script.sh"; art_Content := "echo a" |}] |}
    (VMap (job "echo a")) (empty_repo, fresh_resolver) saved_world) as (local & Hl & _ & Hb).
  - reflexivity.
  - vm_compute. reflexivity.
  - reflexivity.
  - reflexivity.
  - apply normal_wf, normalb_normal. vm_compute. reflexivity.
  - apply Normalize_normal, normalb_normal. vm_compute. reflexivity.
  - vm_compute. discriminate.
  - vm_compute. reflexivity.
  - right. exists {[ "retries" := VInt64 3 ]}, (job "{{include script.sh}}"). split_and!.
    + vm_compute. reflexivity.
    + apply normalb_normal. vm_compute. reflexivity.
    + reflexivity.
    + apply covers_object. intros k dv [<- <-]%lookup_singleton_Some. exists (VInt64 3). split; [vm_compute; reflexivity|apply covers_leaf; by left].
    + vm_compute. reflexivity.
    + vm_compute. reflexivity.
  - exact empty_repo_wf.
  - apply Forall_singleton. exists ["script.sh"]. exact script_artifact.
  - intros v' stored Hv Hc. apply job_stored in Hc as ->; [exact stored_job_storable|exact Hv].
  - exact Hsave.
  - exists local. split; [exact Hl|]. rewrite Hb.
    assert (ResolveAliasAndRemoteID "/jobs/build" job_metadata (VMap (job "echo a")) = Ok ("7", "7")) as -> by (vm_compute; reflexivity).
    reflexivity.
Defined.
