(* ===== verification/AppDeps.v ===== *)
(** * What the commands of the application use

    Models [src/internal/app/deps]: the services a use case may be given, as records of
    operations over a state [S] of everything outside, and the errors for those that are
    missing. The orchestrator is the interface of [src/orchestrator/orchestrator.go], of
    which [Orchestrator] is the implementation; reads of metadata and of secrets leave the
    state as it is. *)
From S2P Require Import Prelude GoText Faults Paths Value Descriptor Codec Metadata DefaultsSpec Identity Services.

Section interfaces.
Context (S : Type).
Record AppOrchestrator := {
  app_GetLocal : string -> action S Content;
  app_ListLocal : string -> bool -> action S (list Resource);
  app_GetRemote : string -> action S Content;
  app_ListRemote : string -> bool -> action S (list Resource);
  app_Request : RequestSpec -> action S Content;
  app_Save : string -> Content -> action S unit;
  app_Apply : string -> bool -> action S Resource;
  app_ApplyWithContent : string -> Content -> bool -> action S Resource;
  app_Create : string -> Content -> action S Resource;
  app_Update : string -> Content -> action S Resource;
}.
Record AppMetadataService := {
  meta_ResolveForPath : S -> string -> result error ResourceMetadata;
  meta_Get : S -> string -> result error ResourceMetadata;
  meta_Set : string -> ResourceMetadata -> action S unit;
  meta_Unset : string -> action S unit;
  (** [CollectionChildrenResolver], of a service that is one. *)
  meta_ResolveCollectionChildren : option (S -> string -> result error (list string));
  (** [RenderMetadataSnapshot], of a service that has it. *)
  meta_RenderMetadataSnapshot : option (S -> string -> value -> PayloadDescriptor -> outcome ResourceMetadata);
}.
Record AppSecretProvider := {
  secret_Store : string -> string -> action S unit;
  secret_Get : S -> string -> result error string;
  secret_DetectSecretCandidates : value -> result error (list string);
}.
Record ServiceAccessor := {
  RepositoryStore : option (ResourceStore S);
  accessor_MetadataService : option AppMetadataService;
  accessor_SecretProvider : option AppSecretProvider;
}.
Record Dependencies := {
  deps_Orchestrator : option AppOrchestrator;
  deps_Repository : option (ResourceStore S);
  deps_Metadata : option AppMetadataService;
  deps_Secrets : option AppSecretProvider;
  deps_Services : option ServiceAccessor;
}.
End interfaces.
Arguments app_GetLocal {S}. Arguments app_ListLocal {S}. Arguments app_GetRemote {S}. Arguments app_ListRemote {S}.
Arguments app_Request {S}. Arguments app_Save {S}. Arguments app_Apply {S}. Arguments app_ApplyWithContent {S}.
Arguments app_Create {S}. Arguments app_Update {S}.
Arguments meta_ResolveForPath {S}. Arguments meta_Get {S}. Arguments meta_Set {S}. Arguments meta_Unset {S}.
Arguments meta_ResolveCollectionChildren {S}. Arguments meta_RenderMetadataSnapshot {S}.
Arguments secret_Store {S}. Arguments secret_Get {S}. Arguments secret_DetectSecretCandidates {S}.
Arguments RepositoryStore {S}. Arguments accessor_MetadataService {S}. Arguments accessor_SecretProvider {S}.
Arguments deps_Orchestrator {S}. Arguments deps_Repository {S}. Arguments deps_Metadata {S}. Arguments deps_Secrets {S}.
Arguments deps_Services {S}.

Section deps.
Context {S : Type} (deps : Dependencies S).
Definition deps_ResourceStore : option (ResourceStore S) :=
  match deps_Repository deps with Some store => Some store | None => deps_Services deps ≫= RepositoryStore end.
Definition deps_MetadataService : option (AppMetadataService S) :=
  match deps_Metadata deps with Some service => Some service | None => deps_Services deps ≫= accessor_MetadataService end.
Definition deps_SecretProvider : option (AppSecretProvider S) :=
  match deps_Secrets deps with Some provider => Some provider | None => deps_Services deps ≫= accessor_SecretProvider end.
Definition configured {A} (what : string) (service : option A) : result error A :=
  match service with Some service => Ok service | None => Err (Invalid (what +:+ " is not configured") None) end.
Definition RequireOrchestrator : result error (AppOrchestrator S) := configured "orchestrator" (deps_Orchestrator deps).
Definition RequireResourceStore : result error (ResourceStore S) := configured "resource repository" deps_ResourceStore.
Definition RequireMetadataService : result error (AppMetadataService S) := configured "metadata service" deps_MetadataService.
Definition RequireSecretProvider : result error (AppSecretProvider S) := configured "secret provider" deps_SecretProvider.
End deps.
(** Read-only calls. *)
Definition read_state {S A} (f : S -> result error A) : action S A := read_result f.
