(* ===== verification/SecretWorkflow.v ===== *)
(** * Secret attributes of resources

    Models [src/internal/app/secret]: the attributes of a payload that hold secrets, by its
    metadata and by their names, the placeholder a stored secret leaves behind
    ([workflow]), and the command that looks for secrets ([detect]). *)
From S2P Require Import Prelude GoText GoTextFacts Faults Paths Value Pointer Descriptor Codec Metadata DefaultsSpec Identity Secrets Services AppDeps.

Section attributes.
Context `{by_path : ResourceSort, UnicodeTables}.

(** ** Names of attributes *)
Definition DedupeAndSortAttributes (values : list string) : list string :=
  sort_strings (collect_fresh [] (filter (fun s => s <> "") (map trim_space values))).
Definition MergeAttributes (existing detected : list string) : list string := DedupeAndSortAttributes (existing ++ detected).

(** ** Values *)
Definition PlaceholderValue : string := "{{secret .}}".
Definition BuildPathScopedSecretKey (logicalPath attribute : string) : string := trim_space logicalPath +:+ ":" +:+ trim_space attribute.
Definition IsPlaceholderValue (v : string) : bool :=
  let trimmed := trim_space v in
  if negb (has_prefix trimmed "{{") || negb (has_suffix trimmed "}}") then false
  else
    let inner := trim_space (trim_suffix (trim_prefix trimmed "{{") "}}") in
    if negb (has_prefix inner "secret") then false
    else
      let argument := trim_space (trim_prefix inner "secret") in
      if argument == "." then true
      else if is_quoted argument then
        match unquote argument with None => false | Some parsed => negb (trim_space parsed == "") end
      else if contains_byte (fun c => (c == " "%char) || (c == "009"%char) || (c == "013"%char) || (c == "010"%char)) argument then false
      else negb (trim_space argument == "").
Definition isNumericOnlyString (v : string) : bool :=
  let trimmed := trim_space v in
  if trimmed == "" then false else forallb (fun symbol => negb ((symbol <? 48)%Z || (57 <? symbol)%Z)) (runes trimmed).
Definition IsLikelyPlaintextValue (v : string) : bool :=
  let trimmed := trim_space v in
  if trimmed == "" then false
  else if isNumericOnlyString trimmed then false
  else negb (bool_decide (to_lower trimmed ∈ ["true"; "false"; "yes"; "no"; "on"; "off"; "enabled"; "disabled"])).

(** ** Attributes of a payload *)
(** The text at a pointer, when there is one that is not blank. *)
Definition attribute_text (payload : value) (attribute : string) : option string :=
  match LookupJSONPointerString payload attribute with
  | Ok (text, true) => if trim_space text == "" then None else Some text
  | _ => None
  end.
Definition holds_plaintext (payload : value) (attribute : string) : bool :=
  match attribute_text payload attribute with
  | Some text => negb (IsPlaceholderValue text) && IsLikelyPlaintextValue text
  | None => false
  end.
Definition DetectMetadataSecretCandidates (v : value) (attributes : list string) : list string :=
  match v with
  | VMap _ =>
      sort_strings (filter (fun attribute => holds_plaintext v attribute = true) (collect_fresh [] (filter (fun s => s <> "") (map trim_space attributes))))
  | _ => []
  end.
Definition holds_secret (payload : value) (attribute : string) : bool :=
  match attribute_text payload attribute with Some text => negb (IsPlaceholderValue text) | None => false end.
Definition ResolveAttributePathsForCandidates (payload : value) (candidates : list string) : list string :=
  sort_strings (elements (list_to_set (filter (fun candidate => candidate <> "" /\ holds_secret payload candidate = true)
    (map trim_space candidates)) : gset string)).
Definition has_attribute (payload : value) (attribute : string) : bool :=
  match LookupJSONPointer payload attribute with Ok (Some _) => true | _ => false end.
Definition ResolveAttributePaths (payload : value) (secretAttributes : list string) : list string :=
  sort_strings (elements (list_to_set (filter (fun attribute => attribute <> "" /\ has_attribute payload attribute = true)
    (map trim_space secretAttributes)) : gset string)).
Definition mask_attribute (payload : value) (attributePath : string) : value :=
  match LookupJSONPointer payload attributePath with
  | Ok (Some currentValue) =>
      if is_nil currentValue then payload
      else if match currentValue with VString s => IsPlaceholderValue s | _ => false end then payload
      else match SetJSONPointerValue payload attributePath (VString PlaceholderValue) with Ok masked => masked | Err _ => payload end
  | _ => payload
  end.
Definition maskPayload (payload : value) (secretAttributes : list string) : value :=
  foldl mask_attribute payload (ResolveAttributePaths payload secretAttributes).
Definition MaskValue (v : value) (secretAttributes : list string) : result error value :=
  normalizedValue ← Normalize v;
  Ok (match normalizedValue with
      | VMap _ => maskPayload normalizedValue secretAttributes
      | VList items => VList ((fun entry => match entry with VMap _ => maskPayload entry secretAttributes | _ => entry end) <$> items)
      | _ => normalizedValue
      end).
End attributes.

Section workflow.
Context `{by_path : ResourceSort, UnicodeTables} {S : Type}.

Definition ResolveMetadataForSecretCheck (metadataService : option (AppMetadataService S)) (logicalPath : string) (s : S) : result error ResourceMetadata :=
  match metadataService with
  | None => Ok empty_metadata
  | Some service =>
      normalizedPath ← NormalizeLogicalPath logicalPath;
      match meta_ResolveForPath service s normalizedPath with
      | Err err => if is_category err NotFoundError then Ok empty_metadata else Err err
      | Ok md => Ok md
      end
  end.
Definition ResolveDeclaredAttributes (metadataService : option (AppMetadataService S)) (logicalPath : string) (s : S) : result error (list string) :=
  md ← ResolveMetadataForSecretCheck metadataService logicalPath s;
  Ok (DedupeAndSortAttributes (default [] (SecretAttributes md))).
(** The secret of an attribute goes to the store, under the path of its resource, and the
    placeholder takes its place. *)
Definition StoreAndMaskAttribute (provider : AppSecretProvider S) (payload : value) (logicalPath attribute : string) : action S value :=
  match attribute_text payload attribute with
  | None => mret payload
  | Some secretValue =>
      if IsPlaceholderValue secretValue then mret payload
      else
        secret_Store provider (BuildPathScopedSecretKey logicalPath attribute) secretValue;;
        of_result (SetJSONPointerValue payload attribute (VString PlaceholderValue))
  end.
Definition with_secret_attributes (md : ResourceMetadata) (attributes : list string) : ResourceMetadata :=
  {| Selector := Selector md; ID := ID md; Alias := Alias md; RequiredAttributes := RequiredAttributes md;
     RemoteCollectionPath := RemoteCollectionPath md; Format := Format md; Defaults := Defaults md; Secret := Secret md;
     SecretAttributes := Some attributes; ExternalizedAttributes := ExternalizedAttributes md; Operations := Operations md;
     Transforms := Transforms md |}.
(** The metadata written at a path, or the empty one. *)
Definition current_metadata (service : AppMetadataService S) (logicalPath : string) (s : S) : result error ResourceMetadata :=
  match meta_Get service s logicalPath with
  | Err err => if is_category err NotFoundError then Ok empty_metadata else Err err
  | Ok md => Ok md
  end.
Definition PersistDetectedAttributes (metadataService : option (AppMetadataService S)) (logicalPath : string) (detected : list string) : action S unit :=
  match detected with
  | [] => mret tt
  | _ =>
      service ← of_result (configured "metadata service" metadataService);
      currentMetadata ← read_state (current_metadata service logicalPath);
      meta_Set service logicalPath (with_secret_attributes currentMetadata
        (MergeAttributes (default [] (SecretAttributes currentMetadata)) detected))
  end.

(** ** The detection command *)
Record DetectRequest := { dr_ResolvedPath : string; dr_Value : value; dr_HasInput : bool; dr_Fix : bool; dr_SecretAttribute : string }.
Record DetectedResourceSecrets := { ds_LogicalPath : string; ds_Attributes : list string }.
Inductive DetectOutput := DetectedKeys (keys : list string) | DetectedResources (results : list DetectedResourceSecrets).

(** [None] is a filter that matches nothing. *)
Definition filterDetectedSecretAttributes (keys : list string) (secretAttribute : string) : option (list string) :=
  let normalizedKeys := DedupeAndSortAttributes keys in
  match normalizedKeys with
  | [] => None
  | _ =>
      let attribute := trim_space secretAttribute in
      if attribute == "" then Some normalizedKeys
      else if bool_decide (attribute ∈ normalizedKeys) then Some [attribute] else None
  end.
Definition not_detected : error := Invalid "requested --secret-attribute was not detected" None.
Definition resolveDetectSecretAttributes (keys : list string) (secretAttribute : string) : result error (list string) :=
  match filterDetectedSecretAttributes keys secretAttribute with
  | Some filtered => Ok filtered
  | None => if negb (trim_space secretAttribute == "") then Err not_detected else Ok []
  end.
Context (deps : Dependencies S).
Definition applyDetectedSecretAttributes (logicalPath : string) (detected : list string) : action S unit :=
  match detected with
  | [] => mret tt
  | _ =>
      service ← of_result (RequireMetadataService deps);
      PersistDetectedAttributes (Some service) logicalPath detected
  end.
Fixpoint scan_items (orchestratorService : AppOrchestrator S) (provider : AppSecretProvider S) (requestedAttribute : string)
  (items : list Resource) : action S (list DetectedResourceSecrets) :=
  match items with
  | [] => mret []
  | item :: items =>
      if trim_space (LogicalPath item) == "" then scan_items orchestratorService provider requestedAttribute items
      else
        content ← app_GetLocal orchestratorService (LogicalPath item);
        keys ← of_result (secret_DetectSecretCandidates provider (content_Value content));
        results ← scan_items orchestratorService provider requestedAttribute items;
        mret (match filterDetectedSecretAttributes keys requestedAttribute with
              | Some filtered => {| ds_LogicalPath := LogicalPath item; ds_Attributes := filtered |} :: results
              | None => results
              end)
  end.
Definition detectSecretCandidatesFromRepository (provider : AppSecretProvider S) (scanPath secretAttribute : string)
  : action S (list DetectedResourceSecrets) :=
  orchestratorService ← of_result (RequireOrchestrator deps);
  items ← app_ListLocal orchestratorService scanPath true;
  let requestedAttribute := trim_space secretAttribute in
  results ← scan_items orchestratorService provider requestedAttribute (sort_resources items);
  match results with
  | [] => if negb (requestedAttribute == "") then fail not_detected else mret results
  | _ => mret results
  end.
Fixpoint apply_results (results : list DetectedResourceSecrets) : action S unit :=
  match results with
  | [] => mret tt
  | result :: results => applyDetectedSecretAttributes (ds_LogicalPath result) (ds_Attributes result);; apply_results results
  end.
Definition DetectExecute (req : DetectRequest) : action S DetectOutput :=
  provider ← of_result (RequireSecretProvider deps);
  if dr_HasInput req then
    keys ← of_result (secret_DetectSecretCandidates provider (dr_Value req));
    appliedKeys ← of_result (resolveDetectSecretAttributes keys (dr_SecretAttribute req));
    (if dr_Fix req then
       if trim_space (dr_ResolvedPath req) == "" then fail (Invalid "path is required" None)
       else applyDetectedSecretAttributes (dr_ResolvedPath req) appliedKeys
     else if negb (trim_space (dr_ResolvedPath req) == "")
     then fail (Invalid "path input requires --fix when detecting from input payload" None) else mret tt);;
    mret (DetectedKeys appliedKeys)
  else
    let scanPath := trim_space (dr_ResolvedPath req) in
    results ← detectSecretCandidatesFromRepository provider (if scanPath == "" then "/" else scanPath) (dr_SecretAttribute req);
    (if dr_Fix req then apply_results results else mret tt);;
    mret (DetectedResources results).
End workflow.
