(* ===== verification/SaveResource.v ===== *)
(** * The save command

    Models [src/internal/app/resource/save]: a payload given or read from the managed
    service goes to the repository as one resource, as the items of a collection, or as one
    secret; its secrets go to the secret store first, and what looks like a secret in plain
    text stops the command. With it, the compaction against stored defaults
    ([src/internal/app/resource/defaults]) and the fallback to the collections that metadata
    declares ([src/internal/app/resource/pathfallback]). *)
From S2P Require Import Prelude GoText GoTextFacts Faults Paths Value Pointer Descriptor Codec Overlay Metadata DefaultsSpec TemplateSyntax Identity Secrets SecretsPayload Services AppDeps SecretWorkflow.

Record saveEntry := { entry_LogicalPath : string; entry_Payload : value; entry_Descriptor : PayloadDescriptor }.
Record ExecuteOptions := {
  AsItems : bool; AsOneResource : bool; opt_Secret : bool; AllowPlaintext : bool; opt_Force : bool; PruneDefaults : bool;
  SecretAttributesEnabled : bool; RequestedSecretAttributes : list string; SkipItems : list string;
}.
Definition entry_le (a b : saveEntry) : Prop := String.le (entry_LogicalPath a) (entry_LogicalPath b).
#[export] Instance entry_le_dec : RelDecision entry_le.
Proof. intros a b. unfold entry_le. apply _. Defined.
Definition with_entry_descriptor (e : saveEntry) (d : PayloadDescriptor) : saveEntry :=
  {| entry_LogicalPath := entry_LogicalPath e; entry_Payload := entry_Payload e; entry_Descriptor := d |}.

Section lists.
Context `{by_path : ResourceSort, UnicodeTables}.

(** ** Items of a list payload *)
Definition extractSaveListItems (v : value) : result error (option (list value)) :=
  match v with
  | VList typed => Ok (Some typed)
  | VMap typed =>
      match typed !! "items" with
      | None => Ok None
      | Some (VList items) => Ok (Some items)
      | Some _ => Err (Invalid ("list payload " +:+ quote "items" +:+ " must be an array") None)
      end
  | _ => Ok None
  end.
Definition fallbackAliasAttributes : list string :=
  JSONPointerForObjectKey <$> ["clientId"; "id"; "name"; "alias"; "key"; "uuid"; "uid"].
Fixpoint first_scalar (payload : object) (candidates : list string) : option string :=
  match candidates with
  | [] => None
  | candidate :: candidates =>
      let '(v, found) := LookupScalarAttribute payload candidate in
      if negb found || (trim_space v == "") then first_scalar payload candidates else Some (trim_space v)
  end.
(** An alias that is found blank is returned without an error when there is no other. *)
Definition resolveSaveListItemAlias (payload : object) (md : ResourceMetadata) : outcome string :=
  let resolved := ResolveAliasAndRemoteIDForListItem payload md in
  match resolved with
  | Err Panic => Err Panic
  | _ =>
      match resolved with
      | Ok (alias, _) =>
          if negb (trim_space alias == "") then Ok (trim_space alias)
          else Ok (default "" (first_scalar payload fallbackAliasAttributes))
      | Err failure =>
          match first_scalar payload fallbackAliasAttributes with Some v => Ok v | None => Err failure end
      end
  end.
Definition descriptor_field_error (key : string) : error :=
  Invalid ("resource list entry " +:+ quote ("PayloadDescriptor." +:+ key) +:+ " must be a string") None.
Definition optionalSaveEntryDescriptorField (v : object) (key : string) : result error string :=
  match v !! key with
  | None | Some VNil => Ok ""
  | Some (VString text) => Ok text
  | Some _ => Err (descriptor_field_error key)
  end.
Definition resolveSaveEntryPayloadDescriptor (item : object) : result error PayloadDescriptor :=
  match item !! "PayloadDescriptor" with
  | None => Ok empty_descriptor
  | Some (VMap descriptorMap) =>
      payloadType ← optionalSaveEntryDescriptorField descriptorMap "PayloadType";
      mediaType ← optionalSaveEntryDescriptorField descriptorMap "MediaType";
      extension ← optionalSaveEntryDescriptorField descriptorMap "Extension";
      if (trim_space payloadType == "") && (trim_space mediaType == "") && (trim_space extension == "") then Ok empty_descriptor
      else Ok (NormalizePayloadDescriptor (Build_PayloadDescriptor payloadType mediaType extension))
  | Some _ => Err (Invalid ("resource list entry " +:+ quote "PayloadDescriptor" +:+ " must be an object") None)
  end.
(** [None] is an item that is not written as a resource. *)
Definition resolveSaveEntryFromResourceShape (item : object) : result error (option saveEntry) :=
  match item !! "LogicalPath", item !! "Payload" with
  | None, None => Ok None
  | Some logicalPathValue, Some payloadValue =>
      match logicalPathValue with
      | VString logicalPath =>
          if trim_space logicalPath == ""
          then Err (Invalid ("resource list entry " +:+ quote "LogicalPath" +:+ " must be a non-empty string") None)
          else
            normalizedPath ← NormalizeLogicalPath logicalPath;
            descriptor ← resolveSaveEntryPayloadDescriptor item;
            Ok (Some {| entry_LogicalPath := normalizedPath; entry_Payload := payloadValue; entry_Descriptor := descriptor |})
      | _ => Err (Invalid ("resource list entry " +:+ quote "LogicalPath" +:+ " must be a non-empty string") None)
      end
  | _, _ => Err (Invalid ("resource list entry must include both " +:+ quote "LogicalPath" +:+ " and " +:+ quote "Payload") None)
  end.
Definition buildLogicalPathForSave (collectionPath alias : string) : result error string := JoinLogicalPath collectionPath alias.
(** [md] is the metadata of the collection, looked up when an item needs it. *)
Definition save_entry (normalizedCollectionPath : string) (md : result error ResourceMetadata) (rawItem : value) : outcome saveEntry :=
  normalizedItem ← lift (Normalize rawItem);
  match normalizedItem with
  | VMap itemMap =>
      shaped ← lift (resolveSaveEntryFromResourceShape itemMap);
      match shaped with
      | Some entry => Ok entry
      | None =>
          resolvedMetadata ← lift md;
          alias ← match resolveSaveListItemAlias itemMap resolvedMetadata with
                  | Err (Failed err) => Err (Failed (Invalid
                      "list item alias could not be resolved; configure metadata alias/id attributes or use --mode single" (Some err)))
                  | alias => alias
                  end;
          logicalPath ← lift (buildLogicalPathForSave normalizedCollectionPath alias);
          Ok {| entry_LogicalPath := logicalPath; entry_Payload := VMap itemMap; entry_Descriptor := empty_descriptor |}
      end
  | _ => Err (Failed (Invalid "list payload entries must be JSON objects" None))
  end.
Fixpoint save_entries (normalizedCollectionPath : string) (md : result error ResourceMetadata) (items : list value) (seenPaths : gset string)
  : outcome (list saveEntry) :=
  match items with
  | [] => Ok []
  | rawItem :: items =>
      entry ← save_entry normalizedCollectionPath md rawItem;
      if bool_decide (entry_LogicalPath entry ∈ seenPaths)
      then Err (Failed (Invalid ("list payload contains duplicate resource path " +:+ quote (entry_LogicalPath entry)) None))
      else
        entries ← save_entries normalizedCollectionPath md items ({[ entry_LogicalPath entry ]} ∪ seenPaths);
        Ok (entry :: entries)
  end.
Definition filterSaveEntriesForSkipItems (collectionPath : string) (entries : list saveEntry) (skipItems : list string) : list saveEntry :=
  if (length entries =? 0)%nat || (length skipItems =? 0)%nat then entries
  else filter (fun entry => ShouldSkipCollectionItem collectionPath
         {| LogicalPath := entry_LogicalPath entry; CollectionPath := ""; LocalAlias := ""; RemoteID := ""; ResolvedRemotePath := "";
            Payload := VNil; Res_PayloadDescriptor := empty_descriptor |} skipItems = false) entries.

(** ** Paths *)
Definition normalizeSavePathPattern (rawPath : string) : result error (string * bool * bool) :=
  parsedPath ← ParseRawPathWithOptions false rawPath;
  Ok (Normalized parsedPath, bool_decide ("_" ∈ Segments parsedPath), ExplicitCollectionTarget parsedPath).
Definition appendSavePathSegment (parentPath segment : string) : result error string :=
  let trimmedSegment := trim_space segment in
  if trimmedSegment == "" then Err (Invalid "wildcard path contains an empty segment" None) else JoinLogicalPath parentPath trimmedSegment.
Definition saveListPayloadFromResources (items : list Resource) : Content :=
  let json := NormalizePayloadDescriptor (Build_PayloadDescriptor PayloadTypeJSON "" "") in
  match sort_resources items with
  | [] => {| content_Value := VList []; content_Descriptor := json |}
  | first :: _ as sorted =>
      let entry item :=
        let fields : object := {[ "LogicalPath" := VString (LogicalPath item); "Payload" := Payload item ]} in
        let d := Res_PayloadDescriptor item in
        VMap (if IsPayloadDescriptorExplicit d
              then <["PayloadDescriptor" := VMap {[ "PayloadType" := VString (PayloadType d); "MediaType" := VString (MediaType d);
                                                    "Extension" := VString (Extension d) ]}]> fields
              else fields) in
      {| content_Value := VList (entry <$> sorted);
         content_Descriptor := if IsPayloadDescriptorExplicit (Res_PayloadDescriptor first) then Res_PayloadDescriptor first else json |}
  end.
(** The metadata of the items of a realm is that of every realm. *)
Fixpoint widen_realm (segments : list string) : list string :=
  match segments with
  | segment :: (next :: rest) as tail =>
      if negb (segment == "realms") then segment :: widen_realm tail
      else if negb (trim_space next == "") && negb (trim_space next == "_") then segment :: "_" :: rest else segments
  | _ => segments
  end.
Definition saveSecretMetadataPathForCollection (collectionPath : string) : string :=
  match NormalizeLogicalPath collectionPath with
  | Err _ => trim_space collectionPath
  | Ok normalizedCollectionPath =>
      let segments := widen_realm (split_on slash (trim_prefix normalizedCollectionPath "/")) in
      if segments == [""] then "/" else "/" +:+ str_join "/" segments
  end.

(** ** Secret candidates *)
Definition dedupeAndSortSaveSecretAttributes (values : list string) : list string := DedupeAndSortAttributes values.
Definition intersectSaveSecretCandidates (candidates declared : list string) : list string :=
  filter (fun candidate => candidate ∈ dedupeAndSortSaveSecretAttributes declared) (dedupeAndSortSaveSecretAttributes candidates).
Definition filterSaveSecretCandidatesForSafety (candidates declared : list string) (allowPlaintext : bool) : list string :=
  if allowPlaintext then []
  else filter (fun candidate => candidate ∉ dedupeAndSortSaveSecretAttributes declared) (dedupeAndSortSaveSecretAttributes candidates).
Definition not_detected_attribute (requestedCandidate : string) : error :=
  Invalid ("requested --secret-attributes attribute " +:+ quote requestedCandidate +:+ " was not detected") None.
Definition selectSaveSecretCandidates (candidates requested : list string) (allowMissingRequested : bool) : result error (list string * list string) :=
  let normalizedCandidates := dedupeAndSortSaveSecretAttributes candidates in
  match requested with
  | [] => Ok (normalizedCandidates, [])
  | _ =>
      let wanted := dedupeAndSortSaveSecretAttributes requested in
      match filter (fun c => c ∉ normalizedCandidates) wanted with
      | missing :: _ =>
          if allowMissingRequested
          then let selected := filter (fun c => c ∈ normalizedCandidates) wanted in
               Ok (selected, filter (fun c => c ∉ selected) normalizedCandidates)
          else Err (not_detected_attribute missing)
      | [] => Ok (wanted, filter (fun c => c ∉ wanted) normalizedCandidates)
      end
  end.
Definition saveSecretSafetyError (logicalPath : string) (candidates : list string) : error :=
  Invalid ("warning: potential plaintext secrets detected for " +:+ quote logicalPath +:+ " at attributes [" +:+ str_join ", " candidates
           +:+ "]; refusing to save without --allow-plaintext") None.
Definition validateSecretAttributesPayloadType (descriptor : PayloadDescriptor) (enabled : bool) : result error unit :=
  if negb enabled then Ok tt
  else
    let resolved := NormalizePayloadDescriptor descriptor in
    if IsStructuredPayloadType (PayloadType resolved) then Ok tt
    else Err (Invalid ("--secret-attributes requires structured payload (json, yaml); got " +:+ quote (PayloadType resolved)
                       +:+ "; use --secret for whole-resource secrets") None).
Definition wholeResourceSecretPlaceholderContent (descriptor : PayloadDescriptor) : Content :=
  let resolvedDescriptor := NormalizePayloadDescriptor descriptor in
  {| content_Value := if IsBinaryPayloadType (PayloadType resolvedDescriptor) then VBinary PlaceholderValue else VString PlaceholderValue;
     content_Descriptor := resolvedDescriptor |}.
Definition saveWholeResourceSecretKey (logicalPath : string) : result error string :=
  normalizedPath ← NormalizeLogicalPath logicalPath; Ok (BuildPathScopedSecretKey normalizedPath ".").
(** The candidates of two searches, sorted, without duplicates. *)
Definition union_sorted (a b : list string) : list string := sort_strings (elements (list_to_set a ∪ list_to_set b : gset string)).
End lists.

Section save.
Context `{by_path : ResourceSort, UnicodeTables, TextCodecs} {S : Type} (deps : Dependencies S).
Abbreviation M := (action S).

(** ** Stored defaults *)
Definition resolveTargetPayloadDescriptor (logicalPath : string) (fallback : PayloadDescriptor) (s : S) : result error PayloadDescriptor :=
  let json := NormalizePayloadDescriptor (Build_PayloadDescriptor PayloadTypeJSON "" "") in
  if IsPayloadDescriptorExplicit fallback then Ok (NormalizePayloadDescriptor fallback)
  else match deps_MetadataService deps with
       | None => Ok json
       | Some service =>
           match meta_ResolveForPath service s logicalPath with
           | Ok md => Ok (match EffectivePayloadType md PayloadTypeJSON with
                          | Ok payloadType => NormalizePayloadDescriptor (Build_PayloadDescriptor payloadType "" "")
                          | Err _ => json
                          end)
           | Err err => if negb (is_category err NotFoundError) then Err err else Ok json
           end
       end.
Definition resolveEffectiveDefaultsForPath (logicalPath : string) (fallback : PayloadDescriptor) (s : S) : result error (option Content) :=
  service ← RequireMetadataService deps;
  resolvedMetadata ← meta_ResolveForPath service s logicalPath;
  if negb (HasDefaultsSpecDirectives (Defaults resolvedMetadata)) then Ok None
  else
    v ← ResolveEffectiveDefaults (Defaults resolvedMetadata);
    descriptor ← resolveTargetPayloadDescriptor logicalPath fallback s;
    Ok (Some {| content_Value := v; content_Descriptor := descriptor |}).
Definition CompactContentAgainstStoredDefaults (logicalPath : string) (content : Content) (s : S) : result error (Content * bool) :=
  resolvedPath ← NormalizeLogicalPath logicalPath;
  if resolvedPath == "/" then Err (Invalid "logical path must target a resource, not root" None)
  else
    found ← resolveEffectiveDefaultsForPath resolvedPath (content_Descriptor content) s;
    match found with
    | None => Ok (content, false)
    | Some defaultsContent =>
        prunedValue ← CompactAgainstDefaults (content_Value content) (content_Value defaultsContent);
        let descriptor := content_Descriptor content in
        let descriptor := if negb (IsPayloadDescriptorExplicit descriptor) && IsPayloadDescriptorExplicit (content_Descriptor defaultsContent)
                          then NormalizePayloadDescriptor (content_Descriptor defaultsContent) else descriptor in
        Ok ({| content_Value := prunedValue; content_Descriptor := descriptor |}, true)
    end.

(** ** Metadata *)
Definition resolveMetadataForSecretCheck (logicalPath : string) (s : S) : result error ResourceMetadata :=
  ResolveMetadataForSecretCheck (deps_MetadataService deps) logicalPath s.
Definition resolveDeclaredSaveSecretAttributes (logicalPath : string) (s : S) : result error (list string) :=
  resolvedMetadata ← resolveMetadataForSecretCheck logicalPath s;
  Ok (dedupeAndSortSaveSecretAttributes (default [] (SecretAttributes resolvedMetadata))).
Definition resolveCollectionFormat (logicalPath : string) (s : S) : result error string :=
  resolvedMetadata ← resolveMetadataForSecretCheck logicalPath s; Ok (NormalizeResourceFormat (Format resolvedMetadata)).
Definition persistSaveSecretAttributes (logicalPath : string) (detected : list string) : M unit :=
  let attributes := dedupeAndSortSaveSecretAttributes detected in
  match attributes with
  | [] => mret tt
  | _ =>
      service ← of_result (RequireMetadataService deps);
      PersistDetectedAttributes (Some service) logicalPath attributes
  end.
Definition with_whole_secret (md : ResourceMetadata) : ResourceMetadata :=
  {| Selector := Selector md; ID := ID md; Alias := Alias md; RequiredAttributes := RequiredAttributes md;
     RemoteCollectionPath := RemoteCollectionPath md; Format := Format md; Defaults := Defaults md; Secret := Some true;
     SecretAttributes := None; ExternalizedAttributes := ExternalizedAttributes md; Operations := Operations md;
     Transforms := Transforms md |}.
Definition persistWholeResourceSecretMetadata (logicalPath : string) : M unit :=
  service ← of_result (RequireMetadataService deps);
  currentMetadata ← read_state (current_metadata service logicalPath);
  meta_Set service logicalPath (with_whole_secret currentMetadata).

(** ** Secrets of a payload *)
Definition detectHeuristicSecretCandidates (v : value) : result error (list string) :=
  match deps_SecretProvider deps with
  | Some provider => secret_DetectSecretCandidates provider v
  | None => DetectSecretCandidates v
  end.
Definition detectSaveSecretCandidates (logicalPath : string) (v : value) (s : S) : result error (list string) :=
  normalizedValue ← Normalize v;
  heuristicCandidates ← detectHeuristicSecretCandidates normalizedValue;
  resolvedMetadata ← resolveMetadataForSecretCheck logicalPath s;
  Ok (union_sorted heuristicCandidates (DetectMetadataSecretCandidates normalizedValue (default [] (SecretAttributes resolvedMetadata)))).
Fixpoint collection_candidates (md : ResourceMetadata) (entries : list saveEntry) : result error (list string) :=
  match entries with
  | [] => Ok []
  | entry :: entries =>
      normalizedValue ← Normalize (entry_Payload entry);
      heuristicCandidates ← detectHeuristicSecretCandidates normalizedValue;
      candidates ← collection_candidates md entries;
      Ok (heuristicCandidates ++ DetectMetadataSecretCandidates normalizedValue (default [] (SecretAttributes md)) ++ candidates)
  end.
Definition detectSaveSecretCandidatesForCollection (collectionPath : string) (entries : list saveEntry) (s : S) : result error (list string) :=
  match entries with
  | [] => Ok []
  | _ =>
      resolvedMetadata ← resolveMetadataForSecretCheck collectionPath s;
      candidates ← collection_candidates resolvedMetadata entries;
      Ok (union_sorted candidates [])
  end.
Fixpoint store_attributes (provider : AppSecretProvider S) (logicalPath : string) (attributes : list string) (payload : value) : M value :=
  match attributes with
  | [] => mret payload
  | attribute :: attributes =>
      payload ← StoreAndMaskAttribute provider payload logicalPath attribute;
      store_attributes provider logicalPath attributes payload
  end.
Definition applySaveSecretCandidates (provider : AppSecretProvider S) (logicalPath : string) (v : value) (selectedCandidates : list string)
  : M (value * list string) :=
  normalizedValue ← of_result (Normalize v);
  match normalizedValue with
  | VMap _ =>
      let attributes := ResolveAttributePathsForCandidates normalizedValue selectedCandidates in
      payload ← store_attributes provider logicalPath attributes normalizedValue;
      mret (payload, attributes)
  | _ => fail (Invalid "--secret-attributes requires structured payload (json, yaml)" None)
  end.
(** The entries that come back have no descriptor. *)
Fixpoint apply_to_entries (provider : AppSecretProvider S) (entries : list saveEntry) (selectedCandidates : list string) : M (list saveEntry) :=
  match entries with
  | [] => mret []
  | entry :: entries =>
      '(processedPayload, _) ← applySaveSecretCandidates provider (entry_LogicalPath entry) (entry_Payload entry) selectedCandidates;
      updatedEntries ← apply_to_entries provider entries selectedCandidates;
      mret ({| entry_LogicalPath := entry_LogicalPath entry; entry_Payload := processedPayload; entry_Descriptor := empty_descriptor |} :: updatedEntries)
  end.
Definition applySaveSecretCandidatesToEntries (provider : AppSecretProvider S) (entries : list saveEntry) (selectedCandidates : list string)
  : M (list saveEntry) :=
  match selectedCandidates with [] => mret entries | _ => apply_to_entries provider entries selectedCandidates end.
(** The payload, and the candidates that were not asked for. *)
Definition handleSaveSecrets (logicalPath : string) (v : value) (metadataPath : string) (requestedCandidates : list string) : M (value * list string) :=
  normalizedValue ← of_result (Normalize v);
  candidates ← read_state (detectSaveSecretCandidates logicalPath normalizedValue);
  match candidates with
  | [] => mret (normalizedValue, [])
  | _ =>
      '(selectedCandidates, unhandledCandidates) ← of_result (selectSaveSecretCandidates candidates requestedCandidates false);
      match normalizedValue with
      | VMap _ =>
          provider ← of_result (RequireSecretProvider deps);
          '(processedPayload, handledAttributes) ← applySaveSecretCandidates provider logicalPath normalizedValue selectedCandidates;
          let targetMetadataPath := trim_space metadataPath in
          persistSaveSecretAttributes (if targetMetadataPath == "" then logicalPath else targetMetadataPath) handledAttributes;;
          mret (processedPayload, unhandledCandidates)
      | _ => fail (Invalid "--secret-attributes requires structured payload (json, yaml)" None)
      end
  end.
Definition autoHandleDeclaredSaveSecrets (logicalPath : string) (v : value) : M value :=
  normalizedValue ← of_result (Normalize v);
  candidates ← read_state (detectSaveSecretCandidates logicalPath normalizedValue);
  match candidates with
  | [] => mret normalizedValue
  | _ =>
      declaredCandidates ← read_state (resolveDeclaredSaveSecretAttributes logicalPath);
      match intersectSaveSecretCandidates candidates declaredCandidates with
      | [] => mret normalizedValue
      | metadataDeclaredCandidates =>
          provider ← of_result (RequireSecretProvider deps);
          '(processedPayload, _) ← applySaveSecretCandidates provider logicalPath normalizedValue metadataDeclaredCandidates;
          mret processedPayload
      end
  end.
Definition autoHandleDeclaredSaveSecretsForEntries (entries : list saveEntry) (detectedCandidates declaredCandidates : list string) : M (list saveEntry) :=
  match intersectSaveSecretCandidates detectedCandidates declaredCandidates with
  | [] => mret entries
  | metadataDeclaredCandidates =>
      provider ← of_result (RequireSecretProvider deps);
      applySaveSecretCandidatesToEntries provider entries metadataDeclaredCandidates
  end.
Definition refuse_blocking (logicalPath : string) (blockingCandidates : list string) : M unit :=
  match blockingCandidates with [] => mret tt | _ => fail (saveSecretSafetyError logicalPath blockingCandidates) end.
Definition enforceSaveSecretSafety (logicalPath : string) (v : value) (allowPlaintext : bool) : M unit :=
  candidates ← read_state (detectSaveSecretCandidates logicalPath v);
  declaredCandidates ← read_state (resolveDeclaredSaveSecretAttributes logicalPath);
  refuse_blocking logicalPath (filterSaveSecretCandidatesForSafety candidates declaredCandidates allowPlaintext).

(** ** Guards *)
Definition resourceExists (store : ResourceStore S) (logicalPath : string) (s : S) : result error bool :=
  match store_Get store s logicalPath with
  | Ok _ => Ok true
  | Err err => if is_category err NotFoundError then Ok (false : bool) else Err err
  end.
Definition ensureSaveTargetAllowed (store : ResourceStore S) (logicalPath : string) (force : bool) (s : S) : result error unit :=
  if force then Ok tt
  else
    exists_ ← resourceExists store logicalPath s;
    if exists_ : bool then Err (Invalid ("resource " +:+ quote logicalPath +:+ " already exists; rerun with --force to overwrite") None) else Ok tt.
Fixpoint ensureSaveEntriesWritable (store : ResourceStore S) (entries : list saveEntry) (force : bool) (s : S) : result error unit :=
  match entries with
  | [] => Ok tt
  | entry :: entries =>
      ensureSaveTargetAllowed store (entry_LogicalPath entry) force s;;
      ensureSaveEntriesWritable store entries force s
  end.

(** ** Reading from the managed service *)
Definition ShouldUseMetadataCollectionFallback (metadataService : option (AppMetadataService S)) (logicalPath : string) (s : S) : bool :=
  match metadataService ≫= meta_ResolveCollectionChildren with
  | None => false
  | Some resolveChildren =>
      match NormalizeLogicalPath logicalPath with
      | Err _ => false
      | Ok normalizedPath =>
          if normalizedPath == "/" then false
          else
            let parentPath := path_dir normalizedPath in
            let parentPath := if (parentPath == ".") || (parentPath == "") then "/" else parentPath in
            let requestedSegment := path_base normalizedPath in
            if (trim_space requestedSegment == "") || (requestedSegment == "/") then false
            else match resolveChildren s parentPath with
                 | Err _ => false
                 | Ok children => existsb (fun child => trim_space child == requestedSegment) children
                 end
      end
  end.
Definition filtered_list (logicalPath : string) (items : list Resource) (skipItems : list string) : Content :=
  saveListPayloadFromResources (FilterCollectionItems logicalPath items skipItems).
Definition resolveSaveRemoteValue (remoteReader : AppOrchestrator S) (metadataService : option (AppMetadataService S)) (logicalPath : string)
  (explicitCollectionTarget : bool) (skipItems : list string) : M Content :=
  let by_path :=
    remoteValue ← catch (app_GetRemote remoteReader logicalPath);
    match remoteValue with
    | Ok remoteValue => mret remoteValue
    | Err err =>
        if negb (is_category err NotFoundError) then fail err
        else
          listed ← catch (app_ListRemote remoteReader logicalPath false);
          match listed with
          | Err _ => fail err
          | Ok items =>
              fallback ← read_state (fun s => Ok (ShouldUseMetadataCollectionFallback metadataService logicalPath s));
              if negb explicitCollectionTarget && negb fallback then fail err else mret (filtered_list logicalPath items skipItems)
          end
    end in
  if explicitCollectionTarget then
    listed ← catch (app_ListRemote remoteReader logicalPath false);
    match listed with
    | Ok items => mret (filtered_list logicalPath items skipItems)
    | Err err => if negb (IsListPayloadShapeError err) then fail err else by_path
    end
  else by_path.
(** The paths below each parent that a segment of a pattern stands for. *)
Fixpoint child_paths (parentPath : string) (items : list Resource) (nextPaths : gset string) : result error (gset string) :=
  match items with
  | [] => Ok nextPaths
  | item :: items =>
      match ChildSegment parentPath (LogicalPath item) with
      | None => child_paths parentPath items nextPaths
      | Some childSegment =>
          childPath ← appendSavePathSegment parentPath childSegment;
          child_paths parentPath items ({[ childPath ]} ∪ nextPaths)
      end
  end.
Fixpoint expand_segment (orchestratorService : AppOrchestrator S) (segment : string) (currentPaths : list string) (nextPaths : gset string) : M (gset string) :=
  match currentPaths with
  | [] => mret nextPaths
  | parentPath :: currentPaths =>
      nextPaths ← (if segment == "_" then
                     items ← app_ListRemote orchestratorService parentPath false;
                     of_result (child_paths parentPath items nextPaths)
                   else
                     childPath ← of_result (appendSavePathSegment parentPath segment);
                     mret ({[ childPath ]} ∪ nextPaths));
      expand_segment orchestratorService segment currentPaths nextPaths
  end.
Definition no_match (wildcardPath : string) : error :=
  NewTypedError NotFoundError ("no remote resources matched wildcard path " +:+ quote wildcardPath) None.
Fixpoint expand_segments (orchestratorService : AppOrchestrator S) (wildcardPath : string) (segments currentPaths : list string) : M (list string) :=
  match segments with
  | [] => mret currentPaths
  | segment :: segments =>
      nextPaths ← expand_segment orchestratorService segment currentPaths ∅;
      if bool_decide (nextPaths = ∅) then fail (no_match wildcardPath)
      else expand_segments orchestratorService wildcardPath segments (sort_strings (elements nextPaths))
  end.
Definition expandSaveWildcardPaths (orchestratorService : AppOrchestrator S) (wildcardPath : string) : M (list string) :=
  match SplitRawPathSegments wildcardPath with
  | [] => fail (Invalid "wildcard save path must target a collection or resource" None)
  | segments => expand_segments orchestratorService wildcardPath segments ["/"]
  end.

(** ** Saving *)
Definition saveResolvedPathAsSecret (writer : AppOrchestrator S) (logicalPath : string) (content : Content) : M unit :=
  of_result (RequireMetadataService deps);;
  provider ← of_result (RequireSecretProvider deps);
  secretValue ← of_result (EncodeWholeResourceSecret content);
  secretKey ← of_result (saveWholeResourceSecretKey logicalPath);
  secret_Store provider secretKey secretValue;;
  app_Save writer logicalPath (wholeResourceSecretPlaceholderContent (content_Descriptor content));;
  persistWholeResourceSecretMetadata logicalPath.
Definition resolveSaveEntriesForItems (collectionPath : string) (items : list value) : M (list saveEntry) :=
  read (fun s =>
    normalizedCollectionPath ← lift (NormalizeLogicalPath collectionPath);
    let md := service ← RequireMetadataService deps;
              match meta_ResolveForPath service s normalizedCollectionPath with
              | Err err => if negb (is_category err NotFoundError) then Err err else Ok empty_metadata
              | Ok md => Ok md
              end in
    entries ← save_entries normalizedCollectionPath md items ∅;
    Ok (merge_sort entry_le entries)).
Definition item_descriptor (collectionFormat : string) (listDescriptor : PayloadDescriptor) (entry : saveEntry) : saveEntry :=
  if ResourceFormatAllowsMixedItems collectionFormat then entry
  else if negb (trim_space collectionFormat == "") then with_entry_descriptor entry empty_descriptor
  else if negb (IsPayloadDescriptorExplicit (entry_Descriptor entry)) then with_entry_descriptor entry listDescriptor
  else entry.
Fixpoint prune_entries (entries : list saveEntry) (s : S) : result error (list saveEntry) :=
  match entries with
  | [] => Ok []
  | entry :: entries =>
      '(prunedContent, _) ← CompactContentAgainstStoredDefaults (entry_LogicalPath entry)
        {| content_Value := entry_Payload entry; content_Descriptor := entry_Descriptor entry |} s;
      entries ← prune_entries entries s;
      Ok ({| entry_LogicalPath := entry_LogicalPath entry; entry_Payload := content_Value prunedContent;
             entry_Descriptor := content_Descriptor prunedContent |} :: entries)
  end.
Fixpoint write_entries (orchestratorService : AppOrchestrator S) (entries : list saveEntry) : M unit :=
  match entries with
  | [] => mret tt
  | entry :: entries =>
      app_Save orchestratorService (entry_LogicalPath entry)
        {| content_Value := entry_Payload entry; content_Descriptor := entry_Descriptor entry |};;
      write_entries orchestratorService entries
  end.
(** The secrets of the entries go to the store; what is left that looks like one stops it. *)
Definition secure_entries (resolvedPath : string) (entries : list saveEntry) (options : ExecuteOptions) : M (list saveEntry) :=
  collectionCandidates ← read_state (detectSaveSecretCandidatesForCollection resolvedPath entries);
  if SecretAttributesEnabled options then
    '(selectedCandidates, unhandledCandidates) ←
      of_result (selectSaveSecretCandidates collectionCandidates (RequestedSecretAttributes options) true);
    entries ← match selectedCandidates with
              | [] => mret entries
              | _ =>
                  provider ← of_result (RequireSecretProvider deps);
                  entries ← applySaveSecretCandidatesToEntries provider entries selectedCandidates;
                  persistSaveSecretAttributes (saveSecretMetadataPathForCollection resolvedPath) selectedCandidates;;
                  mret entries
              end;
    declaredCandidates ← read_state (resolveDeclaredSaveSecretAttributes resolvedPath);
    refuse_blocking resolvedPath (filterSaveSecretCandidatesForSafety unhandledCandidates declaredCandidates (AllowPlaintext options));;
    mret entries
  else
    declaredCandidates ← read_state (resolveDeclaredSaveSecretAttributes resolvedPath);
    entries ← autoHandleDeclaredSaveSecretsForEntries entries collectionCandidates declaredCandidates;
    refuse_blocking resolvedPath (filterSaveSecretCandidatesForSafety collectionCandidates declaredCandidates (AllowPlaintext options));;
    mret entries.
Definition save_items (orchestratorService : AppOrchestrator S) (store : ResourceStore S) (resolvedPath : string) (content : Content)
  (items : list value) (options : ExecuteOptions) : M unit :=
  entries ← resolveSaveEntriesForItems resolvedPath items;
  collectionFormat ← read_state (resolveCollectionFormat resolvedPath);
  let entries := item_descriptor collectionFormat (content_Descriptor content) <$> entries in
  entries ← (if PruneDefaults options then read_state (prune_entries entries) else mret entries);
  match filterSaveEntriesForSkipItems resolvedPath entries (SkipItems options) with
  | [] => mret tt
  | entries =>
      read_state (ensureSaveEntriesWritable store entries (opt_Force options));;
      entries ← secure_entries resolvedPath entries options;
      write_entries orchestratorService entries
  end.
(** The payload without its secrets, when nothing in it stops the command. *)
Definition secure_payload (resolvedPath : string) (v : value) (options : ExecuteOptions) : M value :=
  if SecretAttributesEnabled options then
    '(v, unhandled) ← handleSaveSecrets resolvedPath v "" (RequestedSecretAttributes options);
    declaredCandidates ← read_state (resolveDeclaredSaveSecretAttributes resolvedPath);
    refuse_blocking resolvedPath (filterSaveSecretCandidatesForSafety unhandled declaredCandidates (AllowPlaintext options));;
    mret v
  else
    v ← autoHandleDeclaredSaveSecrets resolvedPath v;
    enforceSaveSecretSafety resolvedPath v (AllowPlaintext options);;
    mret v.
Definition save_single (orchestratorService : AppOrchestrator S) (store : ResourceStore S) (resolvedPath : string) (content : Content)
  (asSecret : bool) (options : ExecuteOptions) : M unit :=
  content ← (if PruneDefaults options
             then '(content, _) ← read_state (CompactContentAgainstStoredDefaults resolvedPath content); mret content
             else mret content);
  read_state (ensureSaveTargetAllowed store resolvedPath (opt_Force options));;
  if asSecret then saveResolvedPathAsSecret orchestratorService resolvedPath content
  else
    v ← secure_payload resolvedPath (content_Value content) options;
    app_Save orchestratorService resolvedPath {| content_Value := v; content_Descriptor := content_Descriptor content |}.
Definition saveResolvedPathPayload (orchestratorService : AppOrchestrator S) (store : ResourceStore S) (resolvedPath : string) (content : Content)
  (options : ExecuteOptions) : M unit :=
  items ← of_result (extractSaveListItems (content_Value content));
  of_result (validateSecretAttributesPayloadType (content_Descriptor content) (SecretAttributesEnabled options));;
  autoWholeResourceSecret ← (if negb (opt_Secret options) && negb (SecretAttributesEnabled options) && negb (AsItems options)
                             then resolvedMetadata ← read_state (resolveMetadataForSecretCheck resolvedPath);
                                  mret (IsWholeResourceSecret resolvedMetadata)
                             else mret false);
  let asSecret := opt_Secret options || autoWholeResourceSecret in
  if asSecret || AsOneResource options || (negb (AsItems options) && negb (bool_decide (is_Some items)))
  then save_single orchestratorService store resolvedPath content asSecret options
  else match items with
       | None => fail (Invalid "input payload is not a list; use --mode single to save a single resource" None)
       | Some items => save_items orchestratorService store resolvedPath content items options
       end.

(** ** The command *)
(** How many of the targets were there. *)
Fixpoint save_targets (orchestratorService : AppOrchestrator S) (store : ResourceStore S) (targets : list string) (options : ExecuteOptions) : M nat :=
  match targets with
  | [] => mret 0%nat
  | targetPath :: targets =>
      remoteValue ← catch (app_GetRemote orchestratorService targetPath);
      match remoteValue with
      | Err err => if is_category err NotFoundError then save_targets orchestratorService store targets options else fail err
      | Ok remoteValue =>
          saveResolvedPathPayload orchestratorService store targetPath remoteValue options;;
          matchedCount ← save_targets orchestratorService store targets options;
          mret (1 + matchedCount)%nat
      end
  end.
Definition check_options (options : ExecuteOptions) : result error unit :=
  if AsItems options && AsOneResource options then Err (Invalid "flag --mode must choose a single save mode" None)
  else if opt_Secret options && AsItems options then Err (Invalid "flags --secret and --mode items cannot be used together" None)
  else if AsOneResource options && (0 <? length (SkipItems options))%nat then Err (Invalid "flag --exclude is not supported with --mode single" None)
  else if opt_Secret options && (0 <? length (SkipItems options))%nat then Err (Invalid "flag --exclude is not supported with --secret" None)
  else if opt_Secret options && SecretAttributesEnabled options
  then Err (Invalid "flags --secret and --secret-attributes cannot be used together" None)
  else if opt_Secret options && AllowPlaintext options then Err (Invalid "flags --secret and --allow-plaintext cannot be used together" None)
  else Ok tt.
(** [input] is the payload given to the command, if one was. *)
Definition Execute (resolvedPath : string) (input : option Content) (options : ExecuteOptions) : M unit :=
  '(normalizedPath, hasWildcard, explicitCollectionTarget) ← of_result (normalizeSavePathPattern resolvedPath);
  of_result (check_options options);;
  orchestratorService ← of_result (RequireOrchestrator deps);
  store ← of_result (RequireResourceStore deps);
  if hasWildcard : bool then
    match input with
    | Some _ => fail (Invalid "wildcard save paths are supported only when reading from remote server" None)
    | None =>
        targets ← expandSaveWildcardPaths orchestratorService normalizedPath;
        matchedCount ← save_targets orchestratorService store targets options;
        if (matchedCount =? 0)%nat then fail (no_match normalizedPath) else mret tt
    end
  else
    v ← match input with
        | Some v => mret v
        | None => resolveSaveRemoteValue orchestratorService (deps_MetadataService deps) normalizedPath explicitCollectionTarget (SkipItems options)
        end;
    saveResolvedPathPayload orchestratorService store normalizedPath v options.
End save.
