(* ===== verification/ReadResource.v ===== *)
(** * The read command

    Models [src/internal/app/resource/read]: a resource, or the items of a collection, of
    the repository or of the managed service, pruned of its defaults if asked, its secrets
    masked or resolved, with the metadata it is read by if asked. The debug log is left
    out. *)
From S2P Require Import Prelude GoText Faults Paths Value Descriptor Codec Metadata MetaWire TemplateSyntax Identity OperationSpec RuntimeMetadata Secrets SecretsPayload Services AppDeps SecretWorkflow SaveResource.

Definition SourceRepository : string := "repository".
Definition SourceManagedService : string := "managed-service".
Record ReadRequest := {
  rd_LogicalPath : string; rd_Source : string; rd_SkipItems : list string; rd_ExplicitCollectionTarget : bool;
  rd_PruneDefaults : bool; rd_ShowSecrets : bool; rd_ShowMetadata : bool;
}.
Inductive ReadOutput :=
| OutputPayload (payload : value)
| OutputWithMetadata (payload : value) (md : ResourceMetadata)
| OutputItems (payloads : list value) (lines : list string).

Section read.
Context `{by_path : ResourceSort, UnicodeTables, TextCodecs, TemplateEngine, JqEngine} (order : map_order) {S : Type} (deps : Dependencies S).
Abbreviation M := (action S).

(** ** Secrets of what is shown *)
Definition isWholeResourceSecretPlaceholderValue (v : value) : bool :=
  match v with
  | VString s | VBinary s | VBinaryPtr (Some s) => IsPlaceholderValue s
  | _ => false
  end.
Definition maskSecretsForOutput (logicalPath : string) (v : value) (s : S) : result error value :=
  if is_nil v then Ok v
  else
    resolvedMetadata ← ResolveMetadataForSecretCheck (deps_MetadataService deps) logicalPath s;
    if IsWholeResourceSecret resolvedMetadata
    then Ok (if isWholeResourceSecretPlaceholderValue v then v else VString PlaceholderValue)
    else match DedupeAndSortAttributes (default [] (SecretAttributes resolvedMetadata)) with
         | [] => Ok v
         | secretAttributes => MaskValue v secretAttributes
         end.
Definition no_provider : error :=
  Invalid "flag --show-secrets requires a configured secret provider when payload includes placeholders" None.
Definition resolveSecretsForOutput (logicalPath : string) (v : value) (descriptor : PayloadDescriptor) (s : S) : result error value :=
  if is_nil v then Ok v
  else
    normalizedPath ← NormalizeLogicalPath logicalPath;
    let getSecret := match deps_SecretProvider deps with
                     | Some provider => secret_Get provider s
                     | None => fun _ => Err no_provider
                     end in
    whole ← ResolveWholeResourcePlaceholderForResource v normalizedPath descriptor (Some getSecret);
    match whole with
    | Some resolved => Ok resolved
    | None => ResolvePayloadForResource v normalizedPath (Some getSecret)
    end.
Definition prepareSecretsForOutput (logicalPath : string) (v : value) (descriptor : PayloadDescriptor) (showSecrets : bool) (s : S) : result error value :=
  if showSecrets then resolveSecretsForOutput logicalPath v descriptor s else maskSecretsForOutput logicalPath v s.

(** ** Collections *)
Definition with_shown (item : Resource) (payload : value) (descriptor : PayloadDescriptor) : Resource :=
  {| LogicalPath := LogicalPath item; CollectionPath := CollectionPath item; LocalAlias := LocalAlias item; RemoteID := RemoteID item;
     ResolvedRemotePath := ResolvedRemotePath item; Payload := payload; Res_PayloadDescriptor := descriptor |}.
Definition prune_item (s : S) (item : Resource) : result error Resource :=
  '(prunedContent, _) ← CompactContentAgainstStoredDefaults deps (LogicalPath item)
    {| content_Value := Payload item; content_Descriptor := Res_PayloadDescriptor item |} s;
  Ok (with_shown item (if is_nil (content_Value prunedContent) then VMap ∅ else content_Value prunedContent) (content_Descriptor prunedContent)).
Definition show_item (showSecrets : bool) (s : S) (item : Resource) : result error Resource :=
  shown ← prepareSecretsForOutput (LogicalPath item) (Payload item) (Res_PayloadDescriptor item) showSecrets s;
  Ok (with_shown item shown (Res_PayloadDescriptor item)).
Definition renderCollection (collectionPath : string) (items : list Resource) (showSecrets : bool) (skipItems : list string) (pruneDefaults : bool)
  (s : S) : result error ReadOutput :=
  let items := FilterCollectionItems collectionPath items skipItems in
  items ← (if pruneDefaults then mapM (prune_item s) items else Ok items);
  items ← mapM (show_item showSecrets s) items;
  Ok (OutputItems (Payload <$> items) (LogicalPath <$> items)).
Definition renderRepositoryCollection (orchestratorService : AppOrchestrator S) (req : ReadRequest) : M ReadOutput :=
  items ← app_ListLocal orchestratorService (rd_LogicalPath req) false;
  read_state (renderCollection (rd_LogicalPath req) items (rd_ShowSecrets req) (rd_SkipItems req) (rd_PruneDefaults req)).
Definition renderRemoteCollection (orchestratorService : AppOrchestrator S) (req : ReadRequest) : M ReadOutput :=
  items ← app_ListRemote orchestratorService (rd_LogicalPath req) false;
  read_state (renderCollection (rd_LogicalPath req) items (rd_ShowSecrets req) (rd_SkipItems req) (rd_PruneDefaults req)).
(** [None] when the path is no collection of the metadata. *)
Definition renderRemoteCollectionFallback (orchestratorService : AppOrchestrator S) (req : ReadRequest) : M (option ReadOutput) :=
  items ← app_ListRemote orchestratorService (rd_LogicalPath req) false;
  fallback ← read_state (fun s => Ok (ShouldUseMetadataCollectionFallback (deps_MetadataService deps) (rd_LogicalPath req) s));
  if negb fallback then mret None
  else
    output ← read_state (renderCollection (rd_LogicalPath req) items (rd_ShowSecrets req) (rd_SkipItems req) (rd_PruneDefaults req));
    mret (Some output).

(** ** The command *)
Definition isNotFoundError (err : error) : bool := is_category err NotFoundError.
Definition isRootResourceError (err : error) : bool :=
  match as_typed err with
  | Some (ValidationError, message, _) => trim_space message == "logical path must target a resource, not root"
  | _ => false
  end.
Definition renderMetadataSnapshot (logicalPath : string) (rawValue : value) (descriptor : PayloadDescriptor) : M ResourceMetadata :=
  read (fun s =>
    service ← lift (RequireMetadataService deps);
    resolvedMetadata ← lift (meta_ResolveForPath service s logicalPath);
    match meta_RenderMetadataSnapshot service with
    | Some render => render s logicalPath rawValue descriptor
    | None => RenderResourceMetadataWithDescriptor order logicalPath
                (MergeResourceMetadata DefaultResourceMetadata resolvedMetadata) rawValue descriptor
    end).
Definition show_resource (req : ReadRequest) (content : Content) : M ReadOutput :=
  let metadataValue := content_Value content in
  content ← (if rd_PruneDefaults req
             then '(content, _) ← read_state (CompactContentAgainstStoredDefaults deps (rd_LogicalPath req) content); mret content
             else mret content);
  metadataSnapshot ← (if rd_ShowMetadata req
                      then snapshot ← renderMetadataSnapshot (rd_LogicalPath req) metadataValue (content_Descriptor content); mret (Some snapshot)
                      else mret None);
  finalValue ← read_state (prepareSecretsForOutput (rd_LogicalPath req) (content_Value content) (content_Descriptor content) (rd_ShowSecrets req));
  let finalValue := if rd_PruneDefaults req && is_nil finalValue then VMap ∅ else finalValue in
  mret (match metadataSnapshot with
        | Some snapshot => OutputWithMetadata finalValue snapshot
        | None => OutputPayload finalValue
        end).
Definition read_single (orchestratorService : AppOrchestrator S) (req : ReadRequest) : M ReadOutput :=
  if rd_Source req == SourceRepository then
    content ← catch (app_GetLocal orchestratorService (rd_LogicalPath req));
    match content with
    | Ok content => show_resource req content
    | Err err => if isNotFoundError err || isRootResourceError err then renderRepositoryCollection orchestratorService req else fail err
    end
  else if rd_Source req == SourceManagedService then
    content ← catch (app_GetRemote orchestratorService (rd_LogicalPath req));
    match content with
    | Ok content => show_resource req content
    | Err err =>
        if negb (rd_ExplicitCollectionTarget req) && isNotFoundError err then
          fallback ← catch (renderRemoteCollectionFallback orchestratorService req);
          match fallback with Ok (Some output) => mret output | _ => fail err end
        else fail err
    end
  else fail (Invalid "invalid source: use --source repository|managed-service" None).
Definition ReadExecute (req : ReadRequest) : M ReadOutput :=
  orchestratorService ← of_result (RequireOrchestrator deps);
  if (rd_Source req == SourceManagedService) && rd_ExplicitCollectionTarget req then
    output ← catch (renderRemoteCollection orchestratorService req);
    match output with
    | Ok output => mret output
    | Err err => if negb (IsListPayloadShapeError err) then fail err else read_single orchestratorService req
    end
  else read_single orchestratorService req.
End read.
