(* ===== verification/MutateResource.v ===== *)
(** * The commands that change the managed service

    Models [src/internal/app/resource/mutate] and [src/internal/app/resource/request]: the
    resources of the repository a path stands for, the mutation of each, and requests of
    one's own. *)
From S2P Require Import Prelude GoText Faults Paths Value Descriptor Codec Metadata Identity Services AppDeps SaveResource.

Record MutateRequest := {
  mu_Operation : string; mu_LogicalPath : string; mu_Recursive : bool; mu_Force : bool;
  mu_Value : Content; mu_HasExplicitInput : bool; mu_RefreshLocal : bool;
}.
Record MutateResult := { mr_ResolvedPath : string; mr_TargetedCount : nat; mr_Items : list Resource }.
Definition OperationApply : string := "apply".
Definition MutateCreate : string := "create".
Definition MutateUpdate : string := "update".

Section targets.
Context `{by_path : ResourceSort, UnicodeTables} {S : Type}.
Abbreviation M := (action S).
Definition logicalPathDepth (logicalPath : string) : nat :=
  let trimmed := trim_bytes is_slash (trim_space logicalPath) in
  if trimmed == "" then 0%nat else length (split_on slash trimmed).
Definition bare_resource (logicalPath : string) (content : Content) : Resource :=
  {| LogicalPath := logicalPath; CollectionPath := ""; LocalAlias := ""; RemoteID := ""; ResolvedRemotePath := "";
     Payload := content_Value content; Res_PayloadDescriptor := content_Descriptor content |}.
Definition no_local_resources (logicalPath : string) : error :=
  NewTypedError NotFoundError ("no local resources found under " +:+ quote logicalPath) None.
Definition ListLocalTargets (orchestratorService : AppOrchestrator S) (logicalPath : string) (recursive : bool) : M (list Resource) :=
  items ← app_ListLocal orchestratorService logicalPath recursive;
  items ← (if (length items =? 0)%nat && negb recursive && (1 <? logicalPathDepth logicalPath)%nat then
             localValue ← catch (app_GetLocal orchestratorService logicalPath);
             match localValue with
             | Ok localValue => mret [bare_resource logicalPath localValue]
             | Err getErr => if negb (is_category getErr NotFoundError) then fail getErr else mret items
             end
           else mret items);
  match items with
  | [] => fail (no_local_resources logicalPath)
  | _ => mret (sort_resources items)
  end.
Definition isRepositoryNotConfiguredValidation (err : error) : bool :=
  if negb (is_category err ValidationError) then false
  else
    let message := trim_space (Error err) in
    (message == "repository store is not configured") || (message == "repository manager is not configured").
Definition ListLocalTargetsOrFallbackPath (orchestratorService : AppOrchestrator S) (logicalPath : string) (recursive : bool) : M (list Resource) :=
  let itself := [bare_resource logicalPath {| content_Value := VNil; content_Descriptor := empty_descriptor |}] in
  items ← catch (ListLocalTargets orchestratorService logicalPath recursive);
  match items with
  | Ok items => mret items
  | Err err =>
      if isRepositoryNotConfiguredValidation err then
        if recursive then fail (Invalid "flag --recursive requires a configured repository to resolve delete targets" None)
        else mret itself
      else if is_category err NotFoundError then mret itself
      else fail err
  end.
Fixpoint mutate_each (runMutation : string -> M Resource) (targets : list Resource) : M (list Resource) :=
  match targets with
  | [] => mret []
  | target :: targets =>
      item ← runMutation (LogicalPath target);
      results ← mutate_each runMutation targets;
      mret (item :: results)
  end.
Definition executeMutationForTargets (targets : list Resource) (runMutation : string -> M Resource) : M (list Resource) :=
  results ← mutate_each runMutation targets; mret (sort_resources results).
End targets.

Section mutate.
Context `{by_path : ResourceSort, UnicodeTables, TextCodecs} {S : Type} (deps : Dependencies S).
Abbreviation M := (action S).
Definition unsupported_operation (operation : string) : error := Invalid ("unsupported resource mutation operation " +:+ quote operation) None.
Definition runExplicitMutation (orchestratorService : AppOrchestrator S) (operation logicalPath : string) (v : Content) (force : bool) : M Resource :=
  if operation == OperationApply then app_ApplyWithContent orchestratorService logicalPath v force
  else if operation == MutateCreate then app_Create orchestratorService logicalPath v
  else if operation == MutateUpdate then app_Update orchestratorService logicalPath v
  else fail (unsupported_operation operation).
(** The mutation of one target, from what the repository has of it. *)
Definition run_target (orchestratorService : AppOrchestrator S) (operation : string) (force : bool) (logicalPath : string) : M Resource :=
  if operation == OperationApply then app_Apply orchestratorService logicalPath force
  else if operation == MutateCreate then
    localValue ← app_GetLocal orchestratorService logicalPath; app_Create orchestratorService logicalPath localValue
  else if operation == MutateUpdate then
    localValue ← app_GetLocal orchestratorService logicalPath; app_Update orchestratorService logicalPath localValue
  else fail (unsupported_operation operation).
Definition refresh_options : ExecuteOptions :=
  {| AsItems := false; AsOneResource := false; opt_Secret := false; AllowPlaintext := false; opt_Force := true; PruneDefaults := false;
     SecretAttributesEnabled := false; RequestedSecretAttributes := []; SkipItems := [] |}.
Fixpoint refreshRepositoryForPaths (items : list Resource) : M unit :=
  match items with
  | [] => mret tt
  | item :: items =>
      SaveResource.Execute deps (LogicalPath item) None refresh_options;;
      refreshRepositoryForPaths items
  end.
Definition MutateExecute (req : MutateRequest) : M MutateResult :=
  orchestratorService ← of_result (RequireOrchestrator deps);
  if mu_HasExplicitInput req then
    if mu_Recursive req then
      fail (Invalid ("flag --recursive cannot be combined with explicit input; remove input to " +:+ trim_space (mu_Operation req)
                     +:+ " resources from repository") None)
    else
      item ← runExplicitMutation orchestratorService (mu_Operation req) (mu_LogicalPath req) (mu_Value req) (mu_Force req);
      (if mu_RefreshLocal req then refreshRepositoryForPaths [item] else mret tt);;
      mret {| mr_ResolvedPath := mu_LogicalPath req; mr_TargetedCount := 1; mr_Items := [item] |}
  else
    targets ← ListLocalTargets orchestratorService (mu_LogicalPath req) (mu_Recursive req);
    items ← executeMutationForTargets targets (run_target orchestratorService (mu_Operation req) (mu_Force req));
    (if mu_RefreshLocal req then refreshRepositoryForPaths items else mret tt);;
    mret {| mr_ResolvedPath := mu_LogicalPath req; mr_TargetedCount := length targets; mr_Items := items |}.

(** ** Requests *)
Record CustomRequest := {
  cr_Method : string; cr_LogicalPath : string; cr_Body : Content; cr_Headers : option (gmap string string);
  cr_Accept : string; cr_ContentType : string; cr_ResolveTargets : bool; cr_Recursive : bool;
}.
Definition with_path (spec : RequestSpec) (p : string) : RequestSpec :=
  {| rs_Method := rs_Method spec; rs_Path := p; rs_Query := rs_Query spec; rs_Headers := rs_Headers spec; rs_Accept := rs_Accept spec;
     rs_ContentType := rs_ContentType spec; rs_Body := rs_Body spec |}.
Fixpoint request_each (orchestratorService : AppOrchestrator S) (baseSpec : RequestSpec) (targets : list Resource) : M (list Content) :=
  match targets with
  | [] => mret []
  | target :: targets =>
      v ← app_Request orchestratorService (with_path baseSpec (LogicalPath target));
      results ← request_each orchestratorService baseSpec targets;
      mret (v :: results)
  end.
Definition RequestExecute (req : CustomRequest) : M (list Content) :=
  orchestratorService ← of_result (RequireOrchestrator deps);
  let baseSpec := {| rs_Method := to_upper (trim_space (cr_Method req)); rs_Path := cr_LogicalPath req; rs_Query := None;
                     rs_Headers := cr_Headers req; rs_Accept := cr_Accept req; rs_ContentType := cr_ContentType req; rs_Body := cr_Body req |} in
  if negb (cr_ResolveTargets req) then v ← app_Request orchestratorService baseSpec; mret [v]
  else
    targets ← ListLocalTargetsOrFallbackPath orchestratorService (cr_LogicalPath req) (cr_Recursive req);
    request_each orchestratorService baseSpec targets.
End mutate.
