(* ===== verification/SavedSecrets.v ===== *)
(** * What the save command leaves in the repository and in the secret store

    [masked_in w' w]: the payload [w'] is [w] with strings replaced by placeholders. The save
    command keeps its payload so related to the one it was given, with every string that was
    replaced in the store under the key of its place; resolving the payload then gives back
    the original, and what is left in it is not detected as a secret. *)
From S2P Require Import Prelude GoText GoTextFacts Faults Paths Value Pointer Descriptor Codec Metadata DefaultsSpec Externalize Identity Secrets SecretsPayload Services ActionFacts AppDeps SecretWorkflow SaveResource.

(** ** Payloads with placeholders *)
Section masked.
(** [hidden ks s]: the string [s] at the keys [ks] may be replaced. *)
Context (hidden : list string -> string -> Prop).
Inductive masked_in : list string -> value -> value -> Prop :=
| masked_here ks s : hidden ks s -> masked_in ks (VString PlaceholderValue) (VString s)
| masked_same ks v : masked_in ks v v
| masked_map ks m' m : (forall k, is_Some (m' !! k) <-> is_Some (m !! k)) ->
    (forall k v' v, m' !! k = Some v' -> m !! k = Some v -> masked_in (ks ++ [k]) v' v) -> masked_in ks (VMap m') (VMap m)
| masked_list ks l' l : length l' = length l ->
    (forall i v' v, l' !! i = Some v' -> l !! i = Some v -> masked_in (ks ++ [itoa (Z.of_nat i)]) v' v) -> masked_in ks (VList l') (VList l).
Lemma masked_map_inv ks w' m : masked_in ks w' (VMap m) -> exists m', w' = VMap m' /\
  (forall k, is_Some (m' !! k) <-> is_Some (m !! k)) /\
  forall k v' v, m' !! k = Some v' -> m !! k = Some v -> masked_in (ks ++ [k]) v' v.
Proof.
  inversion 1; subst; [exists m|by eexists]. split_and!; [done..|]. intros k v' v Hv' Hv. rewrite Hv in Hv'. injection Hv' as <-. constructor.
Qed.
Lemma masked_list_inv ks w' l : masked_in ks w' (VList l) -> exists l', w' = VList l' /\ length l' = length l /\
  forall i v' v, l' !! i = Some v' -> l !! i = Some v -> masked_in (ks ++ [itoa (Z.of_nat i)]) v' v.
Proof.
  inversion 1; subst; [exists l|by eexists]. split_and!; [done..|]. intros k v' v Hv' Hv. rewrite Hv in Hv'. injection Hv' as <-. constructor.
Qed.
Lemma masked_of_map ks m' w : masked_in ks (VMap m') w -> exists m, w = VMap m /\
  (forall k, is_Some (m' !! k) <-> is_Some (m !! k)) /\
  forall k v' v, m' !! k = Some v' -> m !! k = Some v -> masked_in (ks ++ [k]) v' v.
Proof.
  inversion 1; subst; [exists m'|by eexists]. split_and!; [done..|]. intros k v' v Hv' Hv. rewrite Hv in Hv'. injection Hv' as <-. constructor.
Qed.
Lemma masked_of_list ks l' w : masked_in ks (VList l') w -> exists l, w = VList l /\ length l' = length l /\
  forall i v' v, l' !! i = Some v' -> l !! i = Some v -> masked_in (ks ++ [itoa (Z.of_nat i)]) v' v.
Proof.
  inversion 1; subst; [exists l'|by eexists]. split_and!; [done..|]. intros k v' v Hv' Hv. rewrite Hv in Hv'. injection Hv' as <-. constructor.
Qed.
(** A leaf is what it was, or the placeholder. *)
Lemma masked_leaf ks w' w : masked_in ks w' w -> as_object w = None -> as_list w = None ->
  w' = w \/ w' = VString PlaceholderValue /\ exists s, w = VString s /\ hidden ks s.
Proof. inversion 1; subst; try done; [right|left]; eauto. Qed.
End masked.
Lemma masked_weaken (P Q : list string -> string -> Prop) ks w' w : (forall ks s, P ks s -> Q ks s) -> masked_in P ks w' w -> masked_in Q ks w' w.
Proof. intros HPQ. induction 1; [by apply masked_here, HPQ|apply masked_same|by apply masked_map|by apply masked_list]. Qed.

(** ** Places, by pointer tokens *)
Lemma digit_byte_digit n : (0 <= n)%Z -> is_ascii_digit (digit_byte (n mod 10)) = true.
Proof.
  intros Hn. assert (exists i : nat, (n mod 10)%Z = Z.of_nat i /\ (i < 10)%nat) as (i & -> & Hi).
  { exists (Z.to_nat (n mod 10)). destruct (Z.mod_pos_bound n 10 eq_refl) as [H1 H2]. rewrite Z2Nat.id by done. split; [done|]. by apply Nat2Z.inj_lt; rewrite Z2Nat.id. }
  do 10 (destruct i as [|i]; [done|]). lia.
Qed.
Lemma dec_digits_digits fuel : forall n acc, (0 <= n)%Z -> all_bytes is_ascii_digit acc = true -> all_bytes is_ascii_digit (dec_digits fuel n acc) = true.
Proof.
  induction fuel as [|fuel IH]; intros n acc Hn Ha; cbn [dec_digits]; [done|].
  assert (all_bytes is_ascii_digit (String (digit_byte (n mod 10)) acc) = true) as Hd by (cbn [all_bytes]; by rewrite digit_byte_digit).
  destruct (n <? 10)%Z; [done|]. apply IH; [|done]. apply Z.div_pos; lia.
Qed.
Lemma digits_runes s : all_bytes is_ascii_digit s = true -> forallb (fun char => (48 <=? char)%Z && (char <=? 57)%Z) (runes s) = true.
Proof.
  induction s as [|c s IH]; [done|]. cbn [all_bytes]. intros [Hc Hs]%andb_true_iff. assert (is_ascii c = true) as Ha.
  { unfold is_ascii_digit, is_ascii in *. destruct c as [[] [] [] [] [] [] [] []]; try done; by vm_compute in Hc. }
  rewrite runes_ascii_cons by done. cbn [forallb]. rewrite IH, andb_true_r by done.
  unfold is_ascii_digit in Hc. destruct c as [[] [] [] [] [] [] [] []]; try done; by vm_compute in Hc.
Qed.
Lemma pointer_index_itoa l i v : fits_memory (VList l) -> l !! i = Some v -> parseJSONPointerArrayIndex (itoa (Z.of_nat i)) = Some i.
Proof.
  intros Hf Hi. pose proof (parseArrayIndex_itoa _ _ _ Hf Hi) as E. unfold parseArrayIndex in E. unfold parseJSONPointerArrayIndex.
  destruct (itoa (Z.of_nat i) == "") eqn:E0; [done|]. rewrite digits_runes.
  - cbn [negb]. destruct (parse_int64 _) as [z|]; [|done]. destruct (z <? 0)%Z; [done|]. done.
  - unfold itoa. assert ((Z.of_nat i <? 0)%Z = false) as -> by (apply Z.ltb_ge, Nat2Z.is_nonneg). apply dec_digits_digits; [lia|done].
Qed.
Section updates.
Context `{by_path : ResourceSort, UnicodeTables}.
Lemma lookup_at_path v p x : at_path v p x -> fits_memory v -> lookup_tokens v p = Some x.
Proof.
  induction 1 as [v|m k v p x Hk _ IH|l i v p x Hi _ IH]; intros Hf; [done| |]; cbn.
  - rewrite Hk. cbn. apply IH. by eapply fits_key.
  - erewrite pointer_index_itoa by done. cbn. rewrite Hi. cbn. apply IH. by eapply fits_index.
Qed.
(** The string at a place is there in the masked payload, or the placeholder is. *)
Lemma masked_at P w ts x : at_path w ts (VString x) -> forall ks w', masked_in P ks w' w ->
  at_path w' ts (VString x) \/ at_path w' ts (VString PlaceholderValue).
Proof.
  intros Hp. remember (VString x) as v eqn:Ev. induction Hp as [v|m k v ts v' Hk _ IH|l i v ts v' Hi _ IH]; intros ks w' Hm; subst.
  - apply masked_leaf in Hm as [->|[-> _]]; [left; constructor|right; constructor|done..].
  - apply masked_map_inv in Hm as (m' & -> & Hdom & Hm). destruct (proj2 (Hdom k) ltac:(eauto)) as [v0 Hv0].
    destruct (IH eq_refl _ _ (Hm k v0 v Hv0 Hk)); [left|right]; by econstructor.
  - apply masked_list_inv in Hm as (l' & -> & Hlen & Hm). destruct (l' !! i) as [v0|] eqn:Hv0.
    2: { apply lookup_ge_None in Hv0. apply lookup_lt_Some in Hi. lia. }
    destruct (IH eq_refl _ _ (Hm i v0 v Hv0 Hi)); [left|right]; by econstructor.
Qed.
Lemma map_fold_size_eq (m' m : object) : (forall k, is_Some (m' !! k) <-> is_Some (m !! k)) ->
  (forall k v' v, m' !! k = Some v' -> m !! k = Some v -> value_size v' = value_size v) ->
  map_fold (fun _ v n => value_size v + n)%nat 0%nat m' = map_fold (fun _ v n => value_size v + n)%nat 0%nat m.
Proof.
  intros Hdom Hsize. assert (value_size <$> m' = value_size <$> m) as E.
  { apply map_eq. intros k. rewrite !lookup_fmap. specialize (Hdom k). specialize (Hsize k). destruct (m' !! k) as [x|] eqn:E1, (m !! k) as [y|] eqn:E2; cbn; [f_equal; by apply Hsize| | |done].
    - destruct (proj1 Hdom) as [? ?]; eauto; done.
    - destruct (proj2 Hdom) as [? ?]; eauto; done. }
  assert (forall m : object, map_fold (fun _ v n => value_size v + n)%nat 0%nat m = map_fold (fun _ x n => x + n)%nat 0%nat (value_size <$> m)) as F.
  { intros x. rewrite map_fold_fmap. done. }
  by rewrite !F, E.
Qed.
Lemma masked_fits P ks w' w : masked_in P ks w' w -> fits_memory w -> fits_memory w'.
Proof.
  intros Hm. enough (value_size w' = value_size w) as E by (unfold fits_memory; by rewrite E).
  induction Hm as [| |ks m' m Hdom _ IH|ks l' l Hlen _ IH]; [done..| |].
  - cbn [value_size]. f_equal. by apply map_fold_size_eq.
  - cbn [value_size]. f_equal. revert l Hlen IH. clear. induction l' as [|x l' IHl]; intros [|y l] Hlen IH; [done..|]. cbn [sum_list_with]. f_equal.
    + by apply (IH 0%nat).
    + apply IHl; [by injection Hlen|]. intros i v' v. apply (IH (S i)).
Qed.
(** A string becomes a placeholder. *)
Lemma masked_set P w ts x : at_path w ts (VString x) -> fits_memory w -> forall ks w' w'', masked_in P ks w' w -> P (ks ++ ts) x ->
  setJSONPointerValue w' ts (VString PlaceholderValue) = Ok w'' -> masked_in P ks w'' w.
Proof.
  intros Hp. remember (VString x) as v eqn:Ev. induction Hp as [v|m k v ts v' Hk _ IH|l i v ts v' Hi _ IH]; intros Hf ks w' w'' Hm HP Hset; subst.
  - injection Hset as <-. rewrite app_nil_r in HP. by constructor.
  - apply masked_map_inv in Hm as (m' & -> & Hdom & Hm). replace (ks ++ k :: ts) with ((ks ++ [k]) ++ ts) in HP by by rewrite <-app_assoc.
    apply set_cons in Hset as [(j & l & next & _ & [?|[? _]] & _)|(m0 & next & _ & [[= <-]|[? _]] & Hn & ->)]; try done.
    destruct (proj2 (Hdom k) ltac:(eauto)) as [y Hy]. rewrite Hy in Hn. apply masked_map.
    + intros k'. rewrite <-Hdom. destruct (decide (k = k')) as [<-|]; [rewrite lookup_insert_eq, Hy; split; eauto|by rewrite lookup_insert_ne].
    + intros k' v' v0 Hv' Hv. destruct (decide (k = k')) as [<-|Hne]; [|rewrite lookup_insert_ne in Hv' by done; by eapply Hm].
      rewrite lookup_insert_eq in Hv'. injection Hv' as <-. rewrite Hk in Hv. injection Hv as <-.
      eapply IH; [done|by eapply fits_key| |exact HP|exact Hn]. by eapply Hm.
  - apply masked_list_inv in Hm as (l' & -> & Hlen & Hm). replace (ks ++ itoa (Z.of_nat i) :: ts) with ((ks ++ [itoa (Z.of_nat i)]) ++ ts) in HP by by rewrite <-app_assoc.
    apply set_cons in Hset as [(j & l0 & next & Hj & [[= <-]|[? _]] & Hn & ->)|(m0 & next & Hj & _)]; try done;
      erewrite pointer_index_itoa in Hj by done; [|done]. injection Hj as <-.
    destruct (l' !! i) as [y|] eqn:Hy. 2: { apply lookup_ge_None in Hy. apply lookup_lt_Some in Hi. lia. }
    assert (grow l' i = l') as ->.
    { unfold grow. apply lookup_lt_Some in Hy. replace (S i - length l')%nat with 0%nat by lia. apply app_nil_r. }
    apply masked_list; [by rewrite length_insert|].
    intros j v' v0 Hv' Hv. destruct (decide (i = j)) as [<-|Hij]; [|rewrite list_lookup_insert_ne in Hv' by done; by eapply Hm].
    rewrite list_lookup_insert_eq in Hv' by by eapply lookup_lt_Some. injection Hv' as <-. rewrite Hi in Hv. injection Hv as <-.
    eapply IH; [done|by eapply fits_index| |exact HP|exact Hn]. by eapply Hm.
Qed.
(** A place that holds a string holds it, or the new string, after another was replaced. *)
Lemma set_string ts c : forall us root r a b, lookup_tokens root us = Some (VString a) -> lookup_tokens root ts = Some (VString b) ->
  setJSONPointerValue root ts (VString c) = Ok r -> lookup_tokens r us = Some (VString a) \/ lookup_tokens r us = Some (VString c).
Proof.
  induction ts as [|t ts IH]; intros us root r a b Hu Ht Hset.
  { injection Ht as ->. injection Hset as <-. destruct us as [|u us]; [by right|done]. }
  apply set_cons in Hset as [(i & l & next & Hi & [->|[-> ->]] & Hn & ->)|(m & next & Hi & [->|[-> ->]] & Hn & ->)]; try done;
    destruct us as [|u us]; try done; cbn in Hu, Ht |- *.
  - rewrite Hi in Ht. cbn in Ht. destruct (l !! i) as [y|] eqn:Hy; [|done]. cbn in Ht, Hn.
    destruct (parseJSONPointerArrayIndex u) as [j|] eqn:Hj; [|done]. cbn in Hu |- *.
    destruct (decide (i = j)) as [<-|Hij].
    + rewrite list_lookup_insert_eq by apply grow_length. rewrite Hy in Hu. cbn in Hu |- *. by eapply IH.
    + rewrite list_lookup_insert_ne by done. destruct (l !! j) as [z|] eqn:Hz; [|done]. rewrite (grow_lookup _ _ _ _ Hz). by left.
  - destruct (m !! t) as [y|] eqn:Hy; [|done]. cbn in Ht, Hn. destruct (decide (t = u)) as [<-|Hne].
    + rewrite lookup_insert_eq. rewrite Hy in Hu. cbn in Hu |- *. by eapply IH.
    + rewrite lookup_insert_ne by done. by left.
Qed.
End updates.

(** ** Keys of the store *)
Section keys.
Context `{by_path : ResourceSort, UnicodeTables}.
Definition scoped_key (p : string) (ts : list string) : string := BuildPathScopedSecretKey p (JSONPointerFromTokens ts).
Definition scope_segments (qs : list string) : list string :=
  match last qs with Some s => removelast qs ++ [s +:+ ":"] | None => [":"] end.
Lemma pointer_last ts : ts <> [] -> Forall plain_key ts ->
  exists u d, JSONPointerFromTokens ts = u +:+ String d "" /\ is_ascii d = true /\ is_ascii_space d = false.
Proof.
  intros Hne Hts. destruct (exists_last Hne) as (l & k & ->). apply Forall_app in Hts as [_ Hk]. rewrite Forall_singleton in Hk.
  rewrite pointer_snoc. destruct (plain_key_last k Hk) as (s & c & -> & Hc). destruct Hk as (_ & _ & Ha).
  destruct (escape_last s c Ha) as (u & d & -> & Hd & Hs). exists (JSONPointerFromTokens l +:+ "/" +:+ u), d. split_and!; [by str|done|].
  destruct (is_ascii_space d); [|done]. by rewrite Hs in Hc.
Qed.
Lemma scope_segments_spec qs : Forall clean_segment qs -> path_of qs +:+ ":" = "/" +:+ str_join "/" (scope_segments qs) /\
  scope_segments qs <> [] /\ Forall (fun s => s <> "") (scope_segments qs) /\ Forall (no_sep slash) (scope_segments qs).
Proof.
  unfold scope_segments. induction qs as [|s l _] using rev_ind; intros Hq.
  { split_and!; [done..|by apply Forall_singleton|by apply Forall_singleton]. }
  rewrite last_snoc, removelast_last. apply Forall_app in Hq as [Hl Hs]. rewrite Forall_singleton in Hs.
  assert (no_sep slash (s +:+ ":")) as Hn. { apply no_sep_app. split; [apply Hs|done]. }
  split_and!.
  - unfold path_of. destruct l as [|x l]; [by str|]. rewrite !str_join_snoc by done. by str.
  - by destruct l.
  - apply Forall_app. split; [by apply clean_segments_nonempty|]. apply Forall_singleton. by destruct s.
  - apply Forall_app. split; [by apply clean_segments_no_sep|]. by apply Forall_singleton.
Qed.
Lemma scoped_key_normal qs ts n : Forall clean_segment qs -> trimmed (path_of qs) -> Forall plain_key ts -> ts <> [] ->
  NormalizeKey (scoped_key (path_of qs) ts) = Ok n -> "/" +:+ n = scoped_key (path_of qs) ts.
Proof.
  intros Hq Hp Hts Hne. unfold scoped_key, BuildPathScopedSecretKey. rewrite (trim_space_id _ Hp), (trim_space_id (JSONPointerFromTokens ts)) by by apply pointer_trimmed.
  destruct (scope_segments_spec qs Hq) as (E & Hsne & Hnone & Hsep). destruct ts as [|t ts]; [done|]. rewrite <-str_app_assoc, E, pointer_join.
  set (es := map EscapeJSONPointerToken (t :: ts)).
  assert (Forall (fun s => s <> "") es) as He by (apply Forall_fmap; eapply Forall_impl; [exact Hts|]; intros x (Hx & _); by apply escape_nonempty).
  assert (Forall (no_sep slash) es) as Hes by (apply Forall_fmap, Forall_true; intros; apply escape_no_slash).
  assert (("/" +:+ str_join "/" (scope_segments qs)) +:+ "/" +:+ str_join "/" es = "/" +:+ str_join "/" (scope_segments qs ++ es)) as ->.
  { rewrite str_join_app by (done || by subst es). by str. }
  unfold NormalizeKey.
  assert (trimmed ("/" +:+ str_join "/" (scope_segments qs ++ es))) as Ht.
  { split; [by apply leads_space_solid|]. rewrite str_join_app by (done || by subst es).
    destruct (pointer_last (t :: ts)) as (u & d & Eu & Hd & Hs); [done..|]. rewrite pointer_join in Eu. fold es in Eu.
    assert ("/" +:+ str_join "/" (scope_segments qs) +:+ "/" +:+ str_join "/" es = ("/" +:+ str_join "/" (scope_segments qs) +:+ u) +:+ String d "") as ->.
    { rewrite Eu. by str. }
    by rewrite trails_space_ascii. }
  rewrite (trim_space_id _ Ht), trim_slashes_join by (try apply Forall_app; try done; by destruct (scope_segments qs)).
  destruct (_ == ""); [done|]. rewrite split_on_join by (try apply Forall_app; try done; by destruct (scope_segments qs)).
  destruct (existsb _ _); [done|]. by intros [= <-].
Qed.
Lemma scoped_key_inj qs ts ts' : Forall clean_segment qs -> trimmed (path_of qs) -> Forall plain_key ts -> Forall plain_key ts' -> ts <> [] -> ts' <> [] ->
  is_ok (NormalizeKey (scoped_key (path_of qs) ts)) = true ->
  NormalizeKey (scoped_key (path_of qs) ts) = NormalizeKey (scoped_key (path_of qs) ts') -> ts = ts'.
Proof.
  intros Hq Hp H1 H2 N1 N2 Hv E. destruct (NormalizeKey (scoped_key (path_of qs) ts)) as [n|] eqn:E1; [|done]. symmetry in E.
  apply scoped_key_normal in E1, E; [|done..]. rewrite E1 in E. unfold scoped_key, BuildPathScopedSecretKey in E.
  rewrite (trim_space_id (JSONPointerFromTokens ts)), (trim_space_id (JSONPointerFromTokens ts')) in E by by apply pointer_trimmed.
  apply pointer_inj. simplify_eq. done.
Qed.
End keys.

(** ** Resolving *)
Section resolving.
Context `{by_path : ResourceSort, UnicodeTables} (qs : list string) (get : string -> result error string).
Abbreviation p := (path_of qs).
(** The secret of a place is what the store has under its key. *)
Definition stored (ks : list string) (s : string) : Prop := ks <> [] /\ get (scoped_key p ks) = Ok s.
Definition consistent_cache (cache : gmap string string) : Prop := forall k s, cache !! k = Some s -> get k = Ok s.
Lemma resolve_scoped depth ks cache s : stored ks s -> Forall plain_key ks -> consistent_cache cache ->
  exists cache', resolvePayloadValue (S depth) (VString PlaceholderValue) (JSONPointerFromTokens ks) (trim_space p) get cache = Ok (VString s, cache')
  /\ consistent_cache cache'.
Proof.
  intros [Hne Hget] Hks Hc. cbn [resolvePayloadValue]. change PlaceholderValue with currentScopeSecretPlaceholder. rewrite parse_current. cbn [mbind result_bind].
  unfold resolvePlaceholderStoreKey, resolvePlaceholderAttribute. rewrite trim_space_idemp.
  assert (trim_space (JSONPointerFromTokens ks) = JSONPointerFromTokens ks) as Et by by apply trim_space_id, pointer_trimmed. rewrite Et.
  rewrite (bool_decide_false (JSONPointerFromTokens ks = "")) by (destruct ks; [done|by rewrite pointer_join]). cbn [mbind result_bind].
  rewrite (bool_decide_false (trim_space p = "")) by by apply trim_space_solid_nonempty. cbn [mbind result_bind].
  unfold scoped_key, BuildPathScopedSecretKey in Hget. rewrite Et in Hget.
  destruct (cache !! _) as [x|] eqn:E; [apply Hc in E; rewrite Hget in E; injection E as ->; eauto|]. rewrite Hget. cbn [mbind result_bind].
  eexists. split; [done|]. intros k x [[<- <-]|[_ Hk]]%lookup_insert_Some; [done|by apply Hc].
Qed.
Lemma resolve_masked_in depth : forall w' w ks cache, masked_in stored ks w' w -> plain_payload w -> Forall plain_key ks -> fits depth w -> consistent_cache cache ->
  exists cache', resolvePayloadValue depth w' (JSONPointerFromTokens ks) (trim_space p) get cache = Ok (w, cache') /\ consistent_cache cache'.
Proof.
  induction depth as [|depth IH]; intros w' w ks cache Hm Hp Hks Hfit Hc; [done|].
  destruct w; try (apply masked_leaf in Hm as [->|(_ & s' & [=] & _)]; [|done..]; by exists cache).
  - apply masked_leaf in Hm as [->|(-> & s' & [= <-] & Hs)]; [|by apply resolve_scoped|done..].
    exists cache. split; [|done]. cbn [resolvePayloadValue]. by rewrite (plain_strings _ Hp) by apply sub_refl.
  - apply masked_list_inv in Hm as (l' & -> & Hlen & Hm). cbn [resolvePayloadValue].
    edestruct (each_index_total (fun key item cache =>
      resolvePayloadValue depth item (joinAttributePath (JSONPointerFromTokens ks) key) (trim_space p) get cache)
      consistent_cache l' l 0 cache) as (cache' & E & Hc'); [done|done| |rewrite E; cbn [mbind result_bind]; eauto].
    intros i x c Hx Hcs. destruct (l !! i) as [y|] eqn:Hy.
    2: { apply lookup_ge_None in Hy. apply lookup_lt_Some in Hx. lia. }
    rewrite Z.add_0_l, joinAttributePath_pointer by (done || apply index_plain).
    destruct (IH x y (ks ++ [itoa (Z.of_nat i)]) c) as (c' & Hr & Hcs'); [by eapply Hm|by eapply plain_payload_index| |by eapply Forall_lookup_1|done|].
    { apply Forall_app. split; [done|]. apply Forall_singleton, index_plain. }
    exists y, c'. done.
  - apply masked_map_inv in Hm as (m' & -> & Hdom & Hm). cbn [resolvePayloadValue].
    edestruct (each_key_total_sorted (fun key item cache =>
      resolvePayloadValue depth item (joinAttributePath (JSONPointerFromTokens ks) key) (trim_space p) get cache)
      consistent_cache m' m cache) as (cache' & E & Hc'); [exact Hdom|done| |rewrite E; cbn [mbind result_bind]; eauto].
    intros k x c Hx Hcs. destruct (proj1 (Hdom k) ltac:(eauto)) as [y Hy]. destruct (plain_payload_key _ _ _ Hp Hy) as [Hpk Hpy].
    rewrite joinAttributePath_pointer by done.
    destruct (IH x y (ks ++ [k]) c) as (c' & Hr & Hcs'); [by eapply Hm|done| |by eapply Hfit|done|].
    { apply Forall_app. split; [done|by apply Forall_singleton]. }
    exists y, c'. done.
Qed.
End resolving.

(** ** Normal payloads *)
Lemma masked_normal P ks w' w : masked_in P ks w' w -> normal w -> normal w'.
Proof.
  induction 1 as [| |ks m' m Hdom _ IH|ks l' l Hlen _ IH]; intros Hn; [constructor|done| |].
  - apply normal_map_inv in Hn. constructor. intros k v' Hv'. destruct (proj1 (Hdom k) ltac:(eauto)) as [v Hv]. eapply IH; [done..|by eapply Hn].
  - apply normal_list_inv in Hn. constructor. apply Forall_lookup. intros i v' Hv'. destruct (l !! i) as [v|] eqn:Hv.
    2: { apply lookup_ge_None in Hv. apply lookup_lt_Some in Hv'. lia. }
    eapply IH; [done..|]. by eapply Forall_lookup_1.
Qed.

(** ** Places of string fields *)
Section places.
Context `{by_path : ResourceSort, UnicodeTables}.
Lemma at_path_plain v ts x : at_path v ts x -> plain_payload v -> Forall plain_key ts.
Proof.
  induction 1 as [v|m k v p x Hk _ IH|l i v p x Hi _ IH]; intros Hp; [constructor| |].
  - destruct (plain_payload_key _ _ _ Hp Hk). constructor; auto.
  - constructor; [apply index_plain|]. apply IH. by eapply plain_payload_index.
Qed.
Lemma at_path_subvalue v ts x : at_path v ts x -> subvalue x v.
Proof. induction 1; [apply sub_refl|by eapply sub_map|]. eapply sub_list; [by eapply list_elem_of_lookup_2|done]. Qed.
Lemma string_field_at v prefix key path s : string_field v prefix key path s ->
  forall ks, prefix = JSONPointerFromTokens ks -> Forall plain_key ks -> plain_payload v ->
  exists ts, ts <> [] /\ path = JSONPointerFromTokens (ks ++ ts) /\ at_path v ts (VString s).
Proof.
  induction 1 as [m prefix key s Hm|m prefix k v key path s Hk _ IH|l prefix i v key path s Hi _ IH]; intros ks -> Hks Hp.
  - destruct (plain_payload_key _ _ _ Hp Hm) as [Hpk _]. exists [key]. split_and!; [done|by apply joinAttributePath_pointer|]. econstructor; [done|constructor].
  - destruct (plain_payload_key _ _ _ Hp Hk) as [Hpk Hpv]. destruct (IH (ks ++ [k])) as (ts & Hne & -> & Hat); [by apply joinAttributePath_pointer|by apply Forall_app; split; [|apply Forall_singleton]|done|].
    exists (k :: ts). split_and!; [done|by rewrite <-app_assoc|by econstructor].
  - destruct (IH (ks ++ [itoa (Z.of_nat i)])) as (ts & Hne & -> & Hat); [apply joinAttributePath_pointer; [done|apply index_plain]| |by eapply plain_payload_index|].
    { apply Forall_app; split; [done|apply Forall_singleton, index_plain]. }
    exists (itoa (Z.of_nat i) :: ts). split_and!; [done|by rewrite <-app_assoc|by econstructor].
Qed.
(** What is left of a masked payload was there before. *)
Lemma masked_string_field P w' prefix key path s : string_field w' prefix key path s -> s <> PlaceholderValue ->
  forall ks w, masked_in P ks w' w -> string_field w prefix key path s.
Proof.
  induction 1 as [m prefix key s Hm|m prefix k v key path s Hk _ IH|l prefix i v key path s Hi _ IH]; intros Hs ks w Hw.
  - apply masked_of_map in Hw as (m0 & -> & Hdom & Hw). destruct (proj1 (Hdom key) ltac:(eauto)) as [v0 Hv0].
    apply field_here. specialize (Hw _ _ _ Hm Hv0). rewrite Hv0. inversion Hw; subst; congruence.
  - apply masked_of_map in Hw as (m0 & -> & Hdom & Hw). destruct (proj1 (Hdom k) ltac:(eauto)) as [v0 Hv0]. eapply field_key; eauto.
  - apply masked_of_list in Hw as (l0 & -> & Hlen & Hw). destruct (l0 !! i) as [v0|] eqn:Hv0.
    2: { apply lookup_ge_None in Hv0. apply lookup_lt_Some in Hi. lia. }
    eapply field_index; eauto.
Qed.
Lemma masked_field_at P w' prefix key path s : string_field w' prefix key path s -> s <> PlaceholderValue ->
  forall ks w, masked_in P ks w' w -> prefix = JSONPointerFromTokens ks -> Forall plain_key ks -> plain_payload w ->
  exists ts, ts <> [] /\ path = JSONPointerFromTokens (ks ++ ts) /\ at_path w' ts (VString s) /\ at_path w ts (VString s).
Proof.
  induction 1 as [m prefix key s Hm|m prefix k v key path s Hk _ IH|l prefix i v key path s Hi _ IH]; intros Hs ks w Hw -> Hks Hp.
  - apply masked_of_map in Hw as (m0 & -> & Hdom & Hw). destruct (proj1 (Hdom key) ltac:(eauto)) as [v0 Hv0].
    destruct (plain_payload_key _ _ _ Hp Hv0) as [Hpk _]. specialize (Hw _ _ _ Hm Hv0). exists [key].
    assert (v0 = VString s) as -> by (inversion Hw; subst; congruence).
    split_and!; [done|by apply joinAttributePath_pointer|econstructor; [done|constructor]..].
  - apply masked_of_map in Hw as (m0 & -> & Hdom & Hw). destruct (proj1 (Hdom k) ltac:(eauto)) as [v0 Hv0].
    destruct (plain_payload_key _ _ _ Hp Hv0) as [Hpk Hpv]. specialize (Hw _ _ _ Hk Hv0).
    destruct (IH Hs _ _ Hw) as (ts & Hne & -> & Ha & Hb); [by apply joinAttributePath_pointer|by apply Forall_app; split; [|apply Forall_singleton]|done|].
    exists (k :: ts). split_and!; [done|by rewrite <-app_assoc|by econstructor..].
  - apply masked_of_list in Hw as (l0 & -> & Hlen & Hw). destruct (l0 !! i) as [v0|] eqn:Hv0.
    2: { apply lookup_ge_None in Hv0. apply lookup_lt_Some in Hi. lia. }
    specialize (Hw _ _ _ Hi Hv0). destruct (IH Hs _ _ Hw) as (ts & Hne & -> & Ha & Hb); [apply joinAttributePath_pointer; [done|apply index_plain]| |by eapply plain_payload_index|].
    { apply Forall_app; split; [done|apply Forall_singleton, index_plain]. }
    exists (itoa (Z.of_nat i) :: ts). split_and!; [done|by rewrite <-app_assoc|by econstructor..].
Qed.
Lemma masked_lookup P ts : forall ks w' w y', masked_in P ks w' w -> lookup_tokens w' ts = Some y' ->
  exists y us, lookup_tokens w ts = Some y /\ masked_in P us y' y.
Proof.
  induction ts as [|t ts IH]; intros ks w' w y' Hm Hl.
  { injection Hl as <-. by exists w, ks. }
  destruct w' as [| | | | | | | | | | | |l'|m'| | | |]; try done; cbn [lookup_tokens] in Hl.
  - apply masked_of_list in Hm as (l & -> & Hlen & Hm). cbn [lookup_tokens]. destruct (parseJSONPointerArrayIndex t) as [i|]; [|done]. cbn in Hl |- *.
    destruct (l' !! i) as [x'|] eqn:Hx'; [|done]. destruct (l !! i) as [x|] eqn:Hx. 2: { apply lookup_ge_None in Hx. apply lookup_lt_Some in Hx'. lia. }
    cbn in Hl |- *. by eapply IH; [eapply Hm|].
  - apply masked_of_map in Hm as (m & -> & Hdom & Hm). cbn [lookup_tokens]. destruct (m' !! t) as [x'|] eqn:Hx'; [|done]. destruct (proj1 (Hdom t) ltac:(eauto)) as [x Hx].
    rewrite Hx. cbn in Hl |- *. by eapply IH; [eapply Hm|].
Qed.
(** A payload that is searched for secrets is not too deep. *)
Lemma collectDetectedCandidates_fits depth : forall v prefix st st', collectDetectedCandidates depth v prefix st = Ok st' -> fits depth v.
Proof.
  assert (PreOrder (fun _ _ : gset string => True)) as HR by done.
  induction depth as [|depth IH]; intros v prefix st st' Hc; [done|]. cbn [collectDetectedCandidates] in Hc. destruct v; try done.
  - apply bind_Ok in Hc as ([r st1] & He & _). apply (each_index_visit _ (fun _ _ => True)) in He as (_ & _ & V3); [|done].
    cbn [fits]. apply Forall_lookup. intros i x Hx. destruct (V3 _ _ Hx) as (c & s1 & s2 & Hv & _). apply bind_Ok in Hv as (s3 & Hv & _). by eapply IH.
  - apply bind_Ok in Hc as ([r st1] & He & _). apply (each_key_visit _ (fun _ _ => True)) in He as (_ & V2 & _); [|apply sorted_keys_NoDup|done].
    cbn [fits]. intros k x Hx. destruct (V2 _ _ (proj2 (elem_of_sorted_keys _ _) (ex_intro _ _ Hx)) Hx) as (c & s1 & s2 & Hv & _).
    apply bind_Ok in Hv as (s3 & _ & Hv). apply bind_Ok in Hv as (s4 & Hv & _). by eapply IH.
Qed.
End places.
