(* ===== verification/SaveRoundTrip.v ===== *)
(** * What is saved is shown again, and hides its secrets

    The save command takes the declared secrets of a payload to the secret store and leaves
    placeholders. With a store that keeps what it is given, reading the resource with its
    secrets gives the payload back; what was saved is not taken for plain text; and reading
    it without its secrets shows no declared attribute in clear. *)
From S2P Require Import Prelude GoText GoTextFacts Faults Paths Value Pointer Descriptor Codec Metadata DefaultsSpec TemplateSyntax Externalize Identity OperationSpec RuntimeMetadata Secrets SecretsPayload Services ActionFacts AppDeps SecretWorkflow SaveResource SavedSecrets ReadResource.

(** ** Lists of attributes *)
Section attributes.
Context `{by_path : ResourceSort, UnicodeTables}.
Lemma elem_of_dedupe l x : x ∈ DedupeAndSortAttributes l <-> x <> "" /\ exists y, y ∈ l /\ x = trim_space y.
Proof.
  unfold DedupeAndSortAttributes. rewrite elem_of_sort_strings, elem_of_collect_fresh, list_elem_of_filter, list_elem_of_fmap.
  split; [intros [Hx|(? & y & -> & Hy)]; [by apply not_elem_of_nil in Hx|eauto]|]. intros (? & y & ? & ->). right. eauto.
Qed.
Lemma elem_of_dedupe_trimmed l x : x <> "" -> trimmed x -> x ∈ l -> x ∈ DedupeAndSortAttributes l.
Proof. intros Hne Ht Hx. apply elem_of_dedupe. split; [done|]. exists x. by rewrite trim_space_id. Qed.
Lemma elem_of_union_sorted a b x : x ∈ union_sorted a b <-> x ∈ a \/ x ∈ b.
Proof. unfold union_sorted. rewrite elem_of_sort_strings, elem_of_elements, elem_of_union, !elem_of_list_to_set. done. Qed.
Lemma elem_of_intersect a b x : x ∈ intersectSaveSecretCandidates a b <-> x ∈ DedupeAndSortAttributes a /\ x ∈ DedupeAndSortAttributes b.
Proof. unfold intersectSaveSecretCandidates. rewrite list_elem_of_filter. unfold dedupeAndSortSaveSecretAttributes. tauto. Qed.
Lemma elem_of_resolved v l x : x ∈ ResolveAttributePathsForCandidates v l <->
  x <> "" /\ holds_secret v x = true /\ exists y, y ∈ l /\ x = trim_space y.
Proof.
  unfold ResolveAttributePathsForCandidates. rewrite elem_of_sort_strings, elem_of_elements, elem_of_list_to_set, list_elem_of_filter, list_elem_of_fmap.
  naive_solver.
Qed.
Lemma elem_of_metadata_candidates m l x : x ∈ DetectMetadataSecretCandidates (VMap m) l <->
  holds_plaintext (VMap m) x = true /\ x <> "" /\ exists y, y ∈ l /\ x = trim_space y.
Proof.
  cbn [DetectMetadataSecretCandidates]. rewrite elem_of_sort_strings, list_elem_of_filter, elem_of_collect_fresh, list_elem_of_filter, list_elem_of_fmap.
  split; [|naive_solver]. intros (? & [Hx|?]); [by apply not_elem_of_nil in Hx|naive_solver].
Qed.
Lemma placeholder_is_placeholder : IsPlaceholderValue PlaceholderValue = true.
Proof. vm_compute. reflexivity. Qed.
Lemma attribute_text_string v ts x : trimmed (JSONPointerFromTokens ts) -> lookup_tokens v ts = Some (VString x) ->
  attribute_text v (JSONPointerFromTokens ts) = if trim_space x == "" then None else Some x.
Proof.
  intros Ht Hx. unfold attribute_text, LookupJSONPointerString, LookupJSONPointer. rewrite ParseJSONPointer_tokens by done. cbn [mbind result_bind].
  rewrite Hx. cbn [jsonPointerScalarString]. case_bool_decide as E; cbn [negb]; [subst x|done]. by rewrite bool_decide_true.
Qed.
End attributes.

Lemma attribute_text_below `{by_path : ResourceSort, UnicodeTables} P ks v w a text : masked_in P ks v w -> attribute_text v a = Some text ->
  attribute_text w a = Some text \/ text = PlaceholderValue.
Proof.
  intros Hm. unfold attribute_text, LookupJSONPointerString, LookupJSONPointer. destruct (ParseJSONPointer a) as [ts|]; [|done]. cbn [mbind result_bind].
  destruct (lookup_tokens v ts) as [y'|] eqn:Hl; [|done]. destruct (masked_lookup _ _ _ _ _ _ Hm Hl) as (y & us & -> & Hy).
  inversion Hy; subst; [|by left|done..]. intros Ht. right. vm_compute in Ht. by injection Ht as <-.
Qed.
(** ** Taking secrets to the store *)
(** A provider keeps what it is given, under normalized keys, and leaves metadata alone. *)
Class SecretProviderLaws `{by_path : ResourceSort, UnicodeTables} {S} (deps : Dependencies S) (provider : AppSecretProvider S) := {
  provider_detects : forall v, secret_DetectSecretCandidates provider v = DetectSecretCandidates v;
  stored_valid : forall k x s s', secret_Store provider k x s = Some (Ok tt, s') -> is_ok (NormalizeKey k) = true;
  stored_get : forall k x s s' k', secret_Store provider k x s = Some (Ok tt, s') ->
    secret_Get provider s' k' = if NormalizeKey k' == NormalizeKey k then Ok x else secret_Get provider s k';
  stored_metadata : forall k x s s' path, secret_Store provider k x s = Some (Ok tt, s') ->
    resolveMetadataForSecretCheck deps path s' = resolveMetadataForSecretCheck deps path s;
}.
Section storing.
Context `{by_path : ResourceSort, UnicodeTables} {S : Type} (deps : Dependencies S) (provider : AppSecretProvider S) `{!SecretProviderLaws deps provider}.
Context (qs : list string) (w : value).
Abbreviation p := (path_of qs).
Context (Hqs : Forall clean_segment qs) (Hp : trimmed p) (Hplain : plain_payload w) (Hfit : fits_memory w).
(** The text of a place of the payload that is in the store under the key of the place. *)
Definition hidden (s : S) (ks : list string) (x : string) : Prop :=
  ks <> [] /\ at_path w ks (VString x) /\ secret_Get provider s (scoped_key p ks) = Ok x.
Lemma hidden_kept ts x s s' : ts <> [] -> at_path w ts (VString x) -> secret_Store provider (scoped_key p ts) x s = Some (Ok tt, s') ->
  hidden s' ts x /\ forall ks y, hidden s ks y -> hidden s' ks y.
Proof.
  intros Hne Hat Hst. assert (forall k, secret_Get provider s' k = if NormalizeKey k == NormalizeKey (scoped_key p ts) then Ok x else secret_Get provider s k) as Hget
    by (intros k; by eapply stored_get). split.
  - split_and!; [done..|]. by rewrite Hget, bool_decide_true.
  - intros ks y (Hk & Hy & Hs). split_and!; [done..|]. rewrite Hget. case_bool_decide as E; [|done].
    assert (ts = ks) as <-.
    { eapply scoped_key_inj; [done..|by eapply at_path_plain|by eapply at_path_plain|done|done|by eapply stored_valid|done]. }
    pose proof (at_path_functional _ _ _ Hat _ Hfit Hy). congruence.
Qed.
Lemma StoreAndMaskAttribute_spec ts x payload s payload' s' : ts <> [] -> at_path w ts (VString x) -> masked_in (hidden s) [] payload w ->
  StoreAndMaskAttribute provider payload p (JSONPointerFromTokens ts) s = Some (Ok payload', s') ->
  masked_in (hidden s') [] payload' w
  /\ (forall path, resolveMetadataForSecretCheck deps path s' = resolveMetadataForSecretCheck deps path s)
  /\ (forall us y, at_path w us (VString y) -> lookup_tokens payload us = Some (VString PlaceholderValue) -> lookup_tokens payload' us = Some (VString PlaceholderValue))
  /\ (trim_space x <> "" -> IsPlaceholderValue x = false -> lookup_tokens payload' ts = Some (VString PlaceholderValue)).
Proof.
  intros Hne Hat Hm. assert (Forall plain_key ts) as Hts by by eapply at_path_plain. pose proof (pointer_trimmed ts Hts) as Ht.
  assert (exists z, lookup_tokens payload ts = Some (VString z) /\ (z = x \/ z = PlaceholderValue)) as (z & Hz & Hzx).
  { destruct (masked_at _ _ _ _ Hat _ _ Hm) as [Hz|Hz]; eapply lookup_at_path in Hz; [eauto|by eapply masked_fits|eauto|by eapply masked_fits]. }
  unfold StoreAndMaskAttribute. rewrite (attribute_text_string _ ts z) by done. case_bool_decide as Eb.
  { intros [= <- <-]. split_and!; [done..|]. intros Hx _. destruct Hzx as [->| ->]; [done|by vm_compute in Eb]. }
  destruct (IsPlaceholderValue z) eqn:Ez.
  { intros [= <- <-]. split_and!; [done..|]. intros _ Hx. destruct Hzx as [->| ->]; [congruence|done]. }
  assert (z = x) as ->. { destruct Hzx as [? | ->]; [done|]. by rewrite placeholder_is_placeholder in Ez. }
  intros ([] & s1 & Hst & Hset)%bind_inv. apply of_result_inv in Hset as [Hset ->]. apply hidden_kept in Hst as Hh; [|done..]. destruct Hh as [Hh Hkept].
  unfold SetJSONPointerValue in Hset. rewrite ParseJSONPointer_tokens in Hset by done. cbn [mbind result_bind] in Hset. split_and!.
  - eapply masked_set; [exact Hat|done|eapply masked_weaken; [exact Hkept|exact Hm]|exact Hh|exact Hset].
  - intros path. by eapply stored_metadata.
  - intros us y Hu Hus. by destruct (set_string ts _ us _ _ _ _ Hus Hz Hset) as [?|?].
  - intros _ _. by eapply lookup_set_same.
Qed.
(** The attributes are places of texts. *)
Definition text_attributes (attributes : list string) : Prop :=
  Forall (fun a => exists ts x, ts <> [] /\ a = JSONPointerFromTokens ts /\ at_path w ts (VString x)) attributes.
Lemma store_attributes_spec attributes : forall payload s payload' s', text_attributes attributes -> masked_in (hidden s) [] payload w ->
  store_attributes provider p attributes payload s = Some (Ok payload', s') ->
  masked_in (hidden s') [] payload' w
  /\ (forall path, resolveMetadataForSecretCheck deps path s' = resolveMetadataForSecretCheck deps path s)
  /\ (forall us y, at_path w us (VString y) -> lookup_tokens payload us = Some (VString PlaceholderValue) -> lookup_tokens payload' us = Some (VString PlaceholderValue))
  /\ (forall ts x, JSONPointerFromTokens ts ∈ attributes -> at_path w ts (VString x) -> trim_space x <> "" -> IsPlaceholderValue x = false ->
      lookup_tokens payload' ts = Some (VString PlaceholderValue)).
Proof.
  induction attributes as [|a attributes IH]; intros payload s payload' s' Ha Hm Hrun; cbn [store_attributes] in Hrun.
  { injection Hrun as <- <-. split_and!; [done..|]. intros ts x Hin. by apply not_elem_of_nil in Hin. }
  apply Forall_cons in Ha as [(ts & x & Hne & -> & Hat) Ha]. apply bind_inv in Hrun as (payload1 & s1 & H1 & Hrun).
  apply StoreAndMaskAttribute_spec with (x := x) in H1 as (M1 & D1 & K1 & P1); [|done..].
  apply IH in Hrun as (M2 & D2 & K2 & P2); [|done..]. split_and!; [done|intros path; by rewrite D2, D1|intros us y Hu Hus; eapply K2, K1; eauto|].
  intros us y [E|Hin]%elem_of_cons Hu Hy Hp'; [|by eapply P2]. apply pointer_inj in E as ->.
  assert (x = y) as -> by (pose proof (at_path_functional _ _ _ Hat _ Hfit Hu); congruence). eapply K2; [exact Hu|by apply P1].
Qed.
End storing.

(** ** The secrets of one payload *)
Section one_payload.
#[local] Opaque max_depth.
Context `{by_path : ResourceSort, UnicodeTables, TextCodecs} {S : Type} (deps : Dependencies S) (provider : AppSecretProvider S) `{!SecretProviderLaws deps provider}.
Context (Hprovider : deps_SecretProvider deps = Some provider).
Context (qs : list string) (w : value) (md : ResourceMetadata).
Abbreviation p := (path_of qs).
Context (Hqs : Forall clean_segment qs) (Hp : trimmed p) (Hnormal : normal w) (Hplain : plain_payload w) (Hfit : fits_memory w).
(** The declared attributes that hold something name texts, by the pointers of their places. *)
Definition declared_texts : Prop := forall a, a ∈ DedupeAndSortAttributes (default [] (SecretAttributes md)) -> holds_secret w a = true ->
  exists ts x, ts <> [] /\ a = JSONPointerFromTokens ts /\ at_path w ts (VString x).
(** No text of the payload passes for a placeholder. *)
Definition no_placeholders : Prop := forall s, subvalue (VString s) w -> IsPlaceholderValue s = false.
Context (Hdeclared : declared_texts).

Lemma declared_attributes s : resolveMetadataForSecretCheck deps p s = Ok md ->
  resolveDeclaredSaveSecretAttributes deps p s = Ok (DedupeAndSortAttributes (default [] (SecretAttributes md))).
Proof. unfold resolveDeclaredSaveSecretAttributes. by intros ->. Qed.
Lemma DetectSecretCandidates_spec v l : Normalize v = Ok v -> DetectSecretCandidates v = Ok l ->
  fits max_depth v /\ forall a, a ∈ l <-> detected v "" a.
Proof.
  intros Hv. unfold DetectSecretCandidates. generalize max_depth as depth. intros depth. rewrite Hv. cbn [mbind result_bind]. intros (st & Hst & [= <-])%bind_Ok.
  split; [by eapply collectDetectedCandidates_fits|]. intros a. rewrite elem_of_sort_strings, elem_of_elements, (collectDetectedCandidates_spec _ _ _ _ _ Hst). set_solver.
Qed.
Lemma save_candidates v s cs : resolveMetadataForSecretCheck deps p s = Ok md -> Normalize v = Ok v -> detectSaveSecretCandidates deps p v s = Ok cs ->
  fits max_depth v /\ forall a, a ∈ cs <-> detected v "" a \/ a ∈ DetectMetadataSecretCandidates v (default [] (SecretAttributes md)).
Proof.
  intros Hmd Hv. unfold detectSaveSecretCandidates, detectHeuristicSecretCandidates. rewrite Hv, Hprovider. cbn [mbind result_bind].
  rewrite (provider_detects v), Hmd. intros (l & Hl & [= <-])%bind_Ok. destruct (DetectSecretCandidates_spec v l Hv Hl) as [Hf Hin].
  split; [done|]. intros a. by rewrite elem_of_union_sorted, Hin.
Qed.
Lemma applySaveSecretCandidates_inv v x selected s v' attributes s' : Normalize v = Ok x ->
  applySaveSecretCandidates provider p v selected s = Some (Ok (v', attributes), s') ->
  (exists m, x = VMap m) /\ store_attributes provider p (ResolveAttributePathsForCandidates x selected) x s = Some (Ok v', s').
Proof.
  intros Hv Hrun. unfold applySaveSecretCandidates in Hrun. erewrite bind_run in Hrun by (by apply of_result_run).
  destruct x; try done. apply bind_inv in Hrun as (v1 & s1 & H1 & [= <- _ <-]). eauto.
Qed.
(** What the save command makes of the payload. *)
Record secured (s : S) (v : value) (s' : S) : Prop := {
  secured_masked : masked_in (hidden provider qs w s') [] v w;
  secured_metadata : forall path, resolveMetadataForSecretCheck deps path s' = resolveMetadataForSecretCheck deps path s;
  secured_depth : fits max_depth w;
  secured_places : forall ts x, at_path w ts (VString x) -> ts <> [] -> trim_space x <> "" -> IsPlaceholderValue x = false ->
    detected w "" (JSONPointerFromTokens ts) \/ JSONPointerFromTokens ts ∈ DetectMetadataSecretCandidates w (default [] (SecretAttributes md)) ->
    JSONPointerFromTokens ts ∈ DedupeAndSortAttributes (default [] (SecretAttributes md)) ->
    lookup_tokens v ts = Some (VString PlaceholderValue);
}.
Lemma autoHandleDeclaredSaveSecrets_spec v s v' s' : resolveMetadataForSecretCheck deps p s = Ok md -> Normalize v = Ok w ->
  autoHandleDeclaredSaveSecrets deps p v s = Some (Ok v', s') -> secured s v' s'.
Proof.
  intros Hmd Hv Hrun. assert (Normalize w = Ok w) as Hw by by apply normalizeValue_id.
  apply bind_inv in Hrun as (w1 & s1 & H1 & Hrun). apply of_result_inv in H1 as [E1 ->]. rewrite Hv in E1. injection E1 as <-.
  apply bind_inv in Hrun as (cs & s1 & H1 & Hrun). apply (of_result_inv (detectSaveSecretCandidates deps p w s)) in H1 as [Hcs ->].
  destruct (save_candidates _ _ _ Hmd Hw Hcs) as [Hdepth Hin].
  destruct cs as [|c cs].
  { injection Hrun as <- <-. split; [constructor|done|done|]. intros ts x Hat Hne _ _ Hd%Hin _. by apply not_elem_of_nil in Hd. }
  erewrite bind_run in Hrun by (by apply of_result_run, declared_attributes). cbv beta in Hrun.
  set (declared := DedupeAndSortAttributes (default [] (SecretAttributes md))) in *.
  set (selected := intersectSaveSecretCandidates (c :: cs) declared) in Hrun.
  assert (forall ts x, at_path w ts (VString x) -> ts <> [] -> JSONPointerFromTokens ts ∈ c :: cs -> JSONPointerFromTokens ts ∈ declared -> JSONPointerFromTokens ts ∈ selected) as Hsel.
  { intros ts x Hat Hne Hc Hd. apply elem_of_intersect. split; [|by apply elem_of_dedupe_trimmed; [apply elem_of_dedupe in Hd as [? _]|apply pointer_trimmed; by eapply at_path_plain|]].
    apply elem_of_dedupe_trimmed; [by apply elem_of_dedupe in Hd as [? _]|apply pointer_trimmed; by eapply at_path_plain|done]. }
  destruct selected as [|d ds] eqn:Es.
  { injection Hrun as <- <-. split; [constructor|done|done|]. intros ts x Hat Hne _ _ Hd%Hin Hdecl. exfalso. eapply not_elem_of_nil, Hsel; eauto. }
  erewrite bind_run in Hrun by (apply of_result_run; unfold RequireSecretProvider; by rewrite Hprovider).
  apply bind_inv in Hrun as ([v1 handled] & s1 & H1 & [= <- <-]). apply (applySaveSecretCandidates_inv _ _ _ _ _ _ _ Hw) in H1 as [[m Em] H1].
  eapply store_attributes_spec in H1 as (M & D & _ & P); [split; [exact M|exact D|exact Hdepth|]|done..| |constructor].
  - intros ts x Hat Hne Hx Hpx Hd%Hin Hdecl. eapply P; [|done..]. apply elem_of_resolved.
    assert (trimmed (JSONPointerFromTokens ts)) as Ht by by eapply pointer_trimmed, at_path_plain. split_and!; [by apply elem_of_dedupe in Hdecl as [? _]| |].
    + unfold holds_secret. rewrite (attribute_text_string _ _ x), bool_decide_false, Hpx; [done..|]. by apply lookup_at_path.
    + exists (JSONPointerFromTokens ts). split; [|by rewrite trim_space_id]. by eapply Hsel.
  - unfold text_attributes. apply Forall_forall. intros a (Hne & Hh & y & Hy & ->)%elem_of_resolved.
    rewrite <-Es in Hy. subst selected. apply elem_of_intersect in Hy as [_ Hy]. apply Hdeclared; [|done].
    apply elem_of_dedupe in Hy as (Hyne & z & (_ & z' & Hz & ->)%elem_of_dedupe & ->). rewrite !trim_space_idemp in *. apply elem_of_dedupe. eauto.
Qed.
Lemma nothing_left v s s' cs : secured s v s' -> resolveMetadataForSecretCheck deps p s' = Ok md -> no_placeholders ->
  detectSaveSecretCandidates deps p v s' = Ok cs ->
  filterSaveSecretCandidatesForSafety cs (DedupeAndSortAttributes (default [] (SecretAttributes md))) false = [] -> cs = [].
Proof.
  intros [Hm Hmeta Hdepth Hplaces] Hmd Hnone Hcs Hsafe. assert (Normalize v = Ok v) as Hv by by eapply normalizeValue_id, masked_normal.
  destruct (save_candidates _ _ _ Hmd Hv Hcs) as [_ Hin]. destruct cs as [|a cs]; [done|]. exfalso.
  assert (a <> "" -> trimmed a -> a ∈ DedupeAndSortAttributes (default [] (SecretAttributes md))) as Hdecl.
  { intros Hne Ht. unfold filterSaveSecretCandidatesForSafety, dedupeAndSortSaveSecretAttributes in Hsafe.
    destruct (decide (a ∈ DedupeAndSortAttributes (default [] (SecretAttributes md)))) as [|Hn]; [done|]. exfalso.
    eapply (not_elem_of_nil a). rewrite <-Hsafe. apply list_elem_of_filter. split.
    - intros (_ & y & (_ & z & Hz & ->)%elem_of_dedupe & ->)%elem_of_dedupe. apply Hn, elem_of_dedupe. rewrite trim_space_idemp in *. split; [done|]. eauto.
    - apply elem_of_dedupe_trimmed; [done..|by left]. }
  assert (forall ts x, at_path v ts (VString x) -> lookup_tokens v ts = Some (VString PlaceholderValue) -> x = PlaceholderValue) as Hfun.
  { intros ts x Hat Hl. eapply lookup_at_path in Hat; [|by eapply masked_fits]. congruence. }
  destruct (proj1 (Hin a) (list_elem_of_here _ _)) as [(key & x & Hf & Hk & Hx & Hlikely)|Hmeta_a].
  - assert (x <> PlaceholderValue) as Hxp. { intros ->. change PlaceholderValue with currentScopeSecretPlaceholder in Hx. by rewrite parse_current in Hx. }
    destruct (masked_field_at _ _ _ _ _ _ Hf Hxp [] w Hm) as (ts & Hne & -> & Ha & Hb); [done|constructor|done|]. rewrite app_nil_l in *.
    assert (Forall plain_key ts) as Hts by by eapply at_path_plain.
    apply Hxp. eapply Hfun; [exact Ha|]. eapply Hplaces; [exact Hb|done| | | |].
    + intros E. unfold isLikelySecretValue in Hlikely. by rewrite bool_decide_true in Hlikely.
    + eapply Hnone, at_path_subvalue, Hb.
    + left. exists key, x. split; [by eapply masked_string_field|done].
    + apply Hdecl; [by destruct ts; [|rewrite pointer_join]|by apply pointer_trimmed].
  - destruct v as [| | | | | | | | | | | | |m'| | | |]; try by apply not_elem_of_nil in Hmeta_a.
    apply elem_of_metadata_candidates in Hmeta_a as (Hplain_a & Hne_a & y & Hy & ->).
    assert (trim_space y ∈ DedupeAndSortAttributes (default [] (SecretAttributes md))) as Ha by (apply Hdecl; [done|apply trim_space_trimmed]).
    unfold holds_plaintext in Hplain_a. destruct (attribute_text (VMap m') (trim_space y)) as [text|] eqn:Ht; [|done].
    apply andb_true_iff in Hplain_a as [Hph%negb_true_iff Hlikely].
    destruct (attribute_text_below _ _ _ _ _ _ Hm Ht) as [Htw|Htw]; [|subst text; by rewrite placeholder_is_placeholder in Hph].
    destruct (Hdeclared _ Ha) as (ts & x & Hne & E & Hat); [unfold holds_secret; by rewrite Htw, Hph|].
    assert (trimmed (JSONPointerFromTokens ts)) as Htr by by eapply pointer_trimmed, at_path_plain.
    rewrite E in *. pose proof (lookup_at_path _ _ _ Hat Hfit) as Hl. rewrite (attribute_text_string _ _ x) in Htw by done.
    case_bool_decide as Eb; [done|]. injection Htw as ->.
    assert (lookup_tokens (VMap m') ts = Some (VString PlaceholderValue)) as Hp'.
    { eapply Hplaces; [exact Hat|done..| |done]. right.
      assert (holds_plaintext w (JSONPointerFromTokens ts) = true) as Hw.
      { unfold holds_plaintext. rewrite (attribute_text_string _ _ text), bool_decide_false by done. by rewrite Hph, Hlikely. }
      apply masked_of_map in Hm as (mw & Ew & _). rewrite Ew in Hw |- *. apply elem_of_metadata_candidates. split_and!; [done..|by exists y]. }
    rewrite (attribute_text_string _ _ PlaceholderValue) in Ht by done. by injection Ht as <-.
Qed.
End one_payload.

(** ** The command *)
Section command.
Context `{by_path : ResourceSort, UnicodeTables, TextCodecs} {S : Type} (deps : Dependencies S) (provider : AppSecretProvider S) `{!SecretProviderLaws deps provider}.
(** The payload is one whose secrets the command can take out and put back: its keys are
    trimmed names, none of its texts is a placeholder, and what its metadata declares, and
    has something, are places of texts. *)
Record secret_payload (qs : list string) (s : S) (v w : value) (md : ResourceMetadata) : Prop := {
  sp_provider : deps_SecretProvider deps = Some provider;
  sp_path : Forall clean_segment qs;
  sp_trimmed : trimmed (path_of qs);
  sp_metadata : resolveMetadataForSecretCheck deps (path_of qs) s = Ok md;
  sp_normal : Normalize v = Ok w /\ normal w;
  sp_plain : plain_payload w;
  sp_fits : fits_memory w;
  sp_declared : declared_texts w md;
}.
Lemma secure_payload_secured qs s v w md options v' s' : secret_payload qs s v w md -> SecretAttributesEnabled options = false ->
  secure_payload deps (path_of qs) v options s = Some (Ok v', s') ->
  secured deps provider qs w md s v' s' /\ exists cs, detectSaveSecretCandidates deps (path_of qs) v' s' = Ok cs /\
    filterSaveSecretCandidatesForSafety cs (DedupeAndSortAttributes (default [] (SecretAttributes md))) (AllowPlaintext options) = [].
Proof.
  intros [Hprov Hqs Hp Hmd [Hv Hn] Hplain Hfit Hdecl] Hopt Hrun. unfold secure_payload in Hrun. rewrite Hopt in Hrun.
  apply bind_inv in Hrun as (v1 & s1 & H1 & Hrun). apply bind_inv in Hrun as ([] & s2 & H2 & [= <- <-]).
  eapply autoHandleDeclaredSaveSecrets_spec in H1; [|done..]. unfold enforceSaveSecretSafety in H2.
  apply bind_inv in H2 as (cs & s3 & H3 & H2). apply (of_result_inv (detectSaveSecretCandidates deps (path_of qs) v1 s1)) in H3 as [Hcs ->].
  apply bind_inv in H2 as (declared & s3 & H3 & H2). apply (of_result_inv (resolveDeclaredSaveSecretAttributes deps (path_of qs) s1)) in H3 as [Hd ->].
  rewrite (declared_attributes deps qs md s1) in Hd by by rewrite (secured_metadata _ _ _ _ _ _ _ _ H1). injection Hd as <-.
  unfold refuse_blocking in H2. destruct (filterSaveSecretCandidatesForSafety _ _ _) eqn:Ef; [|done]. injection H2 as <-. split; [done|]. eauto.
Qed.


(** [C3] The save command, without [--secret-attributes] and [--allow-plaintext], leaves no
    secret in clear: for a payload as above in which no text passes for a placeholder, no
    attribute of what it saves is taken for a secret any more, by its name or by the metadata:
    the check that stopped nothing would find nothing to do again. With [--secret-attributes]
    it is not so: [requested_leaves_declared_in_clear]. *)
Theorem saved_payload_has_no_candidates qs s v w md options v' s' : secret_payload qs s v w md -> no_placeholders w ->
  SecretAttributesEnabled options = false -> AllowPlaintext options = false ->
  secure_payload deps (path_of qs) v options s = Some (Ok v', s') -> detectSaveSecretCandidates deps (path_of qs) v' s' = Ok [].
Proof.
  intros Hsp Hnone Hopt Hallow Hrun. eapply secure_payload_secured in Hrun as [Hs (cs & Hcs & Hf)]; [|done..]. rewrite Hallow in Hf.
  destruct Hsp as [Hprov Hqs Hp Hmd [Hv Hn] Hplain Hfit Hdecl]. rewrite Hcs. f_equal.
  eapply (nothing_left deps provider Hprov qs w md); eauto. by rewrite (secured_metadata _ _ _ _ _ _ _ _ Hs).
Qed.
End command.

(** ** A resource with one declared secret *)
Section witnesses.
#[local] Existing Instances stable_sort latin1_tables.
#[local] Existing Instance line_codecs.
#[local] Existing Instance map_store.
Definition sample_provider : AppSecretProvider (gmap string string) := {|
  secret_Store := fun k x s => match map_store_set k x s with (s', None) => Some (Ok tt, s') | (s', Some e) => Some (Err (Failed e), s') end;
  secret_Get := map_store_get;
  secret_DetectSecretCandidates := DetectSecretCandidates;
|}.
Definition sample_metadata : ResourceMetadata := with_secret_attributes empty_metadata ["/password"].
Definition sample_service : AppMetadataService (gmap string string) := {|
  meta_ResolveForPath := fun _ _ => Ok sample_metadata; meta_Get := fun _ _ => Ok sample_metadata; meta_Set := fun _ _ => mret tt;
  meta_Unset := fun _ => mret tt; meta_ResolveCollectionChildren := None; meta_RenderMetadataSnapshot := None;
|}.
Definition sample_deps : Dependencies (gmap string string) := {|
  deps_Orchestrator := None; deps_Repository := None; deps_Metadata := Some sample_service; deps_Secrets := Some sample_provider; deps_Services := None;
|}.
Lemma sample_store_inv k x s s' : secret_Store sample_provider k x s = Some (Ok tt, s') -> store_set k x s = (s', None).
Proof. cbn. destruct (map_store_set k x s) as [s1 [e|]]; [done|]. by intros [= <-]. Qed.
Lemma sample_laws : SecretProviderLaws sample_deps sample_provider.
Proof.
  pose proof map_store_laws. split; [done|..].
  - intros k x s s' E%sample_store_inv. by eapply set_valid_key.
  - intros k x s s' k' E%sample_store_inv. exact (get_after_set _ _ _ _ k' E).
  - done.
Qed.
#[local] Existing Instance sample_laws.
Definition plain_options : ExecuteOptions :=
  {| AsItems := false; AsOneResource := false; opt_Secret := false; AllowPlaintext := false; opt_Force := false; PruneDefaults := false;
     SecretAttributesEnabled := false; RequestedSecretAttributes := []; SkipItems := [] |}.
Definition sample_saved : value := VMap {[ "user" := VString "x"; "password" := VString "{{secret .}}" ]}.
Definition sample_stored : gmap string string := {[ "app/db:/password" := "s3" ]}.
Lemma sample_run : secure_payload sample_deps (path_of ["app"; "db"]) secret_sample plain_options ∅ = Some (Ok sample_saved, sample_stored).
Proof. vm_compute. reflexivity. Qed.
Lemma sample_secret_payload : secret_payload sample_deps sample_provider ["app"; "db"] ∅ secret_sample secret_sample sample_metadata.
Proof.
  split; [done|repeat constructor; by vm_compute| |done| |exact secret_sample_plain|unfold fits_memory; vm_compute; discriminate|].
  - split; vm_compute; reflexivity.
  - split; [vm_compute; reflexivity|]. apply normalb_normal. vm_compute. reflexivity.
  - intros a Ha _. change (DedupeAndSortAttributes _) with ["/password"] in Ha. rewrite list_elem_of_singleton in Ha. subst a.
    exists ["password"], "s3". split_and!; [done..|]. eapply at_key; [vm_compute; reflexivity|constructor].
Qed.
Lemma elem_of_sample_texts x : subvalue (VString x) secret_sample -> x = "x" \/ x = "s3".
Proof.
  intros Hx. inversion Hx as [|? ? ? Hx'|? j y Hy Hx'| |]; subst.
  apply lookup_insert_Some in Hy as [[<- <-]|[_ Hy]]; [inversion Hx'; auto|].
  apply lookup_singleton_Some in Hy as [<- <-]. inversion Hx'; auto.
Qed.
Lemma saved_payload_has_no_candidates_witness : detectSaveSecretCandidates sample_deps "/app/db" sample_saved sample_stored = Ok [].
Proof.
  apply (saved_payload_has_no_candidates sample_deps sample_provider ["app"; "db"] ∅ secret_sample secret_sample sample_metadata plain_options);
    [exact sample_secret_payload| |reflexivity|reflexivity|exact sample_run].
  intros x Hx. apply elem_of_sample_texts in Hx as [->| ->]; vm_compute; reflexivity.
Defined.
(** With [--secret-attributes=/token], the attribute that metadata declares stays in clear. *)
Definition token_options : ExecuteOptions :=
  {| AsItems := false; AsOneResource := false; opt_Secret := false; AllowPlaintext := false; opt_Force := false; PruneDefaults := false;
     SecretAttributesEnabled := true; RequestedSecretAttributes := ["/token"]; SkipItems := [] |}.
Definition two_secrets : value := VMap {[ "password" := VString "s3"; "token" := VString "t0p" ]}.
Example requested_leaves_declared_in_clear : fst <$> secure_payload sample_deps "/app/db" two_secrets token_options ∅ =
  Some (Ok (VMap {[ "password" := VString "s3"; "token" := VString "{{secret .}}" ]})).
Proof. vm_compute. reflexivity. Qed.
End witnesses.
