(* ===== verification/ReadMasks.v ===== *)
(** * What the read command shows of secrets

    Without its flag to show secrets, the read command masks the attributes that metadata
    declares, in an object or in every object of a list: none is shown in clear, and what
    lies apart from them is shown as it is. *)
From Stdlib Require Import SpecFloat.
From S2P Require Import Prelude GoText GoTextFacts Faults Paths Value Pointer Descriptor Codec Metadata DefaultsSpec TemplateSyntax Externalize Identity OperationSpec RuntimeMetadata Secrets SecretsPayload Services ActionFacts AppDeps SecretWorkflow SaveResource SavedSecrets ReadResource SaveRoundTrip.

Section masking.
Context `{by_path : ResourceSort, UnicodeTables}.
(** Nothing is told by what is there: nothing is, or it is nil or a placeholder. *)
Definition shows_nothing (v : value) (ts : list string) : Prop :=
  forall z, lookup_tokens v ts = Some z -> is_nil z = true \/ exists x, z = VString x /\ IsPlaceholderValue x = true.
Definition container (v : value) : Prop := as_object v <> None \/ as_list v <> None.

Lemma lookup_set_string c : forall ts us root cur r z, lookup_tokens root us = Some cur -> setJSONPointerValue root us (VString c) = Ok r ->
  lookup_tokens r ts = Some z -> z = VString c \/ lookup_tokens root ts = Some z \/ exists z0, lookup_tokens root ts = Some z0 /\ container z0.
Proof.
  induction ts as [|t ts IH]; intros us root cur r z Hu Hset Hz.
  { injection Hz as <-. destruct us as [|u us]; [left; by injection Hset|]. right. right. exists root. split; [done|].
    destruct root; try done; [by right|by left]. }
  destruct us as [|u us]; [by injection Hset as <-|].
  apply set_cons in Hset as [(i & l & next & Hi & [->|[-> ->]] & Hn & ->)|(m & next & Hi & [->|[-> ->]] & Hn & ->)]; try done; cbn in Hu, Hz |- *.
  - rewrite Hi in Hu. cbn in Hu. destruct (l !! i) as [y|] eqn:Hy; [|done]. cbn in Hu, Hn. assert (grow l i = l) as El.
    { unfold grow. apply lookup_lt_Some in Hy. replace (S i - length l)%nat with 0%nat by lia. apply app_nil_r. }
    rewrite El in Hz. destruct (parseJSONPointerArrayIndex t) as [j|]; [|done]. cbn in Hz |- *. destruct (decide (i = j)) as [<-|].
    + rewrite list_lookup_insert_eq in Hz by by eapply lookup_lt_Some. rewrite Hy. cbn in Hz |- *. by eapply IH.
    + rewrite list_lookup_insert_ne in Hz by done. auto.
  - destruct (m !! u) as [y|] eqn:Hy; [|done]. cbn in Hu, Hn. destruct (decide (u = t)) as [<-|].
    + rewrite lookup_insert_eq in Hz. rewrite Hy. cbn in Hz |- *. by eapply IH.
    + rewrite lookup_insert_ne in Hz by done. auto.
Qed.
Lemma set_indexes c ts : forall us root cur r, lookup_tokens root us = Some cur -> setJSONPointerValue root us (VString c) = Ok r ->
  indexes_lists root ts = true -> indexes_lists r ts = true.
Proof.
  induction ts as [|t ts IH]; intros us root cur r Hu Hset Hi; [done|].
  destruct us as [|u us]; [injection Hset as <-; cbn; by destruct (parseJSONPointerArrayIndex t)|].
  apply set_cons in Hset as [(i & l & next & Hj & [->|[-> ->]] & Hn & ->)|(m & next & Hj & [->|[-> ->]] & Hn & ->)]; try done; cbn in Hu, Hi |- *.
  - rewrite Hj in Hu. cbn in Hu. destruct (l !! i) as [y|] eqn:Hy; [|done]. cbn in Hu, Hn. assert (grow l i = l) as El.
    { unfold grow. apply lookup_lt_Some in Hy. replace (S i - length l)%nat with 0%nat by lia. apply app_nil_r. }
    rewrite El. destruct (parseJSONPointerArrayIndex t) as [j|]; [|done]. destruct (decide (i = j)) as [<-|].
    + rewrite list_lookup_insert_eq by by eapply lookup_lt_Some. rewrite Hy in Hi. by eapply IH.
    + by rewrite list_lookup_insert_ne.
  - destruct (m !! u) as [y|] eqn:Hy; [|done]. cbn in Hu, Hn. destruct (parseJSONPointerArrayIndex t) as [j|]; [done|]. destruct (decide (u = t)) as [<-|].
    + rewrite lookup_insert_eq. rewrite Hy in Hi. by eapply IH.
    + by rewrite lookup_insert_ne.
Qed.
Lemma set_succeeds c ts : forall root cur, lookup_tokens root ts = Some cur -> indexes_lists root ts = true ->
  exists r, setJSONPointerValue root ts (VString c) = Ok r.
Proof.
  induction ts as [|t ts IH]; intros root cur Hl Hi; [by eexists|]. cbn in Hl, Hi |- *. destruct (parseJSONPointerArrayIndex t) as [i|]; destruct root; try done.
  - cbn in Hl. destruct (l !! i) as [y|] eqn:Hy; [|done]. cbn [mbind result_bind]. rewrite grow_default, Hy. cbn in Hl |- *.
    destruct (IH _ _ Hl Hi) as [r ->]. by eexists.
  - destruct (m !! t) as [y|] eqn:Hy; [|done]. cbn in Hl. cbn [mbind result_bind]. rewrite Hy. cbn. destruct (IH _ _ Hl Hi) as [r ->]. by eexists.
Qed.
(** One step of the loop. *)
Lemma mask_attribute_inv v a ts : ParseJSONPointer a = Ok ts -> mask_attribute v a = v \/
  exists cur r, lookup_tokens v ts = Some cur /\ setJSONPointerValue v ts (VString PlaceholderValue) = Ok r /\ mask_attribute v a = r.
Proof.
  intros Ha. unfold mask_attribute, LookupJSONPointer, SetJSONPointerValue. rewrite Ha. cbn [mbind result_bind]. destruct (lookup_tokens v ts) as [cur|] eqn:E; [|by left].
  destruct (is_nil cur); [by left|]. destruct (match cur with VString s => IsPlaceholderValue s | _ => false end); [by left|].
  destruct (setJSONPointerValue v ts (VString PlaceholderValue)) as [r|] eqn:Hr; [|by left]. right. by exists cur, r.
Qed.
Lemma mask_attribute_masks v a ts : ParseJSONPointer a = Ok ts -> indexes_lists v ts = true -> shows_nothing (mask_attribute v a) ts.
Proof.
  intros Ha Hi z Hz. unfold mask_attribute, LookupJSONPointer, SetJSONPointerValue in Hz. rewrite Ha in Hz. cbn [mbind result_bind] in Hz.
  destruct (lookup_tokens v ts) as [cur|] eqn:E; [|congruence]. destruct (is_nil cur) eqn:En; [left; congruence|].
  destruct (match cur with VString s => IsPlaceholderValue s | _ => false end) eqn:Ep.
  { right. destruct cur; try done. exists s. split; [congruence|done]. }
  destruct (set_succeeds PlaceholderValue ts v cur E Hi) as [r Hr]. rewrite Hr in Hz. apply lookup_set_same in Hr. right.
  exists PlaceholderValue. split; [congruence|]. vm_compute. reflexivity.
Qed.
Lemma mask_attribute_keeps v a ts : shows_nothing v ts -> shows_nothing (mask_attribute v a) ts.
Proof.
  intros Hs. destruct (ParseJSONPointer a) as [us|] eqn:Ha.
  2: { unfold mask_attribute, LookupJSONPointer. by rewrite Ha. }
  destruct (mask_attribute_inv v a us Ha) as [->|(cur & r & Hl & Hr & ->)]; [done|].
  intros z Hz. destruct (lookup_set_string _ _ _ _ _ _ _ Hl Hr Hz) as [->|[Hz'|(z0 & Hz0 & Hc)]]; [|by apply Hs|].
  - right. exists PlaceholderValue. split; [done|]. vm_compute. reflexivity.
  - destruct (Hs _ Hz0) as [En|(x & -> & _)]; [destruct z0; try done|]; by destruct Hc.
Qed.
Lemma mask_attribute_indexes v a ts : indexes_lists v ts = true -> indexes_lists (mask_attribute v a) ts = true.
Proof.
  intros Hs. destruct (ParseJSONPointer a) as [us|] eqn:Ha.
  2: { unfold mask_attribute, LookupJSONPointer. by rewrite Ha. }
  destruct (mask_attribute_inv v a us Ha) as [->|(cur & r & Hl & Hr & ->)]; [done|]. by eapply set_indexes.
Qed.
Lemma mask_attribute_apart v a us z : (forall ts, ParseJSONPointer a = Ok ts -> diverge ts us = true) -> lookup_tokens v us = Some z ->
  lookup_tokens (mask_attribute v a) us = Some z.
Proof.
  intros Hd Hz. destruct (ParseJSONPointer a) as [ts|] eqn:Ha.
  2: { unfold mask_attribute, LookupJSONPointer. by rewrite Ha. }
  destruct (mask_attribute_inv v a ts Ha) as [->|(cur & r & Hl & Hr & ->)]; [done|]. eapply lookup_set_diverge; eauto.
Qed.
Lemma maskPayload_spec v attributes a ts : a ∈ attributes -> trim_space a <> "" -> ParseJSONPointer (trim_space a) = Ok ts ->
  indexes_lists v ts = true -> shows_nothing (maskPayload v attributes) ts.
Proof.
  intros Ha Hne Hts. unfold maskPayload. set (attrs := ResolveAttributePaths v attributes).
  assert (shows_nothing v ts \/ trim_space a ∈ attrs) as Hs.
  { destruct (has_attribute v (trim_space a)) eqn:E.
    - right. subst attrs. unfold ResolveAttributePaths. rewrite elem_of_sort_strings, elem_of_elements, elem_of_list_to_set, list_elem_of_filter.
      split; [done|]. by apply list_elem_of_fmap_2.
    - left. intros z Hz. unfold has_attribute, LookupJSONPointer in E. rewrite Hts in E. cbn in E. by rewrite Hz in E. }
  clearbody attrs. revert v Hs. induction attrs as [|b attrs IH]; intros v Hs Hi; cbn [foldl].
  { destruct Hs as [|Hs]; [done|by apply not_elem_of_nil in Hs]. }
  apply IH; [|by apply mask_attribute_indexes]. destruct Hs as [Hs|[<-|Hs]%elem_of_cons]; [left; by apply mask_attribute_keeps| |by right].
  left. by apply mask_attribute_masks.
Qed.
Lemma maskPayload_apart v attributes us z :
  (forall a ts, a ∈ attributes -> ParseJSONPointer (trim_space a) = Ok ts -> diverge ts us = true) ->
  lookup_tokens v us = Some z -> lookup_tokens (maskPayload v attributes) us = Some z.
Proof.
  intros Hd. unfold maskPayload. assert (forall b, b ∈ ResolveAttributePaths v attributes -> forall ts, ParseJSONPointer b = Ok ts -> diverge ts us = true) as Hb.
  { intros b. unfold ResolveAttributePaths. rewrite elem_of_sort_strings, elem_of_elements, elem_of_list_to_set, list_elem_of_filter, list_elem_of_fmap.
    intros (_ & a & -> & Ha) ts. by apply Hd. }
  clear Hd. set (attrs := ResolveAttributePaths v attributes) in *. clearbody attrs. revert v. induction attrs as [|b attrs IH]; intros v Hz; cbn [foldl]; [done|].
  apply IH; [intros c Hc; apply Hb; by right|]. apply mask_attribute_apart; [|done]. apply Hb. by left.
Qed.
Lemma maskPayload_no_list v attributes : as_list v = None /\ v <> VNil -> as_list (maskPayload v attributes) = None /\ maskPayload v attributes <> VNil.
Proof.
  unfold maskPayload. generalize (ResolveAttributePaths v attributes) as attrs. intros attrs. revert v. induction attrs as [|b attrs IH]; intros v Hv; cbn [foldl]; [done|].
  apply IH. destruct (ParseJSONPointer b) as [us|] eqn:Hb.
  2: { unfold mask_attribute, LookupJSONPointer. by rewrite Hb. }
  destruct (mask_attribute_inv v b us Hb) as [->|(cur & r & Hl & Hr & ->)]; [done|]. destruct us as [|u us]; [by injection Hr as <-|].
  apply set_cons in Hr as [(i & l & next & _ & [->|[-> _]] & _)|(m & next & _ & _ & _ & ->)]; [by destruct Hv..|done].
Qed.
End masking.

(** ** The command *)
(** The objects whose attributes are masked: a payload that is one, or the items of a list. *)
Definition shown_objects (v : value) : list value := match v with VList l => l | _ => [v] end.
Section read.
Context `{by_path : ResourceSort, UnicodeTables, TextCodecs} {S : Type} (deps : Dependencies S).

(** [C4] Reading without secrets shows none: where the metadata of a resource declares
    secret attributes, every one of them is absent, nil or a placeholder in each object
    that is shown, unless its pointer goes through a numeric key of an object; and what
    lies apart from all declared attributes is shown as it is. *)
Theorem read_shows_no_secret path v d s md shown i m y :
  resolveMetadataForSecretCheck deps path s = Ok md -> IsWholeResourceSecret md = false -> Normalize v = Ok v ->
  prepareSecretsForOutput deps path v d false s = Ok shown -> shown_objects v !! i = Some (VMap m) -> shown_objects shown !! i = Some y ->
  (forall a ts, a ∈ default [] (SecretAttributes md) -> trim_space a <> "" -> ParseJSONPointer (trim_space a) = Ok ts ->
     indexes_lists (VMap m) ts = true -> shows_nothing y ts)
  /\ (forall us z, (forall a ts, a ∈ default [] (SecretAttributes md) -> ParseJSONPointer (trim_space a) = Ok ts -> diverge ts us = true) ->
     lookup_tokens (VMap m) us = Some z -> lookup_tokens y us = Some z).
Proof.
  intros Hmd Hwhole Hv Hrun Hm Hy. set (attrs := DedupeAndSortAttributes (default [] (SecretAttributes md))).
  assert (forall a, a ∈ attrs <-> a <> "" /\ exists b, b ∈ default [] (SecretAttributes md) /\ a = trim_space b) as Hin by apply elem_of_dedupe.
  assert (y = maskPayload (VMap m) attrs) as ->.
  { unfold prepareSecretsForOutput, maskSecretsForOutput in Hrun.
    destruct (is_nil v) eqn:En; [by destruct v, i as [|[|]]|].
    change (ResolveMetadataForSecretCheck (deps_MetadataService deps) path s) with (resolveMetadataForSecretCheck deps path s) in Hrun.
    rewrite Hmd in Hrun. cbn [mbind result_bind] in Hrun. rewrite Hwhole in Hrun. fold attrs in Hrun. destruct attrs as [|b bs] eqn:Ea.
    { injection Hrun as <-. rewrite Hm in Hy. by injection Hy as <-. }
    unfold MaskValue in Hrun. rewrite Hv in Hrun. cbn [mbind result_bind] in Hrun. injection Hrun as <-. destruct v; try by destruct i as [|[|]].
    - cbn [shown_objects] in Hm, Hy. rewrite list_lookup_fmap, Hm in Hy. by injection Hy as <-.
    - cbn [shown_objects] in Hm. destruct i as [|[|]]; [|done..]. injection Hm as ->.
      pose proof (maskPayload_no_list (VMap m) (b :: bs) ltac:(by split)) as [Hl _].
      destruct (maskPayload (VMap m) (b :: bs)); first [by injection Hy as <-|done]. }
  split.
  - intros a ts Ha Hne Hts Hi. apply (maskPayload_spec _ _ (trim_space a)); rewrite ?trim_space_idemp; [|done..]. apply Hin. eauto.
  - intros us z Hd Hz. apply maskPayload_apart; [|done]. intros a ts (Hne & b & Hb & ->)%Hin. rewrite trim_space_idemp. by apply Hd.
Qed.
End read.

Section witnesses.
#[local] Existing Instances stable_sort latin1_tables.
#[local] Existing Instance line_codecs.
Definition clear_item : object := {[ "user" := VString "x"; "password" := VString "s3" ]}.
Definition shown_item : object := {[ "user" := VString "x"; "password" := VString "{{secret .}}" ]}.
Lemma read_shows_no_secret_witness :
  prepareSecretsForOutput sample_deps "/app" (VList [VMap clear_item]) empty_descriptor false ∅ = Ok (VList [VMap shown_item])
  /\ shows_nothing (VMap shown_item) ["password"] /\ lookup_tokens (VMap shown_item) ["user"] = Some (VString "x").
Proof.
  assert (prepareSecretsForOutput sample_deps "/app" (VList [VMap clear_item]) empty_descriptor false ∅ = Ok (VList [VMap shown_item])) as E
    by (vm_compute; reflexivity).
  destruct (read_shows_no_secret sample_deps "/app" (VList [VMap clear_item]) empty_descriptor ∅ sample_metadata (VList [VMap shown_item])
    0 clear_item (VMap shown_item)) as [Hnone Hkept]; [reflexivity|reflexivity|vm_compute; reflexivity|exact E|reflexivity|reflexivity|].
  split; [exact E|split].
  - apply (Hnone "/password"); [by left|by vm_compute|reflexivity|reflexivity].
  - apply Hkept; [|reflexivity]. intros a ts Ha Hts. apply list_elem_of_singleton in Ha as ->. vm_compute in Hts. by injection Hts as <-.
Defined.
(** A declared attribute below a numeric key of an object is shown: the lookup finds it, and
    the assignment of the placeholder is refused. *)
Definition numbered_deps : Dependencies (gmap string string) :=
  let service := {|
    meta_ResolveForPath := fun (_ : gmap string string) (_ : string) => Ok (E := error) (with_secret_attributes empty_metadata ["/keys/0/password"]);
    meta_Get := fun _ _ => Ok empty_metadata; meta_Set := fun _ _ => mret tt; meta_Unset := fun _ => mret tt;
    meta_ResolveCollectionChildren := None; meta_RenderMetadataSnapshot := None |} in
  {| deps_Orchestrator := None; deps_Repository := None; deps_Metadata := Some service; deps_Secrets := None; deps_Services := None |}.
Definition numbered_item : value := VMap {[ "keys" := VMap {[ "0" := VMap {[ "password" := VString "s3" ]} ]} ]}.
Lemma numeric_key_is_shown : prepareSecretsForOutput numbered_deps "/app/db" numbered_item empty_descriptor false ∅ = Ok numbered_item.
Proof. vm_compute. reflexivity. Qed.
(** What passes for a placeholder here is none for the resolver. *)
Lemma placeholder_checks_differ : IsPlaceholderValue "{{secretfoo}}" = true /\ parseSecretPlaceholder "{{secretfoo}}" = Ok NotPlaceholder.
Proof. split; vm_compute; reflexivity. Qed.
(** A declared attribute that is not a text is stored as one, and comes back as one. *)
Definition number_item : value := VMap {[ "password" := VFloat64 (S754_finite false 6755399441055744 (-52)) ]}.
Lemma number_comes_back_as_text : exists v' s',
  secure_payload sample_deps "/app/db" number_item plain_options ∅ = Some (Ok v', s') /\
  prepareSecretsForOutput sample_deps "/app/db" v' empty_descriptor true s' = Ok (VMap {[ "password" := VString "1.5" ]}).
Proof.
  exists (VMap {[ "password" := VString "{{secret .}}" ]}), {[ "app/db:/password" := "1.5" ]}. split; vm_compute; reflexivity.
Qed.
End witnesses.
