(* ===== verification/Throttle.v ===== *)
(** * The gate of the requests to a managed service

    Models [src/internal/providers/managedservice/http/request_throttle.go]: the gates,
    shared between clients by the key of their settings, and the passage of concurrent
    requests through one gate. A request is a small program whose steps are the operations
    on the two channels of the gate, so that every interleaving of requests is a run of
    [gate_step]; a channel of empty structs is the number of elements in its buffer. The
    limiter is the library's: what the model has of it is the arguments it is made with, and
    that a wait for it ends, with or without an error. *)
From Stdlib Require Import SpecFloat.
From stdpp Require Import relations.
From S2P Require Import Prelude GoText GoFloat Faults.
Local Open Scope Z_scope.

Record HTTPRequestThrottling := {
  MaxConcurrentRequests : Z; QueueSize : Z; RequestsPerSecond : spec_float; Burst : Z; ScopeKey : string;
}.
(** The capacities of the channels, none where there is no channel; the limit and the burst
    of the limiter. *)
Record requestThrottleGate := { limiter : option (spec_float * Z); inFlight : option nat; queue : option nat }.

(** ** Making gates *)
Definition float_zero : spec_float := S754_zero false.
(** [int(f)]: towards zero; what does not fit is the least integer (amd64). *)
Definition int_of_float (f : spec_float) : Z :=
  match f with
  | S754_finite neg m e =>
      let magnitude := if 0 <=? e then Zpos m * 2 ^ e else Zpos m / 2 ^ (- e) in
      let z := if neg then - magnitude else magnitude in
      if is_int64 z then z else min_int64
  | S754_zero _ => 0
  | _ => min_int64
  end.
(** [%f]: six decimals, the nearest ones, an exact tie going to the even digit. *)
Definition format_fixed6 (f : spec_float) : string :=
  match f with
  | S754_nan => "NaN"
  | S754_infinity neg => if neg then "-Inf" else "+Inf"
  | S754_zero neg => if neg then "-0.000000" else "0.000000"
  | S754_finite neg m e =>
      let num := Zpos m * 10 ^ 6 * 2 ^ Z.max 0 e in
      let den := 2 ^ Z.max 0 (- e) in
      let down := num / den in
      let micros := match 2 * (num mod den) ?= den with
                    | Lt => down | Gt => down + 1 | Eq => if Z.even down then down else down + 1 end in
      let fraction := itoa (micros mod 10 ^ 6) in
      (if neg then "-" else "") +:+ itoa (micros / 10 ^ 6) +:+ "."
        +:+ zeros (6 - Z.of_nat (String.length fraction)) +:+ fraction
  end.
Definition requestThrottleKey (cfg : HTTPRequestThrottling) : string :=
  let scopeKey := ScopeKey cfg in
  if scopeKey == "" then ""
  else scopeKey +:+ "|max=" +:+ itoa (MaxConcurrentRequests cfg) +:+ "|queue=" +:+ itoa (QueueSize cfg)
       +:+ "|rps=" +:+ format_fixed6 (RequestsPerSecond cfg) +:+ "|burst=" +:+ itoa (Burst cfg).
Definition newRequestThrottleGate (cfg : HTTPRequestThrottling) : requestThrottleGate :=
  {| inFlight := if 0 <? MaxConcurrentRequests cfg then Some (Z.to_nat (MaxConcurrentRequests cfg)) else None;
     queue := if 0 <? QueueSize cfg then Some (Z.to_nat (QueueSize cfg)) else None;
     limiter := if SFltb float_zero (RequestsPerSecond cfg)
                then let burst := Burst cfg in
                     let burst := if burst <=? 0
                                  then let burst := int_of_float (RequestsPerSecond cfg) in if burst <? 1 then 1 else burst
                                  else burst in
                     Some (RequestsPerSecond cfg, burst)
                else None |}.
Definition throttle_setting (name problem : string) : error := Invalid ("managed-service.http.request-throttling" +:+ name +:+ " " +:+ problem) None.
Definition check_throttling (cfg : HTTPRequestThrottling) : result error unit :=
  if (MaxConcurrentRequests cfg <=? 0) && SFleb (RequestsPerSecond cfg) float_zero
  then Err (throttle_setting "" "must define at least one of max-concurrent-requests or requests-per-second")
  else if MaxConcurrentRequests cfg <? 0 then Err (throttle_setting ".max-concurrent-requests" "must be greater than zero when set")
  else if QueueSize cfg <? 0 then Err (throttle_setting ".queue-size" "must be greater than or equal to zero")
  else if (0 <? QueueSize cfg) && (MaxConcurrentRequests cfg <=? 0) then Err (throttle_setting ".queue-size" "requires max-concurrent-requests")
  else if SFltb (RequestsPerSecond cfg) float_zero then Err (throttle_setting ".requests-per-second" "must be greater than zero when set")
  else if Burst cfg <? 0 then Err (throttle_setting ".burst" "must be greater than zero when set")
  else if (0 <? Burst cfg) && SFleb (RequestsPerSecond cfg) float_zero then Err (throttle_setting ".burst" "requires requests-per-second")
  else Ok tt.
(** The gates that were made, by their place, and the shared ones by their key. *)
Record throttles := { gates : list requestThrottleGate; shared : gmap string nat }.
Definition new_gate (cfg : HTTPRequestThrottling) (st : throttles) : nat * throttles :=
  (length (gates st), {| gates := gates st ++ [newRequestThrottleGate cfg]; shared := shared st |}).
Definition buildRequestThrottle (cfg : option HTTPRequestThrottling) (st : throttles) : result error (option nat) * throttles :=
  match cfg with
  | None => (Ok None, st)
  | Some cfg =>
      match check_throttling cfg with
      | Err e => (Err e, st)
      | Ok _ =>
          let key := requestThrottleKey cfg in
          if key == "" then let '(gate, st) := new_gate cfg st in (Ok (Some gate), st)
          else match shared st !! key with
               | Some existing => (Ok (Some existing), st)
               | None =>
                   let '(gate, st) := new_gate cfg st in
                   (Ok (Some gate), {| gates := gates st; shared := <[ key := gate ]> (shared st) |})
               end
      end
  end.

(** ** Requests *)
Inductive request_outcome :=
| QueueFull (* the conflict error *)
| WaitCanceled (* the transport error of [acquire] *)
| LimiterFailed (* the transport error of [execute] *)
| Sent (* what [invoke] returned *).
(** Where a request is; [queued]: it holds a place in the queue, [held]: one in flight. *)
Inductive request_state :=
| Arriving
| Selecting (queued : bool)
| Entered (queued : bool)
| Canceling (queued : bool)
| Unlimited (queued : bool)
| Limiting (held : bool)
| Invoking (held : bool)
| Releasing (held : bool) (o : request_outcome)
| Finished (o : request_outcome).
#[export] Instance request_outcome_eq_dec : EqDecision request_outcome.
Proof. solve_decision. Defined.
#[export] Instance request_state_eq_dec : EqDecision request_state.
Proof. solve_decision. Defined.

Section gate.
Context (g : requestThrottleGate).
(** Receiving from a channel waits for an element. *)
Definition receive {A} (n : nat) (k : nat -> A) : list A := match n with O => [] | S n => [k n] end.
(** The next steps of a request whose context is canceled or not, with [q] places taken in
    the queue and [i] in flight; none when it has to wait. *)
Definition moves (canceled : bool) (st : request_state) (q i : nat) : list (request_state * nat * nat) :=
  match st with
  | Arriving =>
      match queue g with
      | None => [(Selecting false, q, i)]
      | Some capacity => if (q <? capacity)%nat then [(Selecting true, S q, i)] else [(Finished QueueFull, q, i)]
      end
  | Selecting queued =>
      match inFlight g with
      | None => [(Unlimited queued, q, i)]
      | Some capacity =>
          (if (i <? capacity)%nat then [(Entered queued, q, S i)] else []) ++ (if canceled then [(Canceling queued, q, i)] else [])
      end
  | Entered queued => if queued then receive q (fun q => (Limiting true, q, i)) else [(Limiting true, q, i)]
  | Canceling queued => if queued then receive q (fun q => (Finished WaitCanceled, q, i)) else [(Finished WaitCanceled, q, i)]
  | Unlimited queued => if queued then receive q (fun q => (Limiting false, q, i)) else [(Limiting false, q, i)]
  | Limiting held =>
      match limiter g with
      | None => [(Invoking held, q, i)]
      | Some _ => [(Invoking held, q, i); (Releasing held LimiterFailed, q, i)]
      end
  | Invoking held => [(Releasing held Sent, q, i)]
  | Releasing held o => if held then receive i (fun i => (Finished o, q, i)) else [(Finished o, q, i)]
  | Finished _ => []
  end.
Record gate_state := { requests : gmap nat request_state; canceled : gset nat; waiting : nat; flying : nat }.
Definition idle : gate_state := {| requests := ∅; canceled := ∅; waiting := 0; flying := 0 |}.
(** A step of a request. *)
Inductive request_step : gate_state -> gate_state -> Prop :=
| step_request s p st st' q i : requests s !! p = Some st -> (st', q, i) ∈ moves (bool_decide (p ∈ canceled s)) st (waiting s) (flying s) ->
    request_step s {| requests := <[ p := st' ]> (requests s); canceled := canceled s; waiting := q; flying := i |}.
(** Requests arrive, and their contexts are canceled, at any time. *)
Inductive gate_step : gate_state -> gate_state -> Prop :=
| step_move s s' : request_step s s' -> gate_step s s'
| step_arrive s p : requests s !! p = None ->
    gate_step s {| requests := <[ p := Arriving ]> (requests s); canceled := canceled s; waiting := waiting s; flying := flying s |}
| step_cancel s p : gate_step s {| requests := requests s; canceled := {[ p ]} ∪ canceled s; waiting := waiting s; flying := flying s |}.
Definition reachable (s : gate_state) : Prop := rtc gate_step idle s.
End gate.

(** ** Counting requests *)
Definition count (P : request_state -> bool) (m : gmap nat request_state) : nat := length (filter (fun st => P st = true) (map_to_list m).*2).
Definition one (b : bool) : nat := if b then 1%nat else 0%nat.
Lemma count_fresh P m p st : m !! p = None -> count P (<[ p := st ]> m) = (one (P st) + count P m)%nat.
Proof.
  intros Hp. unfold count. rewrite (Permutation_length (filter_Permutation _ _ _ (fmap_Permutation snd _ _ (map_to_list_insert m p st Hp)))).
  cbn [fmap list_fmap snd]. rewrite filter_cons. destruct (decide _) as [->|Hn]; [done|]. by destruct (P st).
Qed.
Lemma count_update P m p st st' : m !! p = Some st -> (count P (<[ p := st' ]> m) + one (P st) = count P m + one (P st'))%nat.
Proof.
  intros Hp. rewrite <-(insert_delete_id m p st Hp) at 2. rewrite <-insert_delete_eq. rewrite !count_fresh by apply lookup_delete_eq. lia.
Qed.
Lemma count_member P m p st : m !! p = Some st -> P st = true -> (1 <= count P m)%nat.
Proof. intros Hp HP. pose proof (count_update P m p st st Hp) as E. rewrite <-(insert_delete_id m p st Hp), count_fresh by apply lookup_delete_eq. rewrite HP. cbn. lia. Qed.
Lemma count_positive P m : (1 <= count P m)%nat -> exists p st, m !! p = Some st /\ P st = true.
Proof.
  unfold count. intros Hc. destruct (filter _ _) as [|st l] eqn:E; [cbn in Hc; lia|].
  assert (st ∈ filter (fun st => P st = true) (map_to_list m).*2) as Hin by (rewrite E; by left).
  apply list_elem_of_filter in Hin as [HP Hin]. apply list_elem_of_fmap in Hin as ([p st'] & -> & Hin). apply elem_of_map_to_list in Hin. eauto.
Qed.
Lemma count_le (P Q : request_state -> bool) m : (forall p st, m !! p = Some st -> P st = true -> Q st = true) -> (count P m <= count Q m)%nat.
Proof.
  intros HPQ. unfold count. assert (Forall (fun st => P st = true -> Q st = true) (map_to_list m).*2) as Hl.
  { apply Forall_forall. intros st ([p st'] & -> & Hin)%list_elem_of_fmap. apply elem_of_map_to_list in Hin. by eapply HPQ. }
  induction Hl as [|st l Hst _ IH]; [done|]. rewrite !filter_cons. destruct (decide (P st = true)), (decide (Q st = true)); cbn [length]; try lia. tauto.
Qed.

Lemma elem_of_receive {A} n k (x : A) : x ∈ receive n k -> exists m, n = S m /\ x = k m.
Proof. destruct n; cbn; [by intros ?%not_elem_of_nil|]. intros ->%list_elem_of_singleton. eauto. Qed.
(** The next steps of a request, one by one. *)
Ltac next_moves :=
  repeat match goal with
  | Hm : _ ∈ [] |- _ => by apply not_elem_of_nil in Hm
  | Hm : _ ∈ [_] |- _ => apply list_elem_of_singleton in Hm; simplify_eq
  | Hm : _ ∈ _ :: _ |- _ => apply elem_of_cons in Hm as [Hm|Hm]; simplify_eq
  | Hm : _ ∈ _ ++ _ |- _ => apply elem_of_app in Hm as [Hm|Hm]
  | Hm : _ ∈ receive _ _ |- _ => apply elem_of_receive in Hm as (? & -> & ?); simplify_eq
  | Hm : _ ∈ (if (?a <? ?b)%nat then _ else _) |- _ => destruct (Nat.ltb_spec a b)
  | Hm : _ ∈ (if ?b then _ else _) |- _ => destruct b
  | Hm : _ ∈ match limiter ?g with _ => _ end |- _ => destruct (limiter g)
  end.

(** ** What every interleaving keeps *)
Section interleavings.
Context (g : requestThrottleGate).
Definition in_queue (st : request_state) : bool :=
  match st with Selecting queued | Entered queued | Canceling queued | Unlimited queued => queued | _ => false end.
Definition in_flight (st : request_state) : bool :=
  match st with Entered _ => true | Limiting held | Invoking held | Releasing held _ => held | _ => false end.
Definition is_invoking (st : request_state) : bool := match st with Invoking _ => true | _ => false end.
(** A request goes through the part of the code for its gate. *)
Definition on_path (st : request_state) : bool :=
  match st with
  | Entered _ | Canceling _ => bool_decide (is_Some (inFlight g))
  | Unlimited _ => bool_decide (inFlight g = None)
  | Limiting held | Invoking held | Releasing held _ => bool_decide (held = bool_decide (is_Some (inFlight g)))
  | _ => true
  end.
Definition within (capacity : option nat) (n : nat) : Prop := match capacity with Some c => (n <= c)%nat | None => n = 0%nat end.
Record consistent_gate (s : gate_state) : Prop := {
  waiting_count : waiting s = count in_queue (requests s);
  flying_count : flying s = count in_flight (requests s);
  waiting_within : within (queue g) (waiting s);
  flying_within : within (inFlight g) (flying s);
  states_on_path : forall p st, requests s !! p = Some st -> on_path st = true;
}.
Lemma moves_spec c st q i st' q' i' : (st', q', i') ∈ moves g c st q i -> on_path st = true -> within (queue g) q -> within (inFlight g) i ->
  on_path st' = true /\ (q' + one (in_queue st) = q + one (in_queue st'))%nat /\ (i' + one (in_flight st) = i + one (in_flight st'))%nat
  /\ within (queue g) q' /\ within (inFlight g) i'.
Proof.
  intros Hm Hp Hq Hi. unfold on_path, within in *. destruct st as [|b|b|b|b|b|b|b o|o]; cbn [moves in_queue in_flight] in Hm |- *.
  all: destruct (queue g) as [cq|], (inFlight g) as [cf|]; next_moves; cbn in *; split_and!; first [done|lia].
Qed.
Lemma idle_consistent : consistent_gate idle.
Proof. split; [done|done|..]; [unfold within; cbn; by destruct (queue g); [lia|]|unfold within; cbn; by destruct (inFlight g); [lia|]|]. intros p st Hp. cbn [requests idle] in Hp. by rewrite lookup_empty in Hp. Qed.
Lemma move_consistent s s' : consistent_gate s -> request_step g s s' -> consistent_gate s'.
Proof.
  intros Hc Hs. destruct Hs as [s p st st' q i Hst Hm]. destruct Hc as [Hw Hf Hq Hi Hp]. destruct (moves_spec _ _ _ _ _ _ _ Hm (Hp _ _ Hst) Hq Hi) as (Hp' & Eq & Ei & Hq' & Hi').
  split; cbn [requests waiting flying]; [| |done|done|].
  - pose proof (count_update in_queue _ _ _ st' Hst). lia.
  - pose proof (count_update in_flight _ _ _ st' Hst). lia.
  - intros p' x [[<- <-]|[_ Hx]]%lookup_insert_Some; [done|by eapply Hp].
Qed.
Lemma step_consistent s s' : consistent_gate s -> gate_step g s s' -> consistent_gate s'.
Proof.
  intros Hc Hs. destruct Hs as [s s' Hm|s p Hp|s p]; [by eapply move_consistent| |].
  - destruct Hc as [Hw Hf Hq Hi Hon]. split; cbn [requests waiting flying]; [by rewrite count_fresh|by rewrite count_fresh|done|done|].
    intros p' x [[<- <-]|[_ Hx]]%lookup_insert_Some; [done|by eapply Hon].
  - by destruct Hc.
Qed.
Lemma reachable_consistent s : reachable g s -> consistent_gate s.
Proof.
  unfold reachable. intros Hr. assert (forall x, rtc (gate_step g) x s -> consistent_gate x -> consistent_gate s) as Hall.
  { clear Hr. intros x. induction 1; [done|]. intros Hx. eauto using step_consistent. }
  eapply Hall; [exact Hr|apply idle_consistent].
Qed.

(** *** Progress *)
Definition open_gate : Prop := (forall c, inFlight g = Some c -> (1 <= c)%nat).
Lemma holder_moves c s p st : consistent_gate s -> requests s !! p = Some st -> in_flight st = true -> moves g c st (waiting s) (flying s) <> [].
Proof.
  intros [Hw Hf _ _ _] Hp Hh. destruct st as [|b|b|b|b|b|b|b o|o]; try done; cbn [moves in_flight] in *.
  - destruct b; [|done]. pose proof (count_member in_queue _ _ _ Hp eq_refl). destruct (waiting s); [lia|done].
  - by destruct (limiter g).
  - subst b. pose proof (count_member in_flight _ _ _ Hp eq_refl). destruct (flying s); [lia|done].
Qed.
(** A request waits only for a place in flight, and then another one has it. *)
Lemma stuck_request c s p st : consistent_gate s -> requests s !! p = Some st -> moves g c st (waiting s) (flying s) = [] ->
  (exists o, st = Finished o) \/ exists b cap, st = Selecting b /\ inFlight g = Some cap /\ flying s = cap /\ c = false.
Proof.
  intros Hc Hp Hm. destruct (in_flight st) eqn:Hh; [by eapply holder_moves in Hm|]. pose proof Hc as [Hw Hf _ Hi _].
  assert (in_queue st = true -> (1 <= waiting s)%nat) as Hq by (intros Hq; rewrite Hw; by eapply count_member).
  destruct st as [|b|b|b|b|b|b|b o|o]; cbn [moves in_queue in_flight] in *; try done; try (by left; eexists).
  - destruct (queue g) as [cap|]; [by destruct (_ <? _)%nat|done].
  - destruct (inFlight g) as [cap|] eqn:Ef; [|done]. destruct (Nat.ltb_spec (flying s) cap); [done|]. right. exists b, cap.
    unfold within in Hi. destruct c; [done|]. split_and!; [done..|lia|done].
  - destruct b; [|done]. destruct (waiting s); [by specialize (Hq eq_refl); lia|done].
  - destruct b; [|done]. destruct (waiting s); [by specialize (Hq eq_refl); lia|done].
  - by destruct (limiter g).
  - subst b. done.
Qed.
Lemma moves_step s p st : requests s !! p = Some st -> moves g (bool_decide (p ∈ canceled s)) st (waiting s) (flying s) <> [] -> exists s', request_step g s s'.
Proof. intros Hp Hm. destruct (moves _ _ _ _ _) as [|[[st' q] i] l] eqn:E; [done|]. eexists. econstructor; [exact Hp|]. rewrite E. by left. Qed.
Lemma progress s : open_gate -> consistent_gate s -> nf (request_step g) s -> forall p st, requests s !! p = Some st -> exists o, st = Finished o.
Proof.
  intros Hopen Hc Hnf p st Hp. destruct (decide (moves g (bool_decide (p ∈ canceled s)) st (waiting s) (flying s) = [])) as [Hm|Hm].
  2: { exfalso. apply Hnf. by eapply moves_step. }
  destruct (stuck_request _ _ _ _ Hc Hp Hm) as [|(b & cap & -> & Hf & Hcap & _)]; [done|]. exfalso.
  destruct (count_positive in_flight (requests s)) as (p' & st' & Hp' & Hh).
  { rewrite <-(flying_count s Hc), Hcap. by apply Hopen. }
  apply Hnf. eapply moves_step; [exact Hp'|]. by eapply holder_moves.
Qed.
(** *** Termination: every step brings a request nearer to its end. *)
Definition remaining (st : request_state) : nat :=
  match st with
  | Arriving => 6 | Selecting _ => 5 | Entered _ | Canceling _ | Unlimited _ => 4
  | Limiting _ => 3 | Invoking _ => 2 | Releasing _ _ => 1 | Finished _ => 0
  end.
Lemma moves_remaining c st q i st' q' i' : (st', q', i') ∈ moves g c st q i -> (remaining st' < remaining st)%nat.
Proof.
  intros Hm. destruct st as [|b|b|b|b|b|b|b o|o]; cbn [moves] in Hm; destruct (queue g) as [cq|], (inFlight g) as [cf|]; next_moves; cbn; lia.
Qed.
Definition total_remaining (m : gmap nat request_state) : nat := sum_list_with remaining (map_to_list m).*2.
Lemma total_remaining_update m p st st' : m !! p = Some st -> (remaining st' < remaining st)%nat -> (total_remaining (<[ p := st' ]> m) < total_remaining m)%nat.
Proof.
  intros Hp Hr. assert (forall st m, m !! p = None -> total_remaining (<[ p := st ]> m) = (remaining st + total_remaining m)%nat) as Hfresh.
  { intros x y Hy. unfold total_remaining. by rewrite (sum_list_with_Permutation_proper _ _ _ (fmap_Permutation snd _ _ (map_to_list_insert y p x Hy))). }
  rewrite <-(insert_delete_id m p st Hp) at 2. rewrite <-insert_delete_eq. rewrite !Hfresh by apply lookup_delete_eq. lia.
Qed.
Lemma steps_terminate s : sn (request_step g) s.
Proof.
  remember (total_remaining (requests s)) as n eqn:E. assert (total_remaining (requests s) <= n)%nat as Hn by lia. clear E.
  revert s Hn. induction n as [|n IH]; intros s Hn; constructor; intros s' Hs; unfold flip in Hs; destruct Hs as [s p st st' q i Hp Hm];
    apply moves_remaining in Hm; pose proof (total_remaining_update _ _ _ _ Hp Hm); [lia|]. apply IH. cbn [requests]. lia.
Qed.
End interleavings.

(** ** Properties *)
(** [C23] A gate keeps its limits under every interleaving of any number of requests, with
    cancellations at any time: no more requests are sent at once than its limit, no more
    wait than its queue has places, and a request that gives a place back never waits for
    it. *)
Theorem gate_keeps_limits g s : reachable g s ->
  (forall cap, inFlight g = Some cap -> (count is_invoking (requests s) <= cap)%nat)
  /\ (forall cap, queue g = Some cap -> (count in_queue (requests s) <= cap)%nat)
  /\ (forall p st, requests s !! p = Some st -> (match st with Entered _ | Canceling _ | Unlimited _ | Releasing _ _ => True | _ => False end) ->
      moves g (bool_decide (p ∈ canceled s)) st (waiting s) (flying s) <> []).
Proof.
  intros Hr%reachable_consistent. split_and!.
  - intros cap Hcap. pose proof (flying_within g s Hr) as Hi. rewrite Hcap in Hi. cbn in Hi. rewrite (flying_count g s Hr) in Hi.
    etransitivity; [|exact Hi]. apply count_le. intros p st Hp Hst. pose proof (states_on_path g s Hr p st Hp) as Hon. destruct st; try done.
    cbn in Hon |- *. rewrite Hcap in Hon. apply bool_decide_eq_true in Hon. subst held. by apply bool_decide_eq_true.
  - intros cap Hcap. pose proof (waiting_within g s Hr) as Hq. rewrite Hcap in Hq. by rewrite <-(waiting_count g s Hr).
  - intros p st Hp Hst Hm. destruct (stuck_request g _ s p st Hr Hp Hm) as [[o ->]|(b & cap & -> & _)]; done.
Qed.
(** [C24] Every request is answered: at any moment, if no more requests arrive and no more
    contexts are canceled, every run of the requests there are ends, whatever the order of
    their steps, and where it ends each one was sent, refused or canceled: the gate
    deadlocks under no interleaving. *)
Theorem requests_are_answered cfg s : let g := newRequestThrottleGate cfg in reachable g s ->
  sn (request_step g) s /\ forall s', rtc (request_step g) s s' -> nf (request_step g) s' ->
    forall p st, requests s' !! p = Some st -> exists o, st = Finished o.
Proof.
  intros g Hr%reachable_consistent. split; [apply steps_terminate|]. intros s' Hs. apply progress.
  - intros c Hc. subst g. cbn in Hc. destruct (Z.ltb_spec 0 (MaxConcurrentRequests cfg)); [|done]. injection Hc as <-. lia.
  - induction Hs; [done|]. apply IHHs. by eapply move_consistent.
Qed.
(** A request is refused only when as many others as the queue has places hold one. *)
Lemma refused_when_full g s s' p : reachable g s -> request_step g s s' -> requests s !! p = Some Arriving ->
  requests s' !! p = Some (Finished QueueFull) -> queue g = Some (count in_queue (requests s)).
Proof.
  intros Hr%reachable_consistent Hs. destruct Hs as [s q st st' n i Hst Hm]. intros Hp Hp'. cbn [requests] in Hp'.
  destruct (decide (p = q)) as [<-|]; [|rewrite lookup_insert_ne in Hp' by done; congruence].
  rewrite lookup_insert_eq in Hp'. rewrite Hp in Hst. simplify_eq. cbn [moves] in Hm. pose proof (waiting_within g s Hr) as Hq.
  destruct (queue g) as [cap|]; next_moves. cbn in Hq. f_equal. rewrite <-(waiting_count g s Hr). lia.
Qed.

(** *** Clients of one key share a gate *)
Definition sharing (st : throttles) : Prop :=
  (forall k n, shared st !! k = Some n -> k <> "" /\ (n < length (gates st))%nat) /\ (forall k k' n, shared st !! k = Some n -> shared st !! k' = Some n -> k = k').
(** What a client was given: a gate of its own, or the gate of its key. *)
Definition gate_of (st : throttles) (cfg : HTTPRequestThrottling) (n : nat) : Prop :=
  (n < length (gates st))%nat /\ (if requestThrottleKey cfg == "" then forall k, shared st !! k <> Some n else shared st !! requestThrottleKey cfg = Some n).
Lemma build_spec cfg st r st' : sharing st -> buildRequestThrottle cfg st = (r, st') ->
  sharing st' /\ (length (gates st) <= length (gates st'))%nat /\ (forall c n, gate_of st c n -> gate_of st' c n)
  /\ forall c n, cfg = Some c -> r = Ok (Some n) -> gate_of st' c n /\ (requestThrottleKey c = "" -> n = length (gates st)).
Proof.
  intros [Hlt Hinj] Hb. destruct cfg as [cfg|]; [|injection Hb as <- <-; by split_and!]. cbn in Hb.
  destruct (check_throttling cfg) as [[]|e] eqn:Ec; [|injection Hb as <- <-; split_and!; [done..|by intros]].
  case_bool_decide as Ek.
  { injection Hb as <- <-. cbn [gates shared]. rewrite length_app. cbn [length]. split_and!; [split; [|done]|lia| |].
    - intros k n Hk. cbn [gates]. rewrite length_app. destruct (Hlt k n Hk). split; [done|]. lia.
    - intros c n [Hn Hc]. split; [cbn [gates]; rewrite length_app; lia|done].
    - intros c n [= <-] [= <-]. split; [|done]. split; [cbn [gates]; rewrite length_app; cbn; lia|]. rewrite bool_decide_true by done.
      intros k Hk. cbn [shared] in Hk. destruct (Hlt _ _ Hk). lia. }
  destruct (shared st !! requestThrottleKey cfg) as [n0|] eqn:Es; injection Hb as <- <-.
  { split_and!; [done..|]. intros c n [= <-] [= <-]. split; [|done]. split; [by apply (Hlt _ _ Es)|]. by rewrite bool_decide_false. }
  cbn [gates shared]. rewrite length_app. cbn [length]. split_and!; [split|lia| |].
  - intros k n. cbn [gates shared]. rewrite length_app. cbn [length]. intros [[<- <-]|[_ Hk]]%lookup_insert_Some; [split; [done|lia]|]. destruct (Hlt k n Hk). split; [done|lia].
  - intros k k' n. cbn [shared]. intros [[<- <-]|[? Hk]]%lookup_insert_Some [[<- E]|[? Hk']]%lookup_insert_Some; [done|..].
    + destruct (Hlt _ _ Hk'). lia.
    + subst n. destruct (Hlt _ _ Hk). lia.
    + by eapply Hinj.
  - intros c n [Hn Hc]. split; cbn [gates shared]; [rewrite length_app; lia|]. case_bool_decide.
    + intros k [[_ <-]|[_ Hk]]%lookup_insert_Some; [lia|by eapply Hc].
    + rewrite lookup_insert_ne; [done|]. intros E. rewrite E in Es. congruence.
  - intros c n [= <-] [= <-]. split; [|done]. split; cbn [gates shared]; [rewrite length_app; cbn; lia|]. rewrite bool_decide_false by done. apply lookup_insert_eq.
Qed.
Fixpoint build_all (cfgs : list (option HTTPRequestThrottling)) (st : throttles) : list (result error (option nat)) * throttles :=
  match cfgs with
  | [] => ([], st)
  | cfg :: cfgs => let '(r, st) := buildRequestThrottle cfg st in let '(rs, st) := build_all cfgs st in (r :: rs, st)
  end.
Lemma build_all_spec cfgs : forall st rs st', sharing st -> build_all cfgs st = (rs, st') ->
  sharing st' /\ (length (gates st) <= length (gates st'))%nat /\ (forall c n, gate_of st c n -> gate_of st' c n)
  /\ (forall i c n, cfgs !! i = Some (Some c) -> rs !! i = Some (Ok (Some n)) -> gate_of st' c n)
  /\ (forall i c n, cfgs !! i = Some (Some c) -> rs !! i = Some (Ok (Some n)) -> requestThrottleKey c = "" -> (length (gates st) <= n)%nat)
  /\ (forall i j c c' n, cfgs !! i = Some (Some c) -> rs !! i = Some (Ok (Some n)) -> cfgs !! j = Some (Some c') -> rs !! j = Some (Ok (Some n)) ->
      requestThrottleKey c = "" -> i = j).
Proof.
  induction cfgs as [|cfg cfgs IH]; intros st rs st' Hsh Hb; cbn [build_all] in Hb.
  { injection Hb as <- <-. split_and!; by intros. }
  destruct (buildRequestThrottle cfg st) as [r st1] eqn:E1. destruct (build_all cfgs st1) as [rs1 st2] eqn:E2. injection Hb as <- <-.
  destruct (build_spec _ _ _ _ Hsh E1) as (Hsh1 & L1 & K1 & G1). destruct (IH _ _ _ Hsh1 E2) as (Hsh2 & L2 & K2 & G2 & F2 & S2). split_and!.
  - done.
  - lia.
  - auto.
  - intros [|i] c n Hc Hr; cbn in Hc, Hr; [|by eapply G2]. simplify_eq. apply K2. by apply G1.
  - intros [|i] c n Hc Hr Hk; cbn in Hc, Hr; [simplify_eq; destruct (G1 c n eq_refl eq_refl) as [_ ->]; done|]. specialize (F2 _ _ _ Hc Hr Hk). lia.
  - intros [|i] [|j] c c' n Hc Hr Hc' Hr' Hk; cbn in *; [done|..|f_equal; by eapply S2].
    + simplify_eq. destruct (G1 c n eq_refl eq_refl) as [Hg Hn]. pose proof (G2 _ _ _ Hc' Hr') as [_ Hg']. pose proof (K2 _ _ Hg) as [_ Hg2].
      rewrite bool_decide_true in Hg2 by done. case_bool_decide; [|by apply Hg2 in Hg'].
      specialize (F2 _ _ _ Hc' Hr' ltac:(done)). specialize (Hn Hk). destruct Hg as [Hlt _]. lia.
    + simplify_eq. specialize (F2 _ _ _ Hc Hr Hk). destruct (G1 c' n eq_refl eq_refl) as [[Hlt _] _]. lia.
Qed.
(** Clients share a gate exactly when their settings have the same key: whatever gates
    were asked for, in whatever order, two answers are the same gate if and only if the keys
    of their settings are the same and not empty, or they are the same answer. *)
Theorem gates_shared_by_key cfgs rs st' i j c c' n n' : build_all cfgs {| gates := []; shared := ∅ |} = (rs, st') ->
  cfgs !! i = Some (Some c) -> rs !! i = Some (Ok (Some n)) -> cfgs !! j = Some (Some c') -> rs !! j = Some (Ok (Some n')) ->
  n = n' <-> i = j \/ requestThrottleKey c = requestThrottleKey c' /\ requestThrottleKey c <> "".
Proof.
  intros Hb Hc Hr Hc' Hr'. assert (sharing {| gates := []; shared := ∅ |}) as Hsh.
  { split; cbn; [intros k m Hk|intros k k' m Hk]; by rewrite lookup_empty in Hk. }
  destruct (build_all_spec _ _ _ _ Hsh Hb) as ([_ Hinj] & _ & _ & G & _ & Hfresh). destruct (G _ _ _ Hc Hr) as [_ Hg]. destruct (G _ _ _ Hc' Hr') as [_ Hg']. split.
  - intros <-. destruct (decide (requestThrottleKey c = "")) as [Ek|Ek]; [left; by eapply Hfresh|].
    destruct (decide (requestThrottleKey c' = "")) as [Ek'|Ek']; [left; symmetry; by eapply Hfresh|]. right.
    rewrite bool_decide_false in Hg, Hg' by done. split; [by eapply Hinj|done].
  - intros [->|[E Hne]]; [congruence|]. rewrite <-E in Hg'. rewrite bool_decide_false in Hg, Hg' by done. congruence.
Qed.

(** ** Runs written out *)
Inductive gate_choice := Arrive (p : nat) | Cancel (p : nat) | Move (p k : nat).
Definition choose (g : requestThrottleGate) (c : gate_choice) (s : gate_state) : option gate_state :=
  match c with
  | Arrive p =>
      match requests s !! p with
      | None => Some {| requests := <[ p := Arriving ]> (requests s); canceled := canceled s; waiting := waiting s; flying := flying s |}
      | Some _ => None
      end
  | Cancel p => Some {| requests := requests s; canceled := {[ p ]} ∪ canceled s; waiting := waiting s; flying := flying s |}
  | Move p k =>
      st ← requests s !! p;
      '(st', q, i) ← moves g (bool_decide (p ∈ canceled s)) st (waiting s) (flying s) !! k;
      Some {| requests := <[ p := st' ]> (requests s); canceled := canceled s; waiting := q; flying := i |}
  end.
Fixpoint replay (g : requestThrottleGate) (cs : list gate_choice) (s : gate_state) : option gate_state :=
  match cs with [] => Some s | c :: cs => s ← choose g c s; replay g cs s end.
Lemma choose_step g c s s' : choose g c s = Some s' -> gate_step g s s'.
Proof.
  destruct c as [p|p|p k]; cbn.
  - destruct (requests s !! p) eqn:E; [done|]. intros [= <-]. by apply step_arrive.
  - intros [= <-]. apply step_cancel.
  - destruct (requests s !! p) as [st|] eqn:E; [|done]. cbn. destruct (moves _ _ _ _ _ !! k) as [[[st' q] i]|] eqn:Em; [|done]. cbn. intros [= <-].
    apply step_move. econstructor; [exact E|]. by eapply list_elem_of_lookup_2.
Qed.
Lemma replay_reachable g cs s s' : reachable g s -> replay g cs s = Some s' -> reachable g s'.
Proof.
  revert s. induction cs as [|c cs IH]; intros s Hs Hr; cbn in Hr; [by injection Hr as <-|].
  destruct (choose g c s) as [s1|] eqn:E; [|done]. cbn in Hr. eapply IH; [|exact Hr]. eapply rtc_r; [exact Hs|by eapply choose_step].
Qed.
Section witnesses.
Definition two_at_once : HTTPRequestThrottling :=
  {| MaxConcurrentRequests := 2; QueueSize := 1; RequestsPerSecond := float_zero; Burst := 0; ScopeKey := "dev" |}.
Definition two_gate : requestThrottleGate := newRequestThrottleGate two_at_once.
(** Two requests are being sent, one waits. *)
Definition busy_run : list gate_choice :=
  [Arrive 0; Move 0 0; Move 0 0; Move 0 0; Move 0 0; Arrive 1; Move 1 0; Move 1 0; Move 1 0; Move 1 0; Arrive 2; Move 2 0].
Definition busy : gate_state :=
  {| requests := {[ 0%nat := Invoking true; 1%nat := Invoking true; 2%nat := Selecting true ]}; canceled := ∅; waiting := 1; flying := 2 |}.
Lemma busy_reachable : reachable two_gate busy.
Proof. apply (replay_reachable _ busy_run idle); [apply rtc_refl|]. vm_compute. reflexivity. Qed.
Lemma gate_keeps_limits_witness : count is_invoking (requests busy) = 2%nat /\ (count is_invoking (requests busy) <= 2)%nat.
Proof. split; [vm_compute; reflexivity|]. apply (proj1 (gate_keeps_limits two_gate busy busy_reachable) 2%nat). reflexivity. Defined.
Lemma requests_are_answered_witness : sn (request_step two_gate) busy.
Proof. exact (proj1 (requests_are_answered two_at_once busy busy_reachable)). Defined.
Definition own_gate : HTTPRequestThrottling :=
  {| MaxConcurrentRequests := 2; QueueSize := 1; RequestsPerSecond := float_zero; Burst := 0; ScopeKey := "" |}.
Lemma gates_shared_by_key_witness :
  (build_all [Some two_at_once; Some own_gate; Some two_at_once] {| gates := []; shared := ∅ |}).1 = [Ok (Some 0%nat); Ok (Some 1%nat); Ok (Some 0%nat)]
  /\ (0%nat = 0%nat <-> 0%nat = 2%nat \/ requestThrottleKey two_at_once = requestThrottleKey two_at_once /\ requestThrottleKey two_at_once <> "").
Proof.
  destruct (build_all [Some two_at_once; Some own_gate; Some two_at_once] {| gates := []; shared := ∅ |}) as [rs st] eqn:E.
  assert (rs = [Ok (Some 0%nat); Ok (Some 1%nat); Ok (Some 0%nat)]) as -> by (vm_compute in E; congruence).
  split; [reflexivity|]. exact (gates_shared_by_key _ _ st 0 2 two_at_once two_at_once 0 0 E eq_refl eq_refl eq_refl eq_refl).
Defined.
(** The place in the queue comes before the one in flight: a request is refused because
    another one, that nothing keeps waiting, is on its way through the queue. *)
Lemma refused_while_idle : exists s, reachable two_gate s /\ requests s !! 1%nat = Some (Finished QueueFull) /\ flying s = 0%nat.
Proof.
  exists {| requests := {[ 0%nat := Selecting true; 1%nat := Finished QueueFull ]}; canceled := ∅; waiting := 1; flying := 0 |}.
  split; [|done]. apply (replay_reachable _ [Arrive 0; Move 0 0; Arrive 1; Move 1 0] idle); [apply rtc_refl|]. vm_compute. reflexivity.
Qed.
(** A rate that is no number passes the check, and limits nothing. *)
Lemma nan_rate_unlimited : let cfg := {| MaxConcurrentRequests := 0; QueueSize := 0; RequestsPerSecond := S754_nan; Burst := 0; ScopeKey := "" |} in
  check_throttling cfg = Ok tt /\ newRequestThrottleGate cfg = {| limiter := None; inFlight := None; queue := None |}.
Proof. split; vm_compute; reflexivity. Qed.
(** Rates that differ by less than a millionth have one key. *)
Lemma key_rounds_rate : format_fixed6 (S754_finite false 1 (-40)) = format_fixed6 (S754_finite false 1 (-41)).
Proof. vm_compute. reflexivity. Qed.
Lemma format_fixed6_examples : format_fixed6 (S754_finite false 5 (-1)) = "2.500000" /\ format_fixed6 (S754_finite false 1 (-20)) = "0.000001" /\ format_fixed6 (float64_of_Z 10) = "10.000000".
Proof. split_and!; vm_compute; reflexivity. Qed.
End witnesses.
