(* ===== verification/HttpSchema.v ===== *)
(** * Validation of payloads against the OpenAPI description

    Models [schema_introspection.go], [schema_resolution.go] and [schema_validation.go] of
    [src/internal/providers/managedservice/http]: references of a description, the fields a
    schema names, and the validation of a payload. A description is a payload value; a map
    with other keys than strings is not among the values. The errors inside a validation are
    texts. The depth of a schema is counted down from 97, where none left is the error of the
    code. Go walks the properties of an object in any order: [order] gives the keys. *)
From S2P Require Import Prelude GoText GoTextFacts GoFloat Faults Value Pointer.
Local Open Scope nat_scope.

(** [maxSchemaDepth] is 96: a schema at depth 97 is refused. *)
Definition schema_depth : nat := 97.
Definition object_order := object -> list string.
Definition field (o : object) (key : string) : value := default VNil (o !! key).
(** [for] with an early return of the first error. *)
Fixpoint for_each {A} (f : A -> result string unit) (l : list A) : result string unit :=
  match l with [] => Ok tt | x :: l => f x;; for_each f l end.

(** ** Looking into schemas *)
Section introspection.
Context `{UnicodeTables}.
Definition schemaSlice (v : value) : option (list value) := match v with VList typed => Some typed | _ => None end.
Definition asStringAnyMap (v : value) : option object := match v with VMap typed => Some typed | _ => None end.
Definition text_items (v : value) : list string :=
  omap (fun raw => match raw with VString name => Some name | _ => None end) (default [] (schemaSlice v)).
Definition requiredPropertyNames (v : value) : list string := collect_fresh [] (filter (fun s => s <> "") (map trim_space (text_items v))).
Definition schemaTypeNames (v : value) : list string :=
  match v with
  | VString single => let trimmed := to_lower (trim_space single) in if trimmed == "" then [] else [trimmed]
  | _ => collect_fresh [] (filter (fun s => s <> "") (map (fun name => to_lower (trim_space name)) (text_items v)))
  end.
Definition schemaTypeContains (v : value) (expected : string) : bool :=
  let expectedNormalized := to_lower (trim_space expected) in
  if expectedNormalized == "" then false else bool_decide (expectedNormalized ∈ schemaTypeNames v).
(** [math.Trunc(f) == f]. *)
Definition float_integral (f : spec_float) : bool :=
  match f with
  | S754_nan => false
  | S754_finite _ m e => (0 <=? e)%Z || (Zpos m mod 2 ^ (- e) =? 0)%Z
  | _ => true
  end.
Definition is_int_value (v : value) : bool := match v with VInt64 _ | VIntK _ _ | VUintK _ _ => true | _ => false end.
Definition valueMatchesSchemaType (v : value) (schemaType : string) : bool :=
  let schemaType := to_lower (trim_space schemaType) in
  if schemaType == "null" then match v with VNil => true | _ => false end
  else if schemaType == "boolean" then match v with VBool _ => true | _ => false end
  else if schemaType == "string" then match v with VString _ => true | _ => false end
  else if schemaType == "object" then match v with VMap _ => true | _ => false end
  else if schemaType == "array" then match v with VList _ => true | _ => false end
  else if schemaType == "integer" then is_int_value v || match v with VFloat64 f | VFloat32 f => float_integral f | _ => false end
  else if schemaType == "number" then is_int_value v || match v with VFloat64 _ | VFloat32 _ => true | _ => false end
  else false.
(** [%T] of a value no normalized payload holds. *)
Variable type_name : value -> string.
Definition describeValueType (v : value) : string :=
  match v with
  | VNil => "null"
  | VMap _ => "object"
  | VList _ => "array"
  | VString _ => "string"
  | VBool _ => "boolean"
  | VInt64 _ | VIntK _ _ | VUintK _ _ => "integer"
  | VFloat32 _ | VFloat64 _ => "number"
  | VBinary _ => "resource.BinaryValue"
  | _ => type_name v
  end.
Definition dotPath (base fieldName : string) : string :=
  let trimmedField := trim_space fieldName in
  if trimmedField == "" then base
  else if (base == "") || (base == "$") then "$." +:+ trimmedField
  else base +:+ "." +:+ trimmedField.

(** ** References *)
Fixpoint walk_segments (current : value) (segments : list string) : option value :=
  match segments with
  | [] => Some current
  | rawSegment :: segments =>
      let segment := replace_all (replace_all rawSegment "~1" "/") "~0" "~" in
      currentMap ← asStringAnyMap current;
      next ← currentMap !! segment;
      walk_segments next segments
  end.
Definition resolveOpenAPIJSONPointer (document : object) (ref : string) : option value :=
  let trimmedRef := trim_space ref in
  if negb (has_prefix trimmedRef "#/") then None
  else
    let pointer := trim_prefix trimmedRef "#/" in
    if trim_space pointer == "" then Some (VMap document) else walk_segments (VMap document) (split_on slash pointer).
(** [Ok None] is a schema that is no object. *)
Fixpoint resolveSchemaValue (depth_left : nat) (document : object) (schema : value) (visitedRefs : gset string) : result string (option object) :=
  match depth_left with
  | O => Err "schema reference depth exceeded"
  | S depth_left =>
      match asStringAnyMap schema with
      | None => Ok None
      | Some schemaMap =>
          match schemaMap !! "$ref" with
          | None => Ok (Some schemaMap)
          | Some refValue =>
              match refValue with
              | VString ref =>
                  let ref := trim_space ref in
                  if ref == "" then Err "schema $ref must be a non-empty string"
                  else if bool_decide (ref ∈ visitedRefs) then Err ("schema reference cycle detected for " +:+ quote ref)
                  else match resolveOpenAPIJSONPointer document ref with
                       | None => Err ("schema reference " +:+ quote ref +:+ " was not found")
                       | Some resolved => resolveSchemaValue depth_left document resolved ({[ ref ]} ∪ visitedRefs)
                       end
              | _ => Err "schema $ref must be a non-empty string"
              end
          end
      end
  end.
Fixpoint resolveOpenAPIValueRef (depth_left : nat) (document : object) (v : value) (visited : gset string) : option value :=
  match depth_left with
  | O => None
  | S depth_left =>
      match asStringAnyMap v with
      | None => Some v
      | Some mapped =>
          match mapped !! "$ref" with
          | None => Some (VMap mapped)
          | Some (VString ref) =>
              let ref := trim_space ref in
              if ref == "" then None
              else if bool_decide (ref ∈ visited) then None
              else resolved ← resolveOpenAPIJSONPointer document ref;
                   resolveOpenAPIValueRef depth_left document resolved ({[ ref ]} ∪ visited)
          | Some _ => None
          end
      end
  end.
(** The names an object of the schema is known to have; none where the schema is too deep or
    does not resolve. *)
Fixpoint topLevelSchemaObjectFieldNames (depth_left : nat) (schema : value) (document : object) : gset string :=
  match depth_left with
  | O => ∅
  | S next_depth =>
      match resolveSchemaValue depth_left document schema ∅ with
      | Ok (Some resolvedSchema) =>
          let own : gset string := list_to_set (requiredPropertyNames (field resolvedSchema "required")) in
          let properties : gset string := match asStringAnyMap (field resolvedSchema "properties") with
                            | Some properties => list_to_set (filter (fun s => s <> "") (map trim_space (sorted_keys properties)))
                            | None => ∅
                            end in
          let branches : gset string := ⋃ (map (fun item => topLevelSchemaObjectFieldNames next_depth item document) (default [] (schemaSlice (field resolvedSchema "allOf")))) in
          own ∪ properties ∪ branches
      | _ => ∅
      end
  end.

(** ** Validation *)
Definition nullableSchema (schema : object) : bool := match field schema "nullable" with VBool nullable => nullable | _ => false end.
Definition validateSchemaEnum (v : value) (schema : object) (location : string) : result string unit :=
  match schemaSlice (field schema "enum") with
  | None | Some [] => Ok tt
  | Some enumValues => if existsb (fun candidate => deep_equal candidate v) enumValues then Ok tt else Err (location +:+ " value is not allowed by enum")
  end.
Definition validateSchemaType (v : value) (schema : object) (location : string) : result string unit :=
  match schemaTypeNames (field schema "type") with
  | [] => Ok tt
  | types =>
      if existsb (valueMatchesSchemaType v) types then Ok tt
      else Err (location +:+ " expected type [" +:+ str_join ", " types +:+ "], got " +:+ describeValueType v)
  end.
Context (order : object_order).

(** The parts of the validation of one schema; [validate] is the validation one level down. *)
Section level.
Context (document : object) (next_depth : nat) (validate : value -> value -> string -> gset string -> result string unit).
Definition branch_fields (allOf : list value) : gset string := ⋃ (map (fun item => topLevelSchemaObjectFieldNames next_depth item document) allOf).
Definition property_names (schema : object) : gset string :=
  match asStringAnyMap (field schema "properties") with Some ownProperties => dom ownProperties | None => ∅ end.
Definition branch_location (location kind : string) (idx : nat) : string := location +:+ " " +:+ kind +:+ "[" +:+ itoa (Z.of_nat idx) +:+ "]".
Definition validate_all_of (v : value) (schema : object) (location : string) (extraKnownProperties : gset string) : result string unit :=
  match schemaSlice (field schema "allOf") with
  | None | Some [] => Ok tt
  | Some allOf =>
      let unionFields := extraKnownProperties ∪ property_names schema ∪ list_to_set (requiredPropertyNames (field schema "required")) ∪ branch_fields allOf in
      for_each (fun '(idx, item) => validate v item (branch_location location "allOf" idx) unionFields) (imap pair allOf)
  end.
Definition first_error (results : list (result string unit)) : option string :=
  head (omap (fun r => match r with Err e => Some e | Ok _ => None end) results).
Definition validate_any_of (v : value) (schema : object) (location : string) : result string unit :=
  match schemaSlice (field schema "anyOf") with
  | None | Some [] => Ok tt
  | Some anyOf =>
      let results := imap (fun idx item => validate v item (branch_location location "anyOf" idx) ∅) anyOf in
      if existsb is_ok results then Ok tt
      else Err (default (location +:+ " did not match any schema in anyOf") (first_error results))
  end.
Definition validate_one_of (v : value) (schema : object) (location : string) : result string unit :=
  match schemaSlice (field schema "oneOf") with
  | None | Some [] => Ok tt
  | Some oneOf =>
      let matches := length (filter (fun r => is_ok r = true) (imap (fun idx item => validate v item (branch_location location "oneOf" idx) ∅) oneOf)) in
      if (matches =? 1)%nat then Ok tt
      else Err (location +:+ " expected exactly one oneOf schema match, got " +:+ itoa (Z.of_nat matches))
  end.
Definition validateSchemaCombiners (v : value) (schema : object) (location : string) (extraKnownProperties : gset string) : result string unit :=
  validate_all_of v schema location extraKnownProperties;;
  validate_any_of v schema location;;
  validate_one_of v schema location.
Definition validate_properties (properties objectValue : object) (location : string) : result string unit :=
  for_each (fun propertyName =>
    match objectValue !! propertyName with
    | None => Ok tt
    | Some propertyValue => validate propertyValue (field properties propertyName) (dotPath location propertyName) ∅
    end) (order properties).
Definition validate_additional (properties objectValue schema : object) (location : string) (extraKnownProperties : gset string) : result string unit :=
  match schema !! "additionalProperties" with
  | None => Ok tt
  | Some additionalValue =>
      let ownAllOfFields := branch_fields (default [] (schemaSlice (field schema "allOf"))) in
      let known key := bool_decide (is_Some (properties !! key)) || bool_decide (key ∈ extraKnownProperties) || bool_decide (key ∈ ownAllOfFields) in
      match additionalValue with
      | VBool typed =>
          if typed then Ok tt
          else for_each (fun key => if known key then Ok tt else Err (location +:+ " property " +:+ quote key +:+ " is not allowed")) (order objectValue)
      | typed =>
          for_each (fun key => if known key then Ok tt else validate (field objectValue key) typed (dotPath location key) ∅) (order objectValue)
      end
  end.
Definition expects_object (schema : object) : bool :=
  bool_decide (is_Some (asStringAnyMap (field schema "properties"))) || negb (length (requiredPropertyNames (field schema "required")) =? 0)%nat
  || bool_decide (is_Some (schema !! "additionalProperties")) || schemaTypeContains (field schema "type") "object".
Definition validateSchemaObject (v : value) (schema : object) (location : string) (extraKnownProperties : gset string) : result string unit :=
  if negb (expects_object schema) then Ok tt
  else
    let properties := default ∅ (asStringAnyMap (field schema "properties")) in
    match v with
    | VMap objectValue =>
        for_each (fun propertyName => match objectValue !! propertyName with
                                      | Some _ => Ok tt
                                      | None => Err (location +:+ " missing required property " +:+ quote propertyName)
                                      end) (requiredPropertyNames (field schema "required"));;
        validate_properties properties objectValue location;;
        validate_additional properties objectValue schema location extraKnownProperties
    | _ => Err (location +:+ " expected object, got " +:+ describeValueType v)
    end.
Definition item_location (location : string) (idx : nat) : string := location +:+ "[" +:+ itoa (Z.of_nat idx) +:+ "]".
Definition validateSchemaArray (v : value) (schema : object) (location : string) : result string unit :=
  if negb (bool_decide (is_Some (schema !! "items")) || schemaTypeContains (field schema "type") "array") then Ok tt
  else match v with
       | VList arrayValue =>
           match schema !! "items" with
           | None => Ok tt
           | Some itemsValue =>
               match schemaSlice itemsValue with
               | Some tupleItems => for_each (fun '(idx, (item, itemSchema)) => validate item itemSchema (item_location location idx) ∅) (imap pair (zip arrayValue tupleItems))
               | None => for_each (fun '(idx, item) => validate item itemsValue (item_location location idx) ∅) (imap pair arrayValue)
               end
           end
       | _ => Err (location +:+ " expected array, got " +:+ describeValueType v)
       end.
End level.
Fixpoint validateValueAgainstOpenAPISchema (depth_left : nat) (document : object) (v schema : value) (location : string) (extraKnownProperties : gset string)
  : result string unit :=
  match depth_left with
  | O => Err (location +:+ " schema nesting exceeds supported depth")
  | S next_depth =>
      resolvedSchema ← map_err (fun err => location +:+ " " +:+ err) (resolveSchemaValue depth_left document schema ∅);
      match resolvedSchema with
      | None => Ok tt
      | Some resolvedSchema =>
          if resolvedSchema == ∅ then Ok tt
          else if nullableSchema resolvedSchema && match v with VNil => true | _ => false end then Ok tt
          else
            let validate := validateValueAgainstOpenAPISchema next_depth document in
            validateSchemaCombiners document next_depth validate v resolvedSchema location extraKnownProperties;;
            validateSchemaEnum v resolvedSchema location;;
            validateSchemaType v resolvedSchema location;;
            validateSchemaObject document next_depth validate v resolvedSchema location extraKnownProperties;;
            validateSchemaArray validate v resolvedSchema location
      end
  end.
End introspection.
