(* ===== verification/HttpSchemaFacts.v ===== *)
(** * What a schema accepts

    [conforms] is the meaning of a schema without locations, messages or the order of
    properties: every branch of [allOf], some branch of [anyOf], exactly one branch of
    [oneOf], a value of the enumeration and of a type, the required properties, the schema of
    every property and of the additional ones, the schema of every item. The validation
    accepts exactly the payloads that conform. *)
From S2P Require Import Prelude GoText GoTextFacts GoFloat Faults Value Pointer HttpSchema.
Local Open Scope nat_scope.

(** ** Loops that stop at an error *)
Lemma is_ok_bind {E A B} (m : result E A) (k : A -> result E B) : is_ok (mbind k m) = true <-> exists a, m = Ok a /\ is_ok (k a) = true.
Proof. destruct m as [a|e]; cbn; [|naive_solver]. split; [eauto|]. by intros (? & [= <-] & ?). Qed.
Lemma is_ok_seq {E} (m k : result E unit) : is_ok (m;; k) = true <-> is_ok m = true /\ is_ok k = true.
Proof. destruct m as [[]|e]; cbn; naive_solver. Qed.
Lemma for_each_ok {A} (f : A -> result string unit) l : is_ok (for_each f l) = true <-> Forall (fun x => is_ok (f x) = true) l.
Proof. induction l as [|x l IH]; cbn [for_each]; [split; [constructor|done]|]. by rewrite is_ok_seq, IH, Forall_cons. Qed.
Lemma for_each_imap_ok {A} (f : nat * A -> result string unit) (l : list A) :
  is_ok (for_each f (imap pair l)) = true <-> forall i x, l !! i = Some x -> is_ok (f (i, x)) = true.
Proof.
  rewrite for_each_ok, Forall_lookup. split.
  - intros Hf i x Hi. apply (Hf i). by rewrite list_lookup_imap, Hi.
  - intros Hf i [j x] Hi. rewrite list_lookup_imap in Hi. destruct (l !! i) as [y|] eqn:E; [|done]. injection Hi as <- <-. by apply Hf.
Qed.

Section conforms.
Context `{UnicodeTables} (type_name : value -> string) (document : object).
Definition items_of (schema : object) (key : string) : list value := default [] (schemaSlice (field schema key)).
Definition properties_of (schema : object) : object := default ∅ (asStringAnyMap (field schema "properties")).
(** The names the branches of [allOf] are checked to know. *)
Definition union_fields (depth : nat) (schema : object) (extra : gset string) : gset string :=
  extra ∪ property_names schema ∪ list_to_set (requiredPropertyNames (field schema "required")) ∪ branch_fields document depth (items_of schema "allOf").
Definition known_property (depth : nat) (schema : object) (extra : gset string) (key : string) : Prop :=
  is_Some (properties_of schema !! key) \/ key ∈ extra \/ key ∈ branch_fields document depth (items_of schema "allOf").
Fixpoint conforms (depth_left : nat) (v schema : value) (extra : gset string) : Prop :=
  match depth_left with
  | O => False
  | S depth =>
      exists resolved, resolveSchemaValue depth_left document schema ∅ = Ok resolved /\
      match resolved with
      | None => True
      | Some s =>
          s = ∅ \/ nullableSchema s = true /\ v = VNil \/
          (Forall (fun item => conforms depth v item (union_fields depth s extra)) (items_of s "allOf")
           /\ (items_of s "anyOf" = [] \/ Exists (fun item => conforms depth v item ∅) (items_of s "anyOf"))
           /\ (items_of s "oneOf" = [] \/ exists i item, items_of s "oneOf" !! i = Some item /\ conforms depth v item ∅ /\
                 forall j item', items_of s "oneOf" !! j = Some item' -> conforms depth v item' ∅ -> j = i)
           /\ (items_of s "enum" = [] \/ exists candidate, candidate ∈ items_of s "enum" /\ deep_equal candidate v = true)
           /\ (schemaTypeNames (field s "type") = [] \/ exists t, t ∈ schemaTypeNames (field s "type") /\ valueMatchesSchemaType v t = true)
           /\ (expects_object s = true -> exists o, v = VMap o /\
                 (forall k, k ∈ requiredPropertyNames (field s "required") -> is_Some (o !! k)) /\
                 (forall k p x, properties_of s !! k = Some p -> o !! k = Some x -> conforms depth x p ∅) /\
                 match s !! "additionalProperties" with
                 | None | Some (VBool true) => True
                 | Some (VBool false) => forall k, is_Some (o !! k) -> known_property depth s extra k
                 | Some additional => forall k x, o !! k = Some x -> ~ known_property depth s extra k -> conforms depth x additional ∅
                 end)
           /\ (bool_decide (is_Some (s !! "items")) || schemaTypeContains (field s "type") "array" = true -> exists l, v = VList l /\
                 forall items, s !! "items" = Some items ->
                 match items with
                 | VList tuple => forall i x t, l !! i = Some x -> tuple !! i = Some t -> conforms depth x t ∅
                 | _ => forall i x, l !! i = Some x -> conforms depth x items ∅
                 end))
      end
  end.
Context (order : object_order) (Horder : forall m k, k ∈ order m <-> is_Some (m !! k)).

(** ** The parts of one level *)
Section level.
Context (depth : nat) (validate : value -> value -> string -> gset string -> result string unit).
Context (Hvalidate : forall v schema location extra, is_ok (validate v schema location extra) = true <-> conforms depth v schema extra).
Lemma all_of_ok v s location extra : is_ok (validate_all_of document depth validate v s location extra) = true <->
  Forall (fun item => conforms depth v item (union_fields depth s extra)) (items_of s "allOf").
Proof.
  unfold validate_all_of, union_fields, items_of. destruct (schemaSlice (field s "allOf")) as [[|x l]|]; cbn [default]; [split; [constructor|done]| |split; [constructor|done]].
  rewrite for_each_imap_ok, Forall_lookup. by setoid_rewrite Hvalidate.
Qed.
Lemma any_of_ok v s location : is_ok (validate_any_of validate v s location) = true <->
  items_of s "anyOf" = [] \/ Exists (fun item => conforms depth v item ∅) (items_of s "anyOf").
Proof.
  unfold validate_any_of, items_of. destruct (schemaSlice (field s "anyOf")) as [[|x l]|]; cbn [default]; [split; [by left|done]| |split; [by left|done]].
  set (branches := x :: l). assert (existsb is_ok (imap (fun idx item => validate v item (branch_location location "anyOf" idx) ∅) branches) = true
    <-> Exists (fun item => conforms depth v item ∅) branches) as E.
  { rewrite existsb_exists, Exists_exists. split.
    - intros (r & Hr & Hok). apply list_elem_of_In, list_elem_of_lookup in Hr as [i Hi]. rewrite list_lookup_imap in Hi.
      destruct (branches !! i) as [item|] eqn:Eb; [|done]. injection Hi as <-. exists item. split; [by eapply list_elem_of_lookup_2|by apply Hvalidate in Hok].
    - intros (item & [i Hi]%list_elem_of_lookup & Hc). exists (validate v item (branch_location location "anyOf" i) ∅). split; [|by apply Hvalidate].
      apply list_elem_of_In, list_elem_of_lookup. exists i. by rewrite list_lookup_imap, Hi. }
  destruct (existsb _ _) eqn:Ex; [|split; [done|]; intros [?|Hc]; [done|by apply E in Hc]]. split; [|done]. intros _. right. by apply E.
Qed.
Lemma filter_imap_length (P : nat -> value -> bool) l : length (filter (fun b => b = true) (imap P l)) = 1 <->
  exists i x, l !! i = Some x /\ P i x = true /\ forall j y, l !! j = Some y -> P j y = true -> j = i.
Proof.
  revert P. induction l as [|x l IH]; intros P; cbn [imap].
  { split; [done|]. intros (i & y & Hi & _). by rewrite lookup_nil in Hi. }
  rewrite filter_cons. destruct (decide (P 0 x = true)) as [Hx|Hx]; cbn [length].
  - split.
    + intros [= Hl]. exists 0, x. split_and!; [done..|]. intros [|j] y Hy Hj; [done|]. exfalso.
      assert (P (S j) y ∈ filter (fun b => b = true) (imap (P ∘ S) l)) as Hin.
      { apply list_elem_of_filter. split; [done|]. apply list_elem_of_lookup. exists j. change (l !! j = Some y) in Hy. rewrite list_lookup_imap, Hy. done. }
      apply nil_length_inv in Hl. rewrite Hl in Hin. by apply not_elem_of_nil in Hin.
    + intros (i & y & Hi & Hy & Hu). f_equal. assert (i = 0) as -> by (symmetry; by apply (Hu 0 x)).
      destruct (filter _ _) as [|b bs] eqn:E; [done|]. assert (b ∈ filter (fun b => b = true) (imap (P ∘ S) l)) as [-> Hb]%list_elem_of_filter by (rewrite E; by left).
      apply list_elem_of_lookup in Hb as [j Hj]. rewrite list_lookup_imap in Hj. destruct (l !! j) as [z|] eqn:Ez; [|done]. injection Hj as Hj.
      by specialize (Hu (S j) z Ez Hj).
  - rewrite IH. split.
    + intros (i & y & Hi & Hy & Hu). exists (S i), y. split_and!; [done..|]. intros [|j] z Hz Hj; cbn in Hz; [by injection Hz as ->|]. f_equal. by eapply Hu.
    + intros ([|i] & y & Hi & Hy & Hu); cbn in Hi; [by injection Hi as ->|]. exists i, y. split_and!; [done..|]. intros j z Hz Hj. by injection (Hu (S j) z Hz Hj).
Qed.
Lemma one_of_ok v s location : is_ok (validate_one_of validate v s location) = true <->
  items_of s "oneOf" = [] \/ exists i item, items_of s "oneOf" !! i = Some item /\ conforms depth v item ∅ /\
    forall j item', items_of s "oneOf" !! j = Some item' -> conforms depth v item' ∅ -> j = i.
Proof.
  unfold validate_one_of, items_of. destruct (schemaSlice (field s "oneOf")) as [[|x l]|]; cbn [default]; [split; [by left|done]| |split; [by left|done]].
  set (branches := x :: l). set (run idx item := validate v item (branch_location location "oneOf" idx) ∅).
  assert (length (filter (fun r => is_ok r = true) (imap run branches)) = length (filter (fun b => b = true) (imap (fun i y => is_ok (run i y)) branches))) as ->.
  { rewrite <-(length_fmap is_ok (filter _ _)). f_equal. generalize branches, run. clear. intros l. induction l as [|y l IH]; intros run; [done|]. cbn [imap].
    rewrite !filter_cons. destruct (is_ok (run 0 y)) eqn:E; rewrite ?decide_True, ?decide_False by done; cbn [fmap list_fmap]; rewrite ?E; [f_equal|]; apply IH. }
  destruct (Nat.eqb_spec (length (filter (fun b => b = true) (imap (fun i y => is_ok (run i y)) branches))) 1) as [E|E].
  - split; [|done]. intros _. right. apply filter_imap_length in E as (i & y & Hi & Hy & Hu). exists i, y. split_and!; [done|by apply Hvalidate in Hy|].
    intros j z Hz Hc. eapply Hu; [exact Hz|]. by apply Hvalidate.
  - split; [done|]. intros [?|(i & y & Hi & Hy & Hu)]; [done|]. destruct E. apply filter_imap_length. exists i, y. split_and!; [done|by apply Hvalidate|].
    intros j z Hz Hc. apply Hvalidate in Hc. by eapply Hu.
Qed.
Lemma enum_ok v s location : is_ok (validateSchemaEnum v s location) = true <->
  items_of s "enum" = [] \/ exists candidate, candidate ∈ items_of s "enum" /\ deep_equal candidate v = true.
Proof.
  unfold validateSchemaEnum, items_of. destruct (schemaSlice (field s "enum")) as [[|x l]|]; cbn [default]; [split; [by left|done]| |split; [by left|done]].
  destruct (existsb _ _) eqn:E; split; try done.
  - intros _. right. apply existsb_exists in E as (c & Hc & Hd). apply list_elem_of_In in Hc. eauto.
  - intros [?|(c & Hc & Hd)]; [done|]. assert (existsb (fun candidate => deep_equal candidate v) (x :: l) = true) as E'; [|by rewrite E in E'].
    apply existsb_exists. exists c. by rewrite <-list_elem_of_In.
Qed.
Lemma type_ok v s location : is_ok (validateSchemaType type_name v s location) = true <->
  schemaTypeNames (field s "type") = [] \/ exists t, t ∈ schemaTypeNames (field s "type") /\ valueMatchesSchemaType v t = true.
Proof.
  unfold validateSchemaType. destruct (schemaTypeNames (field s "type")) as [|t l]; [split; [by left|done]|].
  destruct (existsb _ _) eqn:E; split; try done.
  - intros _. right. apply existsb_exists in E as (c & Hc & Hd). apply list_elem_of_In in Hc. eauto.
  - intros [?|(c & Hc & Hd)]; [done|]. assert (existsb (valueMatchesSchemaType v) (t :: l) = true) as E'; [|by rewrite E in E'].
    apply existsb_exists. exists c. by rewrite <-list_elem_of_In.
Qed.
Lemma known_ok s extra k : bool_decide (is_Some (properties_of s !! k)) || bool_decide (k ∈ extra) || bool_decide (k ∈ branch_fields document depth (items_of s "allOf")) = true
  <-> known_property depth s extra k.
Proof. unfold known_property. rewrite !orb_true_iff, !bool_decide_eq_true. tauto. Qed.
Lemma properties_ok s o location : is_ok (validate_properties order validate (properties_of s) o location) = true <->
  forall k p x, properties_of s !! k = Some p -> o !! k = Some x -> conforms depth x p ∅.
Proof.
  unfold validate_properties. rewrite for_each_ok, Forall_forall. split.
  - intros Hf k p x Hk Hx. specialize (Hf k (proj2 (Horder _ _) (ex_intro _ _ Hk))). rewrite Hx in Hf. unfold field in Hf. rewrite Hk in Hf. by apply Hvalidate in Hf.
  - intros Hc k Hk. apply Horder in Hk as [p Hk]. destruct (o !! k) as [x|] eqn:Hx; [|done]. unfold field. rewrite Hk. apply Hvalidate. by eapply Hc.
Qed.
Lemma additional_ok s o location extra : is_ok (validate_additional order document depth validate (properties_of s) o s location extra) = true <->
  match s !! "additionalProperties" with
  | None | Some (VBool true) => True
  | Some (VBool false) => forall k, is_Some (o !! k) -> known_property depth s extra k
  | Some additional => forall k x, o !! k = Some x -> ~ known_property depth s extra k -> conforms depth x additional ∅
  end.
Proof.
  unfold validate_additional. destruct (s !! "additionalProperties") as [additional|]; [|done].
  change (branch_fields document depth (default [] (schemaSlice (field s "allOf")))) with (branch_fields document depth (items_of s "allOf")).
  assert (is_ok (for_each (fun key => if bool_decide (is_Some (properties_of s !! key)) || bool_decide (key ∈ extra) || bool_decide (key ∈ branch_fields document depth (items_of s "allOf"))
     then Ok tt else validate (field o key) additional (dotPath location key) ∅) (order o)) = true
     <-> forall k x, o !! k = Some x -> ~ known_property depth s extra k -> conforms depth x additional ∅) as Hany.
  { rewrite for_each_ok, Forall_forall. split.
    - intros Hf k x Hx Hk. specialize (Hf k (proj2 (Horder _ _) (ex_intro _ _ Hx))). rewrite <-known_ok in Hk. destruct (_ || _ || _); [done|].
      unfold field in Hf. rewrite Hx in Hf. by apply Hvalidate in Hf.
    - intros Hc k Hk. apply Horder in Hk as [x Hx]. destruct (_ || _ || _) eqn:E; [done|]. unfold field. rewrite Hx. apply Hvalidate. eapply Hc; [exact Hx|].
      rewrite <-known_ok. by rewrite E. }
  destruct additional as [|[]| | | | | | | | | | | | | | | |]; try exact Hany; [done|].
  rewrite for_each_ok, Forall_forall. split.
  - intros Hf k Hk. specialize (Hf k (proj2 (Horder _ _) Hk)). apply known_ok. by destruct (_ || _ || _).
  - intros Hc k Hk. apply Horder in Hk. apply Hc, known_ok in Hk. by rewrite Hk.
Qed.
Lemma object_ok v s location extra : is_ok (validateSchemaObject type_name order document depth validate v s location extra) = true <->
  (expects_object s = true -> exists o, v = VMap o /\
     (forall k, k ∈ requiredPropertyNames (field s "required") -> is_Some (o !! k)) /\
     (forall k p x, properties_of s !! k = Some p -> o !! k = Some x -> conforms depth x p ∅) /\
     match s !! "additionalProperties" with
     | None | Some (VBool true) => True
     | Some (VBool false) => forall k, is_Some (o !! k) -> known_property depth s extra k
     | Some additional => forall k x, o !! k = Some x -> ~ known_property depth s extra k -> conforms depth x additional ∅
     end).
Proof.
  unfold validateSchemaObject. destruct (expects_object s); cbn [negb]; [|done]. fold (properties_of s).
  destruct v; try (split; [done|]; intros Hc; by destruct (Hc eq_refl) as (? & [=] & _)).
    rewrite !is_ok_seq, for_each_ok, Forall_forall, properties_ok, additional_ok. split.
  - intros (Hr & Hp & Ha) _. exists m. split_and!; [done| |done|done]. intros k Hk. specialize (Hr k Hk). destruct (m !! k); [eauto|done].
  - intros Hc. destruct (Hc eq_refl) as (o & [= <-] & Hr & Hp & Ha). split_and!; [|done|done]. intros k Hk. by destruct (Hr k Hk) as [x ->].
Qed.
Lemma array_ok v s location : is_ok (validateSchemaArray type_name validate v s location) = true <->
  (bool_decide (is_Some (s !! "items")) || schemaTypeContains (field s "type") "array" = true -> exists l, v = VList l /\
     forall items, s !! "items" = Some items ->
     match items with
     | VList tuple => forall i x t, l !! i = Some x -> tuple !! i = Some t -> conforms depth x t ∅
     | _ => forall i x, l !! i = Some x -> conforms depth x items ∅
     end).
Proof.
  unfold validateSchemaArray. destruct (bool_decide _ || _); cbn [negb]; [|done].
  destruct v; try (split; [done|]; intros Hc; by destruct (Hc eq_refl) as (? & [=] & _)).
  destruct (s !! "items") as [items|]; [|split; [|done]; intros _ _; by exists l].
  assert (is_ok (for_each (fun '(idx, item) => validate item items (item_location location idx) ∅) (imap pair l)) = true <-> forall i x, l !! i = Some x -> conforms depth x items ∅) as Hall.
  { rewrite for_each_imap_ok. by setoid_rewrite Hvalidate. }
  destruct items as [| | | | | | | | | | | |tuple| | | | |]; cbn [schemaSlice];
    try (rewrite Hall; split; [intros Hc _; exists l; split; [done|]; by intros ? [= <-]|intros Hc; by destruct (Hc eq_refl) as (l' & [= <-] & Hl); apply (Hl _ eq_refl)]).
  rewrite for_each_imap_ok. split.
  - intros Hc _. exists l. split; [done|]. intros ? [= <-] i x t Hx Ht. eapply Hvalidate, (Hc i (x, t)). by apply lookup_zip_Some.
  - intros Hc i [x t] [Hx Ht]%lookup_zip_Some. destruct (Hc eq_refl) as (l' & [= <-] & Hl). apply Hvalidate. by eapply (Hl _ eq_refl).
Qed.
End level.
(** [C25] The validation of a payload against a schema of the OpenAPI description, for any
    depth left and any order in which the properties are walked, accepts the payload exactly
    where it conforms: every [allOf] branch, some [anyOf] branch, exactly one [oneOf] branch,
    the enumeration, the types, the required, declared and additional properties and the
    items, through references, down to the depth where the code gives up. *)
Theorem schema_verdict depth_left v schema location extra :
  is_ok (validateValueAgainstOpenAPISchema type_name order depth_left document v schema location extra) = true <-> conforms depth_left v schema extra.
Proof.
  revert v schema location extra. induction depth_left as [|depth IH]; intros v schema location extra; [done|].
  cbn [validateValueAgainstOpenAPISchema conforms]. rewrite is_ok_bind.
  destruct (resolveSchemaValue (S depth) document schema ∅) as [resolved|e]; cbn [map_err]; [|split; [by intros (? & [=] & _)|by intros (? & [=] & _)]].
  split.
  - intros (r & [= <-] & Hok). exists resolved. split; [done|]. destruct resolved as [s|]; [|done].
    destruct (s == ∅) eqn:Es; [by left; apply bool_decide_eq_true in Es|]. right.
    destruct (nullableSchema s && match v with VNil => true | _ => false end) eqn:En.
    + left. apply andb_true_iff in En as [Hn Hv]. split; [done|by destruct v].
    + right. revert Hok. unfold validateSchemaCombiners.
      rewrite !is_ok_seq, (all_of_ok _ _ IH), (any_of_ok _ _ IH), (one_of_ok _ _ IH), enum_ok, type_ok, (object_ok _ _ IH), (array_ok _ _ IH). tauto.
  - intros (r & [= <-] & Hc). exists resolved. split; [done|]. destruct resolved as [s|]; [|done].
    destruct Hc as [->|[[En ->]|Hc]]; [done|by destruct (s == ∅); rewrite ?En|].
    destruct (s == ∅); [done|]. destruct (nullableSchema s && _); [done|]. unfold validateSchemaCombiners.
    rewrite !is_ok_seq, (all_of_ok _ _ IH), (any_of_ok _ _ IH), (one_of_ok _ _ IH), enum_ok, type_ok, (object_ok _ _ IH), (array_ok _ _ IH). tauto.
Qed.
End conforms.

(** ** A description *)
Definition pet_document : object :=
  {[ "components" := VMap {[ "schemas" := VMap {[ "Pet" := VMap (list_to_map [
       ("type", VString "object"); ("required", VList [VString "name"]); ("additionalProperties", VBool false);
       ("properties", VMap (list_to_map [("name", VMap {[ "type" := VString "string" ]}); ("tags", VMap (list_to_map [("type", VString "array"); ("items", VMap {[ "type" := VString "string" ]})]))]))]) ]} ]} ]}.
Definition pet_schema : value := VMap {[ "$ref" := VString "#/components/schemas/Pet" ]}.
Definition key_list : object_order := fun m => (map_to_list m).*1.
Lemma key_list_ok m k : k ∈ key_list m <-> is_Some (m !! k).
Proof.
  unfold key_list. rewrite list_elem_of_fmap. split.
  - intros ([k' v] & -> & Hk). apply elem_of_map_to_list in Hk. eauto.
  - intros [v Hk]. exists (k, v). split; [done|]. by apply elem_of_map_to_list.
Qed.
Lemma schema_verdict_witness :
  conforms (H := latin1_tables) pet_document schema_depth (VMap (list_to_map [("name", VString "rex"); ("tags", VList [VString "dog"])])) pet_schema ∅
  /\ ~ conforms (H := latin1_tables) pet_document schema_depth (VMap (list_to_map [("name", VString "rex"); ("age", VInt64 3)])) pet_schema ∅
  /\ ~ conforms (H := latin1_tables) pet_document schema_depth (VMap (list_to_map [("tags", VList [])])) pet_schema ∅.
Proof.
  split_and!; rewrite <-(schema_verdict (H := latin1_tables) (fun _ => "") pet_document key_list key_list_ok schema_depth _ _ "$" ∅); [vm_compute; reflexivity|vm_compute; discriminate|vm_compute; discriminate].
Defined.
(** An enumeration of integers refuses every integer of a payload: the document of a JSON
    description holds floats and that of a YAML one machine integers, and the values are
    compared with their Go types. *)
Lemma integer_enum_refuses (n m : Z) (f : spec_float) kind location :
  validateSchemaEnum (VInt64 n) {[ "enum" := VList [VFloat64 f] ]} location = Err (location +:+ " value is not allowed by enum")
  /\ validateSchemaEnum (VInt64 n) {[ "enum" := VList [VIntK kind m] ]} location = Err (location +:+ " value is not allowed by enum").
Proof. done. Qed.
