(* ===== verification/HttpPayload.v ===== *)
(** * Bodies of requests and responses

    Models [payload_content.go], [request_list_jq.go] (the [resource()] function),
    [operation_payload_transform.go], [payload_assertion.go], [response_decode.go] and
    [list_decode.go] of [src/internal/providers/managedservice/http]. A compiled jq expression
    is a run that yields results one by one and, where it calls [resource()], asks for the
    value and goes on with the answer, so that what a run asks for is asked for in its order
    and nothing after the first error is. [W] is what is outside and [resolve] the resolver of
    the context ([Services.ResolveListJQResource]). *)
From S2P Require Import Prelude GoText GoTextFacts Faults Paths Value Pointer Descriptor Codec Metadata TemplateSyntax Identity RuntimeMetadata Services.

(** [unwrapContentValue] and [unwrapContentDescriptor]: a body is a payload or a
    [resource.Content]. *)
Definition unwrapContentValue (body : payload_input) : value :=
  match body with PayloadContent content => content_Value content | PayloadValue v => v end.
Definition unwrapContentDescriptor (body : payload_input) : PayloadDescriptor :=
  match body with PayloadContent content => content_Descriptor content | PayloadValue _ => empty_descriptor end.

(** ** jq *)
Inductive jq_run :=
| JqDone
| JqValue (v : value) (rest : jq_run)
| JqError (e : error)
| JqCall (args : list value) (answer : result error value -> jq_run).
(** [gojq.Parse] and [gojq.Compile], with the function [resource] or without it. *)
Class JqCompiler := { jq_compile : bool -> string -> result error (value -> jq_run) }.
Definition compileListJQCode `{JqCompiler} (expression : string) : result error (value -> jq_run) :=
  jq_compile (contains expression "resource(") expression.

Section jq.
Context `{by_path : ResourceSort, UnicodeTables} {W : Type} (resolve : string -> action W (option value)).
Definition parseListJQResourcePathArg (args : list value) : result error string :=
  match args with
  | [VString path] =>
      let trimmed := trim_space path in
      if trimmed == "" then Err (errorf "resource() path argument must not be empty") else Ok trimmed
  | [_] => Err (errorf "resource() path argument must be a string")
  | _ => Err (errorf "resource() expects exactly one path argument")
  end.
Definition resolveListJQResource (logicalPath : string) : action W value :=
  found ← resolve logicalPath;
  match found with
  | None => fail (Invalid "resource() requires list resolver context" None)
  | Some resolved => of_result (Normalize resolved)
  end.
(** A call of the function of one compilation, with the values it has resolved; an error is
    a value for the expression. *)
Definition listJQResourceFunction (cache : gmap string value) (args : list value) : action W (result error value * gmap string value) :=
  match parseListJQResourcePathArg args with
  | Err e => mret (Err e, cache)
  | Ok logicalPath =>
      match cache !! logicalPath with
      | Some cached => mret (Ok cached, cache)
      | None =>
          resolved ← catch (resolveListJQResource logicalPath);
          mret match resolved with Ok v => (Ok v, <[logicalPath := v]> cache) | Err e => (Err e, cache) end
      end
  end.
(** The loop over the iterator, which stops at an error. *)
Fixpoint collect_results (cache : gmap string value) (run : jq_run) : action W (result error (list value)) :=
  match run with
  | JqDone => mret (Ok [])
  | JqValue v rest => results ← collect_results cache rest; mret (l ← results; Ok (v :: l))
  | JqError e => mret (Err e)
  | JqCall args answer => '(r, cache) ← listJQResourceFunction cache args; collect_results cache (answer r)
  end.
End jq.

(** ** Transforms *)
Section transforms.
Context `{by_path : ResourceSort, UnicodeTables, JqCompiler} {W : Type} (resolve : string -> action W (option value)).
(** [Ok (inl v)] is the early return of the value itself. *)
Fixpoint select_pointers (v : value) (pointers : list string) (filtered : value) : result error (value + value) :=
  match pointers with
  | [] => Ok (inr filtered)
  | pointer :: pointers =>
      if pointer == "" then Ok (inl (DeepCopyValue v))
      else
        item ← LookupJSONPointer v pointer;
        match item with
        | None => select_pointers v pointers filtered
        | Some item => filtered ← SetJSONPointerValue filtered pointer item; select_pointers v pointers filtered
        end
  end.
Definition applyPayloadSelectAttributes (v : value) (attributes : list string) : result error value :=
  pointers ← NormalizeAttributePointers "selectAttributes" attributes;
  if is_nil v then Ok VNil
  else
    selected ← select_pointers v pointers VNil;
    match selected with
    | inl whole => Ok whole
    | inr VNil => Ok match v with VList _ => VList [] | VMap _ => VMap ∅ | _ => VNil end
    | inr filtered => Ok filtered
    end.
Fixpoint exclude_pointers (filtered : value) (pointers : list string) : result error value :=
  match pointers with
  | [] => Ok filtered
  | pointer :: pointers =>
      if pointer == "" then Ok VNil
      else filtered ← DeleteJSONPointerValue filtered pointer; exclude_pointers filtered pointers
  end.
Definition applyPayloadExcludeAttributes (v : value) (attributes : list string) : result error value :=
  pointers ← NormalizeAttributePointers "excludeAttributes" attributes;
  if is_nil v then Ok VNil else exclude_pointers (DeepCopyValue v) pointers.
Definition applyPayloadJQ (payload : value) (expression : string) : action W value :=
  let trimmedExpression := trim_space expression in
  if trimmedExpression == "" then mret payload
  else
    match compileListJQCode trimmedExpression with
    | Err err => fail (Invalid "invalid payload jq expression" (Some err))
    | Ok code =>
        results ← collect_results resolve ∅ (code payload);
        match results with
        | Err valueErr => fail (Invalid "failed to evaluate payload jq expression" (Some valueErr))
        | Ok [] => mret VNil
        | Ok [result] => of_result (Normalize result)
        | Ok results => of_result (Normalize (VList results))
        end
    end.
Definition apply_transform (current : value) (step : TransformStep) : action W value :=
  let kind := transformStepType step in
  if kind == transformSelect then of_result (applyPayloadSelectAttributes current (default [] (SelectAttributes step)))
  else if kind == transformExclude then of_result (applyPayloadExcludeAttributes current (default [] (ExcludeAttributes step)))
  else if kind == transformJQ then applyPayloadJQ current (JQExpression step)
  else mret current.
Fixpoint apply_transforms (current : value) (steps : list TransformStep) : action W value :=
  match steps with
  | [] => mret current
  | step :: steps => current ← apply_transform current step; apply_transforms current steps
  end.
Definition applyOperationPayloadTransforms (body : payload_input) (spec : OperationSpec) : action W value :=
  let payload := unwrapContentValue body in
  let steps := default [] (OrderedTransformSteps spec) in
  if (length steps =? 0)%nat then mret payload
  else
    normalized ← of_result (Normalize payload);
    current ← apply_transforms normalized steps;
    of_result (Normalize current).

(** ** Assertions *)
Definition jqValueTruthy (v : value) : bool := match v with VNil => false | VBool b => b | _ => true end.
(** The error of an evaluation comes back after every result before it. *)
Definition evaluateAssertionResults (run : jq_run) : action W (result error bool) :=
  results ← collect_results resolve ∅ run;
  mret (l ← results; Ok (existsb jqValueTruthy l)).
Definition assertion_name (idx : Z) : string := "payload validation assertion[" +:+ itoa idx +:+ "]".
Fixpoint validate_assertions (payload : value) (idx : Z) (assertions : list ValidationAssertion) : action W unit :=
  match assertions with
  | [] => mret tt
  | assertion :: assertions =>
      let expression := trim_space (a_JQ assertion) in
      if expression == "" then validate_assertions payload (idx + 1) assertions
      else
        match compileListJQCode expression with
        | Err err => fail (Invalid ("invalid " +:+ assertion_name idx +:+ " jq expression") (Some err))
        | Ok code =>
            satisfied ← evaluateAssertionResults (code payload);
            match satisfied with
            | Err evalErr => fail (Invalid ("failed to evaluate " +:+ assertion_name idx) (Some evalErr))
            | Ok true => validate_assertions payload (idx + 1) assertions
            | Ok false =>
                let message := trim_space (a_Message assertion) in
                fail (Invalid (if message == "" then assertion_name idx +:+ " failed" else message) None)
            end
        end
  end.
Definition validateOperationAssertions (payload : value) (assertions : list ValidationAssertion) : action W unit :=
  validate_assertions payload 0 assertions.
End transforms.

(** ** Bodies *)
Section bodies.
Context `{by_path : ResourceSort, UnicodeTables, TextCodecs}.
Definition json_descriptor : PayloadDescriptor := NormalizePayloadDescriptor (typed_descriptor PayloadTypeJSON).
Definition media_descriptor (mediaType : string) : PayloadDescriptor :=
  NormalizePayloadDescriptor {| PayloadType := ""; MediaType := mediaType; Extension := "" |}.
Definition request_content (contentType : string) (body : payload_input) : Content :=
  let content := match body with PayloadContent typed => typed | PayloadValue v => {| content_Value := v; content_Descriptor := empty_descriptor |} end in
  if negb (trim_space contentType == "") then
    {| content_Value := content_Value content;
       content_Descriptor := NormalizePayloadDescriptor
         {| MediaType := contentType; PayloadType := PayloadType (content_Descriptor content); Extension := Extension (content_Descriptor content) |} |}
  else if negb (IsPayloadDescriptorExplicit (content_Descriptor content)) then
    {| content_Value := content_Value content;
       content_Descriptor := if IsBinaryValue (content_Value content) then DefaultOctetStreamDescriptor else json_descriptor |}
  else content.
Definition encodeRequestBody (contentType : string) (body : payload_input) : result error string :=
  match body with
  | PayloadValue VNil => Ok ""
  | _ => EncodeContent (request_content contentType body)
  end.

(** The candidates, in order and without a repetition. *)
Definition append_candidate (candidates : list string) (v : string) : list string :=
  let trimmed := trim_space v in if trimmed == "" then candidates else add_fresh candidates trimmed.
Definition responseDecodeCandidates (headerType fallbackType : string) : list string :=
  if (headerType == PayloadTypeText) && IsStructuredPayloadType fallbackType
  then append_candidate (append_candidate [] fallbackType) headerType
  else append_candidate (append_candidate [] headerType) fallbackType.
(** [contentType] is [headers.Get("Content-Type")]. *)
Definition responseHeaderDescriptor (contentType : string) : PayloadDescriptor * bool :=
  let contentType := trim_space contentType in
  if contentType == "" then (empty_descriptor, false) else (media_descriptor contentType, true).
Definition normalizeResponseFallbackDescriptor (fallback : PayloadDescriptor) (body : string) : PayloadDescriptor :=
  if IsPayloadDescriptorExplicit fallback then NormalizePayloadDescriptor fallback
  else if StructuredLookingPayload body then json_descriptor
  else DefaultOctetStreamDescriptor.
Definition descriptorForDecodedCandidate (headerDescriptor : PayloadDescriptor) (headerExplicit : bool)
  (fallbackDescriptor : PayloadDescriptor) (fallbackExplicit : bool) (candidate : string) : PayloadDescriptor :=
  if headerExplicit && (PayloadType headerDescriptor == candidate) then headerDescriptor
  else if fallbackExplicit && (PayloadType fallbackDescriptor == candidate) then fallbackDescriptor
  else NormalizePayloadDescriptor (typed_descriptor candidate).
(** The first candidate that decodes the body, or the last error. *)
Fixpoint decode_first (body : string) (describe : string -> PayloadDescriptor) (candidates : list string) (lastErr : error) : result error Content :=
  match candidates with
  | [] => Err lastErr
  | candidate :: candidates =>
      match DecodePayload body candidate with
      | Ok decoded => Ok {| content_Value := decoded; content_Descriptor := describe candidate |}
      | Err err => decode_first body describe candidates err
      end
  end.
Definition decodeResponseBody (body contentType : string) (fallback : PayloadDescriptor) : result error Content :=
  if body == "" then Ok {| content_Value := VNil; content_Descriptor := normalizeResponseFallbackDescriptor fallback body |}
  else
    let '(headerDescriptor, headerExplicit) := responseHeaderDescriptor contentType in
    let fallbackDescriptor := normalizeResponseFallbackDescriptor fallback body in
    let fallbackExplicit := IsPayloadDescriptorExplicit fallback in
    let candidates := responseDecodeCandidates (PayloadType headerDescriptor) (PayloadType fallbackDescriptor) in
    let candidates := match candidates with [] => [PayloadTypeJSON] | _ => candidates end in
    if match candidates with candidate :: _ => IsStructuredPayloadType candidate | [] => false end && (trim_space body == "")
    then Ok {| content_Value := VNil; content_Descriptor := fallbackDescriptor |}
    else decode_first body (descriptorForDecodedCandidate headerDescriptor headerExplicit fallbackDescriptor fallbackExplicit) candidates
           (errorf "").

Definition summarizeBody (body : string) : string :=
  let trimmed := trim_space body in
  if trimmed == "" then "<empty>"
  else if (256 <? String.length trimmed)%nat then str_take 256 trimmed +:+ "..." else trimmed.
Definition classifyStatusError (statusCode : Z) (body : string) : error :=
  let message := "remote request failed with status " +:+ itoa statusCode +:+ ": " +:+ summarizeBody body in
  if (statusCode =? 401)%Z || (statusCode =? 403)%Z then Auth message None
  else if (statusCode =? 404)%Z then NotFound message None
  else if (statusCode =? 409)%Z then Conflict message None
  else if (400 <=? statusCode)%Z && (statusCode <? 500)%Z then Invalid message None
  else Transport message None.
End bodies.

(** ** Lists *)
Section lists.
Context `{by_path : ResourceSort, UnicodeTables, TextCodecs, TemplateEngine, JqCompiler} {W : Type} (resolve : string -> action W (option value)).
Definition array_fields (fields : object) : list string :=
  filter (fun key => bool_decide (is_Some ((fields !! key) ≫= as_list)) = true) (sorted_keys fields).
Definition extractListItems (payload : value) : result error (list value) :=
  match payload with
  | VList typed => Ok typed
  | VMap typed =>
      match typed !! "items" with
      | Some (VList values) => Ok values
      | Some _ => Err (NewListPayloadShapeError ("list response " +:+ quote "items" +:+ " must be an array") None)
      | None =>
          match array_fields typed with
          | [key] => Ok (default [] ((typed !! key) ≫= as_list))
          | [] => Err (NewListPayloadShapeError ("list response object must include an " +:+ quote "items" +:+ " array") None)
          | arrayFieldKeys =>
              Err (NewListPayloadShapeError ("list response object is ambiguous: expected an " +:+ quote "items"
                     +:+ " array or a single array field, found array fields [" +:+ str_join ", " arrayFieldKeys +:+ "]") None)
          end
      end
  | _ => Err (NewListPayloadShapeError ("list response must be an array or an object with an " +:+ quote "items" +:+ " array") None)
  end.
Definition buildLogicalPath (collectionPath alias : string) : result error string := JoinLogicalPath collectionPath alias.
Definition listed_resource (collectionPath alias remoteID logicalPath : string) (payload : object) (descriptor : PayloadDescriptor) : Resource :=
  {| LogicalPath := logicalPath; CollectionPath := collectionPath; LocalAlias := alias; RemoteID := remoteID; ResolvedRemotePath := "";
     Payload := VMap payload; Res_PayloadDescriptor := descriptor |}.
Definition decode_item (collectionPath : string) (md : ResourceMetadata) (descriptor : PayloadDescriptor) (seenAliases : gset string) (item : value)
  : outcome Resource :=
  match item with
  | VMap _ =>
      normalizedPayload ← lift (Normalize item);
      match normalizedPayload with
      | VMap payloadMap =>
          '(alias, remoteID) ← ResolveAliasAndRemoteIDForListItem payloadMap md;
          if bool_decide (alias ∈ seenAliases)
          then Err (Failed (Conflict ("remote list contains duplicate alias " +:+ quote alias) None))
          else
            logicalPath ← lift (buildLogicalPath collectionPath alias);
            Ok (listed_resource collectionPath alias remoteID logicalPath payloadMap descriptor)
      | _ => Err (Failed (NewListPayloadShapeError "list payload entry normalization failed" None))
      end
  | _ => Err (Failed (NewListPayloadShapeError "list payload entries must be JSON objects" None))
  end.
Fixpoint decode_items (collectionPath : string) (md : ResourceMetadata) (descriptor : PayloadDescriptor) (seenAliases : gset string) (items : list value)
  : outcome (list Resource) :=
  match items with
  | [] => Ok []
  | item :: items =>
      r ← decode_item collectionPath md descriptor seenAliases item;
      rest ← decode_items collectionPath md descriptor ({[ LocalAlias r ]} ∪ seenAliases) items;
      Ok (r :: rest)
  end.
(** The decoding of the payload of a list, after its transforms. *)
Definition decode_list (collectionPath : string) (md : ResourceMetadata) (descriptor : PayloadDescriptor) (payload : value) : outcome (list Resource) :=
  items ← lift (extractListItems payload);
  normalizedCollectionPath ← lift (NormalizeLogicalPath collectionPath);
  list ← decode_items normalizedCollectionPath md descriptor ∅ items;
  Ok (sort_resources list).
Definition metadataPayloadDescriptor (md : ResourceMetadata) : PayloadDescriptor :=
  let format := NormalizeResourceFormat (Format md) in
  if (format == "") || ResourceFormatAllowsMixedItems format then empty_descriptor
  else NormalizePayloadDescriptor (typed_descriptor format).
Definition decodeListResponse (collectionPath : string) (md : ResourceMetadata) (spec : OperationSpec) (body contentType : string)
  : action W (list Resource) :=
  content ← of_result (decodeResponseBody body contentType (metadataPayloadDescriptor md));
  payload ← applyOperationPayloadTransforms resolve (PayloadValue (content_Value content)) spec;
  of_outcome (decode_list collectionPath md (content_Descriptor content) payload).
End lists.
