(* ===== verification/HttpDescription.v ===== *)
(** * Operations of the OpenAPI description

    Models [openapi_helpers.go], [openapi_fallback.go], the schema of an operation in
    [schema_resolution.go] and its validation in [schema_validation.go], all of
    [src/internal/providers/managedservice/http]: which path item of the description a request
    belongs to, and what the description adds to a request. A loaded description holds no
    [map[any]any], the loading having normalized it, so that [normalizeDynamicValue] copies
    it. [source] is the configured place of the description and [document] its loading. *)
From S2P Require Import Prelude GoText GoTextFacts Faults Value Pointer Metadata OperationSpec Services HttpSchema.
Local Open Scope nat_scope.

Section paths.
Context `{UnicodeTables}.
Fixpoint normalizeDynamicValue (v : value) : value :=
  match v with
  | VMap m => VMap (normalizeDynamicValue <$> m)
  | VList l => VList (map normalizeDynamicValue l)
  | _ => v
  end.
Definition dynamic_object (v : value) : option object := as_object (normalizeDynamicValue v).
Definition splitPathSegments (v : string) : list string :=
  let trimmed := trim_bytes is_slash (trim_space v) in if trimmed == "" then [] else split_on slash trimmed.
Definition isOpenAPIPathVariable (segment : string) : bool := has_prefix segment "{" && has_suffix segment "}" && (2 <? String.length segment).
(** [templateVars] of two lists of segments of one length. *)
Fixpoint match_template (templateSegments requestSegments : list string) : option nat :=
  match templateSegments, requestSegments with
  | [], [] => Some 0
  | segment :: templateSegments, r :: requestSegments =>
      if isOpenAPIPathVariable segment then S <$> match_template templateSegments requestSegments
      else if segment == r then match_template templateSegments requestSegments else None
  | _, _ => None
  end.
Definition openAPIPathMatches (templatePath requestPath : string) : option nat :=
  let template := NormalizeRequestPath templatePath in
  let request := NormalizeRequestPath requestPath in
  if template == request then Some 0 else match_template (splitPathSegments template) (splitPathSegments request).
Record path_match := { pathKey : string; pathItem : object; templateVars : nat }.
Definition match_le (a b : path_match) : Prop :=
  templateVars a < templateVars b \/ templateVars a = templateVars b /\ String.le (pathKey a) (pathKey b).
#[export] Instance match_le_dec : RelDecision match_le.
Proof. intros a b. unfold match_le. apply _. Defined.
Definition path_candidates (paths : object) (normalizedRequest : string) : list path_match :=
  omap (fun key =>
    item ← (paths !! key) ≫= dynamic_object;
    vars ← openAPIPathMatches key normalizedRequest;
    Some {| pathKey := key; pathItem := item; templateVars := vars |}) (sorted_keys paths).
Definition findOpenAPIPathItem (document : object) (requestPath : string) : option (string * object) :=
  paths ← (document !! "paths") ≫= dynamic_object;
  let normalizedRequest := NormalizeRequestPath requestPath in
  if normalizedRequest == "" then None
  else match (paths !! normalizedRequest) ≫= dynamic_object with
       | Some item => Some (normalizedRequest, item)
       | None => best ← head (merge_sort match_le (path_candidates paths normalizedRequest)); Some (pathKey best, pathItem best)
       end.
Definition openAPIPathMethod (item : object) (method : string) : option object := (item !! NormalizeHTTPMethod method) ≫= dynamic_object.

(** ** What the description says of an operation *)
Definition preferredMethodsForOperation (o : Operation) : list string :=
  match o with
  | OperationCreate => ["post"; "put"]
  | OperationUpdate => ["put"; "patch"; "post"]
  | OperationDelete => ["delete"]
  | OperationList | OperationGet | OperationCompare => ["get"]
  | OperationOther _ => ["get"; "post"; "put"; "patch"; "delete"]
  end.
Definition inferMethodFromPathItem (item : object) (o : Operation) : string :=
  match list_find (fun method => is_Some (openAPIPathMethod item method)) (preferredMethodsForOperation o) with
  | Some (_, method) => to_upper method
  | None => ""
  end.
Definition first_key (content : option object) : string := default "" (content ≫= fun content => head (sorted_keys content)).
Definition contentTypeFromResponseEntry (entry : value) : string :=
  first_key (response ← dynamic_object entry; dynamic_object (field response "content")).
Definition first_text (candidates : list string) : string := default "" (head (filter (fun s => s <> "") candidates)).
Definition inferAcceptContentType (operation : object) : string :=
  match dynamic_object (field operation "responses") with
  | None => ""
  | Some responses => first_text (map (fun status => contentTypeFromResponseEntry (field responses status)) (["200"; "201"; "202"; "default"] ++ sorted_keys responses))
  end.
Definition inferRequestContentType (operation : object) : string :=
  first_key (requestBody ← dynamic_object (field operation "requestBody"); dynamic_object (field requestBody "content")).

(** ** The schema of the body of a request *)
Definition openAPIMediaTypePriority (v : string) : nat :=
  let normalized := to_lower (trim_space v) in
  if normalized == "application/json" then 0
  else if has_prefix normalized "application/" && has_suffix normalized "+json" then 1 else 2.
Definition media_le (a b : string) : Prop :=
  openAPIMediaTypePriority a < openAPIMediaTypePriority b \/ openAPIMediaTypePriority a = openAPIMediaTypePriority b /\ String.le a b.
#[export] Instance media_le_dec : RelDecision media_le.
Proof. intros a b. unfold media_le. apply _. Defined.
Definition openAPIRequestBodySchemaForValidation (document operation : object) : option value :=
  requestBodyValue ← operation !! "requestBody";
  resolvedRequestBody ← resolveOpenAPIValueRef schema_depth document requestBodyValue ∅;
  requestBody ← asStringAnyMap resolvedRequestBody;
  contentValue ← requestBody !! "content";
  content ← asStringAnyMap contentValue;
  head (omap (fun mediaType => mediaValue ← asStringAnyMap (field content mediaType); mediaValue !! "schema") (merge_sort media_le (sorted_keys content))).
Definition request_body_schema (document : object) (requestPath requestMethod : string) : result error value :=
  match findOpenAPIPathItem document requestPath with
  | None => Err (Invalid ("OpenAPI path " +:+ quote requestPath +:+ " was not found for validate.schemaRef") None)
  | Some (_, item) =>
      let method := to_upper (trim_space requestMethod) in
      if method == "" then Err (Invalid "request method is required for OpenAPI request-body validation" None)
      else match openAPIPathMethod item method with
           | None => Err (Invalid ("OpenAPI path " +:+ quote requestPath +:+ " does not support method " +:+ method +:+ " for validate.schemaRef") None)
           | Some operationItem =>
               match openAPIRequestBodySchemaForValidation document operationItem with
               | None => Err (Invalid ("OpenAPI request body schema was not found for " +:+ method +:+ " " +:+ quote requestPath) None)
               | Some schema => Ok schema
               end
           end
  end.
Definition schema_of_ref (document : object) (requestPath requestMethod schemaRef : string) : result error value :=
  if schemaRef == "openapi:request-body" then request_body_schema document requestPath requestMethod
  else if has_prefix schemaRef "openapi:#/" then
    match resolveOpenAPIJSONPointer document (trim_prefix schemaRef "openapi:") with
    | Some resolved => Ok resolved
    | None => Err (Invalid ("OpenAPI schema reference " +:+ quote schemaRef +:+ " could not be resolved") None)
    end
  else Err (Invalid ("validate.schemaRef " +:+ quote schemaRef +:+ " is not supported") None).
(** The payload with the fields of its path that the schema names and it does not have. *)
Fixpoint augment (allowedPointers : gset string) (derivedFields : gmap string value) (pointers : list string) (merged : value) : value :=
  match pointers with
  | [] => merged
  | pointer :: pointers =>
      augment allowedPointers derivedFields pointers
        (if negb (bool_decide (pointer ∈ allowedPointers)) then merged
         else match LookupJSONPointer merged pointer with
              | Ok (Some _) => merged
              | _ => match SetJSONPointerValue merged pointer (default VNil (derivedFields !! pointer)) with
                     | Err _ => merged
                     | Ok next => next
                     end
              end)
  end.
Definition augmentSchemaValidationPayload (payload : value) (derivedFields : gmap string value) (schema : value) (document : object) : value :=
  match payload with
  | VMap payloadObject =>
      let allowedFields := topLevelSchemaObjectFieldNames schema_depth schema document in
      if bool_decide (allowedFields = ∅) then payload
      else augment (set_map JSONPointerForObjectKey allowedFields) derivedFields (sorted_keys derivedFields) (DeepCopyValue (VMap payloadObject))
  | _ => payload
  end.

(** ** With the description of a client *)
Section client.
Context {W : Type} (source : string) (document : action W object).
Context (type_name : value -> string) (order : object_order).
Definition not_supported (requestPath method : string) : error :=
  Invalid ("OpenAPI path " +:+ quote requestPath +:+ " does not support method " +:+ method) None.
(** What [applyOpenAPIFallback] adds to a specification when the description has its path. *)
Definition fallback_for (item : object) (requestPath : string) (o : Operation) (spec : OperationSpec) (explicitMethod explicitAccept explicitContentType : bool)
  : result error OperationSpec :=
  let Method' := if negb explicitMethod && (trim_space (Method spec) == "") then inferMethodFromPathItem item o else Method spec in
  let with_ accept contentType :=
    {| Method := Method'; op_Path := op_Path spec; Query := Query spec; Headers := Headers spec; Accept := accept; ContentType := contentType;
       Body := Body spec; op_Transforms := op_Transforms spec; Validate := Validate spec |} in
  let method := to_upper (trim_space Method') in
  if method == "" then Ok (with_ (Accept spec) (ContentType spec))
  else match openAPIPathMethod item method with
       | None => Err (not_supported requestPath method)
       | Some operationItem =>
           let infer explicit current inferred := if negb explicit && (trim_space current == "") && negb (inferred == "") then inferred else current in
           Ok (with_ (infer explicitAccept (Accept spec) (inferAcceptContentType operationItem))
                     (infer explicitContentType (ContentType spec) (inferRequestContentType operationItem)))
       end.
Definition applyOpenAPIFallback (requestPath : string) (o : Operation) (spec : OperationSpec) (explicitMethod explicitAccept explicitContentType : bool)
  : action W OperationSpec :=
  if trim_space source == "" then mret spec
  else
    document ← document;
    match findOpenAPIPathItem document requestPath with
    | None => mret spec
    | Some (_, item) => of_result (fallback_for item requestPath o spec explicitMethod explicitAccept explicitContentType)
    end.
Definition validateOpenAPIMethodSupport (requestPath method : string) : action W unit :=
  if trim_space source == "" then mret tt
  else
    document ← document;
    match findOpenAPIPathItem document requestPath with
    | None => mret tt
    | Some (_, item) =>
        match openAPIPathMethod item method with None => fail (not_supported requestPath (to_upper method)) | Some _ => mret tt end
    end.
Definition resolveOpenAPISchemaForValidation (requestPath requestMethod schemaRef : string) : action W (value * object) :=
  if trim_space source == "" then fail (Invalid "validate.schemaRef requires managed-service.http.openapi to be configured" None)
  else document ← document; schema ← of_result (schema_of_ref document requestPath requestMethod schemaRef); mret (schema, document).
Definition validateOperationSchemaRef (payload : value) (derivedFields : gmap string value) (requestPath requestMethod schemaRef : string) : action W unit :=
  let trimmedSchemaRef := trim_space schemaRef in
  if trimmedSchemaRef == "" then mret tt
  else
    '(schema, document) ← resolveOpenAPISchemaForValidation requestPath requestMethod trimmedSchemaRef;
    let schemaPayload := if bool_decide (derivedFields = ∅) then payload else augmentSchemaValidationPayload payload derivedFields schema document in
    match validateValueAgainstOpenAPISchema type_name order schema_depth document schemaPayload schema "$" ∅ with
    | Ok _ => mret tt
    | Err err => fail (Invalid ("operation payload validation failed for schemaRef " +:+ quote trimmedSchemaRef +:+ ": " +:+ err) None)
    end.
End client.
End paths.
