(* ===== verification/HttpRequest.v ===== *)
(** * Building requests

    Models [request_spec_helpers.go], [request_builder.go] and [payload_validation.go] of
    [src/internal/providers/managedservice/http]: the request of an operation on a resource,
    from its metadata, the OpenAPI description and the call context. The body of a
    specification is kept beside it, because it may be a [resource.Content]. [renderer] is
    the renderer of the client, if it has one; the keys of the maps are walked in the orders
    [order] and [keys]. *)
From S2P Require Import Prelude GoText GoTextFacts Faults Paths Value Pointer Descriptor Codec Metadata MetaWire TemplateSyntax Identity OperationSpec TemplateScope FsRender RuntimeMetadata Services.
From S2P Require Import HttpSchema HttpPayload HttpDescription.

Record built_request := { built_spec : OperationSpec; built_body : payload_input }.

Section helpers.
Context `{by_path : ResourceSort, UnicodeTables}.
Definition defaultResourceMediaType (descriptor : PayloadDescriptor) : result error string :=
  if negb (IsPayloadDescriptorExplicit descriptor) then Err (Invalid "payload descriptor is not concrete" None)
  else
    let mediaType := MediaType (NormalizePayloadDescriptor descriptor) in
    if trim_space mediaType == "" then Err (Invalid "invalid payload media type" None) else Ok mediaType.
Definition requestBodyDescriptor (r : Resource) (md : ResourceMetadata) : PayloadDescriptor :=
  ResolveTemplatePayloadDescriptor md (PayloadValue (Payload r)) (Res_PayloadDescriptor r).
Definition payloadTemplateScopeDescriptor (md : ResourceMetadata) (r : Resource) : PayloadDescriptor :=
  ResolveTemplatePayloadDescriptor md (PayloadValue (Payload r)) (Res_PayloadDescriptor r).
Definition operationRequiresBody (o : Operation) : bool := (o == OperationCreate) || (o == OperationUpdate).
Definition requestAcceptDescriptor (o : Operation) (r : Resource) (md : ResourceMetadata) (bodyDescriptor : PayloadDescriptor) : PayloadDescriptor :=
  if IsPayloadDescriptorExplicit (Res_PayloadDescriptor r) then NormalizePayloadDescriptor (Res_PayloadDescriptor r)
  else if IsPayloadDescriptorExplicit (metadataPayloadDescriptor md) then metadataPayloadDescriptor md
  else if operationRequiresBody o && IsPayloadDescriptorExplicit bodyDescriptor then NormalizePayloadDescriptor bodyDescriptor
  else empty_descriptor.
Definition genericRequestBodyDescriptor (requestSpec : RequestSpec) : PayloadDescriptor :=
  if IsPayloadDescriptorExplicit (content_Descriptor (rs_Body requestSpec)) then NormalizePayloadDescriptor (content_Descriptor (rs_Body requestSpec))
  else if negb (trim_space (rs_ContentType requestSpec) == "") then media_descriptor (rs_ContentType requestSpec)
  else if IsBinaryValue (content_Value (rs_Body requestSpec)) then DefaultOctetStreamDescriptor
  else InferPayloadDescriptor (PayloadContent (rs_Body requestSpec)).
(** [spec] is the specification of the request as [Request] makes it. *)
Definition requestFallbackDescriptor (ctx : context) (requestSpec : RequestSpec) (spec : built_request) : PayloadDescriptor :=
  match RequestOperationValidation ctx with
  | Some (_, resourceInput, _) => metadataPayloadDescriptor (in_Metadata resourceInput)
  | None =>
      match PayloadDescriptorForContentType (rs_Accept requestSpec) with
      | Some descriptor => descriptor
      | None =>
      match PayloadDescriptorForContentType (Accept (built_spec spec)) with
      | Some descriptor => descriptor
      | None =>
      match PayloadDescriptorForContentType (rs_ContentType requestSpec) with
      | Some descriptor => descriptor
      | None =>
      match PayloadDescriptorForContentType (ContentType (built_spec spec)) with
      | Some descriptor => descriptor
      | None =>
          if IsPayloadDescriptorExplicit (content_Descriptor (rs_Body requestSpec)) then NormalizePayloadDescriptor (content_Descriptor (rs_Body requestSpec))
          else if IsBinaryValue (content_Value (rs_Body requestSpec))
                  || match built_body spec with PayloadValue v => IsBinaryValue v | PayloadContent _ => false end
          then DefaultOctetStreamDescriptor
          else match built_body spec with
               | PayloadContent typed =>
                   if IsPayloadDescriptorExplicit (content_Descriptor typed) then NormalizePayloadDescriptor (content_Descriptor typed)
                   else InferPayloadDescriptor (built_body spec)
               | PayloadValue _ => InferPayloadDescriptor (built_body spec)
               end
      end end end end
  end.
(** The specification, and whether it names its path, method, accept and content type. *)
Definition operationSpecFromMetadata (md : ResourceMetadata) (o : Operation) : OperationSpec * bool * bool * bool * bool :=
  let spec := default empty_operation (Operations md ≫= (.!! operation_string o)) in
  let explicit s := negb (trim_space s == "") in
  (spec, explicit (op_Path spec), explicit (Method spec), explicit (Accept spec), explicit (ContentType spec)).
Definition defaultOperationMethod (o : Operation) : string :=
  match o with OperationCreate => "POST" | OperationUpdate => "PUT" | OperationDelete => "DELETE" | _ => "GET" end.
Definition requestMethodOperation (method : string) : option Operation :=
  let method := to_upper (trim_space method) in
  if method == "GET" then Some OperationGet
  else if method == "POST" then Some OperationCreate
  else if (method == "PUT") || (method == "PATCH") then Some OperationUpdate
  else if method == "DELETE" then Some OperationDelete
  else None.
Definition mergeHeaders (defaultHeaders operationHeaders : option (gmap string string)) : option (gmap string string) :=
  let defaultHeaders := default ∅ defaultHeaders in
  let operationHeaders := default ∅ operationHeaders in
  if bool_decide (defaultHeaders = ∅) && bool_decide (operationHeaders = ∅) then None else Some (operationHeaders ∪ defaultHeaders).
Definition joinBaseAndRequestPath (basePath requestPath : string) : string :=
  let normalizedBase := NormalizeRequestPath basePath in
  let normalizedBase := if normalizedBase == "" then "/" else normalizedBase in
  let normalizedRequest := NormalizeRequestPath requestPath in
  if (normalizedRequest == "") || (normalizedRequest == "/") then normalizedBase
  else
    let joined := path_join [normalizedBase; trim_prefix normalizedRequest "/"] in
    if has_prefix joined "/" then joined else "/" +:+ joined.
End helpers.

Section builder.
Context `{by_path : ResourceSort, UnicodeTables, TextCodecs, TemplateEngine, JqCompiler} {W : Type} (resolve : string -> action W (option value)).
Context (source : string) (document : action W object) (type_name : value -> string) (order : object_order) (keys : map_order).
Context (defaultHeaders : option (gmap string string)) (renderer : option (W -> ResourceOperationSpecInput -> Operation -> outcome OperationSpec)).

Definition template_metadata (md : ResourceMetadata) (o : Operation) (spec : OperationSpec) : ResourceMetadata :=
  {| Selector := None; ID := ""; Alias := ""; RequiredAttributes := None; RemoteCollectionPath := RemoteCollectionPath md; Format := Format md;
     Defaults := None; Secret := None; SecretAttributes := None; ExternalizedAttributes := None;
     Operations := Some {[ operation_string o := spec ]}; Transforms := CloneTransformSteps (Transforms md) |}.
Definition resolveOperationSpecTemplates (md : ResourceMetadata) (o : Operation) (spec : OperationSpec) (r : Resource) (descriptor : PayloadDescriptor)
  : result error OperationSpec :=
  templateScope ← BuildResourceScope keys r md;
  let templateScope := ApplyPayloadTemplateScope templateScope md (PayloadValue (Payload r)) descriptor in
  ResolveOperationSpecWithScope (template_metadata md o spec) o templateScope.
Definition spec_input (r : Resource) (md : ResourceMetadata) : ResourceOperationSpecInput :=
  {| in_LogicalPath := LogicalPath r; in_CollectionPath := CollectionPath r; in_LocalAlias := LocalAlias r; in_RemoteID := RemoteID r;
     in_PayloadDescriptor := Res_PayloadDescriptor r; in_Metadata := md; in_Payload := Payload r |}.
Definition render_spec (r : Resource) (md : ResourceMetadata) (o : Operation) (spec : OperationSpec) : action W OperationSpec :=
  match renderer with
  | Some render => read (fun w => render w (spec_input r md) o)
  | None => of_result (resolveOperationSpecTemplates md o spec r (payloadTemplateScopeDescriptor md r))
  end.
Definition set_method (spec : OperationSpec) (method : string) : OperationSpec :=
  {| Method := method; op_Path := op_Path spec; Query := Query spec; Headers := Headers spec; Accept := Accept spec;
     ContentType := ContentType spec; Body := Body spec; op_Transforms := op_Transforms spec; Validate := Validate spec |}.
Definition set_headers (spec : OperationSpec) (headers : option (gmap string string)) : OperationSpec :=
  {| Method := Method spec; op_Path := op_Path spec; Query := Query spec; Headers := headers; Accept := Accept spec;
     ContentType := ContentType spec; Body := Body spec; op_Transforms := op_Transforms spec; Validate := Validate spec |}.
Definition set_accept (spec : OperationSpec) (accept : string) : OperationSpec :=
  {| Method := Method spec; op_Path := op_Path spec; Query := Query spec; Headers := Headers spec; Accept := accept;
     ContentType := ContentType spec; Body := Body spec; op_Transforms := op_Transforms spec; Validate := Validate spec |}.
Definition set_content_type (spec : OperationSpec) (contentType : string) : OperationSpec :=
  {| Method := Method spec; op_Path := op_Path spec; Query := Query spec; Headers := Headers spec; Accept := Accept spec;
     ContentType := contentType; Body := Body spec; op_Transforms := op_Transforms spec; Validate := Validate spec |}.
(** A text for which there is none yet, from a descriptor that has a media type. *)
Definition or_media_type (current : string) (descriptor : PayloadDescriptor) : string :=
  if trim_space current == "" then match defaultResourceMediaType descriptor with Ok mediaType => mediaType | Err _ => current end else current.

(** ** Validation of the payload *)
Definition validated_payload_type (md : ResourceMetadata) (req : built_request) : string :=
  let payloadType := PayloadType (metadataPayloadDescriptor md) in
  let descriptor := unwrapContentDescriptor (built_body req) in
  let payloadType := if IsPayloadDescriptorExplicit descriptor then PayloadType (NormalizePayloadDescriptor descriptor) else payloadType in
  if (trim_space (Format md) == "") || ResourceFormatAllowsMixedItems (Format md)
  then default payloadType (PayloadTypeForMediaType (ContentType (built_spec req)))
  else payloadType.
Definition validateOperationPayload (r : Resource) (md : ResourceMetadata) (req : built_request) : action W unit :=
  match Validate (built_spec req) with
  | None => mret tt
  | Some validate =>
      let payloadType := validated_payload_type md req in
      if negb (IsStructuredPayloadType payloadType)
      then fail (Invalid ("operation payload validation requires structured payloads, got " +:+ quote payloadType) None)
      else
        normalizedBody ← of_result (Normalize (unwrapContentValue (built_body req)));
        let derivedFields := DerivePathFields keys r md in
        let payloadView := if bool_decide (derivedFields = ∅) then normalizedBody else MergePayloadFields normalizedBody derivedFields in
        of_result (ValidateRequiredAttributes payloadView "validate.requiredAttributes" (default [] (v_RequiredAttributes validate)) "operation payload validation");;
        validateOperationAssertions resolve payloadView (default [] (Assertions validate));;
        validateOperationSchemaRef source document type_name order normalizedBody derivedFields (op_Path (built_spec req)) (Method (built_spec req)) (SchemaRef validate)
  end.
Definition validateResourceMutationPayload (o : Operation) (r : Resource) (md : ResourceMetadata) (descriptor : PayloadDescriptor) : result error unit :=
  if (length (EffectiveResourceRequiredAttributesForOperation md o) =? 0)%nat then Ok tt
  else if negb (IsStructuredPayloadType (PayloadType (NormalizePayloadDescriptor descriptor))) then Ok tt
  else ValidateResourceRequiredAttributesForOperation (Payload r) md o.

(** ** The request *)
(** The path, the method and the headers, with what the description adds. *)
Definition addressed_spec (ctx : context) (r : Resource) (md : ResourceMetadata) (o : Operation) : action W OperationSpec :=
  let '(spec, explicitPath, explicitMethod, explicitAccept, explicitContentType) := operationSpecFromMetadata md o in
  spec ← render_spec r md o spec;
  let spec := if negb explicitPath && negb (trim_space (ResolvedRemotePath r) == "") then set_path spec (ResolvedRemotePath r) else spec in
  let overridden := OperationHTTPMethodOverride ctx o in
  let spec := match overridden with Some overrideMethod => set_method spec overrideMethod | None => spec end in
  let explicitMethod := match overridden with Some _ => true | None => explicitMethod end in
  let spec := set_path spec (NormalizeRequestPath (op_Path spec)) in
  if op_Path spec == "" then fail (Invalid "resolved operation path is empty" None)
  else
    let spec := set_headers spec (mergeHeaders defaultHeaders (Headers spec)) in
    spec ← applyOpenAPIFallback source document (op_Path spec) o spec explicitMethod explicitAccept explicitContentType;
    let method := if trim_space (Method spec) == "" then defaultOperationMethod o else Method spec in
    let spec := set_method spec (to_upper (trim_space method)) in
    if Method spec == "" then fail (Invalid ("operation " +:+ quote (operation_string o) +:+ " has no HTTP method") None)
    else mret spec.
(** The body of a creation or an update, and its content type. *)
Definition body_of (r : Resource) (md : ResourceMetadata) (o : Operation) (bodyDescriptor : PayloadDescriptor) (spec : OperationSpec) : action W built_request :=
  of_result (validateResourceMutationPayload o r md bodyDescriptor);;
  let spec := set_content_type spec (or_media_type (ContentType spec) bodyDescriptor) in
  let body := if is_nil (Body spec) then PayloadContent {| content_Value := Payload r; content_Descriptor := bodyDescriptor |} else PayloadValue (Body spec) in
  transformedBody ← (if IsStructuredPayloadType (PayloadType bodyDescriptor) then applyOperationPayloadTransforms resolve body spec
                     else mret (unwrapContentValue body));
  mret {| built_spec := spec; built_body := PayloadContent {| content_Value := transformedBody; content_Descriptor := bodyDescriptor |} |}.
Definition BuildRequestFromMetadata (ctx : context) (r : Resource) (md : ResourceMetadata) (o : Operation) : action W built_request :=
  spec ← addressed_spec ctx r md o;
  let bodyDescriptor := requestBodyDescriptor r md in
  let acceptDescriptor := requestAcceptDescriptor o r md bodyDescriptor in
  let spec := set_accept spec (or_media_type (Accept spec) acceptDescriptor) in
  req ← (if operationRequiresBody o then body_of r md o bodyDescriptor spec else mret {| built_spec := spec; built_body := PayloadValue (Body spec) |});
  validateOpenAPIMethodSupport source document (op_Path (built_spec req)) (Method (built_spec req));;
  validateOperationPayload r md req;;
  mret req.
End builder.
