(* ===== verification/HttpClient.v ===== *)
(** * The client of the managed service

    Models [http_managed_service_client.go], [request_execute.go], [auth.go] and
    [openapi_source.go] of [src/internal/providers/managedservice/http]: the address and the
    headers of a request, authentication with its cached token, the cached OpenAPI description,
    sending, and the operations of the client. [S] is the state of the program and of what is
    outside; it holds the caches of the client ([ClientHost]). Sending a request is an action
    of the host: the transport of [net/http] behind the gate of [Throttle]. [net/url] parses
    addresses ([UrlParser]); a request is sent with its address in parts. The debug log is
    left out. *)
From S2P Require Import Prelude GoText GoTextFacts Faults Paths Value Pointer Descriptor Codec GoLib Metadata MetaWire TemplateSyntax Identity OperationSpec FsRender RuntimeMetadata Services.
From S2P Require Import HttpSchema HttpPayload HttpDescription HttpRequest.
Local Open Scope Z_scope.

(** ** Addresses *)
(** The parts of a [url.URL] the code looks at, the query parsed; [Authority] is the rest of
    it (user, fragment). *)
Record URL := { Scheme : string; Authority : string; Host : string; UrlPath : string; UrlQuery : gmap string (list string) }.
Class UrlParser := { url_parse : string -> result error URL }.
Definition set_url (u : URL) (path : string) (query : gmap string (list string)) : URL :=
  {| Scheme := Scheme u; Authority := Authority u; Host := Host u; UrlPath := path; UrlQuery := query |}.
(** [splitHostPort] of [net/url]. *)
Fixpoint last_colon (s : string) : option (string * string) :=
  match s with
  | EmptyString => None
  | String c s =>
      match last_colon s with
      | Some (before, after) => Some (String c before, after)
      | None => if c == ":"%char then Some ("", s) else None
      end
  end.
Definition strip_brackets (host : string) : string :=
  if has_prefix host "[" && has_suffix host "]" then trim_suffix (trim_prefix host "[") "]" else host.
Definition splitHostPort (hostPort : string) : string * string :=
  match last_colon hostPort with
  | Some (host, port) => if all_bytes is_ascii_digit port then (strip_brackets host, port) else (strip_brackets hostPort, "")
  | None => (strip_brackets hostPort, "")
  end.
Definition Hostname (u : URL) : string := (splitHostPort (Host u)).1.
Definition Port (u : URL) : string := (splitHostPort (Host u)).2.

(** ** Headers and messages *)
Definition is_token_byte (c : ascii) : bool :=
  is_ascii_alpha c || is_ascii_digit c || contains_byte (fun d => d == c) "!#$%&'*+-.^_`|~".
Definition upper_byte (c : ascii) : ascii := if in_range 97 122 (byte_Z c) then Z_byte (byte_Z c - 32) else c.
Definition lower_byte (c : ascii) : ascii := if in_range 65 90 (byte_Z c) then Z_byte (byte_Z c + 32) else c.
Fixpoint canonical_go (upper : bool) (s : string) : string :=
  match s with
  | EmptyString => ""
  | String c s => String (if upper then upper_byte c else lower_byte c) (canonical_go (c == "-"%char) s)
  end.
(** [textproto.CanonicalMIMEHeaderKey]. *)
Definition canonical_header (key : string) : string := if all_bytes is_token_byte key then canonical_go true key else key.
Abbreviation header := (gmap string string).
Definition set_header (h : header) (key v : string) : header := <[canonical_header key := v]> h.
(** [h.Get]. *)
Definition get_header (h : header) (key : string) : string := default "" (h !! canonical_header key).
Record http_request := { req_Method : string; req_URL : URL; req_Header : header; req_Body : string }.
(** A response; [resp_Failure] is the error of its body after the bytes that arrived. *)
Record http_response := { StatusCode : Z; resp_Header : header; resp_Body : string; resp_Failure : option error }.
Fixpoint limit_read (n : Z) (s : string) : string :=
  match s with String c s => if n <=? 0 then "" else String c (limit_read (n - 1) s) | EmptyString => "" end.

(** [io.ReadAll] of an [io.LimitReader]. *)
Definition read_body (n : Z) (resp : http_response) : result error string :=
  match resp_Failure resp with
  | Some err => if Z.of_nat (String.length (resp_Body resp)) <? n then Err err else Ok (limit_read n (resp_Body resp))
  | None => Ok (limit_read n (resp_Body resp))
  end.

(** ** Settings of authentication *)
Record OAuth2 := { TokenURL : string; GrantType : string; ClientID : string; ClientSecret : string; Scope : string; Audience : string }.
Record BasicAuth := { CredentialsRef : option string; auth_Username : string; auth_Password : string }.
Record HeaderTokenAuth := { Header_ : string; Prefix : string; auth_Value : string }.
Record HTTPAuth := { cfg_OAuth2 : option OAuth2; cfg_Basic : option BasicAuth; cfg_CustomHeaders : list HeaderTokenAuth }.
Inductive authConfig :=
| authModeUnknown
| authModeOAuth2 (oauth2 : OAuth2)
| authModeBasic (basicAuth : BasicAuth)
| authModeCustomHeaders (customHeaders : list HeaderTokenAuth).

Section settings.
Context `{by_path : ResourceSort, UnicodeTables, UrlParser}.
Definition CredentialName (a : BasicAuth) : string := trim_space (default "" (CredentialsRef a)).
Definition HasResolvedCredentials (a : BasicAuth) : bool := negb (trim_space (auth_Username a) == "") && negb (trim_space (auth_Password a) == "").
Definition auth_error (rest : string) (cause : option error) : error := Invalid ("managed-service.http.auth" +:+ rest) cause.
Definition check_oauth2 (oauth : OAuth2) : result error authConfig :=
  if (trim_space (TokenURL oauth) == "") || (trim_space (GrantType oauth) == "") || (trim_space (ClientID oauth) == "") || (trim_space (ClientSecret oauth) == "")
  then Err (auth_error ".oauth2 requires token-url, grant-type, client-id, client-secret" None)
  else if negb (trim_space (GrantType oauth) == "client_credentials")
  then Err (auth_error ".oauth2.grant-type supports only client_credentials" None)
  else match url_parse (TokenURL oauth) with
       | Err err => Err (auth_error ".oauth2.token-url is invalid" (Some err))
       | Ok tokenURL => if (Scheme tokenURL == "") || (Host tokenURL == "") then Err (auth_error ".oauth2.token-url is invalid" None) else Ok (authModeOAuth2 oauth)
       end.
Fixpoint check_custom_headers (idx : Z) (headers : list HeaderTokenAuth) : result error (list HeaderTokenAuth) :=
  match headers with
  | [] => Ok []
  | custom :: headers =>
      let custom := {| Header_ := trim_space (Header_ custom); Prefix := trim_space (Prefix custom); auth_Value := trim_space (auth_Value custom) |} in
      if (Header_ custom == "") || (auth_Value custom == "")
      then Err (auth_error (".custom-headers[" +:+ itoa idx +:+ "] requires header and value") None)
      else rest ← check_custom_headers (idx + 1) headers; Ok (custom :: rest)
  end.
Definition buildAuthConfig (cfg : option HTTPAuth) : result error authConfig :=
  match cfg with
  | None => Err (auth_error " is required" None)
  | Some cfg =>
      match cfg_OAuth2 cfg, cfg_Basic cfg, cfg_CustomHeaders cfg with
      | Some oauth, None, [] => check_oauth2 oauth
      | None, Some basic, [] =>
          if (CredentialName basic == "") && negb (HasResolvedCredentials basic)
          then Err (auth_error ".basic.credentials-ref is required" None) else Ok (authModeBasic basic)
      | None, None, _ :: _ => headers ← check_custom_headers 0 (cfg_CustomHeaders cfg); Ok (authModeCustomHeaders headers)
      | _, _, _ => Err (auth_error " must define exactly one auth mode" None)
      end
  end.
Definition base_url_error (rest : string) (cause : option error) : error := Invalid ("managed-service.http.base-url " +:+ rest) cause.
Definition parseBaseURL (raw : string) : result error URL :=
  let v := trim_space raw in
  if v == "" then Err (base_url_error "is required" None)
  else
    parsed ← map_err (fun err => base_url_error "is invalid" (Some err)) (url_parse v);
    if negb (Scheme parsed == "http") && negb (Scheme parsed == "https") then Err (base_url_error "must use http or https" None)
    else if Host parsed == "" then Err (base_url_error "host is required" None)
    else Ok (if UrlPath parsed == "" then set_url parsed "/" (UrlQuery parsed) else parsed).
Definition openapi_error (rest : string) (cause : option error) : error := Invalid ("managed-service.http.openapi" +:+ rest) cause.
Definition validateOpenAPISource (source : string) : result error unit :=
  let v := trim_space source in
  if v == "" then Ok tt
  else
    parsed ← map_err (fun err => openapi_error " is invalid" (Some err)) (url_parse v);
    if Scheme parsed == "" then Ok tt
    else if negb (Scheme parsed == "https") then Err (openapi_error " must use https when configured as URL" None)
    else if Host parsed == "" then Err (openapi_error " URL host is required" None)
    else Ok tt.
Definition effectiveURLPort (u : URL) : string :=
  if negb (Port u == "") then Port u
  else let scheme := to_lower (Scheme u) in if scheme == "http" then "80" else if scheme == "https" then "443" else "".
Definition sameURLOffsetOrigin (a b : URL) : bool :=
  equal_fold (Scheme a) (Scheme b) && equal_fold (Hostname a) (Hostname b) && (effectiveURLPort a == effectiveURLPort b).
Definition openAPISourceDescriptor (source : string) : PayloadDescriptor :=
  match PayloadDescriptorForFileName (trim_space source) with Some descriptor => descriptor | None => json_descriptor end.
End settings.

(** ** What the client keeps *)
Record client_state := { openapiDoc : option object; oauthAccessToken : string; oauthExpiresAt : Z }.
Definition fresh_client : client_state := {| openapiDoc := None; oauthAccessToken := ""; oauthExpiresAt := 0 |}.
Definition with_document (st : client_state) (document : object) : client_state :=
  {| openapiDoc := Some document; oauthAccessToken := oauthAccessToken st; oauthExpiresAt := oauthExpiresAt st |}.
Definition with_token (st : client_state) (token : string) (expiresAt : Z) : client_state :=
  {| openapiDoc := openapiDoc st; oauthAccessToken := token; oauthExpiresAt := expiresAt |}.
(** The host of a client: its caches, the clock in nanoseconds, the transport, the credentials
    of basic authentication, the files, and the decoding of JSON, of the answer of a token server
    and of a description (the decoders, [normalizeDynamicValue] and [normalizeOpenAPIDocument]). *)
Class ClientHost (S : Type) := {
  client_of : S -> client_state;
  put_client : client_state -> S -> S;
  clock : S -> Z;
  send : http_request -> action S (result error http_response);
  basic_credentials : BasicAuth -> action S (string * string);
  read_file : S -> string -> result error string;
  decode_token : string -> result error (string * Z);
  json_unmarshal : string -> result error value;
  decode_document : string -> result error object;
}.
Record Client := {
  baseURL : URL; defaultHeaders : option (gmap string string); client_auth : authConfig; openAPISource : string;
}.

Section client.
Context `{by_path : ResourceSort, UnicodeTables, TextCodecs, TemplateEngine, JqCompiler, UrlParser} {S : Type} `{!ClientHost S}.
Definition modify (f : client_state -> client_state) : action S unit := fun s => Some (Ok tt, put_client (f (client_of s)) s).
Definition get_client : action S client_state := fun s => Some (Ok (client_of s), s).
Definition now : action S Z := fun s => Some (Ok (clock s), s).
(** A request whose failure is wrapped with [message]. *)
Definition send_or_fail (message : string) (req : http_request) : action S http_response :=
  answer ← send req;
  match answer with Ok resp => mret resp | Err err => fail (Transport message (Some err)) end.
Definition is_bad (resp : http_response) : bool := 400 <=? StatusCode resp.
Definition status_message (prefix : string) (resp : http_response) (body : string) : string :=
  prefix +:+ " failed with status " +:+ itoa (StatusCode resp) +:+ ": " +:+ summarizeBody body.

(** ** Tokens *)
Definition InvalidateAuthCache : action S unit := modify (fun st => with_token st "" 0).
Definition unreserved (c : ascii) : bool := is_ascii_alpha c || is_ascii_digit c || contains_byte (fun d => d == c) "-_.~".
Definition hex_upper (d : Z) : ascii := if d <? 10 then Z_byte (48 + d) else Z_byte (55 + d).
(** [url.QueryEscape]. *)
Definition query_escape (s : string) : string :=
  str_map (fun c => if unreserved c then String c "" else if c == " "%char then "+"
                    else String "%" (String (hex_upper (byte_Z c / 16)) (String (hex_upper (byte_Z c mod 16)) ""))) s.
(** [url.Values.Encode] of pairs in the order of their keys. *)
Definition encode_form (pairs : list (string * string)) : string := str_join "&" (map (fun '(k, v) => query_escape k +:+ "=" +:+ query_escape v) pairs).
Definition token_form (oauth : OAuth2) : string :=
  encode_form ((if trim_space (Audience oauth) == "" then [] else [("audience", Audience oauth)])
               ++ [("client_id", ClientID oauth); ("client_secret", ClientSecret oauth); ("grant_type", GrantType oauth)]
               ++ (if trim_space (Scope oauth) == "" then [] else [("scope", Scope oauth)])).
Definition second : Z := 1000000000.
(** [time.Duration(expiresIn) * time.Second]. *)
Definition lifetime (expiresIn : Z) : Z := if 0 <? expiresIn then wrap64 (expiresIn * second) else 3600 * second.
Definition token_request (oauth : OAuth2) : result error http_request :=
  tokenURL ← map_err (fun err => Internal "failed to create oauth2 token request" (Some err)) (url_parse (TokenURL oauth));
  Ok {| req_Method := "POST"; req_URL := tokenURL;
        req_Header := set_header (set_header ∅ "Accept" "application/json") "Content-Type" "application/x-www-form-urlencoded"; req_Body := token_form oauth |}.
Definition request_token (oauth : OAuth2) : action S string :=
  request ← of_result (token_request oauth);
  response ← send_or_fail "oauth2 token request failed" request;
  body ← of_result (map_err (fun err => Transport "failed to read oauth2 token response" (Some err)) (read_body 1048576 response));
  if is_bad response then fail (Auth (status_message "oauth2 token request" response body) None)
  else
    '(accessToken, expiresIn) ← of_result (map_err (fun err => Auth "oauth2 token response is not valid JSON" (Some err)) (decode_token body));
    if trim_space accessToken == "" then fail (Auth "oauth2 token response does not include access_token" None)
    else
      received ← now;
      modify (fun st => with_token st accessToken (received + lifetime expiresIn));;
      mret accessToken.
Definition oauthToken (oauth : OAuth2) : action S string :=
  st ← get_client;
  t ← now;
  if negb (oauthAccessToken st == "") && (t <? oauthExpiresAt st - 30 * second) then mret (oauthAccessToken st) else request_token oauth.
Definition GetAccessToken (g : Client) : action S string :=
  match client_auth g with
  | authModeOAuth2 oauth => oauthToken oauth
  | _ => fail (auth_error ".oauth2 is not configured" None)
  end.
Definition add_header (req : http_request) (key v : string) : http_request :=
  {| req_Method := req_Method req; req_URL := req_URL req; req_Header := set_header (req_Header req) key v; req_Body := req_Body req |}.
Definition custom_header_value (custom : HeaderTokenAuth) : string :=
  if Prefix custom == "" then auth_Value custom else Prefix custom +:+ " " +:+ auth_Value custom.
Definition applyAuth (g : Client) (req : http_request) : action S http_request :=
  match client_auth g with
  | authModeOAuth2 oauth => token ← oauthToken oauth; mret (add_header req "Authorization" ("Bearer " +:+ token))
  | authModeBasic basic =>
      '(username, password) ← basic_credentials basic;
      mret (add_header req "Authorization" ("Basic " +:+ base64_encode (username +:+ ":" +:+ password)))
  | authModeCustomHeaders headers => mret (foldl (fun req custom => add_header req (Header_ custom) (custom_header_value custom)) req headers)
  | authModeUnknown => fail (auth_error " mode is not configured" None)
  end.

(** ** The description *)
Definition fetch_document (g : Client) (source : string) (parsed : URL) : action S string :=
  let request := {| req_Method := "GET"; req_URL := parsed; req_Header := ∅; req_Body := "" |} in
  request ← (if sameURLOffsetOrigin (baseURL g) parsed then applyAuth g request else mret request);
  response ← send_or_fail "failed to fetch OpenAPI document" request;
  content ← of_result (map_err (fun err => Transport "failed to read OpenAPI response body" (Some err)) (read_body 4194304 response));
  let message := status_message "OpenAPI request" response content in
  if is_bad response then
    fail (if (StatusCode response =? 401) || (StatusCode response =? 403) then Auth message None
          else if StatusCode response =? 404 then NotFound message None else Transport message None)
  else mret content.
Definition loadOpenAPIDocument (g : Client) : action S object :=
  let source := trim_space (openAPISource g) in
  parsed ← of_result (map_err (fun err => openapi_error " is invalid" (Some err)) (url_parse source));
  content ← (if Scheme parsed == "" then
               read_result (fun s => map_err (fun err => NotFound "managed-service.http.openapi file could not be read" (Some err)) (read_file s source))
             else if Scheme parsed == "https" then fetch_document g source parsed
             else fail (openapi_error " must be a local file path or https URL" None));
  of_result (decode_document content).
Definition openAPIDocument (g : Client) : action S object :=
  if trim_space (openAPISource g) == "" then fail (openapi_error " is not configured" None)
  else
    st ← get_client;
    match openapiDoc st with
    | Some document => mret document
    | None => document ← loadOpenAPIDocument g; modify (fun st => with_document st document);; mret document
    end.
Definition cloneValue (v : value) : value :=
  match json_marshal v with
  | Err _ => v
  | Ok encoded => match json_unmarshal encoded with Err _ => v | Ok cloned => cloned end
  end.
Definition GetOpenAPISpec (g : Client) : action S Content :=
  doc ← openAPIDocument g;
  mret {| content_Value := cloneValue (VMap doc); content_Descriptor := openAPISourceDescriptor (openAPISource g) |}.

(** ** Sending *)
(** [url.Parse] of a path that has been normalized finds no scheme in it: it starts with a
    slash. *)
Definition resolveRequestURL (g : Client) (requestPath : string) (query : option (gmap string string)) : result error URL :=
  if match url_parse requestPath with Ok parsed => negb (Scheme parsed == "") | Err _ => false end
  then Err (Invalid "operation path must be relative to managed-service.http.base-url" None)
  else Ok (set_url (baseURL g) (joinBaseAndRequestPath (UrlPath (baseURL g)) requestPath)
             (((fun v => [v]) <$> default ∅ query) ∪ UrlQuery (baseURL g))).
Definition valid_method (method : string) : bool := negb (method == "") && all_bytes is_token_byte method.
Definition set_headers_in_order (h : header) (headers : gmap string string) : header :=
  foldl (fun h key => set_header h key (default "" (headers !! key))) h (sorted_keys headers).
Definition unauthenticated_request (g : Client) (req : built_request) : result error http_request :=
  let spec := built_spec req in
  targetURL ← resolveRequestURL g (op_Path spec) (Query spec);
  requestBody ← encodeRequestBody (ContentType spec) (built_body req);
  let method := if Method spec == "" then "GET" else Method spec in
  if negb (valid_method method) then Err (Internal "failed to create remote request" (Some (errorf ("net/http: invalid method " +:+ quote method))))
  else
    let h : header := if trim_space (Accept spec) == "" then ∅ else set_header ∅ "Accept" (Accept spec) in
    let h := if negb (requestBody == "") && negb (trim_space (ContentType spec) == "") then set_header h "Content-Type" (ContentType spec) else h in
    Ok {| req_Method := method; req_URL := targetURL; req_Header := set_headers_in_order h (default ∅ (Headers spec)); req_Body := requestBody |}.
Definition newRequest (g : Client) (req : built_request) : action S http_request :=
  request ← of_result (unauthenticated_request g req);
  applyAuth g request.
(** The body and the header of a good response. *)
Definition execute (g : Client) (req : built_request) : action S (string * header) :=
  request ← newRequest g req;
  response ← send_or_fail "remote request failed" request;
  body ← of_result (map_err (fun err => Transport "failed to read remote response body" (Some err)) (read_body 1048576 response));
  if is_bad response then fail (classifyStatusError (StatusCode response) body) else mret (body, resp_Header response).
Definition decode_response (answer : string * header) (fallback : PayloadDescriptor) : action S Content :=
  of_result (decodeResponseBody answer.1 (get_header answer.2 "Content-Type") fallback).

(** ** Operations *)
Section operations.
Context (type_name : value -> string) (order : object_order) (keys : map_order).
Context (renderer : option (S -> ResourceOperationSpecInput -> Operation -> outcome OperationSpec)) (g : Client).
Definition build (resolve : string -> action S (option value)) (ctx : context) (r : Resource) (md : ResourceMetadata) (o : Operation) : action S built_request :=
  BuildRequestFromMetadata resolve (openAPISource g) (openAPIDocument g) type_name order keys (defaultHeaders g) renderer ctx r md o.
Context (resolve : string -> action S (option value)).
Definition Get (ctx : context) (r : Resource) (md : ResourceMetadata) : action S Content :=
  req ← build resolve ctx r md OperationGet;
  answer ← execute g req;
  content ← decode_response answer (requestBodyDescriptor r md);
  v ← applyOperationPayloadTransforms resolve (PayloadValue (content_Value content)) (built_spec req);
  mret {| content_Value := v; content_Descriptor := content_Descriptor content |}.
Definition mutate (o : Operation) (ctx : context) (r : Resource) (md : ResourceMetadata) : action S Content :=
  req ← build resolve ctx r md o;
  answer ← execute g req;
  decode_response answer (requestBodyDescriptor r md).
Definition Create : context -> Resource -> ResourceMetadata -> action S Content := mutate OperationCreate.
Definition Update : context -> Resource -> ResourceMetadata -> action S Content := mutate OperationUpdate.
Definition Delete (ctx : context) (r : Resource) (md : ResourceMetadata) : action S unit :=
  req ← build resolve ctx r md OperationDelete;
  execute g req;;
  mret tt.
Definition collection_resource (collectionPath : string) : Resource :=
  {| LogicalPath := collectionPath; CollectionPath := collectionPath; LocalAlias := ""; RemoteID := ""; ResolvedRemotePath := "";
     Payload := VNil; Res_PayloadDescriptor := empty_descriptor |}.
Definition List (ctx : context) (collectionPath : string) (md : ResourceMetadata) : action S (list Resource) :=
  req ← build resolve ctx (collection_resource collectionPath) md OperationList;
  answer ← execute g req;
  decodeListResponse resolve collectionPath md (built_spec req) answer.1 (get_header answer.2 "Content-Type").
Definition Exists (ctx : context) (r : Resource) (md : ResourceMetadata) : action S bool :=
  req ← build resolve ctx r md OperationGet;
  answer ← catch (execute g req);
  match answer with
  | Ok _ => mret true
  | Err err => if IsCategory (Some err) NotFoundError then mret false else fail err
  end.

(** *** A request given in full *)
Definition generic_spec (requestSpec : RequestSpec) (resolvedMethod resolvedPath : string) (bodyDescriptor : PayloadDescriptor) : built_request :=
  {| built_spec :=
       {| Method := resolvedMethod; op_Path := resolvedPath; Query := rs_Query requestSpec; Headers := rs_Headers requestSpec;
          Accept := if trim_space (rs_Accept requestSpec) == "" then MediaType bodyDescriptor else rs_Accept requestSpec;
          ContentType := if negb (is_nil (content_Value (rs_Body requestSpec))) && (trim_space (rs_ContentType requestSpec) == "")
                         then MediaType bodyDescriptor else rs_ContentType requestSpec;
          Body := VNil; op_Transforms := None; Validate := None |};
     built_body := PayloadContent {| content_Value := content_Value (rs_Body requestSpec); content_Descriptor := bodyDescriptor |} |}.
Definition set_validate (req : built_request) (validate : OperationValidationSpec) : built_request :=
  let spec := built_spec req in
  {| built_spec := {| Method := Method spec; op_Path := op_Path spec; Query := Query spec; Headers := Headers spec; Accept := Accept spec;
                      ContentType := ContentType spec; Body := Body spec; op_Transforms := op_Transforms spec; Validate := Some validate |};
     built_body := built_body req |}.
Definition no_resource : Resource :=
  {| LogicalPath := ""; CollectionPath := ""; LocalAlias := ""; RemoteID := ""; ResolvedRemotePath := ""; Payload := VNil; Res_PayloadDescriptor := empty_descriptor |}.
Definition validation_resource (input : ResourceOperationSpecInput) (descriptor : PayloadDescriptor) : Resource :=
  {| LogicalPath := in_LogicalPath input; CollectionPath := in_CollectionPath input; LocalAlias := in_LocalAlias input; RemoteID := in_RemoteID input;
     ResolvedRemotePath := ""; Payload := in_Payload input; Res_PayloadDescriptor := descriptor |}.
Definition with_body_payload (r : Resource) (v : value) (descriptor : PayloadDescriptor) : Resource :=
  if is_nil (Payload r) && negb (is_nil v) then
    {| LogicalPath := LogicalPath r; CollectionPath := CollectionPath r; LocalAlias := LocalAlias r; RemoteID := RemoteID r;
       ResolvedRemotePath := ResolvedRemotePath r; Payload := v; Res_PayloadDescriptor := descriptor |}
  else r.
(** The validation of a request, for the operation of its context or of its method. *)
Definition validate_request (o : option Operation) (r : Resource) (md : ResourceMetadata) (bodyDescriptor : PayloadDescriptor) (req : built_request) : action S unit :=
  match o with
  | None => mret tt
  | Some o =>
      (if operationRequiresBody o then of_result (validateResourceMutationPayload o r md bodyDescriptor) else mret tt);;
      validateOperationPayload resolve (openAPISource g) (openAPIDocument g) type_name order keys r md req
  end.
Definition Request (ctx : context) (requestSpec : RequestSpec) : action S Content :=
  let resolvedMethod := to_upper (trim_space (rs_Method requestSpec)) in
  if resolvedMethod == "" then fail (Invalid "request method is required" None)
  else
    let resolvedPath := NormalizeRequestPath (rs_Path requestSpec) in
    if resolvedPath == "" then fail (Invalid "request path is required" None)
    else
      let bodyDescriptor := genericRequestBodyDescriptor requestSpec in
      let spec := generic_spec requestSpec resolvedMethod resolvedPath bodyDescriptor in
      let '(operation, spec, r, md) :=
        match RequestOperationValidation ctx with
        | Some (ctxOperation, resourceInput, validateSpec) =>
            (Some ctxOperation, set_validate spec validateSpec, validation_resource resourceInput bodyDescriptor, in_Metadata resourceInput)
        | None => (requestMethodOperation resolvedMethod, spec, no_resource, empty_metadata)
        end in
      let r := with_body_payload r (content_Value (rs_Body requestSpec)) bodyDescriptor in
      validate_request operation r md bodyDescriptor spec;;
      answer ← execute g spec;
      decode_response answer (requestFallbackDescriptor ctx requestSpec spec).
End operations.
End client.
