(* ===== verification/HttpListFacts.v ===== *)
(** * What the client reads

    The decoding of a list against its description: the resources of the items, in order of
    their paths, with distinct aliases; the transforms of a payload; the path item of the
    description a request belongs to. *)
From S2P Require Import Prelude GoText GoTextFacts Faults Paths Value Pointer Descriptor Codec Metadata TemplateSyntax IdentityTemplate Identity RuntimeMetadata Services HttpSchema HttpPayload HttpDescription.

(** ** Lists *)
Section lists.
Context `{by_path : ResourceSort, UnicodeTables}.
(** The resource of an item. *)
Definition resource_of (collectionPath : string) (md : ResourceMetadata) (descriptor : PayloadDescriptor) (item : value) (r : Resource) : Prop :=
  exists payload, item <> VNil /\ is_Some (as_object item) /\ Normalize item = Ok (VMap payload)
    /\ ResolveAliasAndRemoteIDForListItem payload md = Ok (LocalAlias r, RemoteID r)
    /\ JoinLogicalPath collectionPath (LocalAlias r) = Ok (LogicalPath r)
    /\ r = listed_resource collectionPath (LocalAlias r) (RemoteID r) (LogicalPath r) payload descriptor.
Lemma decode_item_ok c md d seen item r : decode_item c md d seen item = Ok r <-> resource_of c md d item r /\ LocalAlias r ∉ seen.
Proof.
  unfold decode_item, resource_of. split.
  - destruct item; try done. destruct (Normalize (VMap m)) as [n|e] eqn:En; [|done]. cbn [lift map_err mbind result_bind].
    destruct n; try done. destruct (ResolveAliasAndRemoteIDForListItem m0 md) as [[alias rid]|e] eqn:Er; [|done]. cbn [mbind result_bind].
    destruct (decide (alias ∈ seen)) as [Hs|Hs]; [by rewrite bool_decide_true|rewrite bool_decide_false by done].
    unfold buildLogicalPath. destruct (JoinLogicalPath c alias) as [p|e] eqn:Ej; [|done]. cbn. intros [= <-]. split; [|done].
    exists m0. split_and!; eauto.
  - intros [(payload & _ & [m Hm] & En & Er & Ej & Hr) Hs]. destruct item; try done. rewrite En. cbn [lift map_err mbind result_bind]. rewrite Er. cbn [mbind result_bind].
    rewrite bool_decide_false by done. unfold buildLogicalPath. rewrite Ej. cbn. by rewrite <-Hr.
Qed.
Lemma decode_items_ok c md d items : forall seen rs, decode_items c md d seen items = Ok rs <->
  Forall2 (resource_of c md d) items rs /\ NoDup (LocalAlias <$> rs) /\ Forall (fun r => LocalAlias r ∉ seen) rs.
Proof.
  induction items as [|item items IH]; intros seen rs; cbn [decode_items].
  { split; [intros [= <-]; split_and!; constructor|]. by intros (->%Forall2_nil_inv_l & _). }
  split.
  - intros (r & Hr & (rest & Hrest & [= <-])%bind_Ok)%bind_Ok. apply decode_item_ok in Hr as [Hr Hs]. apply IH in Hrest as (Hf & Hn & Ha).
    split_and!; [by constructor| |].
    + cbn [fmap list_fmap]. constructor; [|done]. intros (r' & E & Hin)%list_elem_of_fmap. rewrite Forall_forall in Ha. specialize (Ha _ Hin). cbn in Ha. set_solver.
    + constructor; [done|]. eapply Forall_impl; [exact Ha|]. cbn. set_solver.
  - intros (Hf & Hn & Ha). apply Forall2_cons_inv_l in Hf as (r & rest & Hr & Hf & ->). inversion Ha; subst. cbn [fmap list_fmap] in Hn. inversion Hn as [|? ? Hni Hnd]; subst.
    apply bind_Ok. exists r. split; [by apply decode_item_ok|]. apply bind_Ok. exists rest. split; [|done]. apply IH. split_and!; [done..|].
    apply Forall_forall. intros r' Hr' [E%elem_of_singleton|Hs]%elem_of_union.
    + apply Hni, list_elem_of_fmap. exists r'. by rewrite E.
    + match goal with Hl : Forall _ rest |- _ => rewrite Forall_forall in Hl; by eapply Hl end.
Qed.
End lists.
(** [C17] A list is decoded exactly as its items say: the answer has one resource for every
    item, with the identity and the path its metadata give it, no two resources have the same
    alias, and they come in the order of their paths; it is an error exactly where an item
    is no object, has no identity or no path, or repeats an alias. *)
Theorem decoded_list_exact `{by_path : ResourceSort, UnicodeTables} collectionPath md descriptor payload rs :
  decode_list collectionPath md descriptor payload = Ok rs <->
  exists items c rs', extractListItems payload = Ok items /\ NormalizeLogicalPath collectionPath = Ok c
    /\ Forall2 (resource_of c md descriptor) items rs' /\ NoDup (LocalAlias <$> rs') /\ rs = sort_resources rs'
    /\ Permutation rs rs' /\ StronglySorted path_le rs.
Proof.
  unfold decode_list. rewrite bind_Ok. split.
  - intros (items & Hi & (c & Hc & (rs' & Hr & [= <-])%bind_Ok)%bind_Ok). apply decode_items_ok in Hr as (Hf & Hn & _).
    exists items, c, rs'. destruct (extractListItems payload) as [l|]; [|done]. destruct (NormalizeLogicalPath collectionPath); [|done].
    injection Hi as ->. injection Hc as ->. split_and!; try done; [apply sorted_permutation|apply sorted_by_path].
  - intros (items & c & rs' & -> & -> & Hf & Hn & -> & _). exists items. split; [done|]. cbn [lift map_err]. apply bind_Ok. exists c. split; [done|].
    apply bind_Ok. exists rs'. split; [|done]. apply decode_items_ok. split_and!; [done..|]. apply Forall_forall. set_solver.
Qed.

(** ** Excluded attributes *)
Section exclude.
Context `{by_path : ResourceSort, UnicodeTables}.
Definition is_key (t : string) : Prop := parseJSONPointerArrayIndex t = None.
Lemma keys_index_lists ts root : Forall is_key ts -> indexes_lists root ts = true.
Proof.
  intros Hk. revert root. induction Hk as [|t ts Ht Hk IH]; intros root; [done|]. cbn [indexes_lists]. rewrite Ht.
  destruct root; try done. destruct (m !! t); [apply IH|done].
Qed.
Lemma keys_last ts : ts <> [] -> Forall is_key ts -> last_is_key ts = true.
Proof.
  intros Hn Hk. unfold last_is_key. destruct (last ts) as [t|] eqn:E; [|by apply last_None in E].
  rewrite Forall_forall in Hk. assert (is_key t) as ->; [|done]. apply Hk. apply last_Some in E as [l ->]. set_solver.
Qed.
(** A deletion makes no attribute of objects appear. *)
Lemma delete_keeps_absent ts : forall us root, Forall is_key us -> us <> [] -> lookup_tokens root us = None ->
  lookup_tokens (deleteJSONPointerValue root ts) us = None.
Proof.
  induction ts as [|t ts IH]; intros us root Hk Hn Hl; [by destruct us|]. cbn [deleteJSONPointerValue].
  destruct us as [|u us]; [done|]. inversion Hk as [|? ? Hu Hk']; subst.
  destruct (parseJSONPointerArrayIndex t) as [i|].
  { destruct root; try done. destruct (l !! i); [|done]. destruct ts; cbn [lookup_tokens]; by rewrite Hu. }
  destruct root as [| | | | | | | | | | | | |m| | | |]; try done. rewrite lookup_tokens_map in Hl.
  destruct (decide (t = u)) as [->|Hne].
  - destruct ts as [|t' ts]; [by rewrite lookup_tokens_map, lookup_delete_eq|].
    destruct (m !! u) as [child|] eqn:Hm; [|by rewrite lookup_tokens_map, Hm]. cbn [mbind option_bind] in Hl.
    destruct (is_nil _); rewrite lookup_tokens_map; [by rewrite lookup_delete_eq|]. rewrite lookup_insert_eq. cbn [mbind option_bind].
    destruct us as [|u' us]; [done|]. by apply IH.
  - assert (forall n : object, n !! u = m !! u -> lookup_tokens (VMap n) (u :: us) = None) as Hsame by (intros n En; by rewrite lookup_tokens_map, En).
    destruct ts as [|t' ts]; [apply Hsame; by rewrite lookup_delete_ne|].
    destruct (m !! t) as [child|]; [|by apply Hsame]. destruct (is_nil _); apply Hsame; [by rewrite lookup_delete_ne|by rewrite lookup_insert_ne].
Qed.
Lemma normalize_attributes_ok field attributes : forall acc pointers, normalize_attributes field acc attributes = Ok pointers ->
  forall p, p ∈ pointers <-> p ∈ acc \/ exists a, a ∈ attributes /\ p = trim_space a.
Proof.
  induction attributes as [|a attributes IH]; intros acc pointers; cbn [normalize_attributes].
  { intros [= <-] p. set_solver. }
  destruct (trim_space a == ""); [done|]. destruct (ParseJSONPointer _); [|done]. intros Hn p. rewrite (IH _ _ Hn), elem_of_add_fresh. set_solver.
Qed.
Lemma parse_trim p ts : ParseJSONPointer p = Ok ts -> ParseJSONPointer (trim_space p) = Ok ts.
Proof.
  unfold ParseJSONPointer. rewrite trim_space_idemp. case_bool_decide; [done|]. destruct (negb _); [done|]. by destruct (sequence _).
Qed.
Lemma exclude_keeps_absent us pointers : forall v r, Forall is_key us -> us <> [] -> lookup_tokens v us = None ->
  exclude_pointers v pointers = Ok r -> lookup_tokens r us = None.
Proof.
  induction pointers as [|p pointers IH]; intros v r Hk Hn Hl; cbn [exclude_pointers]; [by intros [= <-]|].
  case_bool_decide; [intros [= <-]; by destruct us|]. unfold DeleteJSONPointerValue. destruct (ParseJSONPointer p) as [ts|]; [|done]. cbn.
  apply IH; [done..|]. by apply delete_keeps_absent.
Qed.
Lemma exclude_absent p us pointers : forall v r, p ∈ pointers -> ParseJSONPointer p = Ok us -> Forall is_key us -> us <> [] ->
  exclude_pointers v pointers = Ok r -> lookup_tokens r us = None.
Proof.
  induction pointers as [|q pointers IH]; intros v r Hp Hus Hk Hn; [by apply not_elem_of_nil in Hp|]. cbn [exclude_pointers].
  case_bool_decide; [intros [= <-]; by destruct us|]. destruct (DeleteJSONPointerValue v q) as [v'|] eqn:Ed; [|done]. cbn.
  apply elem_of_cons in Hp as [<-|Hp]; [|by eapply IH].
  unfold DeleteJSONPointerValue in Ed. rewrite Hus in Ed. injection Ed as <-. apply exclude_keeps_absent; [done..|].
  apply lookup_delete_same; [by apply keys_last|by apply keys_index_lists].
Qed.
Lemma exclude_others us pointers : forall v r, (forall p ts, p ∈ pointers -> ParseJSONPointer p = Ok ts -> last_is_key ts = true /\ diverge ts us = true) ->
  exclude_pointers v pointers = Ok r -> lookup_tokens r us = lookup_tokens v us.
Proof.
  induction pointers as [|q pointers IH]; intros v r Hp; cbn [exclude_pointers]; [by intros [= <-]|].
  case_bool_decide as Eq.
  { subst q. by destruct (Hp "" [] ltac:(by left) eq_refl). }
  unfold DeleteJSONPointerValue. destruct (ParseJSONPointer q) as [ts|] eqn:Ets; [|done]. cbn. intros Hr.
  rewrite (IH (deleteJSONPointerValue v ts) r); [|intros p' ts' Hin; apply Hp; by right|done]. destruct (Hp q ts ltac:(by left) Ets). by apply lookup_delete_diverge.
Qed.
(** [C21] A payload without its excluded attributes. An excluded pointer no token of which is
    a number, so that it names members of objects only, is not found any more, whatever else is
    excluded and in any order (a number is taken for the place of an element of an array, never
    for a member of that name, which stays: see [numeric_member_stays]). And every pointer that
    diverges from all the excluded ones, the last tokens of which are no numbers, finds what it
    found. *)
Theorem excluded_attributes_absent v attributes r a us : applyPayloadExcludeAttributes v attributes = Ok r ->
  ParseJSONPointer a = Ok us ->
  (a ∈ attributes -> us <> [] -> Forall is_key us -> LookupJSONPointer r a = Ok None)
  /\ ((forall b ts, b ∈ attributes -> ParseJSONPointer b = Ok ts -> last_is_key ts = true /\ diverge ts us = true) ->
      LookupJSONPointer r a = LookupJSONPointer v a).
Proof.
  unfold applyPayloadExcludeAttributes, NormalizeAttributePointers, LookupJSONPointer. intros Hr Ha. rewrite Ha. cbn.
  destruct (normalize_attributes _ _ attributes) as [pointers|] eqn:En; [|done]. cbn in Hr. rewrite DeepCopyValue_id in Hr.
  assert (is_nil v = true -> v = VNil) as Hnil by (by destruct v).
  split.
  - intros Hin Hn Hk. destruct (is_nil v); [injection Hr as <-; by destruct us|]. f_equal.
    eapply exclude_absent; [|by apply parse_trim|done..]. apply (normalize_attributes_ok _ _ _ _ En). eauto.
  - intros Hd. destruct (is_nil v); [injection Hr as <-; by rewrite Hnil|]. f_equal. eapply exclude_others; [|done].
    intros p ts [Hp|(b & Hb & ->)]%(normalize_attributes_ok _ _ _ _ En) Hts; [by apply not_elem_of_nil in Hp|]. apply (Hd b); [done|].
    revert Hts. unfold ParseJSONPointer. rewrite trim_space_idemp. case_bool_decide; [done|]. destruct (negb _); [done|]. by destruct (sequence _).
Qed.
End exclude.
Lemma excluded_attributes_absent_witness (T : UnicodeTables := latin1_tables) :
  let v := VMap {[ "id" := VInt64 3; "links" := VMap {[ "self" := VString "x"; "next" := VNil ]} ]} in
  applyPayloadExcludeAttributes v ["/links/self"; "/id"] = Ok (VMap {[ "links" := VMap {[ "next" := VNil ]} ]})
  /\ LookupJSONPointer (VMap {[ "links" := VMap {[ "self" := VString "x" ]} ]}) "/id" = Ok None.
Proof.
  split; [vm_compute; reflexivity|].
  apply (excluded_attributes_absent (VMap {[ "id" := VInt64 3; "links" := VMap {[ "self" := VString "x" ]} ]}) ["/id"] _ "/id" ["id"]); [vm_compute; reflexivity..|by left|done|].
  by repeat constructor.
Defined.
(** A member of an object whose name is a number is found by its pointer, and stays when it is
    excluded. *)
Example numeric_member_stays (T : UnicodeTables := latin1_tables) :
  let v := VMap {[ "quota" := VMap {[ "2024" := VInt64 5 ]}; "7" := VInt64 1 ]} in
  LookupJSONPointer v "/quota/2024" = Ok (Some (VInt64 5)) /\ applyPayloadExcludeAttributes v ["/quota/2024"; "/7"] = Ok v.
Proof. vm_compute. split; reflexivity. Qed.
(** The elements of an array are excluded one by one, each by its place among those left:
    excluding the first two of three leaves the second. *)
Example excluded_elements_shift (T : UnicodeTables := latin1_tables) :
  applyPayloadExcludeAttributes (VMap {[ "tags" := VList [VString "a"; VString "b"; VString "c"] ]}) ["/tags/0"; "/tags/1"]
  = Ok (VMap {[ "tags" := VList [VString "b"] ]}).
Proof. vm_compute. reflexivity. Qed.

(** ** The path item of a request *)
Section path_item.
Context `{by_path : ResourceSort, UnicodeTables}.
#[local] Instance match_le_total : Total match_le.
Proof.
  intros a b. unfold match_le. destruct (total String.le (pathKey a) (pathKey b)); destruct (Nat.lt_trichotomy (templateVars a) (templateVars b)) as [|[|]]; auto.
Qed.
#[local] Instance match_le_trans : Transitive match_le.
Proof. intros a b c. unfold match_le. intros [?|[? ?]] [?|[? ?]]; [left; lia..|right]. split; [lia|by etrans]. Qed.
End path_item.

(** ** Examples *)
Definition id_metadata : ResourceMetadata :=
  {| Selector := None; ID := "{{/id}}"; Alias := ""; RequiredAttributes := None; RemoteCollectionPath := ""; Format := ""; Defaults := None; Secret := None;
     SecretAttributes := None; ExternalizedAttributes := None; Operations := None; Transforms := None |}.
Definition id_item (id : string) : value := VMap {[ "id" := VString id ]}.
Lemma decoded_list_exact_witness (T : UnicodeTables := latin1_tables) (by_path : ResourceSort := stable_sort) :
  exists rs, decode_list "/users" id_metadata empty_descriptor (VList [id_item "b"; id_item "a"]) = Ok rs
    /\ LogicalPath <$> rs = ["/users/a"; "/users/b"] /\ StronglySorted path_le rs.
Proof.
  destruct (decode_list "/users" id_metadata empty_descriptor (VList [id_item "b"; id_item "a"])) as [rs|err] eqn:E; [|vm_compute in E; discriminate E].
  destruct (proj1 (decoded_list_exact (by_path := by_path) "/users" id_metadata empty_descriptor (VList [id_item "b"; id_item "a"]) rs) E) as (items & c & rs' & _ & _ & _ & _ & _ & _ & Hs).
  exists rs. split; [reflexivity|]. split; [|exact Hs]. vm_compute in E. injection E as <-. reflexivity.
Defined.
(** An identity is not checked to be one segment of a path, as it is for a resource: the
    service can list a resource outside of the collection, and two at one path. *)
Example listed_outside (T : UnicodeTables := latin1_tables) (by_path : ResourceSort := stable_sort) :
  match decode_list "/corp/users" id_metadata empty_descriptor (VList [id_item "../admins"]) with Ok rs => LogicalPath <$> rs | Err _ => [] end = ["/corp/admins"].
Proof. vm_compute. reflexivity. Qed.
Example listed_twice (T : UnicodeTables := latin1_tables) (by_path : ResourceSort := stable_sort) :
  match decode_list "/corp/users" id_metadata empty_descriptor (VList [id_item "ada"; id_item "x/../ada"]) with Ok rs => LogicalPath <$> rs | Err _ => [] end
  = ["/corp/users/ada"; "/corp/users/ada"].
Proof. vm_compute. reflexivity. Qed.
