(* ===== verification/HttpClientFacts.v ===== *)
(** * What the client sends

    A built request has an absolute path and a method the description allows, and its body
    passed the checks of its metadata; a sent request goes to the configured service with the
    configured credentials, whatever headers the metadata has; the cached token. *)
From S2P Require Import Prelude GoText GoTextFacts Faults Paths Value Pointer Descriptor Codec GoLib Metadata MetaWire TemplateSyntax Identity OperationSpec FsRender RuntimeMetadata Services ActionFacts.
From S2P Require Import HttpSchema HttpPayload HttpDescription HttpRequest HttpClient HttpListFacts.
Local Open Scope Z_scope.

(** ** Paths *)
Section paths.
Context `{by_path : ResourceSort, UnicodeTables}.
Lemma trim_slash_prefix s : has_prefix s "/" = true -> s <> "/" -> has_prefix (trim_suffix s "/") "/" = true.
Proof.
  intros Hp Hs. unfold trim_suffix. destruct (has_suffix s "/") eqn:E; [|done]. apply has_prefix_spec in Hp as [t ->].
  destruct t as [|c t]; [done|]. change ("/" +:+ String c t) with (String slash (String c t)). cbn. apply (has_prefix_app "/").
Qed.
Lemma request_path_rooted v : NormalizeRequestPath v = "" \/ has_prefix (NormalizeRequestPath v) "/" = true.
Proof.
  unfold NormalizeRequestPath. case_bool_decide; [by left|right].
  assert (has_prefix (if has_prefix (trim_space v) "/" then trim_space v else "/" +:+ trim_space v) "/" = true) as Hp by (destruct (has_prefix (trim_space v) "/") eqn:E; [done|apply has_prefix_app]).
  revert Hp. generalize (if has_prefix (trim_space v) "/" then trim_space v else "/" +:+ trim_space v). intros s Hp.
  case_bool_decide; [done|]. by apply trim_slash_prefix.
Qed.
Lemma joined_path_rooted base path : has_prefix (joinBaseAndRequestPath base path) "/" = true.
Proof.
  unfold joinBaseAndRequestPath. assert (has_prefix (if NormalizeRequestPath base == "" then "/" else NormalizeRequestPath base) "/" = true) as Hb.
  { case_bool_decide; [done|]. by destruct (request_path_rooted base). }
  destruct (_ || _); [done|]. destruct (has_prefix (path_join _) "/") eqn:E; [done|]. apply has_prefix_app.
Qed.
End paths.

(** ** Requests on the wire *)
Section wire.
Context `{by_path : ResourceSort, UnicodeTables, TextCodecs, TemplateEngine, JqCompiler, UrlParser} {S : Type} `{!ClientHost S}.
Lemma canonical_get h key v : set_header h key v !! canonical_header key = Some v.
Proof. apply lookup_insert_eq. Qed.
(** The headers of the code's custom authentication, the last one of a name staying. *)
Lemma custom_headers_set headers : forall req custom, custom ∈ headers ->
  exists custom', custom' ∈ headers /\ canonical_header (Header_ custom') = canonical_header (Header_ custom) /\
    req_Header (foldl (fun req custom => add_header req (Header_ custom) (custom_header_value custom)) req headers) !! canonical_header (Header_ custom)
    = Some (custom_header_value custom').
Proof.
  induction headers as [|h headers IH] using rev_ind; intros req custom Hin; [by apply not_elem_of_nil in Hin|].
  rewrite foldl_snoc. cbn [add_header req_Header]. unfold set_header.
  destruct (decide (canonical_header (Header_ h) = canonical_header (Header_ custom))) as [E|E].
  - exists h. rewrite <-E, lookup_insert_eq. split_and!; [set_solver|done..].
  - rewrite lookup_insert_ne by done. apply elem_of_app in Hin as [Hin| ->%list_elem_of_singleton]; [|done].
    destruct (IH req custom Hin) as (c' & Hc' & Ec & El). exists c'. split_and!; [set_solver|done..].
Qed.
Lemma custom_headers_rest headers : forall req, let sent := foldl (fun req custom => add_header req (Header_ custom) (custom_header_value custom)) req headers in
  req_Method sent = req_Method req /\ req_URL sent = req_URL req /\ req_Body sent = req_Body req.
Proof. induction headers as [|h headers IH]; intros req; [done|]. cbn [foldl]. by destruct (IH (add_header req (Header_ h) (custom_header_value h))) as (-> & -> & ->). Qed.
Lemma unauthenticated_ok g req request : unauthenticated_request g req = Ok request ->
  req_Method request = (if Method (built_spec req) == "" then "GET" else Method (built_spec req)) /\ valid_method (req_Method request) = true
  /\ Scheme (req_URL request) = Scheme (baseURL g) /\ Authority (req_URL request) = Authority (baseURL g) /\ Host (req_URL request) = Host (baseURL g)
  /\ UrlPath (req_URL request) = joinBaseAndRequestPath (UrlPath (baseURL g)) (op_Path (built_spec req)).
Proof.
  unfold unauthenticated_request, resolveRequestURL. destruct (match url_parse _ with Ok _ => _ | Err _ => _ end); [done|]. cbn.
  destruct (encodeRequestBody _ _); [|done]. cbn. destruct (valid_method _) eqn:Ev; [|done]. cbn. by intros [= <-].
Qed.
(** What the request carries, for the way of authentication of the client. *)
Definition carries_credentials (g : Client) (s s' : S) (h : header) : Prop :=
  match client_auth g with
  | authModeOAuth2 oauth => exists token, oauthToken oauth s = Some (Ok token, s') /\ h !! "Authorization" = Some ("Bearer " +:+ token)
  | authModeBasic basic => exists username password, basic_credentials basic s = Some (Ok (username, password), s')
      /\ h !! "Authorization" = Some ("Basic " +:+ base64_encode (username +:+ ":" +:+ password))
  | authModeCustomHeaders headers => s' = s /\ forall custom, custom ∈ headers -> exists custom', custom' ∈ headers
      /\ canonical_header (Header_ custom') = canonical_header (Header_ custom) /\ h !! canonical_header (Header_ custom) = Some (custom_header_value custom')
  | authModeUnknown => False
  end.
Lemma apply_auth_ok g request request' s s' : applyAuth g request s = Some (Ok request', s') ->
  req_Method request' = req_Method request /\ req_URL request' = req_URL request /\ req_Body request' = req_Body request
  /\ carries_credentials g s s' (req_Header request').
Proof.
  unfold applyAuth, carries_credentials. destruct (client_auth g) as [|oauth|basic|headers]; [done|..].
  - intros (token & s1 & Ht & [= <- <-])%bind_inv. split_and!; [done..|]. exists token. split; [done|]. apply (canonical_get _ "Authorization").
  - intros ([username password] & s1 & Hc & [= <- <-])%bind_inv. split_and!; [done..|]. exists username, password. split; [done|]. apply (canonical_get _ "Authorization").
  - intros [= <- <-]. destruct (custom_headers_rest headers request) as (-> & -> & ->). split_and!; [done..|].
    intros custom Hin. by apply custom_headers_set.
Qed.
(** [C18] Every request the client sends for a specification goes to the configured service,
    with the method of the specification (GET where it has none), a valid one, and a path that
    starts with a slash, and it carries the configured credentials: no header of the metadata replaces them. *)
Theorem requests_carry_credentials g req request s s' : newRequest g req s = Some (Ok request, s') ->
  Scheme (req_URL request) = Scheme (baseURL g) /\ Authority (req_URL request) = Authority (baseURL g) /\ Host (req_URL request) = Host (baseURL g)
  /\ has_prefix (UrlPath (req_URL request)) "/" = true
  /\ req_Method request = (if Method (built_spec req) == "" then "GET" else Method (built_spec req)) /\ valid_method (req_Method request) = true
  /\ carries_credentials g s s' (req_Header request).
Proof.
  unfold newRequest. intros (plain & s1 & [Hu ->]%of_result_inv & Ha)%bind_inv.
  apply unauthenticated_ok in Hu as (Em & Hv & E1 & E2 & E3 & Ep). apply apply_auth_ok in Ha as (Em' & Eu & _ & Hc).
  rewrite Eu, Em', E1, E2, E3, Ep. split_and!; [done..|apply joined_path_rooted|done|done|done].
Qed.
End wire.

(** ** Tokens *)
(** What reading and writing the caches of the client do. *)
Class HostLaws {S} `{!ClientHost S} : Prop := {
  put_read : forall st s, client_of (put_client st s) = st;
  put_clock : forall st s, clock (put_client st s) = clock s;
}.
Arguments HostLaws S {_}.
Section tokens.
Context `{by_path : ResourceSort, UnicodeTables, UrlParser} {S : Type} `{!ClientHost S, !HostLaws S}.
Lemma lifetime_exact expiresIn : 0 < expiresIn <= 9223372036 -> lifetime expiresIn = expiresIn * second.
Proof.
  intros He. unfold lifetime, second. destruct (Z.ltb_spec 0 expiresIn); [|lia]. unfold wrap64. rewrite Z.mod_small; lia.
Qed.
(** The answer of the token server to the request for a token: the token and the seconds it
    says it lives. *)
Definition server_answered (oauth : OAuth2) (s : S) (token : string) (expiresIn : Z) (s' : S) : Prop :=
  exists request response body, token_request oauth = Ok request /\ send request s = Some (Ok (Ok response), s') /\ StatusCode response < 400 /\
    read_body 1048576 response = Ok body /\ decode_token body = Ok (token, expiresIn).
Lemma request_token_ok oauth s token s' : request_token oauth s = Some (Ok token, s') ->
  trim_space token <> "" /\ exists issued expiresIn, server_answered oauth s token expiresIn issued /\
    s' = put_client (with_token (client_of issued) token (clock issued + lifetime expiresIn)) issued.
Proof.
  unfold request_token, server_answered. intros (req & s1 & [Hq ->]%of_result_inv & Hr)%bind_inv. apply bind_inv in Hr as (resp & s2 & Hs & Hr).
  apply bind_inv in Hs as ([response|err] & s3 & Hsend & Hs); [injection Hs as <- <-|done].
  apply bind_inv in Hr as (body & s3' & [Hbody ->]%of_result_inv & Hr). apply map_err_Ok in Hbody. destruct (is_bad response) eqn:Ebad; [done|].
  apply bind_inv in Hr as ([accessToken expiresIn] & s4 & [Hd ->]%of_result_inv & Hr). apply map_err_Ok in Hd. case_bool_decide as Et; [done|].
  injection Hr as <- <-. split; [done|]. exists s3, expiresIn. split; [|done]. exists req, response, body. split_and!; try done. unfold is_bad in Ebad. lia.
Qed.
(** [C22] The access token of the client lives for what the token server answered: the token
    is the one of its answer, and it is used, without a request, exactly while more than thirty
    seconds are left of the seconds the answer says, counted from when it came (of an hour where
    it says none), in any state with the same cache; then another one is asked for, and an
    invalidated cache has none. A life of more than 9223372036 seconds wraps around. *)
Theorem token_reused_while_valid oauth s token s1 : request_token oauth s = Some (Ok token, s1) ->
  exists issued expiresIn, server_answered oauth s token expiresIn issued /\ clock s1 = clock issued /\
    let life := if expiresIn <=? 0 then 3600 * second else expiresIn * second in
    (forall s2, client_of s2 = client_of s1 -> expiresIn <= 9223372036 ->
      oauthToken oauth s2 = (if clock s2 + 30 * second <? clock issued + life then Some (Ok token, s2) else request_token oauth s2)) /\
    (forall s2 s3, InvalidateAuthCache s2 = Some (Ok tt, s3) -> oauthToken oauth s3 = request_token oauth s3).
Proof.
  intros Hr. apply request_token_ok in Hr as (Ht & issued & expiresIn & Ha & ->). exists issued, expiresIn. rewrite put_clock, put_read. split; [done|]. split; [done|]. intros life. split.
  - intros s2 E He. assert (lifetime expiresIn = if expiresIn <=? 0 then 3600 * second else expiresIn * second) as Hlife.
    { destruct (Z.leb_spec expiresIn 0); [|apply lifetime_exact; lia]. unfold lifetime. by destruct (Z.ltb_spec 0 expiresIn); [lia|]. }
    unfold oauthToken, get_client, now, mbind, action_bind. rewrite E. cbn [with_token oauthAccessToken oauthExpiresAt].
    rewrite bool_decide_false by (by intros ->). cbn [negb andb]. rewrite Hlife. fold life. clearbody life.
    destruct (Z.ltb_spec (clock s2) (clock issued + life - 30 * second)), (Z.ltb_spec (clock s2 + 30 * second) (clock issued + life)); [done|lia..|done].
  - intros s2 s3 [= <-]. unfold oauthToken, get_client, now, mbind, action_bind. by rewrite put_read.
Qed.
End tokens.

(** ** Built requests *)
Section build.
Context `{by_path : ResourceSort, UnicodeTables, TextCodecs, TemplateEngine, JqCompiler} {W : Type} (resolve : string -> action W (option value)).
Context (source : string) (document : action W object) (type_name : value -> string) (order : object_order) (keys : map_order).
Context (headers : option (gmap string string)) (renderer : option (W -> ResourceOperationSpecInput -> Operation -> outcome OperationSpec)).
Lemma fallback_ok item path o spec em ea ec spec' : fallback_for item path o spec em ea ec = Ok spec' ->
  op_Path spec' = op_Path spec /\ Query spec' = Query spec /\ Headers spec' = Headers spec /\ Validate spec' = Validate spec
  /\ (trim_space (Accept spec) <> "" -> Accept spec' = Accept spec) /\ (trim_space (ContentType spec) <> "" -> ContentType spec' = ContentType spec)
  /\ (em = true -> Method spec' = Method spec).
Proof.
  unfold fallback_for. assert (forall current explicit inferred, trim_space current <> "" ->
    (if negb explicit && (trim_space current == "") && negb (inferred == "") then inferred else current) = current) as Hkeep.
  { intros current explicit inferred Hc. rewrite (bool_decide_false (trim_space current = "")) by done. by rewrite andb_false_r. }
  set (M := if negb em && _ then _ else _). assert (em = true -> M = Method spec) as HM by (by unfold M; intros ->).
  destruct (to_upper (trim_space M) == ""); [intros [= <-]|destruct (openAPIPathMethod item _); [intros [= <-]|done]]; cbn; split_and!; try done; by apply Hkeep.
Qed.
Lemma apply_fallback_ok path o spec em ea ec s spec' s' : applyOpenAPIFallback source document path o spec em ea ec s = Some (Ok spec', s') ->
  op_Path spec' = op_Path spec /\ Query spec' = Query spec /\ Headers spec' = Headers spec /\ Validate spec' = Validate spec
  /\ (trim_space (Accept spec) <> "" -> Accept spec' = Accept spec) /\ (trim_space (ContentType spec) <> "" -> ContentType spec' = ContentType spec)
  /\ (em = true -> Method spec' = Method spec).
Proof.
  unfold applyOpenAPIFallback. case_bool_decide; [by intros [= <- <-]|]. intros (doc & s1 & _ & Hf)%bind_inv.
  destruct (findOpenAPIPathItem doc path) as [[key item]|]; [|by injection Hf as <- <-]. apply of_result_inv in Hf as [Hf _]. by eapply fallback_ok.
Qed.
(** The headers of the operation win over those of the client, key by key. *)
Lemma merged_headers clientHeaders operationHeaders key : default ∅ (mergeHeaders clientHeaders operationHeaders) !! key =
  match default ∅ operationHeaders !! key with Some v => Some v | None => default ∅ clientHeaders !! key end.
Proof.
  unfold mergeHeaders. generalize (default ∅ clientHeaders) (default ∅ operationHeaders). intros c o.
  destruct (bool_decide (c = ∅) && bool_decide (o = ∅)) eqn:E.
  - apply andb_true_iff in E as [->%bool_decide_eq_true ->%bool_decide_eq_true]. done.
  - cbn. rewrite lookup_union. by destruct (o !! key), (c !! key).
Qed.
(** A value that has what an attribute points to, and not nil. *)
Definition has_attribute (payload : value) (attribute : string) : Prop :=
  exists v, LookupJSONPointer payload (trim_space attribute) = Ok (Some v) /\ is_nil v = false.
Lemma none_missing payload pointers : missing_attributes payload pointers = Ok [] -> forall p, p ∈ pointers ->
  exists v, LookupJSONPointer payload p = Ok (Some v) /\ is_nil v = false.
Proof.
  induction pointers as [|p pointers IH]; [by intros _ ? ?%not_elem_of_nil|]. cbn [missing_attributes].
  intros (found & Hf & (missing & Hm & Hr)%bind_Ok)%bind_Ok q. destruct found as [v|]; [|done]. destruct (is_nil v) eqn:Ev; [done|]. injection Hr as ->.
  intros [->|Hq]%elem_of_cons; [by exists v|by apply IH].
Qed.
Lemma required_present payload field attributes scope : ValidateRequiredAttributes payload field attributes scope = Ok tt -> attributes <> [] ->
  exists normalized, Normalize payload = Ok normalized /\ forall a, a ∈ attributes -> has_attribute normalized a.
Proof.
  unfold ValidateRequiredAttributes, NormalizeAttributePointers. intros (pointers & Hn & Hr)%bind_Ok Hne.
  assert (forall a, a ∈ attributes -> trim_space a ∈ pointers) as Hin by (intros a Ha; apply (normalize_attributes_ok _ _ _ _ Hn); eauto).
  destruct (Nat.eqb_spec (length pointers) 0) as [E|E].
  { destruct attributes as [|a rest]; [done|]. destruct pointers; [|done]. destruct (not_elem_of_nil (trim_space a)). apply Hin. by left. }
  apply bind_Ok in Hr as (normalized & Hnorm & (missing & Hm & Hr)%bind_Ok). exists normalized. split; [done|]. intros a Ha.
  destruct (Nat.eqb_spec (length missing) 0) as [El|]; [|done]. destruct missing; [|done]. by eapply none_missing, Hin.
Qed.
(** What is known of the specification before the defaults of its media types. *)
Definition addressed (ctx : context) (r : Resource) (md : ResourceMetadata) (o : Operation) (s : W) (spec : OperationSpec) : Prop :=
  has_prefix (op_Path spec) "/" = true /\ Method spec <> ""
  /\ (forall m, OperationHTTPMethodOverride ctx o = Some m -> trim_space m <> "" -> Method spec = to_upper (trim_space m))
  /\ exists rendered s1, render_spec keys renderer r md o (operationSpecFromMetadata md o).1.1.1.1 s = Some (Ok rendered, s1)
     /\ (forall key, default ∅ (Headers spec) !! key = match default ∅ (Headers rendered) !! key with Some v => Some v | None => default ∅ headers !! key end)
     /\ Query spec = Query rendered /\ Validate spec = Validate rendered
     /\ (trim_space (Accept rendered) <> "" -> Accept spec = Accept rendered)
     /\ (trim_space (ContentType rendered) <> "" -> ContentType spec = ContentType rendered).
Lemma addressed_ok ctx r md o s spec s' : addressed_spec source document keys headers renderer ctx r md o s = Some (Ok spec, s') -> addressed ctx r md o s spec.
Proof.
  unfold addressed_spec. destruct (operationSpecFromMetadata md o) as [[[[spec0 explicitPath] explicitMethod] explicitAccept] explicitContentType] eqn:E0.
  intros (rendered & s1 & Hr & Hs)%bind_inv. unfold addressed. rewrite E0. cbn [fst].
  set (placed := if negb explicitPath && _ then _ else _) in Hs.
  assert (Headers placed = Headers rendered /\ Query placed = Query rendered /\ Validate placed = Validate rendered /\ Accept placed = Accept rendered
    /\ ContentType placed = ContentType rendered) as (Eh & Eq & Ev & Ea & Ec) by (unfold placed; by destruct (_ && _)).
  set (method := OperationHTTPMethodOverride ctx o) in *.
  set (chosen := match method with Some overrideMethod => set_method placed overrideMethod | None => placed end) in Hs.
  assert (Headers chosen = Headers rendered /\ Query chosen = Query rendered /\ Validate chosen = Validate rendered /\ Accept chosen = Accept rendered
    /\ ContentType chosen = ContentType rendered /\ forall m, method = Some m -> Method chosen = m) as (Ch & Cq & Cv & Ca & Cc & Cm).
  { unfold chosen. destruct method; cbn; split_and!; try done. by intros ? [= <-]. }
  cbn [set_path op_Path] in Hs. case_bool_decide as Ep; [done|]. destruct (request_path_rooted (op_Path chosen)) as [?|Hp]; [done|].
  apply bind_inv in Hs as (filled & s2 & Hf & Hs). apply apply_fallback_ok in Hf as (Fp & Fq & Fh & Fv & Fa & Fc & Fm). cbn in Fp, Fq, Fh, Fv, Fa, Fc, Fm.
  cbn [set_method Method] in Hs. case_bool_decide as Em; [done|]. injection Hs as <- <-. cbn.
  split_and!; [by rewrite Fp|done| |].
  - intros m Hm Hb. rewrite Hm in Fm. rewrite Fm, (Cm m Hm) by done. by rewrite bool_decide_false.
  - exists rendered, s1. rewrite Fh, Fq, Fv, Ch, Cq, Cv. split_and!; [done|intros key; apply merged_headers|done..|rewrite Ca in Fa; exact Fa|rewrite Cc in Fc; exact Fc].
Qed.
Lemma or_media_type_keeps current d : trim_space current <> "" -> or_media_type current d = current.
Proof. intros Hc. unfold or_media_type. by rewrite bool_decide_false. Qed.
Lemma mutation_required o r md descriptor : validateResourceMutationPayload o r md descriptor = Ok tt ->
  IsStructuredPayloadType (PayloadType (NormalizePayloadDescriptor descriptor)) = true -> EffectiveResourceRequiredAttributesForOperation md o <> [] ->
  exists normalized, Normalize (Payload r) = Ok normalized /\ forall a, a ∈ EffectiveResourceRequiredAttributesForOperation md o -> has_attribute normalized a.
Proof.
  unfold validateResourceMutationPayload. intros Hv Hs Hne. rewrite Hs in Hv. destruct (Nat.eqb_spec (length (EffectiveResourceRequiredAttributesForOperation md o)) 0) as [E|_];
    [by apply nil_length_inv in E|]. cbn [negb] in Hv. unfold ValidateResourceRequiredAttributesForOperation in Hv. apply bind_Ok in Hv as (required & Hr & Hv).
  unfold EffectiveResourceRequiredAttributesForOperation in *. rewrite Hr in *. by apply required_present in Hv.
Qed.
(** What the directives of an operation ask of a body: the body with the fields of the path. *)
Definition validated_view (r : Resource) (md : ResourceMetadata) (body : value) : value :=
  let derivedFields := DerivePathFields keys r md in if bool_decide (derivedFields = ∅) then body else MergePayloadFields body derivedFields.
Lemma directives_required r md req validate s s' : validateOperationPayload resolve source document type_name order keys r md req s = Some (Ok tt, s') ->
  Validate (built_spec req) = Some validate -> default [] (v_RequiredAttributes validate) <> [] ->
  exists body view, Normalize (unwrapContentValue (built_body req)) = Ok body /\ Normalize (validated_view r md body) = Ok view
    /\ forall a, a ∈ default [] (v_RequiredAttributes validate) -> has_attribute view a.
Proof.
  unfold validateOperationPayload. intros Hv Hd Hne. rewrite Hd in Hv. destruct (negb _); [done|]. apply bind_inv in Hv as (body & s1 & [Hb ->]%of_result_inv & Hv).
  apply bind_inv in Hv as ([] & s2 & [Hr ->]%of_result_inv & _). apply required_present in Hr as (view & Hn & Ha); [|done]. by exists body, view.
Qed.
(** [C19] A request built for an operation on a resource has an absolute path and a method,
    the one of the call context where it has one; each header is that of the metadata where it
    has it and that of the client otherwise; its accept and content type, where the metadata
    has them, are those of the metadata. For a creation or an update with a structured payload
    each required attribute is in the payload, with a value that is not nil (a payload of
    another type is not checked); where the operation has directives of validation, each
    attribute they require is in the body, with the fields of the path. And the OpenAPI
    description, where it has the path, has the method. *)
Theorem built_request_is_checked ctx r md o s req s' :
  BuildRequestFromMetadata resolve source document type_name order keys headers renderer ctx r md o s = Some (Ok req, s') ->
  let spec := built_spec req in
  let required := EffectiveResourceRequiredAttributesForOperation md o in
  addressed ctx r md o s spec
  /\ (operationRequiresBody o = true -> IsStructuredPayloadType (PayloadType (NormalizePayloadDescriptor (requestBodyDescriptor r md))) = true -> required <> [] ->
      exists normalized, Normalize (Payload r) = Ok normalized /\ forall a, a ∈ required -> has_attribute normalized a)
  /\ (forall validate, Validate spec = Some validate -> default [] (v_RequiredAttributes validate) <> [] ->
      exists body view, Normalize (unwrapContentValue (built_body req)) = Ok body /\ Normalize (validated_view r md body) = Ok view
        /\ forall a, a ∈ default [] (v_RequiredAttributes validate) -> has_attribute view a)
  /\ (trim_space source <> "" -> exists s1 doc s2, document s1 = Some (Ok doc, s2) /\
        forall key item, findOpenAPIPathItem doc (op_Path spec) = Some (key, item) -> is_Some (openAPIPathMethod item (Method spec))).
Proof.
  unfold BuildRequestFromMetadata. intros (spec & s1 & Ha & Hb)%bind_inv. apply addressed_ok in Ha. cbn zeta in Hb.
  set (accepted := set_accept spec _) in Hb.
  assert (addressed ctx r md o s accepted) as Hacc.
  { destruct Ha as (? & ? & ? & rendered & s2 & ? & ? & ? & ? & Hac & ?). split_and!; [done..|]. exists rendered, s2. split_and!; try done.
    intros Hr. cbn. rewrite or_media_type_keeps by (by rewrite Hac). by apply Hac. }
  clearbody accepted.
  apply bind_inv in Hb as (built & s2 & Hbody & Hb). apply bind_inv in Hb as ([] & s3 & Hm & Hb). apply bind_inv in Hb as ([] & s4 & Hvalid & [= <- <-]).
  assert (addressed ctx r md o s (built_spec built) /\ (operationRequiresBody o = true -> validateResourceMutationPayload o r md (requestBodyDescriptor r md) = Ok tt)) as [Hbuilt Hv].
  { destruct (operationRequiresBody o); [|by injection Hbody as <- <-]. unfold body_of in Hbody. apply bind_inv in Hbody as ([] & s5 & [Hv _]%of_result_inv & Hbody).
    apply bind_inv in Hbody as (v & s6 & _ & [= <- <-]). split; [|done].
    destruct Hacc as (? & ? & ? & rendered & s7 & ? & ? & ? & ? & ? & Hct). split_and!; [done..|]. exists rendered, s7. split_and!; try done.
    intros Hr. cbn [built_spec ContentType set_content_type]. rewrite or_media_type_keeps by (by rewrite Hct). by apply Hct. }
  split_and!; [done|intros Ho; by apply mutation_required, Hv|intros validate; by eapply directives_required|]. intros Hsource.
  unfold validateOpenAPIMethodSupport in Hm. rewrite bool_decide_false in Hm by done.
  apply bind_inv in Hm as (doc & s5 & Hd & Hm). exists s2, doc, s5. split; [done|]. intros key item Hi. rewrite Hi in Hm.
  destruct (openAPIPathMethod item _); [eauto|done].
Qed.
End build.

(** ** A client *)
#[local] Existing Instances stable_sort latin1_tables line_codecs pointer_engine.
#[local] Instance no_jq : JqCompiler := {| jq_compile := fun _ _ => Err (errorf "no jq") |}.
#[local] Instance plain_urls : UrlParser := {|
  url_parse := fun s => if has_prefix s "https://" then Ok {| Scheme := "https"; Authority := ""; Host := trim_prefix s "https://"; UrlPath := ""; UrlQuery := ∅ |}
                        else Ok {| Scheme := ""; Authority := ""; Host := ""; UrlPath := s; UrlQuery := ∅ |} |}.
(** A host that logs what is sent and answers with the length of the log, at a clock of one
    minute for every request. *)
Record log_host := { kept : client_state; sent : list http_request }.
#[local] Instance logging : ClientHost log_host := {
  client_of := kept;
  put_client := fun st s => {| kept := st; sent := sent s |};
  clock := fun s => Z.of_nat (length (sent s)) * (60 * second);
  send := fun req s => Some (Ok (Ok {| StatusCode := 200; resp_Header := ∅; resp_Body := itoa (Z.of_nat (length (sent s))); resp_Failure := None |}),
                             {| kept := kept s; sent := req :: sent s |});
  basic_credentials := fun _ => mret ("ada", "secret");
  read_file := fun _ _ => Err (errorf "no file");
  json_unmarshal := fun _ => Err (errorf "no JSON");
  decode_token := fun body => Ok ("token" +:+ body, 3600);
  decode_document := fun _ => Err (errorf "no description");
}.
#[local] Instance logging_laws : HostLaws log_host.
Proof. by split. Qed.
Definition new_host : log_host := {| kept := fresh_client; sent := [] |}.
Definition sample_oauth : OAuth2 :=
  {| TokenURL := "https://login"; GrantType := "client_credentials"; ClientID := "cli"; ClientSecret := "s3 cret&"; Scope := ""; Audience := "" |}.
Definition sample_client : Client :=
  {| baseURL := {| Scheme := "https"; Authority := ""; Host := "api.example"; UrlPath := "/v1/"; UrlQuery := ∅ |};
     defaultHeaders := Some {[ "X-Tenant" := "corp" ]}; client_auth := authModeOAuth2 sample_oauth; openAPISource := "" |}.
Definition sample_metadata : ResourceMetadata :=
  {| Selector := None; ID := ""; Alias := ""; RequiredAttributes := Some ["/id"]; RemoteCollectionPath := "/realms"; Format := "json"; Defaults := None; Secret := None;
     SecretAttributes := None; ExternalizedAttributes := None;
     Operations := Some {[ "create" := {| Method := ""; op_Path := "/realms/"; Query := None; Headers := Some {[ "authorization" := "Bearer mine" ]}; Accept := "";
                                          ContentType := "text/json"; Body := VNil; op_Transforms := None; Validate := None |} ]}; Transforms := None |}.
Definition sample_realm : Resource :=
  {| LogicalPath := "/realms/corp"; CollectionPath := "/realms"; LocalAlias := "corp"; RemoteID := "corp"; ResolvedRemotePath := "";
     Payload := VMap {[ "id" := VString "corp" ]}; Res_PayloadDescriptor := empty_descriptor |}.
Definition sample_order : object_order := fun m => (map_to_list m).*1.
Definition sample_keys : map_order := fun m => (map_to_list m).*1.
Abbreviation build_sample := (BuildRequestFromMetadata (fun _ => mret None) "" (fail (errorf "no description")) (fun _ => "") sample_order sample_keys
  (Some {[ "X-Tenant" := "corp" ]}) None background sample_realm sample_metadata OperationCreate).
Definition sample_request : built_request :=
  match build_sample new_host with Some (Ok req, _) => req | _ => {| built_spec := empty_operation; built_body := PayloadValue VNil |} end.
Lemma built_request_is_checked_witness :
  Method (built_spec sample_request) = "POST" /\ op_Path (built_spec sample_request) = "/realms" /\ ContentType (built_spec sample_request) = "text/json"
  /\ addressed sample_keys (Some {[ "X-Tenant" := "corp" ]}) None background sample_realm sample_metadata OperationCreate new_host (built_spec sample_request)
  /\ exists normalized, Normalize (Payload sample_realm) = Ok normalized /\ has_attribute normalized "/id".
Proof.
  split_and!; [vm_compute; reflexivity..| |];
    destruct (built_request_is_checked (fun _ => mret None) "" (fail (errorf "no description")) (fun _ => "") sample_order sample_keys
      (Some {[ "X-Tenant" := "corp" ]}) None background sample_realm sample_metadata OperationCreate new_host sample_request new_host) as (Ha & Hr & _ & _);
    [vm_compute; reflexivity|exact Ha|vm_compute; reflexivity|].
  destruct Hr as (normalized & Hn & Hall); [reflexivity|vm_compute; reflexivity|vm_compute; discriminate|].
  exists normalized. split; [exact Hn|]. apply Hall. vm_compute. by left.
Defined.
Definition plain_request : built_request :=
  {| built_spec := {| Method := "POST"; op_Path := "/realms"; Query := None; Headers := Some {[ "authorization" := "Bearer mine" ]}; Accept := "application/json";
                      ContentType := "text/plain"; Body := VNil; op_Transforms := None; Validate := None |};
     built_body := PayloadValue (VString "hello") |}.
Lemma requests_carry_credentials_witness :
  match newRequest sample_client plain_request new_host with
  | Some (Ok request, s) => UrlPath (req_URL request) = "/v1/realms" /\ req_Body request = "hello" /\ Host (req_URL request) = "api.example"
      /\ carries_credentials sample_client new_host s (req_Header request) /\ req_Header request !! "Authorization" = Some "Bearer token0"
  | _ => False
  end.
Proof.
  destruct (newRequest sample_client plain_request new_host) as [[[request|e] s]|] eqn:E; [|by vm_compute in E..].
  pose proof (requests_carry_credentials sample_client plain_request request new_host s E) as (_ & _ & Eh & _ & _ & _ & Hc).
  split_and!; [| |exact Eh|exact Hc|]; vm_compute in E; injection E as <- _; vm_compute; reflexivity.
Defined.
(** The server of the host says an hour: the token is used 59 minutes later, and not after an hour. *)
Definition at_clock (requests : nat) (host : log_host) : log_host := {| kept := kept host; sent := replicate requests (hd_error (sent host)) ≫= option_list |}.
Lemma token_reused_while_valid_witness :
  exists s1, request_token sample_oauth new_host = Some (Ok "token0", s1) /\
    oauthToken sample_oauth (at_clock 60 s1) = Some (Ok "token0", at_clock 60 s1) /\ oauthToken sample_oauth (at_clock 61 s1) = request_token sample_oauth (at_clock 61 s1).
Proof.
  destruct (request_token sample_oauth new_host) as [[[token|e] s1]|] eqn:E; [|by vm_compute in E..].
  assert (token = "token0") as -> by (vm_compute in E; by injection E as <- _). exists s1. split; [done|].
  destruct (token_reused_while_valid sample_oauth new_host "token0" s1 E) as (issued & expiresIn & Ha & Hc & Hreuse & _).
  assert (expiresIn = 3600) as ->.
  { destruct Ha as (request & response & body & _ & _ & _ & _ & Hd). injection Hd as _ <-. reflexivity. }
  vm_compute in E. injection E as <-. split; (rewrite Hreuse; [|reflexivity|lia]); rewrite <-Hc; vm_compute; reflexivity.
Defined.

(** ** Examples *)
(** A life of more than 9223372036 seconds is negative, so that the token is never used
    again. *)
Example long_life_wraps : lifetime 9223372037 < 0.
Proof. vm_compute. reflexivity. Qed.
(** A path of the metadata can leave the path of the base URL. *)
Example path_leaves_base : joinBaseAndRequestPath "/api/v1" "/../admin" = "/api/admin".
Proof. vm_compute. reflexivity. Qed.
(** The full queue of the gate, a conflict, reaches the caller as a failure of the
    transport. *)
Example full_queue_is_no_conflict : let err := Transport "remote request failed" (Some (Conflict "managed-service request queue is full" None)) in
  IsCategory (Some err) ConflictError = false /\ IsCategory (Some err) TransportError = true.
Proof. by vm_compute. Qed.
(** A body of more than 1048576 bytes is cut, without an error. *)
Lemma limit_read_short n s : Z.of_nat (String.length s) <= n -> limit_read n s = s.
Proof. revert n. induction s as [|c s IH]; intros n Hn; [done|]. cbn [limit_read String.length] in *. destruct (Z.leb_spec n 0); [lia|]. f_equal. apply IH. lia. Qed.
Lemma limit_read_length n s : 0 <= n -> Z.of_nat (String.length (limit_read n s)) = n `min` Z.of_nat (String.length s).
Proof. revert n. induction s as [|c s IH]; intros n Hn; cbn [limit_read String.length]; [lia|]. destruct (Z.leb_spec n 0); cbn [String.length]; [lia|]. rewrite Nat2Z.inj_succ, IH by lia. lia. Qed.
Lemma long_body_is_cut resp : resp_Failure resp = None -> 1048576 < Z.of_nat (String.length (resp_Body resp)) ->
  exists body, read_body 1048576 resp = Ok body /\ Z.of_nat (String.length body) = 1048576 /\ body <> resp_Body resp.
Proof.
  intros Hf Hl. unfold read_body. rewrite Hf. exists (limit_read 1048576 (resp_Body resp)). assert (Z.of_nat (String.length (limit_read 1048576 (resp_Body resp))) = 1048576) as E.
  { rewrite limit_read_length by lia. lia. }
  split_and!; [done|done|]. intros Eb. rewrite Eb in E. lia.
Qed.
