(* ===== verification/JqCache.v ===== *)
(** * The cache of compiled jq expressions

    Models [cachedListJQCode] of [src/internal/providers/managedservice/http/request_list_jq.go]:
    a cache of at most 128 expressions shared by all requests, the oldest entry leaving first.
    The lock is held for the look-up and for the store but not for the compilation between
    them, so that the calls of concurrent requests interleave at these points; a call is a
    small program, and every interleaving is a run of [cache_step]. What an expression
    compiles to is an argument, [compile]. *)
From stdpp Require Import relations.
From S2P Require Import Prelude GoText Faults.

Definition maxJQCacheEntries : nat := 128.
Section cache.
Context {code : Type} (compile : string -> result error code).
Record jq_cache := { jqCacheMap : gmap string code; jqCacheOrder : list string }.
Definition empty_cache : jq_cache := {| jqCacheMap := ∅; jqCacheOrder := [] |}.
(** The second critical section. *)
Definition evict_oldest (c : jq_cache) : jq_cache :=
  match jqCacheOrder c with
  | evict :: rest => if bool_decide (maxJQCacheEntries <= length (jqCacheOrder c)) then {| jqCacheMap := delete evict (jqCacheMap c); jqCacheOrder := rest |} else c
  | [] => c
  end.
Definition store_code (expression : string) (compiled : code) (c : jq_cache) : code * jq_cache :=
  match jqCacheMap c !! expression with
  | Some cached => (cached, c)
  | None =>
      let c := evict_oldest c in
      (compiled, {| jqCacheMap := <[expression := compiled]> (jqCacheMap c); jqCacheOrder := jqCacheOrder c ++ [expression] |})
  end.
(** A call between its critical sections. *)
Inductive call :=
| Looking (expression : string)
| Compiling (expression : string)
| Storing (expression : string) (compiled : code)
| Returned (expression : string) (r : result error code).
Definition advance (k : call) (c : jq_cache) : call * jq_cache :=
  match k with
  | Looking e => match jqCacheMap c !! e with Some cached => (Returned e (Ok cached), c) | None => (Compiling e, c) end
  | Compiling e => match compile e with Ok compiled => (Storing e compiled, c) | Err err => (Returned e (Err err), c) end
  | Storing e compiled => let '(found, c) := store_code e compiled c in (Returned e (Ok found), c)
  | Returned e r => (Returned e r, c)
  end.
(** A call alone. *)
Definition cachedListJQCode (expression : string) (c : jq_cache) : result error code * jq_cache :=
  let '(k, c) := advance (Looking expression) c in
  let '(k, c) := advance k c in
  let '(k, c) := advance k c in
  (match k with Returned _ r => r | _ => compile expression end, c).

(** ** Interleavings *)
Definition cache_state : Type := gmap nat call * jq_cache.
Inductive cache_step : cache_state -> cache_state -> Prop :=
| step_advance calls c p k k' c' : calls !! p = Some k -> advance k c = (k', c') -> cache_step (calls, c) (<[p := k']> calls, c')
| step_call calls c p e : calls !! p = None -> cache_step (calls, c) (<[p := Looking e]> calls, c).
Record sound_cache (c : jq_cache) : Prop := {
  order_once : NoDup (jqCacheOrder c);
  order_keys : forall e, e ∈ jqCacheOrder c <-> is_Some (jqCacheMap c !! e);
  order_bounded : length (jqCacheOrder c) <= maxJQCacheEntries;
  cached_compiled : forall e x, jqCacheMap c !! e = Some x -> compile e = Ok x;
}.
Definition sound_call (k : call) : Prop :=
  match k with Storing e x => compile e = Ok x | Returned e r => r = compile e | _ => True end.
Lemma empty_sound : sound_cache empty_cache.
Proof.
  split; cbn; [constructor| |unfold maxJQCacheEntries; lia|by intros e x; rewrite lookup_empty]. intros e. rewrite lookup_empty. split; [by intros ?%not_elem_of_nil|by intros [? ?]].
Qed.
Lemma evict_sound c : sound_cache c -> sound_cache (evict_oldest c) /\ length (jqCacheOrder (evict_oldest c)) < maxJQCacheEntries
  /\ jqCacheMap (evict_oldest c) ⊆ jqCacheMap c.
Proof.
  intros [Hn Hk Hb Hc]. unfold evict_oldest. destruct (jqCacheOrder c) as [|oldest rest] eqn:Eo.
  { split_and!; [split; rewrite ?Eo; done|rewrite Eo; unfold maxJQCacheEntries; cbn; lia|done]. }
  case_bool_decide as Hfull.
  - apply NoDup_cons in Hn as [Hni Hn]. split_and!; [split; cbn| |apply delete_subseteq].
    + done.
    + intros e. specialize (Hk e). destruct (decide (e = oldest)) as [->|Hne]; [rewrite lookup_delete_eq|rewrite lookup_delete_ne by done]; [|set_solver].
      split; [done|by intros [? ?]].
    + cbn in Hb. lia.
    + intros e x [_ He]%lookup_delete_Some. by apply Hc.
    + cbn in *. lia.
  - split_and!; [split; rewrite ?Eo; done|rewrite Eo; lia|done].
Qed.
Lemma store_sound e x c : sound_cache c -> compile e = Ok x -> let '(found, c') := store_code e x c in sound_cache c' /\ compile e = Ok found.
Proof.
  intros Hs Hx. unfold store_code. destruct (jqCacheMap c !! e) as [cached|] eqn:He; [split; [done|by eapply cached_compiled]|].
  apply evict_sound in Hs as ([Hn Hk Hb Hc] & Hroom & Hsub). assert (jqCacheMap (evict_oldest c) !! e = None) as Hf by by eapply lookup_weaken_None.
  split; [|done]. split; cbn.
  - apply NoDup_app. split_and!; [done| |by apply NoDup_singleton]. intros e' He' ->%list_elem_of_singleton. apply Hk in He' as [? ?]. congruence.
  - intros e'. rewrite elem_of_app, list_elem_of_singleton, Hk. destruct (decide (e = e')) as [->|Hne]; [rewrite lookup_insert_eq; naive_solver|rewrite lookup_insert_ne by done; naive_solver].
  - rewrite length_app. cbn. lia.
  - intros e' x' [[<- <-]|[_ He']]%lookup_insert_Some; [done|by apply Hc].
Qed.
Lemma advance_sound k c : sound_cache c -> sound_call k -> sound_cache (advance k c).2 /\ sound_call (advance k c).1.
Proof.
  intros Hc Hk. destruct k as [e|e|e x|e r]; cbn [advance].
  - destruct (jqCacheMap c !! e) as [cached|] eqn:He; [|done]. split; [done|]. cbn. symmetry. by eapply cached_compiled.
  - destruct (compile e) as [x|err] eqn:Ex; by rewrite ?Ex.
  - pose proof (store_sound e x c Hc Hk) as Hst. destruct (store_code e x c) as [found c']. cbn. destruct Hst. done.
  - done.
Qed.
Lemma reachable_sound s : rtc cache_step (∅, empty_cache) s -> sound_cache s.2 /\ map_Forall (fun _ k => sound_call k) s.1.
Proof.
  assert (forall x, rtc cache_step x s -> sound_cache x.2 /\ map_Forall (fun _ k => sound_call k) x.1 -> sound_cache s.2 /\ map_Forall (fun _ k => sound_call k) s.1) as Hall.
  { intros x. induction 1 as [|x y z Hxy _ IH]; [done|]. intros [Hc Hk]. apply IH. destruct Hxy as [calls c p k k' c' Hp Ha|calls c p e Hp]; cbn in *.
    - pose proof (advance_sound k c Hc (Hk _ _ Hp)) as Hs. rewrite Ha in Hs. destruct Hs. split; [done|]. by apply map_Forall_insert_2.
    - split; [done|]. by apply map_Forall_insert_2. }
  intros Hr. apply (Hall _ Hr). split; [apply empty_sound|apply map_Forall_empty].
Qed.
(** [C20] Under every interleaving of any number of calls, the cache holds at most 128
    expressions, each with what it compiles to, and a call that has returned gave what its
    expression compiles to, its error included. *)
Theorem cache_is_transparent s : rtc cache_step (∅, empty_cache) s ->
  size (jqCacheMap s.2) <= maxJQCacheEntries
  /\ (forall e x, jqCacheMap s.2 !! e = Some x -> compile e = Ok x)
  /\ (forall p e r, s.1 !! p = Some (Returned e r) -> r = compile e).
Proof.
  intros [Hs Hk]%reachable_sound. split_and!.
  - assert (size (jqCacheMap s.2) = length (jqCacheOrder s.2)) as ->; [|apply order_bounded; done].
    rewrite <-size_dom. assert (dom (jqCacheMap s.2) = list_to_set (jqCacheOrder s.2)) as ->.
    { apply set_eq. intros e. rewrite elem_of_dom, elem_of_list_to_set. symmetry. by apply order_keys. }
    apply size_list_to_set, order_once; done.
  - by apply cached_compiled.
  - intros p e r Hp. by apply (Hk _ _ Hp).
Qed.
(** A call alone gives what its expression compiles to. *)
Lemma cached_code_exact e c : sound_cache c -> (cachedListJQCode e c).1 = compile e /\ sound_cache (cachedListJQCode e c).2.
Proof.
  intros Hc. unfold cachedListJQCode. cbn [advance]. destruct (jqCacheMap c !! e) as [cached|] eqn:He.
  - cbn. split; [|done]. symmetry. by eapply cached_compiled.
  - cbn [advance]. destruct (compile e) as [x|err] eqn:Ex; [|done]. cbn [advance]. pose proof (store_sound e x c Hc Ex) as Hst.
    destruct (store_code e x c) as [found c']. cbn in *. destruct Hst as [? Hf]. split; [congruence|done].
Qed.
End cache.
Arguments call : clear implicits.
Arguments jq_cache : clear implicits.

(** Two calls for one expression: both compile it, one stores it. *)
Definition length_code (e : string) : result error nat := if e == "" then Err (errorf "unexpected EOF") else Ok (String.length e).
Lemma cache_is_transparent_witness :
  let c : jq_cache nat := {| jqCacheMap := {[ ".id" := 3 ]}; jqCacheOrder := [".id"] |} in
  rtc (cache_step length_code) (∅, empty_cache) ({[ 0 := Returned ".id" (Ok 3); 1 := Storing ".id" 3 ]} : gmap nat (call nat), c) /\ size (jqCacheMap c) <= maxJQCacheEntries.
Proof.
  intros c.
  assert (rtc (cache_step length_code) (∅, empty_cache) ({[ 0 := Returned ".id" (Ok 3); 1 := Storing ".id" 3 ]} : gmap nat (call nat), c)) as Hrun.
  { eapply rtc_l; [by apply (step_call _ ∅ _ 0 ".id")|]. eapply rtc_l; [by apply (step_call _ _ _ 1 ".id")|].
    eapply rtc_l; [by apply (step_advance _ _ _ 0 (Looking ".id"))|]. eapply rtc_l; [by apply (step_advance _ _ _ 1 (Looking ".id"))|].
    eapply rtc_l; [by apply (step_advance _ _ _ 0 (Compiling ".id"))|]. eapply rtc_l; [by apply (step_advance _ _ _ 1 (Compiling ".id"))|].
    eapply rtc_l; [by apply (step_advance _ _ _ 0 (Storing ".id" 3))|]. apply rtc_refl. }
  split; [exact Hrun|]. apply (cache_is_transparent length_code _ Hrun).
Defined.
