(* ===== verification/ContextConfig.v ===== *)
(** * Contexts: the settings of the program

    Models package [config] of [src/config] (the settings, credentials, compaction) and
    [src/envref] (the expansion of placeholders of environment variables in every text of a
    value). Pointers are options: no two settings share a record unless the code copies a
    pointer, which [ContextCatalog] tells where it matters. *)
From Stdlib Require Import SpecFloat.
From S2P Require Import Prelude GoText GoTextFacts GoFloat Faults Throttle.

(** ** Credentials *)
Record CredentialPrompt := { Prompt : bool; prompt_Persist : bool }.
Record CredentialValue := { cred_Value : string; cred_Prompt : option CredentialPrompt }.
Record Credential := { cred_Name : string; cred_Username : CredentialValue; cred_Password : CredentialValue }.
Record CredentialsRef := { ref_Name : string }.
Record BasicAuth := { basic_Ref : option CredentialsRef; basic_Username : CredentialValue; basic_Password : CredentialValue }.
Record VaultUserPasswordAuth := {
  vaultpw_Ref : option CredentialsRef; vaultpw_Mount : string; vaultpw_Username : CredentialValue; vaultpw_Password : CredentialValue;
}.
Definition no_value : CredentialValue := {| cred_Value := ""; cred_Prompt := None |}.
Definition LiteralCredential (v : string) : CredentialValue := {| cred_Value := trim_space v; cred_Prompt := None |}.
Definition IsPrompt (v : CredentialValue) : bool := from_option Prompt false (cred_Prompt v).
Definition PersistInSession (v : CredentialValue) : bool := from_option prompt_Persist false (cred_Prompt v).
Definition Literal (v : CredentialValue) : string := trim_space (cred_Value v).
Definition ref_name (r : option CredentialsRef) : string := from_option (fun r => trim_space (ref_Name r)) "" r.
Definition CredentialName (a : option BasicAuth) : string := from_option (fun a => ref_name (basic_Ref a)) "" a.
Definition UsesPrompt (a : option BasicAuth) : bool := from_option (fun a => IsPrompt (basic_Username a) || IsPrompt (basic_Password a)) false a.
Definition HasResolvedCredentials (a : option BasicAuth) : bool :=
  from_option (fun a => negb (Literal (basic_Username a) == "") && negb (Literal (basic_Password a) == "")) false a.
Definition vault_CredentialName (a : option VaultUserPasswordAuth) : string := from_option (fun a => ref_name (vaultpw_Ref a)) "" a.
Definition vault_UsesPrompt (a : option VaultUserPasswordAuth) : bool :=
  from_option (fun a => IsPrompt (vaultpw_Username a) || IsPrompt (vaultpw_Password a)) false a.
Definition vault_HasResolvedCredentials (a : option VaultUserPasswordAuth) : bool :=
  from_option (fun a => negb (Literal (vaultpw_Username a) == "") && negb (Literal (vaultpw_Password a) == "")) false a.

(** A credential value on the wire: what [MarshalYAML] returns, and the node [UnmarshalYAML]
    is given, with the library's decoding of it. *)
Inductive credential_wire := WireText (v : string) | WirePrompt (p : CredentialPrompt).
Inductive yaml_node := ScalarNode (text : result error string) | MappingNode (prompt : result error CredentialPrompt) | OtherNode.
Definition MarshalYAML (v : CredentialValue) : credential_wire :=
  match cred_Prompt v with Some p => WirePrompt p | None => WireText (cred_Value v) end.
Definition UnmarshalYAML (node : option yaml_node) : result error CredentialValue :=
  match node with
  | None => Ok no_value
  | Some (ScalarNode text) => v ← text; Ok {| cred_Value := v; cred_Prompt := None |}
  | Some (MappingNode prompt) => p ← prompt; Ok {| cred_Value := ""; cred_Prompt := Some p |}
  | Some OtherNode => Err (errorf "credential value must be a string or prompt object")
  end.
(** The node a library makes of a marshalled value. *)
Definition node_of (w : credential_wire) : yaml_node :=
  match w with WireText v => ScalarNode (Ok v) | WirePrompt p => MappingNode (Ok p) end.

(** ** Settings *)
Record ProxyAuth := { proxyauth_Basic : option BasicAuth }.
Record HTTPProxy := { HTTPURL : string; HTTPSURL : string; NoProxy : string; proxy_Auth : option ProxyAuth }.
Record TLS := { CACertFile : string; ClientCertFile : string; ClientKeyFile : string; InsecureSkipVerify : bool }.
Record SSHAuth := { ssh_User : string; PrivateKeyFile : string; ssh_Passphrase : string; KnownHostsFile : string; InsecureIgnoreHostKey : bool }.
Record AccessKeyAuth := { access_Token : string }.
Record GitAuth := { gitauth_Basic : option BasicAuth; gitauth_SSH : option SSHAuth; gitauth_AccessKey : option AccessKeyAuth }.
Record GitRemote := {
  remote_URL : string; remote_Branch : string; remote_Provider : string; remote_AutoSync : option bool;
  remote_Auth : option GitAuth; remote_TLS : option TLS; remote_Proxy : option HTTPProxy;
}.
Record GitLocal := { local_BaseDir : string; local_AutoInit : option bool }.
Record GitRepository := { git_Local : GitLocal; git_Remote : option GitRemote }.
Record FilesystemRepository := { fs_BaseDir : string }.
Record Repository := { repo_Git : option GitRepository; repo_Filesystem : option FilesystemRepository }.
Record OAuth2 := {
  TokenURL : string; GrantType : string; ClientID : string; ClientSecret : string;
  oauth_Username : string; oauth_Password : string; oauth_Scope : string; oauth_Audience : string;
}.
Record HeaderTokenAuth := { token_Header : string; token_Prefix : string; token_Value : string }.
Record HTTPAuth := { http_OAuth2 : option OAuth2; http_Basic : option BasicAuth; http_CustomHeaders : list HeaderTokenAuth }.
Record HTTPServer := {
  server_BaseURL : string; server_HealthCheck : string; server_OpenAPI : string; server_DefaultHeaders : gmap string string;
  server_Auth : option HTTPAuth; server_Proxy : option HTTPProxy; server_TLS : option TLS; server_Throttling : option HTTPRequestThrottling;
}.
Record ManagedService := { service_HTTP : option HTTPServer }.
Record KDF := { kdf_Time : Z; kdf_Memory : Z; kdf_Threads : Z }.
Record FileSecretStore := {
  file_Path : string; file_Key : string; file_KeyFile : string; file_Passphrase : string; file_PassphraseFile : string; file_KDF : option KDF;
}.
Record VaultAppRoleAuth := { RoleID : string; SecretID : string; approle_Mount : string }.
Record VaultAuth := { vault_Token : string; vault_Password : option VaultUserPasswordAuth; vault_AppRole : option VaultAppRoleAuth }.
Record VaultSecretStore := {
  vault_Address : string; vault_Mount : string; vault_PathPrefix : string; vault_KVVersion : Z;
  vault_Auth : option VaultAuth; vault_TLS : option TLS; vault_Proxy : option HTTPProxy;
}.
Record SecretStore := { store_File : option FileSecretStore; store_Vault : option VaultSecretStore }.
Record Metadata := { meta_BaseDir : string; meta_Bundle : string; meta_BundleFile : string; meta_Proxy : option HTTPProxy }.
Record Context := {
  ctx_Name : string; ctx_Repository : Repository; ctx_ManagedService : option ManagedService; ctx_SecretStore : option SecretStore;
  ctx_Metadata : Metadata; ctx_Preferences : gmap string string; ctx_Credentials : gmap string Credential;
}.
Record ContextCatalog := { Contexts : list Context; CurrentContext : string; DefaultEditor : string; Credentials : list Credential }.
Record ContextSelection := { sel_Name : string; sel_Overrides : gmap string string }.
(** Settings are compared. *)
#[export] Instance CredentialPrompt_eq_dec : EqDecision CredentialPrompt.
Proof. solve_decision. Defined.
#[export] Instance CredentialValue_eq_dec : EqDecision CredentialValue.
Proof. solve_decision. Defined.
#[export] Instance Credential_eq_dec : EqDecision Credential.
Proof. solve_decision. Defined.
#[export] Instance CredentialsRef_eq_dec : EqDecision CredentialsRef.
Proof. solve_decision. Defined.
#[export] Instance BasicAuth_eq_dec : EqDecision BasicAuth.
Proof. solve_decision. Defined.
#[export] Instance VaultUserPasswordAuth_eq_dec : EqDecision VaultUserPasswordAuth.
Proof. solve_decision. Defined.
#[export] Instance ProxyAuth_eq_dec : EqDecision ProxyAuth.
Proof. solve_decision. Defined.
#[export] Instance HTTPProxy_eq_dec : EqDecision HTTPProxy.
Proof. solve_decision. Defined.
#[export] Instance TLS_eq_dec : EqDecision TLS.
Proof. solve_decision. Defined.
#[export] Instance SSHAuth_eq_dec : EqDecision SSHAuth.
Proof. solve_decision. Defined.
#[export] Instance AccessKeyAuth_eq_dec : EqDecision AccessKeyAuth.
Proof. solve_decision. Defined.
#[export] Instance GitAuth_eq_dec : EqDecision GitAuth.
Proof. solve_decision. Defined.
#[export] Instance GitRemote_eq_dec : EqDecision GitRemote.
Proof. solve_decision. Defined.
#[export] Instance GitLocal_eq_dec : EqDecision GitLocal.
Proof. solve_decision. Defined.
#[export] Instance GitRepository_eq_dec : EqDecision GitRepository.
Proof. solve_decision. Defined.
#[export] Instance FilesystemRepository_eq_dec : EqDecision FilesystemRepository.
Proof. solve_decision. Defined.
#[export] Instance Repository_eq_dec : EqDecision Repository.
Proof. solve_decision. Defined.
#[export] Instance OAuth2_eq_dec : EqDecision OAuth2.
Proof. solve_decision. Defined.
#[export] Instance HeaderTokenAuth_eq_dec : EqDecision HeaderTokenAuth.
Proof. solve_decision. Defined.
#[export] Instance HTTPAuth_eq_dec : EqDecision HTTPAuth.
Proof. solve_decision. Defined.
#[export] Instance HTTPRequestThrottling_eq_dec : EqDecision HTTPRequestThrottling.
Proof. solve_decision. Defined.
#[export] Instance HTTPServer_eq_dec : EqDecision HTTPServer.
Proof. solve_decision. Defined.
#[export] Instance ManagedService_eq_dec : EqDecision ManagedService.
Proof. solve_decision. Defined.
#[export] Instance KDF_eq_dec : EqDecision KDF.
Proof. solve_decision. Defined.
#[export] Instance FileSecretStore_eq_dec : EqDecision FileSecretStore.
Proof. solve_decision. Defined.
#[export] Instance VaultAppRoleAuth_eq_dec : EqDecision VaultAppRoleAuth.
Proof. solve_decision. Defined.
#[export] Instance VaultAuth_eq_dec : EqDecision VaultAuth.
Proof. solve_decision. Defined.
#[export] Instance VaultSecretStore_eq_dec : EqDecision VaultSecretStore.
Proof. solve_decision. Defined.
#[export] Instance SecretStore_eq_dec : EqDecision SecretStore.
Proof. solve_decision. Defined.
#[export] Instance Metadata_eq_dec : EqDecision Metadata.
Proof. solve_decision. Defined.
#[export] Instance Context_eq_dec : EqDecision Context.
Proof. solve_decision. Defined.
#[export] Instance ContextCatalog_eq_dec : EqDecision ContextCatalog.
Proof. solve_decision. Defined.
Definition AutoInitEnabled (g : GitLocal) : bool := default true (local_AutoInit g).
Definition AutoSyncEnabled (g : GitRemote) : bool := default true (remote_AutoSync g).
Definition empty_catalog : ContextCatalog := {| Contexts := []; CurrentContext := ""; DefaultEditor := ""; Credentials := [] |}.
Definition empty_proxy : HTTPProxy := {| HTTPURL := ""; HTTPSURL := ""; NoProxy := ""; proxy_Auth := None |}.
Definition ContextFileEnvVar : string := "DECLAREST_CONTEXTS_FILE".
Definition DefaultContextCatalogPath : string := "~/.declarest/configs/contexts.yaml".

(** ** Compaction *)
Definition ContextRepositoryBaseDir (cfg : Context) : string :=
  match repo_Git (ctx_Repository cfg), repo_Filesystem (ctx_Repository cfg) with
  | Some git, _ => local_BaseDir (git_Local git)
  | None, Some fs => fs_BaseDir fs
  | None, None => ""
  end.
Definition normalizeContextBaseDir (path : string) : string := if path == "" then "" else path_clean path.
Definition metadataUsesDefaultBaseDir (cfg : Context) : bool :=
  let repoBaseDir := normalizeContextBaseDir (ContextRepositoryBaseDir cfg) in
  let metadataBaseDir := normalizeContextBaseDir (meta_BaseDir (ctx_Metadata cfg)) in
  negb (repoBaseDir == "") && negb (metadataBaseDir == "") && (repoBaseDir == metadataBaseDir).
Definition with_metadata (cfg : Context) (m : Metadata) : Context :=
  {| ctx_Name := ctx_Name cfg; ctx_Repository := ctx_Repository cfg; ctx_ManagedService := ctx_ManagedService cfg;
     ctx_SecretStore := ctx_SecretStore cfg; ctx_Metadata := m; ctx_Preferences := ctx_Preferences cfg; ctx_Credentials := ctx_Credentials cfg |}.
Definition with_base_dir (cfg : Context) (dir : string) : Context :=
  let m := ctx_Metadata cfg in
  with_metadata cfg {| meta_BaseDir := dir; meta_Bundle := meta_Bundle m; meta_BundleFile := meta_BundleFile m; meta_Proxy := meta_Proxy m |}.
Definition CompactContext (cfg : Context) : Context :=
  if negb (trim_space (meta_Bundle (ctx_Metadata cfg)) == "") || negb (trim_space (meta_BundleFile (ctx_Metadata cfg)) == "") then with_base_dir cfg ""
  else if metadataUsesDefaultBaseDir cfg then with_base_dir cfg "" else cfg.
Definition with_contexts (c : ContextCatalog) (contexts : list Context) : ContextCatalog :=
  {| Contexts := contexts; CurrentContext := CurrentContext c; DefaultEditor := DefaultEditor c; Credentials := Credentials c |}.
Definition CompactContextCatalog (c : ContextCatalog) : ContextCatalog := with_contexts c (CompactContext <$> Contexts c).

(** ** Placeholders of the environment *)
(** The texts of a value, changed one by one: the walk by reflection over pointers, structs,
    slices, maps (whose keys stay) and strings. *)
Class Texts (A : Type) := map_text : (string -> string) -> A -> A.
#[export] Instance texts_string : Texts string := fun f s => f s.
#[export] Instance texts_bool : Texts bool := fun f b => b.
#[export] Instance texts_int : Texts Z := fun f n => n.
#[export] Instance texts_float : Texts spec_float := fun f x => x.
#[export] Instance texts_pointer `{Texts A} : Texts (option A) := fun f => fmap (map_text f).
#[export] Instance texts_slice `{Texts A} : Texts (list A) := fun f => fmap (map_text f).
#[export] Instance texts_map `{Texts A} : Texts (gmap string A) := fun f => fmap (map_text f).
#[export] Instance texts_CredentialPrompt : Texts CredentialPrompt := fun f x =>
  {| Prompt := map_text f (Prompt x); prompt_Persist := map_text f (prompt_Persist x) |}.
#[export] Instance texts_CredentialValue : Texts CredentialValue := fun f x =>
  {| cred_Value := map_text f (cred_Value x); cred_Prompt := map_text f (cred_Prompt x) |}.
#[export] Instance texts_Credential : Texts Credential := fun f x =>
  {| cred_Name := map_text f (cred_Name x); cred_Username := map_text f (cred_Username x); cred_Password := map_text f (cred_Password x) |}.
#[export] Instance texts_CredentialsRef : Texts CredentialsRef := fun f x =>
  {| ref_Name := map_text f (ref_Name x) |}.
#[export] Instance texts_BasicAuth : Texts BasicAuth := fun f x =>
  {| basic_Ref := map_text f (basic_Ref x); basic_Username := map_text f (basic_Username x); basic_Password := map_text f (basic_Password x) |}.
#[export] Instance texts_VaultUserPasswordAuth : Texts VaultUserPasswordAuth := fun f x =>
    {| vaultpw_Ref := map_text f (vaultpw_Ref x); vaultpw_Mount := map_text f (vaultpw_Mount x); vaultpw_Username := map_text f (vaultpw_Username x);
     vaultpw_Password := map_text f (vaultpw_Password x) |}.
#[export] Instance texts_ProxyAuth : Texts ProxyAuth := fun f x =>
  {| proxyauth_Basic := map_text f (proxyauth_Basic x) |}.
#[export] Instance texts_HTTPProxy : Texts HTTPProxy := fun f x =>
    {| HTTPURL := map_text f (HTTPURL x); HTTPSURL := map_text f (HTTPSURL x); NoProxy := map_text f (NoProxy x); proxy_Auth := map_text f (proxy_Auth
     x) |}.
#[export] Instance texts_TLS : Texts TLS := fun f x =>
    {| CACertFile := map_text f (CACertFile x); ClientCertFile := map_text f (ClientCertFile x); ClientKeyFile := map_text f (ClientKeyFile x);
     InsecureSkipVerify := map_text f (InsecureSkipVerify x) |}.
#[export] Instance texts_SSHAuth : Texts SSHAuth := fun f x =>
    {| ssh_User := map_text f (ssh_User x); PrivateKeyFile := map_text f (PrivateKeyFile x); ssh_Passphrase := map_text f (ssh_Passphrase x);
     KnownHostsFile := map_text f (KnownHostsFile x); InsecureIgnoreHostKey := map_text f (InsecureIgnoreHostKey x) |}.
#[export] Instance texts_AccessKeyAuth : Texts AccessKeyAuth := fun f x =>
  {| access_Token := map_text f (access_Token x) |}.
#[export] Instance texts_GitAuth : Texts GitAuth := fun f x =>
    {| gitauth_Basic := map_text f (gitauth_Basic x); gitauth_SSH := map_text f (gitauth_SSH x); gitauth_AccessKey := map_text f (gitauth_AccessKey x)
     |}.
#[export] Instance texts_GitRemote : Texts GitRemote := fun f x =>
    {| remote_URL := map_text f (remote_URL x); remote_Branch := map_text f (remote_Branch x); remote_Provider := map_text f (remote_Provider x);
     remote_AutoSync := map_text f (remote_AutoSync x); remote_Auth := map_text f (remote_Auth x); remote_TLS := map_text f (remote_TLS x);
     remote_Proxy := map_text f (remote_Proxy x) |}.
#[export] Instance texts_GitLocal : Texts GitLocal := fun f x =>
  {| local_BaseDir := map_text f (local_BaseDir x); local_AutoInit := map_text f (local_AutoInit x) |}.
#[export] Instance texts_GitRepository : Texts GitRepository := fun f x =>
  {| git_Local := map_text f (git_Local x); git_Remote := map_text f (git_Remote x) |}.
#[export] Instance texts_FilesystemRepository : Texts FilesystemRepository := fun f x =>
  {| fs_BaseDir := map_text f (fs_BaseDir x) |}.
#[export] Instance texts_Repository : Texts Repository := fun f x =>
  {| repo_Git := map_text f (repo_Git x); repo_Filesystem := map_text f (repo_Filesystem x) |}.
#[export] Instance texts_OAuth2 : Texts OAuth2 := fun f x =>
    {| TokenURL := map_text f (TokenURL x); GrantType := map_text f (GrantType x); ClientID := map_text f (ClientID x); ClientSecret := map_text f
     (ClientSecret x); oauth_Username := map_text f (oauth_Username x); oauth_Password := map_text f (oauth_Password x); oauth_Scope := map_text f
     (oauth_Scope x); oauth_Audience := map_text f (oauth_Audience x) |}.
#[export] Instance texts_HeaderTokenAuth : Texts HeaderTokenAuth := fun f x =>
  {| token_Header := map_text f (token_Header x); token_Prefix := map_text f (token_Prefix x); token_Value := map_text f (token_Value x) |}.
#[export] Instance texts_HTTPAuth : Texts HTTPAuth := fun f x =>
  {| http_OAuth2 := map_text f (http_OAuth2 x); http_Basic := map_text f (http_Basic x); http_CustomHeaders := map_text f (http_CustomHeaders x) |}.
#[export] Instance texts_HTTPRequestThrottling : Texts HTTPRequestThrottling := fun f x =>
    {| MaxConcurrentRequests := map_text f (MaxConcurrentRequests x); QueueSize := map_text f (QueueSize x); RequestsPerSecond := map_text f
     (RequestsPerSecond x); Burst := map_text f (Burst x); ScopeKey := map_text f (ScopeKey x) |}.
#[export] Instance texts_HTTPServer : Texts HTTPServer := fun f x =>
    {| server_BaseURL := map_text f (server_BaseURL x); server_HealthCheck := map_text f (server_HealthCheck x); server_OpenAPI := map_text f
     (server_OpenAPI x); server_DefaultHeaders := map_text f (server_DefaultHeaders x); server_Auth := map_text f (server_Auth x); server_Proxy :=
     map_text f (server_Proxy x); server_TLS := map_text f (server_TLS x); server_Throttling := map_text f (server_Throttling x) |}.
#[export] Instance texts_ManagedService : Texts ManagedService := fun f x =>
  {| service_HTTP := map_text f (service_HTTP x) |}.
#[export] Instance texts_KDF : Texts KDF := fun f x =>
  {| kdf_Time := map_text f (kdf_Time x); kdf_Memory := map_text f (kdf_Memory x); kdf_Threads := map_text f (kdf_Threads x) |}.
#[export] Instance texts_FileSecretStore : Texts FileSecretStore := fun f x =>
    {| file_Path := map_text f (file_Path x); file_Key := map_text f (file_Key x); file_KeyFile := map_text f (file_KeyFile x); file_Passphrase :=
     map_text f (file_Passphrase x); file_PassphraseFile := map_text f (file_PassphraseFile x); file_KDF := map_text f (file_KDF x) |}.
#[export] Instance texts_VaultAppRoleAuth : Texts VaultAppRoleAuth := fun f x =>
  {| RoleID := map_text f (RoleID x); SecretID := map_text f (SecretID x); approle_Mount := map_text f (approle_Mount x) |}.
#[export] Instance texts_VaultAuth : Texts VaultAuth := fun f x =>
  {| vault_Token := map_text f (vault_Token x); vault_Password := map_text f (vault_Password x); vault_AppRole := map_text f (vault_AppRole x) |}.
#[export] Instance texts_VaultSecretStore : Texts VaultSecretStore := fun f x =>
    {| vault_Address := map_text f (vault_Address x); vault_Mount := map_text f (vault_Mount x); vault_PathPrefix := map_text f (vault_PathPrefix x);
     vault_KVVersion := map_text f (vault_KVVersion x); vault_Auth := map_text f (vault_Auth x); vault_TLS := map_text f (vault_TLS x); vault_Proxy :=
     map_text f (vault_Proxy x) |}.
#[export] Instance texts_SecretStore : Texts SecretStore := fun f x =>
  {| store_File := map_text f (store_File x); store_Vault := map_text f (store_Vault x) |}.
#[export] Instance texts_Metadata : Texts Metadata := fun f x =>
    {| meta_BaseDir := map_text f (meta_BaseDir x); meta_Bundle := map_text f (meta_Bundle x); meta_BundleFile := map_text f (meta_BundleFile x);
     meta_Proxy := map_text f (meta_Proxy x) |}.
#[export] Instance texts_Context : Texts Context := fun f x =>
    {| ctx_Name := map_text f (ctx_Name x); ctx_Repository := map_text f (ctx_Repository x); ctx_ManagedService := map_text f (ctx_ManagedService x);
     ctx_SecretStore := map_text f (ctx_SecretStore x); ctx_Metadata := map_text f (ctx_Metadata x); ctx_Preferences := map_text f (ctx_Preferences
     x); ctx_Credentials := map_text f (ctx_Credentials x) |}.
#[export] Instance texts_ContextCatalog : Texts ContextCatalog := fun f x =>
    {| Contexts := map_text f (Contexts x); CurrentContext := map_text f (CurrentContext x); DefaultEditor := map_text f (DefaultEditor x); Credentials
     := map_text f (Credentials x) |}.

(** [os.LookupEnv]; [os.Getenv] of a variable that is not set is the empty text. *)
Abbreviation environment := (string -> option string).
Definition Getenv (env : environment) (key : string) : string := default "" (env key).
(** The name in [${NAME}]. *)
Definition placeholder_name (s : string) : option string :=
  let v := trim_space s in
  if has_prefix v "${" && has_suffix v "}" then
    let name := trim_suffix (trim_prefix v "${") "}" in
    if is_identifier name then Some name else None
  else None.
Definition resolvePlaceholder (env : environment) (v : string) : option string := Getenv env <$> placeholder_name v.
Definition expand_text (env : environment) (v : string) : string := default v (resolvePlaceholder env v).
Definition ExpandExactEnvPlaceholders `{Texts A} (env : environment) (v : A) : A := map_text (expand_text env) v.
