(* ===== verification/PromptAuth.v ===== *)
(** * Credentials asked for

    Models [runtime.go] and the file of [session_store.go] of [src/internal/promptauth]: the
    runtime that answers for a credential from what was resolved before, from the values of
    the session, from the environment or by asking. [W] is the state of what is outside; the
    runtime is kept beside it. The prompt is an action; the digest that names the session
    file is left out: the path of the file is given. One call runs at a time: the code holds
    its lock for the parts of a call, not for the whole. *)
From S2P Require Import Prelude GoText GoTextFacts Faults GoDisk DiskLaws Services Throttle ContextConfig.

Definition envPrefix : string := "DECLAREST_CONTEXT_CREDENTIAL_".
Record user_password := { creds_Username : string; creds_Password : string }.
Record SessionStore (W : Type) := { Load : action W (gmap string string); Save : gmap string string -> action W unit }.
Arguments Load {W}.
Arguments Save {W}.
Record Runtime := {
  sessionLoaded : bool; sessionValues : gmap string string; warnedNoSession : bool;
  resolved : gmap string user_password; envKeyOwners : gmap string string;
}.

(** ** The names of session values *)
Section keys.
Context `{UnicodeTables}.
Definition sanitize_rune (r : Z) : Z :=
  if in_range 97 122 r then r - 32 else if in_range 65 90 r || in_range 48 57 r then r else 95.
Definition sanitizeEnvSegment (v : string) : string := string_of_runes (sanitize_rune <$> runes (trim_space v)).
Definition credentialEnvKey (name field : string) : string := envPrefix +:+ sanitizeEnvSegment name +:+ "_" +:+ to_upper (trim_space field).
Definition credentialEnvKeys (name : string) : string * string := (credentialEnvKey name "username", credentialEnvKey name "password").
End keys.

(** ** Updates of the runtime *)
Definition with_values (r : Runtime) (values : gmap string string) : Runtime :=
  {| sessionLoaded := sessionLoaded r; sessionValues := values; warnedNoSession := warnedNoSession r; resolved := resolved r; envKeyOwners := envKeyOwners r |}.
Definition with_loaded (r : Runtime) (values : gmap string string) : Runtime :=
  {| sessionLoaded := true; sessionValues := values; warnedNoSession := warnedNoSession r; resolved := resolved r; envKeyOwners := envKeyOwners r |}.
Definition with_warned (r : Runtime) : Runtime :=
  {| sessionLoaded := sessionLoaded r; sessionValues := sessionValues r; warnedNoSession := true; resolved := resolved r; envKeyOwners := envKeyOwners r |}.
Definition with_resolved (r : Runtime) (name : string) (creds : user_password) : Runtime :=
  {| sessionLoaded := sessionLoaded r; sessionValues := sessionValues r; warnedNoSession := warnedNoSession r;
     resolved := <[name := creds]> (resolved r); envKeyOwners := envKeyOwners r |}.
Definition with_owners (r : Runtime) (owners : gmap string string) : Runtime :=
  {| sessionLoaded := sessionLoaded r; sessionValues := sessionValues r; warnedNoSession := warnedNoSession r; resolved := resolved r; envKeyOwners := owners |}.
Definition fresh_runtime : Runtime :=
  {| sessionLoaded := false; sessionValues := ∅; warnedNoSession := false; resolved := ∅; envKeyOwners := ∅ |}.

(** An error of a store, reported as an internal one. *)
Definition report {S A} (message : string) (m : action S A) : action S A :=
  r ← catch m;
  match r with Ok a => mret a | Err err => fail (Internal message (Some err)) end.

Section runtime.
Context `{UnicodeTables} {W : Type} (env : environment).
(** The prompt: the name of the credential, the field, whether to warn, and whether a session
    outlives the command. The session store, if there is one. *)
Context (PromptValue : string -> string -> bool -> bool -> action W string) (store : option (SessionStore W)).
Abbreviation act A := (action (W * Runtime) A).
Definition persistentSession : bool := if store then true else false.

(** A call of what is outside, and a reading and a change of the runtime. *)
Definition beside {A} (m : action W A) : act A := fun '(w, r) =>
  match m w with Some (o, w) => Some (o, (w, r)) | None => None end.
Definition look {A} (f : Runtime -> A) : act A := fun s => Some (Ok (f s.2), s).
Definition change (f : Runtime -> Runtime) : act unit := fun '(w, r) => Some (Ok tt, (w, f r)).
Definition ensureSessionLoaded : act unit :=
  loaded ← look sessionLoaded;
  if (loaded : bool) then mret tt
  else
    values ← match store with
             | None => mret ∅
             | Some store => report "failed to load prompt auth session credentials" (beside (Load store))
             end;
    change (fun r => with_loaded r values).
Definition New : act unit := ensureSessionLoaded.
Definition non_blank (v : option string) : option string :=
  v ≫= fun v => let v := trim_space v in if v == "" then None else Some v.
Definition sessionValueFromMemory (r : Runtime) (key : string) : option string := non_blank (sessionValues r !! key).
Definition sessionValue (key : string) : option string := non_blank (env key).
Definition persistField (key v : string) : act unit :=
  _ ← ensureSessionLoaded;
  _ ← change (fun r => with_values r (<[key := v]> (sessionValues r)));
  values ← look sessionValues;
  match store with
  | None => mret tt
  | Some store => report "failed to persist prompt auth session value" (beside (Save store values))
  end.
(** The error of the first key that another credential has, the name of the user first. *)
Definition foreign_owner (r : Runtime) (name key : string) : option string :=
  envKeyOwners r !! key ≫= fun owner => if owner == name then None else Some owner.
Definition registerEnvKeyOwner (name : string) (r : Runtime) : result error Runtime :=
  let '(usernameKey, passwordKey) := credentialEnvKeys name in
  let refuse owner := Err (Invalid ("credential " +:+ quote name +:+ " and " +:+ quote owner
       +:+ " produce the same session key; use distinct credential names to avoid cross-contamination") None) in
  match foreign_owner r name usernameKey, foreign_owner r name passwordKey with
  | Some owner, _ | None, Some owner => refuse owner
  | None, None => Ok (with_owners r (<[passwordKey := name]> (<[usernameKey := name]> (envKeyOwners r))))
  end.
Definition register (name : string) : act unit := fun '(w, r) =>
  match registerEnvKeyOwner name r with Ok r => Some (Ok tt, (w, r)) | Err err => Some (Err (Failed err), (w, r)) end.
(** Whether the prompt is to warn: a missing session is told of once. *)
Definition warn_on_persist (v : CredentialValue) : act bool :=
  if PersistInSession v && negb persistentSession then
    warned ← look warnedNoSession;
    if (warned : bool) then mret false else _ ← change with_warned; mret true
  else mret (PersistInSession v).
Definition resolveField (name field : string) (v : CredentialValue) : act string :=
  if negb (IsPrompt v) then mret (Literal v)
  else
    let envKey := credentialEnvKey name field in
    found ← look (fun r => sessionValueFromMemory r envKey);
    match found with
    | Some found => mret found
    | None =>
        match sessionValue envKey with
        | Some found => mret found
        | None =>
            warn ← warn_on_persist v;
            prompted ← beside (PromptValue name field warn persistentSession);
            let prompted := trim_space prompted in
            if prompted == "" then fail (Invalid ("credential " +:+ quote name +:+ " " +:+ field +:+ " is required") None)
            else
              _ ← (if PersistInSession v then persistField envKey prompted else mret tt);
              mret prompted
        end
    end.
Definition resolve_fields (name : string) (username password : CredentialValue) : act user_password :=
  resolvedUsername ← resolveField name "username" username;
  resolvedPassword ← resolveField name "password" password;
  let creds := {| creds_Username := trim_space resolvedUsername; creds_Password := trim_space resolvedPassword |} in
  if (creds_Username creds == "") || (creds_Password creds == "")
  then fail (Invalid ("credential " +:+ quote name +:+ " requires username and password") None)
  else _ ← change (fun r => with_resolved r name creds); mret creds.
Definition Resolve (credentialName : string) (username password : CredentialValue) : act user_password :=
  _ ← ensureSessionLoaded;
  let name := trim_space credentialName in
  if name == "" then fail (Invalid "credential name is required" None)
  else
    known ← look (fun r => resolved r !! name);
    match known with
    | Some creds => mret creds
    | None => _ ← register name; resolve_fields name username password
    end.
(** [present] tells whether there is a runtime. *)
Definition ResolveCredentials (present : bool) (credentialName : string) (username password : CredentialValue) : act user_password :=
  if negb (IsPrompt username) && negb (IsPrompt password) then mret {| creds_Username := Literal username; creds_Password := Literal password |}
  else if negb present then fail (Invalid ("credential " +:+ quote (trim_space credentialName) +:+ " requires prompt runtime support") None)
  else Resolve credentialName username password.
End runtime.

(** ** The session file *)
(** [encoding/json] on maps of texts. *)
Class SessionJSON := { unmarshal_texts : string -> result error (gmap string string); marshal_texts : gmap string string -> string }.
Section session_file.
Context {D : Type} `{Disk D} `{!DiskModes D} `{SessionJSON}.
Definition on_disk {A} (f : D -> result error A * D) : action D A := fun d => let '(r, d) := f d in Some (lift r, d).
Definition file_Load (path : string) : action D (gmap string string) := read_result (fun d =>
  if trim_space path == "" then Ok ∅
  else match ReadFile d path with
       | Err err => if is_not_exist err then Ok ∅ else Err (disk_cause err)
       | Ok data => if data == "" then Ok ∅ else unmarshal_texts data
       end).
Definition file_Save (path : string) (values : gmap string string) : action D unit := on_disk (fun d =>
  if trim_space path == "" then (Ok tt, d)
  else match write_private (fun _ err => err) path ".declarest-prompt-auth-*" (marshal_texts values) d with
       | (None, d) => (Ok tt, d)
       | (Some err, d) => (Err err, d)
       end).
(** [newDefaultSessionStore], for the path of the session file. *)
Definition newDefaultSessionStore (path : string) : option (SessionStore D) :=
  if trim_space path == "" then None else Some {| Load := file_Load path; Save := file_Save path |}.
Definition removeSessionCacheFile (path : string) : action D bool := on_disk (fun d =>
  if trim_space path == "" then (Ok false, d)
  else match Remove path d with
       | (None, d) => (Ok true, d)
       | (Some err, d) => (if is_not_exist err then Ok false else Err (disk_cause err), d)
       end).
(** [runtimePath] and [legacyPath] are the files of the session, now and formerly. *)
Definition ClearSessionCredentials (runtimePath legacyPath : result error string) : action D Z :=
  runtimePath ← report "failed to resolve prompt auth runtime session path" (of_result runtimePath);
  deleted ← report "failed to clear prompt auth runtime session cache" (removeSessionCacheFile runtimePath);
  let removed := if deleted : bool then 1%Z else 0%Z in
  legacyPath ← report "failed to resolve prompt auth legacy session path" (of_result legacyPath);
  if negb (legacyPath == "") && negb (legacyPath == runtimePath) then
    deleted ← report "failed to clear prompt auth legacy session cache" (removeSessionCacheFile legacyPath);
    mret (if deleted : bool then (removed + 1)%Z else removed)
  else mret removed.
End session_file.
