(* ===== verification/PromptAuthFacts.v ===== *)
(** * What the credential runtime answers

    The sound states of the runtime of [PromptAuth], kept by every call: a credential that was
    resolved owns the names of its session values, which no other resolved credential has, and
    is answered as it was resolved, without a prompt. *)
From S2P Require Import Prelude GoText GoTextFacts Faults Services ActionFacts ContextConfig PromptAuth.

Section facts.
Context `{UnicodeTables} {W : Type} (env : environment) (PromptValue : string -> string -> bool -> bool -> action W string) (store : option (SessionStore W)).
Implicit Types (s : W * Runtime) (R : gmap string user_password) (O : gmap string string).

(** ** The parts of a call that leave what was resolved *)
Lemma bind_any {S A B} (m : action S A) (f : A -> action S B) (t t' : S) o : mbind f m t = Some (o, t') ->
  (exists e, m t = Some (Err e, t') /\ o = Err e) \/ exists a t1, m t = Some (Ok a, t1) /\ f a t1 = Some (o, t').
Proof. unfold mbind, action_bind. destruct (m t) as [[[a|e] t1]|]; [|intros [= <- <-]|done]; eauto. Qed.
Definition at_rest (r : Runtime) s : Prop :=
  resolved s.2 = resolved r /\ envKeyOwners s.2 = envKeyOwners r /\ (sessionLoaded r = true -> sessionLoaded s.2 = true).

Lemma keeps_beside {A} r0 (m : action W A) : keeps (at_rest r0) (beside m).
Proof. intros [w r] o s' HI. unfold beside. destruct (m w) as [[o1 w1]|]; [|done]. intros [= <- <-]. apply HI. Qed.
Lemma keeps_look {A} r0 (f : Runtime -> A) : keeps (at_rest r0) (look (W := W) f).
Proof. intros s o s' HI [= <- <-]. done. Qed.
Lemma keeps_change r0 f : (forall r, resolved (f r) = resolved r /\ envKeyOwners (f r) = envKeyOwners r /\ (sessionLoaded r = true -> sessionLoaded (f r) = true)) -> keeps (at_rest r0) (change (W := W) f).
Proof. intros Hf [w r] o s' (HR & HO & HL) [= <- <-]. destruct (Hf r) as (E1 & E2 & E3). unfold at_rest. cbn in *. rewrite E1, E2. split_and!; [done..|auto]. Qed.
Lemma keeps_report {A} r0 message (m : action (W * Runtime) A) : keeps (at_rest r0) m -> keeps (at_rest r0) (report message m).
Proof. intros Hm. apply keeps_bind; [by apply keeps_catch|]. intros [a|e]; [apply keeps_ret|apply keeps_fail]. Qed.
Lemma keeps_session r0 : keeps (at_rest r0) (ensureSessionLoaded store).
Proof.
  apply keeps_bind; [apply keeps_look|]. intros []; [apply keeps_ret|]. apply keeps_bind.
  - destruct store; [apply keeps_report, keeps_beside|apply keeps_ret].
  - intros values. by apply keeps_change.
Qed.
Lemma keeps_persist r0 key v : keeps (at_rest r0) (persistField store key v).
Proof.
  apply keeps_bind; [apply keeps_session|]. intros _. apply keeps_bind; [by apply keeps_change|]. intros _.
  apply keeps_bind; [apply keeps_look|]. intros values. destruct store; [apply keeps_report, keeps_beside|apply keeps_ret].
Qed.
Lemma keeps_warn r0 v : keeps (at_rest r0) (warn_on_persist store v).
Proof.
  unfold warn_on_persist. destruct (_ && _); [|apply keeps_ret]. apply keeps_bind; [apply keeps_look|].
  intros []; [apply keeps_ret|]. apply keeps_bind; [by apply keeps_change|]. intros _. apply keeps_ret.
Qed.
Lemma keeps_field r0 name field v : keeps (at_rest r0) (resolveField env PromptValue store name field v).
Proof.
  unfold resolveField. destruct (negb _); [apply keeps_ret|]. apply keeps_bind; [apply keeps_look|].
  intros [found|]; [apply keeps_ret|]. destruct (sessionValue _ _); [apply keeps_ret|]. apply keeps_bind; [apply keeps_warn|].
  intros warn. apply keeps_bind; [apply keeps_beside|]. intros prompted. case_bool_decide; [apply keeps_fail|].
  apply keeps_bind; [destruct (PersistInSession v); [apply keeps_persist|apply keeps_ret]|]. intros _. apply keeps_ret.
Qed.

(** ** Sound runtimes *)
Definition owned O (name : string) : Prop :=
  O !! credentialEnvKey name "username" = Some name /\ O !! credentialEnvKey name "password" = Some name.
Definition sound R O : Prop := forall name creds, R !! name = Some creds -> owned O name /\ creds_Username creds <> "" /\ creds_Password creds <> "".
Lemma owned_distinct O n m key : owned O n -> owned O m ->
  key = credentialEnvKey n "username" \/ key = credentialEnvKey n "password" ->
  key = credentialEnvKey m "username" \/ key = credentialEnvKey m "password" -> n = m.
Proof. intros [Hn1 Hn2] [Hm1 Hm2] [->| ->] [E|E]; rewrite E in *; congruence. Qed.
Lemma foreign_None r name key : foreign_owner r name key = None -> envKeyOwners r !! key = None \/ envKeyOwners r !! key = Some name.
Proof. unfold foreign_owner. destruct (envKeyOwners r !! key) as [owner|]; cbn; [|by left]. case_bool_decide as E; [|done]. subst. by right. Qed.
(** Registering takes no key from another credential. *)
Lemma register_ok name r r' : registerEnvKeyOwner name r = Ok r' ->
  resolved r' = resolved r /\ sessionLoaded r' = sessionLoaded r /\ owned (envKeyOwners r') name /\ forall n, owned (envKeyOwners r) n -> owned (envKeyOwners r') n.
Proof.
  unfold registerEnvKeyOwner. destruct (credentialEnvKeys name) as [ku kp] eqn:Ek. injection Ek as <- <-.
  destruct (foreign_owner r name _) eqn:E1; [done|]. destruct (foreign_owner r name (credentialEnvKey name "password")) eqn:E2; [done|].
  intros [= <-]. cbn [resolved with_owners envKeyOwners]. apply foreign_None in E1, E2.
  assert (forall n key, envKeyOwners r !! key = Some n ->
    <[credentialEnvKey name "password":=name]> (<[credentialEnvKey name "username":=name]> (envKeyOwners r)) !! key = Some n) as Hkeep.
  { intros n key Hn. destruct (decide (key = credentialEnvKey name "password")) as [->|Hp]; [rewrite lookup_insert_eq; destruct E2; congruence|].
    rewrite lookup_insert_ne by done. destruct (decide (key = credentialEnvKey name "username")) as [->|Hu]; [rewrite lookup_insert_eq; destruct E1; congruence|].
    by rewrite lookup_insert_ne by done. }
  split_and!; [done|done| |intros n [Hu Hp]; split; by apply Hkeep]. split; [|apply lookup_insert_eq].
  destruct (decide (credentialEnvKey name "password" = credentialEnvKey name "username")) as [E|E]; [rewrite E; apply lookup_insert_eq|].
  rewrite lookup_insert_ne by done. apply lookup_insert_eq.
Qed.

(** What a call does to the runtime, whatever it answers. *)
Definition later s s' : Prop :=
  (sound (resolved s.2) (envKeyOwners s.2) -> sound (resolved s'.2) (envKeyOwners s'.2)) /\ resolved s.2 ⊆ resolved s'.2
  /\ (sessionLoaded s.2 = true -> sessionLoaded s'.2 = true).
#[local] Instance later_preorder : PreOrder later.
Proof. split; [by intros s|]. intros s1 s2 s3 (H1 & H1' & H1'') (H2 & H2' & H2''). split_and!; [auto|by etrans|auto]. Qed.
Lemma rest_later s s' : at_rest s.2 s' -> later s s'.
Proof. intros (E1 & E2 & E3). unfold later. by rewrite E1, E2. Qed.
Lemma rest_trans s s1 s' : at_rest s.2 s1 -> at_rest s1.2 s' -> at_rest s.2 s'.
Proof. intros (E1 & E2 & E3) (F1 & F2 & F3). split_and!; [congruence..|auto]. Qed.
Lemma keeps_later {A} (m : action (W * Runtime) A) s o s' : (forall r, keeps (at_rest r) m) -> m s = Some (o, s') -> at_rest s.2 s'.
Proof. intros Hm Hr. by eapply (Hm _ s). Qed.
Lemma fields_later name u p s o s' : resolved s.2 !! name = None -> owned (envKeyOwners s.2) name ->
  resolve_fields env PromptValue store name u p s = Some (o, s') ->
  later s s' /\ forall creds, o = Ok creds -> resolved s'.2 !! name = Some creds.
Proof.
  intros Hn Ho. unfold resolve_fields. intros [(e & Hf & ->)|(ru & s1 & H1 & Hr)]%bind_any.
  { split; [|done]. apply rest_later. eapply keeps_later; [|exact Hf]. intros; apply keeps_field. }
  apply keeps_later in H1; [|intros; apply keeps_field]. apply bind_any in Hr as [(e & Hf & ->)|(rp & s2 & H2 & Hr)].
  { split; [|done]. apply keeps_later in Hf; [|intros; apply keeps_field]. by eapply rest_later, rest_trans. }
  apply keeps_later in H2; [|intros; apply keeps_field]. pose proof (rest_trans _ _ _ H1 H2) as Hrest. destruct ((_ == _) || _) eqn:Eb.
  { injection Hr as <- <-. split; [|done]. by apply rest_later. }
  destruct s2 as [w2 r2], Hrest as (E & E' & E''). injection Hr as <- <-. cbn [snd resolved envKeyOwners sessionLoaded with_resolved] in *.
  split; [|intros creds [= <-]; apply lookup_insert_eq]. apply orb_false_iff in Eb as [Eu%bool_decide_eq_false Ep%bool_decide_eq_false].
  unfold later. cbn [snd resolved envKeyOwners sessionLoaded with_resolved]. rewrite E, E'. split_and!; [|by apply insert_subseteq|done].
  intros Hs n creds [[<- <-]|[_ Hl]]%lookup_insert_Some; [done|by eapply Hs].
Qed.
Lemma session_loaded s s' : ensureSessionLoaded store s = Some (Ok tt, s') -> sessionLoaded s'.2 = true.
Proof.
  intros (loaded & s1 & [= <- <-] & Hr)%bind_inv. destruct (sessionLoaded s.2) eqn:El; [by injection Hr as <-|].
  apply bind_inv in Hr as (values & [w r] & _ & [= <-]). done.
Qed.
(** The part of [Resolve] that follows the loading of the session. *)
Lemma Resolve_later name u p s o s' : Resolve env PromptValue store name u p s = Some (o, s') ->
  later s s' /\ forall creds, o = Ok creds -> resolved s'.2 !! trim_space name = Some creds /\ sessionLoaded s'.2 = true.
Proof.
  unfold Resolve. intros [(e & Hf & ->)|([] & s1 & H1 & Hr)]%bind_any.
  { split; [|done]. apply rest_later. eapply keeps_later; [|exact Hf]. intros; apply keeps_session. }
  apply session_loaded in H1 as Hload. apply keeps_later in H1 as Hl1%rest_later; [|intros; apply keeps_session].
  enough (later s1 s' /\ forall creds, o = Ok creds -> resolved s'.2 !! trim_space name = Some creds) as [Hl2 Hc].
  { split; [by etrans|]. intros creds Hcreds. split; [by apply Hc|]. by apply Hl2. }
  case_bool_decide as Ename; [by injection Hr as <- <-|].
  apply bind_any in Hr as [(e & [=] & _)|(known & s2 & [= <- <-] & Hr)]. destruct (resolved s1.2 !! trim_space name) as [creds|] eqn:En.
  { injection Hr as <- <-. split; [done|]. by intros creds' [= <-]. }
  destruct s1 as [w1 r1]. apply bind_any in Hr as [(e & Hf & ->)|([] & s3 & Hg & Hr)].
  { unfold register in Hf. destruct (registerEnvKeyOwner _ _) eqn:Er; [done|]. by injection Hf as _ <-. }
  unfold register in Hg. destruct (registerEnvKeyOwner _ r1) as [r3|] eqn:Er; [|done]. injection Hg as <-.
  apply register_ok in Er as (Eres & Eload & Howned & Hkeep). cbn [snd] in *.
  apply fields_later in Hr as [Hl2 Hc]; [|cbn; congruence|done]. split; [|done]. etrans; [|exact Hl2].
  unfold later. cbn [snd]. rewrite Eres, Eload. split; [|by split]. intros Hs n creds Hn. destruct (Hs n creds Hn) as (Ho & ?). split; [by apply Hkeep|done].
Qed.

(** ** Calls one after another *)
Record resolve_call := { call_name : string; call_username : CredentialValue; call_password : CredentialValue }.
(** The state after the calls, whatever they answer; none when an outside action has no end. *)
Fixpoint run_calls (calls : list resolve_call) s : option (W * Runtime) :=
  match calls with
  | [] => Some s
  | c :: calls => match Resolve env PromptValue store (call_name c) (call_username c) (call_password c) s with
                  | Some (_, s) => run_calls calls s
                  | None => None
                  end
  end.
Lemma run_later calls : forall s s', run_calls calls s = Some s' -> later s s'.
Proof.
  induction calls as [|c calls IH]; intros s s'; [by intros [= <-]|]. cbn. destruct (Resolve _ _ _ _ _ _ s) as [[o s1]|] eqn:E; [|done].
  intros Hr. apply Resolve_later in E as [Hl _]. etrans; [exact Hl|]. by apply IH.
Qed.

(** [C16] The values of two credentials in the session never share a name: after any calls of
    a new runtime, whatever the prompts and the session store did, credentials it resolved
    whose names lead to a common session key are one credential, and a resolved credential
    has both parts. *)
Theorem session_keys_have_one_owner calls w s' : run_calls calls (w, fresh_runtime) = Some s' ->
  (forall n creds, resolved s'.2 !! n = Some creds -> creds_Username creds <> "" /\ creds_Password creds <> "") /\
  forall n m key, is_Some (resolved s'.2 !! n) -> is_Some (resolved s'.2 !! m) ->
    key = credentialEnvKey n "username" \/ key = credentialEnvKey n "password" ->
    key = credentialEnvKey m "username" \/ key = credentialEnvKey m "password" -> n = m.
Proof.
  intros (Hs & _)%run_later. specialize (Hs ltac:(done)). split.
  - intros n creds Hn. by destruct (Hs n creds Hn).
  - intros n m key [cn Hn] [cm Hm]. destruct (Hs n cn Hn) as [Hon _], (Hs m cm Hm) as [Hom _]. by eapply owned_distinct.
Qed.
(** A credential is resolved once: when a call answered with credentials, any later
    call for the name, whatever came between and whatever values it is given, answers the same
    and touches neither the session store nor the terminal. *)
Theorem credential_resolved_once name name' u p u' p' s s1 calls s2 creds :
  Resolve env PromptValue store name u p s = Some (Ok creds, s1) -> run_calls calls s1 = Some s2 ->
  trim_space name' = trim_space name -> Resolve env PromptValue store name' u' p' s2 = Some (Ok creds, s2).
Proof.
  intros Hr Hc En. apply Resolve_later in Hr as Hr'. destruct Hr' as [_ Hk]. destruct (Hk _ eq_refl) as [Hk1 Hl1].
  apply run_later in Hc as (_ & Hsub & Hload). specialize (Hload Hl1).
  assert (resolved s2.2 !! trim_space name = Some creds) as Hk2 by (by eapply lookup_weaken).
  assert (trim_space name <> "") as Hne.
  { intros E. unfold Resolve in Hr. apply bind_inv in Hr as ([] & s0 & _ & Hr). by rewrite E in Hr. }
  unfold Resolve. erewrite bind_run by (unfold ensureSessionLoaded; erewrite bind_run by done; by rewrite Hload).
  rewrite En, bool_decide_false by done. erewrite bind_run by done. by rewrite Hk2.
Qed.
End facts.

(** ** Runs *)
Definition asked : CredentialValue := {| cred_Value := ""; cred_Prompt := Some {| Prompt := true; prompt_Persist := true |} |}.
(** The user answers with the name and the field; the session is a map kept outside. *)
Definition echo (name field : string) (warn persistent : bool) : action (gmap string string) string := mret (name +:+ "/" +:+ field).
Definition map_store : SessionStore (gmap string string) := {| Load := fun w => Some (Ok w, w); Save := fun values _ => Some (Ok tt, values) |}.
Definition silent : environment := fun _ => None.
Lemma session_keys_have_one_owner_witness (T : UnicodeTables := latin1_tables) :
  let calls := [{| call_name := "team-a"; call_username := asked; call_password := asked |};
                {| call_name := "team_a"; call_username := asked; call_password := asked |};
                {| call_name := "ops"; call_username := LiteralCredential "u"; call_password := asked |}] in
  exists s', run_calls silent echo (Some map_store) calls (∅, fresh_runtime) = Some s' /\ elements (dom (resolved s'.2)) = ["ops"; "team-a"] /\
  forall n m key, is_Some (resolved s'.2 !! n) -> is_Some (resolved s'.2 !! m) ->
    key = credentialEnvKey n "username" \/ key = credentialEnvKey n "password" ->
    key = credentialEnvKey m "username" \/ key = credentialEnvKey m "password" -> n = m.
Proof.
  intros calls. assert ((fun s => elements (dom (resolved s.2))) <$> run_calls silent echo (Some map_store) calls (∅, fresh_runtime) = Some ["ops"; "team-a"]) as Hd
    by (vm_compute; reflexivity).
  destruct (run_calls silent echo (Some map_store) calls (∅, fresh_runtime)) as [s'|] eqn:E; [|done]. exists s'. injection Hd as Hd.
  split_and!; [done..|]. by eapply (session_keys_have_one_owner silent echo (Some map_store) calls).
Defined.
Lemma credential_resolved_once_witness (T : UnicodeTables := latin1_tables) :
  exists s1 creds, Resolve silent echo None "ops" asked asked (∅, fresh_runtime) = Some (Ok creds, s1) /\ creds_Username creds = "ops/username"
    /\ Resolve silent echo None " ops " (LiteralCredential "x") asked s1 = Some (Ok creds, s1).
Proof.
  assert (match Resolve silent echo None "ops" asked asked (∅, fresh_runtime) with Some (Ok c, _) => creds_Username c = "ops/username" | _ => False end) as Hc
    by (vm_compute; reflexivity).
  destruct (Resolve silent echo None "ops" asked asked (∅, fresh_runtime)) as [[[creds|e] s1]|] eqn:E; [|done..].
  exists s1, creds. split_and!; [done..|].
  apply (credential_resolved_once silent echo None "ops" " ops " asked asked (LiteralCredential "x") asked _ s1 [] s1 creds E); [done|vm_compute; reflexivity].
Defined.
(** The owners of the names are not kept in the session: a later command that uses another
    credential of the same session name is answered with the values of the first. *)
Definition first_command : option (outcome user_password * (gmap string string * Runtime)) :=
  Resolve (H := latin1_tables) silent echo (Some map_store) "team-a" asked asked (∅, fresh_runtime).
Definition session_file : gmap string string := match first_command with Some (_, (w, _)) => w | None => ∅ end.
Definition team_a : outcome user_password := Ok {| creds_Username := "team-a/username"; creds_Password := "team-a/password" |}.
Example first_command_asks : fst <$> first_command = Some team_a.
Proof. vm_compute. reflexivity. Qed.
Example names_share_session (T : UnicodeTables := latin1_tables) :
  fst <$> Resolve silent echo (Some map_store) "team_a" asked asked (session_file, fresh_runtime) = Some team_a.
Proof. vm_compute. reflexivity. Qed.
Example one_command_refuses (T : UnicodeTables := latin1_tables) :
  fst <$> (first_command ≫= fun x => Resolve silent echo (Some map_store) "team_a" asked asked x.2) =
  Some (Err (Failed (Invalid ("credential " +:+ quote "team_a" +:+ " and " +:+ quote "team-a"
    +:+ " produce the same session key; use distinct credential names to avoid cross-contamination") None))).
Proof. vm_compute. reflexivity. Qed.
