(* ===== verification/ProxyConfig.v ===== *)
(** * Proxies

    Models [src/internal/proxy]: the settings of a proxy, merged with those of the
    environment, compared and parsed. [net/url] is a class, since its addresses are made,
    changed and printed here; which proxy a request goes through is decided by
    [httpproxy], a parameter. Credentials that are asked for are resolved when a proxy is
    used, by the runtime of [PromptAuth]. *)
From S2P Require Import Prelude GoText GoTextFacts Faults Services Throttle ContextConfig PromptAuth.

(** What the code uses of a [url.URL]; the user is a name with a password or none. *)
Abbreviation userinfo := (string * option string)%type.
Class NetUrl := {
  url : Type;
  url_Parse : string -> result error url;
  url_Scheme : url -> string;
  url_Host : url -> string;
  url_Path : url -> string;
  url_RawQuery : url -> string;
  url_User : url -> option userinfo;
  with_User : url -> option userinfo -> url;
  url_String : url -> string;
}.

(** ** Settings *)
Section settings.
Definition HasURLs (proxy : option HTTPProxy) : bool :=
  from_option (fun p => negb (trim_space (HTTPURL p) == "") || negb (trim_space (HTTPSURL p) == "")) false proxy.
Definition IsExplicitDisable (proxy : option HTTPProxy) : bool :=
  match proxy with
  | None => false
  | Some p =>
      negb (HasURLs proxy) && (trim_space (NoProxy p) == "")
      && match proxy_Auth p with Some auth => match proxyauth_Basic auth with Some _ => false | None => true end | None => true end
  end.
(** A copy shares nothing but the reference of its credentials, which nobody changes in place. *)
Definition Clone (proxy : option HTTPProxy) : option HTTPProxy := proxy.
Definition same_pointer {A} (a b : option A) : bool := match a, b with Some _, Some _ | None, None => true | _, _ => false end.
Definition Equal (a b : option HTTPProxy) : bool :=
  match a, b with
  | None, None => true
  | Some a, Some b =>
      (trim_space (HTTPURL a) == trim_space (HTTPURL b)) && (trim_space (HTTPSURL a) == trim_space (HTTPSURL b))
      && (trim_space (NoProxy a) == trim_space (NoProxy b)) && same_pointer (proxy_Auth a) (proxy_Auth b)
      && match proxy_Auth a, proxy_Auth b with
         | Some a, Some b =>
             same_pointer (proxyauth_Basic a) (proxyauth_Basic b)
             && match proxyauth_Basic a with Some _ => CredentialName (proxyauth_Basic a) == CredentialName (proxyauth_Basic b) | None => true end
         | _, _ => true
         end
  | _, _ => false
  end.
End settings.

(** ** The environment *)
Section environment.
Context (env : environment).
Fixpoint firstEnvValue (keys : list string) : option string :=
  match keys with
  | [] => None
  | key :: keys =>
      match env key with
      | Some v => if trim_space v == "" then firstEnvValue keys else Some (trim_space v)
      | None => firstEnvValue keys
      end
  end.
Definition EnvironmentKeys : list string := ["HTTP_PROXY"; "http_proxy"; "HTTPS_PROXY"; "https_proxy"; "NO_PROXY"; "no_proxy"].
Definition FromEnvironment : option HTTPProxy :=
  match firstEnvValue ["HTTP_PROXY"; "http_proxy"], firstEnvValue ["HTTPS_PROXY"; "https_proxy"], firstEnvValue ["NO_PROXY"; "no_proxy"] with
  | None, None, None => None
  | httpURL, httpsURL, noProxy =>
      let proxy := {| HTTPURL := default "" httpURL; HTTPSURL := default "" httpsURL; NoProxy := default "" noProxy; proxy_Auth := None |} in
      if IsExplicitDisable (Some proxy) then None else Some proxy
  end.
End environment.

(** ** Merging *)
Section merge.
Context `{UnicodeTables, NetUrl}.
Definition stripProxyURLUserInfo (raw : string) : string :=
  let v := trim_space raw in
  if v == "" then ""
  else match url_Parse v with
       | Err _ => v
       | Ok parsed => if url_User parsed then url_String (with_User parsed None) else v
       end.
Definition own_or (own inherited : string) : string := if own == "" then inherited else own.
Definition Merge (base override : option HTTPProxy) : option HTTPProxy :=
  if IsExplicitDisable override then Some empty_proxy
  else
    match base, override with
    | None, None => None
    | _, None => Clone base
    | _, Some o =>
        let merged := default empty_proxy (Clone base) in
        let overrideHTTPURL := trim_space (HTTPURL o) in
        let overrideHTTPSURL := trim_space (HTTPSURL o) in
        let inherit own inherited :=
          if own == "" then (if proxy_Auth o then stripProxyURLUserInfo inherited else inherited) else own in
        Some {| HTTPURL := inherit overrideHTTPURL (HTTPURL merged);
                HTTPSURL := inherit overrideHTTPSURL (HTTPSURL merged);
                NoProxy := own_or (trim_space (NoProxy o)) (NoProxy merged);
                proxy_Auth := match proxy_Auth o with Some auth => Some auth | None => proxy_Auth merged end |}
    end.

(** ** Parsing *)
(** The settings, parsed; [proxy_runtime] tells whether there is a credential runtime. *)
Record proxy_config := {
  HTTP : option url; HTTPS : option url; cfg_NoProxy : string; fieldPrefix : string; cfg_auth : option ProxyAuth; proxy_runtime : bool;
}.
Definition no_config : proxy_config := {| HTTP := None; HTTPS := None; cfg_NoProxy := ""; fieldPrefix := ""; cfg_auth := None; proxy_runtime := false |}.
Definition parseProxyURL (field raw : string) : result error (option url) :=
  let v := trim_space raw in
  if v == "" then Ok None
  else
    match url_Parse v with
    | Err err => Err (Invalid (field +:+ " is invalid") (Some err))
    | Ok parsed =>
        let scheme := to_lower (url_Scheme parsed) in
        if negb (scheme == "http") && negb (scheme == "https") then Err (Invalid (field +:+ " must use http or https") None)
        else if url_Host parsed == "" then Err (Invalid (field +:+ " host is required") None)
        else Ok (Some parsed)
    end.
Definition cloneProxyAuth (auth : option ProxyAuth) : result error (option ProxyAuth) :=
  match auth with
  | None => Ok None
  | Some auth =>
      match proxyauth_Basic auth with
      | None => Err (Invalid "proxy auth must define basic" None)
      | Some basic =>
          if (CredentialName (Some basic) == "") && negb (HasResolvedCredentials (Some basic))
          then Err (Invalid "proxy auth basic.credentialsRef is required" None)
          else Ok (Some {| proxyauth_Basic := Some basic |})
      end
  end.
Definition embedded_error (prefix : string) : error := Invalid (prefix +:+ " cannot be combined with credentials embedded in proxy URL") None.
Definition applyProxyAuth (prefix : string) (u : option url) (username password : string) : result error (option url) :=
  match u with
  | None => Ok None
  | Some u => if url_User u then Err (embedded_error prefix) else Ok (Some (with_User u (Some (username, Some password))))
  end.
Definition has_user (u : option url) : bool := match u with Some u => if url_User u then true else false | None => false end.
Definition build (prefix : string) (proxy : option HTTPProxy) (runtime : bool) : result error proxy_config :=
  match proxy with
  | None => Ok no_config
  | Some p =>
      httpURL ← parseProxyURL (prefix +:+ ".http-url") (HTTPURL p);
      httpsURL ← parseProxyURL (prefix +:+ ".https-url") (HTTPSURL p);
      auth ← cloneProxyAuth (proxy_Auth p);
      let config h s a := {| HTTP := h; HTTPS := s; cfg_NoProxy := trim_space (NoProxy p); fieldPrefix := prefix; cfg_auth := a; proxy_runtime := runtime |} in
      match auth with
      | None => Ok (config httpURL httpsURL None)
      | Some auth =>
          if has_user httpURL || has_user httpsURL then Err (embedded_error (prefix +:+ ".auth"))
          else
            match proxyauth_Basic auth with
            | Some basic =>
                if UsesPrompt (Some basic) then Ok (config httpURL httpsURL (Some auth))
                else
                  httpURL ← applyProxyAuth (prefix +:+ ".auth") httpURL (Literal (basic_Username basic)) (Literal (basic_Password basic));
                  httpsURL ← applyProxyAuth (prefix +:+ ".auth") httpsURL (Literal (basic_Username basic)) (Literal (basic_Password basic));
                  Ok (config httpURL httpsURL None)
            | None => Ok (config httpURL httpsURL (Some auth))
            end
      end
  end.
Definition Build (prefix : string) (proxy : option HTTPProxy) : result error proxy_config := build prefix proxy false.
Definition BuildWithRuntime := build.
(** The settings in use, and whether the proxy was disabled. *)
Definition resolve (env : environment) (prefix : string) (proxy : option HTTPProxy) (runtime : bool) : result error (proxy_config * bool) :=
  if IsExplicitDisable proxy then Ok (no_config, true)
  else match Merge (FromEnvironment env) proxy with
       | None => Ok (no_config, false)
       | merged => cfg ← BuildWithRuntime prefix merged runtime; Ok (cfg, false)
       end.
Definition HasProxy (cfg : proxy_config) : bool := if HTTP cfg then true else if HTTPS cfg then true else false.
Definition proxyURLString (u : option url) : string := from_option url_String "" u.

(** ** Use *)
Section use.
Context {W : Type} (env : environment) (PromptValue : string -> string -> bool -> bool -> action W string) (store : option (SessionStore W)).
Abbreviation act A := (action (W * Runtime) A).
Definition urlWithAuth (cfg : proxy_config) (base : option url) : act (option url) :=
  match base, cfg_auth cfg with
  | Some _, Some auth =>
      let basic := proxyauth_Basic auth in
      let field f := from_option f no_value basic in
      creds ← ResolveCredentials env PromptValue store (proxy_runtime cfg) (CredentialName basic) (field basic_Username) (field basic_Password);
      of_result (applyProxyAuth (fieldPrefix cfg +:+ ".auth") base (creds_Username creds) (creds_Password creds))
  | _, _ => mret base
  end.
Definition proxy_variables (names : list string) (v : string) : gmap string string := list_to_map ((fun name => (name, v)) <$> names).
Definition url_variables (cfg : proxy_config) (names : list string) (u : option url) : act (gmap string string) :=
  match u with
  | None => mret ∅
  | Some _ => u ← urlWithAuth cfg u; mret (proxy_variables names (proxyURLString u))
  end.
Definition Env (cfg : proxy_config) : act (gmap string string) :=
  http ← url_variables cfg ["HTTP_PROXY"; "http_proxy"] (HTTP cfg);
  https ← url_variables cfg ["HTTPS_PROXY"; "https_proxy"] (HTTPS cfg);
  mret (http ∪ https ∪ (if cfg_NoProxy cfg == "" then ∅ else proxy_variables ["NO_PROXY"; "no_proxy"] (cfg_NoProxy cfg))).
(** [ProxyFunc] of [httpproxy]: the proxies and the hosts without one, then the address of a
    request. A resolver is made when there is something to decide. *)
Context (ProxyFunc : string -> string -> string -> url -> result error (option url)).
Definition Resolver (cfg : proxy_config) : option (option url -> act (option url)) :=
  if negb (HasProxy cfg) && (cfg_NoProxy cfg == "") then None
  else Some (fun request =>
    match request with
    | None => mret None
    | Some request =>
        v ← of_result (ProxyFunc (proxyURLString (HTTP cfg)) (proxyURLString (HTTPS cfg)) (cfg_NoProxy cfg) request);
        match v with None => mret None | Some _ => urlWithAuth cfg v end
    end).
End use.
End merge.
