(* ===== verification/ContextRules.v ===== *)
(** * The rules of a context

    Models [catalog_normalize.go], [catalog_validate.go] and [catalog_credentials.go] of
    [src/internal/providers/config/file]: the normal form of a context, its defaults, the
    proxies it shares, overrides, validation and credentials. [normalizeConfig] writes through
    the pointers of the context it is given: what its caller's context becomes by that, all
    but the proxy of the metadata, is [normalize_parts], and [validateConfig] answers with
    it. *)
From Stdlib Require Import SpecFloat.
From S2P Require Import Prelude GoText GoTextFacts Faults Paths GoDisk Services Throttle ContextConfig PromptAuth ProxyConfig.

(** ** Normal form *)
Definition normalizeCredentialsRef (ref : option CredentialsRef) : option CredentialsRef :=
  (fun ref => {| ref_Name := trim_space (ref_Name ref) |}) <$> ref.
Definition normalizeProxy (proxy : option HTTPProxy) : option HTTPProxy :=
  (fun p => {| HTTPURL := trim_space (HTTPURL p); HTTPSURL := trim_space (HTTPSURL p); NoProxy := trim_space (NoProxy p);
     proxy_Auth := (fun auth => {| proxyauth_Basic := (fun basic => {| basic_Ref := normalizeCredentialsRef (basic_Ref basic);
       basic_Username := no_value; basic_Password := no_value |}) <$> proxyauth_Basic auth |}) <$> proxy_Auth p |}) <$> proxy.
Definition normalize_basic (basic : BasicAuth) : BasicAuth :=
  {| basic_Ref := normalizeCredentialsRef (basic_Ref basic); basic_Username := basic_Username basic; basic_Password := basic_Password basic |}.
Definition with_remote_proxy (r : GitRemote) (proxy : option HTTPProxy) : GitRemote :=
  {| remote_URL := remote_URL r; remote_Branch := remote_Branch r; remote_Provider := remote_Provider r; remote_AutoSync := remote_AutoSync r;
     remote_Auth := remote_Auth r; remote_TLS := remote_TLS r; remote_Proxy := proxy |}.
Definition with_remote_auth (r : GitRemote) (auth : option GitAuth) : GitRemote :=
  {| remote_URL := remote_URL r; remote_Branch := remote_Branch r; remote_Provider := remote_Provider r; remote_AutoSync := remote_AutoSync r;
     remote_Auth := auth; remote_TLS := remote_TLS r; remote_Proxy := remote_Proxy r |}.
Definition map_git_basic (f : BasicAuth -> BasicAuth) (auth : GitAuth) : GitAuth :=
  {| gitauth_Basic := f <$> gitauth_Basic auth; gitauth_SSH := gitauth_SSH auth; gitauth_AccessKey := gitauth_AccessKey auth |}.
Definition normalize_remote (r : GitRemote) : GitRemote :=
  with_remote_proxy (with_remote_auth r (map_git_basic normalize_basic <$> remote_Auth r)) (normalizeProxy (remote_Proxy r)).
Definition with_server (h : HTTPServer) (url healthCheck : string) (auth : option HTTPAuth) (proxy : option HTTPProxy) : HTTPServer :=
  {| server_BaseURL := url; server_HealthCheck := healthCheck; server_OpenAPI := server_OpenAPI h; server_DefaultHeaders := server_DefaultHeaders h;
     server_Auth := auth; server_Proxy := proxy; server_TLS := server_TLS h; server_Throttling := server_Throttling h |}.
Definition map_http_basic (f : BasicAuth -> BasicAuth) (auth : HTTPAuth) : HTTPAuth :=
  {| http_OAuth2 := http_OAuth2 auth; http_Basic := f <$> http_Basic auth; http_CustomHeaders := http_CustomHeaders auth |}.
Definition normalize_server (h : HTTPServer) : HTTPServer :=
  with_server h (server_BaseURL h) (trim_space (server_HealthCheck h)) (map_http_basic normalize_basic <$> server_Auth h) (normalizeProxy (server_Proxy h)).
Definition with_vault (v : VaultSecretStore) (auth : option VaultAuth) (proxy : option HTTPProxy) : VaultSecretStore :=
  {| vault_Address := vault_Address v; vault_Mount := vault_Mount v; vault_PathPrefix := vault_PathPrefix v; vault_KVVersion := vault_KVVersion v;
     vault_Auth := auth; vault_TLS := vault_TLS v; vault_Proxy := proxy |}.
Definition map_vault_password (f : VaultUserPasswordAuth -> VaultUserPasswordAuth) (auth : VaultAuth) : VaultAuth :=
  {| vault_Token := vault_Token auth; vault_Password := f <$> vault_Password auth; vault_AppRole := vault_AppRole auth |}.
Definition normalize_password (p : VaultUserPasswordAuth) : VaultUserPasswordAuth :=
  {| vaultpw_Ref := normalizeCredentialsRef (vaultpw_Ref p); vaultpw_Mount := vaultpw_Mount p;
     vaultpw_Username := vaultpw_Username p; vaultpw_Password := vaultpw_Password p |}.
Definition normalize_vault (v : VaultSecretStore) : VaultSecretStore :=
  with_vault v (map_vault_password normalize_password <$> vault_Auth v) (normalizeProxy (vault_Proxy v)).

(** The parts of a context behind pointers, changed in place. *)
Definition map_repository (f : GitRemote -> GitRemote) (r : Repository) : Repository :=
  {| repo_Git := (fun g => {| git_Local := git_Local g; git_Remote := f <$> git_Remote g |}) <$> repo_Git r; repo_Filesystem := repo_Filesystem r |}.
Definition map_service (f : HTTPServer -> HTTPServer) (s : ManagedService) : ManagedService := {| service_HTTP := f <$> service_HTTP s |}.
Definition map_store_vault (f : VaultSecretStore -> VaultSecretStore) (s : SecretStore) : SecretStore :=
  {| store_File := store_File s; store_Vault := f <$> store_Vault s |}.
Definition map_parts (remote : GitRemote -> GitRemote) (server : HTTPServer -> HTTPServer) (vault : VaultSecretStore -> VaultSecretStore) (cfg : Context) : Context :=
  {| ctx_Name := ctx_Name cfg; ctx_Repository := map_repository remote (ctx_Repository cfg);
     ctx_ManagedService := map_service server <$> ctx_ManagedService cfg; ctx_SecretStore := map_store_vault vault <$> ctx_SecretStore cfg;
     ctx_Metadata := ctx_Metadata cfg; ctx_Preferences := ctx_Preferences cfg; ctx_Credentials := ctx_Credentials cfg |}.
Definition metadata_with_proxy (m : Metadata) (proxy : option HTTPProxy) : Metadata :=
  {| meta_BaseDir := meta_BaseDir m; meta_Bundle := meta_Bundle m; meta_BundleFile := meta_BundleFile m; meta_Proxy := proxy |}.
Definition with_metadata_proxy (cfg : Context) (proxy : option HTTPProxy) : Context := with_metadata cfg (metadata_with_proxy (ctx_Metadata cfg) proxy).
Definition normalize_parts (cfg : Context) : Context := map_parts normalize_remote normalize_server normalize_vault cfg.
Definition normalizeConfig (cfg : Context) : Context :=
  let cfg := normalize_parts cfg in with_metadata_proxy cfg (normalizeProxy (meta_Proxy (ctx_Metadata cfg))).

(** ** Proxy targets *)
Definition remote_of (cfg : Context) : option GitRemote := repo_Git (ctx_Repository cfg) ≫= git_Remote.
Definition server_of (cfg : Context) : option HTTPServer := ctx_ManagedService cfg ≫= service_HTTP.
Definition vault_of (cfg : Context) : option VaultSecretStore := ctx_SecretStore cfg ≫= store_Vault.
Inductive proxyTarget := ServiceProxy | RemoteProxy | VaultProxy | MetadataProxy.
#[export] Instance proxyTarget_eq_dec : EqDecision proxyTarget.
Proof. solve_decision. Defined.
Definition buildProxyTargets (cfg : Context) : list proxyTarget :=
  (if server_of cfg then [ServiceProxy] else []) ++ (if remote_of cfg then [RemoteProxy] else [])
  ++ (if vault_of cfg then [VaultProxy] else []) ++ [MetadataProxy].
(** What the pointer of a target points to, and the writing through it. *)
Definition target_proxy (cfg : Context) (t : proxyTarget) : option HTTPProxy :=
  match t with
  | ServiceProxy => server_of cfg ≫= server_Proxy
  | RemoteProxy => remote_of cfg ≫= remote_Proxy
  | VaultProxy => vault_of cfg ≫= vault_Proxy
  | MetadataProxy => meta_Proxy (ctx_Metadata cfg)
  end.
Definition set_target (cfg : Context) (t : proxyTarget) (proxy : option HTTPProxy) : Context :=
  match t with
  | ServiceProxy => map_parts (fun r => r) (fun h => with_server h (server_BaseURL h) (server_HealthCheck h) (server_Auth h) proxy) (fun v => v) cfg
  | RemoteProxy => map_parts (fun r => with_remote_proxy r proxy) (fun h => h) (fun v => v) cfg
  | VaultProxy => map_parts (fun r => r) (fun h => h) (fun v => with_vault v (vault_Auth v) proxy) cfg
  | MetadataProxy => with_metadata_proxy cfg proxy
  end.
Definition is_nil_proxy (proxy : option HTTPProxy) : bool := match proxy with None => true | Some _ => false end.

Section proxies.
Context `{UnicodeTables, NetUrl} (env : environment).
(** The round of the first loop: the context, the canonical proxy, and whether the context gave it. *)
Definition merge_target (st : Context * option HTTPProxy * bool) (t : proxyTarget) : Context * option HTTPProxy * bool :=
  let '(cfg, canonical, fromConfig) := st in
  let current := target_proxy cfg t in
  if is_nil_proxy current || IsExplicitDisable current then st
  else
    let merged := Merge (FromEnvironment env) current in
    let cfg := set_target cfg t merged in
    if negb fromConfig && HasURLs merged then (cfg, Clone merged, true) else (cfg, canonical, fromConfig).
Definition fill_target (canonical : option HTTPProxy) (cfg : Context) (t : proxyTarget) : Context :=
  if is_nil_proxy (target_proxy cfg t) then set_target cfg t (Clone canonical) else cfg.
Definition applyProxyDefaults (cfg : Context) : Context :=
  let envProxy := FromEnvironment env in
  let targets := buildProxyTargets cfg in
  let canonical := if HasURLs envProxy then Clone envProxy else None in
  let '(cfg, canonical, _) := foldl merge_target (cfg, canonical, false) targets in
  if is_nil_proxy canonical then cfg else foldl (fill_target canonical) cfg targets.
Definition applyConfigDefaults (cfg : Context) : Context :=
  let cfg := normalizeConfig cfg in
  let m := ctx_Metadata cfg in
  let cfg := if (trim_space (meta_Bundle m) == "") && (trim_space (meta_BundleFile m) == "") && (meta_BaseDir m == "")
             then with_base_dir cfg (ContextRepositoryBaseDir cfg) else cfg in
  applyProxyDefaults cfg.

Definition omit_target (baseline : Context) (canonical : option HTTPProxy) (cfg : Context) (t : proxyTarget) : Context :=
  let current := target_proxy cfg t in
  if is_nil_proxy current || IsExplicitDisable current then cfg
  else if negb (bool_decide (t ∈ buildProxyTargets baseline)) || negb (is_nil_proxy (target_proxy baseline t)) then cfg
  else if Equal current canonical then set_target cfg t None else cfg.
Definition preserveProxyOmissions (cfg baseline : Context) : Context :=
  let targets := buildProxyTargets cfg in
  match filter (fun t => HasURLs (target_proxy cfg t) = true) targets with
  | [] => cfg
  | t :: _ => foldl (omit_target baseline (target_proxy cfg t)) cfg targets
  end.
End proxies.

(** ** Overrides *)
Section overrides.
Context `{UnicodeTables}.
Definition unknownOverrideError (key : string) : error := Invalid ("unknown override key " +:+ quote key) None.
Definition requires_error (key part : string) : error := Invalid ("override " +:+ key +:+ " requires " +:+ part +:+ " to be configured") None.
Definition with_repository (cfg : Context) (r : Repository) : Context :=
  {| ctx_Name := ctx_Name cfg; ctx_Repository := r; ctx_ManagedService := ctx_ManagedService cfg; ctx_SecretStore := ctx_SecretStore cfg;
     ctx_Metadata := ctx_Metadata cfg; ctx_Preferences := ctx_Preferences cfg; ctx_Credentials := ctx_Credentials cfg |}.
Definition set_git_dir (dir : string) (g : GitRepository) : GitRepository :=
  {| git_Local := {| local_BaseDir := dir; local_AutoInit := local_AutoInit (git_Local g) |}; git_Remote := git_Remote g |}.
Definition override_server (cfg : Context) (key : string) (f : HTTPServer -> HTTPServer) : result error Context :=
  match server_of cfg with
  | None => Err (requires_error key "managedService.http")
  | Some _ => Ok (map_parts (fun r => r) f (fun v => v) cfg)
  end.
Definition override_proxy (cfg : Context) (key : string) (f : HTTPProxy -> HTTPProxy) : result error Context :=
  override_server cfg key (fun h => with_server h (server_BaseURL h) (server_HealthCheck h) (server_Auth h) (Some (f (default empty_proxy (server_Proxy h))))).
Definition with_sources (cfg : Context) (baseDir bundle bundleFile : string) : Context :=
  with_metadata cfg {| meta_BaseDir := baseDir; meta_Bundle := bundle; meta_BundleFile := bundleFile; meta_Proxy := meta_Proxy (ctx_Metadata cfg) |}.
Definition override_one (cfg : Context) (key v : string) : result error Context :=
  let repository := ctx_Repository cfg in
  let m := ctx_Metadata cfg in
  if key == "repository.git.local.baseDir" then
    match repo_Git repository with
    | None => Err (requires_error key "repository.git")
    | Some git => Ok (with_repository cfg {| repo_Git := Some (set_git_dir v git); repo_Filesystem := repo_Filesystem repository |})
    end
  else if key == "repository.filesystem.baseDir" then
    match repo_Filesystem repository with
    | None => Err (requires_error key "repository.filesystem")
    | Some _ => Ok (with_repository cfg {| repo_Git := repo_Git repository; repo_Filesystem := Some {| fs_BaseDir := v |} |})
    end
  else if key == "managedService.http.url" then
    override_server cfg key (fun h => with_server h v (server_HealthCheck h) (server_Auth h) (server_Proxy h))
  else if key == "managedService.http.healthCheck" then
    override_server cfg key (fun h => with_server h (server_BaseURL h) v (server_Auth h) (server_Proxy h))
  else if key == "managedService.http.proxy.http" then
    override_proxy cfg key (fun p => {| HTTPURL := v; HTTPSURL := HTTPSURL p; NoProxy := NoProxy p; proxy_Auth := proxy_Auth p |})
  else if key == "managedService.http.proxy.https" then
    override_proxy cfg key (fun p => {| HTTPURL := HTTPURL p; HTTPSURL := v; NoProxy := NoProxy p; proxy_Auth := proxy_Auth p |})
  else if key == "managedService.http.proxy.noProxy" then
    override_proxy cfg key (fun p => {| HTTPURL := HTTPURL p; HTTPSURL := HTTPSURL p; NoProxy := v; proxy_Auth := proxy_Auth p |})
  else if key == "metadata.baseDir" then
    Ok (if trim_space v == "" then with_sources cfg v (meta_Bundle m) (meta_BundleFile m) else with_sources cfg v "" "")
  else if key == "metadata.bundle" then
    Ok (if trim_space v == "" then with_sources cfg (meta_BaseDir m) v (meta_BundleFile m) else with_sources cfg "" v "")
  else if key == "metadata.bundleFile" then
    Ok (if trim_space v == "" then with_sources cfg (meta_BaseDir m) (meta_Bundle m) v else with_sources cfg "" "" v)
  else Err (unknownOverrideError key).
Definition sortedOverrideKeys (overrides : gmap string string) : list string := sorted_keys overrides.
Fixpoint override_keys (overrides : gmap string string) (keys : list string) (cfg : Context) : result error Context :=
  match keys with
  | [] => Ok cfg
  | key :: keys => cfg ← override_one cfg key (default "" (overrides !! key)); override_keys overrides keys cfg
  end.
Definition applyOverrides (cfg : Context) (overrides : gmap string string) : result error Context :=
  override_keys overrides (sortedOverrideKeys overrides) cfg.
End overrides.

(** ** Credentials *)
Definition countSet (values : list bool) : nat := length (filter (fun b => b = true) values).
Definition is_set {A} (x : option A) : bool := match x with Some _ => true | None => false end.
Section credentials.
Context `{UnicodeTables}.
Definition validateCredentialValue (field : string) (v : CredentialValue) : result error unit :=
  match cred_Prompt v with
  | None => if Literal v == "" then Err (Invalid (field +:+ " is required") None) else Ok tt
  | Some p => if Prompt p then Ok tt else Err (Invalid (field +:+ ".prompt must be true when prompt configuration is used") None)
  end.
Definition with_name (item : Credential) (name : string) : Credential :=
  {| cred_Name := name; cred_Username := cred_Username item; cred_Password := cred_Password item |}.
Fixpoint credentials_loop (idx : Z) (items : list Credential) (index : gmap string Credential) : result error (gmap string Credential) :=
  match items with
  | [] => Ok index
  | item :: items =>
      let field := "credentials[" +:+ itoa idx +:+ "]" in
      let name := trim_space (cred_Name item) in
      if name == "" then Err (Invalid (field +:+ ".name is required") None)
      else if is_set (index !! name) then Err (Invalid ("duplicate credential name " +:+ quote name) None)
      else
        _ ← validateCredentialValue (field +:+ ".username") (cred_Username item);
        _ ← validateCredentialValue (field +:+ ".password") (cred_Password item);
        credentials_loop (idx + 1) items (<[name := with_name item name]> index)
  end.
Definition validateCredentials (items : list Credential) : result error (gmap string Credential) := credentials_loop 0 items ∅.
Definition referencedCredential (field : string) (ref : option CredentialsRef) (credentials : gmap string Credential) : result error Credential :=
  let name := ref_name ref in
  if name == "" then Err (Invalid (field +:+ " is required") None)
  else match credentials !! name with
       | Some item => Ok item
       | None => Err (Invalid (field +:+ " references undefined credential " +:+ quote name) None)
       end.
Definition injectBasicCredentials (credentials : gmap string Credential) (field : string) (target : BasicAuth) : result error BasicAuth :=
  item ← referencedCredential field (basic_Ref target) credentials;
  Ok {| basic_Ref := basic_Ref target; basic_Username := cred_Username item; basic_Password := cred_Password item |}.
Definition injectVaultUserPasswordCredentials (credentials : gmap string Credential) (field : string) (target : VaultUserPasswordAuth)
  : result error VaultUserPasswordAuth :=
  item ← referencedCredential field (vaultpw_Ref target) credentials;
  Ok {| vaultpw_Ref := vaultpw_Ref target; vaultpw_Mount := vaultpw_Mount target; vaultpw_Username := cred_Username item; vaultpw_Password := cred_Password item |}.
(** A change of what a pointer points to, when it does. *)
Definition through {A} (f : A -> result error A) (x : option A) : result error (option A) :=
  match x with None => Ok None | Some x => x ← f x; Ok (Some x) end.
Definition injectProxyCredentials (credentials : gmap string Credential) (field : string) : option HTTPProxy -> result error (option HTTPProxy) :=
  through (fun p =>
    auth ← through (fun auth => basic ← through (injectBasicCredentials credentials field) (proxyauth_Basic auth); Ok {| proxyauth_Basic := basic |}) (proxy_Auth p);
    Ok {| HTTPURL := HTTPURL p; HTTPSURL := HTTPSURL p; NoProxy := NoProxy p; proxy_Auth := auth |}).
Definition inject_remote (credentials : gmap string Credential) (r : GitRemote) : result error GitRemote :=
  auth ← through (fun a => basic ← through (injectBasicCredentials credentials "repository.git.remote.auth.basic.credentialsRef") (gitauth_Basic a);
    Ok {| gitauth_Basic := basic; gitauth_SSH := gitauth_SSH a; gitauth_AccessKey := gitauth_AccessKey a |}) (remote_Auth r);
  proxy ← injectProxyCredentials credentials "repository.git.remote.proxy.auth.basic.credentialsRef" (remote_Proxy r);
  Ok (with_remote_proxy (with_remote_auth r auth) proxy).
Definition inject_server (credentials : gmap string Credential) (h : HTTPServer) : result error HTTPServer :=
  auth ← through (fun a => basic ← through (injectBasicCredentials credentials "managedService.http.auth.basic.credentialsRef") (http_Basic a);
    Ok {| http_OAuth2 := http_OAuth2 a; http_Basic := basic; http_CustomHeaders := http_CustomHeaders a |}) (server_Auth h);
  proxy ← injectProxyCredentials credentials "managedService.http.proxy.auth.basic.credentialsRef" (server_Proxy h);
  Ok (with_server h (server_BaseURL h) (server_HealthCheck h) auth proxy).
Definition inject_vault (credentials : gmap string Credential) (v : VaultSecretStore) : result error VaultSecretStore :=
  auth ← through (fun a => password ← through (injectVaultUserPasswordCredentials credentials "secretStore.vault.auth.password.credentialsRef") (vault_Password a);
    Ok {| vault_Token := vault_Token a; vault_Password := password; vault_AppRole := vault_AppRole a |}) (vault_Auth v);
  proxy ← injectProxyCredentials credentials "secretStore.vault.proxy.auth.basic.credentialsRef" (vault_Proxy v);
  Ok (with_vault v auth proxy).
Definition injectContextCredentials (credentials : gmap string Credential) (cfg : Context) : result error Context :=
  git ← through (fun g => remote ← through (inject_remote credentials) (git_Remote g); Ok {| git_Local := git_Local g; git_Remote := remote |})
          (repo_Git (ctx_Repository cfg));
  service ← through (fun s => http ← through (inject_server credentials) (service_HTTP s); Ok {| service_HTTP := http |}) (ctx_ManagedService cfg);
  store ← through (fun s => vault ← through (inject_vault credentials) (store_Vault s); Ok {| store_File := store_File s; store_Vault := vault |})
          (ctx_SecretStore cfg);
  proxy ← injectProxyCredentials credentials "metadata.proxy.auth.basic.credentialsRef" (meta_Proxy (ctx_Metadata cfg));
  Ok {| ctx_Name := ctx_Name cfg; ctx_Repository := {| repo_Git := git; repo_Filesystem := repo_Filesystem (ctx_Repository cfg) |};
        ctx_ManagedService := service; ctx_SecretStore := store; ctx_Metadata := metadata_with_proxy (ctx_Metadata cfg) proxy;
        ctx_Preferences := ctx_Preferences cfg; ctx_Credentials := ctx_Credentials cfg |}.

Definition credentialsEqual (a b : Credential) : bool :=
  let same v w := (Literal v == Literal w) && Bool.eqb (IsPrompt v) (IsPrompt w) && Bool.eqb (PersistInSession v) (PersistInSession w) in
  (trim_space (cred_Name a) == trim_space (cred_Name b)) && same (cred_Username a) (cred_Username b) && same (cred_Password a) (cred_Password b).
(** One credential of the context: the list of the catalog and its index grow, unless the
    credential is there. *)
Definition merge_credential (st : list Credential * gmap string Credential) (entry : string * Credential)
  : result error (list Credential * gmap string Credential) :=
  let '(items, index) := st in
  let '(name, normalized) := entry in
  match index !! name with
  | Some existing =>
      if credentialsEqual existing normalized then Ok st
      else Err (Invalid ("credential " +:+ quote name +:+ " already exists with different content") None)
  | None => Ok (items ++ [normalized], <[name := normalized]> index)
  end.
Fixpoint merge_entries (entries : list (string * Credential)) (st : list Credential * gmap string Credential)
  : result error (list Credential * gmap string Credential) :=
  match entries with [] => Ok st | entry :: entries => st ← merge_credential st entry; merge_entries entries st end.
Fixpoint merge_keys (credentials : gmap string Credential) (keys : list string) (st : list Credential * gmap string Credential)
  : result error (list Credential * gmap string Credential) :=
  match keys with
  | [] => Ok st
  | key :: keys =>
      match credentials !! key with
      | None => merge_keys credentials keys st
      | Some item =>
          let item := if trim_space (cred_Name item) == "" then with_name item key else item in
          singleIndex ← validateCredentials [item];
          st ← merge_entries (map_to_list singleIndex) st;
          merge_keys credentials keys st
      end
  end.
Definition mergeContextCredentials (catalog : ContextCatalog) (credentials : gmap string Credential) : result error ContextCatalog :=
  if bool_decide (credentials = ∅) then Ok catalog
  else
    index ← validateCredentials (Credentials catalog);
    st ← merge_keys credentials (sorted_keys credentials) (Credentials catalog, index);
    Ok {| Contexts := Contexts catalog; CurrentContext := CurrentContext catalog; DefaultEditor := DefaultEditor catalog; Credentials := st.1 |}.
End credentials.

(** ** Validation *)
Section validation.
Context `{UnicodeTables, NetUrl}.
Definition invalid (message : string) : error := Invalid message None.
Definition need (ok : bool) (message : string) : result error unit := if ok then Ok tt else Err (invalid message).
Definition nonempty (s : string) : bool := negb (s == "").
Section refs.
Context (credentials : gmap string Credential) (strict : bool).
Definition validateCredentialRef (field : string) (ref : option CredentialsRef) : result error unit :=
  let name := ref_name ref in
  if name == "" then Err (invalid (field +:+ " is required"))
  else if strict && negb (is_set (credentials !! name)) then Err (invalid (field +:+ " references undefined credential " +:+ quote name))
  else Ok tt.
Definition validateProxyAuth (field : string) (auth : ProxyAuth) : result error unit :=
  match proxyauth_Basic auth with
  | None => Err (invalid (field +:+ " must define basic"))
  | Some basic => validateCredentialRef (field +:+ ".basic.credentialsRef") (basic_Ref basic)
  end.
Definition validateProxy (field : string) (proxy : option HTTPProxy) : result error unit :=
  match proxy with
  | None => Ok tt
  | Some p =>
      if IsExplicitDisable proxy then Ok tt
      else
        _ ← match proxy_Auth p with Some auth => validateProxyAuth (field +:+ ".auth") auth | None => Ok tt end;
        _ ← Build field proxy;
        Ok tt
  end.
Definition validate_remote (r : GitRemote) : result error unit :=
  _ ← need (nonempty (remote_URL r)) "repository.git.remote.url is required";
  _ ← match remote_Auth r with
      | None => Ok tt
      | Some auth =>
          _ ← need (countSet [is_set (gitauth_Basic auth); is_set (gitauth_SSH auth); is_set (gitauth_AccessKey auth)] == 1)
                "repository.git.remote.auth must define exactly one of basic, ssh, accessKey";
          match gitauth_Basic auth with
          | Some basic => validateCredentialRef "repository.git.remote.auth.basic.credentialsRef" (basic_Ref basic)
          | None => Ok tt
          end
      end;
  validateProxy "repository.git.remote.proxy" (remote_Proxy r).
Definition validateRepository (repository : Repository) : result error unit :=
  match repo_Git repository, repo_Filesystem repository with
  | None, None => Ok tt
  | Some _, Some _ => Err (invalid "repository must define exactly one of git or filesystem")
  | Some git, None =>
      _ ← need (nonempty (local_BaseDir (git_Local git))) "repository.git.local.baseDir is required";
      match git_Remote git with Some r => validate_remote r | None => Ok tt end
  | None, Some fs => need (nonempty (fs_BaseDir fs)) "repository.filesystem.baseDir is required"
  end.
Fixpoint validate_custom_headers (idx : Z) (headers : list HeaderTokenAuth) : result error unit :=
  match headers with
  | [] => Ok tt
  | head :: headers =>
      _ ← need (nonempty (token_Header head) && nonempty (token_Value head))
            ("managedService.http.auth.customHeaders[" +:+ itoa idx +:+ "] requires header and value");
      validate_custom_headers (idx + 1) headers
  end.
Definition validateManagedServiceProxy (proxy : option HTTPProxy) : result error unit := validateProxy "managedService.http.proxy" proxy.
Definition validateManagedServiceRequestThrottling (throttling : option HTTPRequestThrottling) : result error unit :=
  match throttling with
  | None => Ok tt
  | Some t =>
      let field := "managedService.http.requestThrottling" in
      let max := MaxConcurrentRequests t in
      let rate := RequestsPerSecond t in
      _ ← need (negb ((max <=? 0)%Z && SFleb rate float_zero)) (field +:+ " must define at least one of maxConcurrentRequests or requestsPerSecond");
      _ ← need (negb (max <? 0)%Z) (field +:+ ".maxConcurrentRequests must be greater than zero when set");
      _ ← need (negb (QueueSize t <? 0)%Z) (field +:+ ".queueSize must be greater than or equal to zero");
      _ ← need (negb ((0 <? QueueSize t)%Z && (max <=? 0)%Z)) (field +:+ ".queueSize requires maxConcurrentRequests");
      _ ← need (negb (SFltb rate float_zero)) (field +:+ ".requestsPerSecond must be greater than zero when set");
      _ ← need (negb (Burst t <? 0)%Z) (field +:+ ".burst must be greater than zero when set");
      need (negb ((0 <? Burst t)%Z && SFleb rate float_zero)) (field +:+ ".burst requires requestsPerSecond")
  end.
Definition validateManagedServiceHealthCheck (v : string) : result error unit :=
  let healthCheck := trim_space v in
  let field := "managedService.http.healthCheck" in
  if healthCheck == "" then Ok tt
  else
    match url_Parse healthCheck with
    | Err err => Err (Invalid (field +:+ " is invalid") (Some err))
    | Ok parsed =>
        _ ← need (trim_space (url_RawQuery parsed) == "") (field +:+ " must not include query parameters");
        if (url_Scheme parsed == "") && (url_Host parsed == "") then need (nonempty (trim_space (url_Path parsed))) (field +:+ " is invalid")
        else
          _ ← need ((url_Scheme parsed == "http") || (url_Scheme parsed == "https")) (field +:+ " URL must use http or https");
          _ ← need (nonempty (url_Host parsed)) (field +:+ " URL host is required");
          match path_rel "/" (url_Path parsed) with
          | Some _ => Ok tt
          | None => Err (Invalid (field +:+ " URL path is invalid") (Some (errorf ("Rel: can't make " +:+ url_Path parsed +:+ " relative to /"))))
          end
    end.
Definition validate_server (h : HTTPServer) : result error unit :=
  _ ← need (nonempty (server_BaseURL h)) "managedService.http.url is required";
  match server_Auth h with
  | None => Err (invalid "managedService.http.auth is required")
  | Some auth =>
      _ ← need (countSet [is_set (http_OAuth2 auth); is_set (http_Basic auth); negb (bool_decide (http_CustomHeaders auth = []))] == 1)
            "managedService.http.auth must define exactly one of oauth2, basic, customHeaders";
      _ ← match http_OAuth2 auth with
          | None => Ok tt
          | Some oauth =>
              need (nonempty (TokenURL oauth) && nonempty (GrantType oauth) && nonempty (ClientID oauth) && nonempty (ClientSecret oauth))
                "managedService.http.auth.oauth2 requires tokenURL, grantType, clientID, clientSecret"
          end;
      _ ← match http_Basic auth with
          | None => Ok tt
          | Some basic => validateCredentialRef "managedService.http.auth.basic.credentialsRef" (basic_Ref basic)
          end;
      _ ← validate_custom_headers 0 (http_CustomHeaders auth);
      _ ← validateManagedServiceProxy (server_Proxy h);
      _ ← validateManagedServiceRequestThrottling (server_Throttling h);
      validateManagedServiceHealthCheck (server_HealthCheck h)
  end.
Definition validateManagedService (service : option ManagedService) : result error unit :=
  match service with
  | None => Ok tt
  | Some s => match service_HTTP s with None => Err (invalid "managedService must define http") | Some h => validate_server h end
  end.
Definition validate_file_store (f : FileSecretStore) : result error unit :=
  _ ← need (nonempty (file_Path f)) "secretStore.file.path is required";
  need (countSet [nonempty (file_Key f); nonempty (file_KeyFile f); nonempty (file_Passphrase f); nonempty (file_PassphraseFile f)] == 1)
    "secretStore.file must define exactly one of key, keyFile, passphrase, passphraseFile".
Definition validate_vault (v : VaultSecretStore) : result error unit :=
  _ ← need (nonempty (vault_Address v)) "secretStore.vault.address is required";
  match vault_Auth v with
  | None => Err (invalid "secretStore.vault.auth is required")
  | Some auth =>
      _ ← need (countSet [nonempty (vault_Token auth); is_set (vault_Password auth); is_set (vault_AppRole auth)] == 1)
            "secretStore.vault.auth must define exactly one of token, password, appRole";
      _ ← match vault_Password auth with
          | None => Ok tt
          | Some password => validateCredentialRef "secretStore.vault.auth.password.credentialsRef" (vaultpw_Ref password)
          end;
      validateProxy "secretStore.vault.proxy" (vault_Proxy v)
  end.
Definition validateSecretStore (store : option SecretStore) : result error unit :=
  match store with
  | None => Ok tt
  | Some s =>
      match store_File s, store_Vault s with
      | Some f, None => validate_file_store f
      | None, Some v => validate_vault v
      | _, _ => Err (invalid "secretStore must define exactly one of file or vault")
      end
  end.
End refs.
Definition validateMetadata (m : Metadata) : result error unit :=
  _ ← need (countSet [nonempty (trim_space (meta_BaseDir m)); nonempty (trim_space (meta_Bundle m)); nonempty (trim_space (meta_BundleFile m))] <=? 1)
        "metadata must define at most one of baseDir, bundle, or bundleFile";
  validateProxy ∅ false "metadata.proxy" (meta_Proxy m).
Definition check_config (cfg : Context) (credentials : gmap string Credential) (strict : bool) : result error unit :=
  _ ← need (nonempty (ctx_Name cfg)) "context name must not be empty";
  _ ← need (is_set (repo_Git (ctx_Repository cfg)) || is_set (repo_Filesystem (ctx_Repository cfg)) || is_set (ctx_ManagedService cfg))
        "context must define at least one of repository or managedService";
  _ ← validateRepository credentials strict (ctx_Repository cfg);
  _ ← validateManagedService credentials strict (ctx_ManagedService cfg);
  _ ← validateSecretStore credentials strict (ctx_SecretStore cfg);
  validateMetadata (ctx_Metadata cfg).
(** The answer is the context as the validation leaves it. *)
Definition validateConfig (cfg : Context) (credentials : gmap string Credential) (strict : bool) : result error Context :=
  _ ← check_config (normalizeConfig cfg) credentials strict; Ok (normalize_parts cfg).
Definition validateResolvedConfig (env : environment) (cfg : Context) : result error unit :=
  _ ← validateConfig (ExpandExactEnvPlaceholders env cfg) (ctx_Credentials cfg) false; Ok tt.
(** The contexts one after another; [seen] are the names so far. *)
Fixpoint validate_contexts (credentials : gmap string Credential) (items : list Context) (seen : gset string) : result error (list Context * gset string) :=
  match items with
  | [] => Ok ([], seen)
  | item :: items =>
      _ ← need (nonempty (ctx_Name item)) "context name must not be empty";
      _ ← need (negb (bool_decide (ctx_Name item ∈ seen))) ("duplicate context name " +:+ quote (ctx_Name item));
      item ← validateConfig item credentials true;
      rest ← validate_contexts credentials items ({[ ctx_Name item ]} ∪ seen);
      Ok (item :: rest.1, rest.2)
  end.
(** The answer is the catalog as the validation leaves it. *)
Definition validateCatalog (c : ContextCatalog) : result error ContextCatalog :=
  credentials ← validateCredentials (Credentials c);
  match Contexts c with
  | [] => _ ← need (CurrentContext c == "") "currentContext must be empty when contexts list is empty"; Ok c
  | items =>
      checked ← validate_contexts credentials items ∅;
      _ ← need (nonempty (CurrentContext c)) "currentContext must be set when contexts are defined";
      _ ← need (bool_decide (CurrentContext c ∈ checked.2)) ("currentContext " +:+ quote (CurrentContext c) +:+ " does not match any context");
      Ok (with_contexts c checked.1)
  end.
Definition validateResolvedCatalog (env : environment) (c : ContextCatalog) : result error unit :=
  _ ← validateCatalog (ExpandExactEnvPlaceholders env c); Ok tt.
End validation.
