(* ===== verification/ContextCatalog.v ===== *)
(** * The catalog of contexts

    Models [context_service.go] and [catalog_codec.go] of [src/internal/providers/config/file]:
    the path of the catalog, its loading and saving, and the operations of the service over a
    disk. YAML is a class. A loaded catalog is the one its validation leaves. *)
From Stdlib Require Import SpecFloat.
From S2P Require Import Prelude GoText GoTextFacts Faults Paths GoDisk DiskLaws Services Throttle ContextConfig PromptAuth ProxyConfig ContextRules.

(** ** What is written of a catalog *)
(** The fields with the tag ["-"] are not: the user names and passwords next to a reference,
    the scope of a throttle, the credentials of a context outside of the list of the catalog;
    nor is the text of a value that is prompted for, and a rate of minus zero is left out like
    any zero. *)
Definition written_value (v : CredentialValue) : CredentialValue :=
  match cred_Prompt v with Some p => {| cred_Value := ""; cred_Prompt := Some p |} | None => v end.
Definition written_credential (item : Credential) : Credential :=
  {| cred_Name := cred_Name item; cred_Username := written_value (cred_Username item); cred_Password := written_value (cred_Password item) |}.
Definition written_basic (basic : BasicAuth) : BasicAuth := {| basic_Ref := basic_Ref basic; basic_Username := no_value; basic_Password := no_value |}.
Definition written_password (p : VaultUserPasswordAuth) : VaultUserPasswordAuth :=
  {| vaultpw_Ref := vaultpw_Ref p; vaultpw_Mount := vaultpw_Mount p; vaultpw_Username := no_value; vaultpw_Password := no_value |}.
Definition written_proxy (p : HTTPProxy) : HTTPProxy :=
  {| HTTPURL := HTTPURL p; HTTPSURL := HTTPSURL p; NoProxy := NoProxy p;
     proxy_Auth := (fun auth => {| proxyauth_Basic := written_basic <$> proxyauth_Basic auth |}) <$> proxy_Auth p |}.
Definition written_rate (rate : spec_float) : spec_float := match rate with S754_zero _ => S754_zero false | _ => rate end.
Definition written_throttling (t : HTTPRequestThrottling) : HTTPRequestThrottling :=
  {| MaxConcurrentRequests := MaxConcurrentRequests t; QueueSize := QueueSize t; RequestsPerSecond := written_rate (RequestsPerSecond t);
     Burst := Burst t; ScopeKey := "" |}.
Definition written_remote (r : GitRemote) : GitRemote :=
  with_remote_proxy (with_remote_auth r (map_git_basic written_basic <$> remote_Auth r)) (written_proxy <$> remote_Proxy r).
Definition written_server (h : HTTPServer) : HTTPServer :=
  {| server_BaseURL := server_BaseURL h; server_HealthCheck := server_HealthCheck h; server_OpenAPI := server_OpenAPI h;
     server_DefaultHeaders := server_DefaultHeaders h; server_Auth := map_http_basic written_basic <$> server_Auth h;
     server_Proxy := written_proxy <$> server_Proxy h; server_TLS := server_TLS h; server_Throttling := written_throttling <$> server_Throttling h |}.
Definition written_vault (v : VaultSecretStore) : VaultSecretStore :=
  with_vault v (map_vault_password written_password <$> vault_Auth v) (written_proxy <$> vault_Proxy v).
Definition written_context (cfg : Context) : Context :=
  let cfg := map_parts written_remote written_server written_vault cfg in
  {| ctx_Name := ctx_Name cfg; ctx_Repository := ctx_Repository cfg; ctx_ManagedService := ctx_ManagedService cfg; ctx_SecretStore := ctx_SecretStore cfg;
     ctx_Metadata := metadata_with_proxy (ctx_Metadata cfg) (written_proxy <$> meta_Proxy (ctx_Metadata cfg)); ctx_Preferences := ctx_Preferences cfg; ctx_Credentials := ∅ |}.
Definition written (c : ContextCatalog) : ContextCatalog :=
  {| Contexts := written_context <$> Contexts c; CurrentContext := CurrentContext c; DefaultEditor := DefaultEditor c;
     Credentials := written_credential <$> Credentials c |}.

(** [yaml.v3]: the decoder that knows the fields of a catalog, and [yaml.Marshal]. *)
Class CatalogYAML := { yaml_Decode : string -> result error ContextCatalog; yaml_Marshal : ContextCatalog -> result error string }.

Section codec.
Context `{UnicodeTables, CatalogYAML} {D : Type} `{Disk D}.
Definition decodeCatalog (data : string) : result error ContextCatalog :=
  map_err (fun err => Invalid "invalid context catalog yaml" (Some err)) (yaml_Decode data).
Definition encodeCatalog (c : ContextCatalog) : result error string := yaml_Marshal c.
(** Whether the error is [os.ErrNotExist]. *)
Definition decodeCatalogFile (path : string) (d : D) : result (bool * error) ContextCatalog :=
  match ReadFile d path with
  | Err err => Err (is_not_exist err, disk_cause err)
  | Ok data => map_err (pair false) (decodeCatalog data)
  end.
Definition resolveCatalogPath (env : environment) (homeDir : result error string) (explicitPath : string) : result error string :=
  let path := if explicitPath == "" then Getenv env ContextFileEnvVar else explicitPath in
  let path := if path == "" then DefaultContextCatalogPath else path in
  homeDir ← map_err (fun err => Internal "failed to resolve user home directory" (Some err)) homeDir;
  let path := if path == "~" then homeDir
              else if has_prefix path "~/" then path_join [homeDir; trim_prefix path "~/"] else path in
  if path == "" then Err (Invalid "context catalog path is empty" None)
  else
    let cleanPath := path_clean path in
    if cleanPath == "." then Err (Invalid "context catalog path is invalid" (Some (errorf "resolved to current directory")))
    else Ok (if has_prefix cleanPath "/" then cleanPath else path_join [homeDir; cleanPath]).
End codec.

Definition compactConfigForPersistence (cfg : Context) : Context := CompactContext cfg.
Definition compactContextCatalogForPersistence (c : ContextCatalog) : ContextCatalog :=
  {| Contexts := compactConfigForPersistence <$> Contexts c; CurrentContext := CurrentContext c;
     DefaultEditor := trim_space (DefaultEditor c); Credentials := Credentials c |}.
Fixpoint findContextIndex (contexts : list Context) (name : string) : option nat :=
  match contexts with
  | [] => None
  | item :: contexts => if ctx_Name item == name then Some 0 else S <$> findContextIndex contexts name
  end.
Definition with_current (c : ContextCatalog) (name : string) : ContextCatalog :=
  {| Contexts := Contexts c; CurrentContext := name; DefaultEditor := DefaultEditor c; Credentials := Credentials c |}.
Definition rename_context (cfg : Context) (name : string) : Context :=
  {| ctx_Name := name; ctx_Repository := ctx_Repository cfg; ctx_ManagedService := ctx_ManagedService cfg; ctx_SecretStore := ctx_SecretStore cfg;
     ctx_Metadata := ctx_Metadata cfg; ctx_Preferences := ctx_Preferences cfg; ctx_Credentials := ctx_Credentials cfg |}.

(** ** What the operations do to a loaded catalog *)
Section edits.
Context `{UnicodeTables, NetUrl} (env : environment).
Definition context_not_found (name : string) : error := NotFound ("context " +:+ quote name +:+ " not found") None.
Definition context_exists (name : string) : error := Invalid ("context " +:+ quote name +:+ " already exists") None.
Definition find_context (c : ContextCatalog) (name : string) : result error (nat * Context) :=
  match findContextIndex (Contexts c) name ≫= fun idx => pair idx <$> Contexts c !! idx with
  | Some found => Ok found
  | None => Err (context_not_found name)
  end.
Definition create_in (cfg : Context) (c : ContextCatalog) : result error ContextCatalog :=
  if is_set (findContextIndex (Contexts c) (ctx_Name cfg)) then Err (context_exists (ctx_Name cfg))
  else
    c ← mergeContextCredentials c (ctx_Credentials cfg);
    let c := with_contexts c (Contexts c ++ [cfg]) in
    Ok (if CurrentContext c == "" then with_current c (ctx_Name cfg) else c).
Definition update_in (cfg : Context) (c : ContextCatalog) : result error ContextCatalog :=
  '(idx, old) ← find_context c (ctx_Name cfg);
  let cfg := preserveProxyOmissions cfg (normalizeConfig old) in
  _ ← validateResolvedConfig env cfg;
  c ← mergeContextCredentials c (ctx_Credentials cfg);
  Ok (with_contexts c (<[idx := cfg]> (Contexts c))).
Definition delete_in (name : string) (c : ContextCatalog) : result error ContextCatalog :=
  '(idx, _) ← find_context c name;
  let c := with_contexts c (take idx (Contexts c) ++ drop (S idx) (Contexts c)) in
  Ok (if CurrentContext c == name then with_current c (match Contexts c with [] => "" | first :: _ => ctx_Name first end) else c).
Definition rename_in (fromName toName : string) (c : ContextCatalog) : result error ContextCatalog :=
  '(fromIdx, cfg) ← find_context c fromName;
  if is_set (findContextIndex (Contexts c) toName) then Err (context_exists toName)
  else
    let c := with_contexts c (<[fromIdx := rename_context cfg toName]> (Contexts c)) in
    Ok (if CurrentContext c == fromName then with_current c toName else c).
Definition set_current_in (name : string) (c : ContextCatalog) : result error ContextCatalog :=
  _ ← find_context c name; Ok (with_current c name).
End edits.

(** ** The service *)
Section service.
Context `{UnicodeTables, NetUrl, CatalogYAML} {D : Type} `{Disk D} `{!DiskModes D}.
Context (env : environment) (homeDir : result error string) (contextCatalogPath : string).
Definition catalog_path : result error string := resolveCatalogPath env homeDir contextCatalogPath.
Definition ensureUserOnlyReadWriteFile (path : string) : action D unit := fun d =>
  match Perm d path with
  | Err err =>
      if is_not_exist err then Some (Ok tt, d)
      else Some (Err (Failed (Internal "failed to inspect context catalog permissions" (Some (disk_cause err)))), d)
  | Ok mode =>
      if mode == user_only then Some (Ok tt, d)
      else match Chmod path user_only d with
           | (None, d) => Some (Ok tt, d)
           | (Some err, d) => Some (Err (Failed (Internal "failed to update context catalog permissions" (Some (disk_cause err)))), d)
           end
  end.
Definition loadCatalog : action D ContextCatalog :=
  resolvedPath ← of_result catalog_path;
  decoded ← (fun d => Some (Ok (decodeCatalogFile resolvedPath d), d));
  match decoded with
  | Err (true, _) => mret empty_catalog
  | Err (false, err) => fail err
  | Ok c => _ ← ensureUserOnlyReadWriteFile resolvedPath; of_result (validateCatalog c)
  end.
Definition save_told (at_stage : write_stage) (cause : error) : error :=
  Internal (match at_stage with
            | MakingDirectory => "failed to create context config directory"
            | MakingFile => "failed to create temporary context catalog file"
            | WritingFile => "failed to write context catalog"
            | SettingMode => "failed to set context catalog permissions"
            | ClosingFile => "failed to finalize context catalog"
            | ReplacingFile => "failed to replace context catalog"
            end) (Some cause).
Definition saveCatalog (c : ContextCatalog) : action D unit :=
  let c := compactContextCatalogForPersistence c in
  _ ← of_result (validateResolvedCatalog env c);
  resolvedPath ← of_result catalog_path;
  encoded ← of_result (map_err (fun err => Internal "failed to encode context catalog" (Some err)) (encodeCatalog c));
  _ ← (fun d => match write_private save_told resolvedPath ".declarest-contexts-*" encoded d with
                | (None, d) => Some (Ok tt, d)
                | (Some err, d) => Some (Err (Failed err), d)
                end);
  ensureUserOnlyReadWriteFile resolvedPath.
(** A change of the loaded catalog, saved. *)
Definition edit (f : ContextCatalog -> result error ContextCatalog) : action D unit :=
  c ← loadCatalog; c ← of_result (f c); saveCatalog c.
Definition Create (cfg : Context) : action D unit :=
  let cfg := normalizeConfig cfg in
  _ ← of_result (validateResolvedConfig env cfg);
  edit (create_in cfg).
Definition Update (cfg : Context) : action D unit := edit (update_in env (normalizeConfig cfg)).
Definition Delete (name : string) : action D unit := edit (delete_in name).
Definition Rename (fromName toName : string) : action D unit :=
  if toName == "" then fail (Invalid "context name must not be empty" None) else edit (rename_in fromName toName).
Definition SetCurrent (name : string) : action D unit := edit (set_current_in name).
Definition List : action D (list Context) := c ← loadCatalog; mret (Contexts c).
Definition GetCurrent : action D Context :=
  c ← loadCatalog;
  if CurrentContext c == "" then fail (NotFound "current context not set" None)
  else match find_context c (CurrentContext c) with
       | Ok (_, cfg) => mret cfg
       | Err _ => fail (NotFound ("current context " +:+ quote (CurrentContext c) +:+ " not found") None)
       end.
(** What a selection makes of a loaded catalog. *)
Definition resolve_in (selection : ContextSelection) (c : ContextCatalog) : result error Context :=
  let resolvedCatalog := ExpandExactEnvPlaceholders env c in
  credentials ← validateCredentials (Credentials resolvedCatalog);
  let effectiveName := if sel_Name selection == "" then CurrentContext resolvedCatalog else sel_Name selection in
  _ ← guard_err (effectiveName == "") (NotFound "current context not set" None);
  '(_, cfg) ← find_context resolvedCatalog effectiveName;
  resolved ← applyOverrides (normalizeConfig cfg) (sel_Overrides selection);
  resolved ← validateConfig (applyConfigDefaults env resolved) credentials true;
  injectContextCredentials credentials resolved.
Definition ResolveContext (selection : ContextSelection) : action D Context := c ← loadCatalog; of_result (resolve_in selection c).
Definition Validate (cfg : Context) : result error unit := validateResolvedConfig env (normalizeConfig cfg).
Definition GetCatalog : action D ContextCatalog := loadCatalog.
Definition ReplaceCatalog (c : ContextCatalog) : action D unit := saveCatalog c.
End service.
