(* ===== verification/ContextFacts.v ===== *)
(** * The rules of a context, proved

    Normal form and compaction; the proxies of a context, which a resolved context shows where
    they were left out and an update leaves out again; what validation accepts; the
    credentials of a resolved context. *)
From S2P Require Import Prelude GoText GoTextFacts Faults Paths Services Throttle ContextConfig PromptAuth ProxyConfig ContextRules ContextCatalog.

#[local] Arguments trim_space : simpl never.

(** ** The proxies of a context as a whole *)
(** The context with other proxies at its targets. *)
Definition put_proxies (cfg : Context) (v : proxyTarget -> option HTTPProxy) : Context :=
  with_metadata_proxy
    (map_parts (fun r => with_remote_proxy r (v RemoteProxy))
               (fun h => with_server h (server_BaseURL h) (server_HealthCheck h) (server_Auth h) (v ServiceProxy))
               (fun s => with_vault s (vault_Auth s) (v VaultProxy)) cfg) (v MetadataProxy).
(** Case analysis on the parts of a context that may be missing. *)
Ltac open_context cfg :=
  destruct cfg as [name [git fs] service store md prefs creds];
  destruct git as [[loc [r|]]|]; destruct service as [[[h|]]|]; destruct store as [[fstore [vs|]]|]; destruct md;
  repeat match goal with r : GitRemote |- _ => destruct r | h : HTTPServer |- _ => destruct h | v : VaultSecretStore |- _ => destruct v end.
Lemma put_proxies_same cfg : put_proxies cfg (target_proxy cfg) = cfg.
Proof. open_context cfg; reflexivity. Qed.
Lemma put_proxies_put cfg v w : put_proxies (put_proxies cfg v) w = put_proxies cfg w.
Proof. open_context cfg; reflexivity. Qed.
Lemma targets_put cfg v : buildProxyTargets (put_proxies cfg v) = buildProxyTargets cfg.
Proof. open_context cfg; reflexivity. Qed.
Lemma targets_NoDup cfg : NoDup (buildProxyTargets cfg).
Proof. unfold buildProxyTargets. destruct (server_of cfg), (remote_of cfg), (vault_of cfg); cbn; repeat constructor; set_solver. Qed.
Lemma target_put cfg v t : target_proxy (put_proxies cfg v) t = if bool_decide (t ∈ buildProxyTargets cfg) then v t else None.
Proof. open_context cfg; destruct t; reflexivity. Qed.
Lemma target_missing cfg t : t ∉ buildProxyTargets cfg -> target_proxy cfg t = None.
Proof. intros Ht. rewrite <-(put_proxies_same cfg), target_put. by rewrite bool_decide_false. Qed.
Definition set_value (v : proxyTarget -> option HTTPProxy) (t : proxyTarget) (p : option HTTPProxy) : proxyTarget -> option HTTPProxy :=
  fun t' => if decide (t' = t) then p else v t'.
Lemma set_target_put cfg t p : set_target cfg t p = put_proxies cfg (set_value (target_proxy cfg) t p).
Proof. destruct t; open_context cfg; reflexivity. Qed.
Lemma put_proxies_ext cfg v w : (forall t, t ∈ buildProxyTargets cfg -> v t = w t) -> put_proxies cfg v = put_proxies cfg w.
Proof.
  intros Hvw. rewrite <-(put_proxies_same (put_proxies cfg v)), <-(put_proxies_same (put_proxies cfg w)), !put_proxies_put.
  assert (forall t, target_proxy (put_proxies cfg v) t = target_proxy (put_proxies cfg w) t) as E.
  { intros t. rewrite !target_put. case_bool_decide; [|done]. by apply Hvw. }
  unfold put_proxies. by rewrite !E.
Qed.
Lemma set_target_same cfg t : set_target cfg t (target_proxy cfg t) = cfg.
Proof.
  rewrite set_target_put, <-(put_proxies_same cfg) at 1. rewrite put_proxies_put. etrans; [|apply put_proxies_same]. apply put_proxies_ext.
  intros t' _. unfold set_value. by destruct (decide (t' = t)) as [->|].
Qed.
(** A loop over targets that changes each by what it is. *)
Lemma fold_targets (step : Context -> proxyTarget -> Context) (g : proxyTarget -> option HTTPProxy -> option HTTPProxy) ts : forall cfg,
  NoDup ts -> (forall t, t ∈ ts -> t ∈ buildProxyTargets cfg) ->
  (forall c t, t ∈ ts -> step c t = set_target c t (g t (target_proxy c t))) ->
  foldl step cfg ts = put_proxies cfg (fun t => if bool_decide (t ∈ ts) then g t (target_proxy cfg t) else target_proxy cfg t).
Proof.
  induction ts as [|t ts IH]; intros cfg Hnd Hin Hstep; cbn [foldl].
  - rewrite <-(put_proxies_same cfg) at 1. by apply put_proxies_ext.
  - apply NoDup_cons in Hnd as [Hni Hnd]. rewrite Hstep by by left. rewrite set_target_put. rewrite IH; [|done| |].
    2: { intros t' Ht'. rewrite targets_put. apply Hin. by right. }
    2: { intros c t' Ht'. apply Hstep. by right. }
    rewrite put_proxies_put. apply put_proxies_ext. intros t' Ht'. rewrite !target_put, !(bool_decide_true (t' ∈ buildProxyTargets cfg)) by done.
    unfold set_value. destruct (decide (t' = t)) as [->|Hne].
    + rewrite bool_decide_false by done. rewrite bool_decide_true by by left. done.
    + by rewrite (bool_decide_ext (t' ∈ ts) (t' ∈ t :: ts)) by set_solver.
Qed.

Section proxies.
Context `{UnicodeTables, NetUrl} (env : environment).
Definition active (p : option HTTPProxy) : bool := negb (is_nil_proxy p) && negb (IsExplicitDisable p).
Lemma urls_active p : HasURLs p = true -> active p = true.
Proof. destruct p as [p|]; [|done]. unfold active, IsExplicitDisable. intros ->. done. Qed.
Lemma disable_own p : IsExplicitDisable p = true -> HasURLs p = false.
Proof. destruct p as [p|]; [|done]. unfold IsExplicitDisable. by destruct (HasURLs (Some p)). Qed.
Lemma normalizeProxy_idemp p : normalizeProxy (normalizeProxy p) = normalizeProxy p.
Proof.
  destruct p as [[h s n [[[[[[r]|] u w]|]]|]]|]; cbn; by rewrite ?trim_space_idemp.
Qed.
Lemma strip_empty : stripProxyURLUserInfo "" = "".
Proof. reflexivity. Qed.
(** Without an environment, merging leaves a proxy in normal form as it is. *)
Lemma Merge_none p : normalizeProxy p = p -> IsExplicitDisable p = false -> Merge None p = p.
Proof.
  intros Hn Hd. unfold Merge. rewrite Hd. destruct p as [o|]; [|done]. injection Hn as Hn. cbn [Clone default].
  assert (trim_space (HTTPURL o) = HTTPURL o /\ trim_space (HTTPSURL o) = HTTPSURL o /\ trim_space (NoProxy o) = NoProxy o) as (-> & -> & ->)
    by (rewrite <-Hn; cbn; by rewrite !trim_space_idemp).
  clear Hn Hd. destruct o as [h s n auth]; cbn. unfold own_or, empty_proxy; cbn.
  assert (forall x, (if x == "" then if auth then stripProxyURLUserInfo "" else "" else x) = x) as E.
  { intros x. case_bool_decide as Ex; [|done]. subst. by destruct auth; [apply strip_empty|]. }
  rewrite !E. case_bool_decide as En; subst; by destruct auth.
Qed.

(** The first target that names a proxy, and what the first loop makes of the context. *)
Definition first_urls (v : proxyTarget -> option HTTPProxy) (ts : list proxyTarget) : option HTTPProxy :=
  head (filter (fun t => HasURLs (v t) = true) ts) ≫= v.
Definition settled (cfg : Context) : Prop :=
  FromEnvironment env = None /\ (forall t, normalizeProxy (target_proxy cfg t) = target_proxy cfg t) \/ forall t, active (target_proxy cfg t) = false.
Lemma merge_loop cfg ts : settled cfg -> forall canonical from,
  exists from', foldl (merge_target env) (cfg, canonical, from) ts =
    (cfg, if from : bool then canonical else match first_urls (target_proxy cfg) ts with Some p => Some p | None => canonical end, from').
Proof.
  intros Hs. induction ts as [|t ts IH]; intros canonical from; cbn [foldl].
  - exists from. by destruct from.
  - unfold merge_target at 2. unfold first_urls. destruct (active (target_proxy cfg t)) eqn:Ea.
    + destruct Hs as [[Henv Hn]|Hno]; [|by rewrite Hno in Ea]. unfold active in Ea. apply andb_true_iff in Ea as [Enil%negb_true_iff Edis%negb_true_iff].
      rewrite Enil, Edis. cbn [orb]. rewrite Henv, Merge_none, set_target_same by done. unfold Clone. destruct (negb from && HasURLs (target_proxy cfg t)) eqn:Eu.
      * destruct (IH (target_proxy cfg t) true) as [from' ->]. exists from'. apply andb_true_iff in Eu as [->%negb_true_iff Eu].
        rewrite filter_cons_True by done. cbn. by destruct (target_proxy cfg t).
      * destruct (IH canonical from) as [from' ->]. exists from'. destruct from; [done|]. cbn in Eu. rewrite filter_cons_False by (by rewrite Eu). done.
    + assert (is_nil_proxy (target_proxy cfg t) || IsExplicitDisable (target_proxy cfg t) = true) as ->
        by (unfold active in Ea; by destruct (is_nil_proxy _), (IsExplicitDisable _)).
      destruct (IH canonical from) as [from' ->]. exists from'. rewrite filter_cons_False; [done|].
      intros Hu%urls_active. congruence.
Qed.
Definition filled (canonical : option HTTPProxy) (v : proxyTarget -> option HTTPProxy) (t : proxyTarget) : option HTTPProxy :=
  if is_nil_proxy (v t) then canonical else v t.
Definition shared_proxy (cfg : Context) : option HTTPProxy :=
  match first_urls (target_proxy cfg) (buildProxyTargets cfg) with
  | Some p => Some p
  | None => if HasURLs (FromEnvironment env) then FromEnvironment env else None
  end.
Lemma first_urls_some v ts p : first_urls v ts = Some p -> HasURLs (Some p) = true.
Proof.
  unfold first_urls. destruct (filter _ ts) as [|t l] eqn:E; [done|]. intros Hv. change (v t = Some p) in Hv.
  assert (t ∈ filter (fun t => HasURLs (v t) = true) ts) as Ht by (rewrite E; by left).
  apply list_elem_of_filter in Ht as [Hu _]. by rewrite Hv in Hu.
Qed.
Lemma defaults_fill cfg : settled cfg -> applyProxyDefaults env cfg = put_proxies cfg (filled (shared_proxy cfg) (target_proxy cfg)).
Proof.
  intros Hs. unfold applyProxyDefaults. destruct (merge_loop cfg (buildProxyTargets cfg) Hs (if HasURLs (FromEnvironment env) then Clone (FromEnvironment env) else None) false) as [from' ->].
  unfold Clone. fold (shared_proxy cfg). destruct (shared_proxy cfg) as [p|] eqn:Ep; cbn [is_nil_proxy].
  - rewrite (fold_targets _ (fun _ q => if is_nil_proxy q then Some p else q)).
    + apply put_proxies_ext. intros t Ht. by rewrite bool_decide_true.
    + apply targets_NoDup.
    + done.
    + intros c t _. unfold fill_target, Clone. destruct (is_nil_proxy _); [done|]. by rewrite set_target_same.
  - rewrite <-(put_proxies_same cfg) at 1. apply put_proxies_ext. intros t _. unfold filled. by destruct (target_proxy cfg t).
Qed.
Lemma first_filled v p ts : HasURLs (Some p) = true -> (forall q, first_urls v ts = Some q -> q = p) ->
  forall q, first_urls (filled (Some p) v) ts = Some q -> q = p.
Proof.
  intros Hp. unfold first_urls. induction ts as [|t ts IH]; [done|]. intros Hv q. destruct (v t) as [r|] eqn:Et.
  - assert (filled (Some p) v t = Some r) as Ef by (unfold filled; by rewrite Et). destruct (HasURLs (Some r)) eqn:Er.
    + rewrite filter_cons_True by (by rewrite Ef). rewrite filter_cons_True in Hv by (by rewrite Et). cbn in *. rewrite Ef. rewrite Et in Hv. intros [= <-]. by apply Hv.
    + rewrite filter_cons_False by (by rewrite Ef, Er). rewrite filter_cons_False in Hv by (by rewrite Et, Er). by apply IH.
  - assert (filled (Some p) v t = Some p) as Ef by (unfold filled; by rewrite Et). rewrite filter_cons_True by (by rewrite Ef). cbn. rewrite Ef. by intros [= <-].
Qed.
Lemma Equal_refl p : Equal p p = true.
Proof.
  destruct p as [[h s n [[[b|]]|]]|]; [..|done]; unfold Equal; cbn -[CredentialName]; by rewrite !(bool_decide_true (_ = _)) by done.
Qed.
Lemma first_urls_ext v w ts : (forall t, t ∈ ts -> v t = w t) -> first_urls v ts = first_urls w ts.
Proof.
  unfold first_urls. induction ts as [|t ts IH]; [done|]. intros Hvw. assert (v t = w t) as E by (apply Hvw; by left).
  destruct (HasURLs (v t)) eqn:Eu.
  - rewrite (filter_cons_True _ t), (filter_cons_True _ t) by congruence. done.
  - rewrite (filter_cons_False _ t), (filter_cons_False _ t) by congruence. apply IH. intros t' Ht'. apply Hvw. by right.
Qed.
Lemma preserve_first cfg baseline : preserveProxyOmissions cfg baseline =
  match first_urls (target_proxy cfg) (buildProxyTargets cfg) with
  | None => cfg
  | Some p => foldl (omit_target baseline (Some p)) cfg (buildProxyTargets cfg)
  end.
Proof.
  unfold preserveProxyOmissions. destruct (first_urls _ _) as [p|] eqn:E; unfold first_urls in E; destruct (filter _ _) as [|t l] eqn:Ef; [done| |done|].
  - by change (target_proxy cfg t = Some p) in E; rewrite E.
  - change (target_proxy cfg t = None) in E.
    assert (t ∈ filter (fun t => HasURLs (target_proxy cfg t) = true) (buildProxyTargets cfg)) as Hin by (rewrite Ef; by left).
    apply list_elem_of_filter in Hin as [Hu _]. by rewrite E in Hu.
Qed.
Lemma filled_none v t : filled None v t = v t.
Proof. unfold filled. by destruct (v t). Qed.
Lemma shared_proxy_some cfg p : shared_proxy cfg = Some p ->
  HasURLs (Some p) = true /\ forall q, first_urls (target_proxy cfg) (buildProxyTargets cfg) = Some q -> q = p.
Proof.
  unfold shared_proxy. destruct (first_urls _ _) as [q|] eqn:E.
  - intros [= <-]. split; [by eapply first_urls_some|]. by intros ? [= <-].
  - destruct (HasURLs (FromEnvironment env)) eqn:Eu; [|done]. intros Ep. by rewrite Ep in Eu.
Qed.
(** What was filled is left out again. *)
Lemma omissions_kept cfg baseline : settled cfg -> (forall t, target_proxy baseline t = target_proxy cfg t) ->
  buildProxyTargets baseline = buildProxyTargets cfg -> preserveProxyOmissions (applyProxyDefaults env cfg) baseline = cfg.
Proof.
  intros Hs Hb Ht. rewrite defaults_fill by done. rewrite preserve_first, targets_put.
  rewrite (first_urls_ext _ (filled (shared_proxy cfg) (target_proxy cfg))) by (intros t Hin; by rewrite target_put, bool_decide_true).
  assert (put_proxies cfg (target_proxy cfg) = cfg) as Hsame by apply put_proxies_same.
  destruct (shared_proxy cfg) as [p|] eqn:Ep.
  - apply shared_proxy_some in Ep as [Hp Hq]. destruct (first_urls (filled _ _) _) as [q|] eqn:Ef.
    + apply (first_filled _ _ _ Hp Hq) in Ef as ->.
      rewrite (fold_targets _ (fun t q => if is_nil_proxy q || IsExplicitDisable q then q
        else if is_nil_proxy (target_proxy cfg t) && Equal q (Some p) then None else q)).
      * rewrite put_proxies_put. etrans; [|exact Hsame]. apply put_proxies_ext. intros t Hin. rewrite target_put, !bool_decide_true by done.
        unfold filled. destruct (target_proxy cfg t) as [r|] eqn:Et; cbn [is_nil_proxy andb]; [by destruct (_ || _)|].
        rewrite Equal_refl. destruct (IsExplicitDisable (Some p)) eqn:Ed; [|done]. apply disable_own in Ed. congruence.
      * apply targets_NoDup.
      * intros t Hin. by rewrite targets_put.
      * intros c t Hin. unfold omit_target. destruct (is_nil_proxy (target_proxy c t) || _) eqn:E1; [by rewrite set_target_same|].
        rewrite Hb, Ht, bool_decide_true by done. cbn [negb orb]. destruct (target_proxy cfg t) as [r|]; cbn [is_nil_proxy negb andb]; [by rewrite set_target_same|].
        destruct (Equal _ _); [done|]. by rewrite set_target_same.
    + rewrite (put_proxies_ext _ _ (target_proxy cfg)); [done|]. intros t Hin. unfold filled. destruct (target_proxy cfg t) eqn:Et; [done|]. exfalso.
      unfold first_urls in Ef. destruct (filter _ (buildProxyTargets cfg)) as [|t' l] eqn:E.
      * enough (t ∈ filter (fun t => HasURLs (filled (Some p) (target_proxy cfg) t) = true) (buildProxyTargets cfg)) as Hf
          by (rewrite E in Hf; by apply not_elem_of_nil in Hf).
        apply list_elem_of_filter. unfold filled at 1. by rewrite Et.
      * change (filled (Some p) (target_proxy cfg) t' = None) in Ef. unfold filled in Ef. by destruct (target_proxy cfg t').
  - rewrite (put_proxies_ext _ _ (target_proxy cfg)), Hsame by (intros t _; apply filled_none).
    rewrite (first_urls_ext _ (target_proxy cfg)) by (intros t _; apply filled_none).
    unfold shared_proxy in Ep. by destruct (first_urls _ _).
Qed.
Lemma target_normalized cfg t : target_proxy (normalizeConfig cfg) t = normalizeProxy (target_proxy cfg t).
Proof. destruct t; open_context cfg; reflexivity. Qed.
Lemma targets_normalized cfg : buildProxyTargets (normalizeConfig cfg) = buildProxyTargets cfg.
Proof. open_context cfg; reflexivity. Qed.
Lemma active_normalized p : active (normalizeProxy p) = active p.
Proof.
  destruct p as [[h s n [[[b|]]|]]|]; [..|done]; unfold active, IsExplicitDisable, HasURLs; cbn; by rewrite !trim_space_idemp.
Qed.
Lemma path_clean_nonempty s : path_clean s <> "".
Proof. unfold path_clean. destruct (has_prefix s "/"); [done|]. by destruct (decide _). Qed.
Lemma target_base_dir cfg dir t : target_proxy (with_base_dir cfg dir) t = target_proxy cfg t.
Proof. by destruct t. Qed.
(** The settings the catalog was given no directory for are stored without one. *)
Lemma compact_default_dir cfg : trim_space (meta_Bundle (ctx_Metadata cfg)) = "" -> trim_space (meta_BundleFile (ctx_Metadata cfg)) = "" ->
  meta_BaseDir (ctx_Metadata cfg) = "" -> CompactContext (with_base_dir cfg (ContextRepositoryBaseDir cfg)) = CompactContext cfg.
Proof.
  destruct cfg as [name repo service store [dir bundle file proxy] prefs creds]; cbn. intros Eb Ef ->.
  unfold CompactContext, metadataUsesDefaultBaseDir. set (d := ContextRepositoryBaseDir _).
  change (ContextRepositoryBaseDir (with_base_dir _ d)) with d. cbn [ctx_Metadata meta_Bundle meta_BundleFile meta_BaseDir with_base_dir with_metadata].
  change (normalizeContextBaseDir "") with "". rewrite Eb, Ef, !(bool_decide_true ("" = "")) by done. cbn [negb orb andb]. rewrite andb_false_r; cbn [andb].
  rewrite (bool_decide_true (normalizeContextBaseDir d = normalizeContextBaseDir d)), andb_true_r by done.
  case_bool_decide as E; [|done]. unfold normalizeContextBaseDir in E. case_bool_decide as Ed; [|by apply path_clean_nonempty in E].
  cbn. by rewrite Ed.
Qed.
End proxies.

(** ** Normal form *)
Lemma normalize_ref_idemp r : normalizeCredentialsRef (normalizeCredentialsRef r) = normalizeCredentialsRef r.
Proof. destruct r as [[]|]; cbn; by rewrite ?trim_space_idemp. Qed.
Lemma normalize_basic_idemp b : normalize_basic (normalize_basic b) = normalize_basic b.
Proof. destruct b; unfold normalize_basic; cbn. by rewrite normalize_ref_idemp. Qed.
Lemma normalize_password_idemp b : normalize_password (normalize_password b) = normalize_password b.
Proof. destruct b; unfold normalize_password; cbn. by rewrite normalize_ref_idemp. Qed.
Lemma fmap_idemp {A} (f : A -> A) (x : option A) : (forall a, f (f a) = f a) -> f <$> (f <$> x) = f <$> x.
Proof. intros Hf. destruct x; cbn; by rewrite ?Hf. Qed.
Lemma normalize_remote_idemp r : normalize_remote (normalize_remote r) = normalize_remote r.
Proof.
  destruct r; unfold normalize_remote, with_remote_proxy, with_remote_auth; cbn. rewrite normalizeProxy_idemp, fmap_idemp; [done|].
  intros []. unfold map_git_basic; cbn. by rewrite fmap_idemp by apply normalize_basic_idemp.
Qed.
Lemma normalize_server_idemp h : normalize_server (normalize_server h) = normalize_server h.
Proof.
  destruct h; unfold normalize_server, with_server; cbn. rewrite normalizeProxy_idemp, trim_space_idemp, fmap_idemp; [done|].
  intros []. unfold map_http_basic; cbn. by rewrite fmap_idemp by apply normalize_basic_idemp.
Qed.
Lemma normalize_vault_idemp v : normalize_vault (normalize_vault v) = normalize_vault v.
Proof.
  destruct v; unfold normalize_vault, with_vault; cbn. rewrite normalizeProxy_idemp, fmap_idemp; [done|].
  intros []. unfold map_vault_password; cbn. by rewrite fmap_idemp by apply normalize_password_idemp.
Qed.
Lemma normalize_parts_idemp cfg : normalize_parts (normalize_parts cfg) = normalize_parts cfg.
Proof.
  destruct cfg as [name [git fs] service store md prefs creds]. unfold normalize_parts, map_parts, map_repository; cbn. f_equal.
  - f_equal. apply (fmap_idemp (fun g : GitRepository => {| git_Local := git_Local g; git_Remote := normalize_remote <$> git_Remote g |})).
    intros []; cbn. by rewrite fmap_idemp by apply normalize_remote_idemp.
  - apply (fmap_idemp (map_service normalize_server)). intros []. unfold map_service; cbn. by rewrite fmap_idemp by apply normalize_server_idemp.
  - apply (fmap_idemp (map_store_vault normalize_vault)). intros []. unfold map_store_vault; cbn. by rewrite fmap_idemp by apply normalize_vault_idemp.
Qed.
Lemma normalize_after_parts cfg : normalizeConfig (normalize_parts cfg) = normalizeConfig cfg.
Proof. unfold normalizeConfig. by rewrite normalize_parts_idemp. Qed.
Lemma normalizeConfig_idemp cfg : normalizeConfig (normalizeConfig cfg) = normalizeConfig cfg.
Proof.
  unfold normalizeConfig. set (p := normalizeProxy (meta_Proxy _)).
  change (with_metadata_proxy (with_metadata_proxy (normalize_parts (normalize_parts cfg)) p) (normalizeProxy p) = with_metadata_proxy (normalize_parts cfg) p).
  unfold p. by rewrite normalize_parts_idemp, normalizeProxy_idemp.
Qed.

(** ** Credentials *)
Section credentials.
Context `{UnicodeTables, NetUrl}.
Definition valid_value (v : CredentialValue) : Prop := match cred_Prompt v with None => Literal v <> "" | Some p => Prompt p = true end.
Definition valid_credential (item : Credential) : Prop :=
  trim_space (cred_Name item) <> "" /\ valid_value (cred_Username item) /\ valid_value (cred_Password item).
Definition credential_entry (item : Credential) : string * Credential := (trim_space (cred_Name item), with_name item (trim_space (cred_Name item))).
Lemma validateCredentialValue_Ok field v u : validateCredentialValue field v = Ok u <-> valid_value v.
Proof.
  destruct u. unfold validateCredentialValue, valid_value. destruct (cred_Prompt v) as [p|]; [by destruct (Prompt p)|]. by case_bool_decide.
Qed.
Lemma credentials_loop_Ok items : forall idx index r, credentials_loop idx items index = Ok r <->
  Forall valid_credential items /\ NoDup (credential_entry <$> items).*1 /\ (forall item, item ∈ items -> index !! trim_space (cred_Name item) = None)
  /\ r = list_to_map (credential_entry <$> items) ∪ index.
Proof.
  induction items as [|item items IH]; intros idx index r; cbn -[trim_space].
  { split; [intros [= <-]|intros (_ & _ & _ & ->)]; [|by rewrite map_empty_union]. split_and!; [constructor|constructor|by intros ? ?%not_elem_of_nil|by rewrite map_empty_union]. }
  set (name := trim_space (cred_Name item)).
  rewrite Forall_cons, NoDup_cons. unfold valid_credential at 1. fold name. destruct (decide (name = "")) as [En|En].
  { rewrite bool_decide_true by done. split; [done|]. naive_solver. }
  rewrite bool_decide_false by done. destruct (index !! name) as [old|] eqn:Ei; cbn [is_set].
  { split; [done|]. intros (_ & _ & Hno & _). assert (index !! name = None) by (apply Hno; by left). congruence. }
  rewrite bind_Ok. setoid_rewrite validateCredentialValue_Ok. split.
  - intros ([] & Hu & Hr). apply bind_Ok in Hr as ([] & Hp & Hr). rewrite validateCredentialValue_Ok in Hp. apply IH in Hr as (Hall & Hnd & Hno & ->).
    split_and!; try done.
    + intros Hin. apply list_elem_of_fmap in Hin as ([n c] & E & Hin). apply list_elem_of_fmap in Hin as (item' & [= -> ->] & Hin).
      cbn in E. specialize (Hno item' Hin). rewrite <-E in Hno. by rewrite lookup_insert_eq in Hno.
    + intros item' [->|Hin]%elem_of_cons; [done|]. specialize (Hno item' Hin). by apply lookup_insert_None in Hno as [].
    + rewrite <-insert_union_l, <-insert_union_r; [done|]. apply not_elem_of_list_to_map_1. intros Hin. apply list_elem_of_fmap in Hin as ([n c] & E & Hin).
      apply list_elem_of_fmap in Hin as (item' & [= -> ->] & Hin). cbn in E. specialize (Hno item' Hin). rewrite <-E in Hno. by rewrite lookup_insert_eq in Hno.
  - intros ([(_ & Hu & Hp) Hall] & [Hni Hnd] & Hno & ->). exists tt. split; [done|]. apply bind_Ok. exists tt. rewrite validateCredentialValue_Ok. split; [done|].
    apply IH. split_and!; [done..| |].
    + intros item' Hin. rewrite lookup_insert_ne; [apply Hno; by right|]. intros E. apply Hni. rewrite E. rewrite list_elem_of_fmap.
      exists (credential_entry item'). split; [done|]. apply list_elem_of_fmap. by exists item'.
    + rewrite <-insert_union_l, <-insert_union_r; [done|]. by apply not_elem_of_list_to_map_1.
Qed.
(** The credentials of a catalog are accepted exactly when each has a name, a user name
    and a password (a text that is not blank, or a prompt that is on) and no two have one name
    but for white space; they are then found by their trimmed names. *)
Theorem credentials_index_exact items index : validateCredentials items = Ok index <->
  Forall valid_credential items /\ NoDup ((fun item => trim_space (cred_Name item)) <$> items) /\ index = list_to_map (credential_entry <$> items).
Proof.
  unfold validateCredentials. rewrite credentials_loop_Ok, map_union_empty, <-list_fmap_compose. split; [naive_solver|].
  intros (Hall & Hnd & ->). split_and!; [done..| |done]. intros item _. apply lookup_empty.
Qed.

(** The places of a context that take credentials: the reference, the user name and the password. *)
Abbreviation place := (option CredentialsRef * CredentialValue * CredentialValue)%type.
Definition basic_places (b : option BasicAuth) : list place := from_option (fun b => [(basic_Ref b, basic_Username b, basic_Password b)]) [] b.
Definition password_places (b : option VaultUserPasswordAuth) : list place := from_option (fun b => [(vaultpw_Ref b, vaultpw_Username b, vaultpw_Password b)]) [] b.
Definition proxy_places (p : option HTTPProxy) : list place := basic_places ((p ≫= proxy_Auth) ≫= proxyauth_Basic).
Definition credential_places (cfg : Context) : list place :=
  basic_places ((remote_of cfg ≫= remote_Auth) ≫= gitauth_Basic) ++ basic_places ((server_of cfg ≫= server_Auth) ≫= http_Basic)
  ++ password_places ((vault_of cfg ≫= vault_Auth) ≫= vault_Password)
  ++ flat_map (fun t => proxy_places (target_proxy cfg t)) [ServiceProxy; RemoteProxy; VaultProxy; MetadataProxy].
Definition filled_from (index : gmap string Credential) (p : place) : Prop :=
  exists item, ref_name p.1.1 <> "" /\ index !! ref_name p.1.1 = Some item /\ p.1.2 = cred_Username item /\ p.2 = cred_Password item.
Lemma through_Ok {A} (f : A -> result error A) x y : through f x = Ok y ->
  match x, y with None, None => True | Some a, Some b => f a = Ok b | _, _ => False end.
Proof. destruct x as [a|]; cbn; [|by intros [= <-]]. by intros (b & -> & [= <-])%bind_Ok. Qed.
Lemma referenced_Ok index field r item : referencedCredential field r index = Ok item -> ref_name r <> "" /\ index !! ref_name r = Some item.
Proof. unfold referencedCredential. case_bool_decide; [done|]. destruct (index !! ref_name r); [|done]. by intros [= ->]. Qed.
Lemma inject_basic_Ok index field x y : through (injectBasicCredentials index field) x = Ok y -> Forall (filled_from index) (basic_places y).
Proof.
  intros E%through_Ok. destruct x as [a|], y as [b|]; try done. apply bind_Ok in E as (item & Hr & [= <-]).
  apply referenced_Ok in Hr as [Hn Hi]. constructor; [|constructor]. by exists item.
Qed.
Lemma inject_password_Ok index field x y : through (injectVaultUserPasswordCredentials index field) x = Ok y -> Forall (filled_from index) (password_places y).
Proof.
  intros E%through_Ok. destruct x as [a|], y as [b|]; try done. apply bind_Ok in E as (item & Hr & [= <-]).
  apply referenced_Ok in Hr as [Hn Hi]. constructor; [|constructor]. by exists item.
Qed.
Definition same_proxy (p q : option HTTPProxy) : Prop := is_nil_proxy p = is_nil_proxy q /\ HasURLs p = HasURLs q.
Lemma inject_proxy_Ok index field x y : injectProxyCredentials index field x = Ok y -> Forall (filled_from index) (proxy_places y) /\ same_proxy x y.
Proof.
  intros E%through_Ok. destruct x as [a|], y as [b|]; try done. apply bind_Ok in E as (auth & Ha & [= <-]). split; [|done].
  unfold proxy_places; cbn. apply through_Ok in Ha. destruct (proxy_Auth a) as [pa|], auth as [pb|]; try done.
  apply bind_Ok in Ha as (basic & Hb & [= <-]). by eapply inject_basic_Ok.
Qed.
Lemma inject_remote_Ok index r r' : inject_remote index r = Ok r' ->
  Forall (filled_from index) (basic_places (remote_Auth r' ≫= gitauth_Basic)) /\ Forall (filled_from index) (proxy_places (remote_Proxy r'))
  /\ same_proxy (remote_Proxy r) (remote_Proxy r').
Proof.
  unfold inject_remote. intros (auth & Ha & (proxy & Hp & [= <-])%bind_Ok)%bind_Ok. apply inject_proxy_Ok in Hp. split; [|done].
  apply through_Ok in Ha. cbn. destruct (remote_Auth r) as [a|], auth as [b|]; try done.
  apply bind_Ok in Ha as (basic & Hb & [= <-]). by eapply inject_basic_Ok.
Qed.
Lemma inject_server_Ok index h h' : inject_server index h = Ok h' ->
  Forall (filled_from index) (basic_places (server_Auth h' ≫= http_Basic)) /\ Forall (filled_from index) (proxy_places (server_Proxy h'))
  /\ same_proxy (server_Proxy h) (server_Proxy h').
Proof.
  unfold inject_server. intros (auth & Ha & (proxy & Hp & [= <-])%bind_Ok)%bind_Ok. apply inject_proxy_Ok in Hp. split; [|done].
  apply through_Ok in Ha. cbn. destruct (server_Auth h) as [a|], auth as [b|]; try done.
  apply bind_Ok in Ha as (basic & Hb & [= <-]). by eapply inject_basic_Ok.
Qed.
Lemma inject_vault_Ok index v v' : inject_vault index v = Ok v' ->
  Forall (filled_from index) (password_places (vault_Auth v' ≫= vault_Password)) /\ Forall (filled_from index) (proxy_places (vault_Proxy v'))
  /\ same_proxy (vault_Proxy v) (vault_Proxy v').
Proof.
  unfold inject_vault. intros (auth & Ha & (proxy & Hp & [= <-])%bind_Ok)%bind_Ok. apply inject_proxy_Ok in Hp. split; [|done].
  apply through_Ok in Ha. cbn. destruct (vault_Auth v) as [a|], auth as [b|]; try done.
  apply bind_Ok in Ha as (password & Hb & [= <-]). by eapply inject_password_Ok.
Qed.
(** The parts of an injected context. *)
Lemma inject_parts index cfg cfg' : injectContextCredentials index cfg = Ok cfg' ->
  ctx_Name cfg' = ctx_Name cfg /\ through (inject_remote index) (remote_of cfg) = Ok (remote_of cfg')
  /\ through (inject_server index) (server_of cfg) = Ok (server_of cfg') /\ through (inject_vault index) (vault_of cfg) = Ok (vault_of cfg')
  /\ exists field, injectProxyCredentials index field (meta_Proxy (ctx_Metadata cfg)) = Ok (meta_Proxy (ctx_Metadata cfg')).
Proof.
  unfold injectContextCredentials, remote_of, server_of, vault_of.
  intros (git & Hg & (service & Hs & (store & Hv & (proxy & Hp & [= <-])%bind_Ok)%bind_Ok)%bind_Ok)%bind_Ok. cbn. split; [done|].
  apply through_Ok in Hg, Hs, Hv. split_and!; [| | |by eexists].
  - destruct (repo_Git _) as [a|], git as [b|]; try done. by apply bind_Ok in Hg as (x & Hx & [= <-]).
  - destruct (ctx_ManagedService _) as [a|], service as [b|]; try done. by apply bind_Ok in Hs as (x & Hx & [= <-]).
  - destruct (ctx_SecretStore _) as [a|], store as [b|]; try done. by apply bind_Ok in Hv as (x & Hx & [= <-]).
Qed.
Lemma inject_Ok index cfg cfg' : injectContextCredentials index cfg = Ok cfg' ->
  ctx_Name cfg' = ctx_Name cfg /\ Forall (filled_from index) (credential_places cfg') /\ buildProxyTargets cfg' = buildProxyTargets cfg
  /\ forall t, same_proxy (target_proxy cfg t) (target_proxy cfg' t).
Proof.
  intros (En & Hr & Hs & Hv & field & Hm)%inject_parts. split; [done|]. apply inject_proxy_Ok in Hm as [Fm Sm].
  unfold credential_places, buildProxyTargets. cbn [flat_map target_proxy]. apply through_Ok in Hr, Hs, Hv.
  assert (Forall (filled_from index) (basic_places ((remote_of cfg' ≫= remote_Auth) ≫= gitauth_Basic)) /\ Forall (filled_from index) (proxy_places (remote_of cfg' ≫= remote_Proxy))
    /\ same_proxy (remote_of cfg ≫= remote_Proxy) (remote_of cfg' ≫= remote_Proxy)) as (Fr & Fr' & Sr)
    by (destruct (remote_of cfg), (remote_of cfg'); [by apply inject_remote_Ok|done..|split_and!; [apply Forall_nil_2..|done]]).
  assert (Forall (filled_from index) (basic_places ((server_of cfg' ≫= server_Auth) ≫= http_Basic)) /\ Forall (filled_from index) (proxy_places (server_of cfg' ≫= server_Proxy))
    /\ same_proxy (server_of cfg ≫= server_Proxy) (server_of cfg' ≫= server_Proxy)) as (Fs & Fs' & Ss)
    by (destruct (server_of cfg), (server_of cfg'); [by apply inject_server_Ok|done..|split_and!; [apply Forall_nil_2..|done]]).
  assert (Forall (filled_from index) (password_places ((vault_of cfg' ≫= vault_Auth) ≫= vault_Password)) /\ Forall (filled_from index) (proxy_places (vault_of cfg' ≫= vault_Proxy))
    /\ same_proxy (vault_of cfg ≫= vault_Proxy) (vault_of cfg' ≫= vault_Proxy)) as (Fv & Fv' & Sv)
    by (destruct (vault_of cfg), (vault_of cfg'); [by apply inject_vault_Ok|done..|split_and!; [apply Forall_nil_2..|done]]).
  split_and!; [by repeat apply Forall_app_2| |by intros []].
  by destruct (remote_of cfg), (remote_of cfg'), (server_of cfg), (server_of cfg'), (vault_of cfg), (vault_of cfg').
Qed.
Lemma set_target_name cfg t p : ctx_Name (set_target cfg t p) = ctx_Name cfg.
Proof. by destruct t. Qed.
Lemma targets_set cfg t p : buildProxyTargets (set_target cfg t p) = buildProxyTargets cfg.
Proof. by rewrite set_target_put, targets_put. Qed.
Lemma target_set cfg t p t' : t' ∈ buildProxyTargets cfg -> target_proxy (set_target cfg t p) t' = set_value (target_proxy cfg) t p t'.
Proof. intros Ht. by rewrite set_target_put, target_put, bool_decide_true. Qed.
(** After the first loop, a target that names a proxy leaves a canonical one. *)
Lemma merge_loop_shares env ts : forall cfg canonical from cfg' canonical' from', NoDup ts -> (forall t, t ∈ ts -> t ∈ buildProxyTargets cfg) ->
  (from = true -> is_nil_proxy canonical = false) -> foldl (merge_target env) (cfg, canonical, from) ts = (cfg', canonical', from') ->
  ctx_Name cfg' = ctx_Name cfg /\ buildProxyTargets cfg' = buildProxyTargets cfg /\ (is_nil_proxy canonical = false -> is_nil_proxy canonical' = false)
  /\ (forall t, t ∈ buildProxyTargets cfg -> t ∉ ts -> target_proxy cfg' t = target_proxy cfg t)
  /\ forall t, t ∈ ts -> HasURLs (target_proxy cfg' t) = true -> is_nil_proxy canonical' = false.
Proof.
  induction ts as [|t ts IH]; intros cfg canonical from cfg' canonical' from' Hnd Hin Hfrom; cbn [foldl].
  { intros [= <- <- <-]. split_and!; [done..|]. intros t Ht. by apply not_elem_of_nil in Ht. }
  apply NoDup_cons in Hnd as [Hni Hnd]. unfold merge_target at 2.
  assert (t ∈ buildProxyTargets cfg) as Ht by (apply Hin; by left). destruct (is_nil_proxy (target_proxy cfg t) || IsExplicitDisable (target_proxy cfg t)) eqn:Ea.
  - intros Hf. apply IH in Hf as (En & Et & Hc & Hrest & Hdone); [|done|set_solver|done]. split_and!; [done..| |].
    + intros t' Ht' Hni'. apply Hrest; set_solver.
    + intros t' [->|Ht']%elem_of_cons Hu; [|by eapply Hdone]. rewrite Hrest in Hu by done. apply urls_active in Hu. unfold active in Hu. by destruct (is_nil_proxy (target_proxy cfg t)), (IsExplicitDisable (target_proxy cfg t)).
  - set (merged := Merge (FromEnvironment env) (target_proxy cfg t)). unfold Clone.
    assert (exists canonical1 from1, (if negb from && HasURLs merged then (set_target cfg t merged, merged, true) else (set_target cfg t merged, canonical, from))
      = (set_target cfg t merged, canonical1, from1) /\ (from1 = true -> is_nil_proxy canonical1 = false) /\ (is_nil_proxy canonical = false -> is_nil_proxy canonical1 = false)
      /\ (HasURLs merged = true -> is_nil_proxy canonical1 = false)) as (canonical1 & from1 & -> & Hfrom1 & Hc1 & Hu1).
    { destruct from, (HasURLs merged) eqn:Eu; cbn; eexists _, _; split_and!; try done; try (intros; by apply Hfrom); by destruct merged. }
    intros Hf. apply IH in Hf as (En & Et & Hc & Hrest & Hdone); [|done|intros; rewrite targets_set; set_solver|done].
    rewrite set_target_name in En. rewrite targets_set in Et, Hrest. split_and!; [done..|by auto| |].
    + intros t' Ht' Hni'. rewrite Hrest, target_set by set_solver. unfold set_value. destruct (decide _); [set_solver|done].
    + intros t' [->|Ht']%elem_of_cons Hu; [|by eapply Hdone]. rewrite Hrest, target_set in Hu by done. unfold set_value in Hu.
      rewrite decide_True in Hu by done. apply Hc. by apply Hu1.
Qed.
Lemma fill_loop canonical ts : forall cfg, (forall t, t ∈ ts -> t ∈ buildProxyTargets cfg) -> is_nil_proxy canonical = false ->
  ctx_Name (foldl (fill_target canonical) cfg ts) = ctx_Name cfg /\ buildProxyTargets (foldl (fill_target canonical) cfg ts) = buildProxyTargets cfg
  /\ forall t, t ∈ buildProxyTargets cfg -> t ∈ ts \/ is_nil_proxy (target_proxy cfg t) = false -> is_nil_proxy (target_proxy (foldl (fill_target canonical) cfg ts) t) = false.
Proof.
  induction ts as [|t ts IH]; intros cfg Hin Hc; cbn [foldl].
  { split_and!; [done..|]. intros t _ [Ht|?]; [by apply not_elem_of_nil in Ht|done]. }
  destruct (IH (fill_target canonical cfg t)) as (En & Et & Hd); [|done|].
  { intros t' Ht'. assert (t' ∈ buildProxyTargets cfg) by (apply Hin; by right). unfold fill_target. destruct (is_nil_proxy (target_proxy cfg t)); [rewrite targets_set|]; done. }
  assert (ctx_Name (fill_target canonical cfg t) = ctx_Name cfg /\ buildProxyTargets (fill_target canonical cfg t) = buildProxyTargets cfg) as [En' Et'].
  { unfold fill_target. destruct (is_nil_proxy (target_proxy cfg t)); [|done]. by rewrite set_target_name, targets_set. }
  split_and!; [congruence..|]. intros t' Ht' Hcase. apply Hd; [by rewrite Et'|]. destruct (decide (t' = t)) as [->|Hne].
  - right. unfold fill_target. destruct (is_nil_proxy (target_proxy cfg t)) eqn:E; [|done]. rewrite target_set by done. unfold set_value. by rewrite decide_True.
  - destruct Hcase as [[?|?]%elem_of_cons|Hnil]; [done|by left|]. right. unfold fill_target. destruct (is_nil_proxy (target_proxy cfg t)); [|done].
    rewrite target_set by done. unfold set_value. by rewrite decide_False.
Qed.
Lemma defaults_share env cfg : ctx_Name (applyProxyDefaults env cfg) = ctx_Name cfg /\
  forall t t', t ∈ buildProxyTargets (applyProxyDefaults env cfg) -> HasURLs (target_proxy (applyProxyDefaults env cfg) t') = true ->
    is_nil_proxy (target_proxy (applyProxyDefaults env cfg) t) = false.
Proof.
  unfold applyProxyDefaults. destruct (foldl (merge_target env) _ _) as [[cfg' canonical'] from'] eqn:Ef.
  apply merge_loop_shares in Ef as (En & Et & _ & _ & Hdone); [|apply targets_NoDup|done|done].
  destruct (is_nil_proxy canonical') eqn:Ec.
  - split; [done|]. intros t t' _ Hu. destruct (decide (t' ∈ buildProxyTargets cfg)) as [Hin|Hni]; [by specialize (Hdone t' Hin Hu)|].
    rewrite <-Et in Hni. by rewrite (target_missing _ _ Hni) in Hu.
  - destruct (fill_loop canonical' (buildProxyTargets cfg) cfg') as (En' & Et' & Hd); [by intros t; rewrite Et|done|]. split; [congruence|].
    intros t t'. rewrite Et', Et. intros Hin _. apply Hd; [by rewrite Et|by left].
Qed.
Lemma override_one_name cfg key v cfg' : override_one cfg key v = Ok cfg' -> ctx_Name cfg' = ctx_Name cfg.
Proof.
  unfold override_one, override_proxy, override_server. repeat case_bool_decide; try (by intros [= <-]);
    try (destruct (repo_Git _)); try (destruct (repo_Filesystem _)); try (destruct (server_of _)); try done; try (by intros [= <-]);
    by destruct (bool_decide _); intros [= <-].
Qed.
Lemma overrides_name overrides keys : forall cfg cfg', override_keys overrides keys cfg = Ok cfg' -> ctx_Name cfg' = ctx_Name cfg.
Proof.
  induction keys as [|key keys IH]; intros cfg cfg'; [by intros [= <-]|]. cbn. intros (c & Hc & Hr)%bind_Ok.
  apply override_one_name in Hc. apply IH in Hr. congruence.
Qed.
Lemma same_normalized p : same_proxy p (normalizeProxy p).
Proof. destruct p as [[h s n a]|]; [|done]. split; [done|]. cbn. by rewrite !trim_space_idemp. Qed.
Lemma target_parts cfg t : target_proxy (normalize_parts cfg) t = match t with MetadataProxy => target_proxy cfg t | _ => normalizeProxy (target_proxy cfg t) end.
Proof. destruct t; open_context cfg; reflexivity. Qed.
Lemma targets_parts cfg : buildProxyTargets (normalize_parts cfg) = buildProxyTargets cfg.
Proof. open_context cfg; reflexivity. Qed.
Lemma find_context_Ok c name idx cfg : find_context c name = Ok (idx, cfg) -> Contexts c !! idx = Some cfg /\ ctx_Name cfg = name /\
  forall i item, i < idx -> Contexts c !! i = Some item -> ctx_Name item <> name.
Proof.
  unfold find_context. destruct (findContextIndex (Contexts c) name) as [i|] eqn:Ei; [|done]. cbn. destruct (Contexts c !! i) as [x|] eqn:Ex; [|done].
  intros [= -> ->]. revert idx Ei Ex. induction (Contexts c) as [|item items IH]; intros idx; [done|]. cbn. case_bool_decide as En.
  - intros [= <-] [= <-]. split_and!; [done..|lia].
  - destruct (findContextIndex items name) as [j|] eqn:Ej; [|done]. intros [= <-] Hx. destruct (IH j eq_refl Hx) as (_ & Hn & Hlt). split_and!; [done..|].
    intros [|k] item' Hk Hi; [by injection Hi as <-|]. eapply (Hlt k); [lia|done].
Qed.
(** ** What a context shows besides credentials *)
(** The context with the places for credentials emptied, and without what resolving fills in:
    its proxies and the directory of its metadata. *)
Definition cleared_server (h : HTTPServer) : HTTPServer :=
  with_server h (server_BaseURL h) (server_HealthCheck h) (map_http_basic written_basic <$> server_Auth h) (written_proxy <$> server_Proxy h).
Definition cleared_context (cfg : Context) : Context :=
  with_metadata_proxy (map_parts written_remote cleared_server written_vault cfg) (written_proxy <$> meta_Proxy (ctx_Metadata cfg)).
Definition own_settings (cfg : Context) : Context :=
  let m := ctx_Metadata cfg in
  with_metadata
    (map_parts (fun r => with_remote_proxy (with_remote_auth r (map_git_basic written_basic <$> remote_Auth r)) None)
       (fun h => with_server h (server_BaseURL h) (server_HealthCheck h) (map_http_basic written_basic <$> server_Auth h) None)
       (fun v => with_vault v (map_vault_password written_password <$> vault_Auth v) None) cfg)
    {| meta_BaseDir := ""; meta_Bundle := meta_Bundle m; meta_BundleFile := meta_BundleFile m; meta_Proxy := None |}.
Lemma written_proxy_twice (p : option HTTPProxy) : written_proxy <$> (written_proxy <$> p) = written_proxy <$> p.
Proof. by destruct p as [[h s n [[[b|]]|]]|]. Qed.
Lemma written_proxy_normalized p : written_proxy <$> normalizeProxy p = normalizeProxy p.
Proof. by destruct p as [[h s n [[[b|]]|]]|]. Qed.
Lemma normalize_written_proxy p : normalizeProxy (written_proxy <$> p) = normalizeProxy p.
Proof. by destruct p as [[h s n [[[b|]]|]]|]. Qed.
Lemma git_basic_twice (a : option GitAuth) : map_git_basic written_basic <$> (map_git_basic written_basic <$> a) = map_git_basic written_basic <$> a.
Proof. by destruct a as [[[b|] ssh key]|]. Qed.
Lemma http_basic_twice (a : option HTTPAuth) : map_http_basic written_basic <$> (map_http_basic written_basic <$> a) = map_http_basic written_basic <$> a.
Proof. by destruct a as [[oauth [b|] custom]|]. Qed.
Lemma vault_password_twice (a : option VaultAuth) :
  map_vault_password written_password <$> (map_vault_password written_password <$> a) = map_vault_password written_password <$> a.
Proof. by destruct a as [[token [b|] approle]|]. Qed.
Lemma git_basic_normalized (a : option GitAuth) :
  map_git_basic normalize_basic <$> (map_git_basic written_basic <$> a) = map_git_basic written_basic <$> (map_git_basic normalize_basic <$> a).
Proof. by destruct a as [[[b|] ssh key]|]. Qed.
Lemma http_basic_normalized (a : option HTTPAuth) :
  map_http_basic normalize_basic <$> (map_http_basic written_basic <$> a) = map_http_basic written_basic <$> (map_http_basic normalize_basic <$> a).
Proof. by destruct a as [[oauth [b|] custom]|]. Qed.
Lemma vault_password_normalized (a : option VaultAuth) :
  map_vault_password normalize_password <$> (map_vault_password written_password <$> a) = map_vault_password written_password <$> (map_vault_password normalize_password <$> a).
Proof. by destruct a as [[token [b|] approle]|]. Qed.
(** Equality of contexts, part by part. *)
Ltac rewrite_parts := cbn; rewrite ?written_proxy_twice, ?written_proxy_normalized, ?normalize_written_proxy, ?git_basic_twice, ?http_basic_twice, ?vault_password_twice,
  ?git_basic_normalized, ?http_basic_normalized, ?vault_password_normalized; try reflexivity.
Ltac by_parts cfg :=
  destruct cfg as [name [git fs] service store [base bundle file shared] prefs creds];
  unfold own_settings, put_proxies, cleared_context, written_context, normalizeConfig, normalize_parts, with_base_dir, with_metadata_proxy, with_metadata, map_parts;
  cbn -[written_remote cleared_server written_server written_vault normalize_remote normalize_server normalize_vault];
  f_equal; rewrite_parts;
  lazymatch goal with
  | |- @eq Repository _ _ => unfold map_repository; cbn; f_equal; destruct git as [[loc [[]|]]|]
  | |- @eq (option ManagedService) _ _ => destruct service as [[[[]|]]|]
  | |- @eq (option SecretStore) _ _ => destruct store as [[fstore [[]|]]|]
  end;
  try reflexivity; cbn; unfold map_service, map_store_vault, written_remote, cleared_server, written_server, written_vault, normalize_remote, normalize_server, normalize_vault,
    with_server, with_vault, with_remote_proxy, with_remote_auth; rewrite_parts.
Lemma written_cleared cfg : written_context (cleared_context cfg) = written_context cfg.
Proof. by_parts cfg. Qed.
Lemma own_cleared cfg : own_settings (cleared_context cfg) = own_settings cfg.
Proof. by_parts cfg. Qed.
Lemma own_filled_normalized cfg dir v : own_settings (normalizeConfig (put_proxies (with_base_dir cfg dir) v)) = own_settings (normalizeConfig cfg).
Proof. by_parts cfg. Qed.
Lemma own_normalized cfg : own_settings (normalize_parts cfg) = own_settings (normalizeConfig cfg).
Proof. by_parts cfg. Qed.
Lemma written_parts cfg : normalize_parts (written_context cfg) = written_context (normalize_parts cfg).
Proof. by_parts cfg. Qed.
Lemma written_normalized cfg : written_context (normalizeConfig cfg) = normalizeConfig (written_context cfg).
Proof. by_parts cfg. Qed.
Lemma inject_basic_cleared index field x y : through (injectBasicCredentials index field) x = Ok y -> written_basic <$> y = written_basic <$> x.
Proof. intros E%through_Ok. destruct x as [a|], y as [b|]; try done. by apply bind_Ok in E as (item & _ & [= <-]). Qed.
Lemma inject_password_cleared index field x y : through (injectVaultUserPasswordCredentials index field) x = Ok y -> written_password <$> y = written_password <$> x.
Proof. intros E%through_Ok. destruct x as [a|], y as [b|]; try done. by apply bind_Ok in E as (item & _ & [= <-]). Qed.
Lemma inject_proxy_cleared index field x y : injectProxyCredentials index field x = Ok y -> written_proxy <$> y = written_proxy <$> x.
Proof.
  intros E%through_Ok. destruct x as [a|], y as [b|]; try done. apply bind_Ok in E as (auth & Ha & [= <-]). unfold written_proxy; cbn. do 2 f_equal.
  apply through_Ok in Ha. destruct (proxy_Auth a) as [pa|], auth as [pb|]; try done. apply bind_Ok in Ha as (basic & Hb & [= <-]). cbn. do 2 f_equal.
  by eapply inject_basic_cleared.
Qed.
Lemma remote_cleared index r r' : inject_remote index r = Ok r' -> written_remote r' = written_remote r.
Proof.
  intros (auth & Ha & (p & Hq & [= <-])%bind_Ok)%bind_Ok. apply inject_proxy_cleared in Hq. apply through_Ok in Ha.
  destruct r as [url branch provider sync a tls proxy]. unfold written_remote, with_remote_proxy, with_remote_auth; cbn in *. rewrite Hq. f_equal.
  destruct a as [a|], auth as [b|]; try done. apply bind_Ok in Ha as (basic & Hb & [= <-]). apply inject_basic_cleared in Hb. unfold map_git_basic; cbn. by rewrite Hb.
Qed.
Lemma server_cleared index h h' : inject_server index h = Ok h' -> cleared_server h' = cleared_server h.
Proof.
  intros (auth & Ha & (p & Hq & [= <-])%bind_Ok)%bind_Ok. apply inject_proxy_cleared in Hq. apply through_Ok in Ha.
  destruct h as [url check openapi headers a proxy tls throttling]. unfold cleared_server, with_server; cbn in *. rewrite Hq. f_equal.
  destruct a as [a|], auth as [b|]; try done. apply bind_Ok in Ha as (basic & Hb & [= <-]). apply inject_basic_cleared in Hb. unfold map_http_basic; cbn. by rewrite Hb.
Qed.
Lemma vault_cleared index v v' : inject_vault index v = Ok v' -> written_vault v' = written_vault v.
Proof.
  intros (auth & Ha & (p & Hq & [= <-])%bind_Ok)%bind_Ok. apply inject_proxy_cleared in Hq. apply through_Ok in Ha.
  destruct v as [address mount prefix version a tls proxy]. unfold written_vault, with_vault; cbn in *. rewrite Hq. f_equal.
  destruct a as [a|], auth as [b|]; try done. apply bind_Ok in Ha as (password & Hb & [= <-]). apply inject_password_cleared in Hb. unfold map_vault_password; cbn. by rewrite Hb.
Qed.
Lemma inject_cleared index cfg cfg' : injectContextCredentials index cfg = Ok cfg' -> cleared_context cfg' = cleared_context cfg.
Proof.
  destruct cfg as [name [git fs] service store md prefs creds]. unfold injectContextCredentials. cbn [ctx_Name ctx_Repository ctx_ManagedService ctx_SecretStore ctx_Metadata repo_Git].
  intros (git' & Hg & (service' & Hs & (store' & Hv & (proxy & Hp & [= <-])%bind_Ok)%bind_Ok)%bind_Ok)%bind_Ok.
  apply inject_proxy_cleared in Hp. apply through_Ok in Hg, Hs, Hv. unfold cleared_context, with_metadata_proxy, with_metadata, map_parts, map_repository.
  cbn -[written_remote cleared_server written_vault]. rewrite Hp. f_equal.
  - f_equal. destruct git as [[loc remote]|], git' as [git'|]; try done. apply bind_Ok in Hg as (remote' & Hr & [= <-]). apply through_Ok in Hr.
    destruct remote as [r|], remote' as [r'|]; try done. apply remote_cleared in Hr. cbn -[written_remote]. by rewrite Hr.
  - destruct service as [[h]|], service' as [service'|]; try done. apply bind_Ok in Hs as (h' & Hr & [= <-]). apply through_Ok in Hr.
    destruct h as [h|], h' as [h'|]; try done. apply server_cleared in Hr. unfold map_service. cbn -[cleared_server]. by rewrite Hr.
  - destruct store as [[f v]|], store' as [store'|]; try done. apply bind_Ok in Hv as (v' & Hr & [= <-]). apply through_Ok in Hr.
    destruct v as [v|], v' as [v'|]; try done. apply vault_cleared in Hr. unfold map_store_vault. cbn -[written_vault]. by rewrite Hr.
Qed.
Lemma fold_puts (step : Context -> proxyTarget -> Context) ts : (forall cfg t, exists v, step cfg t = put_proxies cfg v) ->
  forall cfg, exists v, foldl step cfg ts = put_proxies cfg v.
Proof.
  intros Hstep. induction ts as [|t ts IH]; intros cfg; cbn [foldl]; [exists (target_proxy cfg); by rewrite put_proxies_same|].
  destruct (Hstep cfg t) as [v ->]. destruct (IH (put_proxies cfg v)) as [w ->]. exists w. apply put_proxies_put.
Qed.
Lemma merge_puts env ts : forall cfg canonical from, exists v, (foldl (merge_target env) (cfg, canonical, from) ts).1.1 = put_proxies cfg v.
Proof.
  induction ts as [|t ts IH]; intros cfg canonical from; cbn [foldl]; [exists (target_proxy cfg); by rewrite put_proxies_same|].
  unfold merge_target at 2. destruct (_ || _); [apply IH|]. rewrite set_target_put. destruct (_ && _);
    [edestruct IH as [w ->]|edestruct IH as [w ->]]; exists w; apply put_proxies_put.
Qed.
Lemma defaults_put env cfg : exists v, applyProxyDefaults env cfg = put_proxies cfg v.
Proof.
  unfold applyProxyDefaults. set (canonical := if HasURLs _ then _ else _). destruct (merge_puts env (buildProxyTargets cfg) cfg canonical false) as [v Hv].
  destruct (foldl (merge_target env) _ _) as [[cfg' c'] from']. cbn in Hv. subst. destruct (is_nil_proxy c'); [by exists v|].
  destruct (fold_puts (fill_target c') (buildProxyTargets cfg)) with (cfg := put_proxies cfg v) as [w ->]; [|exists w; apply put_proxies_put].
  intros c t. unfold fill_target. destruct (is_nil_proxy _); [rewrite set_target_put; by eexists|exists (target_proxy c); by rewrite put_proxies_same].
Qed.
(** What a selection went through. *)
Lemma resolve_inv env selection c r : resolve_in env selection c = Ok r ->
  let catalog := ExpandExactEnvPlaceholders env c in
  let name := if sel_Name selection == "" then CurrentContext catalog else sel_Name selection in
  exists index idx stored cfg, validateCredentials (Credentials catalog) = Ok index /\ name <> "" /\ find_context catalog name = Ok (idx, stored) /\
    applyOverrides (normalizeConfig stored) (sel_Overrides selection) = Ok cfg /\
    injectContextCredentials index (normalize_parts (applyConfigDefaults env cfg)) = Ok r.
Proof.
  intros Hr catalog name. unfold resolve_in in Hr. fold catalog in Hr. fold name in Hr. apply bind_Ok in Hr as (index & Hi & Hr).
  apply bind_Ok in Hr as ([] & Hn%guard_Ok & Hr). apply bool_decide_eq_false in Hn. apply bind_Ok in Hr as ([idx stored] & Hf & Hr).
  apply bind_Ok in Hr as (cfg & Ho & Hr). apply bind_Ok in Hr as (checked & Hv & Hr). apply bind_Ok in Hv as ([] & _ & [= <-]).
  by exists index, idx, stored, cfg.
Qed.
(** The directory of the metadata of a resolved context. *)
Definition resolved_dir (cfg : Context) : string :=
  let m := ctx_Metadata cfg in
  if (trim_space (meta_Bundle m) == "") && (trim_space (meta_BundleFile m) == "") && (meta_BaseDir m == "") then ContextRepositoryBaseDir cfg else meta_BaseDir m.
Lemma with_own_dir cfg : with_base_dir cfg (meta_BaseDir (ctx_Metadata cfg)) = cfg.
Proof. by destruct cfg as [? ? ? ? [] ? ?]. Qed.
Lemma config_defaults env cfg : applyConfigDefaults env cfg = applyProxyDefaults env (with_base_dir (normalizeConfig cfg) (resolved_dir (normalizeConfig cfg))).
Proof. unfold applyConfigDefaults, resolved_dir. cbv zeta. destruct (_ && _); [done|]. by rewrite with_own_dir. Qed.
Lemma cleared_dir cfg : meta_BaseDir (ctx_Metadata (cleared_context cfg)) = meta_BaseDir (ctx_Metadata cfg).
Proof. done. Qed.
Lemma resolved_context_name env selection c r : resolve_in env selection c = Ok r ->
  ctx_Name r = if sel_Name selection == "" then CurrentContext (ExpandExactEnvPlaceholders env c) else sel_Name selection.
Proof.
  intros (index & idx & stored & cfg & _ & _ & (_ & Hname & _)%find_context_Ok & Ho & Hr)%resolve_inv. apply overrides_name in Ho. apply inject_Ok in Hr as (-> & _).
  change (ctx_Name (normalize_parts (applyConfigDefaults env cfg))) with (ctx_Name (applyConfigDefaults env cfg)). rewrite config_defaults.
  destruct (defaults_share env (with_base_dir (normalizeConfig cfg) (resolved_dir (normalizeConfig cfg)))) as [-> _]. rewrite <-Hname. exact Ho.
Qed.
(** [C14] A resolved context comes of the first stored context of the selected name, the one
    the catalog names as current when none is selected: its own settings, all but the proxies,
    the credentials and the directory of the metadata, are those of that context in normal form
    with the overrides; its directory is the one of the repository where no source of metadata
    is given, and that of the metadata otherwise; and every place that takes credentials, those
    of its proxies included, has the user name and the password of the catalog's credential its
    reference names; once one component has a proxy with an address, no component is without a
    proxy. *)
Theorem resolved_context_complete env selection c r : resolve_in env selection c = Ok r ->
  let catalog := ExpandExactEnvPlaceholders env c in
  let name := if sel_Name selection == "" then CurrentContext catalog else sel_Name selection in
  name <> "" /\ ctx_Name r = name /\
  (exists idx stored cfg, Contexts catalog !! idx = Some stored /\ ctx_Name stored = name /\
    (forall i item, i < idx -> Contexts catalog !! i = Some item -> ctx_Name item <> name) /\
    applyOverrides (normalizeConfig stored) (sel_Overrides selection) = Ok cfg /\
    own_settings r = own_settings (normalizeConfig cfg) /\ meta_BaseDir (ctx_Metadata r) = resolved_dir (normalizeConfig cfg)) /\
  (exists index, validateCredentials (Credentials catalog) = Ok index /\ Forall (filled_from index) (credential_places r)) /\
  forall t t', t ∈ buildProxyTargets r -> HasURLs (target_proxy r t') = true -> is_nil_proxy (target_proxy r t) = false.
Proof.
  intros (index & idx & stored & cfg & Hi & Hn & Hf & Ho & Hr)%resolve_inv catalog name. apply find_context_Ok in Hf as (Hlook & Hname & Hfirst).
  pose proof (inject_cleared _ _ _ Hr) as Hown. apply inject_Ok in Hr as (Ern & Hfill & Ert & Hsame).
  assert (exists idx stored cfg, Contexts catalog !! idx = Some stored /\ ctx_Name stored = name /\
    (forall i item, i < idx -> Contexts catalog !! i = Some item -> ctx_Name item <> name) /\
    applyOverrides (normalizeConfig stored) (sel_Overrides selection) = Ok cfg /\
    own_settings r = own_settings (normalizeConfig cfg) /\ meta_BaseDir (ctx_Metadata r) = resolved_dir (normalizeConfig cfg)) as Horigin.
  { exists idx, stored, cfg. split_and!; [done..| |].
    - rewrite <-own_cleared, Hown, own_cleared, own_normalized, config_defaults. destruct (defaults_put env (with_base_dir (normalizeConfig cfg) (resolved_dir (normalizeConfig cfg)))) as [v ->].
      by rewrite own_filled_normalized, normalizeConfig_idemp.
    - rewrite <-cleared_dir, Hown, cleared_dir, config_defaults. destruct (defaults_put env (with_base_dir (normalizeConfig cfg) (resolved_dir (normalizeConfig cfg)))) as [v ->]. done. }
  apply overrides_name in Ho. rewrite config_defaults in *. set (d := with_base_dir _ _) in *. destruct (defaults_share env d) as [Edn Hshare].
  split_and!; [done| |done|by exists index|].
  { rewrite Ern. change (ctx_Name (normalize_parts (applyProxyDefaults env d))) with (ctx_Name (applyProxyDefaults env d)). rewrite Edn. etrans; [exact Ho|exact Hname]. }
  assert (forall t, same_proxy (target_proxy (applyProxyDefaults env d) t) (target_proxy r t)) as Hall.
  { intros t. destruct (Hsame t) as [E1 E2]. rewrite target_parts in E1, E2. destruct t; try by split.
    all: destruct (same_normalized (target_proxy (applyProxyDefaults env d) ServiceProxy)), (same_normalized (target_proxy (applyProxyDefaults env d) RemoteProxy)),
      (same_normalized (target_proxy (applyProxyDefaults env d) VaultProxy)); split; congruence. }
  intros t t'. rewrite Ert, targets_parts. intros Ht Hu. destruct (Hall t) as [<- _]. destruct (Hall t') as [_ E]. rewrite <-E in Hu. by eapply Hshare.
Qed.

(** ** Stored again *)
Definition omitted (v : proxyTarget -> option HTTPProxy) (ts : list proxyTarget) (baseline : Context) (t : proxyTarget) : option HTTPProxy :=
  match first_urls v ts with
  | None => v t
  | Some p =>
      if is_nil_proxy (v t) || IsExplicitDisable (v t) then v t
      else if negb (bool_decide (t ∈ buildProxyTargets baseline)) || negb (is_nil_proxy (target_proxy baseline t)) then v t
      else if Equal (v t) (Some p) then None else v t
  end.
Lemma preserve_put cfg baseline : preserveProxyOmissions cfg baseline = put_proxies cfg (omitted (target_proxy cfg) (buildProxyTargets cfg) baseline).
Proof.
  rewrite preserve_first. unfold omitted. destruct (first_urls _ _) as [p|]; [|by rewrite put_proxies_same].
  rewrite (fold_targets _ (fun t q => if is_nil_proxy q || IsExplicitDisable q then q
    else if negb (bool_decide (t ∈ buildProxyTargets baseline)) || negb (is_nil_proxy (target_proxy baseline t)) then q else if Equal q (Some p) then None else q)).
  - apply put_proxies_ext. intros t Ht. by rewrite bool_decide_true.
  - apply targets_NoDup.
  - done.
  - intros c t _. unfold omit_target. destruct (_ || _); [by rewrite set_target_same|]. destruct (_ || _); [by rewrite set_target_same|].
    destruct (Equal _ _); [done|]. by rewrite set_target_same.
Qed.
Lemma written_put cfg v : written_context (put_proxies cfg v) = put_proxies (written_context cfg) (fun t => written_proxy <$> v t).
Proof. open_context cfg; reflexivity. Qed.
Lemma target_cleared cfg t : target_proxy (cleared_context cfg) t = written_proxy <$> target_proxy cfg t.
Proof. destruct t; open_context cfg; reflexivity. Qed.
Lemma targets_cleared cfg : buildProxyTargets (cleared_context cfg) = buildProxyTargets cfg.
Proof. open_context cfg; reflexivity. Qed.
Lemma targets_written cfg : buildProxyTargets (written_context cfg) = buildProxyTargets cfg.
Proof. open_context cfg; reflexivity. Qed.
Lemma preserve_written a b baseline : written_context a = written_context b -> (forall t, target_proxy a t = target_proxy b t) ->
  written_context (preserveProxyOmissions a baseline) = written_context (preserveProxyOmissions b baseline).
Proof.
  intros Hw Ht. rewrite !preserve_put, !written_put, Hw. apply put_proxies_ext. intros t _. unfold omitted.
  assert (buildProxyTargets a = buildProxyTargets b) as -> by (by rewrite <-targets_written, Hw, targets_written).
  by rewrite !Ht, (first_urls_ext (target_proxy a) (target_proxy b)).
Qed.
Lemma compact_written cfg : CompactContext (written_context cfg) = written_context (CompactContext cfg).
Proof.
  assert (ContextRepositoryBaseDir (written_context cfg) = ContextRepositoryBaseDir cfg) as E by (by destruct cfg as [name [[g|] fs] service store md prefs creds]).
  unfold CompactContext, metadataUsesDefaultBaseDir. rewrite E. change (meta_Bundle (ctx_Metadata (written_context cfg))) with (meta_Bundle (ctx_Metadata cfg)).
  change (meta_BundleFile (ctx_Metadata (written_context cfg))) with (meta_BundleFile (ctx_Metadata cfg)).
  change (meta_BaseDir (ctx_Metadata (written_context cfg))) with (meta_BaseDir (ctx_Metadata cfg)). destruct (_ || _); [done|]. by destruct (_ && _).
Qed.
Lemma compact_resolved_dir cfg : CompactContext (with_base_dir cfg (resolved_dir cfg)) = CompactContext cfg.
Proof.
  unfold resolved_dir. cbv zeta. destruct (_ && _) eqn:E; [|by rewrite with_own_dir].
  apply andb_true_iff in E as [[Eb Ef]%andb_true_iff Ed]. apply bool_decide_eq_true in Eb, Ef, Ed. by apply compact_default_dir.
Qed.
Lemma normalized_put cfg dir v : normalizeConfig (put_proxies (with_base_dir (normalizeConfig cfg) dir) v)
  = put_proxies (with_base_dir (normalizeConfig cfg) dir) (fun t => normalizeProxy (v t)).
Proof.
  rewrite <-(normalizeConfig_idemp cfg) at 2. generalize (normalizeConfig cfg). intros n. open_context n; reflexivity.
Qed.
Lemma first_env_trimmed env keys v : firstEnvValue env keys = Some v -> trim_space v = v.
Proof.
  induction keys as [|key keys IH]; [done|]. cbn. destruct (env key) as [s|]; [|done]. case_bool_decide; [done|]. intros [= <-]. apply trim_space_idemp.
Qed.
Lemma env_proxy_normal env : normalizeProxy (FromEnvironment env) = FromEnvironment env.
Proof.
  unfold FromEnvironment. destruct (firstEnvValue env ["HTTP_PROXY"; "http_proxy"]) as [a|] eqn:Ea, (firstEnvValue env ["HTTPS_PROXY"; "https_proxy"]) as [b|] eqn:Eb,
    (firstEnvValue env ["NO_PROXY"; "no_proxy"]) as [n|] eqn:En; try done; destruct (IsExplicitDisable _); try done; cbn;
    repeat match goal with H : firstEnvValue env _ = Some _ |- _ => apply first_env_trimmed in H as -> end; by rewrite ?trim_space_empty.
Qed.
Lemma first_urls_in v ts p : first_urls v ts = Some p -> exists t, v t = Some p.
Proof. unfold first_urls. destruct (filter _ ts) as [|t l]; [done|]. intros Hv. by exists t. Qed.
Definition proxies_can_return (env : environment) (cfg : Context) : Prop :=
  FromEnvironment env = None \/ forall t, active (target_proxy cfg t) = false.
(** A context that was resolved without overrides, in normal form, is the stored one with its
    directory and its proxies filled in. *)
Lemma resolved_fill env cfg : proxies_can_return env cfg ->
  let n := normalizeConfig cfg in let m := with_base_dir n (resolved_dir n) in
  normalizeConfig (applyConfigDefaults env n) = applyConfigDefaults env n /\ preserveProxyOmissions (applyConfigDefaults env n) n = m.
Proof.
  intros Hcase n m. assert (forall t, target_proxy m t = target_proxy n t) as Em by (intros t; apply target_base_dir).
  assert (forall t, normalizeProxy (target_proxy m t) = target_proxy m t) as Hnorm by (intros t; rewrite Em; unfold n; by rewrite target_normalized, normalizeProxy_idemp).
  assert (settled env m) as Hs.
  { destruct Hcase as [Henv|Hno]; [by left|right]. intros t. rewrite Em. unfold n. by rewrite target_normalized, active_normalized. }
  assert (applyConfigDefaults env n = applyProxyDefaults env m) as -> by (rewrite config_defaults; unfold m, n; by rewrite normalizeConfig_idemp).
  split; [|by apply omissions_kept; [done|intros t; by rewrite Em|done]].
  rewrite defaults_fill by done. unfold m at 1 5, n at 1 3. rewrite normalized_put. apply put_proxies_ext. intros t _. unfold filled.
  destruct (target_proxy m t) as [p|] eqn:Et; cbn [is_nil_proxy]; [by rewrite <-Et|].
  unfold shared_proxy. destruct (first_urls _ _) as [p|] eqn:Ef; [by apply first_urls_in in Ef as [t' <-]|].
  destruct (HasURLs _); [apply env_proxy_normal|done].
Qed.
(** [C15] A successful update of a context with what was resolved of it, without overrides,
    stores what was stored: the catalog that is saved is, as written, the catalog with that
    context in normal form, so that the directory, the proxies and the credentials a resolved context shows for
    those left out are left out again. It holds for a catalog without placeholders of the
    environment and a context without credentials of its own (a loaded context has none), where
    the environment names no proxy, or, whatever the environment, the context names none. *)
Theorem resolved_context_stores_back env selection c idx stored r c' : ExpandExactEnvPlaceholders env c = c -> sel_Overrides selection = ∅ ->
  find_context c (if sel_Name selection == "" then CurrentContext c else sel_Name selection) = Ok (idx, stored) ->
  ctx_Credentials stored = ∅ -> proxies_can_return env stored ->
  resolve_in env selection c = Ok r -> update_in env (normalizeConfig r) c = Ok c' ->
  written (compactContextCatalogForPersistence c') =
  written (compactContextCatalogForPersistence (with_contexts c (<[idx := normalizeConfig stored]> (Contexts c)))).
Proof.
  intros Hc Hsel Hfind Hcreds Hcase Hr Hu. pose proof (resolved_context_name _ _ _ _ Hr) as Hname. rewrite Hc in Hname.
  apply resolve_inv in Hr as (index & idx' & stored' & cfg & _ & _ & Hf & Ho & Hinj). rewrite Hc in Hf. rewrite Hfind in Hf. injection Hf as <- <-.
  rewrite Hsel in Ho. change (@Ok error _ (normalizeConfig stored) = Ok cfg) in Ho. injection Ho as <-. destruct (resolved_fill env stored Hcase) as [Hnormal Hback]. set (n := normalizeConfig stored) in *. set (x := applyConfigDefaults env n) in *.
  assert (find_context c (ctx_Name (normalizeConfig r)) = Ok (idx, stored)) as Hfind' by (change (ctx_Name (normalizeConfig r)) with (ctx_Name r); by rewrite Hname).
  unfold update_in in Hu. rewrite Hfind' in Hu. change (mbind ?f (Ok (idx, stored))) with (f (idx, stored)) in Hu. cbv beta iota zeta in Hu. apply bind_Ok in Hu as ([] & _ & Hu). fold n in Hu. set (new := preserveProxyOmissions (normalizeConfig r) n) in *.
  assert (ctx_Credentials new = ∅) as Hnone.
  { unfold new. rewrite preserve_put. apply inject_cleared, (f_equal ctx_Credentials) in Hinj. etrans; [exact Hinj|]. change (ctx_Credentials x = ∅).
    unfold x. rewrite config_defaults. destruct (defaults_put env (with_base_dir (normalizeConfig n) (resolved_dir (normalizeConfig n)))) as [v ->]. exact Hcreds. }
  assert (mergeContextCredentials c ∅ = Ok c) as Hm by (unfold mergeContextCredentials; by rewrite bool_decide_true). rewrite Hnone, Hm in Hu. injection Hu as <-. unfold written, compactContextCatalogForPersistence, compactConfigForPersistence; cbn. f_equal.
  rewrite !list_fmap_insert. f_equal. fold n. rewrite <-!compact_written.
  assert (written_context new = written_context (with_base_dir n (resolved_dir n))) as ->.
  { rewrite <-Hback. apply inject_cleared in Hinj. apply preserve_written.
    - rewrite <-Hnormal, <-(normalize_after_parts x), !written_normalized, <-!(written_cleared r), Hinj. by rewrite written_cleared.
    - intros t. rewrite <-Hnormal, <-(normalize_after_parts x), !target_normalized. rewrite <-(normalize_written_proxy (target_proxy r t)), <-target_cleared, Hinj, target_cleared.
      by rewrite normalize_written_proxy. }
  rewrite !compact_written. by rewrite compact_resolved_dir.
Qed.
End credentials.

(** ** At work *)
(** Addresses of the form [http(s)://host/path], and relative ones. *)
Record plain_url := { plain_Scheme : string; plain_User : option userinfo; plain_Host : string; plain_Path : string }.
Definition plain_parse (s : string) : result error plain_url :=
  let absolute scheme := match split_on slash (trim_prefix s (scheme +:+ "://")) with
                         | [] => Err (errorf "no host")
                         | host :: rest => Ok {| plain_Scheme := scheme; plain_User := None; plain_Host := host; plain_Path := String.concat "" (map (fun p => "/" +:+ p) rest) |}
                         end in
  if has_prefix s "http://" then absolute "http" else if has_prefix s "https://" then absolute "https"
  else Ok {| plain_Scheme := ""; plain_User := None; plain_Host := ""; plain_Path := s |}.
Definition plain_urls : NetUrl := {|
  url := plain_url; url_Parse := plain_parse; url_Scheme := plain_Scheme; url_Host := plain_Host; url_Path := plain_Path;
  url_RawQuery := fun _ => ""; url_User := plain_User;
  with_User := fun u user => {| plain_Scheme := plain_Scheme u; plain_User := user; plain_Host := plain_Host u; plain_Path := plain_Path u |};
  url_String := fun u => (if plain_Scheme u == "" then "" else plain_Scheme u +:+ "://") +:+ plain_Host u +:+ plain_Path u;
|}.
Section at_work.
#[local] Existing Instance latin1_tables.
#[local] Existing Instance plain_urls.
Definition ops_ref : option CredentialsRef := Some {| ref_Name := " ops " |}.
Definition ops_auth : BasicAuth := {| basic_Ref := ops_ref; basic_Username := no_value; basic_Password := no_value |}.
(** A service with a proxy, which the metadata is to share. *)
Definition service_context (proxy : option HTTPProxy) : Context :=
  {| ctx_Name := "dev"; ctx_Repository := {| repo_Git := Some {| git_Local := {| local_BaseDir := "/repo/"; local_AutoInit := None |}; git_Remote := None |}; repo_Filesystem := None |};
     ctx_ManagedService := Some {| service_HTTP := Some {|
       server_BaseURL := "https://svc.example.com"; server_HealthCheck := " /health"; server_OpenAPI := ""; server_DefaultHeaders := ∅;
       server_Auth := Some {| http_OAuth2 := None; http_Basic := Some ops_auth; http_CustomHeaders := [] |};
       server_Proxy := proxy; server_TLS := None; server_Throttling := None |} |};
     ctx_SecretStore := None; ctx_Metadata := {| meta_BaseDir := ""; meta_Bundle := ""; meta_BundleFile := ""; meta_Proxy := None |};
     ctx_Preferences := ∅; ctx_Credentials := ∅ |}.
Definition corp_proxy : option HTTPProxy := Some {| HTTPURL := "http://proxy:3128"; HTTPSURL := ""; NoProxy := " localhost"; proxy_Auth := None |}.
Definition bare : environment := fun _ => None.
Definition ops_catalog : ContextCatalog :=
  {| Contexts := [service_context None]; CurrentContext := "dev"; DefaultEditor := "";
     Credentials := [{| cred_Name := "ops "; cred_Username := LiteralCredential "root"; cred_Password := {| cred_Value := "${OPS_PASSWORD}"; cred_Prompt := None |} |}] |}.
Definition ops_env : environment := fun key => if key == "OPS_PASSWORD" then Some "s3cret" else None.
Definition proxied_catalog : ContextCatalog :=
  {| Contexts := [service_context corp_proxy]; CurrentContext := "dev"; DefaultEditor := "";
     Credentials := [{| cred_Name := "ops "; cred_Username := LiteralCredential "root"; cred_Password := LiteralCredential "s3cret" |}] |}.
Definition current_one : ContextSelection := {| sel_Name := ""; sel_Overrides := ∅ |}.
(** The service's proxy and the directory of the repository are the metadata's as well, and the
    password is there; what is stored of it is the context as it was. *)
Lemma resolved_context_stores_back_witness : exists r c', resolve_in bare current_one proxied_catalog = Ok r /\
  target_proxy r MetadataProxy = normalizeProxy corp_proxy /\ meta_BaseDir (ctx_Metadata r) = "/repo/" /\
  update_in bare (normalizeConfig r) proxied_catalog = Ok c' /\
  written (compactContextCatalogForPersistence c') = written (compactContextCatalogForPersistence (with_contexts proxied_catalog [normalizeConfig (service_context corp_proxy)])).
Proof.
  destruct (resolve_in bare current_one proxied_catalog) as [r|err] eqn:Hr; [|vm_compute in Hr; discriminate Hr].
  assert (match resolve_in bare current_one proxied_catalog with
    | Ok r => target_proxy r MetadataProxy = normalizeProxy corp_proxy /\ meta_BaseDir (ctx_Metadata r) = "/repo/" /\ is_ok (update_in bare (normalizeConfig r) proxied_catalog) = true
    | Err _ => False end) as Hp by (vm_compute; split_and!; reflexivity).
  rewrite Hr in Hp. destruct Hp as (Hproxy & Hdir & Hok). destruct (update_in bare (normalizeConfig r) proxied_catalog) as [c'|err] eqn:Hu; [|discriminate Hok].
  exists r, c'. split_and!; [reflexivity|exact Hproxy|exact Hdir|exact Hu|].
  apply (resolved_context_stores_back bare current_one proxied_catalog 0 (service_context corp_proxy) r c'); [vm_compute; reflexivity|reflexivity|vm_compute; reflexivity|reflexivity| |exact Hr|exact Hu].
  left. vm_compute. reflexivity.
Defined.
(** A placeholder of the environment is stored as what it stood for. *)
Definition repo_env : environment := fun key => if key == "REPO" then Some "/srv/repo" else None.
Definition placed_catalog : ContextCatalog :=
  {| Contexts := [{| ctx_Name := "dev"; ctx_Repository := {| repo_Git := None; repo_Filesystem := Some {| fs_BaseDir := "${REPO}" |} |}; ctx_ManagedService := None;
       ctx_SecretStore := None; ctx_Metadata := {| meta_BaseDir := ""; meta_Bundle := ""; meta_BundleFile := ""; meta_Proxy := None |};
       ctx_Preferences := ∅; ctx_Credentials := ∅ |}]; CurrentContext := "dev"; DefaultEditor := ""; Credentials := [] |}.
Example placeholder_is_stored_expanded :
  match resolve_in repo_env current_one placed_catalog with
  | Ok r => ContextRepositoryBaseDir <$> match update_in repo_env (normalizeConfig r) placed_catalog with Ok c => Contexts c | Err _ => [] end
  | Err _ => []
  end = ["/srv/repo"].
Proof. vm_compute. reflexivity. Qed.
Lemma resolved_context_complete_witness : exists r,
  resolve_in ops_env {| sel_Name := ""; sel_Overrides := {[ "managedService.http.url" := "https://other" ]} |} ops_catalog = Ok r
  /\ credential_places r = [(Some {| ref_Name := "ops" |}, LiteralCredential "root", {| cred_Value := "s3cret"; cred_Prompt := None |})]
  /\ exists index, validateCredentials (Credentials (ExpandExactEnvPlaceholders ops_env ops_catalog)) = Ok index /\ Forall (filled_from index) (credential_places r).
Proof.
  assert (match resolve_in ops_env {| sel_Name := ""; sel_Overrides := {[ "managedService.http.url" := "https://other" ]} |} ops_catalog with
    | Ok r => credential_places r = [(Some {| ref_Name := "ops" |}, LiteralCredential "root", {| cred_Value := "s3cret"; cred_Prompt := None |})] | Err _ => False end) as Hp
    by (vm_compute; reflexivity).
  destruct (resolve_in _ _ _) as [r|err] eqn:Hr; [|contradiction]. exists r. split; [reflexivity|]. split; [exact Hp|].
  apply (resolved_context_complete ops_env {| sel_Name := ""; sel_Overrides := {[ "managedService.http.url" := "https://other" ]} |} ops_catalog r Hr).
Defined.
End at_work.
