(* ===== verification/ContextCatalogFacts.v ===== *)
(** * The catalog of contexts, proved

    What loads: a valid catalog. The operations of the service change it as a map of contexts
    with a current one, and what deleting, renaming and selecting save loads again as just
    that. What saves is checked with the placeholders of the environment expanded, what loads
    without: an example of a catalog that saves and no longer loads. *)
From S2P Require Import Prelude GoText GoTextFacts Faults Paths GoDisk DiskLaws Services ActionFacts Throttle ContextConfig PromptAuth ProxyConfig ContextRules ContextCatalog ContextFacts.
#[local] Arguments trim_space : simpl never.

Lemma NoDup_middle {A} (a : list A) x b : NoDup (a ++ x :: b) -> NoDup (a ++ b).
Proof.
  rewrite !NoDup_app, NoDup_cons. intros (Ha & Hdis & _ & Hb). split_and!; [done| |done]. intros y Hy Hin. apply (Hdis y Hy). by right.
Qed.
Lemma NoDup_replace {A} (a : list A) x y b : NoDup (a ++ x :: b) -> y ∉ a ++ x :: b -> NoDup (a ++ y :: b).
Proof.
  intros Hnd Hy. assert (y ∉ a /\ y ∉ b) as [Hya Hyb] by (split; intros Hin; apply Hy, elem_of_app; [by left|right; by right]).
  rewrite NoDup_app, NoDup_cons in *. destruct Hnd as (Ha & Hdis & _ & Hb). split_and!; [done| |done|done].
  intros z Hz [->|Hin]%elem_of_cons; [done|]. apply (Hdis z Hz). by right.
Qed.

(** ** Valid catalogs *)
Section valid.
Context `{UnicodeTables, NetUrl}.
Lemma need_Ok ok message u : need ok message = Ok u <-> ok = true.
Proof. destruct u, ok; cbn; naive_solver. Qed.
Lemma nonempty_true s : nonempty s = true <-> s <> "".
Proof. unfold nonempty. case_bool_decide; naive_solver. Qed.
Definition valid_context (index : gmap string Credential) (cfg : Context) : Prop := check_config (normalizeConfig cfg) index true = Ok tt.
Lemma valid_named index cfg : valid_context index cfg -> ctx_Name cfg <> "".
Proof. unfold valid_context, check_config. intros ([] & Hn%need_Ok & _)%bind_Ok. by apply nonempty_true in Hn. Qed.
Lemma validate_contexts_Ok index items : forall seen r, validate_contexts index items seen = Ok r <->
  Forall (valid_context index) items /\ NoDup (ctx_Name <$> items) /\ (forall item, item ∈ items -> ctx_Name item ∉ seen)
  /\ r = (normalize_parts <$> items, list_to_set (ctx_Name <$> items) ∪ seen).
Proof.
  induction items as [|item items IH]; intros seen r; cbn [validate_contexts].
  { split; [intros [= <-]|intros (_ & _ & _ & ->)]; cbn; [split_and!; try constructor; [by intros ? ?%not_elem_of_nil|]|]; by rewrite union_empty_l_L. }
  rewrite bind_Ok. setoid_rewrite need_Ok. cbn [fmap list_fmap]. rewrite Forall_cons, NoDup_cons. split.
  - intros ([] & Hn & Hr). apply bind_Ok in Hr as ([] & Hs%need_Ok & Hr). apply bind_Ok in Hr as (item' & Hv & Hr). apply bind_Ok in Hv as ([] & Hv & [= <-]).
    apply bind_Ok in Hr as (rest & Hr & [= <-]). apply IH in Hr as (Hall & Hnd & Hno & ->). apply negb_true_iff, bool_decide_eq_false in Hs. cbn in Hno |- *.
    split_and!; try done.
    + intros Hin. apply list_elem_of_fmap in Hin as (x & E & Hx). apply (Hno x Hx). rewrite <-E. set_solver.
    + intros x [->|Hx]%elem_of_cons; [done|]. specialize (Hno x Hx). set_solver.
    + f_equal. set_solver.
  - intros ([Hv Hall] & [Hni Hnd] & Hno & ->). exists tt. split; [apply nonempty_true; by eapply valid_named|].
    apply bind_Ok. exists tt. split; [apply need_Ok, negb_true_iff, bool_decide_eq_false, Hno; by left|].
    apply bind_Ok. exists (normalize_parts item). split; [apply bind_Ok; by exists tt|]. apply bind_Ok.
    exists (normalize_parts <$> items, list_to_set (ctx_Name <$> items) ∪ ({[ctx_Name item]} ∪ seen)). split; [|cbn; f_equal; f_equal; set_solver].
    apply IH. split_and!; try done. intros x Hx. cbn. specialize (Hno x ltac:(by right)). intros [E%elem_of_singleton|?]%elem_of_union; [|done].
    apply Hni. rewrite <-E. apply list_elem_of_fmap. by exists x.
Qed.
Definition valid_catalog (c : ContextCatalog) : Prop := exists index, validateCredentials (Credentials c) = Ok index /\
  Forall (valid_context index) (Contexts c) /\ NoDup (ctx_Name <$> Contexts c) /\
  (if bool_decide (Contexts c = []) then CurrentContext c = "" else CurrentContext c ∈ ctx_Name <$> Contexts c).
Lemma validateCatalog_Ok c c' : validateCatalog c = Ok c' <-> valid_catalog c /\ c' = with_contexts c (normalize_parts <$> Contexts c).
Proof.
  unfold validateCatalog, valid_catalog. rewrite bind_Ok. destruct c as [items current editor credentials]; cbn -[validate_contexts]. split.
  - intros (index & Hi & Hr). destruct items as [|item items].
    + apply bind_Ok in Hr as ([] & Hc%need_Ok & [= <-]). apply bool_decide_eq_true in Hc. split; [|done]. exists index. split_and!; [done|constructor|constructor|done].
    + apply bind_Ok in Hr as (r & Hv & Hr). apply validate_contexts_Ok in Hv as (Hall & Hnd & _ & ->).
      apply bind_Ok in Hr as ([] & _ & Hr). apply bind_Ok in Hr as ([] & Hc%need_Ok & [= <-]). split; [|done].
      exists index. apply bool_decide_eq_true in Hc. split_and!; [done..|]. cbn in *. set_solver.
  - intros [(index & Hi & Hall & Hnd & Hc) ->]. exists index. split; [done|]. destruct items as [|item items].
    + cbn in Hc. subst. done.
    + apply bind_Ok. eexists. split; [by apply validate_contexts_Ok; split_and!; [..|intros x _; apply not_elem_of_empty|]|].
      rewrite bool_decide_false in Hc by done. apply bind_Ok. exists tt. split.
      * apply need_Ok, nonempty_true. apply list_elem_of_fmap in Hc as (x & -> & Hx). rewrite Forall_forall in Hall. by eapply valid_named, Hall.
      * apply bind_Ok. exists tt. split; [|done]. apply need_Ok, bool_decide_eq_true. cbn in *. set_solver.
Qed.

(** ** What does not matter to validity *)
Lemma valid_renamed index cfg name : name <> "" -> valid_context index cfg -> valid_context index (rename_context cfg name).
Proof.
  unfold valid_context, check_config. intros Hn ([] & _ & Hr)%bind_Ok. apply bind_Ok. exists tt. split; [by apply need_Ok, nonempty_true|]. exact Hr.
Qed.
Lemma metadata_without_dir m p : validateMetadata {| meta_BaseDir := meta_BaseDir m; meta_Bundle := meta_Bundle m; meta_BundleFile := meta_BundleFile m; meta_Proxy := p |} = Ok tt ->
  validateMetadata {| meta_BaseDir := ""; meta_Bundle := meta_Bundle m; meta_BundleFile := meta_BundleFile m; meta_Proxy := p |} = Ok tt.
Proof.
  unfold validateMetadata. cbn [meta_BaseDir meta_Bundle meta_BundleFile meta_Proxy]. intros ([] & Hc%need_Ok & Hp)%bind_Ok. apply bind_Ok. exists tt. split; [|done].
  apply need_Ok. change (nonempty (trim_space "")) with false. unfold countSet in *.
  by destruct (nonempty (trim_space (meta_BaseDir m))), (nonempty (trim_space (meta_Bundle m))), (nonempty (trim_space (meta_BundleFile m))).
Qed.
Lemma valid_compacted index cfg : valid_context index cfg -> valid_context index (CompactContext cfg).
Proof.
  intros Hv. assert (valid_context index (with_base_dir cfg "")) as Hb.
  { unfold valid_context, check_config in *. repeat (apply bind_Ok in Hv as ([] & Hi & Hv); apply bind_Ok; exists tt; split; [exact Hi|]; clear Hi).
    by apply metadata_without_dir in Hv. }
  unfold CompactContext. destruct (_ || _); [done|]. by destruct (metadataUsesDefaultBaseDir cfg).
Qed.
Lemma valid_parts index cfg : valid_context index cfg -> valid_context index (normalize_parts cfg).
Proof. unfold valid_context. by rewrite normalize_after_parts. Qed.
Lemma repository_dir_parts cfg : ContextRepositoryBaseDir (normalize_parts cfg) = ContextRepositoryBaseDir cfg.
Proof. destruct cfg as [name [[g|] fs] service store md prefs creds]; done. Qed.
Lemma compact_parts cfg : normalize_parts (CompactContext cfg) = CompactContext (normalize_parts cfg).
Proof.
  unfold CompactContext, metadataUsesDefaultBaseDir. rewrite repository_dir_parts. change (ctx_Metadata (normalize_parts cfg)) with (ctx_Metadata cfg).
  destruct (_ || _); [done|]. by destruct (_ && _).
Qed.
Lemma compact_name cfg : ctx_Name (CompactContext cfg) = ctx_Name cfg.
Proof. unfold CompactContext. destruct (_ || _); [done|]. by destruct (metadataUsesDefaultBaseDir cfg). Qed.
(** A catalog in normal form is what its loading would give. *)
Definition loaded_form (c : ContextCatalog) : Prop := valid_catalog c /\ normalize_parts <$> Contexts c = Contexts c.
Lemma loaded_form_ok c c' : validateCatalog c = Ok c' -> loaded_form c'.
Proof.
  intros [Hv ->]%validateCatalog_Ok. split; [|cbn; rewrite <-list_fmap_compose; apply list_fmap_ext; intros; apply normalize_parts_idemp].
  destruct Hv as (index & Hi & Hall & Hnd & Hc). exists index. cbn. rewrite <-list_fmap_compose. split_and!; [done| |done|].
  - apply Forall_fmap. eapply Forall_impl; [exact Hall|]. intros x. apply valid_parts.
  - by destruct (Contexts c).
Qed.
Lemma loaded_again c : loaded_form c -> validateCatalog c = Ok c.
Proof. intros [Hv Hn]. apply validateCatalog_Ok. split; [done|]. rewrite Hn. by destruct c. Qed.
Lemma compact_loaded c : loaded_form c -> loaded_form (compactContextCatalogForPersistence c).
Proof.
  intros [(index & Hi & Hall & Hnd & Hc) Hn]. split.
  - exists index. cbn. assert (ctx_Name <$> (compactConfigForPersistence <$> Contexts c) = ctx_Name <$> Contexts c) as E
      by (rewrite <-list_fmap_compose; apply list_fmap_ext; intros; apply compact_name).
    rewrite E. split_and!; [done| |done|by destruct (Contexts c)]. apply Forall_fmap. eapply Forall_impl; [exact Hall|]. intros x. apply valid_compacted.
  - cbn. rewrite <-Hn at 2. rewrite <-!list_fmap_compose. apply list_fmap_ext. intros i x Hx. cbn. unfold compactConfigForPersistence. by rewrite compact_parts.
Qed.

(** ** The edits, on a map of contexts *)
Inductive catalog_edit :=
| CreateContext (cfg : Context) | UpdateContext (cfg : Context) | DeleteContext (name : string) | RenameContext (from to : string) | SelectContext (name : string).
(** The edit of a loaded catalog; a new context is in normal form by then. *)
Definition edit_in (env : environment) (e : catalog_edit) (c : ContextCatalog) : result error ContextCatalog :=
  match e with
  | CreateContext cfg => create_in cfg c
  | UpdateContext cfg => update_in env cfg c
  | DeleteContext name => delete_in name c
  | RenameContext from to => rename_in from to c
  | SelectContext name => set_current_in name c
  end.
(** What a catalog is to its users: contexts by name, and the name of the current one. *)
Definition by_name (l : list Context) : gmap string Context := list_to_map ((fun cfg => (ctx_Name cfg, cfg)) <$> l).
Definition catalog_view (c : ContextCatalog) : gmap string Context * string := (by_name (Contexts c), CurrentContext c).
Inductive edit_spec : catalog_edit -> gmap string Context * string -> gmap string Context * string -> Prop :=
| spec_create cfg m current : m !! ctx_Name cfg = None ->
    edit_spec (CreateContext cfg) (m, current) (<[ctx_Name cfg := cfg]> m, if current == "" then ctx_Name cfg else current)
| spec_update cfg old m current : m !! ctx_Name cfg = Some old ->
    edit_spec (UpdateContext cfg) (m, current) (<[ctx_Name cfg := preserveProxyOmissions cfg (normalizeConfig old)]> m, current)
| spec_delete_other name m current : is_Some (m !! name) -> current <> name -> edit_spec (DeleteContext name) (m, current) (delete name m, current)
| spec_delete_current name m next : is_Some (m !! name) -> is_Some (delete name m !! next) -> edit_spec (DeleteContext name) (m, name) (delete name m, next)
| spec_delete_last name m : is_Some (m !! name) -> delete name m = ∅ -> edit_spec (DeleteContext name) (m, name) (∅, "")
| spec_rename from to cfg m current : m !! from = Some cfg -> m !! to = None ->
    edit_spec (RenameContext from to) (m, current) (<[to := rename_context cfg to]> (delete from m), if current == from then to else current)
| spec_select name m current : is_Some (m !! name) -> edit_spec (SelectContext name) (m, current) (m, name).

Lemma find_index_spec l name : match findContextIndex l name with
  | Some idx => exists l1 cfg l2, l = l1 ++ cfg :: l2 /\ length l1 = idx /\ ctx_Name cfg = name /\ name ∉ ctx_Name <$> l1
  | None => name ∉ ctx_Name <$> l
  end.
Proof.
  induction l as [|x l IH]; cbn; [apply not_elem_of_nil|]. case_bool_decide as E.
  - exists [], x, l. split_and!; [done..|apply not_elem_of_nil].
  - destruct (findContextIndex l name) as [i|]; cbn.
    + destruct IH as (l1 & cfg & l2 & -> & <- & Hn & Hni). exists (x :: l1), cfg, l2. split_and!; [done..|]. cbn. rewrite not_elem_of_cons. naive_solver.
    + rewrite not_elem_of_cons. naive_solver.
Qed.
Lemma by_name_None l name : by_name l !! name = None <-> name ∉ ctx_Name <$> l.
Proof.
  unfold by_name. rewrite <-not_elem_of_list_to_map, <-list_fmap_compose. done.
Qed.
Lemma by_name_app l k : by_name (l ++ k) = by_name l ∪ by_name k.
Proof. unfold by_name. by rewrite fmap_app, list_to_map_app. Qed.
Lemma by_name_cons x l : by_name (x :: l) = <[ctx_Name x := x]> (by_name l).
Proof. done. Qed.
(** A context at its place in a list without double names. *)
Lemma by_name_middle l1 cfg l2 : NoDup (ctx_Name <$> l1 ++ cfg :: l2) ->
  by_name (l1 ++ cfg :: l2) = <[ctx_Name cfg := cfg]> (by_name (l1 ++ l2)) /\ by_name (l1 ++ l2) !! ctx_Name cfg = None.
Proof.
  rewrite fmap_app, fmap_cons. intros (Hnd1 & Hdis & [Hni Hnd2]%NoDup_cons)%NoDup_app. assert (ctx_Name cfg ∉ ctx_Name <$> l1) as Hn1 by (intros Hin; apply (Hdis _ Hin); by left).
  rewrite !by_name_app, by_name_cons. split.
  - rewrite insert_union_r; [done|]. by apply by_name_None.
  - apply lookup_union_None. by rewrite !by_name_None.
Qed.
Lemma find_context_inv c name idx cfg : find_context c name = Ok (idx, cfg) ->
  exists l1 l2, Contexts c = l1 ++ cfg :: l2 /\ length l1 = idx /\ ctx_Name cfg = name.
Proof.
  unfold find_context. pose proof (find_index_spec (Contexts c) name) as Hf. destruct (findContextIndex (Contexts c) name) as [i|]; [|done].
  destruct Hf as (l1 & x & l2 & E & <- & Hn & _). cbn. rewrite E, list_lookup_middle by done. cbn. intros [= <- <-]. by exists l1, l2.
Qed.
Lemma find_context_Some c name : is_Some (by_name (Contexts c) !! name) -> exists idx cfg, find_context c name = Ok (idx, cfg).
Proof.
  intros [x Hx]. unfold find_context. pose proof (find_index_spec (Contexts c) name) as Hf. destruct (findContextIndex (Contexts c) name) as [i|].
  - destruct Hf as (l1 & y & l2 & E & <- & Hn & _). cbn. rewrite E, list_lookup_middle by done. by eexists _, _.
  - apply by_name_None in Hf. congruence.
Qed.
Lemma is_set_find l name : is_set (findContextIndex l name) = false <-> by_name l !! name = None.
Proof.
  rewrite by_name_None. pose proof (find_index_spec l name) as Hf. destruct (findContextIndex l name) as [i|]; [|done]. split; [done|].
  destruct Hf as (l1 & x & l2 & -> & _ & <- & _). intros Hni. exfalso. apply Hni. rewrite fmap_app, fmap_cons. set_solver.
Qed.
Lemma merged_contexts c credentials c' : mergeContextCredentials c credentials = Ok c' -> Contexts c' = Contexts c /\ CurrentContext c' = CurrentContext c.
Proof.
  unfold mergeContextCredentials. case_bool_decide; [by intros [= <-]|]. intros (index & _ & (st & _ & [= <-])%bind_Ok)%bind_Ok. done.
Qed.
Lemma preserve_name cfg baseline : ctx_Name (preserveProxyOmissions cfg baseline) = ctx_Name cfg.
Proof.
  unfold preserveProxyOmissions. destruct (filter _ _) as [|t l]; [done|]. generalize (buildProxyTargets cfg), (target_proxy cfg t). intros ts canonical. revert cfg.
  induction ts as [|t' ts IH]; intros cfg; [done|]. cbn [foldl]. rewrite IH. unfold omit_target. destruct (_ || _); [done|]. destruct (_ || _); [done|].
  destruct (Equal _ _); [|done]. apply set_target_name.
Qed.
Lemma delete_refines name c c' : NoDup (ctx_Name <$> Contexts c) -> delete_in name c = Ok c' -> edit_spec (DeleteContext name) (catalog_view c) (catalog_view c').
Proof.
  intros Hnd Hd. unfold delete_in in Hd. apply bind_Ok in Hd as ([idx cfg] & Hf & Hd). apply find_context_inv in Hf as (l1 & l2 & E & <- & Hn).
  rewrite E in Hnd. destruct (by_name_middle l1 cfg l2 Hnd) as [Em Hm].
  assert (take (length l1) (Contexts c) ++ drop (S (length l1)) (Contexts c) = l1 ++ l2) as Erest.
  { rewrite E, take_app_length. f_equal. rewrite cons_middle, app_assoc, drop_app_length'; [done|]. rewrite length_app; cbn; lia. }
  rewrite Erest in Hd. cbn [Contexts CurrentContext with_contexts with_current] in Hd. unfold catalog_view. rewrite E, Em, Hn in *.
  assert (delete name (<[name:=cfg]> (by_name (l1 ++ l2))) = by_name (l1 ++ l2)) as Edel by (by rewrite delete_insert_id).
  destruct (decide (CurrentContext c = name)) as [Ec|Ec].
  - rewrite bool_decide_true in Hd by done. injection Hd as <-. cbn [Contexts CurrentContext with_contexts with_current]. rewrite Ec.
    destruct (l1 ++ l2) as [|first rest].
    + apply (spec_delete_last name); [rewrite lookup_insert_eq; by eexists|done].
    + pose proof (spec_delete_current name (<[name:=cfg]> (by_name (first :: rest))) (ctx_Name first)) as Hs. rewrite Edel in Hs.
      apply Hs; [rewrite lookup_insert_eq; by eexists|]. rewrite by_name_cons, lookup_insert_eq. by eexists.
  - rewrite bool_decide_false in Hd by done. injection Hd as <-. cbn.
    pose proof (spec_delete_other name (<[name:=cfg]> (by_name (l1 ++ l2))) (CurrentContext c)) as Hs. rewrite Edel in Hs.
    apply Hs; [rewrite lookup_insert_eq; by eexists|done].
Qed.
Lemma rename_refines from to c c' : NoDup (ctx_Name <$> Contexts c) -> rename_in from to c = Ok c' ->
  edit_spec (RenameContext from to) (catalog_view c) (catalog_view c').
Proof.
  intros Hnd Hd. unfold rename_in in Hd. apply bind_Ok in Hd as ([idx cfg] & Hf & Hd). apply find_context_inv in Hf as (l1 & l2 & E & <- & Hn).
  destruct (is_set (findContextIndex (Contexts c) to)) eqn:Et; [done|]. apply is_set_find in Et. rewrite E in Hnd, Et.
  destruct (by_name_middle l1 cfg l2 Hnd) as [Em Hm].
  assert (NoDup (ctx_Name <$> l1 ++ rename_context cfg to :: l2)) as Hnd'.
  { apply by_name_None in Et. rewrite fmap_app, fmap_cons in Hnd, Et |- *. by eapply NoDup_replace. }
  destruct (by_name_middle l1 (rename_context cfg to) l2 Hnd') as [Em' Hm'].
  assert (edit_spec (RenameContext from to) (by_name (Contexts c), CurrentContext c)
    (by_name (l1 ++ rename_context cfg to :: l2), if CurrentContext c == from then to else CurrentContext c)) as Hspec.
  { rewrite E, Em', Em, Hn. cbn [rename_context ctx_Name]. rewrite Em, Hn in Et. rewrite Hn in Hm.
    pose proof (spec_rename from to cfg (<[from:=cfg]> (by_name (l1 ++ l2))) (CurrentContext c)) as Hs. rewrite delete_insert_id in Hs by done.
    apply Hs; [apply lookup_insert_eq|done]. }
  unfold catalog_view. rewrite E, insert_app_r_alt, Nat.sub_diag in Hd by done. cbn [insert list_insert] in Hd. injection Hd as <-. cbn [CurrentContext with_contexts]. by destruct (CurrentContext c == from).
Qed.
(** [C12] An edit of a catalog without double names is the edit of a map of contexts: a
    creation adds the context and selects the first one, an update replaces it, a deletion
    takes it away and selects another when it was the current one, a renaming moves it and the
    selection with it; and an edit the map allows is never refused, but for the checks of a
    context that comes with it. *)
Theorem catalog_edits_refine env e c : NoDup (ctx_Name <$> Contexts c) ->
  (forall c', edit_in env e c = Ok c' -> edit_spec e (catalog_view c) (catalog_view c')) /\
  (forall st, match e with CreateContext _ | UpdateContext _ => False | _ => edit_spec e (catalog_view c) st end -> is_ok (edit_in env e c) = true).
Proof.
  intros Hnd. split.
  - intros c' He. destruct e as [cfg|cfg|name|from to|name]; cbn [edit_in] in He.
    + unfold create_in in He. destruct (is_set _) eqn:Ef; [done|]. apply is_set_find in Ef. apply bind_Ok in He as (m & [Em Ec]%merged_contexts & He).
      assert (by_name (Contexts c ++ [cfg]) = <[ctx_Name cfg := cfg]> (by_name (Contexts c))) as Eby.
      { rewrite by_name_app, by_name_cons. change (by_name []) with (∅ : gmap string Context). by rewrite <-insert_union_r, map_union_empty. }
      unfold catalog_view. pose proof (spec_create cfg (by_name (Contexts c)) (CurrentContext c) Ef) as Hs. rewrite <-Eby, <-Em, <-Ec in Hs.
      rewrite <-Ec. cbn in He. rewrite Em in *. destruct (CurrentContext m == "") eqn:Ecur; by injection He as <-.
    + unfold update_in in He. apply bind_Ok in He as ([idx old] & Hf & He). apply find_context_inv in Hf as (l1 & l2 & E & <- & Hn).
      apply bind_Ok in He as ([] & _ & He). apply bind_Ok in He as (m & [Em Ec]%merged_contexts & [= <-]). set (new := preserveProxyOmissions cfg _).
      unfold catalog_view. cbn. rewrite Em, Ec, E, insert_app_r_alt, Nat.sub_diag by done. cbn [insert list_insert]. rewrite E in Hnd.
      assert (ctx_Name new = ctx_Name old) as Enew by (unfold new; rewrite preserve_name; congruence).
      assert (NoDup (ctx_Name <$> l1 ++ new :: l2)) as Hnd' by (rewrite fmap_app, fmap_cons in Hnd |- *; by rewrite Enew).
      change (list_to_map _) with (by_name (l1 ++ new :: l2)). destruct (by_name_middle l1 old l2 Hnd) as [-> _], (by_name_middle l1 new l2 Hnd') as [-> _]. rewrite Enew, Hn.
      rewrite <-(insert_insert_eq (by_name (l1 ++ l2)) (ctx_Name cfg) new old). apply spec_update. apply lookup_insert_eq.
    + by apply delete_refines.
    + by apply rename_refines.
    + unfold set_current_in in He. apply bind_Ok in He as ([idx cfg] & Hf & [= <-]). apply find_context_inv in Hf as (l1 & l2 & E & _ & Hn).
      apply spec_select. rewrite E in Hnd |- *. destruct (by_name_middle l1 cfg l2 Hnd) as [-> _]. rewrite Hn, lookup_insert_eq. by eexists.
  - intros st Hs. destruct e as [cfg|cfg|name|from to|name]; [done..| | |]; cbn [edit_in].
    + assert (is_Some (by_name (Contexts c) !! name)) as (idx & cfg & Hf)%find_context_Some by (unfold catalog_view in Hs; inversion Hs; subst; done).
      unfold delete_in. rewrite Hf. done.
    + unfold catalog_view in Hs. inversion Hs as [| | | | |? ? cfg' ? ? Hfrom Hto|]; subst. apply mk_is_Some, find_context_Some in Hfrom as (idx & cfg & Hf).
      unfold rename_in. rewrite Hf. cbn. apply is_set_find in Hto. by rewrite Hto.
    + assert (is_Some (by_name (Contexts c) !! name)) as (idx & cfg & Hf)%find_context_Some by (unfold catalog_view in Hs; inversion Hs; subst; done).
      unfold set_current_in. by rewrite Hf.
Qed.

(** ** Edits keep a catalog loadable *)
Lemma loaded_form_iff c : loaded_form c <-> exists index, validateCredentials (Credentials c) = Ok index /\
  Forall (fun x => valid_context index x /\ normalize_parts x = x) (Contexts c) /\ NoDup (ctx_Name <$> Contexts c) /\
  (if bool_decide (Contexts c = []) then CurrentContext c = "" else CurrentContext c ∈ ctx_Name <$> Contexts c).
Proof.
  assert (normalize_parts <$> Contexts c = Contexts c <-> Forall (fun x => normalize_parts x = x) (Contexts c)) as E.
  { induction (Contexts c) as [|x l IH]; [by split|]. rewrite Forall_cons, <-IH. cbn. split; [by intros [= ? ?]|by intros [-> ->]]. }
  unfold loaded_form, valid_catalog. rewrite E. setoid_rewrite Forall_and. naive_solver.
Qed.
Lemma normal_renamed cfg name : normalize_parts cfg = cfg -> normalize_parts (rename_context cfg name) = rename_context cfg name.
Proof. intros E. change (normalize_parts (rename_context cfg name)) with (rename_context (normalize_parts cfg) name). by rewrite E. Qed.
Lemma deleted_loaded name c c' : loaded_form c -> delete_in name c = Ok c' -> loaded_form c'.
Proof.
  rewrite !loaded_form_iff. intros (index & Hi & Hall & Hnd & Hc) Hd. unfold delete_in in Hd. apply bind_Ok in Hd as ([idx cfg] & Hf & Hd).
  apply find_context_inv in Hf as (l1 & l2 & E & <- & Hn). assert (take (length l1) (Contexts c) ++ drop (S (length l1)) (Contexts c) = l1 ++ l2) as Erest.
  { rewrite E, take_app_length. f_equal. rewrite cons_middle, app_assoc, drop_app_length'; [done|]. rewrite length_app; cbn; lia. }
  rewrite Erest in Hd. cbn [Contexts CurrentContext with_contexts] in Hd. rewrite E in *. rewrite bool_decide_false in Hc by (by destruct l1).
  apply Forall_app in Hall as [Hall1 [_ Hall2]%Forall_cons]. rewrite fmap_app, fmap_cons in Hnd, Hc.
  assert (Forall (fun x => valid_context index x /\ normalize_parts x = x) (l1 ++ l2)) as Hall by (by apply Forall_app).
  assert (NoDup (ctx_Name <$> l1 ++ l2)) as Hnd' by (rewrite fmap_app; by eapply NoDup_middle).
  exists index. case_bool_decide as Ec; injection Hd as <-; cbn [Contexts CurrentContext with_contexts with_current Credentials]; split_and!; try done.
  - destruct (l1 ++ l2) as [|x l]; [done|]. rewrite bool_decide_false by done. cbn. by left.
  - assert (CurrentContext c ∈ ctx_Name <$> l1 ++ l2) as Hin by (rewrite fmap_app; set_solver). rewrite bool_decide_false; [done|].
    intros En. rewrite En in Hin. by apply not_elem_of_nil in Hin.
Qed.
Lemma renamed_loaded from to c c' : to <> "" -> loaded_form c -> rename_in from to c = Ok c' -> loaded_form c'.
Proof.
  rewrite !loaded_form_iff. intros Hto (index & Hi & Hall & Hnd & Hc) Hd. unfold rename_in in Hd. apply bind_Ok in Hd as ([idx cfg] & Hf & Hd).
  apply find_context_inv in Hf as (l1 & l2 & E & <- & Hn). destruct (is_set (findContextIndex (Contexts c) to)) eqn:Et; [done|].
  apply is_set_find, by_name_None in Et. rewrite E in *. rewrite insert_app_r_alt, Nat.sub_diag in Hd by done. cbn [insert list_insert] in Hd.
  injection Hd as <-. rewrite bool_decide_false in Hc by (by destruct l1). apply Forall_app in Hall as [Hall1 [[Hv Hnorm] Hall2]%Forall_cons].
  rewrite fmap_app, fmap_cons in Hnd, Hc, Et. set (new := l1 ++ rename_context cfg to :: l2).
  assert (ctx_Name <$> new = (ctx_Name <$> l1) ++ to :: (ctx_Name <$> l2)) as Enames by (unfold new; by rewrite fmap_app, fmap_cons).
  assert (new <> []) as Hne by (unfold new; by destruct l1).
  assert (Forall (fun x => valid_context index x /\ normalize_parts x = x) new) as Hall.
  { apply Forall_app. split; [done|]. constructor; [|done]. split; [by apply valid_renamed|by apply normal_renamed]. }
  assert (NoDup (ctx_Name <$> new)) as Hnd' by (rewrite Enames; by eapply NoDup_replace).
  exists index. cbn [CurrentContext with_contexts]. case_bool_decide as Ec; cbn [Contexts CurrentContext with_contexts with_current Credentials];
    rewrite bool_decide_false, Enames in * by done; split_and!; try done; set_solver.
Qed.
Lemma selected_loaded name c c' : loaded_form c -> set_current_in name c = Ok c' -> loaded_form c'.
Proof.
  rewrite !loaded_form_iff. intros (index & Hi & Hall & Hnd & Hc) Hd. unfold set_current_in in Hd. apply bind_Ok in Hd as ([idx cfg] & Hf & [= <-]).
  apply find_context_inv in Hf as (l1 & l2 & E & _ & Hn). exists index. cbn. rewrite E in *. rewrite bool_decide_false by (by destruct l1). split_and!; try done.
  rewrite fmap_app, fmap_cons. set_solver.
Qed.
End valid.

(** ** Saved catalogs *)
(** A text of printable ASCII characters; a catalog all of whose texts, with the names of its
    preferences and headers, are. *)
Definition plain_text (s : string) : bool := forallb (fun c => in_range 32 126 (byte_Z c)) (String.list_ascii_of_string s).
Definition context_keys (cfg : Context) : list string :=
  (map_to_list (ctx_Preferences cfg)).*1 ++ from_option (fun h => (map_to_list (server_DefaultHeaders h)).*1) [] (server_of cfg).
Definition plain_catalog (c : ContextCatalog) : Prop :=
  map_text (fun s => if plain_text s then s else "") c = c /\ Forall (fun cfg => Forall (fun key => plain_text key = true) (context_keys cfg)) (Contexts c).
(** What is relied on of YAML: what is written of a catalog of plain texts is what reads back. *)
Class CatalogYAMLLaws `{CatalogYAML} :=
  yaml_reads : forall c data, plain_catalog (written c) -> yaml_Marshal c = Ok data -> yaml_Decode data = Ok (written c).

(** What is not written does not matter to validity. *)
Section validity.
Context `{UnicodeTables, NetUrl}.
Section index.
Context (index index' : gmap string Credential) (same_names : forall name, is_set (index' !! name) = is_set (index !! name)) (strict : bool).
Lemma ref_index field ref : validateCredentialRef index' strict field ref = validateCredentialRef index strict field ref.
Proof. unfold validateCredentialRef. by rewrite same_names. Qed.
Lemma proxy_index field p : validateProxy index' strict field p = validateProxy index strict field p.
Proof. destruct p as [[h s n [[[b|]]|]]|]; try done. unfold validateProxy, validateProxyAuth. cbn [proxy_Auth proxyauth_Basic]. by rewrite ref_index. Qed.
Lemma remote_written r : validate_remote index' strict (normalize_remote (written_remote r)) = validate_remote index strict (normalize_remote r).
Proof.
  destruct r as [url branch provider sync auth tls proxy]. unfold validate_remote, normalize_remote, written_remote. cbn [with_remote_proxy with_remote_auth remote_URL remote_Auth remote_Proxy].
  rewrite normalize_written_proxy, proxy_index. destruct auth as [[[b|] ssh key]|]; cbn; by rewrite ?ref_index.
Qed.
Lemma throttling_written t : validateManagedServiceRequestThrottling (written_throttling <$> t) = validateManagedServiceRequestThrottling t.
Proof. destruct t as [[max queue [s| | |] burst scope]|]; [|done..]. by destruct s. Qed.
Lemma server_written h : validate_server index' strict (normalize_server (written_server h)) = validate_server index strict (normalize_server h).
Proof.
  destruct h as [url check openapi headers auth proxy tls throttling]. unfold validate_server, validateManagedServiceProxy, normalize_server, written_server.
  cbn [with_server server_BaseURL server_HealthCheck server_Auth server_Proxy server_Throttling].
  rewrite normalize_written_proxy, proxy_index, throttling_written. destruct auth as [[oauth [b|] custom]|]; cbn; by rewrite ?ref_index.
Qed.
Lemma vault_written v : validate_vault index' strict (normalize_vault (written_vault v)) = validate_vault index strict (normalize_vault v).
Proof.
  destruct v as [address mount prefix version auth tls proxy]. unfold validate_vault, normalize_vault, written_vault. cbn [with_vault vault_Address vault_Auth vault_Proxy].
  rewrite normalize_written_proxy, proxy_index. destruct auth as [[token [p|] approle]|]; cbn; by rewrite ?ref_index.
Qed.
Lemma check_written cfg : check_config (normalizeConfig (written_context cfg)) index' strict = check_config (normalizeConfig cfg) index strict.
Proof.
  unfold check_config, validateMetadata. set (n := normalizeConfig cfg). set (w := normalizeConfig (written_context cfg)).
  assert (meta_Proxy (ctx_Metadata w) = meta_Proxy (ctx_Metadata n)) as -> by apply normalize_written_proxy.
  assert (validateRepository index' strict (ctx_Repository w) = validateRepository index strict (ctx_Repository n)) as ->
    by (destruct cfg as [name [[[loc [r|]]|] [fs|]] service store md prefs creds]; try done; unfold validateRepository; cbn; by rewrite remote_written).
  assert (validateManagedService index' strict (ctx_ManagedService w) = validateManagedService index strict (ctx_ManagedService n)) as ->
    by (destruct cfg as [name repository [[[h|]]|] store md prefs creds]; try done; unfold validateManagedService; cbn; by rewrite server_written).
  assert (validateSecretStore index' strict (ctx_SecretStore w) = validateSecretStore index strict (ctx_SecretStore n)) as ->
    by (destruct cfg as [name repository service [[[f|] [v|]]|] md prefs creds]; try done; unfold validateSecretStore; cbn; by rewrite vault_written).
  assert (is_set (repo_Git (ctx_Repository w)) || is_set (repo_Filesystem (ctx_Repository w)) || is_set (ctx_ManagedService w)
    = is_set (repo_Git (ctx_Repository n)) || is_set (repo_Filesystem (ctx_Repository n)) || is_set (ctx_ManagedService n)) as ->
    by (by destruct cfg as [name [[[loc [r|]]|] [fs|]] [[[h|]]|] store md prefs creds]).
  done.
Qed.
End index.
Lemma value_written field v : validateCredentialValue field (written_value v) = validateCredentialValue field v.
Proof. by destruct v as [text [p|]]. Qed.
Lemma credentials_written items : forall idx index index', credentials_loop idx items index = Ok index' ->
  credentials_loop idx (written_credential <$> items) (written_credential <$> index) = Ok (written_credential <$> index').
Proof.
  induction items as [|item items IH]; intros idx index index'; [by intros [= <-]|]. cbn [credentials_loop fmap list_fmap].
  change (cred_Name (written_credential item)) with (cred_Name item). case_bool_decide; [done|]. rewrite lookup_fmap. destruct (index !! _); [done|].
  cbn [is_set fmap option_fmap option_map]. change (cred_Username (written_credential item)) with (written_value (cred_Username item)).
  change (cred_Password (written_credential item)) with (written_value (cred_Password item)). rewrite !value_written.
  destruct (validateCredentialValue _ (cred_Username item)); [|done]. destruct (validateCredentialValue _ (cred_Password item)); [|done].
  intros Hl. apply IH in Hl. by rewrite fmap_insert in Hl.
Qed.
Lemma catalog_written c c' : validateCatalog c = Ok c' -> validateCatalog (written c) = Ok (written c').
Proof.
  intros [(index & Hi & Hall & Hnd & Hc) ->]%validateCatalog_Ok. apply validateCatalog_Ok.
  assert (ctx_Name <$> (written_context <$> Contexts c) = ctx_Name <$> Contexts c) as Enames by (by rewrite <-list_fmap_compose). split.
  - exists (written_credential <$> index). cbn [written Contexts CurrentContext Credentials]. rewrite Enames. split_and!; [|..|done|].
    + apply credentials_written in Hi. by rewrite fmap_empty in Hi.
    + apply Forall_fmap. eapply Forall_impl; [exact Hall|]. intros cfg Hv. unfold valid_context in *. cbn. rewrite (check_written index); [done|].
      intros n. rewrite lookup_fmap. by destruct (index !! n).
    + by destruct (Contexts c).
  - unfold written, with_contexts. cbn. f_equal. rewrite <-!list_fmap_compose. apply list_fmap_ext. intros i cfg _. symmetry. apply written_parts.
Qed.
End validity.
Section service.
Context `{UnicodeTables, NetUrl, CatalogYAML} `{!CatalogYAMLLaws} {D : Type} `{DiskLaws D} `{!DiskModes D, !ModeLaws D}.
Context (env : environment) (homeDir : result error string) (path : string) (dir : list string) (name : string).
Hypothesis catalog_at : catalog_path env homeDir path = Ok (path_of (dir ++ [name])).
Hypothesis clean_path : Forall clean_segment (dir ++ [name]).
Abbreviation load := (loadCatalog env homeDir path (D := D)).
Abbreviation save := (saveCatalog env homeDir path (D := D)).

Lemma private_ok (d d' : D) : disk_ok d -> ensureUserOnlyReadWriteFile (path_of (dir ++ [name])) d = Some (Ok tt, d') ->
  disk_ok d' /\ view d' = view d /\ (view d !! path_of (dir ++ [name]) <> None -> Perm d' (path_of (dir ++ [name])) = Ok user_only).
Proof.
  intros Hd. unfold ensureUserOnlyReadWriteFile. destruct (Perm d _) as [mode|err] eqn:Ep.
  - case_bool_decide as Em.
    + intros [= <-]. subst. by split_and!.
    + pose proof (does_Chmod d (dir ++ [name]) user_only Hd clean_path) as Hc. destruct (Chmod _ _ d) as [[e|] d1]; [done|]. intros [= <-].
      destruct Hc as (Hd1 & Hv & Hp). split_and!; [done..|]. intros _. by apply Hp.
  - destruct (is_not_exist err) eqn:En; [|done]. intros [= <-]. split_and!; [done..|]. intros Hno. exfalso. by eapply Hno, does_Perm.
Qed.
Lemma save_then_load (c : ContextCatalog) (d d' : D) : disk_ok d -> plain_catalog (written (compactContextCatalogForPersistence c)) ->
  save c d = Some (Ok tt, d') ->
  disk_ok d' /\ Perm d' (path_of (dir ++ [name])) = Ok user_only /\ load d' = Some (lift (validateCatalog (written (compactContextCatalogForPersistence c))), d').
Proof.
  intros Hd Hplain Hs. unfold saveCatalog in Hs. apply bind_inv in Hs as ([] & d0 & Hv & Hs). apply of_result_inv in Hv as [_ ->].
  apply bind_inv in Hs as (p & d1 & Hp & Hs). apply of_result_inv in Hp as [Hp ->]. rewrite catalog_at in Hp. injection Hp as <-.
  apply bind_inv in Hs as (data & d2 & He & Hs). apply of_result_inv in He as [He ->]. apply map_err_Ok in He.
  apply bind_inv in Hs as ([] & d3 & Hw & Hs). destruct (write_private _ _ _ _ d) as [[e|] d4] eqn:Ew; [done|]. injection Hw as <-.
  apply write_private_ok in Ew as [Hd4 Hread]; [|done..].
  assert (view d4 !! path_of (dir ++ [name]) <> None) as Hthere.
  { pose proof (reads_file d4 (dir ++ [name]) Hd4 clean_path) as Ha. rewrite Hread in Ha. unfold tree_ReadFile in Ha. rewrite path_clean_path_of in Ha by done.
    destruct (is_dir _ _); [done|]. by destruct (view d4 !! path_of (dir ++ [name])). }
  apply private_ok in Hs as (Hd' & Hview & Hperm); [|done]. specialize (Hperm Hthere). split_and!; [done..|].
  assert (ReadFile d' (path_of (dir ++ [name])) = Ok data) as Hread'.
  { pose proof (reads_file d4 (dir ++ [name]) Hd4 clean_path) as Ha. pose proof (reads_file d' (dir ++ [name]) Hd' clean_path) as Hb.
    rewrite Hread in Ha. rewrite Hview in Hb. destruct (tree_ReadFile _ _); [|done]. cbn in Ha. subst. by destruct (ReadFile d' _); cbn in Hb; [subst|]. }
  unfold loadCatalog. erewrite bind_run by (by apply of_result_run). erewrite bind_run by done. unfold decodeCatalogFile, decodeCatalog. rewrite Hread'.
  assert (ensureUserOnlyReadWriteFile (path_of (dir ++ [name])) d' = Some (Ok tt, d')) as Hensure
    by (unfold ensureUserOnlyReadWriteFile; rewrite Hperm; by rewrite bool_decide_true).
  rewrite (yaml_reads _ _ Hplain He). cbn [map_err]. by rewrite (bind_run _ _ _ _ _ Hensure).
Qed.
Lemma load_inv (d d' : D) c : load d = Some (Ok c, d') -> disk_ok d -> disk_ok d' /\ (c = empty_catalog \/ loaded_form c).
Proof.
  intros Hl Hd. unfold loadCatalog in Hl. apply bind_inv in Hl as (p & d1 & Hp & Hl). apply of_result_inv in Hp as [Hp ->]. rewrite catalog_at in Hp. injection Hp as <-.
  apply bind_inv in Hl as (x & d1 & [= <- <-] & Hl). destruct (decodeCatalogFile _ d) as [c0|[[] err]]; [|injection Hl as <- <-; by split; [|left]|done].
  apply bind_inv in Hl as ([] & d2 & He & Hl). apply of_result_inv in Hl as [Hv ->]. apply private_ok in He as (Hd2 & _); [|done].
  split; [done|]. right. by eapply loaded_form_ok.
Qed.

Definition run_edit (e : catalog_edit) : action D unit :=
  match e with
  | CreateContext cfg => Create env homeDir path cfg
  | UpdateContext cfg => Update env homeDir path cfg
  | DeleteContext name => Delete env homeDir path name
  | RenameContext from to => Rename env homeDir path from to
  | SelectContext name => SetCurrent env homeDir path name
  end.
(** The edit a run makes: a new context is put in normal form first. *)
Definition prepared (e : catalog_edit) : catalog_edit :=
  match e with CreateContext cfg => CreateContext (normalizeConfig cfg) | UpdateContext cfg => UpdateContext (normalizeConfig cfg) | e => e end.
Definition brings_context (e : catalog_edit) : bool := match e with CreateContext _ | UpdateContext _ => true | _ => false end.
Definition normal_catalog (c : ContextCatalog) : ContextCatalog := with_contexts c (normalize_parts <$> Contexts c).
Lemma run_edit_inv e (d d' : D) : run_edit e d = Some (Ok tt, d') -> (match e with RenameContext _ to => to <> "" | _ => True end) /\
  exists c c' d1, load d = Some (Ok c, d1) /\ edit_in env (prepared e) c = Ok c' /\ save c' d1 = Some (Ok tt, d').
Proof.
  assert (forall f, edit env homeDir path f d = Some (Ok tt, d') -> exists c c' d1, load d = Some (Ok c, d1) /\ f c = Ok c' /\ save c' d1 = Some (Ok tt, d')) as Hedit.
  { intros f He. unfold edit in He. apply bind_inv in He as (c & d1 & Hl & He). apply bind_inv in He as (c' & d2 & Hc & He). apply of_result_inv in Hc as [Hc ->].
    by exists c, c', d1. }
  destruct e as [cfg|cfg|n|from to|n]; cbn [run_edit prepared edit_in]; intros He.
  - unfold Create in He. apply bind_inv in He as ([] & d1 & Hv & He). apply of_result_inv in Hv as [_ ->]. by split; [|apply Hedit].
  - by split; [|apply Hedit].
  - by split; [|apply Hedit].
  - unfold Rename in He. case_bool_decide as Et; [done|]. by split; [|apply Hedit].
  - by split; [|apply Hedit].
Qed.
(** [C13] A successful operation of the service saves the edit of the catalog it loaded, and
    what loads afterwards, from a file of the user alone, is that catalog, compacted, as far
    as it is written (without the user names and passwords outside of the list of credentials
    of the catalog, the text of a prompted value and the scope of a throttle): for a deletion,
    a renaming and a selection, and for a context that was created or updated when the saved
    catalog has no placeholders of the environment; all when the texts written are of printable
    ASCII characters, for which YAML is relied on to read back what it wrote. *)
Theorem saved_edit_loads e (d d' : D) : disk_ok d -> run_edit e d = Some (Ok tt, d') ->
  exists c c' d1, load d = Some (Ok c, d1) /\ edit_in env (prepared e) c = Ok c' /\
  let saved := compactContextCatalogForPersistence c' in
  (plain_catalog (written saved) -> brings_context e = false \/ ExpandExactEnvPlaceholders env saved = saved ->
   disk_ok d' /\ load d' = Some (Ok (written (normal_catalog saved)), d') /\ Perm d' (path_of (dir ++ [name])) = Ok user_only /\
   (brings_context e = false -> normal_catalog saved = saved)).
Proof.
  intros Hd (Hto & c & c' & d1 & Hl & He & Hs)%run_edit_inv. exists c, c', d1. split_and!; [done..|]. intros saved Hplain Hcase.
  apply load_inv in Hl as [Hd1 Hc]; [|done]. assert (loaded_form c) as Hloaded.
  { destruct Hc as [->|]; [|done]. apply loaded_form_iff. exists ∅. by split_and!; try constructor. }
  assert (brings_context e = false -> loaded_form saved) as Hform.
  { intros Hb. apply compact_loaded. destruct e; cbn [prepared edit_in] in *; [done..|by eapply deleted_loaded|by eapply renamed_loaded|by eapply selected_loaded]. }
  assert (validateCatalog saved = Ok (normal_catalog saved)) as Hv%catalog_written.
  { destruct Hcase as [Hb|Hsame]; [apply validateCatalog_Ok; split; [by apply Hform|done]|].
    unfold saveCatalog in Hs. apply bind_inv in Hs as ([] & d2 & Hv & _). apply of_result_inv in Hv as [Hv _]. fold saved in Hv.
    unfold validateResolvedCatalog in Hv. rewrite Hsame in Hv. apply bind_Ok in Hv as (r & Hv & _). rewrite Hv. by apply validateCatalog_Ok in Hv as [_ ->]. }
  apply save_then_load in Hs as (Hd' & Hmode & Hl'); [|done..]. fold saved in Hl'. rewrite Hv in Hl'. split_and!; [done..|].
  intros Hb. destruct (Hform Hb) as [_ Hn]. unfold normal_catalog. rewrite Hn. by destruct saved.
Qed.
End service.

(** ** Runs *)
#[local] Existing Instance plain_urls.
(** A YAML of two texts: the one that is there, and the one that is written of one catalog. *)
Definition two_catalogs (before after : ContextCatalog) : CatalogYAML := {|
  yaml_Decode := fun data => if data == "before" then Ok before else if data == "after" then Ok (written after) else Err (errorf "yaml");
  yaml_Marshal := fun c => if decide (written c = written after) then Ok "after" else Err (errorf "yaml");
|}.
Definition two_catalogs_laws before after : @CatalogYAMLLaws (two_catalogs before after).
Proof. intros c data _. cbn. destruct (decide _) as [E|]; [|done]. intros [= <-]. by rewrite E. Defined.
Definition plain_metadata (dir bundle : string) : Metadata := {| meta_BaseDir := dir; meta_Bundle := bundle; meta_BundleFile := ""; meta_Proxy := None |}.
Definition files_context (name dir : string) (m : Metadata) : Context :=
  {| ctx_Name := name; ctx_Repository := {| repo_Git := None; repo_Filesystem := Some {| fs_BaseDir := dir |} |}; ctx_ManagedService := None;
     ctx_SecretStore := None; ctx_Metadata := m; ctx_Preferences := ∅; ctx_Credentials := ∅ |}.
Definition catalog_of (contexts : list Context) (current : string) : ContextCatalog :=
  {| Contexts := contexts; CurrentContext := current; DefaultEditor := ""; Credentials := [] |}.
Definition no_env : environment := fun _ => None.
Definition stored : ContextCatalog := catalog_of [files_context "dev" "/dev" (plain_metadata "" ""); files_context "prod" "/prod" (plain_metadata "/m" "")] "dev".
Definition catalog_disk : tree := {[ "/contexts" := FileNode "before" ]}.
Section select_prod.
#[local] Existing Instance latin1_tables.
#[local] Instance stored_yaml : CatalogYAML := two_catalogs stored (with_current stored "prod").
#[local] Instance stored_yaml_laws : CatalogYAMLLaws := two_catalogs_laws stored (with_current stored "prod").
Definition select_prod : option (outcome unit * tree) := run_edit no_env (Ok "/home/u") "/contexts" (SelectContext "prod") catalog_disk.
Definition load_at (t : tree) : option (outcome ContextCatalog * tree) := loadCatalog no_env (Ok "/home/u") "/contexts" t.
Example select_prod_runs : match select_prod with Some (Ok tt, _) => True | _ => False end.
Proof. vm_compute. exact I. Qed.
Example stored_loads : fst <$> load_at catalog_disk = Some (Ok stored).
Proof. vm_compute. reflexivity. Qed.
Lemma saved_edit_loads_witness : exists d', select_prod = Some (Ok tt, d') /\ load_at d' = Some (Ok (with_current stored "prod"), d').
Proof.
  pose proof select_prod_runs as Hrun. destruct select_prod as [[[[]|e] d']|] eqn:Hr; [|contradiction..]. exists d'. split; [reflexivity|].
  assert (Forall clean_segment ([] ++ ["contexts"])) as Hclean by (repeat constructor; vm_compute; congruence).
  assert (catalog_path no_env (Ok "/home/u") "/contexts" = Ok (path_of ([] ++ ["contexts"]))) as Hpath by (vm_compute; reflexivity).
  assert (disk_ok catalog_disk) as Hd.
  { intros k n Hk. unfold catalog_disk in Hk. apply lookup_singleton_Some in Hk as [<- <-]. exists [], "contexts". split_and!; [exact Hclean|vm_compute; reflexivity|reflexivity]. }
  destruct (saved_edit_loads no_env (Ok "/home/u") "/contexts" [] "contexts" Hpath Hclean (SelectContext "prod") catalog_disk d' Hd Hr) as (c & c' & d1 & Hl & He & Hsaved).
  pose proof stored_loads as Hl'. unfold load_at in Hl'. rewrite Hl in Hl'. injection Hl' as ->. cbn [prepared edit_in] in He.
  assert (set_current_in "prod" stored = Ok (with_current stored "prod")) as He' by (vm_compute; reflexivity).
  rewrite He in He'. injection He' as ->. assert (plain_catalog (written (with_current stored "prod"))) as Hplain by (split; [vm_compute; reflexivity|repeat constructor]).
  destruct (Hsaved Hplain (or_introl eq_refl)) as (_ & Hload & _ & _). exact Hload.
Defined.
End select_prod.

(** A context whose proxy is named by a variable of the environment. *)
Definition proxied_context : Context :=
  {| ctx_Name := "dev"; ctx_Repository := {| repo_Git := None; repo_Filesystem := None |};
     ctx_ManagedService := Some {| service_HTTP := Some {|
       server_BaseURL := "https://svc.example.com"; server_HealthCheck := ""; server_OpenAPI := ""; server_DefaultHeaders := ∅;
       server_Auth := Some {| http_OAuth2 := None; http_Basic := None; http_CustomHeaders := [{| token_Header := "X-Key"; token_Prefix := ""; token_Value := "k" |}] |};
       server_Proxy := Some {| HTTPURL := "${CORP_PROXY}"; HTTPSURL := ""; NoProxy := ""; proxy_Auth := None |};
       server_TLS := None; server_Throttling := None |} |};
     ctx_SecretStore := None; ctx_Metadata := plain_metadata "" ""; ctx_Preferences := ∅; ctx_Credentials := ∅ |}.
Definition corp_env : environment := fun key => if key == "CORP_PROXY" then Some "http://proxy.example.com:3128" else None.
Section placeholder.
#[local] Existing Instance latin1_tables.
#[local] Instance proxied_yaml : CatalogYAML := two_catalogs empty_catalog (catalog_of [proxied_context] "dev").
Definition create_proxied : option (outcome unit * tree) := Create corp_env (Ok "/home/u") "/contexts" proxied_context ∅.
(** It is created, its placeholder being expanded for the checks; and then the catalog, which
    is checked as it is written, does not load any more. *)
Example placeholder_is_saved : (fun x => is_ok x.1) <$> create_proxied = Some true.
Proof. vm_compute. reflexivity. Qed.
Example placeholder_does_not_load : fst <$> (create_proxied ≫= fun x => loadCatalog corp_env (Ok "/home/u") "/contexts" x.2) =
  Some (Err (Failed (Invalid "managedService.http.proxy.http-url must use http or https" None))).
Proof. vm_compute. reflexivity. Qed.
End placeholder.
(** The address of a service without a path is no health check. *)
Example health_check_needs_a_path (T : UnicodeTables := latin1_tables) :
  is_ok (validateManagedServiceHealthCheck "https://svc.example.com") = false /\ is_ok (validateManagedServiceHealthCheck "https://svc.example.com/") = true.
Proof. vm_compute. split; reflexivity. Qed.
(** A context with two sources of metadata is refused, but a catalog with it is saved, one of
    the two left out. *)
Example second_source_is_dropped (T : UnicodeTables := latin1_tables) : let cfg := files_context "dev" "/dev" (plain_metadata "/m" "keycloak:1") in
  is_ok (Validate no_env cfg) = false /\ is_ok (validateResolvedCatalog no_env (compactContextCatalogForPersistence (catalog_of [cfg] "dev"))) = true.
Proof. vm_compute. split; reflexivity. Qed.
Lemma catalog_edits_refine_witness (T : UnicodeTables := latin1_tables) : exists c', edit_in no_env (RenameContext "dev" "test") stored = Ok c' /\
  CurrentContext c' = "test" /\ edit_spec (RenameContext "dev" "test") (catalog_view stored) (catalog_view c').
Proof.
  eexists. split; [vm_compute; reflexivity|]. split; [reflexivity|].
  apply (catalog_edits_refine no_env (RenameContext "dev" "test") stored); [|vm_compute; reflexivity].
  apply (bool_decide_unpack _). vm_compute. exact I.
Defined.
