(* ===== verification/FileStore.v ===== *)
(** * The store of secrets in an encrypted file

    Models [src/internal/providers/secrets/file]: the settings of the store and its key
    ([store.go], [store_crypto.go]), the file, which holds all the secrets encrypted as one
    text, and the operations, which read it once and replace it with every change
    ([store_io.go]). The state is the disk with the fields of the [Store] that change.
    AES-GCM, Argon2, the random bytes and the JSON of the two records are parameters. *)
From S2P Require Import Prelude GoText GoTextFacts GoLib Faults Paths GoDisk DiskLaws Value Services Secrets SecretsPayload ContextConfig.
Local Open Scope Z_scope.

Definition encryptedStoreVersion : Z := 1.
Definition keyLengthBytes : Z := 32.
Definition nonceLengthBytes : Z := 12.
Definition saltLengthBytes : Z := 16.
Definition defaultKDFTime : Z := 3.
Definition defaultKDFMemory : Z := 64 * 1024.
Definition defaultKDFThreads : Z := 4.
Definition byte_size (s : string) : Z := Z.of_nat (String.length s).

(** ** Data *)
(** The fields are [uint32], [uint32] and [uint8]. *)
Record kdfSettings := { Time : Z; Memory : Z; Threads : Z }.
Record encryptedStore := {
  Version : Z; Salt : string; Nonce : string; Ciphertext : string; KDFTime : Z; KDFMemory : Z; KDFThreads : Z;
}.
Abbreviation secretSnapshot := (gmap string string).
Record Store := {
  path : string; key : string; passphrase : string; kdf : kdfSettings;
  initialized : bool; cachedSnapshot : option secretSnapshot;
}.
Definition with_initialized (s : Store) : Store :=
  {| path := path s; key := key s; passphrase := passphrase s; kdf := kdf s; initialized := true; cachedSnapshot := cachedSnapshot s |}.
Definition with_cache (s : Store) (snapshot : secretSnapshot) : Store :=
  {| path := path s; key := key s; passphrase := passphrase s; kdf := kdf s; initialized := initialized s; cachedSnapshot := Some snapshot |}.

(** ** Keys *)
Definition uint32 (z : Z) : Z := z mod 2 ^ 32.
Definition uint8 (z : Z) : Z := z mod 2 ^ 8.
Definition or_default (given : Z) (narrow : Z -> Z) (otherwise : Z) : Z := if 0 <? given then narrow given else otherwise.
Definition resolveKDFSettings (kdf : option KDF) : result error kdfSettings :=
  match kdf with
  | None => Ok {| Time := defaultKDFTime; Memory := defaultKDFMemory; Threads := defaultKDFThreads |}
  | Some kdf =>
      if (kdf_Time kdf <? 0) || (kdf_Memory kdf <? 0) || (kdf_Threads kdf <? 0)
      then Err (Invalid "secret-store.file.kdf values must be non-negative" None)
      else
        let settings := {| Time := or_default (kdf_Time kdf) uint32 defaultKDFTime;
                           Memory := or_default (kdf_Memory kdf) uint32 defaultKDFMemory;
                           Threads := or_default (kdf_Threads kdf) uint8 defaultKDFThreads |} in
        if (Time settings =? 0) || (Memory settings =? 0) || (Threads settings =? 0)
        then Err (Invalid "secret-store.file.kdf values must be greater than zero" None)
        else Ok settings
  end.
(** [hex.DecodeString]. *)
Fixpoint hex_decode (s : string) : option string :=
  match s with
  | EmptyString => Some ""
  | String a (String b rest) =>
      high ← unhex a; low ← unhex b; tail ← hex_decode rest; Some (String (Z_byte (16 * high + low)) tail)
  | String _ EmptyString => None
  end.
(** [base64.RawStdEncoding.DecodeString]: the last group may have two or three characters. *)
Fixpoint raw_groups (s : string) : option string :=
  match s with
  | EmptyString => Some ""
  | String w (String x rest) =>
      '(a7, a6, a5, a4, a3, a2) ← char_sextet w;
      '(a1, a0, b7, b6, b5, b4) ← char_sextet x;
      let a := Ascii a0 a1 a2 a3 a4 a5 a6 a7 in
      match rest with
      | EmptyString => Some (String a "")
      | String y rest =>
          '(b3, b2, b1, b0, c7, c6) ← char_sextet y;
          let b := Ascii b0 b1 b2 b3 b4 b5 b6 b7 in
          match rest with
          | EmptyString => Some (String a (String b ""))
          | String z rest =>
              '(c5, c4, c3, c2, c1, c0) ← char_sextet z;
              tail ← raw_groups rest;
              Some (String a (String b (String (Ascii c0 c1 c2 c3 c4 c5 c6 c7) tail)))
          end
      end
  | String _ EmptyString => None
  end.
Definition raw_base64_decode (s : string) : option string := raw_groups (drop_line_breaks s).
Definition of_key_length (decoded : option string) : option string :=
  decoded ≫= fun k => if byte_size k =? keyLengthBytes then Some k else None.

Section keys.
Context `{UnicodeTables}.
Definition parseEncryptionKey (raw : string) : result error string :=
  let trimmed := trim_space raw in
  if trimmed == "" then Err (Invalid "secret-store.file.key must not be empty" None)
  else match of_key_length (hex_decode trimmed), of_key_length (base64_decode trimmed), of_key_length (raw_base64_decode trimmed) with
       | Some k, _, _ | None, Some k, _ | None, None, Some k => Ok k
       | None, None, None =>
           if byte_size trimmed =? keyLengthBytes then Ok trimmed
           else Err (Invalid "secret-store.file.key must be 32-byte raw, base64, or hex" None)
       end.
Definition countSet (values : list bool) : Z := Z.of_nat (length (filter (fun b => b = true) values)).
Definition new_store (path : string) (kdf : kdfSettings) (key passphrase : string) : Store :=
  {| path := path_clean path; key := key; passphrase := passphrase; kdf := kdf; initialized := false; cachedSnapshot := None |}.
Context {D : Type} `{Disk D}.
Definition New (cfg : FileSecretStore) (disk : D) : result error Store :=
  let path := trim_space (file_Path cfg) in
  _ ← guard_err (path == "") (Invalid "secret-store.file.path is required" None);
  let given v := negb (trim_space v == "") in
  let setCount := countSet [given (file_Key cfg); given (file_KeyFile cfg); given (file_Passphrase cfg); given (file_PassphraseFile cfg)] in
  _ ← guard_err (negb (setCount =? 1)) (Invalid "secret-store.file must define exactly one of key, key-file, passphrase, passphrase-file" None);
  kdf ← resolveKDFSettings (file_KDF cfg);
  if given (file_Key cfg) then key ← parseEncryptionKey (file_Key cfg); Ok (new_store path kdf key "")
  else if given (file_KeyFile cfg) then
    match ReadFile disk (trim_space (file_KeyFile cfg)) with
    | Err err => Err (Invalid "secret-store.file.key-file could not be read" (Some (disk_cause err)))
    | Ok keyFileData => key ← parseEncryptionKey keyFileData; Ok (new_store path kdf key "")
    end
  else if given (file_Passphrase cfg) then Ok (new_store path kdf "" (trim_space (file_Passphrase cfg)))
  else if given (file_PassphraseFile cfg) then
    match ReadFile disk (trim_space (file_PassphraseFile cfg)) with
    | Err err => Err (Invalid "secret-store.file.passphrase-file could not be read" (Some (disk_cause err)))
    | Ok passphraseData =>
        let passphrase := trim_space passphraseData in
        if passphrase == "" then Err (Invalid "secret-store.file.passphrase-file must not be empty" None)
        else Ok (new_store path kdf "" passphrase)
    end
  else Err (Invalid "secret-store.file key material is invalid" None).
End keys.

(** ** The encrypted file *)
(** AES-GCM for a key of a length it takes and a nonce of twelve bytes, and Argon2id. *)
Class Encryption := {
  gcm_Seal : string -> string -> string -> string;
  gcm_Open : string -> string -> string -> result error string;
  argon2_IDKey : string -> string -> kdfSettings -> Z -> string;
}.
(** [encoding/json] on the two records; a snapshot may have no map. *)
Class StoreJSON := {
  marshal_snapshot : secretSnapshot -> string;
  unmarshal_snapshot : string -> result error (option secretSnapshot);
  marshal_envelope : encryptedStore -> string;
  unmarshal_envelope : string -> result error encryptedStore;
}.
(** [crypto/rand.Read] into a buffer of some length. *)
Class Randomness (D : Type) := { rand_Read : Z -> D -> result error string * D }.

Section file.
Context `{UnicodeTables, Encryption, StoreJSON}.
Definition deriveKeyWithSettings (s : Store) (salt : string) (kdf : kdfSettings) : result error string :=
  if negb (key s == "") then Ok (key s)
  else if passphrase s == "" then Err (Invalid "secret store passphrase is missing" None)
  else if salt == "" then Err (Invalid "secret store salt is missing" None)
  else Ok (argon2_IDKey (passphrase s) salt kdf keyLengthBytes).
Definition deriveKey (s : Store) (salt : string) : result error string := deriveKeyWithSettings s salt (kdf s).
(** [aes.NewCipher] and [cipher.NewGCM]. *)
Definition new_gcm (key : string) : result error string :=
  let n := byte_size key in
  if (n =? 16) || (n =? 24) || (n =? 32) then Ok key
  else Err (Internal "failed to initialize secret cipher" (Some (errorf ("crypto/aes: invalid key size " +:+ itoa n)))).
(** [Open] panics when the nonce has another length. *)
Definition open_text (gcm nonce ciphertext : string) : outcome string :=
  if negb (byte_size nonce =? nonceLengthBytes) then Err Panic
  else match gcm_Open gcm nonce ciphertext with
       | Ok plaintext => Ok plaintext
       | Err err => Err (Failed (Auth "failed to decrypt secret store with provided key material" (Some err)))
       end.
Definition base64_field (message text : string) : result error string :=
  match base64_decode text with
  | Some bytes => Ok bytes
  | None => Err (Invalid message (Some (errorf "illegal base64 data")))
  end.
Definition read_settings (s : Store) (salt : string) (envelope : encryptedStore) : result error kdfSettings :=
  if salt == "" then Ok (kdf s)
  else if (KDFTime envelope =? 0) || (KDFMemory envelope =? 0) || (KDFThreads envelope =? 0)
  then Err (Invalid "secret store KDF parameters are missing" None)
  else Ok {| Time := KDFTime envelope; Memory := KDFMemory envelope; Threads := KDFThreads envelope |}.
(** The key, the nonce and the text of an envelope. *)
Definition unpack_envelope (s : Store) (envelope : encryptedStore) : result error (string * string * string) :=
  _ ← guard_err (negb (Version envelope =? encryptedStoreVersion)) (Invalid "secret store format version is unsupported" None);
  nonce ← base64_field "secret store nonce is invalid" (Nonce envelope);
  ciphertext ← base64_field "secret store ciphertext is invalid" (Ciphertext envelope);
  salt ← (if Salt envelope == "" then Ok "" else base64_field "secret store salt is invalid" (Salt envelope));
  readKDF ← read_settings s salt envelope;
  key ← deriveKeyWithSettings s salt readKDF;
  gcm ← new_gcm key;
  Ok (gcm, nonce, ciphertext).
Definition decode_plaintext (plaintext : string) : result error secretSnapshot :=
  snapshot ← map_err (fun err => Internal "failed to decode decrypted secret store" (Some err)) (unmarshal_snapshot plaintext);
  Ok (default ∅ snapshot).
(** What [readSnapshotLocked] makes of the bytes of the file. *)
Definition open_snapshot (s : Store) (data : string) : outcome secretSnapshot :=
  envelope ← lift (map_err (fun err => Internal "failed to decode encrypted secret store" (Some err)) (unmarshal_envelope data));
  '(gcm, nonce, ciphertext) ← lift (unpack_envelope s envelope);
  plaintext ← open_text gcm nonce ciphertext;
  lift (decode_plaintext plaintext).
Definition make_envelope (s : Store) (salt nonce ciphertext : string) : encryptedStore :=
  let salted := negb (salt == "") in
  {| Version := encryptedStoreVersion; Salt := if salted then base64_encode salt else ""; Nonce := base64_encode nonce;
     Ciphertext := base64_encode ciphertext; KDFTime := if salted then Time (kdf s) else 0;
     KDFMemory := if salted then Memory (kdf s) else 0; KDFThreads := if salted then Threads (kdf s) else 0 |}.
(** What [writeSnapshotLocked] makes of a snapshot, for the random bytes it took. *)
Definition seal_snapshot (s : Store) (nonce salt : string) (snapshot : secretSnapshot) : result error string :=
  key ← deriveKey s salt;
  gcm ← new_gcm key;
  Ok (marshal_envelope (make_envelope s salt nonce (gcm_Seal gcm nonce (marshal_snapshot snapshot)))).

(** ** Operations *)
Context {D : Type} `{Disk D} `{!DiskModes D} `{!Randomness D}.
Abbreviation act := (action (D * Store)).
Definition own_fields : act Store := fun st => Some (Ok st.2, st).
Definition set_fields (f : Store -> Store) : act unit := fun '(d, s) => Some (Ok tt, (d, f s)).
Definition randomBytes (length : Z) (message : string) : act string := fun '(d, s) =>
  match rand_Read length d with
  | (Ok bytes, d) => Some (Ok bytes, (d, s))
  | (Err err, d) => Some (Err (Failed (Internal message (Some err))), (d, s))
  end.
Definition write_told (at_stage : write_stage) (cause : error) : error :=
  Internal (match at_stage with
            | MakingDirectory => "failed to create secret store directory"
            | MakingFile => "failed to create temporary secret file"
            | WritingFile => "failed to write temporary secret file"
            | SettingMode => "failed to set secret file permissions"
            | ClosingFile => "failed to close temporary secret file"
            | ReplacingFile => "failed to replace secret store file"
            end) (Some cause).
Definition writeAtomicFile (path data : string) : act unit := fun '(d, s) =>
  match write_private write_told path ".declarest-secret-*" data d with
  | (None, d) => Some (Ok tt, (d, s))
  | (Some err, d) => Some (Err (Failed err), (d, s))
  end.
Definition readSnapshotLocked : act secretSnapshot :=
  s ← own_fields;
  match cachedSnapshot s with
  | Some snapshot => mret snapshot
  | None =>
      data ← (fun '(d, s) => match ReadFile d (path s) with
                             | Ok data => Some (Ok data, (d, s))
                             | Err err => Some (Err (Failed (Internal "failed to read encrypted secret store" (Some (disk_cause err)))), (d, s))
                             end);
      snapshot ← of_outcome (open_snapshot s data);
      _ ← set_fields (fun s => with_cache s snapshot);
      mret snapshot
  end.
Definition writeSnapshotLocked (snapshot : secretSnapshot) : act unit :=
  s ← own_fields;
  nonce ← randomBytes nonceLengthBytes "failed to generate secret nonce";
  salt ← (if passphrase s == "" then mret "" else randomBytes saltLengthBytes "failed to generate secret salt");
  encoded ← of_result (seal_snapshot s nonce salt snapshot);
  _ ← writeAtomicFile (path s) encoded;
  set_fields (fun s => with_cache s snapshot).
Definition make_directory : act unit := fun '(d, s) =>
  match MkdirAll (path_dir (path s)) d with
  | (None, d) => Some (Ok tt, (d, s))
  | (Some err, d) => Some (Err (Failed (Internal "failed to prepare secret store directory" (Some (disk_cause err)))), (d, s))
  end.
(** Whether the file of the store is there. *)
Definition file_exists : act bool := fun '(d, s) =>
  match Stat d (path s) with
  | Ok _ => Some (Ok true, (d, s))
  | Err err =>
      if is_not_exist err then Some (Ok false, (d, s))
      else Some (Err (Failed (Internal "failed to inspect secret store file" (Some (disk_cause err)))), (d, s))
  end.
Definition initLocked : act unit :=
  s ← own_fields;
  if trim_space (path s) == "" then fail (Invalid "secret store path must not be empty" None)
  else if (key s == "") && (passphrase s == "") then fail (Invalid "secret store key material is missing" None)
  else
    _ ← make_directory;
    there ← file_exists;
    if negb there then _ ← writeSnapshotLocked ∅; set_fields with_initialized
    else
      _ ← (if initialized s then mret tt else _ ← readSnapshotLocked; mret tt);
      set_fields with_initialized.
Definition Init : act unit := initLocked.
(** What the four operations do first. *)
Definition snapshot_of : act secretSnapshot := _ ← initLocked; readSnapshotLocked.
Definition store_Store (key v : string) : act unit :=
  normalizedKey ← of_result (NormalizeKey key);
  snapshot ← snapshot_of;
  writeSnapshotLocked (<[normalizedKey := v]> snapshot).
Definition Get (key : string) : act string :=
  normalizedKey ← of_result (NormalizeKey key);
  snapshot ← snapshot_of;
  match snapshot !! normalizedKey with
  | Some v => mret v
  | None => fail (NotFound "secret key not found" None)
  end.
Definition Delete (key : string) : act unit :=
  normalizedKey ← of_result (NormalizeKey key);
  snapshot ← snapshot_of;
  writeSnapshotLocked (delete normalizedKey snapshot).
Definition List : act (list string) := snapshot ← snapshot_of; mret (sorted_keys snapshot).

(** *** Payloads *)
(** The operations as the callbacks of the walks over payloads. A panic would stop the walk;
    the callback gives an error for it. A read is made of the state as it is: what it leaves
    behind, the snapshot it read, changes no answer. *)
Definition stopped : error := errorf "panic".
Definition callback (m : act unit) (st : D * Store) : (D * Store) * option error :=
  match m st with
  | Some (Ok tt, st) => (st, None)
  | Some (Err (Failed err), st) => (st, Some err)
  | _ => (st, Some stopped)
  end.
Definition lookup_callback (st : D * Store) (key : string) : result error string :=
  match Get key st with
  | Some (Ok v, _) => Ok v
  | Some (Err (Failed err), _) => Err err
  | _ => Err stopped
  end.
Definition store_MaskPayload (v : value) (st : D * Store) : (D * Store) * result error value :=
  MaskPayload v (Some (fun key x => callback (store_Store key x))) st.
Definition store_ResolvePayload (v : value) (st : D * Store) : result error value := ResolvePayload v (Some (lookup_callback st)).
Definition store_NormalizeSecretPlaceholders (v : value) : result error value := NormalizePlaceholders v.
Definition store_DetectSecretCandidates (v : value) : result error (list string) := DetectSecretCandidates v.
End file.
