(* ===== verification/FileStoreFacts.v ===== *)
(** * The encrypted file is a map of secrets

    Whatever the processes that open it one after the other, the store of [FileStore] answers
    as a map from keys to secrets does ([file_store_is_a_map]); secrets masked into it by one
    process are resolved by another ([masked_secrets_outlive_process]). *)
From S2P Require Import Prelude GoText GoTextFacts GoLib Faults Paths GoDisk DiskLaws Value Services ActionFacts Secrets SecretsPayload ContextConfig FileStore.
Local Open Scope Z_scope.

(** ** What is relied on *)
Class EncryptionLaws `{Encryption} := {
  gcm_opens : forall k nonce text, byte_size nonce = 12 -> gcm_Open k nonce (gcm_Seal k nonce text) = Ok text;
  argon2_length : forall pass salt kdf n, 0 <= n -> byte_size (argon2_IDKey pass salt kdf n) = n;
}.
(** Texts of valid UTF-8 read back; the fields of an envelope are of their types and in
    base64. *)
Definition kdf_in_range (k : kdfSettings) : Prop := 0 < Time k < 2 ^ 32 /\ 0 < Memory k < 2 ^ 32 /\ 0 < Threads k < 2 ^ 8.
Definition text_secrets (m : secretSnapshot) : Prop := map_Forall (fun k v => valid_utf8 k = true /\ valid_utf8 v = true) m.
Class StoreJSONLaws `{StoreJSON} := {
  snapshot_reads : forall m, text_secrets m -> unmarshal_snapshot (marshal_snapshot m) = Ok (Some m);
  envelope_reads : forall s salt nonce ciphertext, kdf_in_range (kdf s) ->
    unmarshal_envelope (marshal_envelope (make_envelope s salt nonce ciphertext)) = Ok (make_envelope s salt nonce ciphertext);
}.
Class RandomnessLaws (D : Type) `{DiskLaws D} `{!Randomness D} := {
  random_bytes : forall n d, 0 <= n -> disk_ok d -> let '(r, d') := rand_Read n d in disk_ok d' /\ view d' = view d /\ forall bytes, r = Ok bytes -> byte_size bytes = n;
}.

(** ** Runs that do not panic *)
(** [m] ends, with a value that has [Q] of it and the state then, or an error that has [E]. *)
Definition after {S A} (E : error -> S -> Prop) (m : action S A) (Q : A -> S -> Prop) (s : S) : Prop :=
  match m s with Some (Ok a, s') => Q a s' | Some (Err (Failed e), s') => E e s' | _ => False end.
Section after.
Context {S : Type} {E : error -> S -> Prop}.
Lemma after_ret {A} (a : A) (Q : A -> S -> Prop) s : Q a s -> after E (mret a) Q s.
Proof. done. Qed.
Lemma after_bind {A B} (m : action S A) (f : A -> action S B) (Q : B -> S -> Prop) s :
  after E m (fun a s => after E (f a) Q s) s -> after E (mbind f m) Q s.
Proof. unfold after, mbind, action_bind. by destruct (m s) as [[[a|[e|]] s1]|]. Qed.
Lemma after_result {A} (r : result error A) (Q : A -> S -> Prop) s :
  match r with Ok a => Q a s | Err e => E e s end -> after E (of_result r) Q s.
Proof. by destruct r. Qed.
Lemma after_weaken {A} (m : action S A) (Q Q' : A -> S -> Prop) s : after E m Q s -> (forall a s', Q a s' -> Q' a s') -> after E m Q' s.
Proof. unfold after. intros Hm HQ. destruct (m s) as [[[a|[e|]] s1]|]; auto. Qed.
Lemma after_error {A} (E' : error -> S -> Prop) (m : action S A) (Q : A -> S -> Prop) s : after E m Q s -> (forall e s', E e s' -> E' e s') -> after E' m Q s.
Proof. unfold after. intros Hm HE. destruct (m s) as [[[a|[e|]] s1]|]; auto. Qed.
Lemma after_catch {A} (m : action S A) (Q : result error A -> S -> Prop) s :
  after (fun e s => Q (Err e) s) m (fun a s => Q (Ok a) s) s -> after E (catch m) Q s.
Proof. unfold after, catch. by destruct (m s) as [[[a|[e|]] s1]|]. Qed.
End after.
(** A failure of what is outside: the disk, or the random bytes. *)
Definition outside_error (e : error) : Prop := is_category e InternalError = true.

(** ** Reads that may fail *)
(** A read that answers as another one does, or fails as [P] says. *)
Definition partial_read (P : error -> Prop) (get get' : string -> result error string) : Prop :=
  forall k, get' k = get k \/ exists e, get' k = Err e /\ P e.
Definition partly {A} (P : error -> Prop) (x x' : result error A) : Prop := forall a, x = Ok a -> x' = Ok a \/ exists e, x' = Err e /\ P e.
Lemma partly_bind {A B} P (x x' : result error A) (f f' : A -> result error B) :
  partly P x x' -> (forall a, partly P (f a) (f' a)) -> partly P (mbind f x) (mbind f' x').
Proof.
  intros Hx Hf b (a & Ha & Hb)%bind_Ok. destruct (Hx a Ha) as [->|(e & -> & He)]; [by apply Hf|]. right. by exists e.
Qed.
Lemma partly_refl {A} P (x : result error A) : partly P x x.
Proof. by left. Qed.
Lemma each_key_partly {T} P (f f' : string -> value -> T -> result error (value * T)) m keys :
  (forall key x st, partly P (f key x st) (f' key x st)) -> forall st, partly P (each_key f m keys st) (each_key f' m keys st).
Proof.
  intros Hf. induction keys as [|key keys IH]; intros st; [apply partly_refl|]. cbn [each_key]. destruct (m !! key) as [x|]; [|apply IH].
  apply partly_bind; [apply Hf|]. intros [c st1]. apply partly_bind; [apply IH|]. intros [r st2]. apply partly_refl.
Qed.
Lemma each_index_partly {T} P (f f' : string -> value -> T -> result error (value * T)) items :
  (forall key x st, partly P (f key x st) (f' key x st)) -> forall idx st, partly P (each_index f idx items st) (each_index f' idx items st).
Proof.
  intros Hf. induction items as [|x items IH]; intros idx st; [apply partly_refl|]. cbn [each_index].
  apply partly_bind; [apply Hf|]. intros [c st1]. apply partly_bind; [apply IH|]. intros [r st2]. apply partly_refl.
Qed.
Lemma resolve_value_partly `{UnicodeTables} P get get' resource depth : partial_read P get get' -> forall v p cache,
  partly P (resolvePayloadValue depth v p resource get cache) (resolvePayloadValue depth v p resource get' cache).
Proof.
  intros Hget. induction depth as [|depth IH]; intros v p cache; [apply partly_refl|]. destruct v; try apply partly_refl; cbn [resolvePayloadValue].
  - apply partly_bind; [apply partly_refl|]. intros [| |]; try apply partly_refl.
    all: apply partly_bind; [apply partly_refl|]; intros k; destruct (cache !! k); [apply partly_refl|];
      apply partly_bind; [intros x Hx; destruct (Hget k) as [->|]; auto|intros x; apply partly_refl].
  - apply partly_bind; [|intros []; apply partly_refl]. apply each_index_partly. intros; apply IH.
  - apply partly_bind; [|intros []; apply partly_refl]. apply each_key_partly. intros; apply IH.
Qed.
Lemma resolve_partly `{UnicodeTables} P get get' v : partial_read P get get' -> partly P (ResolvePayload v (Some get)) (ResolvePayload v (Some get')).
Proof.
  intros Hget. unfold ResolvePayload, resolvePayloadWithResourceScope. apply partly_bind; [apply partly_refl|]. intros w.
  apply partly_bind; [by apply resolve_value_partly|]. intros []. apply partly_refl.
Qed.

Section store.
Context `{UnicodeTables, Encryption, StoreJSON} `{!EncryptionLaws, !StoreJSONLaws} {D : Type} `{DiskLaws D} `{!DiskModes D, !ModeLaws D}
  `{!Randomness D, !RandomnessLaws D}.
Context (dir : list string) (name : string).
Hypothesis clean_path : Forall clean_segment (dir ++ [name]).
Abbreviation file := (path_of (dir ++ [name])).
Abbreviation state := (D * Store)%type.
Implicit Types (s : Store) (d : D) (m : secretSnapshot) (st : state).

(** ** Keys *)
Record ready s : Prop := {
  ready_path : path s = file;
  ready_key : (byte_size (key s) = 32 /\ passphrase s = "") \/ (key s = "" /\ passphrase s <> "");
  ready_kdf : kdf_in_range (kdf s);
}.
Definition same_secret s s' : Prop := path s' = path s /\ key s' = key s /\ passphrase s' = passphrase s.
Lemma byte_size_32 k : byte_size k = 32 -> k <> "".
Proof. by intros ? ->. Qed.
Lemma new_gcm_32 k : byte_size k = 32 -> new_gcm k = Ok k.
Proof. intros E. unfold new_gcm. by rewrite E. Qed.
Lemma derive_ok s salt kdf : ready s -> salt <> "" \/ passphrase s = "" ->
  exists k, deriveKeyWithSettings s salt kdf = Ok k /\ byte_size k = 32.
Proof.
  intros [_ Hk _] Hsalt. unfold deriveKeyWithSettings. destruct Hk as [[Hk _]|[Hk Hp]].
  - exists (key s). rewrite bool_decide_false by by apply byte_size_32. done.
  - rewrite Hk, bool_decide_true by done. cbn [negb]. rewrite bool_decide_false by done. destruct Hsalt as [Hs|]; [|done].
    rewrite bool_decide_false by done. eexists. split; [done|]. by apply argon2_length.
Qed.
Lemma base64_nonempty x : x <> "" -> base64_encode x <> "".
Proof. destruct x as [|[] [|[] [|[] x]]]; by cbn. Qed.
(** ** What is written opens *)
Definition salt_fits s (salt : string) : Prop := if passphrase s == "" then salt = "" else salt <> "".
Lemma derive_same s s' salt kdf : same_secret s s' -> deriveKeyWithSettings s' salt kdf = deriveKeyWithSettings s salt kdf.
Proof. intros (_ & E1 & E2). unfold deriveKeyWithSettings. by rewrite E1, E2. Qed.
Lemma open_seal s s' nonce salt m data : ready s -> same_secret s s' -> byte_size nonce = 12 -> salt_fits s salt -> text_secrets m ->
  seal_snapshot s nonce salt m = Ok data -> open_snapshot s' data = Ok m.
Proof.
  intros Hr Hs Hn Hsalt Hm Hseal. assert (salt <> "" \/ passphrase s = "") as Hsalt'.
  { unfold salt_fits in Hsalt. case_bool_decide; auto. }
  destruct (derive_ok s salt (kdf s) Hr Hsalt') as (k & Ek & Hk). unfold seal_snapshot, deriveKey in Hseal. rewrite Ek in Hseal. cbn [mbind result_bind] in Hseal.
  rewrite new_gcm_32 in Hseal by done. cbn [mbind result_bind] in Hseal. injection Hseal as <-. unfold open_snapshot.
  set (c := gcm_Seal k nonce (marshal_snapshot m)). rewrite (envelope_reads s salt nonce c) by apply Hr. cbn [map_err lift mbind result_bind].
  assert (unpack_envelope s' (make_envelope s salt nonce c) = Ok (k, nonce, c)) as ->.
  { unfold unpack_envelope, make_envelope, base64_field. cbn [Version Nonce Ciphertext Salt]. rewrite Z.eqb_refl. cbn [negb guard_err mbind result_bind].
    rewrite !base64_round_trip. cbn [mbind result_bind]. destruct (decide (salt = "")) as [->|Hne].
    - rewrite (bool_decide_true ("" = "")) by done. cbn [negb]. rewrite (bool_decide_true ("" = "")) by done. unfold read_settings. cbn [mbind result_bind].
      rewrite (bool_decide_true ("" = "")) by done. cbn [mbind result_bind]. rewrite (derive_same s s') by done.
      destruct Hsalt' as [|Hp]; [done|]. destruct Hr as [_ [[Hk' _]|[_ []]] _]; [|done]. unfold deriveKeyWithSettings in *.
      rewrite bool_decide_false in * by by apply byte_size_32. cbn [negb mbind result_bind] in *. injection Ek as ->. by rewrite new_gcm_32.
    - rewrite (bool_decide_false (salt = "")) by done. cbn [negb]. rewrite bool_decide_false by by apply base64_nonempty. rewrite base64_round_trip. cbn [mbind result_bind].
      unfold read_settings. cbn [KDFTime KDFMemory KDFThreads]. rewrite (bool_decide_false (salt = "")) by done. cbn [negb].
      destruct (ready_kdf s Hr) as (Ht & Hmem & Hth). rewrite !(proj2 (Z.eqb_neq _ _)) by lia. cbn [orb mbind result_bind].
      rewrite (derive_same s s') by done. replace {| Time := Time (kdf s); Memory := Memory (kdf s); Threads := Threads (kdf s) |} with (kdf s) by by destruct (kdf s).
      rewrite Ek. cbn [mbind result_bind]. by rewrite new_gcm_32. }
  cbn [lift map_err mbind result_bind]. unfold open_text. rewrite Hn. change (12 =? nonceLengthBytes) with true. cbn [negb]. unfold c. rewrite gcm_opens by done.
  cbn [mbind result_bind]. unfold decode_plaintext. by rewrite snapshot_reads.
Qed.

(** ** The state holds a map *)
(** What the file has: the map, encrypted, or nothing when there are no secrets yet. *)
Definition file_holds d s m : Prop :=
  match view d !! file with Some (FileNode data) => open_snapshot s data = Ok m | Some DirNode => False | None => m = ∅ end.
Record holds st m : Prop := {
  holds_disk : disk_ok st.1;
  holds_ready : ready st.2;
  holds_file : file_holds st.1 st.2 m;
  holds_cache : cachedSnapshot st.2 = None \/ cachedSnapshot st.2 = Some m;
}.
Lemma file_holds_view d d' s m : view d' !! file = view d !! file -> file_holds d s m -> file_holds d' s m.
Proof. unfold file_holds. by intros ->. Qed.
Lemma open_snapshot_same s s' data : same_secret s s' -> forall k, kdf s' = k -> forall m, kdf s = k -> open_snapshot s data = Ok m -> open_snapshot s' data = Ok m.
Proof. intros (E1 & E2 & E3) k Ek m Ek'. destruct s, s'. cbn in *. subst. done. Qed.
Lemma holds_with st m s' : holds st m -> same_secret st.2 s' -> kdf s' = kdf st.2 -> cachedSnapshot s' = None \/ cachedSnapshot s' = Some m -> holds (st.1, s') m.
Proof.
  intros [Hd [Hp Hk Hkdf] Hf Hc] Hs Ek Hc'. split; cbn; [done| | |done].
  - destruct Hs as (E1 & E2 & E3). split; [congruence| |by rewrite Ek]. by rewrite E2, E3.
  - unfold file_holds in *. destruct (view _ !! _) as [[data|]|]; [|done..]. by eapply open_snapshot_same.
Qed.
Lemma read_view d data : disk_ok d -> ReadFile d file = Ok data <-> view d !! file = Some (FileNode data).
Proof.
  intros Hd. pose proof (reads_file d _ Hd clean_path) as Ha. unfold tree_ReadFile in Ha. rewrite path_clean_path_of, is_dir_node, node_at_snoc in Ha by done.
  destruct (view d !! file) as [[c|]|]; [rewrite bool_decide_false in Ha by done|..]; try rewrite bool_decide_true in Ha by done;
    try rewrite bool_decide_false in Ha by done; destruct (ReadFile d file) as [x|e]; cbn in Ha; try done; naive_solver.
Qed.

(** ** The operations keep it *)
Abbreviation run m := (after (fun e _ => outside_error e) m).
Lemma after_random n message (Q : string -> state -> Prop) st : 0 <= n -> disk_ok st.1 ->
  (forall bytes d', byte_size bytes = n -> disk_ok d' -> view d' = view st.1 -> Q bytes (d', st.2)) ->
  run (randomBytes n message) Q st.
Proof.
  destruct st as [d s]. intros Hn Hd HQ. unfold after, randomBytes. pose proof (random_bytes n d Hn Hd) as Hr. destruct (rand_Read n d) as [[bytes|e] d'].
  - destruct Hr as (Hd' & Hv & Hl). by apply HQ; [apply Hl|..].
  - done.
Qed.
Lemma after_read st m : holds st m -> is_Some (view st.1 !! file) ->
  run readSnapshotLocked (fun x st' => x = m /\ holds st' m /\ st'.1 = st.1) st.
Proof.
  destruct st as [d s]. intros Hh [node Hnode]. pose proof Hh as [Hd Hr Hf Hc]. cbn in *. unfold readSnapshotLocked. apply after_bind. change (run ?f ?Q ?x) with (Q s (d, s)). cbn beta.
  destruct Hc as [Hc|Hc]; rewrite Hc; [|by apply after_ret]. unfold file_holds in Hf. rewrite Hnode in Hf. destruct node as [data|]; [|done].
  assert (ReadFile d file = Ok data \/ exists e, ReadFile d file = Err e) as Hread.
  { destruct (ReadFile d file) as [x|e] eqn:E; [left|by right; exists e]. apply read_view in E; [|done]. congruence. }
  apply after_bind. unfold after at 1. rewrite (ready_path s Hr). destruct Hread as [->|[e ->]]; [|done].
  apply after_bind. unfold after at 1, of_outcome. rewrite Hf. apply after_bind. unfold after at 1, set_fields. apply after_ret.
  split_and!; [done| |done]. eapply (holds_with (d, s)); [done|done|done|by right].
Qed.
Lemma after_write st m m' : holds st m -> text_secrets m' ->
  run (writeSnapshotLocked m') (fun _ st' => holds st' m' /\ is_Some (view st'.1 !! file)) st.
Proof.
  destruct st as [d s]. intros Hh Hm. pose proof Hh as [Hd Hr _ _]. cbn in Hd, Hr. unfold writeSnapshotLocked. apply after_bind. change (run ?f ?Q ?x) with (Q s (d, s)). cbn beta.
  apply after_bind, after_random; [done..|]. intros nonce d1 Hn Hd1 Hv1. cbn [snd] in *. apply after_bind.
  assert (run (if passphrase s == "" then mret "" else randomBytes saltLengthBytes "failed to generate secret salt")
    (fun salt st' => salt_fits s salt /\ disk_ok st'.1 /\ st'.2 = s) (d1, s)) as Hsalt.
  { unfold salt_fits. case_bool_decide; [by apply after_ret|]. apply after_random; [done..|]. intros salt d2 Hl Hd2 _. split_and!; [|done..]. by intros ->. }
  eapply after_weaken; [exact Hsalt|]. intros salt [d2 s2] (Hfit & Hd2 & E). cbn in Hd2, E. subst s2. apply after_bind, after_result.
  destruct (seal_snapshot s nonce salt m') as [data|e] eqn:Es.
  - apply after_bind. unfold after at 1, writeAtomicFile. rewrite (ready_path s Hr).
    destruct (write_private _ _ _ _ d2) as [[err|] d3] eqn:Ew; [|].
    { unfold write_private, stage in Ew. repeat case_match; simplify_eq; done. }
    apply write_private_ok in Ew as [Hd3 Hread]; [|done..]. unfold after, set_fields. apply read_view in Hread; [|done].
    split; [|by eexists]. split; cbn; [done|split; apply Hr| |by right]. unfold file_holds. rewrite Hread.
    eapply (open_seal s (with_cache s m')); eauto. done.
  - exfalso. unfold seal_snapshot, deriveKey in Es. destruct (derive_ok s salt (kdf s) Hr) as (k & Ek & Hk).
    { unfold salt_fits in Hfit. case_bool_decide; auto. }
    rewrite Ek in Es. cbn [mbind result_bind] in Es. by rewrite new_gcm_32 in Es.
Qed.
Lemma file_not_blank : trim_space file <> "".
Proof.
  by apply trim_space_solid_nonempty.
Qed.
Lemma make_dirs_below segs : forall above t t' u, Forall clean_segment ((above ++ segs) ++ [u]) -> make_dirs above segs t = Some t' ->
  t' !! path_of ((above ++ segs) ++ [u]) = t !! path_of ((above ++ segs) ++ [u]).
Proof.
  induction segs as [|x segs IH]; intros above t t' u Hall; cbn [make_dirs]; [by intros [= <-]|].
  replace (above ++ x :: segs) with ((above ++ [x]) ++ segs) in * by by rewrite <-app_assoc.
  destruct (t !! path_of (above ++ [x])) as [[|]|] eqn:E; [done|..]; intros Hm%(IH _ _ _ u); [done|done| |done].
  rewrite Hm, lookup_insert_ne; [done|]. intros Ep%path_of_inj; [| |done].
  - apply (f_equal length) in Ep. rewrite !length_app in Ep. cbn in Ep. lia.
  - apply Forall_app in Hall as [[? _]%Forall_app _]. done.
Qed.
Lemma directory_kept d d' : disk_ok d -> MkdirAll (path_dir file) d = (None, d') -> disk_ok d' /\ view d' !! file = view d !! file.
Proof.
  intros Hd Hm. assert (Forall clean_segment dir /\ clean_segment name) as [Hdir Hname] by by apply clean_snoc in clean_path.
  rewrite path_dir_snoc in Hm by done. pose proof (does_MkdirAll d dir Hd Hdir) as Hk. rewrite Hm in Hk. destruct Hk as [Hd' Hk]. split; [done|].
  specialize (Hk eq_refl). unfold tree_MkdirAll in Hk. rewrite path_clean_path_of, path_segments_path_of in Hk by done.
  destruct (make_dirs [] dir (view d)) as [t|] eqn:Em; [|done]. injection Hk as <-. by apply (make_dirs_below dir [] _ t name) in Em.
Qed.
Lemma after_init st m : holds st m -> run initLocked (fun _ st' => holds st' m /\ is_Some (view st'.1 !! file)) st.
Proof.
  destruct st as [d s]. intros Hh. pose proof Hh as [Hd Hr Hf Hc]. cbn in Hd, Hr, Hf, Hc. unfold initLocked. apply after_bind.
  change (run ?f ?Q ?x) with (Q s (d, s)). cbn beta. rewrite (ready_path s Hr), bool_decide_false by exact file_not_blank.
  assert ((key s == "") && (passphrase s == "") = false) as ->.
  { destruct (ready_key s Hr) as [[Hk _]|[_ Hp]]; [by rewrite (bool_decide_false (key s = "")) by by apply byte_size_32|]. by rewrite (bool_decide_false (passphrase s = "")), andb_false_r by done. }
  apply after_bind. unfold after at 1, make_directory. rewrite (ready_path s Hr). destruct (MkdirAll _ d) as [[err|] d1] eqn:Em; [done|].
  apply directory_kept in Em as [Hd1 Hv]; [|done]. assert (holds (d1, s) m) as Hh1 by (split; [done..|by eapply file_holds_view|done]).
  apply after_bind. unfold after at 1, file_exists. rewrite (ready_path s Hr). pose proof (reads_stat d1 _ Hd1 clean_path) as Ha.
  unfold tree_Stat in Ha. rewrite path_clean_path_of, is_dir_node, node_at_snoc in Ha by done.
  assert (forall st, holds st m -> is_Some (view st.1 !! file) -> run (set_fields with_initialized) (fun _ st' => holds st' m /\ is_Some (view st'.1 !! file)) st) as Hset.
  { intros [d2 s2] Hh2 Hs2. unfold after, set_fields. split; [|done]. apply (holds_with (d2, s2)); [done|done|done|]. apply Hh2. }
  destruct (Stat d1 file) as [b|err] eqn:Es.
  - cbn [negb]. assert (is_Some (view d1 !! file)) as Hthere.
    { destruct (view d1 !! file) eqn:Ev; [by eexists|]. rewrite bool_decide_false in Ha by done. done. }
    apply after_bind. destruct (initialized s); [by apply after_ret, Hset|]. apply after_bind. eapply after_weaken; [by apply (after_read _ m)|].
    intros x st' (_ & Hh' & E). apply after_ret. apply Hset; [done|]. by rewrite E.
  - destruct (is_not_exist err) eqn:En; [|done]. cbn [negb]. assert (m = ∅) as ->.
    { destruct Hh1 as [_ _ Hf1 _]. unfold file_holds in Hf1. cbn in Hf1. destruct (view d1 !! file) as [[c|]|]; [|done..].
      by rewrite bool_decide_false in Ha by done. }
    apply after_bind. eapply after_weaken; [by apply (after_write _ ∅)|]. intros _ st' [Hh' Hs']. by apply Hset.
Qed.
Lemma after_snapshot st m : holds st m -> run snapshot_of (fun x st' => x = m /\ holds st' m) st.
Proof.
  intros Hh. unfold snapshot_of. apply after_bind. eapply after_weaken; [by apply after_init|]. intros _ st' [Hh' Hs].
  eapply after_weaken; [by apply after_read|]. intros x st2 (-> & ? & _). done.
Qed.

(** ** Any history *)
(** What is asked of the store, one after the other; the store may be opened again by another
    process, with other settings of the key derivation. *)
Inductive store_op := OpStore (k v : string) | OpGet (k : string) | OpDelete (k : string) | OpList | OpReopen (kdf : kdfSettings).
Inductive answer := Done | Secret (v : string) | Keys (l : list string) | Refused (e : error).
Definition run_op (op : store_op) : action state answer :=
  match op with
  | OpStore k v => _ ← store_Store k v; mret Done
  | OpGet k => v ← Get k; mret (Secret v)
  | OpDelete k => _ ← Delete k; mret Done
  | OpList => l ← List; mret (Keys l)
  | OpReopen k => _ ← set_fields (fun s => new_store (path s) k (key s) (passphrase s)); mret Done
  end.
(** The answers, errors among them, up to the first failure of what is outside, and whether
    there was none. *)
Fixpoint run_ops (ops : list store_op) : action state (list answer * bool) :=
  match ops with
  | [] => mret ([], true)
  | op :: ops =>
      r ← catch (run_op op);
      match r with
      | Ok a => '(l, whole) ← run_ops ops; mret (a :: l, whole)
      | Err e => if is_category e InternalError then mret ([], false) else '(l, whole) ← run_ops ops; mret (Refused e :: l, whole)
      end
  end.
(** The same for a map. *)
Definition spec_op (op : store_op) m : answer * secretSnapshot :=
  let at_key k f := match NormalizeKey k with Ok n => f n | Err e => (Refused e, m) end in
  match op with
  | OpStore k v => at_key k (fun n => (Done, <[n := v]> m))
  | OpGet k => at_key k (fun n => (match m !! n with Some v => Secret v | None => Refused (NotFound "secret key not found" None) end, m))
  | OpDelete k => at_key k (fun n => (Done, delete n m))
  | OpList => (Keys (sorted_keys m), m)
  | OpReopen _ => (Done, m)
  end.
Fixpoint spec_ops (ops : list store_op) m : list answer * secretSnapshot :=
  match ops with [] => ([], m) | op :: ops => let '(a, m) := spec_op op m in let '(l, m) := spec_ops ops m in (a :: l, m) end.
(** Texts of valid UTF-8, and settings that are accepted. *)
Definition plain_op (op : store_op) : Prop :=
  match op with
  | OpStore k v => valid_utf8 v = true /\ forall n, NormalizeKey k = Ok n -> valid_utf8 n = true
  | OpReopen k => kdf_in_range k
  | _ => True
  end.
Lemma NormalizeKey_error k e : NormalizeKey k = Err e -> is_category e InternalError = false.
Proof. unfold NormalizeKey. intros E. repeat case_match; by simplify_eq. Qed.
(** A reopened store holds the same map. *)
Lemma holds_reopened st m kdf : holds st m -> kdf_in_range kdf -> holds (st.1, new_store (path st.2) kdf (key st.2) (passphrase st.2)) m.
Proof.
  intros [Hd [Hp Hk Hr] Hf Hc] Hkdf. split; cbn; [done| | |by left].
  - split; cbn; [|done..]. rewrite Hp. by apply path_clean_path_of.
  - unfold file_holds in *. destruct (view st.1 !! file) as [[data|]|]; [|done..]. revert Hf. unfold open_snapshot.
    destruct (unmarshal_envelope data) as [env|]; [|done]. cbn [map_err lift mbind result_bind].
    assert (unpack_envelope (new_store (path st.2) kdf (key st.2) (passphrase st.2)) env = unpack_envelope st.2 env) as ->; [|done].
    unfold unpack_envelope. destruct (guard_err _ _); [|done]. cbn [mbind result_bind]. destruct (base64_field _ (Nonce env)); [|done]. cbn [mbind result_bind].
    destruct (base64_field _ (Ciphertext env)); [|done]. cbn [mbind result_bind]. destruct (if Salt env == "" then _ else _) as [salt|]; [|done]. cbn [mbind result_bind].
    unfold read_settings, deriveKeyWithSettings. cbn [FileStore.key FileStore.passphrase FileStore.kdf new_store].
    destruct (decide (salt = "")) as [->|Hne]; [|by rewrite !(bool_decide_false (salt = "")) by done]. rewrite !(bool_decide_true ("" = "")) by done.
    destruct Hk as [[Hk _]|[Hk Hp']]; cbn [mbind result_bind]; [by rewrite !(bool_decide_false (key st.2 = "")) by by apply byte_size_32|].
    rewrite Hk. rewrite !(bool_decide_true ("" = "")) by done. cbn [negb]. by rewrite !(bool_decide_false (passphrase st.2 = "")) by done.
Qed.
(** The answer of the map, or a failure of what is outside. *)
Definition answered (op : store_op) m (a : answer) (st' : state) : Prop :=
  exists m', spec_op op m = (a, m') /\ holds st' m' /\ text_secrets m'.
Definition refused (op : store_op) m (e : error) (st' : state) : Prop :=
  outside_error e \/ (is_category e InternalError = false /\ answered op m (Refused e) st').
Lemma run_op_ok op st m : holds st m -> text_secrets m -> plain_op op -> after (refused op m) (run_op op) (answered op m) st.
Proof.
  intros Hh Hm Hop. assert (forall e (st' : state), outside_error e -> refused op m e st') as Hout by by left.
  assert (forall A k (f : string -> action state A) (Q : A -> state -> Prop),
    (forall e, NormalizeKey k = Err e -> spec_op op m = (Refused e, m)) ->
    (forall n, NormalizeKey k = Ok n -> after (refused op m) (f n) Q st) ->
    after (refused op m) (n ← of_result (NormalizeKey k); f n) Q st) as Hkey.
  { intros A k f Q Hbad HQ. apply after_bind, after_result. destruct (NormalizeKey k) as [n|e] eqn:E; [by apply HQ|].
    right. split; [by eapply NormalizeKey_error|]. exists m. split_and!; [by apply Hbad|done..]. }
  assert (forall A (f : secretSnapshot -> action state A) (Q : A -> state -> Prop),
    (forall st1, holds st1 m -> after (refused op m) (f m) Q st1) -> after (refused op m) (x ← snapshot_of; f x) Q st) as Hsnap.
  { intros A f Q HQ. apply after_bind. eapply after_weaken; [eapply after_error; [by apply after_snapshot|exact Hout]|]. intros x st1 [-> Hh1]. by apply HQ. }
  unfold answered. destruct op as [k v|k|k| |k]; cbn [run_op plain_op] in *; apply after_bind.
  - unfold store_Store. apply Hkey; [intros e En; cbn [spec_op]; by rewrite En|]. intros n En. destruct Hop as [Hv Hn]. specialize (Hn _ En). apply Hsnap. intros st1 Hh1.
    assert (text_secrets (<[n:=v]> m)) as Hm' by (apply map_Forall_insert_2; [by split|done]).
    eapply after_weaken; [eapply after_error; [by apply (after_write _ m)|exact Hout]|]. intros _ st2 [Hh2 _]. apply after_ret.
    exists (<[n:=v]> m). cbn [spec_op]. by rewrite En.
  - unfold Get. apply Hkey; [intros e En; cbn [spec_op]; by rewrite En|]. intros n En. apply Hsnap. intros st1 Hh1. destruct (m !! n) as [v|] eqn:Ev.
    + apply after_ret, after_ret. exists m. cbn [spec_op]. by rewrite En, Ev.
    + right. split; [reflexivity|]. exists m. cbn [spec_op]. by rewrite En, Ev.
  - unfold Delete. apply Hkey; [intros e En; cbn [spec_op]; by rewrite En|]. intros n En. apply Hsnap. intros st1 Hh1.
    assert (text_secrets (delete n m)) as Hm' by by apply map_Forall_delete.
    eapply after_weaken; [eapply after_error; [by apply (after_write _ m)|exact Hout]|]. intros _ st2 [Hh2 _]. apply after_ret.
    exists (delete n m). cbn [spec_op]. by rewrite En.
  - unfold List. apply Hsnap. intros st1 Hh1. apply after_ret, after_ret. by exists m.
  - destruct st as [d s]. unfold after, set_fields, mret, action_ret. exists m. split_and!; [done| |done]. by apply (holds_reopened (d, s)).
Qed.
(** [C6] The store in an encrypted file, once it is initialized and as far as its keys and
    secrets are in UTF-8, is a map of secrets. Ask of it any list of operations, stores of keys
    and secrets in UTF-8 among them, by one process or by several that open the file one after
    the other, each with settings of its own for the derivation of the key, positive and within
    the width of their fields. The answers, the refusals of invalid keys and of missing secrets
    included, are those of the map, one by one, for as long as the disk and the random bytes do
    not fail, and the file then holds the map, whatever is asked next; up to the first such
    failure nothing panics. *)
Theorem file_store_is_a_map ops st m : holds st m -> text_secrets m -> Forall plain_op ops ->
  exists answers whole st', run_ops ops st = Some (Ok (answers, whole), st') /\
  let '(expected, m') := spec_ops ops m in
  if whole : bool then answers = expected /\ holds st' m' else exists rest, expected = answers ++ rest /\ rest <> [].
Proof.
  intros Hh Hm Hops. assert (after (fun _ _ => False) (run_ops ops) (fun r st' => let '(expected, m') := spec_ops ops m in
    if r.2 : bool then r.1 = expected /\ holds st' m' else exists rest, expected = r.1 ++ rest /\ rest <> []) st) as Hrun.
  { revert st m Hh Hm. induction Hops as [|op ops Hop _ IH]; intros st m Hh Hm; cbn [run_ops spec_ops]; [by apply after_ret|].
    apply after_bind, after_catch.
    assert (forall a st1, answered op m a st1 -> after (fun _ _ => False) ('(l, whole) ← run_ops ops; mret (a :: l, whole))
      (fun r st' => let '(expected, m') := let '(a, m) := spec_op op m in let '(l, m) := spec_ops ops m in (a :: l, m) in
        if r.2 : bool then r.1 = expected /\ holds st' m' else exists rest, expected = r.1 ++ rest /\ rest <> []) st1) as Hnext.
    { intros a st1 (m1 & -> & Hh1 & Hm1). apply after_bind. eapply after_weaken; [by apply (IH st1 m1)|]. intros [l whole] st2. cbn [fst snd].
      destruct (spec_ops ops m1) as [expected m2]. intros Hl. apply after_ret. cbn [fst snd]. destruct whole.
      - by destruct Hl as [-> ?].
      - destruct Hl as (rest & -> & ?). by exists rest. }
    eapply after_weaken; [eapply after_error; [by apply run_op_ok|]|exact Hnext].
    intros e st1 [Hout|[Hin Ha]]; [rewrite Hout|rewrite Hin; by apply Hnext].
    apply after_ret. cbn [fst snd]. destruct (spec_op op m) as [a m1]. destruct (spec_ops ops m1) as [l m2]. by exists (a :: l). }
  unfold after in Hrun. destruct (run_ops ops st) as [[[[answers whole]|[]] st']|]; [|done..]. by exists answers, whole, st'.
Qed.

(** ** Masked payloads *)
(** The same reads and writes on a map. *)
Definition map_get m (k : string) : result error string :=
  n ← NormalizeKey k; match m !! n with Some v => Ok v | None => Err (NotFound "secret key not found" None) end.
Definition secrets_map : SecretsPayload.SecretStore secretSnapshot := {| store_set := map_store_set; store_get := map_get |}.
#[local] Existing Instance secrets_map.
Lemma secrets_map_laws : SecretStoreLaws secretSnapshot.
Proof.
  pose proof map_store_laws as Hlaws. split.
  - intros k v m m'. exact (@set_valid_key _ map_store Hlaws k v m m').
  - intros k v m m' k' E. cbn in *. unfold map_store_set, map_get in *. destruct (NormalizeKey k) as [n|e]; [|done]. injection E as <-.
    destruct (NormalizeKey k') as [n'|e']; cbn; [|by rewrite bool_decide_false].
    destruct (decide (n' = n)) as [->|Hne]; [by rewrite lookup_insert_eq, bool_decide_true|].
    rewrite lookup_insert_ne by done. by rewrite bool_decide_false by congruence.
Qed.
#[local] Existing Instance secrets_map_laws.
Lemma callback_map k x st st' m : holds st m -> text_secrets m -> plain_op (OpStore k x) -> callback (store_Store k x) st = (st', None) ->
  exists m', map_store_set k x m = (m', None) /\ holds st' m' /\ text_secrets m'.
Proof.
  intros Hh Hm Hop Hc. pose proof (run_op_ok (OpStore k x) st m Hh Hm Hop) as Hrun. unfold callback in Hc. cbn [run_op spec_op] in Hrun.
  unfold after, mbind, action_bind in Hrun. destruct (store_Store k x st) as [[[[]|[e|]] st1]|]; try done. injection Hc as <-.
  destruct Hrun as (m' & Hs & Hh' & Hm'). unfold map_store_set. cbn [spec_op] in Hs. destruct (NormalizeKey k) as [n|e]; [|done]. injection Hs as <-. by exists (<[n:=x]> m).
Qed.
Lemma store_candidates_map cands keys : forall st st' m, holds st m -> text_secrets m ->
  (forall k, k ∈ keys -> is_Some (cands !! k)) -> (forall k x, cands !! k = Some x -> plain_op (OpStore k x)) ->
  store_candidates (fun k x => callback (store_Store k x)) cands keys st = (st', None) ->
  exists m', store_candidates map_store_set cands keys m = (m', None) /\ holds st' m' /\ text_secrets m'.
Proof.
  induction keys as [|k keys IH]; intros st st' m Hh Hm Hin Hplain; cbn [store_candidates].
  - intros [= <-]. by exists m.
  - destruct (Hin k ltac:(by left)) as [x Hx]. rewrite Hx. cbn beta. change (default "" (Some x)) with x.
    destruct (callback (store_Store k x) st) as [st1 [e|]] eqn:Ec; [done|]. eapply callback_map in Ec as (m1 & -> & Hh1 & Hm1); [|done|done|by apply Hplain].
    intros Hs. eapply IH in Hs; eauto. intros k' Hk'. apply Hin. by right.
Qed.
(** The secrets of a payload, and the keys they are stored under, are valid UTF-8. *)
Definition text_candidates (w : value) : Prop := forall collected, collectMaskCandidates max_depth w "" {| candidates := ∅; scopeByKey := ∅ |} = Ok collected ->
  forall k x, candidates collected !! k = Some x -> plain_op (OpStore k x).
Lemma lookup_callback_map st m : holds st m -> partial_read outside_error (map_get m) (lookup_callback st).
Proof.
  intros Hh k. unfold lookup_callback, Get, map_get. destruct (NormalizeKey k) as [n|e] eqn:En; [|by left]. cbn [mbind result_bind].
  pose proof (after_snapshot st m Hh) as Hs. unfold mbind, action_bind, of_result, of_outcome. cbn [lift map_err].
  unfold after in Hs. destruct (snapshot_of st) as [[[x|[e|]] st1]|]; [|by right; exists e|done..].
  destruct Hs as [-> _]. left. by destruct (m !! n).
Qed.
(** [C7] A payload masked into the encrypted file by one process is resolved by another one,
    that opens the file with the same key (and settings for its derivation that are positive and
    within the width of their fields): it gets the normalized payload back, or an error of
    the disk or of the random bytes, never another payload and never a missing secret. So it
    is for a payload whose keys are trimmed ASCII names and whose texts are no placeholders,
    when the secrets in the file and those of the payload are valid UTF-8, with the keys they
    are stored under. *)
Theorem masked_secrets_outlive_process v w st st' masked m kdf : holds st m -> text_secrets m -> kdf_in_range kdf ->
  wf_value v -> Normalize v = Ok w -> plain_payload w -> text_candidates w ->
  store_MaskPayload v st = (st', Ok masked) ->
  match store_ResolvePayload masked (st'.1, new_store (path st'.2) kdf (key st'.2) (passphrase st'.2)) with
  | Ok resolved => resolved = w
  | Err e => outside_error e
  end.
Proof.
  intros Hh Hm Hkdf Hwf Hn Hp Htext Hmask. assert (exists m', MaskPayload v (Some map_store_set) m = (m', Ok masked) /\ holds st' m') as (m' & Hmap & Hh').
  { revert Hmask Htext. unfold store_MaskPayload, MaskPayload, text_candidates. rewrite Hn. generalize max_depth as depth. intros depth Hmask Htext.
    destruct (collectMaskCandidates depth w "" _) as [cs|] eqn:Ec; [|done].
    destruct (store_candidates _ (candidates cs) _ st) as [st1 [e|]] eqn:Es; [done|]. injection Hmask as <- <-.
    eapply store_candidates_map in Es as (m' & -> & Hh' & _); [by exists m'|done|done| |].
    - intros k. apply elem_of_sorted_keys.
    - intros k x. by apply Htext. }
  pose proof (@mask_resolve _ _ secrets_map secrets_map_laws v w m m' masked Hwf Hn Hp Hmap) as Hres. unfold store_ResolvePayload.
  destruct (resolve_partly _ _ _ masked (lookup_callback_map _ m' (holds_reopened st' m' kdf Hh' Hkdf)) w Hres) as [->|(e & -> & He)]; done.
Qed.
End store.

(** ** The settings of a new store *)
Lemma kdf_settings_range given settings : resolveKDFSettings given = Ok settings -> kdf_in_range settings.
Proof.
  assert (forall g narrow n limit, (forall z, 0 <= narrow z < limit) -> 0 < n < limit -> or_default g narrow n <> 0 -> 0 < or_default g narrow n < limit) as Hrange.
  { intros g narrow n limit Hn Hd Hne. unfold or_default in *. destruct (0 <? g); [|done]. specialize (Hn g). lia. }
  unfold resolveKDFSettings. destruct given as [g|]; [|intros [= <-]; by unfold kdf_in_range].
  destruct (_ || _ || _); [done|]. destruct (_ || _) eqn:E; [done|]. intros [= <-]. cbn in *.
  apply orb_false_iff in E as [[E1 E2]%orb_false_iff E3]. apply Z.eqb_neq in E1, E2, E3.
  unfold kdf_in_range. cbn [Time Memory Threads]. split; [|split]; apply Hrange; try done; intros z; by apply Z.mod_pos_bound.
Qed.
Lemma of_key_length_32 x k : of_key_length x = Some k -> byte_size k = 32.
Proof. unfold of_key_length. destruct x as [y|]; [|done]. cbn. destruct (_ =? _) eqn:E; [|done]. intros [= <-]. by apply Z.eqb_eq in E. Qed.
Lemma key_is_32 `{UnicodeTables} raw k : parseEncryptionKey raw = Ok k -> byte_size k = 32.
Proof.
  unfold parseEncryptionKey. case_bool_decide; [done|]. destruct (of_key_length (hex_decode _)) eqn:E1; [intros [= <-]; by eapply of_key_length_32|].
  destruct (of_key_length (base64_decode _)) eqn:E2; [intros [= <-]; by eapply of_key_length_32|].
  destruct (of_key_length (raw_base64_decode _)) eqn:E3; [intros [= <-]; by eapply of_key_length_32|].
  destruct (_ =? _) eqn:E; [|done]. intros [= <-]. by apply Z.eqb_eq in E.
Qed.
(** A new store on a file that is not there holds no secret. *)
Lemma new_store_holds `{UnicodeTables, Encryption, StoreJSON} `{DiskLaws D} dir name cfg (d : D) s :
  Forall clean_segment (dir ++ [name]) -> trim_space (file_Path cfg) = path_of (dir ++ [name]) -> disk_ok d -> view d !! path_of (dir ++ [name]) = None ->
  New cfg d = Ok s -> holds dir name (d, s) ∅.
Proof.
  intros Hl Hp Hd Hv Hn. assert (ready dir name s /\ cachedSnapshot s = None) as [Hr Hc].
  { unfold New in Hn. rewrite Hp in Hn. apply bind_Ok in Hn as (? & _ & Hn). apply bind_Ok in Hn as (? & _ & Hn). apply bind_Ok in Hn as (kdf & Hk & Hn).
    apply kdf_settings_range in Hk.
    assert (forall k pass, (byte_size k = 32 /\ pass = "") \/ (k = "" /\ pass <> "") -> @Ok error _ (new_store (path_of (dir ++ [name])) kdf k pass) = Ok s ->
      ready dir name s /\ cachedSnapshot s = None) as Hnew.
    { intros k pass Hkp [= <-]. split; [|done]. split; cbn; [by apply path_clean_path_of|done|done]. }
    destruct (negb (trim_space (file_Key cfg) == "")).
    { apply bind_Ok in Hn as (k & Hkey & Hn). apply (Hnew k ""); [left; split; [by eapply key_is_32|done]|done]. }
    destruct (negb (trim_space (file_KeyFile cfg) == "")).
    { destruct (ReadFile _ _); [|done]. apply bind_Ok in Hn as (k & Hkey & Hn). apply (Hnew k ""); [left; split; [by eapply key_is_32|done]|done]. }
    case_bool_decide as E1; cbn [negb] in Hn; [|by apply (Hnew "" (trim_space (file_Passphrase cfg))); [right|]].
    destruct (negb (trim_space (file_PassphraseFile cfg) == "")); [|done]. destruct (ReadFile _ _) as [data|]; [|done].
    case_bool_decide as E2; [done|]. by apply (Hnew "" (trim_space data)); [right|]. }
  split; cbn; [done|done| |by left]. unfold file_holds. by rewrite Hv.
Qed.

(** ** At work *)
Section at_work.
#[local] Existing Instance latin1_tables.
(** A cipher that puts the key and the nonce before the text, records as their codes, and
    random bytes that are zeros. *)
#[local] Instance marked_texts : Encryption := {|
  gcm_Seal := fun k nonce text => k +:+ nonce +:+ text;
  gcm_Open := fun k nonce text => if has_prefix text (k +:+ nonce) then Ok (trim_prefix text (k +:+ nonce)) else Err (errorf "message authentication failed");
  argon2_IDKey := fun _ _ _ n => zeros (Z.to_nat n);
|}.
Fixpoint code_text (p : positive) : string := match p with xH => "" | xO p => String "0" (code_text p) | xI p => String "1" (code_text p) end.
Fixpoint text_code (s : string) : option positive :=
  match s with
  | EmptyString => Some xH
  | String c s => p ← text_code s; if c == "0"%char then Some (xO p) else if c == "1"%char then Some (xI p) else None
  end.
Lemma text_code_text p : text_code (code_text p) = Some p.
Proof. induction p as [p IH|p IH|]; cbn; [by rewrite IH..|done]. Qed.
Definition encode_text `{Countable A} (a : A) : string := code_text (encode a).
Definition decode_text `{Countable A} (s : string) : result error A :=
  match text_code s ≫= decode with Some a => Ok a | None => Err (errorf "unexpected end of input") end.
Lemma decode_encode_text `{Countable A} (a : A) : decode_text (encode_text a) = Ok a.
Proof. unfold decode_text, encode_text. rewrite text_code_text. cbn. by rewrite decode_encode. Qed.
Definition envelope_fields (e : encryptedStore) : Z * string * string * string * Z * Z * Z :=
  (Version e, Salt e, Nonce e, Ciphertext e, KDFTime e, KDFMemory e, KDFThreads e).
Definition fields_envelope (x : Z * string * string * string * Z * Z * Z) : encryptedStore :=
  let '(v, salt, nonce, text, t, m, n) := x in
  {| Version := v; Salt := salt; Nonce := nonce; Ciphertext := text; KDFTime := t; KDFMemory := m; KDFThreads := n |}.
#[local] Instance coded_records : StoreJSON := {|
  marshal_snapshot := encode_text; unmarshal_snapshot := fun s => m ← decode_text s; Ok (Some m);
  marshal_envelope := fun e => encode_text (envelope_fields e); unmarshal_envelope := fun s => x ← decode_text s; Ok (fields_envelope x);
|}.
#[local] Instance zero_bytes : Randomness tree := {| rand_Read := fun n t => (Ok (zeros (Z.to_nat n)), t) |}.
Lemma zeros_size n : 0 <= n -> byte_size (zeros (Z.to_nat n)) = n.
Proof.
  intros Hn. unfold byte_size. rewrite <-(Z2Nat.id n) at 2 by done. f_equal. clear Hn. induction (Z.to_nat n) as [|k IH]; [done|]. cbn. by rewrite IH.
Qed.
#[local] Instance marked_laws : EncryptionLaws.
Proof.
  split.
  - intros k nonce text _. cbn [gcm_Open gcm_Seal marked_texts]. rewrite <-str_app_assoc, has_prefix_app. by rewrite trim_prefix_app.
  - intros pass salt kdf n Hn. by apply zeros_size.
Qed.
#[local] Instance coded_laws : StoreJSONLaws.
Proof.
  split.
  - intros m _. cbn. by rewrite decode_encode_text.
  - intros s salt nonce text _. cbn [unmarshal_envelope marshal_envelope coded_records]. rewrite decode_encode_text. by cbn.
Qed.
#[local] Instance zero_bytes_laws : RandomnessLaws tree.
Proof. split. intros n t Hn Ht. cbn. split_and!; [done..|]. intros bytes [= <-]. by apply zeros_size. Qed.
Definition store_settings : FileSecretStore :=
  {| file_Path := "/vault/secrets"; file_Key := ""; file_KeyFile := ""; file_Passphrase := " open sesame "; file_PassphraseFile := "";
     file_KDF := Some {| kdf_Time := 2; kdf_Memory := 0; kdf_Threads := 1 |} |}.
Definition other_kdf : kdfSettings := {| Time := 5; Memory := 1024; Threads := 2 |}.
Definition first_store : Store := {| path := "/vault/secrets"; key := ""; passphrase := "open sesame"; kdf := {| Time := 2; Memory := 65536; Threads := 1 |};
  initialized := false; cachedSnapshot := None |}.
Example store_opens : New store_settings (∅ : tree) = Ok first_store.
Proof. vm_compute. reflexivity. Qed.
Lemma first_store_holds : holds ["vault"] "secrets" (∅ : tree, first_store) ∅.
Proof.
  apply (new_store_holds _ _ store_settings); [repeat constructor; by vm_compute|vm_compute; reflexivity|intros k n; by rewrite lookup_empty|reflexivity|exact store_opens].
Qed.
Lemma vault_clean : Forall clean_segment (["vault"] ++ ["secrets"]).
Proof. repeat constructor; by vm_compute. Qed.
Lemma other_kdf_in_range : kdf_in_range other_kdf.
Proof. by unfold kdf_in_range. Qed.
Definition asked : list store_op := [OpStore " app/db " "s3"; OpReopen other_kdf; OpGet "/app/db"; OpStore "b" "x"; OpDelete "app/db"; OpGet "app/db"; OpGet "a//b"; OpReopen other_kdf; OpList].
Definition asked_run : option (outcome (list answer * bool) * (tree * Store)) := run_ops asked (∅, first_store).
Definition asked_answers : list answer := [Done; Done; Secret "s3"; Done; Done; Refused (NotFound "secret key not found" None);
  Refused (Invalid "secret key contains invalid path segment" None); Done; Keys ["b"]].
Lemma asked_run_ok : match asked_run with Some (Ok (answers, whole), _) => answers = asked_answers /\ whole = true | _ => False end.
Proof. vm_compute. split; reflexivity. Qed.
Lemma asked_plain : Forall plain_op asked.
Proof.
  assert (forall k v n0, NormalizeKey k = Ok n0 -> valid_utf8 v = true -> valid_utf8 n0 = true -> plain_op (OpStore k v)) as Hst.
  { intros k v n0 E Hv Hn. split; [done|]. intros n. rewrite E. by intros [= <-]. }
  unfold asked. repeat apply Forall_cons_2; try exact other_kdf_in_range; try exact I; try (eapply Hst; vm_compute; reflexivity). apply Forall_nil_2.
Qed.
Lemma file_store_is_a_map_witness : exists st' m', asked_run = Some (Ok (asked_answers, true), st') /\ spec_ops asked ∅ = (asked_answers, m')
  /\ holds ["vault"] "secrets" st' m'.
Proof.
  destruct (file_store_is_a_map ["vault"] "secrets" vault_clean asked (∅ : tree, first_store) ∅ first_store_holds (map_Forall_empty _) asked_plain)
    as (answers & whole & st' & Hrun & Hspec). fold asked_run in Hrun. pose proof asked_run_ok as Hok. rewrite Hrun in Hok. destruct Hok as [-> ->].
  destruct (spec_ops asked ∅) as [expected m']. destruct Hspec as [<- Hh]. exists st', m'. split; [exact Hrun|]. split; [reflexivity|exact Hh].
Defined.
Definition masked_run : (tree * Store) * result error value := store_MaskPayload secret_sample (∅, first_store).
Lemma masked_run_ok : match masked_run with (_, Ok masked) => masked = masked_sample | _ => False end.
Proof. vm_compute. reflexivity. Qed.
Lemma sample_candidates_text : text_candidates secret_sample.
Proof.
  intros collected Hc. assert (collectMaskCandidates max_depth secret_sample "" {| candidates := ∅; scopeByKey := ∅ |} =
    Ok {| candidates := {[ "/password" := "s3" ]}; scopeByKey := {[ "password" := "/password" ]} |}) as E by (vm_compute; reflexivity).
  rewrite E in Hc. injection Hc as <-. cbn [candidates]. intros k x [<- <-]%lookup_singleton_Some. split; [reflexivity|].
  intros n En. vm_compute in En. injection En as <-. reflexivity.
Qed.
Lemma masked_secrets_outlive_process_witness : exists st' masked, masked_run = (st', Ok masked) /\
  match store_ResolvePayload masked (st'.1, new_store (path st'.2) other_kdf (key st'.2) (passphrase st'.2)) with
  | Ok resolved => resolved = secret_sample
  | Err e => outside_error e
  end.
Proof.
  pose proof masked_run_ok as Hok. destruct masked_run as [st' [masked|e]] eqn:Erun; [|contradiction]. exists st', masked. split; [reflexivity|].
  apply (masked_secrets_outlive_process ["vault"] "secrets" vault_clean secret_sample secret_sample (∅ : tree, first_store) st' masked ∅ other_kdf);
    [exact first_store_holds|apply map_Forall_empty|exact other_kdf_in_range|apply normal_wf, normalb_normal; vm_compute; reflexivity|vm_compute; reflexivity
    |exact secret_sample_plain|exact sample_candidates_text|exact Erun].
Defined.
(** The disk in memory never fails: the other process has the secret. *)
Example other_process_resolves : match masked_run with
  | (st', Ok masked) => store_ResolvePayload masked (st'.1, new_store "/vault/secrets" other_kdf "" "open sesame") = Ok secret_sample
  | _ => False end.
Proof. vm_compute. reflexivity. Qed.
(** Without the passphrase it does not open. *)
Example wrong_key_refused : match asked_run with
  | Some (_, (t, _)) => match List (t, new_store "/vault/secrets" other_kdf (zeros 31 +:+ "1") "") with
                        | Some (Err (Failed e), _) => is_category e AuthError = true | _ => False end
  | _ => False end.
Proof. vm_compute. reflexivity. Qed.
(** A file whose nonce is not of twelve bytes stops the program. *)
Example short_nonce_panics (data := marshal_envelope {| Version := 1; Salt := ""; Nonce := ""; Ciphertext := ""; KDFTime := 0; KDFMemory := 0; KDFThreads := 0 |}) :
  open_snapshot (new_store "/vault/secrets" other_kdf (zeros 32) "") data = Err Panic.
Proof. vm_compute. reflexivity. Qed.
(** Settings of the key derivation beyond their width are taken for weaker ones. *)
Example kdf_settings_wrap : resolveKDFSettings (Some {| kdf_Time := 4294967297; kdf_Memory := 65536; kdf_Threads := 257 |})
  = Ok {| Time := 1; Memory := 65536; Threads := 1 |}.
Proof. reflexivity. Qed.
(** Two stores of one file at a time: each keeps the snapshot it read, so the second to write
    takes away what the first one wrote. *)
Definition both_store : option (outcome (list string)) :=
  match Init (∅ : tree, first_store) with
  | Some (Ok _, (t, mine)) =>
      match store_Store "a" "1" (t, first_store) with
      | Some (Ok _, (t, _)) =>
          match store_Store "b" "2" (t, mine) with
          | Some (Ok _, (t, _)) => fst <$> List (t, first_store)
          | _ => None
          end
      | _ => None
      end
  | _ => None
  end.
Example other_store_overwrites : both_store = Some (Ok ["b"]).
Proof. vm_compute. reflexivity. Qed.
End at_work.
